(* ===== verification/_CoqProject ===== *)
-Q . S2P
Prelude.v
Types.v
Packet.v
Window.v
WindowRefine.v
SendQueue.v
Context.v
PathEvent.v
Validate.v
PeerTable.v
Threads.v
RecvSlot.v
Session.v
Fin.v
RecvWindow.v
HealthThread.v
Send.v
SendTurn.v
Dispatch.v
RecvThread.v
Frame.v
Delivery.v
UdpDelivery.v
PeerDelivery.v
Retransmit.v
Repair.v
PingRepair.v
Network.v
UdpSession.v
StalePing.v
RawDelivery.v
Connect.v
Reconnect.v
HealthCheck.v
OpenPaths.v
Open.v
Resources.v
OpenThreads.v
OpenState.v
Opened.v
Close.v
Closed.v
Lifecycle.v
Waits.v
HealthSleep.v
Config.v
ConfigLoad.v
ConfigRoundtrip.v
Trace.v
Text.v
Console.v
ConsoleParse.v
ConsoleSafe.v
TcpServer.v
TcpServerLinux.v
TcpServerWindows.v
