(* ===== verification/Prelude.v ===== *)
(** Verification of porter, the message transport library of this repository
    (C sources under src/prod; file names below are relative to
    src/prod/libsrc/porter, src/prod/include and src/prod/include_internal).

    * The program

    A program opens a service by a configuration file or by structures, sends
    messages with [potr_service_send], is called back for messages and for
    connection and path events, and closes the service.  A service runs over UDP
    (unicast, multicast, broadcast, each with retransmission or RAW;
    bidirectional 1:1 and N:1) or over TCP, on up to four paths.  Messages are
    compressed, cut into elements, queued, packed into packets by a send thread,
    numbered, optionally sealed with AES-256-GCM and sent on every path; receive
    threads authenticate packets, follow the sessions of the remote end, put
    packets into order, ask for missing ones (NACK), reassemble messages and call
    back.  Health threads send PING packets; silent paths and peers time out.
    FIN packets end a session.  TCP services have one connect or accept thread
    per path.

    * Files, in dependency order

    - [Prelude]: unsigned C arithmetic ([u8] to [u64], [⊕], [⊖]), byte order,
      lists, tactics ([zmod]), the hint database [porter].
    - [Types]: porter_const.h, porter_result.h, porter_type.h, inline predicates of
      potr_context.h, infra/potr_result.c.
    - [Packet]: protocol/packet.c.  A packet is a record of header fields in
      network byte order and a payload; the byte order of the host is the class
      [CplatByteorder].
    - [Window]: protocol/window.c, protocol/seqnum.c.  [WindowRefine] specifies the
      receive window as a finite map and proves the simulation.
    - [SendQueue]: infra/potr_send_queue.c; every operation is the passes it
      makes through its critical section, and [sq_step] interleaves the passes
      and the waits of any number of threads.
    - [Context]: potr_context.h.  [potr_context] as a record; [conn] holds the
      fields that a peer and a 1:1 service have in common; the monad
      [M A = world -> option (A * world * list effect)] of the handlers, where
      [None] is a fault (access out of range or through a null pointer, a wait
      on or a disposal of a missing lock or thread, a handle overwritten or
      released twice) and effects are callbacks, packets sent, wake-ups and
      calls that lock a null mutex ([EvNullLock]); the invariant [ctx_ok].
      [Platform] is what the platform library returns, as functions of the number of
      calls made so far, so that theorems hold for every behaviour of clocks,
      random numbers, allocation and sockets; [PlatformLaws] is what its
      documentation promises (authenticated encryption, compression).
    - [PathEvent]: potr_path_event.c. [Validate]: thread/thread_recv_validate.c
      and the sealing of control packets. [PeerTable]: potr_peer_table.c,
      api/potr_peer_disconnect.c.
    - [Threads]: start and stop of the send, receive and health threads, and
      api/api_context_cleanup.c.  A lock, condition variable, thread, buffer or
      listening socket is a [handle] that the context holds or does not hold,
      and so is a socket while it is only in a local variable of the code that
      sets up a path ([HLocalSock]); [Host] is what creating and joining them
      and the socket calls return.
    - [RecvSlot], [Session], [Fin], [RecvWindow], [Dispatch], [RecvThread]:
      thread/thread_recv_*.c, infra/potr_tcp_control.c,
      thread/potr_recv_thread.c.  [HealthThread]: thread/potr_health_thread.c.
    - [Send], [SendTurn]: api/potr_service_send.c, thread/potr_send_thread.c.
    - [Frame], [Delivery], [UdpDelivery], [Retransmit]: what the handlers leave
      alone; sending and receiving put together, over TCP and over a UDP network
      that loses, repeats and reorders; the answers of a sender to NACKs.
      [PeerDelivery]: the server of an N:1 service and its clients.
    - [Repair], [PingRepair], [Network]: both ends of a one-way UDP service
      together: the NACKs of a receiver and the packets sent again, the PINGs of a
      sender and the scan they start, and the step relation [net_step] of the two
      ends over a network that keeps every datagram ever sent.
    - [UdpSession], [StalePing], [RawDelivery]: the border of two sessions; late
      PINGs; RAW services.
    - [Connect], [Reconnect]: thread/potr_connect_thread.c,
      thread/thread_connect_prepare.c, thread/potr_connected_threads.c.  The
      accept threads are a step relation [tcp_step] over their critical sections.
    - [HealthCheck]: time-outs of a 1:1 service.
    - [OpenPaths], [Open]: api/api_open_paths*.c, api/potr_service_open.c.
      [Resources], [OpenThreads], [OpenState], [Opened] prove what they do: a
      triple [R g l s] says that exactly the handles [l] are held.
    - [Close], [Closed]: api/potr_service_close.c.  [Lifecycle]: open, run, close.
      [Waits]: the waits of the TCP side.  [HealthSleep]: the sleep of a health
      thread, interleaved with the calls that wake and stop it.
    - [Config], [ConfigLoad], [ConfigRoundtrip]: protocol/config_*.c,
      config_parse_common.h, api/potr_service_open_from_config.c,
      api/potr_service_get_type.c.  [ConfigLib] and [ConfigLaws] are the JSON
      parser, the number parsers and the hash.
    - [Trace]: infra/potr_trace.c.
    - [Text], [Console], [ConsoleParse], [ConsoleSafe]:
      src/prod/src/cmd/porter-test/porter-test.c.  Strings are byte buffers with
      a cursor; the session of the command is a record around the library.
    - [TcpServer], [TcpServerLinux], [TcpServerWindows]: the sample server of
      src/prod/src/cmd/tech-sample/tcpServer, which does not use the library.  A
      process is a program over its descriptors; [Sys] is what the system
      answers; the class [ServerPlatform] is the interface of tcpServer.h.  The
      pool of workers of the Windows version is the step relation [pool_step].

    * What the theorems show

    - Delivery: messages sent over TCP arrive exactly once, in order and unchanged
      (C1); over UDP the receiver delivers exactly the messages of the packets
      that a reorder buffer as wide as the window hands over, whatever the network
      repeats, loses, reorders or adds (C2), and the server of an N:1 service does
      so for every client on its own (C3); a NACK for a packet of the send window
      is answered with that packet (C4). On a one-way link with reorder_timeout_ms
      0 a lost packet that is still in the window of the sender is repaired in one
      round trip when a later one arrives (C5), and a PING repairs all losses, the
      last packets included, of a stream that is not more than a window ahead
      (C6); with NACKs, repeated packets and PINGs underway in any order, what has
      been delivered is a prefix of what was sent, as long as no REJECT and no
      stale PING is delivered (C7). A RAW receiver that does not wait hands over
      every packet that arrives, copies included, in the order of arrival (C8).
      Turns of the send thread pack and route, which fixes the datagrams and their
      destinations (C16, C17); a call of [potr_service_send] queues what it was
      asked to, for those it names (C18).
    - No input breaks a receiver: arbitrary datagrams (C9), arbitrary TCP streams
      (C10); what an encrypted service accepts is authentic (C32).
    - Life of a service: opening is all or nothing for every type and failure
      (C12), up to threads that cannot be joined, and refuses bad settings (C30);
      closing releases everything, with the same exception, whatever other
      threads do at the points where it waits that keeps the invariant (C13);
      opening, receiving and closing together (C11); by configuration file
      ([ConfigLoad.config_open_all_or_nothing]); from the console of the test
      command (C27).
    - Concurrency: the send queue is a FIFO (C20) that loses no wake-up (C21);
      the accept threads keep one session (C14) and let a close end (C15); the stop
      of a health thread is not lost (C22).
    - Windows and sessions: the receive window refines a reorder buffer (C19); the
      newest session is followed (C31); path events (C34); peer table (C35).
    - Formats: packets ([Packet.packed_roundtrip], [Packet.parse_safe]), sealed
      control packets (C33), configuration files (C25, C26), the command language
      of the console (C28).
    - Waiting: the FIN_ACK of a close (C23), a connect with time-out (C24).
    - The sample server: a worker keeps its connections and echoes what the
      system lets it write (C29);
      [TcpServerLinux.linux_server_echoes], [TcpServerWindows.scan_serves_once]
      and [TcpServerWindows.pool_bounded] show more of it.
    - Defects of the code, stated as what it does: a time-out leaves the session
      (C36); a late PING makes the receiver pass over a packet that is not sent yet
      (C37); fragments are joined with the next message after a REJECT (C38) and
      with the next session ([UdpSession.session_switch_keeps_fragments]); a copy
      that arrives after the FIN is delivered again (C39); nonces repeat after a
      reconnect (C40); a socket is lost
      ([Reconnect.sender_start_failure_loses_socket]).
      A receiver throws NACKs away ([Repair.receiver_ignores_nack]); a FIN over
      UDP ([UdpSession.fin_dispatched]) and a close during the undo of a start
      ([Lifecycle.close_during_undo]) lock a null mutex.
      [HealthSleep.health_wake_lost], [Waits.health_stop_race],
      [TcpServerWindows.pool_race_overflows], [Packet.header_layout_big_differs],
      [ConsoleSafe.role_words_case], [ConsoleSafe.tcp_bidir_receiver_mute] and
      [TcpServerWindows.prefork_parent_keeps_sockets] state seven more.

    * Fuel

    Loops over arrays recurse on the number of entries. Where C loops on a
    condition, the definition takes fuel, and running out is a fault, so the
    theorems show that it does not happen: the search for a free peer identifier
    gets the number of peers plus three turns, draining a receive window its
    size plus one, the scan of a PING gap the window size plus one, the polling
    of a connect one turn per millisecond of its time-out plus one (C24: one per
    100 ms is enough), doubling a buffer 64, a loop over a string one turn per
    byte of its buffer plus one. Threads that loop until they are stopped are
    run for the list of turns they are given; the theorems hold for every list;
    the loops of the sample server get a number of turns, and a run that needs
    more of them is [Running].

    * Abstractions

    - Handlers that C runs under a mutex are single steps; where threads meet
      (send queue, accept threads, close) the critical sections are the steps of
      an interleaving. Opening, connecting and closing fault when they wait on,
      signal or dispose of a lock that does not exist.  The locks that the code
      may take without their being there (recv_window_mutex in
      [thread_recv_fin_fire], send_window_mutex in [tcp_send_ping_packet] and
      [get_fin_target_seq]) are calls of [lock_mutex], which records the null
      lock and goes on; the other mutexes of the handlers are taken for granted:
      they exist as long as the threads that take them, except for the lock of a
      peer, whose creation may fail unnoticed ([p_send_window_mutex]).
    - A socket is its validity; a buffer that is only scratch space is a handle.
      A parsed payload is a value, although the C code keeps a pointer into a
      receive buffer that is not reused before the packet has been handled.
    - What other threads do at the points where [potr_service_close] waits is an
      argument ([drain], [wakeups]) required to keep the invariant of the service
      ([bystander]): on UDP to leave its handles alone, as the handlers are shown
      to do, on TCP also to stop threads in the order of the code, as
      [undo_start] is shown to do.  Races inside the sections between two waits
      are outside; [Waits.health_stop_race] is one.
    - A health thread is interleaved with its callers between atomic actions
      (taking the mutex, testing a flag, waiting, waking); a wait may end at any
      time, as the clock allows it.
    - In [Network] a datagram that was sent may arrive never, late or many times;
      two kinds are left out of the steps because of the defects above: REJECTs,
      which a sender sends only for packets out of its window, and PINGs that
      announce less than the receiver has handed over (C37).
    - The arguments of the test command, the lines typed at its prompt and the
      files it reads are arguments of its model.
    - A failed socket call reports a cause ([ErrorLaws]); a role is one of the two
      enumerators; [size_t] has 64 bits.

    * Not modelled

    The platform library cplat and cJSON, which are not part of the sources and
    appear as the parameters above; the memory model of atomics (each access is
    sequentially consistent); real time other than the values of the clocks; the
    signal handlers of the sample server other than the flag they clear.  Headers
    that only declare functions have no definition of their own. *)

From stdpp Require Import base list numbers option.
From Stdlib Require Import ZArith Lia ZifyBool.

Declare Scope porter_scope.
Delimit Scope porter_scope with porter.
Local Open Scope Z_scope.

(** ** Unsigned machine integers

    A [uintN_t] is a [Z] together with the reduction C applies when a value is
    stored in it. *)

Definition u8 (z : Z) : Z := z mod 256.
Definition u16 (z : Z) : Z := z mod 65536.
Definition u32 (z : Z) : Z := z mod 4294967296.
Definition u64 (z : Z) : Z := z mod 18446744073709551616.

(** Conversion to a signed type of the same width (two's complement). *)
Definition i32 (z : Z) : Z :=
  if u32 z <? 2147483648 then u32 z else u32 z - 4294967296.
Definition i64 (z : Z) : Z :=
  if u64 z <? 9223372036854775808 then u64 z else u64 z - 18446744073709551616.

(** [uint32_t] addition and subtraction. *)
Notation "a ⊕ b" := (u32 (a + b)) (at level 50, left associativity) : porter_scope.
Notation "a ⊖ b" := (u32 (a - b)) (at level 50, left associativity) : porter_scope.

(** [flags & mask] used as a condition. *)
Definition has_flag (flags mask : Z) : bool := negb (Z.land flags mask =? 0).
Notation "x 'has' m" := (has_flag x m) (at level 55, no associativity) : porter_scope.

Local Open Scope porter_scope.

(** Arithmetic on values reduced modulo a power of two. *)
Ltac zmod := unfold u8, u16, u32, u64 in *; Z.div_mod_to_equations; lia.

(** Case analysis on every boolean or option scrutinee of the goal. *)
Ltac destruct_ifs :=
  repeat match goal with
  | |- context [if ?b then _ else _] => destruct b eqn:?
  end.

(** Split the conditions a guard of the code leaves in the context. *)
Ltac bool_hyps :=
  repeat match goal with
  | H : _ && _ = true |- _ => apply andb_true_iff in H as [? ?]
  | H : _ || _ = false |- _ => apply orb_false_iff in H as [? ?]
  | H : negb _ = true |- _ => apply negb_true_iff in H
  | H : negb _ = false |- _ => apply negb_false_iff in H
  end.

Create HintDb porter discriminated.
Create Rewrite HintDb porter.

Lemma u32_range z : 0 <= u32 z < 4294967296.
Proof. apply Z.mod_pos_bound. lia. Qed.

Lemma u16_range z : 0 <= u16 z < 65536.
Proof. apply Z.mod_pos_bound. lia. Qed.

Lemma u8_range z : 0 <= u8 z < 256.
Proof. apply Z.mod_pos_bound. lia. Qed.

Lemma u64_range z : 0 <= u64 z < 18446744073709551616.
Proof. apply Z.mod_pos_bound. lia. Qed.

Lemma u32_small z : 0 <= z < 4294967296 -> u32 z = z.
Proof. apply Z.mod_small. Qed.

Lemma u16_small z : 0 <= z < 65536 -> u16 z = z.
Proof. apply Z.mod_small. Qed.

Lemma u64_small z : 0 <= z < 18446744073709551616 -> u64 z = z.
Proof. apply Z.mod_small. Qed.

Lemma u32_idem z : u32 (u32 z) = u32 z.
Proof. apply u32_small, u32_range. Qed.

Lemma u32_add_l a b : u32 a ⊕ b = a ⊕ b.
Proof. unfold u32. apply Zplus_mod_idemp_l. Qed.

Lemma u32_add_r a b : a ⊕ u32 b = a ⊕ b.
Proof. unfold u32. apply Zplus_mod_idemp_r. Qed.

Lemma u32_sub_l a b : u32 a ⊖ b = a ⊖ b.
Proof. unfold u32. apply Zminus_mod_idemp_l. Qed.

Lemma u32_sub_r a b : a ⊖ u32 b = a ⊖ b.
Proof. unfold u32. apply Zminus_mod_idemp_r. Qed.

(** The distance from [b] to [b + k] is [k], across the wrap-around. *)
Lemma u32_dist b k : 0 <= k < 4294967296 -> (b ⊕ k) ⊖ b = k.
Proof.
  intros Hk. rewrite u32_sub_l.
  replace (b + k - b) with k by lia. by apply u32_small.
Qed.

(** Every 32-bit value is its distance from [b] past [b]. *)
Lemma u32_at_dist b s : 0 <= s < 4294967296 -> b ⊕ (s ⊖ b) = s.
Proof.
  intros Hs. rewrite u32_add_r.
  replace (b + (s - b)) with s by lia. by apply u32_small.
Qed.

Lemma u32_self a : a ⊖ a = 0.
Proof. by rewrite Z.sub_diag. Qed.

(** Moving the origin by one moves every distance by one. *)
Lemma u32_dist_succ s b :
  0 < s ⊖ b -> s ⊖ (b ⊕ 1) = (s ⊖ b) - 1.
Proof. rewrite u32_sub_r. intros H. zmod. Qed.

Lemma i32_of_u32 z : -2147483648 <= z < 2147483648 -> i32 (u32 z) = z.
Proof.
  intros Hz. unfold i32. rewrite u32_idem.
  destruct (u32 z <? 2147483648) eqn:E; zmod.
Qed.

Lemma u64_idem z : u64 (u64 z) = u64 z.
Proof. apply u64_small, u64_range. Qed.

Lemma i64_of_u64 z :
  -9223372036854775808 <= z < 9223372036854775808 -> i64 (u64 z) = z.
Proof.
  intros Hz. unfold i64. rewrite u64_idem.
  destruct (u64 z <? 9223372036854775808) eqn:E; zmod.
Qed.

Lemma u64_of_i64 z : u64 (i64 z) = u64 z.
Proof. unfold i64. destruct_ifs; zmod. Qed.

Lemma u32_of_i32 z : u32 (i32 z) = u32 z.
Proof. unfold i32. destruct_ifs; zmod. Qed.

#[export] Hint Resolve u8_range u16_range u32_range u64_range : porter.
#[export] Hint Rewrite u32_idem u32_add_l u32_add_r u32_sub_l u32_sub_r : porter.

(** ** Byte buffers

    A buffer is the list of its bytes.  [mem_read] and [mem_write] are
    [memcpy] out of and into a buffer; [None] is an access outside it. *)

Section Memory.
Context {A : Type}.
Implicit Types buf src : list A.

Definition mem_read (buf : list A) (off n : nat) : option (list A) :=
  if (off + n <=? length buf)%nat then Some (take n (drop off buf)) else None.

Definition mem_write (buf : list A) (off : nat) (src : list A) : option (list A) :=
  if (off + length src <=? length buf)%nat
  then Some (take off buf ++ src ++ drop (off + length src) buf) else None.

Lemma mem_read_length buf off n bs : mem_read buf off n = Some bs -> length bs = n.
Proof.
  unfold mem_read. destruct_ifs; [|done]. intros [= <-].
  rewrite length_take, length_drop. apply Nat.leb_le in Heqb. lia.
Qed.

Lemma mem_read_prefix buf n off m hdr bs :
  mem_read buf 0 n = Some hdr -> mem_read hdr off m = Some bs -> mem_read buf off m = Some bs.
Proof.
  unfold mem_read. destruct (Nat.leb_spec (0 + n) (length buf)); [|done]. intros [= <-].
  rewrite drop_0, length_take. destruct (Nat.leb_spec (off + m) (n `min` length buf)); [|done].
  intros [= <-]. rewrite (proj2 (Nat.leb_le _ _)) by lia. f_equal.
  rewrite skipn_firstn_comm, take_take. f_equal. lia.
Qed.

Lemma mem_read_Some buf off n :
  (off + n <= length buf)%nat -> mem_read buf off n = Some (take n (drop off buf)).
Proof. intros H. unfold mem_read. by rewrite (proj2 (Nat.leb_le _ _)). Qed.

Lemma mem_write_Some buf off src :
  (off + length src <= length buf)%nat ->
  mem_write buf off src = Some (take off buf ++ src ++ drop (off + length src) buf).
Proof. intros H. unfold mem_write. by rewrite (proj2 (Nat.leb_le _ _)). Qed.

Lemma mem_write_inv buf off src buf' :
  mem_write buf off src = Some buf' ->
  (off + length src <= length buf)%nat /\
  buf' = take off buf ++ src ++ drop (off + length src) buf.
Proof.
  unfold mem_write. destruct_ifs; [|done]. intros [= <-].
  apply Nat.leb_le in Heqb. done.
Qed.

Lemma mem_write_length buf off src buf' :
  mem_write buf off src = Some buf' -> length buf' = length buf.
Proof.
  intros [Hle ->]%mem_write_inv.
  rewrite !length_app, length_take, length_drop. lia.
Qed.

(** Reading back the bytes just written. *)
Lemma mem_write_read_same buf off src buf' n :
  mem_write buf off src = Some buf' -> (n <= length src)%nat ->
  take n (drop off buf') = take n src.
Proof.
  intros [Hle ->]%mem_write_inv Hn.
  rewrite drop_app_ge by (rewrite length_take; lia).
  rewrite length_take, Nat.min_l by lia. rewrite Nat.sub_diag, drop_0.
  by rewrite take_app_le.
Qed.

(** A read of a range that the write does not touch is unchanged. *)
Lemma mem_write_read_before buf off src buf' o n :
  mem_write buf off src = Some buf' -> (o + n <= off)%nat ->
  take n (drop o buf') = take n (drop o buf).
Proof.
  intros [Hle ->]%mem_write_inv Hn.
  rewrite drop_app_le by (rewrite length_take; lia).
  rewrite take_app_le by (rewrite length_drop, length_take; lia).
  rewrite !take_drop_commute, take_take. by rewrite Nat.min_l by lia.
Qed.

Lemma mem_write_read_after buf off src buf' o n :
  mem_write buf off src = Some buf' -> (off + length src <= o)%nat ->
  take n (drop o buf') = take n (drop o buf).
Proof.
  intros [Hle ->]%mem_write_inv Hn.
  rewrite app_assoc, drop_app_ge by (rewrite length_app, length_take; lia).
  rewrite drop_drop, length_app, length_take. do 2 f_equal. lia.
Qed.
End Memory.

(** ** Byte order of integers *)

Fixpoint le_encode (n : nat) (v : Z) : list Z :=
  match n with
  | O => []
  | S n => (v mod 256) :: le_encode n (v / 256)
  end.

Fixpoint le_decode (l : list Z) : Z :=
  match l with
  | [] => 0
  | b :: l => b + 256 * le_decode l
  end.

Definition be_encode (n : nat) (v : Z) : list Z := rev (le_encode n v).
Definition be_decode (l : list Z) : Z := le_decode (rev l).

Definition is_byte (b : Z) : Prop := 0 <= b < 256.

Lemma length_le_encode n v : length (le_encode n v) = n.
Proof. revert v; induction n; intros v; simpl; auto. Qed.

Lemma length_be_encode n v : length (be_encode n v) = n.
Proof. unfold be_encode. by rewrite length_rev, length_le_encode. Qed.

Lemma le_encode_bytes n v : Forall is_byte (le_encode n v).
Proof.
  revert v; induction n; intros v; simpl; constructor; auto.
  apply Z.mod_pos_bound. lia.
Qed.

Lemma le_decode_encode n v :
  le_decode (le_encode n v) = v mod 256 ^ Z.of_nat n.
Proof.
  revert v; induction n as [|n IH]; intros v; cbn [le_encode le_decode].
  - by rewrite Z.mod_1_r.
  - rewrite IH, Nat2Z.inj_succ, Z.pow_succ_r by lia.
    rewrite Z.rem_mul_r by lia. done.
Qed.

Lemma be_decode_encode n v :
  0 <= v < 256 ^ Z.of_nat n -> be_decode (be_encode n v) = v.
Proof.
  intros Hv. unfold be_decode, be_encode.
  by rewrite rev_involutive, le_decode_encode, Z.mod_small.
Qed.

Lemma le_encode_decode l :
  Forall is_byte l -> le_encode (length l) (le_decode l) = l.
Proof.
  induction 1 as [|b l Hb _ IH]; simpl; [done|]. unfold is_byte in Hb.
  assert ((b + 256 * le_decode l) mod 256 = b) as -> by zmod.
  assert ((b + 256 * le_decode l) / 256 = le_decode l) as -> by zmod.
  by rewrite IH.
Qed.

Lemma le_decode_bound l :
  Forall is_byte l -> 0 <= le_decode l < 256 ^ Z.of_nat (length l).
Proof.
  induction 1 as [|b l Hb _ IH]; simpl length; cbn [le_decode]; [lia|].
  unfold is_byte in Hb. rewrite Nat2Z.inj_succ, Z.pow_succ_r by lia. nia.
Qed.

Lemma le_encode_app n m v :
  le_encode (n + m) v = le_encode n v ++ le_encode m (v / 256 ^ Z.of_nat n).
Proof.
  revert v; induction n as [|n IH]; intros v.
  - simpl. by rewrite Z.div_1_r.
  - cbn [Nat.add le_encode app]. f_equal. rewrite IH. do 2 f_equal.
    rewrite Nat2Z.inj_succ, Z.pow_succ_r by lia.
    rewrite Zdiv_Zdiv by lia. done.
Qed.

Lemma le_encode_mod n v : le_encode n (v mod 256 ^ Z.of_nat n) = le_encode n v.
Proof.
  rewrite <- le_decode_encode.
  rewrite <- (length_le_encode n v) at 1. apply le_encode_decode, le_encode_bytes.
Qed.

(** ** Ring indices *)

Lemma nat_mod_once (a n : nat) :
  (a < n + n)%nat -> (a mod n = if a <? n then a else a - n)%nat.
Proof.
  intros Ha. destruct (Nat.ltb_spec a n); [by apply Nat.mod_small|].
  symmetry. apply (Nat.mod_unique a n 1); lia.
Qed.

(** ** Lists *)

(** Every index of an updated array is either the updated one or unchanged. *)
Lemma list_lookup_insert_cases {A} (l : list A) i j x y :
  <[i:=x]> l !! j = Some y -> (i = j /\ y = x) \/ (i <> j /\ l !! j = Some y).
Proof.
  intros H. destruct (decide (i = j)) as [->|Hne].
  - left. split; [done|]. apply list_lookup_insert_Some in H. naive_solver.
  - right. rewrite list_lookup_insert_ne in H by done. done.
Qed.

Lemma lookup_lt_is_Some_Z {A} (l : list A) (i : Z) :
  0 <= i < Z.of_nat (length l) -> exists x, l !! Z.to_nat i = Some x.
Proof. intros Hi. apply lookup_lt_is_Some_2. lia. Qed.

(** Number of elements that satisfy a test, and how an update changes it. *)
Fixpoint count_if {A} (f : A -> bool) (l : list A) : nat :=
  match l with [] => O | x :: l => (if f x then 1 else 0) + count_if f l end.

Lemma count_if_insert {A} (f : A -> bool) l i x y :
  l !! i = Some x ->
  (count_if f (<[i:=y]> l) + (if f x then 1 else 0) = count_if f l + (if f y then 1 else 0))%nat.
Proof.
  revert i. induction l as [|z l IH]; intros [|i] Hi; simpl in *; try done.
  - injection Hi as ->. lia.
  - specialize (IH i Hi). lia.
Qed.

Lemma count_if_mono {A} (f : A -> bool) (g : A -> A) l :
  (forall x, f x = true -> f (g x) = true) -> (count_if f l <= count_if f (map g l))%nat.
Proof.
  intros Hg. induction l as [|x l IH]; simpl; [done|].
  destruct (f x) eqn:Hx; [rewrite (Hg x Hx); lia|destruct (f (g x)); lia].
Qed.

Lemma count_if_pos {A} (f : A -> bool) l :
  (0 < count_if f l)%nat -> exists i x, l !! i = Some x /\ f x = true.
Proof.
  induction l as [|x l IH]; simpl; [lia|]. destruct (f x) eqn:Hx; intros H.
  - by exists O, x.
  - destruct IH as (i & y & ? & ?); [lia|]. by exists (S i), y.
Qed.
