(* ===== verification/Types.v ===== *)
(** Public constants, enumerations, configuration records and the type
    predicates of porter: [porter_const.h], [porter_result.h],
    [porter_type.h], the inline helpers of [potr_context.h] and the mapping of
    platform errors to result codes in [potr_result.c]. *)

From stdpp Require Import base list numbers option.
From Stdlib Require Import ZArith Lia ZifyBool.
From S2P Require Import Prelude.
Local Open Scope Z_scope.

(** ** Result codes ([porter_result.h]) *)

Definition POTR_OK : Z := 0.
Definition POTR_ERR_UNKNOWN : Z := -1.
Definition POTR_ERR_INVALID_ARGUMENT : Z := -2.
Definition POTR_ERR_UNSUPPORTED : Z := -3.
Definition POTR_ERR_NOT_FOUND : Z := -4.
Definition POTR_ERR_OUT_OF_MEMORY : Z := -10.
Definition POTR_ERR_FULL : Z := -11.
Definition POTR_ERR_EMPTY : Z := -12.
Definition POTR_ERR_OUT_OF_WINDOW : Z := -13.
Definition POTR_ERR_DISCONNECTED : Z := -20.
Definition POTR_ERR_TIMEOUT : Z := -21.
Definition POTR_ERR_EOF : Z := -22.
Definition POTR_ERR_IO : Z := -23.
Definition POTR_ERR_PROTOCOL : Z := -24.
Definition POTR_ERR_CANCELED : Z := -40.

(** ** Protocol constants ([porter_const.h]) *)

Definition POTR_SEND_COMPRESS : Z := 1.
Definition POTR_SEND_BLOCKING : Z := 2.

Definition POTR_FLAG_DATA : Z := 1.
Definition POTR_FLAG_NACK : Z := 2.
Definition POTR_FLAG_PING : Z := 4.
Definition POTR_FLAG_REJECT : Z := 8.
Definition POTR_FLAG_FIN : Z := 16.
Definition POTR_FLAG_ENCRYPTED : Z := 32.
Definition POTR_FLAG_FIN_TARGET_VALID : Z := 64.
Definition POTR_FLAG_FIN_ACK : Z := 128.

Definition POTR_FLAG_MORE_FRAG : Z := 1.
Definition POTR_FLAG_COMPRESSED : Z := 2.

Definition POTR_PROTOCOL_VERSION : Z := 1.
Definition POTR_CRYPTO_TAG_SIZE : nat := 16.
Definition POTR_CRYPTO_NONCE_SIZE : nat := 12.
Definition POTR_CRYPTO_KEY_SIZE : nat := 32.
Definition POTR_MAX_PAYLOAD : Z := 65507.
Definition POTR_MAX_WINDOW_SIZE : Z := 256.
Definition POTR_PAYLOAD_ELEM_HDR_SIZE : nat := 6.
Definition POTR_MAX_PATH : nat := 4.

Definition POTR_PING_STATE_UNDEFINED : Z := 0.
Definition POTR_PING_STATE_NORMAL : Z := 1.
Definition POTR_PING_STATE_ABNORMAL : Z := 2.

Definition POTR_PEER_NA : Z := 0.
Definition POTR_PEER_ALL : Z := 4294967295.

(** ** Enumerations ([porter_type.h]) *)

(** [POTR_TYPE_OTHER] stands for an [enum] object that holds a value outside
    the enumerators, such as the 0 a cleared service definition starts with. *)
Inductive potr_type :=
  | POTR_TYPE_UNICAST_RAW | POTR_TYPE_MULTICAST_RAW | POTR_TYPE_BROADCAST_RAW
  | POTR_TYPE_UNICAST | POTR_TYPE_MULTICAST | POTR_TYPE_BROADCAST
  | POTR_TYPE_UNICAST_BIDIR | POTR_TYPE_UNICAST_BIDIR_N1
  | POTR_TYPE_TCP | POTR_TYPE_TCP_BIDIR
  | POTR_TYPE_OTHER.

Inductive potr_role := POTR_ROLE_SENDER | POTR_ROLE_RECEIVER.

Inductive potr_event :=
  | POTR_EVENT_DATA | POTR_EVENT_CONNECTED | POTR_EVENT_DISCONNECTED
  | POTR_EVENT_PATH_CONNECTED | POTR_EVENT_PATH_DISCONNECTED.

#[export] Instance potr_type_eq_dec : EqDecision potr_type.
Proof. solve_decision. Defined.
#[export] Instance potr_role_eq_dec : EqDecision potr_role.
Proof. solve_decision. Defined.
#[export] Instance potr_event_eq_dec : EqDecision potr_event.
Proof. solve_decision. Defined.

(** ** Type predicates ([potr_context.h]) *)

Definition is_tcp_type (t : potr_type) : bool :=
  match t with POTR_TYPE_TCP | POTR_TYPE_TCP_BIDIR => true | _ => false end.

Definition is_raw_type (t : potr_type) : bool :=
  match t with
  | POTR_TYPE_UNICAST_RAW | POTR_TYPE_MULTICAST_RAW | POTR_TYPE_BROADCAST_RAW => true
  | _ => false
  end.

Definition raw_base_type (t : potr_type) : potr_type :=
  match t with
  | POTR_TYPE_UNICAST_RAW => POTR_TYPE_UNICAST
  | POTR_TYPE_MULTICAST_RAW => POTR_TYPE_MULTICAST
  | POTR_TYPE_BROADCAST_RAW => POTR_TYPE_BROADCAST
  | _ => t
  end.

Definition is_oneway_udp_type (t : potr_type) : bool :=
  match raw_base_type t with
  | POTR_TYPE_UNICAST | POTR_TYPE_MULTICAST | POTR_TYPE_BROADCAST => true
  | _ => false
  end.

Definition type_uses_immediate_health_ping (t : potr_type) : bool :=
  negb (is_oneway_udp_type t).

Definition type_eqb (t u : potr_type) : bool := bool_decide (t = u).
Definition role_eqb (r s : potr_role) : bool := bool_decide (r = s).

(** ** IPv4 endpoints ([cplat_ipv4_endpoint] and its helpers) *)

Record endpoint := Endpoint { ep_address : Z; ep_port : Z }.

#[export] Instance endpoint_eq_dec : EqDecision endpoint.
Proof. solve_decision. Defined.

Definition endpoint_is_unset (e : endpoint) : bool :=
  (ep_address e =? 0) && (ep_port e =? 0).

Definition endpoint_clear : endpoint := Endpoint 0 0.

(** ** Time ([cplat_timespec])

    [cplat_timespec_cmp] orders time stamps by seconds and then nanoseconds;
    [cplat_timespec_diff_ms] and [cplat_timespec_add_ms] are the platform
    library's, taken as parameters where they are used. *)

Record timespec := Timespec { tv_sec : Z; tv_nsec : Z }.

#[export] Instance timespec_eq_dec : EqDecision timespec.
Proof. solve_decision. Defined.

(** ** Platform results ([potr_result.c]) *)

Inductive cplat_result :=
  | CPLAT_OK | CPLAT_ERR_EOF | CPLAT_ERR_INVALID_ARGUMENT | CPLAT_ERR_IN_PROGRESS
  | CPLAT_ERR_TIMEOUT | CPLAT_ERR_OTHER.

#[export] Instance cplat_result_eq_dec : EqDecision cplat_result.
Proof. solve_decision. Defined.

Definition cplat_ok (r : cplat_result) : bool := bool_decide (r = CPLAT_OK).

(** The error causes the switch of [potr_internal_result_from_error] names;
    [CPLAT_CAUSE_UNLISTED] is any other value (its [default] label). *)
Inductive cplat_cause :=
  | CPLAT_CAUSE_NONE | CPLAT_CAUSE_TIMEOUT
  | CPLAT_CAUSE_CONNECTION_REFUSED | CPLAT_CAUSE_CONNECTION_RESET
  | CPLAT_CAUSE_CONNECTION_ABORTED | CPLAT_CAUSE_NOT_CONNECTED | CPLAT_CAUSE_SHUTDOWN
  | CPLAT_CAUSE_OUT_OF_MEMORY | CPLAT_CAUSE_INVALID_ARGUMENT | CPLAT_CAUSE_UNSUPPORTED
  | CPLAT_CAUSE_OTHER | CPLAT_CAUSE_ACCESS_DENIED | CPLAT_CAUSE_ALREADY_CONNECTED
  | CPLAT_CAUSE_NOT_FOUND | CPLAT_CAUSE_ALREADY_EXISTS | CPLAT_CAUSE_SHARING_VIOLATION
  | CPLAT_CAUSE_NOT_A_DIRECTORY | CPLAT_CAUSE_IS_A_DIRECTORY
  | CPLAT_CAUSE_DIRECTORY_NOT_EMPTY | CPLAT_CAUSE_NAME_TOO_LONG | CPLAT_CAUSE_DISK_FULL
  | CPLAT_CAUSE_BUSY | CPLAT_CAUSE_INTERRUPTED | CPLAT_CAUSE_BROKEN_PIPE
  | CPLAT_CAUSE_TOO_MANY_OPEN_FILES | CPLAT_CAUSE_READ_ONLY | CPLAT_CAUSE_BUFFER_TOO_SMALL
  | CPLAT_CAUSE_IO_ERROR | CPLAT_CAUSE_WOULD_BLOCK | CPLAT_CAUSE_IN_PROGRESS
  | CPLAT_CAUSE_ADDRESS_IN_USE | CPLAT_CAUSE_ADDRESS_NOT_AVAILABLE
  | CPLAT_CAUSE_NETWORK_DOWN | CPLAT_CAUSE_NETWORK_UNREACHABLE
  | CPLAT_CAUSE_HOST_UNREACHABLE | CPLAT_CAUSE_MESSAGE_SIZE | CPLAT_CAUSE_NOT_INITIALIZED
  | CPLAT_CAUSE_UNLISTED.

Definition potr_internal_result_from_error (cause : cplat_cause) : Z :=
  match cause with
  | CPLAT_CAUSE_NONE => POTR_OK
  | CPLAT_CAUSE_TIMEOUT => POTR_ERR_TIMEOUT
  | CPLAT_CAUSE_CONNECTION_REFUSED | CPLAT_CAUSE_CONNECTION_RESET
  | CPLAT_CAUSE_CONNECTION_ABORTED | CPLAT_CAUSE_NOT_CONNECTED
  | CPLAT_CAUSE_SHUTDOWN => POTR_ERR_DISCONNECTED
  | CPLAT_CAUSE_OUT_OF_MEMORY => POTR_ERR_OUT_OF_MEMORY
  | CPLAT_CAUSE_INVALID_ARGUMENT => POTR_ERR_INVALID_ARGUMENT
  | CPLAT_CAUSE_UNSUPPORTED => POTR_ERR_UNSUPPORTED
  | _ => POTR_ERR_IO
  end.

Definition potr_internal_result_from_socket_result (r : cplat_result) (cause : cplat_cause) : Z :=
  match r with
  | CPLAT_OK => POTR_OK
  | CPLAT_ERR_EOF => POTR_ERR_EOF
  | CPLAT_ERR_INVALID_ARGUMENT => POTR_ERR_INVALID_ARGUMENT
  | _ => potr_internal_result_from_error cause
  end.

(** ** Service definition and global configuration ([porter_type.h]) *)

(** Address strings are kept as lists of character codes, without the
    terminating NUL; the empty list is the empty string. *)
Record potr_service_def := ServiceDef {
  service_id : Z;
  service_type : potr_type;
  dst_port : Z;
  src_port : Z;
  ttl : Z;
  pack_wait_ms : Z;
  multicast_group : list Z;
  broadcast_addr : list Z;
  src_addr : list (list Z);
  dst_addr : list (list Z);
  encrypt_key : list Z;
  encrypt_enabled : bool;
  max_peers_def : Z;
  service_health_interval_ms : Z;
  service_health_timeout_ms : Z;
  reconnect_interval_ms : Z;
  connect_timeout_ms : Z
}.

Record potr_global_config := GlobalConfig {
  window_size_cfg : Z;
  max_payload_cfg : Z;
  reorder_timeout_ms : Z;
  max_message_size : Z;
  send_queue_depth : Z;
  udp_health_interval_ms : Z;
  udp_health_timeout_ms : Z;
  tcp_health_interval_ms : Z;
  tcp_health_timeout_ms : Z;
  tcp_close_timeout_ms : Z
}.

(** [addr[0] == '\0'] for the [i]-th address of an address table. *)
Definition addr_is_empty (addrs : list (list Z)) (i : nat) : bool :=
  match addrs !! i with Some (_ :: _) => false | _ => true end.

(** Every type is exactly one of: TCP, one-way UDP, bidirectional 1:1, N:1,
    or not an enumerator. *)
Lemma type_partition t :
  is_tcp_type t = true \/ is_oneway_udp_type t = true \/
  t = POTR_TYPE_UNICAST_BIDIR \/ t = POTR_TYPE_UNICAST_BIDIR_N1 \/ t = POTR_TYPE_OTHER.
Proof. destruct t; simpl; tauto. Qed.

Lemma raw_base_type_not_raw t : is_raw_type (raw_base_type t) = false.
Proof. by destruct t. Qed.

Lemma result_from_error_ok cause :
  potr_internal_result_from_error cause = POTR_OK <-> cause = CPLAT_CAUSE_NONE.
Proof. split; [destruct cause; simpl; done | by intros ->]. Qed.
