(* ===== verification/Packet.v ===== *)
(** Wire packets: [packet.h], [packet.c] and the packet structure of
    [porter_type.h].  Builders fill a structure whose fields are in network
    byte order, [packet_header_bytes] is the memory image of that structure
    (what [memcpy] of its first 40 bytes puts on the wire), and the parser
    turns received bytes into host-order fields. *)

From stdpp Require Import base list numbers option.
From Stdlib Require Import ZArith Lia ZifyBool.
From S2P Require Import Prelude Types.
Local Open Scope Z_scope.
Local Open Scope porter_scope.

(** ** Host byte order

    The C memory image of an unsigned integer depends on the host; the
    platform library documents [cplat_hton*] as turning a host value into one
    whose memory image is big-endian, and [cplat_ntoh*] as the converse. *)

Inductive endian := LittleEndian | BigEndian.

Definition mem_of (e : endian) (n : nat) (v : Z) : list Z :=
  match e with LittleEndian => le_encode n v | BigEndian => be_encode n v end.

Definition mem_to (e : endian) (bs : list Z) : Z :=
  match e with LittleEndian => le_decode bs | BigEndian => be_decode bs end.

Class CplatByteorder := {
  host_endian : endian;
  cplat_hton16 : Z -> Z;
  cplat_hton32 : Z -> Z;
  cplat_ntoh16 : Z -> Z;
  cplat_ntoh32 : Z -> Z;
  hton16_spec v : 0 <= v < 65536 -> cplat_hton16 v = mem_to host_endian (be_encode 2 v);
  hton32_spec v : 0 <= v < 4294967296 -> cplat_hton32 v = mem_to host_endian (be_encode 4 v);
  ntoh16_spec v : 0 <= v < 65536 -> cplat_ntoh16 v = be_decode (mem_of host_endian 2 v);
  ntoh32_spec v : 0 <= v < 4294967296 -> cplat_ntoh32 v = be_decode (mem_of host_endian 4 v)
}.

(** Both kinds of host satisfy the contract. *)
Program Definition byteorder_of (e : endian) : CplatByteorder := {|
  host_endian := e;
  cplat_hton16 v := mem_to e (be_encode 2 v);
  cplat_hton32 v := mem_to e (be_encode 4 v);
  cplat_ntoh16 v := be_decode (mem_of e 2 v);
  cplat_ntoh32 v := be_decode (mem_of e 4 v)
|}.
Solve All Obligations with done.

Definition little_host : CplatByteorder := byteorder_of LittleEndian.
Definition big_host : CplatByteorder := byteorder_of BigEndian.

(** ** Packet structure

    [P] is the type of the [payload] pointer: packets in a buffer carry the
    bytes readable from the pointer on ([view]), entries of a window carry an
    offset into the window's pool. *)

Record potr_packet (P : Type) := Packet {
  pkt_service_id : Z;
  pkt_session_tv_sec : Z;
  pkt_session_id : Z;
  pkt_session_tv_nsec : Z;
  pkt_seq_num : Z;
  pkt_ack_num : Z;
  pkt_flags : Z;
  pkt_payload_len : Z;
  pkt_protocol_version : Z;
  pkt_payload : P
}.
Arguments Packet {P}.
Arguments pkt_service_id {P}.
Arguments pkt_session_tv_sec {P}.
Arguments pkt_session_id {P}.
Arguments pkt_session_tv_nsec {P}.
Arguments pkt_seq_num {P}.
Arguments pkt_ack_num {P}.
Arguments pkt_flags {P}.
Arguments pkt_payload_len {P}.
Arguments pkt_protocol_version {P}.
Arguments pkt_payload {P}.

(** A [const uint8_t *]: [None] is [NULL], [Some bs] points at the bytes [bs]. *)
Definition view : Type := option (list Z).
Definition packet : Type := potr_packet view.

(** Structure copy with another payload pointer. *)
Definition with_payload {P Q} (p : potr_packet P) (q : Q) : potr_packet Q :=
  Packet (pkt_service_id p) (pkt_session_tv_sec p) (pkt_session_id p)
    (pkt_session_tv_nsec p) (pkt_seq_num p) (pkt_ack_num p) (pkt_flags p)
    (pkt_payload_len p) (pkt_protocol_version p) q.

(** Assignments to the [flags], [ack_num] and [payload_len] members. *)
Definition set_pkt_flags {P} (p : potr_packet P) (f : Z) : potr_packet P :=
  Packet (pkt_service_id p) (pkt_session_tv_sec p) (pkt_session_id p)
    (pkt_session_tv_nsec p) (pkt_seq_num p) (pkt_ack_num p) f
    (pkt_payload_len p) (pkt_protocol_version p) (pkt_payload p).

Definition set_pkt_ack_num {P} (p : potr_packet P) (a : Z) : potr_packet P :=
  Packet (pkt_service_id p) (pkt_session_tv_sec p) (pkt_session_id p)
    (pkt_session_tv_nsec p) (pkt_seq_num p) a (pkt_flags p)
    (pkt_payload_len p) (pkt_protocol_version p) (pkt_payload p).

Definition set_pkt_payload_len {P} (p : potr_packet P) (l : Z) : potr_packet P :=
  Packet (pkt_service_id p) (pkt_session_tv_sec p) (pkt_session_id p)
    (pkt_session_tv_nsec p) (pkt_seq_num p) (pkt_ack_num p) (pkt_flags p)
    l (pkt_protocol_version p) (pkt_payload p).

(** [offsetof(potr_packet, payload)]. *)
Definition POTR_PACKET_HEADER_SIZE : nat := 40.

Record session_hdr := SessionHdr {
  hdr_service_id : Z;
  hdr_session_tv_sec : Z;
  hdr_session_id : Z;
  hdr_session_tv_nsec : Z
}.

(** [session_ts_to_hdr] narrows the platform time stamp to the wire widths;
    [session_ts_from_hdr] is the converse. *)
Definition session_ts_to_hdr (ts : timespec) : Z * Z := (i64 (tv_sec ts), i32 (tv_nsec ts)).
Definition session_ts_from_hdr (sec nsec : Z) : timespec := Timespec sec nsec.

Section Packet.
Context `{CplatByteorder}.

Definition hton64 (v : Z) : Z :=
  let hi := cplat_hton32 (u32 (Z.shiftr v 32)) in
  let lo := cplat_hton32 (u32 (Z.land v 4294967295)) in
  Z.lor (u64 (Z.shiftl lo 32)) hi.

Definition ntoh64 (v : Z) : Z := hton64 v.

(** [memset(packet, 0, POTR_PACKET_HEADER_SIZE)]: the pointer stays. *)
Definition clear_header {P} (p : potr_packet P) : potr_packet P :=
  Packet 0 0 0 0 0 0 0 0 0 (pkt_payload p).

Definition fill_session_hdr {P} (p : potr_packet P) (shdr : session_hdr) : potr_packet P :=
  Packet (i64 (hton64 (u64 (hdr_service_id shdr))))
    (i64 (hton64 (u64 (hdr_session_tv_sec shdr))))
    (cplat_hton32 (hdr_session_id shdr))
    (i32 (cplat_hton32 (u32 (hdr_session_tv_nsec shdr))))
    (pkt_seq_num p) (pkt_ack_num p) (pkt_flags p) (pkt_payload_len p)
    (cplat_hton32 POTR_PROTOCOL_VERSION) (pkt_payload p).

(** The assignments every builder makes after [fill_session_hdr]. *)
Definition set_body {P Q} (p : potr_packet P) (seq ack flags len : Z) (payload : Q)
    : potr_packet Q :=
  Packet (pkt_service_id p) (pkt_session_tv_sec p) (pkt_session_id p)
    (pkt_session_tv_nsec p) seq ack flags len (pkt_protocol_version p) payload.

(** Builders return the result code and the packet structure afterwards;
    [None] for a pointer argument is [NULL]. *)
Definition potr_internal_packet_build_nack (out : option packet) (shdr : option session_hdr)
    (nack_num : Z) : Z * option packet :=
  match out, shdr with
  | Some p, Some h =>
      (POTR_OK, Some (set_body (fill_session_hdr (clear_header p) h)
        0 (cplat_hton32 nack_num) (cplat_hton16 POTR_FLAG_NACK) 0 None))
  | _, _ => (POTR_ERR_INVALID_ARGUMENT, out)
  end.

Definition potr_internal_packet_build_ping (out : option packet) (shdr : option session_hdr)
    (seq_num : Z) (health_payload : view) (health_payload_len : Z) : Z * option packet :=
  match out, shdr with
  | Some p, Some h =>
      let q := fill_session_hdr (clear_header p) h in
      let q := match health_payload with
               | Some bs => set_body q (cplat_hton32 seq_num) 0 (cplat_hton16 POTR_FLAG_PING)
                              (cplat_hton16 health_payload_len) (Some bs)
               | None => set_body q (cplat_hton32 seq_num) 0 (cplat_hton16 POTR_FLAG_PING) 0 None
               end in
      (POTR_OK, Some q)
  | _, _ => (POTR_ERR_INVALID_ARGUMENT, out)
  end.

Definition potr_internal_packet_build_reject (out : option packet) (shdr : option session_hdr)
    (seq_num : Z) : Z * option packet :=
  match out, shdr with
  | Some p, Some h =>
      (POTR_OK, Some (set_body (fill_session_hdr (clear_header p) h)
        0 (cplat_hton32 seq_num) (cplat_hton16 POTR_FLAG_REJECT) 0 None))
  | _, _ => (POTR_ERR_INVALID_ARGUMENT, out)
  end.

Definition potr_internal_packet_build_fin (out : option packet) (shdr : option session_hdr)
    : Z * option packet :=
  match out, shdr with
  | Some p, Some h =>
      (POTR_OK, Some (set_body (fill_session_hdr (clear_header p) h)
        0 0 (cplat_hton16 POTR_FLAG_FIN) 0 None))
  | _, _ => (POTR_ERR_INVALID_ARGUMENT, out)
  end.

Definition potr_internal_packet_build_fin_ack (out : option packet) (shdr : option session_hdr)
    (fin_target_seq : Z) : Z * option packet :=
  match out, shdr with
  | Some p, Some h =>
      (POTR_OK, Some (set_body (fill_session_hdr (clear_header p) h)
        0 (cplat_hton32 fin_target_seq) (cplat_hton16 POTR_FLAG_FIN_ACK) 0 None))
  | _, _ => (POTR_ERR_INVALID_ARGUMENT, out)
  end.

Definition potr_internal_packet_build_packed (out : option packet) (shdr : option session_hdr)
    (seq_num : Z) (packed_payload : view) (payload_len : Z) : Z * option packet :=
  match out, shdr, packed_payload with
  | Some p, Some h, Some bs =>
      if (payload_len =? 0) || (POTR_MAX_PAYLOAD <? payload_len)
      then (POTR_ERR_INVALID_ARGUMENT, out)
      else (POTR_OK, Some (set_body (fill_session_hdr (clear_header p) h)
             (cplat_hton32 seq_num) 0 (cplat_hton16 POTR_FLAG_DATA)
             (cplat_hton16 (u16 payload_len)) (Some bs)))
  | _, _, _ => (POTR_ERR_INVALID_ARGUMENT, out)
  end.

(** Reads [n] bytes of an element header at [off] from the container. *)
Definition read_at (p : view) (off n : nat) : option (list Z) :=
  bs ← p; mem_read bs off n.

(** [potr_internal_packet_unpack_next]: the result code, the new offset and
    the element.  [None] is a read outside the container's payload. *)
Definition potr_internal_packet_unpack_next (container : option packet) (offset : option nat)
    (elem_out : option packet) : option (Z * option nat * option packet) :=
  match container, offset, elem_out with
  | Some c, Some off, Some _ =>
      if (pkt_payload_len c <? Z.of_nat (off + POTR_PAYLOAD_ELEM_HDR_SIZE))
      then Some (POTR_ERR_EOF, offset, elem_out)
      else
        flags_bs ← read_at (pkt_payload c) off 2;
        plen_bs ← read_at (pkt_payload c) (off + 2) 4;
        let flags_nbo := mem_to host_endian flags_bs in
        let payload_len := cplat_ntoh32 (mem_to host_endian plen_bs) in
        if (pkt_payload_len c <? Z.of_nat (off + POTR_PAYLOAD_ELEM_HDR_SIZE) + payload_len)
           || (POTR_MAX_PAYLOAD <? payload_len)
        then Some (POTR_ERR_PROTOCOL, offset, elem_out)
        else
          let elem := Packet (pkt_service_id c) (pkt_session_tv_sec c) (pkt_session_id c)
            (pkt_session_tv_nsec c) 0 0 (cplat_ntoh16 flags_nbo) (u16 payload_len)
            (pkt_protocol_version c)
            (drop (off + POTR_PAYLOAD_ELEM_HDR_SIZE) <$> pkt_payload c) in
          Some (POTR_OK, Some (off + POTR_PAYLOAD_ELEM_HDR_SIZE + Z.to_nat payload_len)%nat,
                Some elem)
  | _, _, _ => Some (POTR_ERR_INVALID_ARGUMENT, offset, elem_out)
  end.

(** [potr_internal_packet_parse]: the result code and the packet afterwards. *)
Definition potr_internal_packet_parse (out : option packet) (buf : view) (buf_len : nat)
    : option (Z * option packet) :=
  match out, buf with
  | Some p, Some b =>
      if (buf_len <? POTR_PACKET_HEADER_SIZE)%nat then Some (POTR_ERR_PROTOCOL, out)
      else
        sid ← mem_read b 0 8;
        sec ← mem_read b 8 8;
        ssn ← mem_read b 16 4;
        nsec ← mem_read b 20 4;
        seq ← mem_read b 24 4;
        ack ← mem_read b 28 4;
        fl ← mem_read b 32 2;
        len ← mem_read b 34 2;
        ver ← mem_read b 36 4;
        let get64 bs := i64 (ntoh64 (mem_to host_endian bs)) in
        let get32 bs := cplat_ntoh32 (mem_to host_endian bs) in
        let get16 bs := cplat_ntoh16 (mem_to host_endian bs) in
        let q := Packet (get64 sid) (get64 sec) (get32 ssn) (i32 (get32 nsec)) (get32 seq)
                   (get32 ack) (get16 fl) (get16 len) (get32 ver) (pkt_payload p) in
        if negb (pkt_protocol_version q =? POTR_PROTOCOL_VERSION)
           || (POTR_MAX_PAYLOAD <? pkt_payload_len q)
           || (Z.of_nat buf_len <? pkt_payload_len q + Z.of_nat POTR_PACKET_HEADER_SIZE)
        then Some (POTR_ERR_PROTOCOL, Some q)
        else Some (POTR_OK, Some (with_payload q (Some (drop POTR_PACKET_HEADER_SIZE b))))
  | _, _ => Some (POTR_ERR_INVALID_ARGUMENT, out)
  end.

Definition potr_internal_packet_wire_size {P} (p : option (potr_packet P)) : Z :=
  match p with
  | None => 0
  | Some p => Z.of_nat POTR_PACKET_HEADER_SIZE + cplat_ntoh16 (pkt_payload_len p)
  end.

(** The first 40 bytes of the structure, as [memcpy] copies them. *)
Definition packet_header_bytes {P} (p : potr_packet P) : list Z :=
  mem_of host_endian 8 (u64 (pkt_service_id p)) ++
  mem_of host_endian 8 (u64 (pkt_session_tv_sec p)) ++
  mem_of host_endian 4 (pkt_session_id p) ++
  mem_of host_endian 4 (u32 (pkt_session_tv_nsec p)) ++
  mem_of host_endian 4 (pkt_seq_num p) ++
  mem_of host_endian 4 (pkt_ack_num p) ++
  mem_of host_endian 2 (pkt_flags p) ++
  mem_of host_endian 2 (pkt_payload_len p) ++
  mem_of host_endian 4 (pkt_protocol_version p).

(** The loop every consumer of a DATA packet runs: take elements until
    [unpack_next] stops returning [POTR_OK]. *)
Fixpoint unpack_loop (fuel : nat) (c : packet) (off : nat) : option (list packet) :=
  match fuel with
  | O => None
  | S fuel =>
      '(rc, off', elem) ← potr_internal_packet_unpack_next (Some c) (Some off) (Some c);
      match rc =? POTR_OK, off', elem with
      | true, Some off', Some e => es ← unpack_loop fuel c off'; Some (e :: es)
      | _, _, _ => Some []
      end
  end.

Definition unpack_elems (c : packet) : option (list packet) :=
  unpack_loop (S (Z.to_nat (pkt_payload_len c))) c 0.
End Packet.

(** ** Byte order facts *)

Lemma length_mem_of e n v : length (mem_of e n v) = n.
Proof. destruct e; simpl; [apply length_le_encode | apply length_be_encode]. Qed.

Lemma mem_to_of e n v : 0 <= v < 256 ^ Z.of_nat n -> mem_to e (mem_of e n v) = v.
Proof.
  intros Hv. destruct e; simpl; [|by apply be_decode_encode].
  by rewrite le_decode_encode, Z.mod_small.
Qed.

Lemma mem_of_to e l : Forall is_byte l -> mem_of e (length l) (mem_to e l) = l.
Proof.
  intros Hl. destruct e; simpl; [by apply le_encode_decode|].
  unfold be_encode, be_decode. rewrite <- length_rev.
  rewrite le_encode_decode by by apply Forall_rev. apply rev_involutive.
Qed.

Lemma mem_to_bound e l :
  Forall is_byte l -> 0 <= mem_to e l < 256 ^ Z.of_nat (length l).
Proof.
  intros Hl. destruct e; simpl; [by apply le_decode_bound|].
  unfold be_decode. rewrite <- length_rev. by apply le_decode_bound, Forall_rev.
Qed.

Lemma be_encode_bytes n v : Forall is_byte (be_encode n v).
Proof. apply Forall_rev, le_encode_bytes. Qed.

Lemma mem_of_bytes e n v : Forall is_byte (mem_of e n v).
Proof. destruct e; simpl; [apply le_encode_bytes | apply be_encode_bytes]. Qed.

Section ByteOrder.
Context `{CplatByteorder}.

Lemma hton16_range v : 0 <= v < 65536 -> 0 <= cplat_hton16 v < 65536.
Proof.
  intros Hv. rewrite hton16_spec by done.
  pose proof (mem_to_bound host_endian (be_encode 2 v) (be_encode_bytes 2 v)) as Hb.
  rewrite length_be_encode in Hb. done.
Qed.

Lemma hton32_range v : 0 <= v < 4294967296 -> 0 <= cplat_hton32 v < 4294967296.
Proof.
  intros Hv. rewrite hton32_spec by done.
  pose proof (mem_to_bound host_endian (be_encode 4 v) (be_encode_bytes 4 v)) as Hb.
  rewrite length_be_encode in Hb. done.
Qed.

(** The memory image of a converted value is big-endian. *)
Lemma mem_of_hton16 v :
  0 <= v < 65536 -> mem_of host_endian 2 (cplat_hton16 v) = be_encode 2 v.
Proof.
  intros Hv. rewrite hton16_spec by done.
  rewrite <- (length_be_encode 2 v) at 1. apply mem_of_to, be_encode_bytes.
Qed.

Lemma mem_of_hton32 v :
  0 <= v < 4294967296 -> mem_of host_endian 4 (cplat_hton32 v) = be_encode 4 v.
Proof.
  intros Hv. rewrite hton32_spec by done.
  rewrite <- (length_be_encode 4 v) at 1. apply mem_of_to, be_encode_bytes.
Qed.

Lemma ntoh16_hton16 v : 0 <= v < 65536 -> cplat_ntoh16 (cplat_hton16 v) = v.
Proof.
  intros Hv. rewrite ntoh16_spec, mem_of_hton16 by auto using hton16_range.
  by apply be_decode_encode.
Qed.

Lemma ntoh32_hton32 v : 0 <= v < 4294967296 -> cplat_ntoh32 (cplat_hton32 v) = v.
Proof.
  intros Hv. rewrite ntoh32_spec, mem_of_hton32 by auto using hton32_range.
  by apply be_decode_encode.
Qed.

(** Converting is an involution, as [ntoh64] relies on. *)
Lemma hton32_hton32 v : 0 <= v < 4294967296 -> cplat_hton32 (cplat_hton32 v) = v.
Proof.
  intros Hv. rewrite (hton32_spec (cplat_hton32 v)) by by apply hton32_range.
  rewrite hton32_spec by done. destruct host_endian; cbn [mem_to].
  - unfold be_encode at 1.
    rewrite <- (length_be_encode 4 v) at 1.
    rewrite le_encode_decode by apply be_encode_bytes.
    unfold be_encode. rewrite rev_involutive, le_decode_encode. by apply Z.mod_small.
  - rewrite (be_decode_encode 4 v) by done. by apply be_decode_encode.
Qed.

Lemma hton32_0 : cplat_hton32 0 = 0.
Proof. rewrite hton32_spec by lia. destruct host_endian; reflexivity. Qed.

Lemma hton16_0 : cplat_hton16 0 = 0.
Proof. rewrite hton16_spec by lia. destruct host_endian; reflexivity. Qed.

Lemma ntoh16_0 : cplat_ntoh16 0 = 0.
Proof. rewrite ntoh16_spec by lia. destruct host_endian; reflexivity. Qed.

Lemma ntoh32_0 : cplat_ntoh32 0 = 0.
Proof. rewrite ntoh32_spec by lia. destruct host_endian; reflexivity. Qed.

Lemma lor_shiftl_add a b n :
  0 <= n -> 0 <= b < 2 ^ n -> Z.lor (Z.shiftl a n) b = a * 2 ^ n + b.
Proof.
  intros Hn Hb. rewrite <- Z.shiftl_mul_pow2 by done.
  assert (Z.land (Z.shiftl a n) b = 0) as Hland.
  { apply Z.bits_inj'. intros i Hi. rewrite Z.land_spec, Z.bits_0.
    destruct (Z.ltb_spec i n).
    - by rewrite Z.shiftl_spec_low.
    - destruct (Z.eq_dec b 0) as [->|]; [by rewrite Z.bits_0, andb_false_r|].
      rewrite (Z.bits_above_log2 b i), andb_false_r; [done|lia|].
      apply Z.log2_lt_pow2; [lia|]. eapply Z.lt_le_trans; [apply Hb|].
      apply Z.pow_le_mono_r; lia. }
  rewrite Z.add_nocarry_lxor by done. by rewrite Z.lxor_lor.
Qed.

Lemma hton64_eq v :
  0 <= v < 18446744073709551616 ->
  hton64 v = cplat_hton32 (v mod 4294967296) * 4294967296
             + cplat_hton32 (v / 4294967296).
Proof.
  intros Hv. unfold hton64.
  change 4294967295 with (Z.ones 32). rewrite Z.land_ones by lia.
  rewrite Z.shiftr_div_pow2 by lia. change (2 ^ 32) with 4294967296.
  rewrite (u32_small (v / _)) by zmod. rewrite u32_small by zmod.
  pose proof (hton32_range (v mod 4294967296) ltac:(zmod)).
  pose proof (hton32_range (v / 4294967296) ltac:(zmod)).
  rewrite u64_small by (rewrite Z.shiftl_mul_pow2; lia).
  by rewrite lor_shiftl_add.
Qed.

Lemma hton64_range v :
  0 <= v < 18446744073709551616 -> 0 <= hton64 v < 18446744073709551616.
Proof.
  intros Hv. rewrite hton64_eq by done.
  pose proof (hton32_range (v mod 4294967296) ltac:(zmod)).
  pose proof (hton32_range (v / 4294967296) ltac:(zmod)). lia.
Qed.

Lemma hton64_hton64 v :
  0 <= v < 18446744073709551616 -> ntoh64 (hton64 v) = v.
Proof.
  intros Hv. unfold ntoh64. rewrite hton64_eq by by apply hton64_range.
  rewrite (hton64_eq v) by done.
  pose proof (hton32_range (v mod 4294967296) ltac:(zmod)).
  pose proof (hton32_range (v / 4294967296) ltac:(zmod)).
  assert (forall a b, 0 <= b < 4294967296 -> (a * 4294967296 + b) mod 4294967296 = b)
    as -> by (intros; zmod); [|done].
  assert (forall a b, 0 <= b < 4294967296 -> (a * 4294967296 + b) / 4294967296 = a)
    as -> by (intros; zmod); [|done].
  rewrite !hton32_hton32 by zmod. zmod.
Qed.
End ByteOrder.
#[export] Hint Resolve hton16_range hton32_range hton64_range : porter.
#[export] Hint Rewrite @hton32_0 @hton16_0 @ntoh16_0 @ntoh32_0 : porter.

(** ** Parsing what was built *)

(** Field ranges of a structure, as the C types impose them. *)
Record packet_ranges {P} (p : potr_packet P) : Prop := {
  pr_sid : -9223372036854775808 <= pkt_service_id p < 9223372036854775808;
  pr_sec : -9223372036854775808 <= pkt_session_tv_sec p < 9223372036854775808;
  pr_ssn : 0 <= pkt_session_id p < 4294967296;
  pr_nsec : -2147483648 <= pkt_session_tv_nsec p < 2147483648;
  pr_seq : 0 <= pkt_seq_num p < 4294967296;
  pr_ack : 0 <= pkt_ack_num p < 4294967296;
  pr_flags : 0 <= pkt_flags p < 65536;
  pr_len : 0 <= pkt_payload_len p < 65536;
  pr_ver : 0 <= pkt_protocol_version p < 4294967296
}.

Record session_hdr_ranges (h : session_hdr) : Prop := {
  shr_sid : -9223372036854775808 <= hdr_service_id h < 9223372036854775808;
  shr_sec : -9223372036854775808 <= hdr_session_tv_sec h < 9223372036854775808;
  shr_ssn : 0 <= hdr_session_id h < 4294967296;
  shr_nsec : -2147483648 <= hdr_session_tv_nsec h < 2147483648
}.

Lemma i64_range z : -9223372036854775808 <= i64 z < 9223372036854775808.
Proof. unfold i64. pose proof (u64_range z). destruct_ifs; lia. Qed.

Lemma i32_range z : -2147483648 <= i32 z < 2147483648.
Proof. unfold i32. pose proof (u32_range z). destruct_ifs; lia. Qed.

Section ParseFacts.
Context `{CplatByteorder}.

(** The host-order fields of a network-order structure. *)
Definition to_host {P Q} (p : potr_packet P) (q : Q) : potr_packet Q :=
  Packet (i64 (ntoh64 (u64 (pkt_service_id p)))) (i64 (ntoh64 (u64 (pkt_session_tv_sec p))))
    (cplat_ntoh32 (pkt_session_id p)) (i32 (cplat_ntoh32 (u32 (pkt_session_tv_nsec p))))
    (cplat_ntoh32 (pkt_seq_num p)) (cplat_ntoh32 (pkt_ack_num p))
    (cplat_ntoh16 (pkt_flags p)) (cplat_ntoh16 (pkt_payload_len p))
    (cplat_ntoh32 (pkt_protocol_version p)) q.

Lemma length_packet_header_bytes {P} (p : potr_packet P) :
  length (packet_header_bytes p) = POTR_PACKET_HEADER_SIZE.
Proof. unfold packet_header_bytes. by rewrite !length_app, !length_mem_of. Qed.

Lemma mem_read_app_skip {A} (pre b : list A) off n :
  (length pre <= off)%nat -> mem_read (pre ++ b) off n = mem_read b (off - length pre) n.
Proof.
  intros Hle. unfold mem_read. rewrite length_app, drop_app_ge by done.
  destruct (Nat.leb_spec (off + n) (length pre + length b)),
    (Nat.leb_spec (off - length pre + n) (length b)); try done; lia.
Qed.

Lemma mem_read_app_hd {A} (l b : list A) n :
  length l = n -> mem_read (l ++ b) 0 n = Some l.
Proof.
  intros <-. rewrite mem_read_Some by (rewrite length_app; lia).
  by rewrite drop_0, take_app_length.
Qed.

Lemma parse_header_bytes {P} (p : potr_packet P) (prev : packet) rest :
  packet_ranges p ->
  cplat_ntoh32 (pkt_protocol_version p) = POTR_PROTOCOL_VERSION ->
  cplat_ntoh16 (pkt_payload_len p) <= POTR_MAX_PAYLOAD ->
  cplat_ntoh16 (pkt_payload_len p) <= Z.of_nat (length rest) ->
  potr_internal_packet_parse (Some prev) (Some (packet_header_bytes p ++ rest))
    (POTR_PACKET_HEADER_SIZE + length rest)
  = Some (POTR_OK, Some (to_host p (Some rest))).
Proof.
  intros [] Hver Hmax Hlen.
  unfold potr_internal_packet_parse.
  rewrite (proj2 (Nat.ltb_ge _ _)) by lia.
  rewrite (drop_app_length' (packet_header_bytes p))
    by by rewrite length_packet_header_bytes.
  unfold packet_header_bytes. rewrite <- !app_assoc.
  repeat first
    [ rewrite mem_read_app_hd by apply length_mem_of; cbn [mbind option_bind]
    | rewrite mem_read_app_skip by (rewrite length_mem_of; lia);
      rewrite length_mem_of; cbn [Nat.sub] ].
  rewrite !mem_to_of by (simpl; auto with porter; lia).
  cbn [pkt_protocol_version pkt_payload_len].
  rewrite Hver. do 2 rewrite (proj2 (Z.ltb_ge _ _)) by lia.
  unfold to_host. by rewrite Hver.
Qed.

(** The structure every builder produces: the session header of [h], the
    given body, all in network byte order. *)
Definition built {Q} (h : session_hdr) (seq ack flags len : Z) (q : Q) : potr_packet Q :=
  set_body (fill_session_hdr (Packet 0 0 0 0 0 0 0 0 0 tt) h)
    (cplat_hton32 seq) (cplat_hton32 ack) (cplat_hton16 flags) (cplat_hton16 len) q.

Lemma built_ranges {Q} h seq ack flags len (q : Q) :
  session_hdr_ranges h ->
  0 <= seq < 4294967296 -> 0 <= ack < 4294967296 ->
  0 <= flags < 65536 -> 0 <= len < 65536 ->
  packet_ranges (built h seq ack flags len q).
Proof.
  intros [] Hseq Hack Hfl Hlen.
  split; simpl; auto using i64_range, i32_range, hton16_range, hton32_range.
  apply hton32_range. unfold POTR_PROTOCOL_VERSION. lia.
Qed.

Lemma to_host_built {Q R} h seq ack flags len (q : Q) (r : R) :
  session_hdr_ranges h ->
  0 <= seq < 4294967296 -> 0 <= ack < 4294967296 ->
  0 <= flags < 65536 -> 0 <= len < 65536 ->
  to_host (built h seq ack flags len q) r
  = Packet (hdr_service_id h) (hdr_session_tv_sec h) (hdr_session_id h)
      (hdr_session_tv_nsec h) seq ack flags len POTR_PROTOCOL_VERSION r.
Proof.
  intros [] Hseq Hack Hfl Hlen. unfold to_host, built. simpl.
  rewrite !u64_of_i64, !(u64_small (hton64 _)) by auto with porter.
  rewrite !hton64_hton64 by auto with porter. rewrite !i64_of_u64 by done.
  rewrite u32_of_i32, (u32_small (cplat_hton32 _)) by auto with porter.
  rewrite !ntoh32_hton32, !ntoh16_hton16
    by (auto with porter; unfold POTR_PROTOCOL_VERSION; lia).
  by rewrite i32_of_u32.
Qed.

(** Parsing the bytes of a built packet followed by its payload. *)
Lemma parse_built {Q} h seq ack flags (q : Q) (prev : packet) payload :
  session_hdr_ranges h ->
  0 <= seq < 4294967296 -> 0 <= ack < 4294967296 -> 0 <= flags < 65536 ->
  Z.of_nat (length payload) <= POTR_MAX_PAYLOAD ->
  potr_internal_packet_parse (Some prev)
    (Some (packet_header_bytes (built h seq ack flags (Z.of_nat (length payload)) q) ++ payload))
    (POTR_PACKET_HEADER_SIZE + length payload)
  = Some (POTR_OK, Some (Packet (hdr_service_id h) (hdr_session_tv_sec h) (hdr_session_id h)
      (hdr_session_tv_nsec h) seq ack flags (Z.of_nat (length payload))
      POTR_PROTOCOL_VERSION (Some payload))).
Proof.
  unfold POTR_MAX_PAYLOAD. intros Hh Hseq Hack Hfl Hlen.
  rewrite parse_header_bytes.
  - by rewrite to_host_built by (done || lia).
  - apply built_ranges; done || lia.
  - simpl. apply ntoh32_hton32. unfold POTR_PROTOCOL_VERSION. lia.
  - simpl. rewrite ntoh16_hton16 by lia. unfold POTR_MAX_PAYLOAD. lia.
  - simpl. rewrite ntoh16_hton16 by lia. lia.
Qed.

(** The builders are instances of [built]. *)
Lemma build_packed_built (out : packet) h seq payload len :
  0 < len <= POTR_MAX_PAYLOAD ->
  potr_internal_packet_build_packed (Some out) (Some h) seq (Some payload) len
  = (POTR_OK, Some (built h seq 0 POTR_FLAG_DATA len (Some payload))).
Proof.
  unfold POTR_MAX_PAYLOAD. intros Hlen.
  unfold potr_internal_packet_build_packed, POTR_MAX_PAYLOAD.
  rewrite (proj2 (Z.eqb_neq _ _)), (proj2 (Z.ltb_ge _ _)) by lia. simpl.
  unfold built. by rewrite hton32_0, u16_small by lia.
Qed.

Lemma build_ping_built (out : packet) h seq payload len :
  potr_internal_packet_build_ping (Some out) (Some h) seq (Some payload) len
  = (POTR_OK, Some (built h seq 0 POTR_FLAG_PING len (Some payload))).
Proof. simpl. unfold built. by rewrite hton32_0. Qed.

Lemma build_nack_built (out : packet) h n :
  potr_internal_packet_build_nack (Some out) (Some h) n
  = (POTR_OK, Some (built h 0 n POTR_FLAG_NACK 0 None)).
Proof. simpl. unfold built. by rewrite hton32_0, hton16_0. Qed.

Lemma build_reject_built (out : packet) h n :
  potr_internal_packet_build_reject (Some out) (Some h) n
  = (POTR_OK, Some (built h 0 n POTR_FLAG_REJECT 0 None)).
Proof. simpl. unfold built. by rewrite hton32_0, hton16_0. Qed.

Lemma build_fin_built (out : packet) h :
  potr_internal_packet_build_fin (Some out) (Some h)
  = (POTR_OK, Some (built h 0 0 POTR_FLAG_FIN 0 None)).
Proof. simpl. unfold built. by rewrite hton32_0, hton16_0. Qed.

Lemma build_fin_ack_built (out : packet) h n :
  potr_internal_packet_build_fin_ack (Some out) (Some h) n
  = (POTR_OK, Some (built h 0 n POTR_FLAG_FIN_ACK 0 None)).
Proof. simpl. unfold built. by rewrite hton32_0, hton16_0. Qed.
End ParseFacts.

(** ** Properties of the packet layer *)

(** A DATA packet built from a session header, a sequence number and a
    payload of 1 to [POTR_MAX_PAYLOAD] bytes, copied to the wire and parsed on a
    host of the same byte order, gives back exactly those fields, whatever
    the byte order of the host. *)
Theorem packed_roundtrip `{CplatByteorder} (out prev : packet) h seq payload :
  session_hdr_ranges h -> 0 <= seq < 4294967296 ->
  0 < Z.of_nat (length payload) <= POTR_MAX_PAYLOAD ->
  exists p,
    potr_internal_packet_build_packed (Some out) (Some h) seq (Some payload)
      (Z.of_nat (length payload)) = (POTR_OK, Some p) /\
    potr_internal_packet_wire_size (Some p)
      = Z.of_nat (POTR_PACKET_HEADER_SIZE + length payload) /\
    potr_internal_packet_parse (Some prev) (Some (packet_header_bytes p ++ payload))
      (POTR_PACKET_HEADER_SIZE + length payload)
    = Some (POTR_OK, Some (Packet (hdr_service_id h) (hdr_session_tv_sec h)
        (hdr_session_id h) (hdr_session_tv_nsec h) seq 0 POTR_FLAG_DATA
        (Z.of_nat (length payload)) POTR_PROTOCOL_VERSION (Some payload))).
Proof.
  intros Hh Hseq Hlen. eexists. split_and!; [by apply build_packed_built| |].
  - unfold POTR_MAX_PAYLOAD in Hlen.
    cbn [potr_internal_packet_wire_size pkt_payload_len built set_body].
    rewrite ntoh16_hton16 by lia. lia.
  - apply parse_built; unfold POTR_FLAG_DATA; done || lia.
Qed.

Definition example_hdr : session_hdr := SessionHdr (-7) 1700000000 3735928559 999999999.
Definition blank_packet : packet := Packet 0 0 0 0 0 0 0 0 0 None.

Lemma packed_roundtrip_witness :
  exists p,
    @potr_internal_packet_build_packed big_host (Some blank_packet) (Some example_hdr)
      4294967295 (Some [1; 2; 255]) 3 = (POTR_OK, Some p) /\
    @potr_internal_packet_wire_size big_host _ (Some p) = 43 /\
    @potr_internal_packet_parse big_host (Some blank_packet)
      (Some (@packet_header_bytes big_host _ p ++ [1; 2; 255])) 43
    = Some (POTR_OK, Some (Packet (-7) 1700000000 3735928559 999999999 4294967295 0
        POTR_FLAG_DATA 3 POTR_PROTOCOL_VERSION (Some [1; 2; 255]))).
Proof.
  apply (@packed_roundtrip big_host blank_packet blank_packet example_hdr 4294967295 [1; 2; 255]);
    [split; simpl; lia | lia | unfold POTR_MAX_PAYLOAD; simpl; lia].
Defined.

(** Every control packet (NACK, REJECT, FIN, FIN_ACK, and PING with its
    path-state payload) survives the wire: parsing the bytes of the built
    packet gives the session header, the flag of its kind and its sequence or
    acknowledgement number. *)
Theorem control_roundtrip `{CplatByteorder} (out prev : packet) h n states :
  session_hdr_ranges h -> 0 <= n < 4294967296 -> length states = POTR_MAX_PATH ->
  let parsed seq ack flags len v := Packet (hdr_service_id h) (hdr_session_tv_sec h)
        (hdr_session_id h) (hdr_session_tv_nsec h) seq ack flags len
        POTR_PROTOCOL_VERSION v in
  let wire r payload := match r with
    | (rc, Some p) => if rc =? POTR_OK then
        potr_internal_packet_parse (Some prev) (Some (packet_header_bytes p ++ payload))
          (POTR_PACKET_HEADER_SIZE + length payload) else None
    | _ => None end in
  wire (potr_internal_packet_build_nack (Some out) (Some h) n) []
    = Some (POTR_OK, Some (parsed 0 n POTR_FLAG_NACK 0 (Some []))) /\
  wire (potr_internal_packet_build_reject (Some out) (Some h) n) []
    = Some (POTR_OK, Some (parsed 0 n POTR_FLAG_REJECT 0 (Some []))) /\
  wire (potr_internal_packet_build_fin (Some out) (Some h)) []
    = Some (POTR_OK, Some (parsed 0 0 POTR_FLAG_FIN 0 (Some []))) /\
  wire (potr_internal_packet_build_fin_ack (Some out) (Some h) n) []
    = Some (POTR_OK, Some (parsed 0 n POTR_FLAG_FIN_ACK 0 (Some []))) /\
  wire (potr_internal_packet_build_ping (Some out) (Some h) n (Some states)
          (Z.of_nat POTR_MAX_PATH)) states
    = Some (POTR_OK, Some (parsed n 0 POTR_FLAG_PING (Z.of_nat POTR_MAX_PATH) (Some states))).
Proof.
  intros Hh Hn Hst. cbn zeta.
  rewrite build_nack_built, build_reject_built, build_fin_built, build_fin_ack_built,
    build_ping_built, <- Hst.
  assert (0 <= 0 < 4294967296) as H0 by lia.
  assert (Z.of_nat (@length Z []) <= POTR_MAX_PAYLOAD) as He by done.
  assert (Z.of_nat (length states) <= POTR_MAX_PAYLOAD) as Hs by by rewrite Hst.
  split_and!.
  - exact (parse_built h 0 n POTR_FLAG_NACK None prev [] Hh H0 Hn ltac:(done) He).
  - exact (parse_built h 0 n POTR_FLAG_REJECT None prev [] Hh H0 Hn ltac:(done) He).
  - exact (parse_built h 0 0 POTR_FLAG_FIN None prev [] Hh H0 H0 ltac:(done) He).
  - exact (parse_built h 0 n POTR_FLAG_FIN_ACK None prev [] Hh H0 Hn ltac:(done) He).
  - exact (parse_built h n 0 POTR_FLAG_PING (Some states) prev states Hh Hn H0 ltac:(done) Hs).
Qed.

Lemma control_roundtrip_witness :
  @potr_internal_packet_parse little_host (Some blank_packet)
    (Some (@packet_header_bytes little_host _
       (@built little_host _ example_hdr 0 77 POTR_FLAG_NACK 0 (None : view)) ++ [])) 40
  = Some (POTR_OK, Some (Packet (-7) 1700000000 3735928559 999999999 0 77 POTR_FLAG_NACK 0
       POTR_PROTOCOL_VERSION (Some []))).
Proof.
  assert (session_hdr_ranges example_hdr) as Hh by (split; simpl; lia).
  pose proof (@control_roundtrip little_host blank_packet blank_packet example_hdr 77
    [1; 0; 0; 2] Hh ltac:(lia) eq_refl) as (Hnack & _).
  exact Hnack.
Defined.

(** The header layout documented with the packet structure, every field
    big-endian. *)
Definition documented_layout (h : session_hdr) (seq ack flags len : Z) : list Z :=
  be_encode 8 (u64 (hdr_service_id h)) ++ be_encode 8 (u64 (hdr_session_tv_sec h)) ++
  be_encode 4 (hdr_session_id h) ++ be_encode 4 (u32 (hdr_session_tv_nsec h)) ++
  be_encode 4 seq ++ be_encode 4 ack ++ be_encode 2 flags ++ be_encode 2 len ++
  be_encode 4 POTR_PROTOCOL_VERSION.

(** [hton64] swaps the two words it converts: right on a little-endian host. *)
Lemma mem_of_hton64_little `{CplatByteorder} v :
  host_endian = LittleEndian -> 0 <= v < 18446744073709551616 ->
  mem_of host_endian 8 (hton64 v) = be_encode 8 v.
Proof.
  intros He Hv. pose proof mem_of_hton32 as Hm. rewrite He in Hm |- *. simpl in Hm.
  cbn [mem_of]. rewrite hton64_eq by done.
  pose proof (hton32_range (v mod 4294967296) ltac:(zmod)).
  pose proof (hton32_range (v / 4294967296) ltac:(zmod)).
  rewrite (le_encode_app 4 4), <- (le_encode_mod 4). change (256 ^ Z.of_nat 4) with 4294967296.
  assert (forall a b, 0 <= b < 4294967296 ->
    (a * 4294967296 + b) mod 4294967296 = b /\ (a * 4294967296 + b) / 4294967296 = a) as Hdm
    by (intros; split; zmod).
  destruct (Hdm (cplat_hton32 (v mod 4294967296)) (cplat_hton32 (v / 4294967296))) as [-> ->];
    [done|].
  pose proof (Hm (v / 4294967296) ltac:(zmod)) as Hhi.
  pose proof (Hm (v mod 4294967296) ltac:(zmod)) as Hlo.
  cbn [le_encode] in Hhi, Hlo |- *. rewrite Hhi, Hlo.
  unfold be_encode at 3. rewrite (le_encode_app 4 4), rev_app_distr.
  change (256 ^ Z.of_nat 4) with 4294967296. unfold be_encode. f_equal. f_equal.
  apply (le_encode_mod 4).
Qed.

(** On a little-endian host the 40 header bytes of a built packet are the
    documented wire layout: each field in big-endian order at its offset. *)
Theorem header_layout_little `{CplatByteorder} {Q} h seq ack flags len (q : Q) :
  host_endian = LittleEndian -> session_hdr_ranges h ->
  0 <= seq < 4294967296 -> 0 <= ack < 4294967296 ->
  0 <= flags < 65536 -> 0 <= len < 65536 ->
  packet_header_bytes (built h seq ack flags len q) = documented_layout h seq ack flags len.
Proof.
  intros He [] Hseq Hack Hfl Hlen. unfold packet_header_bytes, built. simpl pkt_service_id.
  cbn [pkt_session_tv_sec pkt_session_id pkt_session_tv_nsec pkt_seq_num pkt_ack_num pkt_flags
       pkt_payload_len pkt_protocol_version set_body fill_session_hdr].
  rewrite !u64_of_i64, !(u64_small (hton64 _)) by auto with porter.
  rewrite u32_of_i32, (u32_small (cplat_hton32 _)) by auto with porter.
  rewrite !mem_of_hton64_little by auto with porter.
  rewrite !mem_of_hton32, !mem_of_hton16 by (auto with porter; unfold POTR_PROTOCOL_VERSION; lia).
  done.
Qed.

Lemma header_layout_little_witness :
  @packet_header_bytes little_host _ (@built little_host _ example_hdr 5 0 POTR_FLAG_DATA 3 tt)
  = documented_layout example_hdr 5 0 POTR_FLAG_DATA 3.
Proof.
  apply (@header_layout_little little_host _ example_hdr 5 0 POTR_FLAG_DATA 3 tt);
    [done | split; simpl; lia | lia | lia | unfold POTR_FLAG_DATA; lia | lia].
Defined.

(** On a big-endian host [hton64] does not produce network byte order: it
    exchanges the 32-bit words of the value, so the [service_id] and
    [session_tv_sec] fields differ from the documented layout. *)
Theorem header_layout_big_differs :
  mem_of BigEndian 8 (@hton64 big_host 1) <> be_encode 8 1 /\
  @packet_header_bytes big_host _
    (@built big_host _ (SessionHdr 1 0 0 0) 0 0 POTR_FLAG_DATA 0 tt)
  <> documented_layout (SessionHdr 1 0 0 0) 0 0 POTR_FLAG_DATA 0.
Proof. split; vm_compute; discriminate. Qed.

Section ParseSafety.
Context `{CplatByteorder}.

Lemma mem_read_bytes buf off n bs :
  Forall is_byte buf -> mem_read buf off n = Some bs -> Forall is_byte bs.
Proof.
  unfold mem_read. intros Hb. destruct_ifs; [|done]. intros [= <-].
  by apply Forall_take, Forall_drop.
Qed.

Lemma ntoh16_mem_range bs :
  length bs = 2%nat -> Forall is_byte bs ->
  0 <= cplat_ntoh16 (mem_to host_endian bs) < 65536.
Proof.
  intros Hlen Hb. pose proof (mem_to_bound host_endian bs Hb) as Hr.
  rewrite Hlen in Hr. rewrite ntoh16_spec by done. rewrite <- Hlen.
  rewrite mem_of_to by done. pose proof (mem_to_bound BigEndian bs Hb) as Hr'.
  by rewrite Hlen in Hr'.
Qed.

Lemma ntoh32_mem bs :
  length bs = 4%nat -> Forall is_byte bs ->
  cplat_ntoh32 (mem_to host_endian bs) = be_decode bs.
Proof.
  intros Hlen Hb. pose proof (mem_to_bound host_endian bs Hb) as Hr.
  rewrite Hlen in Hr. rewrite ntoh32_spec by done. rewrite <- Hlen. by rewrite mem_of_to.
Qed.

Lemma ntoh16_mem bs :
  length bs = 2%nat -> Forall is_byte bs ->
  cplat_ntoh16 (mem_to host_endian bs) = be_decode bs.
Proof.
  intros Hlen Hb. pose proof (mem_to_bound host_endian bs Hb) as Hr.
  rewrite Hlen in Hr. rewrite ntoh16_spec by done. rewrite <- Hlen. by rewrite mem_of_to.
Qed.

(** What a parsed packet guarantees to its consumers: the payload pointer
    is readable for [payload_len] bytes. *)
Definition packet_readable (p : packet) : Prop :=
  0 <= pkt_payload_len p <= POTR_MAX_PAYLOAD /\
  exists bs, pkt_payload p = Some bs /\ Forall is_byte (take (Z.to_nat (pkt_payload_len p)) bs) /\
    (Z.to_nat (pkt_payload_len p) <= length bs)%nat.

Lemma parse_reads (b : list Z) off n k :
  (off + n <= POTR_PACKET_HEADER_SIZE)%nat -> (POTR_PACKET_HEADER_SIZE <= k)%nat ->
  (k <= length b)%nat -> mem_read b off n = Some (take n (drop off b)).
Proof. intros. apply mem_read_Some. lia. Qed.

Lemma parse_total (out : packet) b :
  Forall is_byte b ->
  exists rc q, potr_internal_packet_parse (Some out) (Some b) (length b)
               = Some (rc, Some q) /\
    (rc = POTR_OK \/ rc = POTR_ERR_PROTOCOL) /\
    (rc = POTR_OK -> (POTR_PACKET_HEADER_SIZE <= length b)%nat /\
       pkt_protocol_version q = POTR_PROTOCOL_VERSION /\
       packet_readable q /\
       (Z.to_nat (pkt_payload_len q) + POTR_PACKET_HEADER_SIZE <= length b)%nat).
Proof.
  intros Hb. unfold potr_internal_packet_parse.
  destruct (Nat.ltb_spec (length b) POTR_PACKET_HEADER_SIZE) as [Hs|Hs].
  { exists POTR_ERR_PROTOCOL, out. split; [done|]. split; [by right|done]. }
  rewrite !(parse_reads b _ _ (length b)) by (unfold POTR_PACKET_HEADER_SIZE in *; lia).
  cbn [mbind option_bind].
  match goal with |- context [if ?c then _ else _] => destruct c eqn:Hc end.
  { eexists _, _. split; [done|]. split; [by right|done]. }
  eexists _, _. split; [done|]. split; [by left|]. intros _.
  apply orb_false_iff in Hc as [[Hver Hmax]%orb_false_iff Hlen].
  apply negb_false_iff, Z.eqb_eq in Hver.
  apply Z.ltb_ge in Hmax, Hlen. cbn [with_payload pkt_protocol_version] in *.
  split; [done|]. split; [done|].
  unfold packet_readable. cbn [with_payload pkt_payload_len pkt_payload] in *.
  assert (0 <= cplat_ntoh16 (mem_to host_endian (take 2 (drop 34 b)))) as Hpos.
  { apply ntoh16_mem_range; [|by apply Forall_take, Forall_drop].
    rewrite length_take, length_drop. unfold POTR_PACKET_HEADER_SIZE in Hs. lia. }
  split; [|lia]. split; [lia|].
  exists (drop POTR_PACKET_HEADER_SIZE b). split; [done|].
  split; [by apply Forall_take, Forall_drop|]. rewrite length_drop.
  unfold POTR_PACKET_HEADER_SIZE in *. lia.
Qed.
End ParseSafety.

(** Parsing is memory safe and total on any received datagram: it never
    reads outside the buffer, returns [POTR_OK] or [POTR_ERR_PROTOCOL], and on
    success the version matches and the payload pointer can be read for
    [payload_len] bytes inside the datagram. *)
Theorem parse_safe `{CplatByteorder} (out : packet) b :
  Forall is_byte b ->
  exists rc q, potr_internal_packet_parse (Some out) (Some b) (length b) = Some (rc, Some q) /\
    (rc = POTR_OK \/ rc = POTR_ERR_PROTOCOL) /\
    (rc = POTR_OK -> (POTR_PACKET_HEADER_SIZE <= length b)%nat /\
       pkt_protocol_version q = POTR_PROTOCOL_VERSION /\ packet_readable q /\
       (Z.to_nat (pkt_payload_len q) + POTR_PACKET_HEADER_SIZE <= length b)%nat).
Proof. apply parse_total. Qed.

Lemma parse_safe_witness :
  exists rc q, @potr_internal_packet_parse little_host (Some blank_packet)
      (Some (documented_layout example_hdr 5 0 POTR_FLAG_DATA 1 ++ [9])) 41 = Some (rc, Some q) /\
    (rc = POTR_OK \/ rc = POTR_ERR_PROTOCOL) /\
    (rc = POTR_OK -> (POTR_PACKET_HEADER_SIZE <= 41)%nat /\
       pkt_protocol_version q = POTR_PROTOCOL_VERSION /\ packet_readable q /\
       (Z.to_nat (pkt_payload_len q) + POTR_PACKET_HEADER_SIZE <= 41)%nat).
Proof.
  apply (@parse_safe little_host blank_packet
    (documented_layout example_hdr 5 0 POTR_FLAG_DATA 1 ++ [9])).
  apply Forall_app. split; [|repeat constructor; lia].
  unfold documented_layout. rewrite !Forall_app. split_and!; apply be_encode_bytes.
Defined.

(** ** Elements of a DATA packet *)

(** The bytes of one payload element: flags (2), length (4), payload. *)
Definition elem_bytes (e : Z * list Z) : list Z :=
  be_encode 2 (fst e) ++ be_encode 4 (Z.of_nat (length (snd e))) ++ snd e.

(** Flags and payload bytes of an unpacked element. *)
Definition elem_content (e : packet) : Z * list Z :=
  (pkt_flags e, take (Z.to_nat (pkt_payload_len e)) (default [] (pkt_payload e))).

Definition elem_ok (e : Z * list Z) : Prop :=
  0 <= fst e < 65536 /\ Z.of_nat (length (snd e)) <= POTR_MAX_PAYLOAD.

Section Unpack.
Context `{CplatByteorder}.

Lemma length_elem_bytes e :
  length (elem_bytes e) = (POTR_PAYLOAD_ELEM_HDR_SIZE + length (snd e))%nat.
Proof. unfold elem_bytes. by rewrite !length_app, !length_be_encode. Qed.

Lemma be_decode_nonneg bs : Forall is_byte bs -> 0 <= be_decode bs.
Proof. intros Hb. apply (mem_to_bound BigEndian bs Hb). Qed.

Lemma bytes_within L (bs : list Z) off n :
  Forall is_byte (take L bs) -> (off + n <= L)%nat -> Forall is_byte (take n (drop off bs)).
Proof.
  intros Hb Hl. rewrite take_drop_commute. replace (off + n)%nat with ((off + n) `min` L)%nat by lia.
  rewrite <- take_take. by apply Forall_drop, Forall_take.
Qed.

Lemma unpack_next_cases (c out : packet) off :
  packet_readable c ->
  exists rc off' e,
    potr_internal_packet_unpack_next (Some c) (Some off) (Some out)
    = Some (rc, Some off', Some e) /\
    (rc = POTR_ERR_EOF \/ rc = POTR_ERR_PROTOCOL \/
     (rc = POTR_OK /\ packet_readable e /\ (off' <= Z.to_nat (pkt_payload_len c))%nat /\
      Z.of_nat off' = Z.of_nat (off + POTR_PAYLOAD_ELEM_HDR_SIZE) + pkt_payload_len e)).
Proof.
  intros ((Hlen0 & Hlenm) & bs & Hp & Hb & Hle).
  unfold potr_internal_packet_unpack_next, read_at. rewrite Hp.
  destruct (Z.ltb_spec (pkt_payload_len c) (Z.of_nat (off + POTR_PAYLOAD_ELEM_HDR_SIZE)))
    as [He|He]; [eexists _, _, _; split; [done|by left]|].
  unfold POTR_PAYLOAD_ELEM_HDR_SIZE in He.
  cbn [mbind option_bind fmap option_fmap option_map].
  rewrite !mem_read_Some by lia.
  cbn [mbind option_bind].
  assert (length (take 4 (drop (off + 2) bs)) = 4%nat) as Hl4
    by (rewrite length_take, length_drop; lia).
  assert (Forall is_byte (take 4 (drop (off + 2) bs))) as Hb4
    by (eapply bytes_within; [done|lia]).
  rewrite ntoh32_mem by done.
  pose proof (be_decode_nonneg _ Hb4) as Hn0.
  set (n := be_decode _) in *.
  match goal with |- context [if ?b then _ else _] => destruct b eqn:Hc end;
    [eexists _, _, _; split; [done|by right; left]|].
  apply orb_false_iff in Hc as [H1%Z.ltb_ge H2%Z.ltb_ge].
  assert (0 <= n < 65536) as Hn by (unfold POTR_MAX_PAYLOAD in *; lia).
  eexists _, _, _. split; [done|]. right; right. split; [done|].
  unfold packet_readable. cbn [pkt_payload_len pkt_payload]. rewrite u16_small by done.
  split; [|split; lia]. split; [lia|].
  eexists. split; [reflexivity|]. unfold POTR_PAYLOAD_ELEM_HDR_SIZE in *.
  split; [eapply bytes_within; [done|lia]|]. rewrite length_drop. lia.
Qed.

Lemma unpack_loop_total (c : packet) fuel off :
  packet_readable c -> (Z.to_nat (pkt_payload_len c) < fuel + off)%nat ->
  (off <= Z.to_nat (pkt_payload_len c))%nat ->
  exists es, unpack_loop fuel c off = Some es /\ Forall packet_readable es.
Proof.
  intros Hc. revert off. induction fuel as [|fuel IH]; intros off Hf Hoff; [lia|].
  cbn [unpack_loop].
  destruct (unpack_next_cases c c off Hc) as (rc & off' & e & -> & Hcases).
  cbn [mbind option_bind].
  destruct Hcases as [-> | [-> | (-> & He & Hle & Heq)]]; [by exists []..|].
  cbn [Z.eqb POTR_OK]. destruct He as [Hr He].
  unfold POTR_PAYLOAD_ELEM_HDR_SIZE in Heq.
  destruct (IH off') as (es & -> & Hes); [lia|lia|].
  exists (e :: es). split; [done|]. by constructor.
Qed.

Lemma unpack_next_elem (c out : packet) e pre post :
  elem_ok e -> pkt_payload c = Some (pre ++ elem_bytes e ++ post) ->
  Z.of_nat (length pre + length (elem_bytes e)) <= pkt_payload_len c ->
  exists q,
    potr_internal_packet_unpack_next (Some c) (Some (length pre)) (Some out)
    = Some (POTR_OK, Some (length pre + length (elem_bytes e))%nat, Some q) /\
    elem_content q = e.
Proof.
  intros [Hfl Hln] Hp Hle. destruct e as [fl bs]. cbn [fst snd] in *.
  unfold POTR_MAX_PAYLOAD in Hln.
  pose proof (length_elem_bytes (fl, bs)) as Hlb. cbn [snd] in Hlb.
  unfold potr_internal_packet_unpack_next, read_at. rewrite Hp.
  rewrite (proj2 (Z.ltb_ge _ _)) by (rewrite Hlb in Hle; lia).
  cbn [mbind option_bind fmap option_fmap option_map].
  rewrite (mem_read_app_skip pre _ (length pre) 2), Nat.sub_diag by lia.
  rewrite (mem_read_app_skip pre _ (length pre + 2) 4) by lia.
  replace (length pre + 2 - length pre)%nat with 2%nat by lia.
  assert (elem_bytes (fl, bs) ++ post
          = be_encode 2 fl ++ be_encode 4 (Z.of_nat (length bs)) ++ bs ++ post) as Hsplit
    by (unfold elem_bytes; by rewrite <- !app_assoc).
  rewrite Hsplit.
  rewrite mem_read_app_hd by apply length_be_encode. cbn [mbind option_bind].
  rewrite mem_read_app_skip by (rewrite length_be_encode; lia).
  rewrite length_be_encode, Nat.sub_diag.
  rewrite mem_read_app_hd by apply length_be_encode. cbn [mbind option_bind].
  rewrite ntoh32_mem by (apply length_be_encode || apply be_encode_bytes).
  rewrite ntoh16_mem by (apply length_be_encode || apply be_encode_bytes).
  rewrite !be_decode_encode by (change (256 ^ Z.of_nat 4) with 4294967296;
    change (256 ^ Z.of_nat 2) with 65536; lia).
  rewrite (proj2 (Z.ltb_ge (pkt_payload_len c) _))
    by (rewrite Hlb in Hle; unfold POTR_PAYLOAD_ELEM_HDR_SIZE in *; lia).
  rewrite (proj2 (Z.ltb_ge POTR_MAX_PAYLOAD _)) by (unfold POTR_MAX_PAYLOAD; lia).
  cbn [orb]. eexists. split.
  - do 3 f_equal. rewrite Hlb. f_equal. unfold POTR_PAYLOAD_ELEM_HDR_SIZE. lia.
  - unfold elem_content. cbn [pkt_flags pkt_payload_len pkt_payload default].
    rewrite u16_small, Nat2Z.id by lia. f_equal.
    rewrite drop_app_ge by lia.
    replace (length pre + POTR_PAYLOAD_ELEM_HDR_SIZE - length pre)%nat with 6%nat
      by (unfold POTR_PAYLOAD_ELEM_HDR_SIZE; lia).
    rewrite drop_app_ge by (rewrite length_be_encode; lia).
    rewrite drop_app_ge by (rewrite !length_be_encode; lia).
    rewrite !length_be_encode. cbn [Nat.sub drop]. apply take_app_length.
Qed.

Lemma unpack_loop_elems (c : packet) es pre post fuel :
  Forall elem_ok es ->
  pkt_payload c = Some (pre ++ concat (map elem_bytes es) ++ post) ->
  pkt_payload_len c = Z.of_nat (length pre + length (concat (map elem_bytes es))) ->
  (length (concat (map elem_bytes es)) < fuel)%nat ->
  exists qs, unpack_loop fuel c (length pre) = Some qs /\ map elem_content qs = es.
Proof.
  intros Hok. revert pre fuel. induction Hok as [|e es He _ IH]; intros pre fuel Hp Hlen Hf;
    (destruct fuel as [|fuel]; [lia|]); cbn [unpack_loop map concat] in *.
  - exists []. split; [|done]. unfold potr_internal_packet_unpack_next.
    rewrite (proj2 (Z.ltb_lt _ _)); [done|].
    cbn [length] in Hlen. unfold POTR_PAYLOAD_ELEM_HDR_SIZE. lia.
  - rewrite <- app_assoc in Hp. rewrite length_app in Hlen, Hf.
    destruct (unpack_next_elem c c e pre (concat (map elem_bytes es) ++ post) He Hp)
      as (q & -> & Hq); [lia|].
    cbn [mbind option_bind Z.eqb POTR_OK].
    rewrite <- length_app.
    destruct (IH (pre ++ elem_bytes e) fuel) as (qs & -> & Hqs).
    + by rewrite <- app_assoc.
    + rewrite length_app. lia.
    + rewrite length_elem_bytes in Hf. unfold POTR_PAYLOAD_ELEM_HDR_SIZE in Hf. lia.
    + exists (q :: qs). split; [done|]. simpl. by rewrite Hq, Hqs.
Qed.
End Unpack.

(** Unpacking a parsed DATA packet terminates without an out-of-range
    read for any payload bytes, and every element handed out is readable for
    its own length. *)
Theorem unpack_safe `{CplatByteorder} (c : packet) :
  packet_readable c -> exists es, unpack_elems c = Some es /\ Forall packet_readable es.
Proof. intros Hc. apply unpack_loop_total; [done|lia..]. Qed.

Lemma unpack_safe_witness :
  exists es, @unpack_elems little_host
      (Packet 1 0 0 0 0 0 POTR_FLAG_DATA 9 1 (Some [0; 0; 0; 0; 0; 2; 7; 8; 0; 1]))
    = Some es /\ Forall packet_readable es.
Proof.
  apply (@unpack_safe little_host).
  split; [unfold POTR_MAX_PAYLOAD; simpl; lia|].
  eexists; split; [reflexivity|]. split; [repeat constructor; lia|simpl; lia].
Defined.

(** Unpacking recovers the packed elements: a container whose payload is
    the concatenation of the elements' bytes yields the same flags and
    payloads, in the same order. *)
Theorem unpack_roundtrip `{CplatByteorder} (c : packet) es post :
  Forall elem_ok es ->
  pkt_payload c = Some (concat (map elem_bytes es) ++ post) ->
  pkt_payload_len c = Z.of_nat (length (concat (map elem_bytes es))) ->
  exists qs, unpack_elems c = Some qs /\ map elem_content qs = es.
Proof.
  intros Hok Hp Hlen. apply (unpack_loop_elems c es [] post); [done..|]. lia.
Qed.

Lemma unpack_roundtrip_witness :
  exists qs, @unpack_elems little_host
      (Packet 1 0 0 0 0 0 POTR_FLAG_DATA 14 1
         (Some (concat (map elem_bytes [(1, [7; 8]); (2, [])]) ++ [99])))
    = Some qs /\ map elem_content qs = [(1, [7; 8]); (2, [])].
Proof.
  apply (@unpack_roundtrip little_host _ [(1, [7; 8]); (2, [])] [99]); [|done..].
  repeat constructor; simpl; unfold POTR_MAX_PAYLOAD; lia.
Defined.
