(* ===== verification/Window.v ===== *)
(** Sequence-number window: [seqnum.c] and [window.c].  A window is a ring of
    packet entries with a flat pool of payload slots; the same ring serves as
    send window (evict the oldest when full) and receive window (reorder and
    deliver in sequence). *)

From stdpp Require Import base list numbers option.
From Stdlib Require Import ZArith Lia ZifyBool.
From S2P Require Import Prelude Types Packet.
Local Open Scope Z_scope.
Local Open Scope porter_scope.

(** [seq] lies in [[base, base + window_size)], modulo 2^32. *)
Definition potr_internal_seqnum_in_window (seq base window_size : Z) : bool :=
  seq ⊖ base <? window_size.

(** The payload pointer of an entry is an offset into the pool. *)
Record potr_internal_window := Window {
  win_packets : option (list (potr_packet nat));
  win_valid : option (list Z);
  win_payload_pool : option (list Z);
  win_base_seq : Z;
  win_next_seq : Z;
  win_window_size : Z;
  win_max_payload : Z;
  win_base_index : Z
}.

Definition set_win_valid (w : potr_internal_window) (v : option (list Z)) :=
  Window (win_packets w) v (win_payload_pool w) (win_base_seq w) (win_next_seq w)
    (win_window_size w) (win_max_payload w) (win_base_index w).
Definition set_win_next_seq (w : potr_internal_window) (n : Z) :=
  Window (win_packets w) (win_valid w) (win_payload_pool w) (win_base_seq w) n
    (win_window_size w) (win_max_payload w) (win_base_index w).
(** [base_seq = next_seq = s; base_index = 0]. *)
Definition set_win_start (w : potr_internal_window) (s : Z) :=
  Window (win_packets w) (win_valid w) (win_payload_pool w) s s
    (win_window_size w) (win_max_payload w) 0.
Definition set_win_buffers (w : potr_internal_window) ps v pool :=
  Window ps v pool (win_base_seq w) (win_next_seq w)
    (win_window_size w) (win_max_payload w) (win_base_index w).

(** [potr_internal_window_init].  [alloc] says which of the three
    [cplat_calloc] calls return memory. *)
Definition window_init (alloc : bool * bool * bool) (w : potr_internal_window)
    (initial_seq window_size max_payload : Z) : Z * potr_internal_window :=
  let fresh :=
    match alloc with
    | (true, true, true) =>
        (POTR_OK, Window
          (Some (map (fun i => Packet 0 0 0 0 0 0 0 0 0 (i * Z.to_nat max_payload)%nat)
                   (seq 0 (Z.to_nat window_size))))
          (Some (replicate (Z.to_nat window_size) 0))
          (Some (replicate (Z.to_nat window_size * Z.to_nat max_payload) 0))
          initial_seq initial_seq window_size max_payload 0)
    | _ => (POTR_ERR_OUT_OF_MEMORY, set_win_buffers w None None None)
    end in
  match win_packets w with
  | Some _ =>
      if (win_window_size w =? window_size) && (win_max_payload w =? max_payload)
      then (POTR_OK, set_win_start
              (set_win_valid w ((fun _ => replicate (Z.to_nat window_size) 0) <$> win_valid w))
              initial_seq)
      else fresh
  | None => fresh
  end.

Definition potr_internal_window_init (alloc : bool * bool * bool)
    (w : option potr_internal_window) (initial_seq window_size max_payload : Z)
    : Z * option potr_internal_window :=
  match w with
  | None => (POTR_ERR_INVALID_ARGUMENT, None)
  | Some w => let '(rc, w') := window_init alloc w initial_seq window_size max_payload in
              (rc, Some w')
  end.

Definition potr_internal_window_dispose (w : option potr_internal_window)
    : option potr_internal_window :=
  (fun w => set_win_buffers w None None None) <$> w.

(** [win_index]; the division by a zero window size is a fault. *)
Definition win_index (w : potr_internal_window) (s : Z) : option nat :=
  let distance := s ⊖ win_base_seq w in
  if win_window_size w =? 0 then None
  else Some (Z.to_nat (u16 ((win_base_index w ⊕ distance) mod win_window_size w))).

Definition win_advance_base (w : potr_internal_window) : option potr_internal_window :=
  if win_window_size w =? 0 then None
  else Some (Window (win_packets w) (win_valid w) (win_payload_pool w) (win_base_seq w ⊕ 1)
         (win_next_seq w) (win_window_size w) (win_max_payload w)
         (u16 ((win_base_index w ⊕ 1) mod win_window_size w))).

(** [win->valid[idx]] and [win->valid[idx] = v]. *)
Definition get_valid (w : potr_internal_window) (idx : nat) : option Z :=
  vs ← win_valid w; vs !! idx.
Definition put_valid (w : potr_internal_window) (idx : nat) (v : Z)
    : option potr_internal_window :=
  vs ← win_valid w;
  if (idx <? length vs)%nat then Some (set_win_valid w (Some (<[idx:=v]> vs))) else None.

(** The deep copy of a packet into slot [idx]: structure copy, pool pointer,
    [memcpy] of [len] payload bytes, valid mark. *)
Definition store_entry (w : potr_internal_window) (idx : nat) (p : packet) (len : nat)
    : option potr_internal_window :=
  let slot := (idx * Z.to_nat (win_max_payload w))%nat in
  ps ← win_packets w;
  pool ← win_payload_pool w;
  bs ← read_at (pkt_payload p) 0 len;
  pool' ← mem_write pool slot bs;
  if (idx <? length ps)%nat
  then put_valid (set_win_buffers w (Some (<[idx:=with_payload p slot]> ps)) (win_valid w)
                    (Some pool')) idx 1
  else None.

(** [*packet_out = win->packets[idx]]: the payload pointer leads into the pool. *)
Definition load_entry (w : potr_internal_window) (idx : nat) : option packet :=
  ps ← win_packets w;
  pool ← win_payload_pool w;
  e ← ps !! idx;
  Some (with_payload e (Some (drop (pkt_payload e) pool))).

(** [memcpy] of zero bytes touches no memory, also from a null pointer. *)
Definition copy_source (p : packet) (len : nat) : packet :=
  match pkt_payload p, len with
  | None, O => with_payload p (Some [])
  | _, _ => p
  end.

Definition window_send_full (w : potr_internal_window) : bool :=
  win_window_size w <=? win_next_seq w ⊖ win_base_seq w.

Definition potr_internal_window_send_full (w : option potr_internal_window) : bool :=
  match w with None => true | Some w => window_send_full w end.

Section Send.
Context `{CplatByteorder}.

(** Send side: [payload_len] of the packet is in network byte order. *)
Definition nbo_len (l : Z) : nat := Z.to_nat (cplat_ntoh16 l).

Definition window_send_push (w : potr_internal_window) (p : packet)
    : option (Z * potr_internal_window) :=
  w ← (if window_send_full w then
         idx ← win_index w (win_base_seq w);
         w ← put_valid w idx 0;
         win_advance_base w
       else Some w);
  idx ← win_index w (win_next_seq w);
  let len := nbo_len (pkt_payload_len p) in
  w ← store_entry w idx (copy_source p len) len;
  Some (POTR_OK, set_win_next_seq w (win_next_seq w ⊕ 1)).

Definition potr_internal_window_send_push (w : option potr_internal_window)
    (p : option packet) : option (Z * option potr_internal_window) :=
  match w, p with
  | Some w, Some p => '(rc, w') ← window_send_push w p; Some (rc, Some w')
  | _, _ => Some (POTR_ERR_INVALID_ARGUMENT, w)
  end.
End Send.

Definition window_send_get (w : potr_internal_window) (seq_num : Z)
    : option (Z * option packet) :=
  if negb (potr_internal_seqnum_in_window seq_num (win_base_seq w)
             (u16 (win_next_seq w ⊖ win_base_seq w)))
  then Some (POTR_ERR_NOT_FOUND, None)
  else
    idx ← win_index w seq_num;
    v ← get_valid w idx;
    if v =? 0 then Some (POTR_ERR_NOT_FOUND, None)
    else p ← load_entry w idx; Some (POTR_OK, Some p).

Definition potr_internal_window_send_get (w : option potr_internal_window) (seq_num : Z)
    (packet_out : option packet) : option (Z * option packet) :=
  match w, packet_out with
  | Some w, Some out =>
      '(rc, p) ← window_send_get w seq_num;
      Some (rc, Some (default out p))
  | _, _ => Some (POTR_ERR_INVALID_ARGUMENT, packet_out)
  end.

(** Receive side: [payload_len] is in host byte order. *)
Definition window_recv_push (w : potr_internal_window) (p : packet)
    : option (Z * potr_internal_window) :=
  if negb (potr_internal_seqnum_in_window (pkt_seq_num p) (win_base_seq w) (win_window_size w))
  then Some (POTR_ERR_OUT_OF_WINDOW, w)
  else
    idx ← win_index w (pkt_seq_num p);
    v ← get_valid w idx;
    if v =? 0 then
      let len := Z.to_nat (pkt_payload_len p) in
      w ← store_entry w idx (copy_source p len) len;
      Some (POTR_OK, w)
    else Some (POTR_OK, w).

Definition potr_internal_window_recv_push (w : option potr_internal_window)
    (p : option packet) : option (Z * option potr_internal_window) :=
  match w, p with
  | Some w, Some p => '(rc, w') ← window_recv_push w p; Some (rc, Some w')
  | _, _ => Some (POTR_ERR_INVALID_ARGUMENT, w)
  end.

Definition window_recv_pop (w : potr_internal_window)
    : option (Z * potr_internal_window * option packet) :=
  idx ← win_index w (win_next_seq w);
  v ← get_valid w idx;
  if v =? 0 then Some (POTR_ERR_EMPTY, w, None)
  else
    p ← load_entry w idx;
    w ← put_valid w idx 0;
    w ← win_advance_base w;
    Some (POTR_OK, set_win_next_seq w (win_next_seq w ⊕ 1), Some p).

Definition potr_internal_window_recv_pop (w : option potr_internal_window)
    (packet_out : option packet)
    : option (Z * option potr_internal_window * option packet) :=
  match w, packet_out with
  | Some w, Some out =>
      '(rc, w', p) ← window_recv_pop w; Some (rc, Some w', Some (default out p))
  | _, _ => Some (POTR_ERR_INVALID_ARGUMENT, w, packet_out)
  end.

Definition window_recv_skip (w : potr_internal_window) (seq_num : Z)
    : option potr_internal_window :=
  if negb (win_next_seq w =? seq_num) then Some w
  else
    idx ← win_index w seq_num;
    w ← put_valid w idx 0;
    w ← win_advance_base w;
    Some (set_win_next_seq w (win_next_seq w ⊕ 1)).

Definition potr_internal_window_recv_skip (w : option potr_internal_window) (seq_num : Z)
    : option (option potr_internal_window) :=
  match w with None => Some None | Some w => w' ← window_recv_skip w seq_num; Some (Some w') end.

(** The look-ahead loop: is any of the entries [i, i + n) past [next_seq] valid? *)
Fixpoint look_ahead (w : potr_internal_window) (i n : nat) : option bool :=
  match n with
  | O => Some false
  | S n =>
      look_idx ← win_index w (win_next_seq w ⊕ Z.of_nat i);
      v ← get_valid w look_idx;
      if negb (v =? 0) then Some true else look_ahead w (S i) n
  end.

(** Returns the number to request, [None] when the code returns 0. *)
Definition window_recv_needs_nack (w : potr_internal_window) : option (option Z) :=
  idx ← win_index w (win_next_seq w);
  v ← get_valid w idx;
  if negb (v =? 0) then Some None
  else
    found ← look_ahead w 1 (Z.to_nat (win_window_size w) - 1);
    if found : bool then Some (Some (win_next_seq w)) else Some None.

Definition potr_internal_window_recv_needs_nack (w : option potr_internal_window)
    (nack_num : option Z) : option (option Z) :=
  match w, nack_num with
  | Some w, Some _ => window_recv_needs_nack w
  | _, _ => Some None
  end.

Definition window_recv_has_packet (w : potr_internal_window) (seq_num : Z) : option bool :=
  match win_valid w with
  | None => Some false
  | Some _ =>
      if (win_window_size w =? 0)
         || negb (potr_internal_seqnum_in_window seq_num (win_base_seq w) (win_window_size w))
      then Some false
      else
        idx ← win_index w seq_num;
        v ← get_valid w idx;
        Some (negb (v =? 0))
  end.

Definition potr_internal_window_recv_has_packet (w : option potr_internal_window) (seq_num : Z)
    : option bool :=
  match w with None => Some false | Some w => window_recv_has_packet w seq_num end.

Definition window_recv_reset (w : potr_internal_window) (new_base_seq : Z)
    : potr_internal_window :=
  match win_valid w with
  | None => w
  | Some _ => set_win_start
      (set_win_valid w (Some (replicate (Z.to_nat (win_window_size w)) 0))) new_base_seq
  end.

Definition potr_internal_window_recv_reset (w : option potr_internal_window) (s : Z)
    : option potr_internal_window := (fun w => window_recv_reset w s) <$> w.

(** ** The ring behind a window

    [repr lenf w slots] says that [w] is a well-formed window whose [k]-th
    position past the base holds the packet [slots !! k] (or nothing);
    [lenf] reads a payload length out of the [payload_len] field. *)

Definition content (lenf : Z -> nat) (p : packet) : potr_packet (list Z) :=
  with_payload p (take (lenf (pkt_payload_len p)) (default [] (pkt_payload p))).

(** A packet whose payload can be copied into a slot of the window. *)
Definition storable (lenf : Z -> nat) (mp : Z) (p : packet) : Prop :=
  (lenf (pkt_payload_len p) <= Z.to_nat mp)%nat /\
  match pkt_payload p with
  | Some bs => (lenf (pkt_payload_len p) <= length bs)%nat
  | None => lenf (pkt_payload_len p) = O
  end.

Record win_shape (w : potr_internal_window) ps vs pool : Prop := {
  ws_packets : win_packets w = Some ps;
  ws_valid : win_valid w = Some vs;
  ws_pool : win_payload_pool w = Some pool;
  ws_ps_len : length ps = Z.to_nat (win_window_size w);
  ws_vs_len : length vs = Z.to_nat (win_window_size w);
  ws_pool_len : length pool = (Z.to_nat (win_window_size w) * Z.to_nat (win_max_payload w))%nat;
  ws_size : 0 < win_window_size w < 65536;
  ws_index : 0 <= win_base_index w < win_window_size w;
  ws_base : 0 <= win_base_seq w < 4294967296;
  ws_next : 0 <= win_next_seq w < 4294967296
}.

Definition ring_idx (w : potr_internal_window) (k : nat) : nat :=
  (Z.to_nat (win_base_index w) + k) mod Z.to_nat (win_window_size w).

Section Ring.
Context (lenf : Z -> nat).

Definition slot_holds (mp : nat) (ps : list (potr_packet nat)) (vs pool : list Z) (idx : nat)
    (o : option (potr_packet (list Z))) : Prop :=
  exists (v : Z) (e : potr_packet nat),
    vs !! idx = Some v /\ ps !! idx = Some e /\ pkt_payload e = (idx * mp)%nat /\
    match o with
    | None => v = 0
    | Some c => v = 1 /\ (lenf (pkt_payload_len e) <= mp)%nat /\
        with_payload e (take (lenf (pkt_payload_len e)) (drop (idx * mp) pool)) = c
    end.

Definition repr (w : potr_internal_window) (slots : list (option (potr_packet (list Z))))
    : Prop :=
  exists ps vs pool, win_shape w ps vs pool /\
    length slots = Z.to_nat (win_window_size w) /\
    forall k o, slots !! k = Some o ->
      slot_holds (Z.to_nat (win_max_payload w)) ps vs pool (ring_idx w k) o.

(** Same control fields. *)
Definition same_ctl (w w' : potr_internal_window) : Prop :=
  win_base_seq w' = win_base_seq w /\ win_next_seq w' = win_next_seq w /\
  win_window_size w' = win_window_size w /\ win_max_payload w' = win_max_payload w /\
  win_base_index w' = win_base_index w.

Lemma ring_idx_cases w ps vs pool k :
  win_shape w ps vs pool -> (k < Z.to_nat (win_window_size w))%nat ->
  ring_idx w k = (if Z.to_nat (win_base_index w) + k <? Z.to_nat (win_window_size w)
                  then Z.to_nat (win_base_index w) + k
                  else Z.to_nat (win_base_index w) + k - Z.to_nat (win_window_size w))%nat.
Proof. intros [] Hk. apply nat_mod_once. lia. Qed.

Lemma ring_idx_lt w ps vs pool k :
  win_shape w ps vs pool -> (k < Z.to_nat (win_window_size w))%nat ->
  (ring_idx w k < Z.to_nat (win_window_size w))%nat.
Proof. intros [] _. apply Nat.mod_upper_bound. lia. Qed.

Lemma ring_idx_inj w ps vs pool k k' :
  win_shape w ps vs pool ->
  (k < Z.to_nat (win_window_size w))%nat -> (k' < Z.to_nat (win_window_size w))%nat ->
  ring_idx w k = ring_idx w k' -> k = k'.
Proof.
  intros Hs Hk Hk'. rewrite !(ring_idx_cases w ps vs pool) by done.
  destruct Hs. destruct_ifs; lia.
Qed.

(** [win_index] finds the ring position of a sequence number in range. *)
Lemma win_index_ring w ps vs pool s :
  win_shape w ps vs pool -> s ⊖ win_base_seq w < win_window_size w ->
  win_index w s = Some (ring_idx w (Z.to_nat (s ⊖ win_base_seq w))).
Proof.
  intros [] Hd. unfold win_index. rewrite (proj2 (Z.eqb_neq _ _)) by lia.
  pose proof (u32_range (s - win_base_seq w)).
  rewrite (u32_small (win_base_index w + _)) by lia.
  rewrite u16_small by (pose proof (Z.mod_pos_bound (win_base_index w + (s ⊖ win_base_seq w))
    (win_window_size w) ltac:(lia)); lia).
  unfold ring_idx. rewrite Z2Nat.inj_mod by lia. rewrite Z2Nat.inj_add by lia. done.
Qed.

Lemma repr_shape w slots :
  repr w slots -> exists ps vs pool, win_shape w ps vs pool /\
    length slots = Z.to_nat (win_window_size w).
Proof. intros (ps & vs & pool & Hs & Hl & _). eauto 10. Qed.

Lemma put_valid_clear w slots k :
  repr w slots -> (k < length slots)%nat ->
  exists w', put_valid w (ring_idx w k) 0 = Some w' /\ same_ctl w w' /\
    repr w' (<[k:=None]> slots).
Proof.
  intros (ps & vs & pool & Hs & Hlen & Hslots) Hk.
  pose proof (ring_idx_lt w ps vs pool k Hs ltac:(lia)) as Hlt.
  unfold put_valid. rewrite (ws_valid _ _ _ _ Hs). cbn [mbind option_bind].
  rewrite (proj2 (Nat.ltb_lt _ _)) by (rewrite (ws_vs_len _ _ _ _ Hs); done).
  eexists. split; [done|]. split; [done|].
  exists ps, (<[ring_idx w k:=0]> vs), pool. split; [|split].
  - destruct Hs. split; simpl; try done. by rewrite length_insert.
  - by rewrite length_insert.
  - intros k' o [(-> & ->) | (Hne & Ho)]%list_lookup_insert_cases.
    + destruct (lookup_lt_is_Some_2 slots k' Hk) as [o Ho].
      destruct (Hslots k' o Ho) as (v & e & Hv & He & Hp & _).
      exists 0, e. split; [|done]. apply list_lookup_insert_eq.
      by rewrite (ws_vs_len _ _ _ _ Hs).
    + destruct (Hslots k' o Ho) as (v & e & Hv & He & Hrest).
      exists v, e. split; [|done]. rewrite list_lookup_insert_ne; [done|].
      intros Heq. apply Hne. eapply ring_idx_inj; [exact Hs|lia| |exact Heq].
      apply lookup_lt_Some in Ho. lia.
Qed.

Lemma advance_repr w o slots :
  repr w (o :: slots) ->
  exists w', win_advance_base w = Some w' /\
    win_base_seq w' = win_base_seq w ⊕ 1 /\ win_next_seq w' = win_next_seq w /\
    win_window_size w' = win_window_size w /\ win_max_payload w' = win_max_payload w /\
    repr w' (slots ++ [o]).
Proof.
  intros (ps & vs & pool & Hs & Hlen & Hslots).
  unfold win_advance_base. rewrite (proj2 (Z.eqb_neq _ _)) by (destruct Hs; lia).
  eexists. split; [done|]. split_and!; [done..|].
  pose proof Hs as [].
  rewrite (u32_small (win_base_index w + 1)) by lia.
  pose proof (Z.mod_pos_bound (win_base_index w + 1) (win_window_size w) ltac:(lia)).
  rewrite (u16_small (_ mod _)) by lia.
  exists ps, vs, pool. split; [|split].
  - split; simpl; auto with porter.
  - simpl. rewrite length_app. simpl in *. lia.
  - intros k o' Hk. cbn [win_max_payload].
    assert (forall j, ring_idx (Window (win_packets w) (win_valid w) (win_payload_pool w)
        (win_base_seq w ⊕ 1) (win_next_seq w) (win_window_size w) (win_max_payload w)
        ((win_base_index w + 1) mod win_window_size w)) j = ring_idx w (S j)) as Hring.
    { intros j. unfold ring_idx. cbn [win_base_index win_window_size].
      rewrite Z2Nat.inj_mod by lia. rewrite Z2Nat.inj_add by lia.
      rewrite Nat.Div0.add_mod_idemp_l. f_equal. lia. }
    rewrite Hring. simpl in Hlen.
    destruct (decide (k < length slots)%nat) as [Hlt|Hge].
    + rewrite lookup_app_l in Hk by done. by apply (Hslots (S k)).
    + rewrite lookup_app_r in Hk by lia.
      pose proof (lookup_lt_Some _ _ _ Hk) as Hk1. simpl in Hk1.
      replace (k - length slots)%nat with O in Hk by lia. injection Hk as <-.
      replace (ring_idx w (S k)) with (ring_idx w 0); [by apply (Hslots O)|].
      rewrite (ring_idx_cases w ps vs pool) by (done || lia).
      unfold ring_idx. rewrite nat_mod_once by lia. destruct_ifs; lia.
Qed.

Lemma copy_source_spec mp p :
  storable lenf mp p ->
  let p' := copy_source p (lenf (pkt_payload_len p)) in
  exists bs, read_at (pkt_payload p') 0 (lenf (pkt_payload_len p)) = Some bs /\
    bs = pkt_payload (content lenf p) /\ forall (off : nat), with_payload p' off = with_payload p off.
Proof.
  intros [_ Hp]. unfold copy_source, read_at, content. cbn [pkt_payload with_payload].
  destruct (pkt_payload p) as [bs|] eqn:Hpay.
  - exists (take (lenf (pkt_payload_len p)) bs). rewrite Hpay. cbn [mbind option_bind].
    rewrite mem_read_Some, drop_0 by lia. done.
  - rewrite Hp. exists []. done.
Qed.

Lemma store_repr w slots k p :
  repr w slots -> (k < length slots)%nat -> storable lenf (win_max_payload w) p ->
  let len := lenf (pkt_payload_len p) in
  exists w', store_entry w (ring_idx w k) (copy_source p len) len = Some w' /\
    same_ctl w w' /\ repr w' (<[k:=Some (content lenf p)]> slots).
Proof.
  intros (ps & vs & pool & Hs & Hlen & Hslots) Hk Hst len.
  pose proof (ring_idx_lt w ps vs pool k Hs ltac:(lia)) as Hlt.
  destruct (copy_source_spec _ p Hst) as (bs & Hrd & Hbs & Hwp).
  destruct Hst as [Hmp _]. fold len in Hrd, Hwp, Hmp.
  unfold store_entry. rewrite (ws_packets _ _ _ _ Hs), (ws_pool _ _ _ _ Hs).
  cbn [mbind option_bind]. rewrite Hrd. cbn [mbind option_bind].
  assert (length bs = len) as Hbl.
  { unfold read_at in Hrd. destruct (pkt_payload _); [|done]. by apply mem_read_length in Hrd. }
  destruct (mem_write pool (ring_idx w k * Z.to_nat (win_max_payload w)) bs) as [pool'|] eqn:Hw.
  2: { exfalso. unfold mem_write in Hw. rewrite (ws_pool_len _ _ _ _ Hs) in Hw.
       rewrite (proj2 (Nat.leb_le _ _)) in Hw; [done|]. rewrite Hbl. nia. }
  cbn [mbind option_bind].
  rewrite (proj2 (Nat.ltb_lt _ _)) by (rewrite (ws_ps_len _ _ _ _ Hs); done).
  unfold put_valid. cbn [win_valid set_win_buffers]. rewrite (ws_valid _ _ _ _ Hs).
  cbn [mbind option_bind].
  rewrite (proj2 (Nat.ltb_lt _ _)) by (rewrite (ws_vs_len _ _ _ _ Hs); done).
  eexists. split; [done|]. split; [done|].
  eexists _, _, pool'. split; [|split].
  - pose proof (mem_write_length _ _ _ _ Hw) as Hpl. destruct Hs.
    split; cbn [win_packets win_valid win_payload_pool win_base_seq win_next_seq
      win_window_size win_max_payload win_base_index set_win_buffers set_win_valid];
      first [reflexivity | assumption | rewrite length_insert; assumption
            | rewrite Hpl; assumption].
  - by rewrite length_insert.
  - intros k' o [(-> & ->) | (Hne & Ho)]%list_lookup_insert_cases.
    + exists 1, (with_payload (copy_source p len) (ring_idx w k' * Z.to_nat (win_max_payload w))%nat).
      rewrite Hwp. cbn [win_max_payload set_win_buffers set_win_valid].
      change (ring_idx (set_win_valid _ _) k') with (ring_idx w k').
      split; [apply list_lookup_insert_eq; by rewrite (ws_vs_len _ _ _ _ Hs)|].
      split; [apply list_lookup_insert_eq; by rewrite (ws_ps_len _ _ _ _ Hs)|].
      split; [done|]. split; [done|]. split; [done|].
      cbn [with_payload pkt_payload_len]. fold len.
      rewrite (mem_write_read_same _ _ _ _ len Hw) by lia.
      rewrite <- Hbl, firstn_all, Hbs. done.
    + destruct (Hslots k' o Ho) as (v & e & Hv & He & Hp & Hrest).
      apply lookup_lt_Some in Ho.
      assert (ring_idx w k <> ring_idx w k') as Hidx.
      { intros Heq. apply Hne. eapply ring_idx_inj; [exact Hs|lia| |exact Heq]. lia. }
      exists v, e. cbn [win_max_payload set_win_buffers set_win_valid].
      change (ring_idx (set_win_valid _ _) k') with (ring_idx w k').
      rewrite !list_lookup_insert_ne by done.
      split; [done|]. split; [done|]. split; [done|].
      destruct o as [c|]; [|done]. destruct Hrest as (Hv1 & Hl & Hc).
      split; [done|]. split; [done|]. rewrite <- Hc. f_equal.
      destruct (Nat.lt_total (ring_idx w k) (ring_idx w k')) as [Hlt'|[?|Hlt']]; [|done|].
      * apply (mem_write_read_after _ _ _ _ _ _ Hw). rewrite Hbl. nia.
      * apply (mem_write_read_before _ _ _ _ _ _ Hw). nia.
Qed.

(** Reading an entry: its valid mark and, when set, the packet. *)
Lemma valid_repr w slots k o :
  repr w slots -> slots !! k = Some o ->
  get_valid w (ring_idx w k) = Some (match o with Some _ => 1 | None => 0 end).
Proof.
  intros (ps & vs & pool & Hs & Hlen & Hslots) Ho.
  destruct (Hslots k o Ho) as (v & e & Hv & He & Hp & Hrest).
  unfold get_valid. rewrite (ws_valid _ _ _ _ Hs). cbn [mbind option_bind].
  rewrite Hv. by destruct o; destruct_and?; subst.
Qed.

Lemma repr_fits w slots k c :
  repr w slots -> slots !! k = Some (Some c) ->
  (lenf (pkt_payload_len c) <= Z.to_nat (win_max_payload w))%nat.
Proof.
  intros (ps & vs & pool & Hs & Hlen & Hslots) Ho.
  by destruct (Hslots k (Some c) Ho) as (v & e & _ & _ & _ & _ & Hl & <-).
Qed.

Lemma load_repr w slots k c :
  repr w slots -> slots !! k = Some (Some c) ->
  exists p, load_entry w (ring_idx w k) = Some p /\ content lenf p = c /\
    exists bs, pkt_payload p = Some bs /\ (lenf (pkt_payload_len p) <= length bs)%nat.
Proof.
  intros (ps & vs & pool & Hs & Hlen & Hslots) Ho.
  destruct (Hslots k (Some c) Ho) as (v & e & Hv & He & Hp & Hv1 & Hl & Hc).
  unfold load_entry. rewrite (ws_packets _ _ _ _ Hs), (ws_pool _ _ _ _ Hs).
  cbn [mbind option_bind]. rewrite He. cbn [mbind option_bind].
  eexists. split; [done|]. split.
  - unfold content. cbn [pkt_payload with_payload default pkt_payload_len]. by rewrite Hp.
  - eexists. split; [done|]. rewrite Hp, length_drop, (ws_pool_len _ _ _ _ Hs).
    cbn [with_payload pkt_payload_len].
    apply lookup_lt_Some in Ho.
    pose proof (ring_idx_lt w ps vs pool k Hs ltac:(lia)). nia.
Qed.

Lemma repr_set_next w slots n :
  repr w slots -> 0 <= n < 4294967296 -> repr (set_win_next_seq w n) slots.
Proof.
  intros (ps & vs & pool & Hs & Hlen & Hslots) Hn. exists ps, vs, pool.
  split; [|done]. destruct Hs. by split.
Qed.

(** A fresh or reset ring is empty. *)
Lemma fresh_repr ws mp s :
  0 < ws < 65536 -> 0 <= s < 4294967296 ->
  repr (Window (Some (map (fun i => Packet 0 0 0 0 0 0 0 0 0 (i * Z.to_nat mp)%nat)
                 (seq 0 (Z.to_nat ws))))
        (Some (replicate (Z.to_nat ws) 0))
        (Some (replicate (Z.to_nat ws * Z.to_nat mp) 0)) s s ws mp 0)
    (replicate (Z.to_nat ws) None).
Proof.
  intros Hws Hs. eexists _, _, _. split; [|split].
  - split; simpl; try done; rewrite ?length_map, ?length_seq, ?length_replicate; lia.
  - by rewrite length_replicate.
  - intros k o [-> Hk]%lookup_replicate. unfold ring_idx. cbn [win_base_index win_window_size].
    rewrite Nat.mod_small by lia. simpl Z.to_nat at 1. rewrite Nat.add_0_l.
    eexists 0, _. split; [by apply lookup_replicate|].
    split; [rewrite list_lookup_fmap; by rewrite lookup_seq_lt by done|]. done.
Qed.

Lemma reset_repr w slots s :
  repr w slots -> 0 <= s < 4294967296 ->
  repr (set_win_start (set_win_valid w (Some (replicate (Z.to_nat (win_window_size w)) 0))) s)
    (replicate (Z.to_nat (win_window_size w)) None).
Proof.
  intros (ps & vs & pool & Hs & Hlen & Hslots) Hn.
  exists ps, (replicate (Z.to_nat (win_window_size w)) 0), pool. split; [|split].
  - destruct Hs. split; simpl; try done; rewrite ?length_replicate; lia.
  - by rewrite length_replicate.
  - intros k o [-> Hk]%lookup_replicate. unfold ring_idx.
    cbn [win_base_index win_window_size set_win_start set_win_valid].
    rewrite Nat.mod_small by lia. simpl Z.to_nat at 2. rewrite Nat.add_0_l.
    set (j := (k + Z.to_nat (win_window_size w) - Z.to_nat (win_base_index w))%nat).
    assert (exists k', (k' < length slots)%nat /\ ring_idx w k' = k) as (k' & Hk' & Hr).
    { pose proof Hs as []. 
      destruct (decide (Z.to_nat (win_base_index w) <= k)%nat).
      - exists (k - Z.to_nat (win_base_index w))%nat. split; [lia|].
        rewrite (ring_idx_cases w ps vs pool) by (done || lia). destruct_ifs; lia.
      - exists j. split; [lia|].
        rewrite (ring_idx_cases w ps vs pool) by (done || lia). destruct_ifs; lia. }
    destruct (lookup_lt_is_Some_2 slots k' Hk') as [o Ho].
    destruct (Hslots k' o Ho) as (v & e & Hv & He & Hp & _). rewrite Hr in Hp, He.
    exists 0, e. split; [by apply lookup_replicate|]. done.
Qed.
End Ring.

(** ** The send window: the last [window_size] packets *)

Section SendSpec.
Context `{CplatByteorder}.
Abbreviation content := (content nbo_len).

(** [w] holds the packets [pkts], the oldest under [win_base_seq w]. *)
Definition send_repr (w : potr_internal_window) (pkts : list (potr_packet (list Z))) : Prop :=
  (length pkts <= Z.to_nat (win_window_size w))%nat /\
  win_next_seq w = win_base_seq w ⊕ Z.of_nat (length pkts) /\
  repr nbo_len w (map Some pkts ++ replicate (Z.to_nat (win_window_size w) - length pkts) None).

(** Abstract push: append, and drop the oldest when the window is full. *)
Definition spec_push (ws : nat) (pkts : list (potr_packet (list Z))) c :=
  (if (ws <=? length pkts)%nat then tail pkts else pkts) ++ [c].

Lemma send_dist w pkts :
  send_repr w pkts -> win_next_seq w ⊖ win_base_seq w = Z.of_nat (length pkts).
Proof.
  intros (Hle & Hn & (ps & vs & pool & Hs & _)). destruct Hs.
  rewrite Hn. apply u32_dist. lia.
Qed.

(** Making room: the first half of a push. *)
Definition send_evict (w : potr_internal_window) : option potr_internal_window :=
  if window_send_full w then
    idx ← win_index w (win_base_seq w); w ← put_valid w idx 0; win_advance_base w
  else Some w.

Lemma send_evict_spec w pkts :
  send_repr w pkts ->
  exists w1, send_evict w = Some w1 /\
    win_window_size w1 = win_window_size w /\ win_max_payload w1 = win_max_payload w /\
    win_next_seq w1 = win_next_seq w /\
    send_repr w1 (if (Z.to_nat (win_window_size w) <=? length pkts)%nat
                  then tail pkts else pkts).
Proof.
  intros Hsend. pose proof (send_dist _ _ Hsend) as Hd.
  pose proof Hsend as (Hle & Hn & Hr).
  destruct (repr_shape _ _ _ Hr) as (ps & vs & pool & Hs & Hlen). pose proof Hs as [].
  unfold send_evict, window_send_full. rewrite Hd.
  destruct (Nat.leb_spec (Z.to_nat (win_window_size w)) (length pkts)) as [Hfull|Hfull].
  2: { rewrite (proj2 (Z.leb_gt _ _)) by lia. by exists w. }
  rewrite (proj2 (Z.leb_le _ _)) by lia.
  rewrite (win_index_ring w ps vs pool) by (rewrite ?u32_self; done || lia).
  rewrite u32_self. change (Z.to_nat 0) with O. cbn [mbind option_bind].
  destruct pkts as [|c0 pkts]; [simpl in *; lia|]. cbn [map app tail] in *.
  destruct (put_valid_clear _ w _ 0 Hr ltac:(simpl; lia)) as (w2 & -> & Hctl & Hr2).
  cbn [mbind option_bind]. simpl in Hr2.
  destruct (advance_repr _ _ _ _ Hr2) as (w3 & Hw3 & Hb3 & Hx3 & Hs3 & Hm3 & Hr3).
  destruct Hctl as (Hc1 & Hc2 & Hc3 & Hc4 & Hc5). cbn [length] in *.
  exists w3. rewrite Hs3, Hm3, Hx3. split_and!; [done..|]. split; [|split].
  - rewrite Hs3, Hc3. lia.
  - rewrite Hx3, Hc2, Hn, Hb3, Hc1, u32_add_l. f_equal. lia.
  - rewrite Hs3, Hc3.
    replace (Z.to_nat (win_window_size w) - length pkts)%nat
      with (Z.to_nat (win_window_size w) - S (length pkts) + 1)%nat by lia.
    rewrite replicate_add, app_assoc. done.
Qed.

Lemma send_push_spec w pkts p :
  send_repr w pkts -> storable nbo_len (win_max_payload w) p ->
  exists w', window_send_push w p = Some (POTR_OK, w') /\
    win_window_size w' = win_window_size w /\ win_max_payload w' = win_max_payload w /\
    win_next_seq w' = win_next_seq w ⊕ 1 /\
    send_repr w' (spec_push (Z.to_nat (win_window_size w)) pkts (content p)).
Proof.
  intros Hsend Hst. pose proof Hsend as (Hle & _).
  destruct (send_evict_spec _ _ Hsend) as (w1 & Hw1 & Hws1 & Hmp1 & Hnx1 & Hsend1).
  unfold spec_push. set (ws := Z.to_nat (win_window_size w)) in *.
  set (pkts1 := if (ws <=? length pkts)%nat then tail pkts else pkts) in *.
  pose proof (send_dist _ _ Hsend1) as Hd1. destruct Hsend1 as (Hle1 & Hn1 & Hr1).
  destruct (repr_shape _ _ _ Hr1) as (ps1 & vs1 & pool1 & Hs1 & Hlen1).
  assert (length pkts1 < ws)%nat as Hl1.
  { unfold pkts1. pose proof Hs1 as []. rewrite Hws1 in *.
    destruct (Nat.leb_spec ws (length pkts)); [|done].
    destruct pkts; simpl in *; lia. }
  rewrite Hws1 in Hr1. fold ws in Hr1.
  unfold window_send_push. fold (send_evict w). rewrite Hw1. cbn [mbind option_bind].
  rewrite (win_index_ring w1 ps1 vs1 pool1), Hd1, Nat2Z.id by (done || lia).
  cbn [mbind option_bind].
  destruct (store_repr nbo_len w1 _ (length pkts1) p Hr1) as (w2 & -> & Hctl & Hr2);
    [rewrite length_app, length_map, length_replicate; lia|by rewrite Hmp1|].
  destruct Hctl as (Hc1 & Hc2 & Hc3 & Hc4 & Hc5). cbn [mbind option_bind].
  eexists. split; [done|].
  unfold send_repr. cbn [win_window_size win_max_payload win_next_seq win_base_seq set_win_next_seq].
  rewrite Hc3, Hws1. fold ws. split_and!; [done|congruence|congruence| | |].
  - rewrite length_app. simpl length. lia.
  - rewrite Hc2, Hn1, Hc1, u32_add_l, length_app. simpl length. f_equal. lia.
  - apply repr_set_next; [|auto with porter]. rewrite map_app, length_app. simpl length.
    assert (ws - length pkts1 = S (ws - (length pkts1 + 1)))%nat as Heq by lia.
    rewrite Heq in Hr2. cbn [replicate] in Hr2.
    rewrite insert_app_r_alt in Hr2 by (rewrite length_map; lia).
    rewrite length_map, Nat.sub_diag in Hr2. simpl in Hr2.
    rewrite <- app_assoc. exact Hr2.
Qed.

Lemma send_get_spec w pkts s :
  send_repr w pkts ->
  exists rc q, window_send_get w s = Some (rc, q) /\
    match pkts !! Z.to_nat (s ⊖ win_base_seq w) with
    | Some c => rc = POTR_OK /\ exists p, q = Some p /\ content p = c /\
        (nbo_len (pkt_payload_len p) <= Z.to_nat (win_max_payload w))%nat /\
        exists bs, pkt_payload p = Some bs /\ (nbo_len (pkt_payload_len p) <= length bs)%nat
    | None => rc = POTR_ERR_NOT_FOUND /\ q = None
    end.
Proof.
  intros Hsend. pose proof (send_dist _ _ Hsend) as Hd.
  destruct Hsend as (Hle & Hn & Hr).
  destruct (repr_shape _ _ _ Hr) as (ps & vs & pool & Hs & Hlen).
  pose proof Hs as [].
  unfold window_send_get, potr_internal_seqnum_in_window.
  rewrite Hd, u16_small by lia.
  pose proof (u32_range (s - win_base_seq w)).
  destruct (Z.ltb_spec (s ⊖ win_base_seq w) (Z.of_nat (length pkts))) as [Hin|Hout]; cbn [negb].
  - destruct (lookup_lt_is_Some_2 pkts (Z.to_nat (s ⊖ win_base_seq w))) as [c Hc]; [lia|].
    rewrite Hc. rewrite (win_index_ring w ps vs pool) by (done || lia).
    cbn [mbind option_bind].
    assert ((map Some pkts ++ replicate (Z.to_nat (win_window_size w) - length pkts) None)
              !! Z.to_nat (s ⊖ win_base_seq w) = Some (Some c)) as Hlk.
    { rewrite lookup_app_l by (rewrite length_map; lia).
      rewrite list_lookup_fmap, Hc. done. }
    rewrite (valid_repr _ _ _ _ _ Hr Hlk). cbn [mbind option_bind Z.eqb].
    destruct (load_repr _ _ _ _ _ Hr Hlk) as (p & -> & Hp & Hbs). cbn [mbind option_bind].
    eexists _, _. split; [done|]. split; [done|]. exists p. split; [done|]. split; [done|].
    split; [|done]. pose proof (repr_fits _ _ _ _ _ Hr Hlk) as Hfit. by rewrite <- Hp in Hfit.
  - rewrite lookup_ge_None_2 by lia. eexists _, _. done.
Qed.
End SendSpec.

(** ** The receive window: reordering by sequence number *)

Section RecvSpec.
Abbreviation content := (content Z.to_nat).

(** Position [k] past [base_seq] holds a packet of sequence number
    [base_seq + k], or nothing yet; delivery continues at [base_seq]. *)
Definition recv_repr (w : potr_internal_window)
    (slots : list (option (potr_packet (list Z)))) : Prop :=
  win_next_seq w = win_base_seq w /\ repr Z.to_nat w slots /\
  forall k c, slots !! k = Some (Some c) -> pkt_seq_num c = win_base_seq w ⊕ Z.of_nat k.

(** Abstract push: the first packet of a sequence number wins. *)
Definition spec_recv_push (slots : list (option (potr_packet (list Z)))) (k : nat) c :=
  match slots !! k with Some None => <[k:=Some c]> slots | _ => slots end.

Lemma recv_repr_shape w slots :
  recv_repr w slots -> exists ps vs pool, win_shape w ps vs pool /\
    length slots = Z.to_nat (win_window_size w).
Proof. intros (_ & Hr & _). by apply repr_shape in Hr. Qed.

Lemma recv_push_spec w slots p :
  recv_repr w slots -> storable Z.to_nat (win_max_payload w) p ->
  0 <= pkt_seq_num p < 4294967296 ->
  let k := pkt_seq_num p ⊖ win_base_seq w in
  exists rc w', window_recv_push w p = Some (rc, w') /\ same_ctl w w' /\
    (if k <? win_window_size w
     then rc = POTR_OK /\ recv_repr w' (spec_recv_push slots (Z.to_nat k) (content p))
     else rc = POTR_ERR_OUT_OF_WINDOW /\ w' = w).
Proof.
  intros (Hn & Hr & Hseq) Hst Hsn k.
  destruct (repr_shape _ _ _ Hr) as (ps & vs & pool & Hs & Hlen).
  unfold window_recv_push, potr_internal_seqnum_in_window. fold k.
  pose proof (u32_range (pkt_seq_num p - win_base_seq w)) as Hk. fold k in Hk.
  destruct (Z.ltb_spec k (win_window_size w)) as [Hin|Hout]; cbn [negb].
  2: { eexists _, _. split; [done|]. done. }
  rewrite (win_index_ring w ps vs pool) by done. fold k. cbn [mbind option_bind].
  destruct (lookup_lt_is_Some_2 slots (Z.to_nat k)) as [o Ho]; [lia|].
  rewrite (valid_repr _ _ _ _ _ Hr Ho). cbn [mbind option_bind].
  unfold spec_recv_push. rewrite Ho. destruct o as [c|]; cbn [Z.eqb].
  { eexists _, _. split; [done|]. split; [done|]. split; [done|]. done. }
  destruct (store_repr Z.to_nat w slots (Z.to_nat k) p Hr) as (w' & -> & Hctl & Hr');
    [lia|done|].
  cbn [mbind option_bind]. eexists _, _. split; [done|]. split; [done|]. split; [done|].
  destruct Hctl as (Hc1 & Hc2 & _). split; [congruence|]. split; [done|].
  intros j c [(<- & [= ->])|(_ & Hj)]%list_lookup_insert_cases; rewrite Hc1; [|by apply Hseq].
  cbn [content with_payload pkt_seq_num]. rewrite Z2Nat.id by lia.
  symmetry. by apply u32_at_dist.
Qed.

(** Removing the head and advancing, the common part of pop and skip. *)
Lemma recv_shift_spec w o slots :
  recv_repr w (o :: slots) ->
  exists w1 w2, put_valid w (ring_idx w 0) 0 = Some w1 /\ win_advance_base w1 = Some w2 /\
    win_next_seq w2 = win_base_seq w /\
    win_base_seq w2 = win_base_seq w ⊕ 1 /\
    win_window_size w2 = win_window_size w /\ win_max_payload w2 = win_max_payload w /\
    recv_repr (set_win_next_seq w2 (win_next_seq w2 ⊕ 1)) (slots ++ [None]).
Proof.
  intros (Hn & Hr & Hseq).
  destruct (put_valid_clear _ w _ 0 Hr ltac:(simpl; lia)) as (w1 & -> & Hctl & Hr1).
  simpl in Hr1. destruct (advance_repr _ _ _ _ Hr1) as (w2 & Hw2 & Hb & Hx & Hsz & Hm & Hr2).
  destruct Hctl as (Hc1 & Hc2 & Hc3 & Hc4 & _).
  exists w1, w2. split_and!; try congruence.
  split; [|split].
  - cbn [win_next_seq win_base_seq set_win_next_seq]. congruence.
  - apply repr_set_next; auto with porter.
  - intros k c Hk. cbn [win_base_seq set_win_next_seq]. rewrite Hb, Hc1, u32_add_l.
    rewrite lookup_app_l in Hk.
    + rewrite (Hseq (S k) c Hk). f_equal. lia.
    + pose proof (lookup_lt_Some _ _ _ Hk) as Hlt. rewrite length_app in Hlt. simpl in Hlt.
      destruct (decide (k = length slots)) as [->|]; [|lia].
      rewrite lookup_app_r, Nat.sub_diag in Hk by lia. done.
Qed.

Lemma recv_head_index w o slots :
  recv_repr w (o :: slots) -> win_index w (win_next_seq w) = Some (ring_idx w 0).
Proof.
  intros Hrr. pose proof Hrr as (Hn & _).
  destruct (recv_repr_shape _ _ Hrr) as (ps & vs & pool & Hs & _).
  rewrite Hn, (win_index_ring w ps vs pool), u32_self by (rewrite ?u32_self; destruct Hs; done || lia).
  done.
Qed.

Lemma recv_pop_spec w o slots :
  recv_repr w (o :: slots) ->
  match o with
  | None => window_recv_pop w = Some (POTR_ERR_EMPTY, w, None)
  | Some c => exists w' p, window_recv_pop w = Some (POTR_OK, w', Some p) /\ content p = c /\
      (exists bs, pkt_payload p = Some bs /\ (Z.to_nat (pkt_payload_len p) <= length bs)%nat) /\
      win_base_seq w' = win_base_seq w ⊕ 1 /\ win_window_size w' = win_window_size w /\
      win_max_payload w' = win_max_payload w /\ recv_repr w' (slots ++ [None])
  end.
Proof.
  intros Hrr. pose proof Hrr as (Hn & Hr & _).
  unfold window_recv_pop. rewrite (recv_head_index _ _ _ Hrr). cbn [mbind option_bind].
  rewrite (valid_repr _ _ _ 0 o Hr eq_refl). cbn [mbind option_bind].
  destruct o as [c|]; [|done]. cbn [Z.eqb].
  destruct (load_repr _ _ _ 0 c Hr eq_refl) as (p & -> & Hc & Hbs). cbn [mbind option_bind].
  destruct (recv_shift_spec _ _ _ Hrr) as (w1 & w2 & -> & Hw2 & Hx & Hb & Hsz & Hm & Hr2).
  cbn [mbind option_bind]. rewrite Hw2. cbn [mbind option_bind].
  eexists _, p. split; [done|]. split_and!; done.
Qed.

Lemma recv_skip_spec w o slots s :
  recv_repr w (o :: slots) ->
  exists w', window_recv_skip w s = Some w' /\
    win_window_size w' = win_window_size w /\ win_max_payload w' = win_max_payload w /\
    (if win_next_seq w =? s
     then win_base_seq w' = win_base_seq w ⊕ 1 /\ recv_repr w' (slots ++ [None])
     else w' = w).
Proof.
  intros Hrr. unfold window_recv_skip.
  destruct (Z.eqb_spec (win_next_seq w) s) as [<-|]; cbn [negb]; [|by exists w].
  rewrite (recv_head_index _ _ _ Hrr). cbn [mbind option_bind].
  destruct (recv_shift_spec _ _ _ Hrr) as (w1 & w2 & -> & Hw2 & Hx & Hb & Hsz & Hm & Hr2).
  cbn [mbind option_bind]. rewrite Hw2. cbn [mbind option_bind].
  eexists. split; [done|]. done.
Qed.

Definition slot_full (o : option (potr_packet (list Z))) : bool :=
  match o with Some _ => true | None => false end.

Lemma look_ahead_spec w slots i n :
  recv_repr w slots -> (i + n <= length slots)%nat ->
  look_ahead w i n = Some (existsb slot_full (take n (drop i slots))).
Proof.
  intros Hrr. destruct (recv_repr_shape _ _ Hrr) as (ps & vs & pool & Hs & Hlen).
  pose proof Hrr as (Hn & Hr & _).
  revert i. induction n as [|n IH]; intros i Hi; [done|]. cbn [look_ahead].
  pose proof Hs as [].
  assert ((win_next_seq w ⊕ Z.of_nat i) ⊖ win_base_seq w = Z.of_nat i) as Hd
    by (rewrite Hn; apply u32_dist; lia).
  rewrite (win_index_ring w ps vs pool), Hd, Nat2Z.id by (done || lia).
  cbn [mbind option_bind].
  destruct (lookup_lt_is_Some_2 slots i) as [o Ho]; [lia|].
  rewrite (valid_repr _ _ _ _ _ Hr Ho). cbn [mbind option_bind].
  rewrite (drop_S slots o i Ho). cbn [take existsb].
  destruct o as [c|]; cbn [Z.eqb negb slot_full orb]; [done|]. apply IH. lia.
Qed.

Lemma needs_nack_spec w o slots :
  recv_repr w (o :: slots) ->
  window_recv_needs_nack w =
    Some (if negb (slot_full o) && existsb slot_full slots
          then Some (win_next_seq w) else None).
Proof.
  intros Hrr. pose proof Hrr as (Hn & Hr & _).
  destruct (recv_repr_shape _ _ Hrr) as (ps & vs & pool & Hs & Hlen).
  unfold window_recv_needs_nack. rewrite (recv_head_index _ _ _ Hrr). cbn [mbind option_bind].
  rewrite (valid_repr _ _ _ 0 o Hr eq_refl). cbn [mbind option_bind].
  destruct o as [c|]; cbn [Z.eqb negb slot_full andb]; [done|].
  cbn [length] in Hlen.
  rewrite (look_ahead_spec w _ 1 _ Hrr) by (cbn [length]; destruct Hs; lia).
  cbn [mbind option_bind]. rewrite skipn_cons, drop_0, take_ge by lia.
  by destruct (existsb slot_full slots).
Qed.

Lemma has_packet_spec w slots s :
  recv_repr w slots ->
  window_recv_has_packet w s
  = Some (match slots !! Z.to_nat (s ⊖ win_base_seq w) with Some (Some _) => true | _ => false end).
Proof.
  intros Hrr. pose proof Hrr as (Hn & Hr & _).
  destruct (recv_repr_shape _ _ Hrr) as (ps & vs & pool & Hs & Hlen). pose proof Hs as [].
  unfold window_recv_has_packet, potr_internal_seqnum_in_window. rewrite ws_valid0.
  rewrite (proj2 (Z.eqb_neq _ _)) by lia. cbn [orb].
  pose proof (u32_range (s - win_base_seq w)).
  destruct (Z.ltb_spec (s ⊖ win_base_seq w) (win_window_size w)) as [Hin|Hout]; cbn [negb].
  2: { by rewrite lookup_ge_None_2 by lia. }
  rewrite (win_index_ring w ps vs pool) by done. cbn [mbind option_bind].
  destruct (lookup_lt_is_Some_2 slots (Z.to_nat (s ⊖ win_base_seq w))) as [o Ho]; [lia|].
  rewrite Ho, (valid_repr _ _ _ _ _ Hr Ho). by destruct o.
Qed.

Lemma recv_empty_lookup n k c :
  replicate n (@None (potr_packet (list Z))) !! k = Some (Some c) -> False.
Proof. intros [? _]%lookup_replicate. done. Qed.

Lemma recv_reset_spec w slots s :
  recv_repr w slots -> 0 <= s < 4294967296 ->
  let w' := window_recv_reset w s in
  win_base_seq w' = s /\ win_window_size w' = win_window_size w /\
  win_max_payload w' = win_max_payload w /\
  recv_repr w' (replicate (Z.to_nat (win_window_size w)) None).
Proof.
  intros (_ & Hr & _) Hs. pose proof (reset_repr _ _ _ s Hr Hs) as Hr'.
  destruct (repr_shape _ _ _ Hr) as (ps & vs & pool & [] & _).
  unfold window_recv_reset. rewrite ws_valid0. cbn zeta. split_and!; [done..|].
  split; [done|]. split; [done|]. by intros k c ?%recv_empty_lookup.
Qed.

(** [potr_internal_window_init] leaves an empty window at [s], whether it
    allocates or reuses the buffers of a window of the same size. *)
Lemma window_init_spec alloc w s ws mp rc w' :
  0 < ws < 65536 -> 0 <= s < 4294967296 ->
  win_packets w = None \/ (exists slots, repr Z.to_nat w slots) ->
  window_init alloc w s ws mp = (rc, w') ->
  (rc = POTR_OK /\ win_base_seq w' = s /\ win_window_size w' = ws /\ win_max_payload w' = mp /\
   recv_repr w' (replicate (Z.to_nat ws) None)) \/
  (rc = POTR_ERR_OUT_OF_MEMORY /\ alloc <> (true, true, true) /\ win_packets w' = None).
Proof.
  intros Hws Hs Hw. unfold window_init.
  assert (forall w1, (match alloc with
    | (true, true, true) => (POTR_OK, Window
        (Some (map (fun i => Packet 0 0 0 0 0 0 0 0 0 (i * Z.to_nat mp)%nat)
                 (seq 0 (Z.to_nat ws))))
        (Some (replicate (Z.to_nat ws) 0))
        (Some (replicate (Z.to_nat ws * Z.to_nat mp) 0)) s s ws mp 0)
    | _ => (POTR_ERR_OUT_OF_MEMORY, set_win_buffers w1 None None None) end) = (rc, w') ->
    (rc = POTR_OK /\ win_base_seq w' = s /\ win_window_size w' = ws /\ win_max_payload w' = mp /\
     recv_repr w' (replicate (Z.to_nat ws) None)) \/
    (rc = POTR_ERR_OUT_OF_MEMORY /\ alloc <> (true, true, true) /\ win_packets w' = None))
    as Hfresh.
  { intros w1. destruct alloc as [[[] []] []]; intros [= <- <-];
      try (right; done). left. split_and!; [done..|].
    split; [done|]. split; [by apply fresh_repr|]. by intros k c ?%recv_empty_lookup. }
  destruct (win_packets w) as [ps|] eqn:Hps; [|apply Hfresh].
  destruct ((win_window_size w =? ws) && (win_max_payload w =? mp)) eqn:Hsz; [|apply Hfresh].
  intros [= <- <-]. left. bool_hyps.
  assert (win_window_size w = ws) as Hw1 by lia. assert (win_max_payload w = mp) as Hw2 by lia.
  destruct Hw as [?|[slots Hr]]; [done|].
  destruct (repr_shape _ _ _ Hr) as (ps' & vs & pool & [] & _).
  rewrite ws_valid0. cbn [fmap option_fmap option_map].
  split_and!; [done..|]. split; [done|]. rewrite <- Hw1.
  split; [by apply reset_repr with slots|]. by intros k c ?%recv_empty_lookup.
Qed.

(** Delivering everything available: pop until the window reports empty. *)
Fixpoint recv_drain (fuel : nat) (w : potr_internal_window)
    : option (list packet * potr_internal_window) :=
  match fuel with
  | O => None
  | S fuel =>
      '(rc, w', p) ← window_recv_pop w;
      match rc =? POTR_OK, p with
      | true, Some p => '(ps, w'') ← recv_drain fuel w'; Some (p :: ps, w'')
      | _, _ => Some ([], w')
      end
  end.

(** The packets available in sequence. *)
Fixpoint ready (slots : list (option (potr_packet (list Z)))) : list (potr_packet (list Z)) :=
  match slots with Some c :: slots => c :: ready slots | _ => [] end.

Lemma ready_app_None slots : ready (slots ++ [None]) = ready slots.
Proof. induction slots as [|[c|] slots IH]; simpl; [done| |done]. by rewrite IH. Qed.

Lemma ready_length slots : (length (ready slots) <= length slots)%nat.
Proof. induction slots as [|[c|] slots IH]; simpl; lia. Qed.

Lemma recv_drain_spec w slots fuel :
  recv_repr w slots -> (length (ready slots) < fuel)%nat ->
  exists ps w', recv_drain fuel w = Some (ps, w') /\ map content ps = ready slots /\
    Forall (fun p => exists bs, pkt_payload p = Some bs /\
      (Z.to_nat (pkt_payload_len p) <= length bs)%nat) ps /\
    win_base_seq w' = win_base_seq w ⊕ Z.of_nat (length ps) /\
    win_window_size w' = win_window_size w /\ win_max_payload w' = win_max_payload w /\
    recv_repr w' (drop (length ps) slots ++ replicate (length ps) None).
Proof.
  revert w slots. induction fuel as [|fuel IH]; intros w slots Hrr Hf; [lia|].
  destruct (recv_repr_shape _ _ Hrr) as (ps & vs & pool & Hs & Hlen). pose proof Hs as [].
  destruct slots as [|o slots]; [simpl in Hlen; lia|].
  pose proof (recv_pop_spec _ _ _ Hrr) as Hpop. cbn [recv_drain].
  destruct o as [c|].
  - destruct Hpop as (w' & p & -> & Hc & Hbs & Hb & Hsz & Hm & Hr').
    cbn [mbind option_bind Z.eqb POTR_OK]. simpl in Hf.
    destruct (IH w' (slots ++ [None]) Hr') as (qs & w'' & -> & Hqs & Hf' & Hb' & Hsz' & Hm' & Hr'');
      [rewrite ready_app_None; lia|].
    cbn [mbind option_bind]. exists (p :: qs), w''. cbn [map ready length drop].
    rewrite ready_app_None in Hqs.
    split; [done|]. split; [by rewrite Hc, Hqs|]. split; [by constructor|].
    split; [rewrite Hb', Hb, u32_add_l; f_equal; lia|].
    split; [congruence|]. split; [congruence|].
    assert (length qs <= length slots)%nat as Hle.
    { rewrite <- (length_map content), Hqs. apply ready_length. }
    rewrite drop_app_le, <- app_assoc in Hr'' by done. done.
  - rewrite Hpop. cbn [mbind option_bind].
    change (POTR_ERR_EMPTY =? POTR_OK) with false. cbn match.
    exists [], w. cbn [map ready length drop replicate]. rewrite Z.add_0_r, app_nil_r.
    rewrite u32_small by done. split_and!; done.
Qed.
End RecvSpec.

(** ** Properties of the windows *)

Section SendProps.
Context `{CplatByteorder}.

Fixpoint send_push_all (w : potr_internal_window) (ps : list packet)
    : option potr_internal_window :=
  match ps with
  | [] => Some w
  | p :: ps => '(_, w') ← window_send_push w p; send_push_all w' ps
  end.

Lemma last_push_all n (cs acc : list (potr_packet (list Z))) :
  (0 < n)%nat -> (length acc <= n)%nat ->
  fold_left (spec_push n) cs acc = drop (length acc + length cs - n)%nat (acc ++ cs).
Proof.
  intros Hn. revert acc. induction cs as [|c cs IH]; intros acc Hacc; cbn [fold_left length].
  - rewrite app_nil_r. replace (length acc + 0 - n)%nat with O by lia. done.
  - unfold spec_push at 2. destruct (Nat.leb_spec n (length acc)).
    + destruct acc as [|a acc]; simpl in *; [lia|].
      rewrite IH by (rewrite length_app; simpl; lia).
      rewrite length_app, <- app_assoc. simpl.
      destruct (S (length acc + S (length cs)) - n)%nat as [|m] eqn:Hm; [lia|].
      simpl. f_equal. lia.
    + rewrite IH by (rewrite length_app; simpl; lia).
      rewrite length_app, <- app_assoc. simpl. f_equal. lia.
Qed.

Lemma send_push_all_spec ps w pkts :
  send_repr w pkts -> Forall (storable nbo_len (win_max_payload w)) ps ->
  exists w', send_push_all w ps = Some w' /\
    win_window_size w' = win_window_size w /\
    win_next_seq w' = win_next_seq w ⊕ Z.of_nat (length ps) /\
    send_repr w' (fold_left (spec_push (Z.to_nat (win_window_size w)))
                    (map (content nbo_len) ps) pkts).
Proof.
  revert w pkts. induction ps as [|p ps IH]; intros w pkts Hs Hst.
  - exists w. pose proof Hs as (_ & Hn & _). simpl. rewrite Z.add_0_r, Hn, u32_idem. done.
  - apply Forall_cons_1 in Hst as [Hp Hst]. cbn [send_push_all].
    destruct (send_push_spec w pkts p Hs Hp) as (w1 & -> & Hws & Hmp & Hn & Hs1).
    cbn [mbind option_bind].
    destruct (IH w1 _ Hs1) as (w' & -> & Hws' & Hn' & Hs'); [by rewrite Hmp|].
    exists w'. split; [done|]. split; [congruence|]. rewrite Hws in Hs'. split; [|done].
    rewrite Hn', Hn, u32_add_l. cbn [length]. f_equal. lia.
Qed.

Lemma fresh_send_repr alloc w0 s ws mp :
  0 < ws < 65536 -> 0 <= s < 4294967296 -> win_packets w0 = None ->
  alloc = (true, true, true) ->
  exists w, window_init alloc w0 s ws mp = (POTR_OK, w) /\ win_next_seq w = s /\
    win_window_size w = ws /\ win_max_payload w = mp /\ send_repr w [].
Proof.
  intros Hws Hs Hw ->. unfold window_init. rewrite Hw. eexists. split; [done|].
  split_and!; try done. split; [simpl; lia|]. split.
  - simpl. by rewrite Z.add_0_r, u32_small.
  - simpl. rewrite Nat.sub_0_r. by apply fresh_repr.
Qed.

Lemma send_base_of_next w pkts :
  send_repr w pkts -> win_base_seq w = win_next_seq w ⊖ Z.of_nat (length pkts).
Proof.
  intros (Hle & Hn & (ps & vs & pool & Hs & _)). destruct Hs.
  rewrite Hn, u32_sub_l. replace (_ + _ - _) with (win_base_seq w) by lia.
  by rewrite u32_small.
Qed.

(** The retransmission buffer of a sender keeps exactly the last
    [window_size] packets.  After any sequence of pushes into a freshly
    initialised window (every payload fits [max_payload]), asking for the
    number of the [j]-th packet returns that packet, payload included, when
    it is among the last [window_size] ones and [POTR_ERR_NOT_FOUND] when it
    has been evicted; the numbering wraps around modulo 2^32. *)
Theorem send_window_keeps_last w0 s ws mp ps :
  0 < ws < 65536 -> 0 <= s < 4294967296 -> win_packets w0 = None ->
  Forall (storable nbo_len mp) ps -> Z.of_nat (length ps) < 4294967296 ->
  exists w w', window_init (true, true, true) w0 s ws mp = (POTR_OK, w) /\
    send_push_all w ps = Some w' /\ win_next_seq w' = s ⊕ Z.of_nat (length ps) /\
    forall j p, ps !! j = Some p ->
      if (length ps <=? j + Z.to_nat ws)%nat
      then exists q, window_send_get w' (s ⊕ Z.of_nat j) = Some (POTR_OK, Some q) /\
             content nbo_len q = content nbo_len p
      else window_send_get w' (s ⊕ Z.of_nat j) = Some (POTR_ERR_NOT_FOUND, None).
Proof.
  intros Hws Hs Hw0 Hst Hn.
  destruct (fresh_send_repr (true, true, true) w0 s ws mp) as (w & Hi & Hx & Hsz & Hm & Hr);
    [done..|].
  rewrite <- Hm in Hst. destruct (send_push_all_spec ps w [] Hr Hst) as (w' & Hall & Hsz' & Hx' & Hr').
  rewrite Hx in Hx'. rewrite Hsz, last_push_all in Hr' by (simpl; lia). cbn [length app] in Hr'.
  rewrite Nat.add_0_l, length_map in Hr'.
  exists w, w'. split_and!; [done..|]. intros j p Hj.
  pose proof (lookup_lt_Some _ _ _ Hj) as Hlt.
  destruct (send_get_spec w' _ (s ⊕ Z.of_nat j) Hr') as (rc & q & Hget & Hq).
  set (n := length ps) in *. set (wn := Z.to_nat ws) in *.
  assert ((s ⊕ Z.of_nat j) ⊖ win_base_seq w'
          = u32 (Z.of_nat j - Z.of_nat (n - wn))) as Hd.
  { rewrite (send_base_of_next _ _ Hr'), Hx', length_drop, length_map. fold n.
    rewrite (u32_sub_l (s + Z.of_nat n)), u32_sub_l, u32_sub_r. f_equal. lia. }
  rewrite Hd, lookup_drop in Hq. destruct (Nat.leb_spec n (j + wn)).
  - rewrite u32_small in Hq by lia. rewrite list_lookup_fmap in Hq.
    replace (n - wn + Z.to_nat (Z.of_nat j - Z.of_nat (n - wn)))%nat with j in Hq by lia.
    rewrite Hj in Hq. destruct Hq as (-> & q' & -> & Hc & _). by exists q'.
  - rewrite lookup_ge_None_2 in Hq; [by destruct Hq as [-> ->]|].
    rewrite length_map. fold n. zmod.
Qed.
End SendProps.

Definition example_msg (n : Z) (bs : list Z) : packet :=
  Packet 0 0 0 0 n 0 POTR_FLAG_DATA (Z.of_nat (length bs)) 1 (Some bs).
Definition no_window : potr_internal_window := Window None None None 0 0 0 0 0.

(** Two slots of four bytes, three packets, numbers wrapping around 2^32. *)
Lemma send_window_keeps_last_witness :
  exists w w', window_init (true, true, true) no_window 4294967295 2 4 = (POTR_OK, w) /\
    @send_push_all big_host w [example_msg 0 [1; 2]; example_msg 0 [3]; example_msg 0 []] = Some w' /\
    win_next_seq w' = 2 /\
    window_send_get w' 4294967295 = Some (POTR_ERR_NOT_FOUND, None) /\
    exists q, window_send_get w' 0 = Some (POTR_OK, Some q) /\
      content (@nbo_len big_host) q = with_payload (example_msg 0 [3]) [3].
Proof.
  destruct (@send_window_keeps_last big_host no_window 4294967295 2 4
    [example_msg 0 [1; 2]; example_msg 0 [3]; example_msg 0 []])
    as (w & w' & Hi & Hp & Hn & Hget);
    [lia | lia | reflexivity | repeat constructor; vm_compute; lia | simpl; lia |].
  exists w, w'. split; [exact Hi|]. split; [exact Hp|]. split; [rewrite Hn; reflexivity|].
  split; [exact (Hget O _ eq_refl)|].
  destruct (Hget 1%nat _ eq_refl) as (q & Hq & Hc). exists q. split; [exact Hq|].
  rewrite Hc. reflexivity.
Defined.

Section RecvProps.
Abbreviation content := (content Z.to_nat).

(** What the receive path does with a window. *)
Inductive recv_op := RecvPush (p : packet) | RecvPop | RecvSkip (s : Z).

(** The outcome of an operation: a number is delivered ([Some p]) or given
    up ([None]), or the position does not move. *)
Definition recv_step (w : potr_internal_window) (o : recv_op)
    : option (list (option packet) * potr_internal_window) :=
  match o with
  | RecvPush p => '(_, w') ← window_recv_push w p; Some ([], w')
  | RecvPop => '(rc, w', p) ← window_recv_pop w;
      Some (match p with Some p => [Some p] | None => [] end, w')
  | RecvSkip s => w' ← window_recv_skip w s;
      Some (if win_next_seq w =? s then [None] else [], w')
  end.

Fixpoint recv_run (w : potr_internal_window) (ops : list recv_op)
    : option (list (option packet) * potr_internal_window) :=
  match ops with
  | [] => Some ([], w)
  | o :: ops =>
      '(out, w') ← recv_step w o;
      '(outs, w'') ← recv_run w' ops;
      Some (out ++ outs, w'')
  end.

Definition pushed (ops : list recv_op) : list packet :=
  omap (fun o => match o with RecvPush p => Some p | _ => None end) ops.

Definition op_ok (mp : Z) (o : recv_op) : Prop :=
  match o with
  | RecvPush p => storable Z.to_nat mp p /\ 0 <= pkt_seq_num p < 4294967296
  | _ => True
  end.

(** The window holds packets of [known] only. *)
Definition holds_only (known : list (potr_packet (list Z)))
    (slots : list (option (potr_packet (list Z)))) : Prop :=
  forall k c, slots !! k = Some (Some c) -> c ∈ known.

Lemma holds_only_app_None known slots :
  holds_only known slots -> holds_only known (slots ++ [None]).
Proof.
  intros Hk k c [Hl|[_ Hl]]%lookup_app_Some; [by eapply Hk|].
  by apply list_lookup_singleton_Some in Hl as [_ ?].
Qed.

(** The outputs of one step starting at number [s]. *)
Definition outs_ok (known : list (potr_packet (list Z))) (s : Z) (outs : list (option packet)) :=
  forall i p, outs !! i = Some (Some p) ->
    pkt_seq_num p = s ⊕ Z.of_nat i /\ content p ∈ known.

Lemma recv_step_spec w slots o known :
  recv_repr w slots -> holds_only known slots -> op_ok (win_max_payload w) o ->
  exists out w' slots', recv_step w o = Some (out, w') /\ recv_repr w' slots' /\
    win_max_payload w' = win_max_payload w /\ win_window_size w' = win_window_size w /\
    win_base_seq w' = win_base_seq w ⊕ Z.of_nat (length out) /\
    let known' := match o with RecvPush p => content p :: known | _ => known end in
    holds_only known' slots' /\ outs_ok known' (win_base_seq w) out.
Proof.
  intros Hr Hk Ho. destruct (recv_repr_shape _ _ Hr) as (ps & vs & pool & Hs & Hlen).
  pose proof Hs as [].
  assert (win_base_seq w ⊕ Z.of_nat 0 = win_base_seq w) as H0
    by (by rewrite Z.add_0_r, u32_small).
  destruct slots as [|x slots]; [simpl in Hlen; lia|].
  assert (holds_only known slots) as Hk' by (intros i c; apply (Hk (S i))).
  destruct o as [p| |s]; cbn [recv_step].
  - destruct Ho as [Hst Hsn].
    destruct (recv_push_spec _ _ p Hr Hst Hsn) as (rc & w' & -> & Hctl & Hres).
    destruct Hctl as (Hb & Hn & Hws & Hmp & _). cbn [mbind option_bind].
    assert (exists slots', recv_repr w' slots' /\ holds_only (content p :: known) slots')
      as (sl' & Hr' & Hk2).
    { destruct (_ <? _) in Hres; destruct Hres as [-> Hres].
      - eexists. split; [exact Hres|]. unfold spec_recv_push.
        destruct (_ !! Z.to_nat _) as [[c'|]|]; try (intros ???; right; by eapply Hk).
        intros k c [(_ & [= ->])|(_ & Hl)]%list_lookup_insert_cases; [left|right; by eapply Hk].
      - subst w'. exists (x :: slots). split; [done|]. intros ???. right. by eapply Hk. }
    exists [], w', sl'. cbn [length]. rewrite Hb, H0. split_and!; done.
  - pose proof (recv_pop_spec _ _ _ Hr) as Hpop. destruct x as [c|].
    + destruct Hpop as (w' & p & -> & Hc & _ & Hb & Hws & Hmp & Hr'). cbn [mbind option_bind].
      eexists _, w', _. split; [done|]. split_and!; [done..| |].
      * by apply holds_only_app_None.
      * intros [|i] q Hq; [|done]. injection Hq as <-. split.
        -- destruct Hr as (_ & _ & Hseq). rewrite <- (Hseq O c eq_refl), <- Hc. done.
        -- apply (Hk O). simpl. by rewrite Hc.
    + rewrite Hpop. cbn [mbind option_bind]. exists [], w, (None :: slots).
      cbn [length]. rewrite H0. split_and!; done.
  - destruct (recv_skip_spec _ _ _ s Hr) as (w' & -> & Hws & Hmp & Hres). cbn [mbind option_bind].
    destruct (win_next_seq w =? s).
    + destruct Hres as [Hb Hr']. eexists _, w', _. split; [done|].
      split_and!; [done..|by apply holds_only_app_None|]. by intros [|i] q Hq.
    + subst w'. exists [], w, (x :: slots). cbn [length]. rewrite H0. split_and!; done.
Qed.

Lemma outs_ok_app k1 k2 known s o1 o2 :
  outs_ok k1 s o1 -> outs_ok k2 (s ⊕ Z.of_nat (length o1)) o2 ->
  (forall c, c ∈ k1 -> c ∈ known) -> (forall c, c ∈ k2 -> c ∈ known) ->
  outs_ok known s (o1 ++ o2).
Proof.
  intros H1 H2 S1 S2 i p [Hl|[Hi Hl]]%lookup_app_Some.
  - destruct (H1 i p Hl). split; auto.
  - destruct (H2 _ p Hl) as [Hs Hin]. split; [|auto]. rewrite Hs, u32_add_l.
    f_equal. unfold packet in *. lia.
Qed.

Lemma recv_run_spec ops w slots known :
  recv_repr w slots -> holds_only known slots -> Forall (op_ok (win_max_payload w)) ops ->
  exists outs w' slots', recv_run w ops = Some (outs, w') /\ recv_repr w' slots' /\
    win_window_size w' = win_window_size w /\
    win_base_seq w' = win_base_seq w ⊕ Z.of_nat (length outs) /\
    outs_ok (map content (pushed ops) ++ known) (win_base_seq w) outs.
Proof.
  revert w slots known. induction ops as [|o ops IH]; intros w slots known Hr Hk Ho.
  - destruct (recv_repr_shape _ _ Hr) as (ps & vs & pool & [] & _).
    exists [], w, slots. cbn [length]. rewrite Z.add_0_r, u32_small by done. split_and!; done.
  - apply Forall_cons_1 in Ho as [Ho Hos]. cbn [recv_run].
    destruct (recv_step_spec _ _ _ _ Hr Hk Ho)
      as (out & w1 & sl1 & -> & Hr1 & Hmp & Hsz & Hb & Hk1 & Hout). cbn [mbind option_bind].
    rewrite <- Hmp in Hos.
    destruct (IH w1 sl1 _ Hr1 Hk1 Hos) as (outs & w2 & sl2 & -> & Hr2 & Hsz2 & Hb2 & Houts).
    cbn [mbind option_bind]. eexists _, w2, sl2. split; [done|]. split; [done|]. split; [congruence|]. split.
    + rewrite Hb2, Hb, u32_add_l, length_app. f_equal. lia.
    + rewrite Hb in Houts. eapply outs_ok_app; [exact Hout|exact Houts|..]; intros c;
        destruct o; cbn [pushed omap list_omap map app]; rewrite ?elem_of_app, ?elem_of_cons,
        ?elem_of_app, ?elem_of_cons; tauto.
Qed.

(** In-order, exactly-once delivery: whatever is pushed, popped and
    skipped on a freshly initialised receive window (any arrival order,
    duplicates and numbers out of the window included), no operation faults
    and the [i]-th number left behind is [s + i] modulo 2^32: it is either a
    pushed packet with that number, its payload intact, or was skipped. *)
Theorem recv_window_in_order w0 s ws mp ops :
  0 < ws < 65536 -> 0 <= s < 4294967296 -> win_packets w0 = None ->
  Forall (op_ok mp) ops ->
  exists w outs w', window_init (true, true, true) w0 s ws mp = (POTR_OK, w) /\
    recv_run w ops = Some (outs, w') /\
    win_next_seq w' = s ⊕ Z.of_nat (length outs) /\
    forall i p, outs !! i = Some (Some p) ->
      pkt_seq_num p = s ⊕ Z.of_nat i /\ content p ∈ map content (pushed ops).
Proof.
  intros Hws Hs Hw0 Hops.
  destruct (window_init (true, true, true) w0 s ws mp) as [rc w] eqn:Hi.
  destruct (window_init_spec (true, true, true) w0 s ws mp rc w) as [Hok|(_ & [] & _)];
    [lia|done|by left|done| |done].
  destruct Hok as (-> & Hb & _ & Hm & Hr). rewrite <- Hm in Hops.
  destruct (recv_run_spec ops w _ [] Hr) as (outs & w' & sl & Hrun & (Hn & _) & _ & Hb' & Hout);
    [by intros k c ?%recv_empty_lookup|done|].
  exists w, outs, w'. rewrite app_nil_r in Hout. split; [done|]. split; [done|].
  rewrite Hn, Hb', Hb. split; [done|]. intros i p Hp. rewrite <- Hb. by apply Hout.
Qed.

Fixpoint recv_push_all (w : potr_internal_window) (ps : list packet)
    : option potr_internal_window :=
  match ps with
  | [] => Some w
  | p :: ps => '(_, w') ← window_recv_push w p; recv_push_all w' ps
  end.

(** The slots after some of the packets [msgs] have arrived. *)
Definition arrived (msgs got : list packet) (slots : list (option (potr_packet (list Z)))) :=
  forall k p, msgs !! k = Some p ->
    (slots !! k = Some (Some (content p)) \/ (slots !! k = Some None /\ p ∉ got)).

Definition numbered (s : Z) (msgs : list packet) : Prop :=
  forall i p, msgs !! i = Some p -> pkt_seq_num p = s ⊕ Z.of_nat i.

Lemma numbered_inj s msgs i k p :
  numbered s msgs -> Z.of_nat (length msgs) < 4294967296 ->
  msgs !! i = Some p -> msgs !! k = Some p -> i = k.
Proof.
  intros Hnum Hle Hi Hk. pose proof (Hnum i p Hi) as Hsi. pose proof (Hnum k p Hk) as Hsk.
  pose proof (lookup_lt_Some _ _ _ Hi). pose proof (lookup_lt_Some _ _ _ Hk).
  rewrite Hsi in Hsk. apply (f_equal (fun z => z ⊖ s)) in Hsk.
  unfold packet in *. rewrite !u32_dist in Hsk by lia. lia.
Qed.

Lemma recv_push_arrived w slots msgs got k p :
  recv_repr w slots -> numbered (win_base_seq w) msgs ->
  (length msgs <= length slots)%nat -> storable Z.to_nat (win_max_payload w) p ->
  msgs !! k = Some p -> arrived msgs got slots ->
  exists w' slots', window_recv_push w p = Some (POTR_OK, w') /\ recv_repr w' slots' /\
    win_max_payload w' = win_max_payload w /\ win_base_seq w' = win_base_seq w /\
    length slots' = length slots /\ (forall i, (length msgs <= i)%nat -> slots' !! i = slots !! i) /\
    arrived msgs (p :: got) slots'.
Proof.
  intros Hr Hnum Hle Hst Hk Harr.
  destruct (recv_repr_shape _ _ Hr) as (ps & vs & pool & [] & Hlen).
  pose proof (lookup_lt_Some _ _ _ Hk) as Hlt.
  pose proof (Hnum k p Hk) as Hsn.
  destruct (recv_push_spec w slots p Hr Hst) as (rc & w' & -> & Hctl & Hres);
    [rewrite Hsn; auto with porter|].
  rewrite Hsn, u32_dist in Hres by lia. rewrite (proj2 (Z.ltb_lt _ _)) in Hres by lia.
  destruct Hres as [-> Hr']. rewrite Nat2Z.id in Hr'. destruct Hctl as (Hb & _ & _ & Hmp & _).
  exists w'. eexists. split; [done|]. split; [exact Hr'|]. split; [done|]. split; [done|].
  unfold spec_recv_push. destruct (Harr k p Hk) as [Hc|[Hc Hn]]; rewrite Hc.
  - split; [done|]. split; [done|]. intros i q Hi.
    destruct (Harr i q Hi) as [?|[Hi' Hni]]; [by left|right]. split; [done|].
    rewrite not_elem_of_cons. split; [|done]. intros ->.
    assert (i = k) as -> by (eapply numbered_inj; [exact Hnum| |exact Hi|exact Hk]; lia).
    congruence.
  - split; [by rewrite length_insert|]. split.
    { intros i Hi. apply list_lookup_insert_ne. lia. }
    intros i q Hi. destruct (decide (i = k)) as [->|Hne].
    + left. rewrite Hk in Hi. injection Hi as ->. apply list_lookup_insert_eq. lia.
    + rewrite list_lookup_insert_ne by done.
      destruct (Harr i q Hi) as [?|[Hi' Hni]]; [by left|right]. split; [done|].
      rewrite not_elem_of_cons. split; [|done]. intros ->. apply Hne.
      eapply numbered_inj; [exact Hnum| |exact Hi|exact Hk]; lia.
Qed.
Lemma recv_push_all_arrived ps w slots msgs got :
  recv_repr w slots -> numbered (win_base_seq w) msgs ->
  (length msgs <= length slots)%nat ->
  Forall (storable Z.to_nat (win_max_payload w)) msgs ->
  (forall p, p ∈ ps -> p ∈ msgs) -> arrived msgs got slots ->
  exists w' slots', recv_push_all w ps = Some w' /\ recv_repr w' slots' /\
    win_base_seq w' = win_base_seq w /\ length slots' = length slots /\
    (forall i, (length msgs <= i)%nat -> slots' !! i = slots !! i) /\
    arrived msgs (rev ps ++ got) slots'.
Proof.
  revert w slots got. induction ps as [|p ps IH]; intros w slots got Hr Hnum Hle Hst Hsub Ha.
  { exists w, slots. done. }
  assert (p ∈ msgs) as Hp by (apply Hsub; left).
  pose proof Hp as [k Hk]%list_elem_of_lookup. rewrite Forall_forall in Hst.
  destruct (recv_push_arrived w slots msgs got k p Hr Hnum Hle (Hst p (proj1 (list_elem_of_In _ _) Hp)) Hk Ha)
    as (w1 & sl1 & Hw1 & Hr1 & Hmp & Hb & Hlen & Hrest & Ha1).
  cbn [recv_push_all]. rewrite Hw1. cbn [mbind option_bind].
  destruct (IH w1 sl1 (p :: got) Hr1) as (w2 & sl2 & -> & Hr2 & Hb2 & Hlen2 & Hrest2 & Ha2).
  - by rewrite Hb.
  - lia.
  - rewrite Hmp. by apply Forall_forall.
  - intros q Hq. apply Hsub. by right.
  - done.
  - exists w2, sl2. split_and!; try congruence.
    + intros i Hi. by rewrite Hrest2, Hrest.
    + cbn [rev]. by rewrite <- app_assoc.
Qed.

Lemma ready_all cs slots n :
  (forall k c, cs !! k = Some c -> slots !! k = Some (Some c)) ->
  (forall i, (length cs <= i < n)%nat -> slots !! i = Some None) ->
  length slots = n -> ready slots = cs.
Proof.
  revert slots n. induction cs as [|c cs IH]; intros slots n Hin Hrest Hlen.
  - destruct slots as [|[c|] slots]; [done| |done].
    specialize (Hrest O). simpl in *. assert (Some (Some c) = Some None); [|done].
    apply Hrest. lia.
  - destruct slots as [|o slots]; [by specialize (Hin O c eq_refl)|].
    pose proof (Hin O c eq_refl) as Ho. simpl in Ho. injection Ho as ->. cbn [ready].
    f_equal. simpl in Hlen. apply (IH slots (length slots)); [| |done].
    + intros k c' Hk. by apply (Hin (S k)).
    + intros i Hi. apply (Hrest (S i)). simpl. lia.
Qed.

(** Reordering and duplicates are repaired: when the numbers of up to
    [window_size] packets are consecutive from the window's base, then any
    arrival sequence in which each of them occurs at least once (in any
    order, any number of times) is accepted, and popping until empty
    delivers exactly those packets, payloads included, once each and in
    number order. *)
Theorem recv_window_reorders w0 s ws mp msgs arrivals :
  0 < ws < 65536 -> 0 <= s < 4294967296 -> win_packets w0 = None ->
  Z.of_nat (length msgs) <= ws -> numbered s msgs -> Forall (storable Z.to_nat mp) msgs ->
  (forall p, p ∈ arrivals <-> p ∈ msgs) ->
  exists w w' ps w'', window_init (true, true, true) w0 s ws mp = (POTR_OK, w) /\
    recv_push_all w arrivals = Some w' /\
    recv_drain (S (Z.to_nat ws)) w' = Some (ps, w'') /\
    map content ps = map content msgs /\
    win_next_seq w'' = s ⊕ Z.of_nat (length msgs).
Proof.
  intros Hws Hs Hw0 Hn Hnum Hst Hperm.
  destruct (window_init (true, true, true) w0 s ws mp) as [rc w] eqn:Hi.
  destruct (window_init_spec (true, true, true) w0 s ws mp rc w) as [Hok|(_ & [] & _)];
    [lia|done|by left|done| |done].
  destruct Hok as (-> & Hb & Hsz & Hm & Hr). rewrite <- Hm in Hst. rewrite <- Hb in Hnum.
  destruct (recv_push_all_arrived arrivals w _ msgs [] Hr Hnum) as
    (w1 & sl & Hpush & Hr1 & Hb1 & Hlen & Hrest & Harr);
    [rewrite length_replicate; lia|done|intros p; apply Hperm|..].
  { intros k p Hk. right. split; [|apply not_elem_of_nil].
    apply lookup_replicate. split; [done|]. apply lookup_lt_Some in Hk. unfold packet in *. lia. }
  rewrite length_replicate in Hlen.
  assert (ready sl = map content msgs) as Hready.
  { eapply ready_all; [| |exact Hlen].
    - intros k c Hk. apply list_lookup_fmap_Some in Hk as (p & -> & Hk).
      destruct (Harr k p Hk) as [?|[_ Hnot]]; [done|]. destruct Hnot.
      apply elem_of_app. left. apply list_elem_of_In, in_rev.
      rewrite rev_involutive. apply list_elem_of_In, Hperm. by eapply list_elem_of_lookup_2.
    - intros i. rewrite length_map. unfold packet in *. intros Hi2. rewrite Hrest by lia.
      apply lookup_replicate. split; [done|lia]. }
  destruct (recv_drain_spec w1 sl (S (Z.to_nat ws)) Hr1)
    as (ps & w2 & Hdr & Hps & _ & Hb2 & _ & _ & (Hn2 & _)).
  { rewrite Hready, length_map. unfold packet in *. lia. }
  exists w, w1, ps, w2. split_and!; [done..|congruence|].
  rewrite Hn2, Hb2, Hb1, Hb. do 3 f_equal.
  rewrite <- (length_map content), Hps, Hready, length_map. done.
Qed.
End RecvProps.

Lemma recv_window_in_order_witness :
  exists w outs w', window_init (true, true, true) no_window 4294967295 2 4 = (POTR_OK, w) /\
    recv_run w [RecvPush (example_msg 0 [7]); RecvPop; RecvSkip 4294967295; RecvPop]
      = Some (outs, w') /\
    win_next_seq w' = 4294967295 ⊕ Z.of_nat (length outs).
Proof.
  destruct (recv_window_in_order no_window 4294967295 2 4
    [RecvPush (example_msg 0 [7]); RecvPop; RecvSkip 4294967295; RecvPop])
    as (w & outs & w' & Hi & Hrun & Hn & _);
    [lia | lia | reflexivity | repeat constructor; vm_compute; first [done | lia] |].
  exists w, outs, w'. split; [exact Hi|]. split; [exact Hrun|]. exact Hn.
Defined.

Lemma recv_window_reorders_witness :
  exists w w' ps w'', window_init (true, true, true) no_window 4294967295 3 4 = (POTR_OK, w) /\
    recv_push_all w [example_msg 0 [7; 8]; example_msg 4294967295 [5]; example_msg 0 [7; 8]]
      = Some w' /\
    recv_drain 4 w' = Some (ps, w'') /\
    map (content Z.to_nat) ps
      = map (content Z.to_nat) [example_msg 4294967295 [5]; example_msg 0 [7; 8]] /\
    win_next_seq w'' = 1.
Proof.
  apply (recv_window_reorders no_window 4294967295 3 4
    [example_msg 4294967295 [5]; example_msg 0 [7; 8]]
    [example_msg 0 [7; 8]; example_msg 4294967295 [5]; example_msg 0 [7; 8]]);
    [lia | lia | reflexivity | simpl; lia | | repeat constructor; vm_compute; lia | ].
  - intros [|[|i]] p Hp; [injection Hp as <-; reflexivity..|done].
  - intros p. rewrite !elem_of_cons, !elem_of_nil. tauto.
Defined.
