(* ===== verification/WindowRefine.v ===== *)
(** The receive window refines a reorder buffer.  The C window is a ring of
    packet slots with a shared payload pool (protocol/window.c); its abstract
    specification is a finite map from sequence numbers to packets and the next
    number to hand out.  Every sequence of calls gets the same replies from both. *)

From stdpp Require Import base list numbers option gmap.
From Stdlib Require Import ZArith Lia ZifyBool.
From S2P Require Import Prelude Types Packet Window.
Local Open Scope Z_scope.
Local Open Scope porter_scope.

(** ** The calls and their replies *)

(** A call of the receive side of the API; [CallPop] carries the packet the
    caller passes as [packet_out]. *)
Inductive window_call :=
  | CallPush (p : packet)
  | CallPop (packet_out : packet)
  | CallSkip (seq_num : Z)
  | CallNeedsNack
  | CallHasPacket (seq_num : Z)
  | CallReset (new_base_seq : Z).

(** What the caller sees. *)
Inductive window_reply :=
  | Returned (rc : Z)
  | Popped (rc : Z) (packet_out : potr_packet (list Z))
  | NackFor (nack_num : option Z)
  | Present (b : bool)
  | Void.

#[local] Abbreviation content := (content Z.to_nat).

(** Numbers are [uint32_t]; a pushed payload fits a slot, as
    [potr_internal_packet_parse] makes sure. *)
Definition call_ok (mp : Z) (c : window_call) : Prop :=
  match c with
  | CallPush p => storable Z.to_nat mp p /\ 0 <= pkt_seq_num p < 4294967296
  | CallHasPacket s | CallReset s => 0 <= s < 4294967296
  | _ => True
  end.

(** The window of the code answers a call. *)
Definition window_answer (w : option potr_internal_window) (c : window_call)
    : option (window_reply * option potr_internal_window) :=
  match c with
  | CallPush p =>
      '(rc, w') ← potr_internal_window_recv_push w (Some p); Some (Returned rc, w')
  | CallPop out =>
      '(rc, w', p) ← potr_internal_window_recv_pop w (Some out);
      Some (Popped rc (content (default out p)), w')
  | CallSkip s => w' ← potr_internal_window_recv_skip w s; Some (Void, w')
  | CallNeedsNack =>
      n ← potr_internal_window_recv_needs_nack w (Some 0); Some (NackFor n, w)
  | CallHasPacket s =>
      b ← potr_internal_window_recv_has_packet w s; Some (Present b, w)
  | CallReset s => Some (Void, potr_internal_window_recv_reset w s)
  end.

(** ** The abstract specification *)

Record reorder_buffer := ReorderBuffer {
  rb_next : Z;                              (* the next number to hand out *)
  rb_held : gmap Z (potr_packet (list Z))   (* what has arrived from there on *)
}.

(** The next number is left behind, delivered or given up. *)
Definition rb_advance (b : reorder_buffer) : reorder_buffer :=
  ReorderBuffer (rb_next b ⊕ 1) (delete (rb_next b) (rb_held b)).

(** A buffer that accepts the [ws] numbers from the next one on; the first
    packet of a number wins. *)
Definition buffer_answer (ws : Z) (b : reorder_buffer) (c : window_call) : window_reply * reorder_buffer :=
  match c with
  | CallPush p =>
      if pkt_seq_num p ⊖ rb_next b <? ws then
        (Returned POTR_OK, match rb_held b !! pkt_seq_num p with
           | Some _ => b
           | None => ReorderBuffer (rb_next b) (<[pkt_seq_num p := content p]> (rb_held b)) end)
      else (Returned POTR_ERR_OUT_OF_WINDOW, b)
  | CallPop out =>
      match rb_held b !! rb_next b with
      | Some p => (Popped POTR_OK p, rb_advance b)
      | None => (Popped POTR_ERR_EMPTY (content out), b)
      end
  | CallSkip s => (Void, if rb_next b =? s then rb_advance b else b)
  | CallNeedsNack =>
      (NackFor (if decide (rb_held b !! rb_next b = None /\ rb_held b ≠ ∅) then Some (rb_next b) else None), b)
  | CallHasPacket s => (Present (bool_decide (is_Some (rb_held b !! s))), b)
  | CallReset s => (Void, ReorderBuffer s ∅)
  end.

(** ** The refinement relation *)

Definition held_at (base : Z) (slots : list (option (potr_packet (list Z)))) (s : Z)
    : option (potr_packet (list Z)) :=
  if (0 <=? s) && (s <? 4294967296) then mjoin (slots !! Z.to_nat (s ⊖ base)) else None.

Definition window_refines (ws mp : Z) (w : option potr_internal_window) (b : reorder_buffer) : Prop :=
  exists w' slots, w = Some w' /\ recv_repr w' slots /\ win_window_size w' = ws /\ win_max_payload w' = mp /\
    rb_next b = win_base_seq w' /\ forall s, rb_held b !! s = held_at (win_base_seq w') slots s.

Lemma held_empty base n s : held_at base (replicate n None) s = None.
Proof.
  unfold held_at. destruct (_ && _); [|done].
  destruct (replicate n None !! _) as [o|] eqn:Ho; [|done]. by apply lookup_replicate in Ho as [-> _].
Qed.

Lemma held_head base o slots : 0 <= base < 4294967296 -> held_at base (o :: slots) base = o.
Proof.
  intros Hb. unfold held_at. rewrite u32_self. by replace ((0 <=? base) && (base <? 4294967296)) with true by lia.
Qed.

(** Storing a packet of number [s]. *)
Lemma held_store base slots s c s' :
  0 <= s < 4294967296 -> (Z.to_nat (s ⊖ base) < length slots)%nat ->
  held_at base (<[Z.to_nat (s ⊖ base) := Some c]> slots) s' 
  = if decide (s = s') then Some c else held_at base slots s'.
Proof.
  intros Hs Hl. unfold held_at. destruct (decide (s = s')) as [<-|Hne].
  - replace ((0 <=? s) && (s <? 4294967296)) with true by lia. by rewrite list_lookup_insert_eq.
  - destruct ((0 <=? s') && (s' <? 4294967296)) eqn:Hr; [|done].
    rewrite list_lookup_insert_ne; [done|]. intros Heq. apply Hne.
    rewrite <- (u32_at_dist base s), <- (u32_at_dist base s') by lia.
    pose proof (u32_range (s - base)). pose proof (u32_range (s' - base)). f_equal. lia.
Qed.

(** Moving on by one number. *)
Lemma held_shift base o slots s :
  0 <= base < 4294967296 -> Z.of_nat (length slots) < 65536 ->
  held_at (base ⊕ 1) (slots ++ [None]) s = if decide (base = s) then None else held_at base (o :: slots) s.
Proof.
  intros Hb Hl. unfold held_at. destruct ((0 <=? s) && (s <? 4294967296)) eqn:Hr; [|by case_decide].
  case_decide as Hd.
  - subst s. rewrite lookup_ge_None_2; [done|]. rewrite length_app, u32_sub_r. cbn [length].
    replace (base - (base + 1)) with (-1) by lia. change (u32 (-1)) with 4294967295. lia.
  - pose proof (u32_range (s - base)).
    assert (s ⊖ base <> 0) as Hnz.
    { intros Hz. apply Hd. rewrite <- (u32_at_dist base s), Hz, Z.add_0_r, u32_small by lia. done. }
    rewrite u32_dist_succ by lia.
    replace (Z.to_nat (s ⊖ base)) with (S (Z.to_nat (s ⊖ base - 1))) by lia. rewrite lookup_cons.
    set (n := Z.to_nat _). destruct (decide (n < length slots)%nat) as [Hn|Hn]; [by rewrite lookup_app_l|].
    rewrite lookup_app_r by lia. rewrite (lookup_ge_None_2 slots n) by lia. by destruct (n - length slots)%nat as [|[]].
Qed.

(** ** The simulation, call by call *)

Section Simulation.
Context (ws mp : Z).

Definition simulates (w : option potr_internal_window) (b : reorder_buffer) (c : window_call) : Prop :=
  exists w', window_answer w c = Some (fst (buffer_answer ws b c), w') /\
    window_refines ws mp w' (snd (buffer_answer ws b c)).

Lemma refines_advance w w' o slots b :
  recv_repr w (o :: slots) -> recv_repr w' (slots ++ [None]) ->
  win_window_size w = ws -> win_window_size w' = ws -> win_max_payload w' = mp ->
  win_base_seq w' = win_base_seq w ⊕ 1 ->
  rb_next b = win_base_seq w -> (forall s, rb_held b !! s = held_at (win_base_seq w) (o :: slots) s) ->
  window_refines ws mp (Some w') (rb_advance b).
Proof.
  intros Hr Hr' Hws Hws' Hmp Hb Hn Hh. exists w', (slots ++ [None]). split_and!; try done.
  - cbn. by rewrite Hn, Hb.
  - intros s. destruct (recv_repr_shape _ _ Hr) as (ps & vs & pool & [] & Hl). cbn [length] in Hl.
    cbn [rb_advance rb_held]. rewrite Hb, (held_shift _ o) by lia. rewrite Hn.
    case_decide as Hd; [by rewrite Hd, lookup_delete_eq|]. by rewrite lookup_delete_ne.
Qed.

Lemma sim_push w b p : window_refines ws mp w b -> call_ok mp (CallPush p) -> simulates w b (CallPush p).
Proof.
  intros (w1 & slots & -> & Hr & Hws & Hmp & Hn & Hh) [Hst Hs]. unfold simulates.
  cbn [window_answer buffer_answer potr_internal_window_recv_push]. rewrite Hn, Hh. rewrite <- Hmp in Hst.
  destruct (recv_push_spec _ _ _ Hr Hst Hs) as (rc & w2 & -> & (Hb & _ & Hws2 & Hmp2 & _) & Hres).
  cbn [mbind option_bind]. rewrite Hws in Hres.
  destruct (recv_repr_shape _ _ Hr) as (ps & vs & pool & [] & Hl).
  pose proof (u32_range (pkt_seq_num p - win_base_seq w1)).
  destruct (Z.ltb_spec (pkt_seq_num p ⊖ win_base_seq w1) ws) as [Hin|Hout]; destruct Hres as [-> Hres];
    (eexists; split; [by cbn|]); cbn [snd].
  2: { subst w2. by exists w1, slots. }
  exists w2, (spec_recv_push slots (Z.to_nat (pkt_seq_num p ⊖ win_base_seq w1)) (content p)).
  unfold spec_recv_push. unfold held_at at 1 2.
  replace ((0 <=? pkt_seq_num p) && (pkt_seq_num p <? 4294967296)) with true by lia.
  destruct (lookup_lt_is_Some_2 slots (Z.to_nat (pkt_seq_num p ⊖ win_base_seq w1))) as [o Ho]; [lia|].
  unfold spec_recv_push in Hres. rewrite Ho in Hres |- *. rewrite <- Hmp, <- Hws, Hb.
  destruct o as [c|]; cbn [mjoin option_join rb_next rb_held]; split_and!; try done.
  intros s. rewrite held_store by lia. destruct (decide (pkt_seq_num p = s)) as [<-|Hne].
  - by rewrite lookup_insert_eq.
  - by rewrite lookup_insert_ne.
Qed.

Lemma sim_pop w b out : window_refines ws mp w b -> simulates w b (CallPop out).
Proof.
  intros (w1 & slots & -> & Hr & Hws & Hmp & Hn & Hh). unfold simulates.
  destruct (recv_repr_shape _ _ Hr) as (ps & vs & pool & [] & Hl).
  destruct slots as [|o slots]; [cbn in Hl; lia|].
  cbn [window_answer buffer_answer potr_internal_window_recv_pop]. rewrite Hh, Hn, held_head by done.
  pose proof (recv_pop_spec _ _ _ Hr) as Hpop. destruct o as [c|].
  - destruct Hpop as (w2 & p & -> & Hc & _ & Hb & Hws2 & Hmp2 & Hr2). eexists. split; [cbn; by rewrite Hc|].
    eapply refines_advance; eauto; congruence.
  - rewrite Hpop. eexists. split; [done|]. by exists w1, (None :: slots).
Qed.

Lemma sim_skip w b s : window_refines ws mp w b -> simulates w b (CallSkip s).
Proof.
  intros (w1 & slots & -> & Hr & Hws & Hmp & Hn & Hh). unfold simulates.
  destruct (recv_repr_shape _ _ Hr) as (ps & vs & pool & [] & Hl).
  destruct slots as [|o slots]; [cbn in Hl; lia|]. pose proof (proj1 Hr) as Hnx.
  cbn [window_answer buffer_answer potr_internal_window_recv_skip fst snd].
  destruct (recv_skip_spec _ _ _ s Hr) as (w2 & -> & Hws2 & Hmp2 & Hres). rewrite Hn, <- Hnx.
  eexists. split; [done|]. destruct (win_next_seq w1 =? s).
  - destruct Hres as [Hb Hr2]. eapply refines_advance; eauto; congruence.
  - subst w2. by exists w1, (o :: slots).
Qed.

Lemma sim_has_packet w b s :
  window_refines ws mp w b -> call_ok mp (CallHasPacket s) -> simulates w b (CallHasPacket s).
Proof.
  intros Href Hs. pose proof Href as (w1 & slots & -> & Hr & _ & _ & _ & Hh). cbn in Hs.
  eexists. split; [|exact Href]. cbn [window_answer buffer_answer potr_internal_window_recv_has_packet fst].
  rewrite (has_packet_spec _ _ _ Hr). cbn [mbind option_bind]. rewrite Hh. unfold held_at.
  replace ((0 <=? s) && (s <? 4294967296)) with true by lia.
  by destruct (slots !! _) as [[c|]|].
Qed.

Lemma sim_reset w b s :
  window_refines ws mp w b -> call_ok mp (CallReset s) -> simulates w b (CallReset s).
Proof.
  intros (w1 & slots & -> & Hr & Hws & Hmp & Hn & Hh) Hs. eexists. split; [done|].
  destruct (recv_reset_spec _ _ s Hr Hs) as (Hb & Hws' & Hmp' & Hr').
  eexists _, _. split; [done|]. split; [exact Hr'|]. cbn [buffer_answer snd rb_next rb_held].
  split_and!; [congruence..|by rewrite Hb|]. intros s'. by rewrite held_empty, lookup_empty.
Qed.

(** Something is held past a missing head exactly when the map is not empty. *)
Lemma held_gap w b slots :
  recv_repr w (None :: slots) ->
  (forall s, rb_held b !! s = held_at (win_base_seq w) (None :: slots) s) ->
  existsb slot_full slots = true <-> rb_held b ≠ ∅.
Proof.
  intros Hr Hh. destruct (recv_repr_shape _ _ Hr) as (ps & vs & pool & [] & Hl). cbn [length] in Hl. split.
  - intros ([c|] & Hin & ?)%existsb_exists; [|done].
    apply list_elem_of_In, list_elem_of_lookup in Hin as [i Hi]. pose proof (lookup_lt_Some _ _ _ Hi).
    intros He. specialize (Hh (win_base_seq w ⊕ Z.of_nat (S i))). rewrite He, lookup_empty in Hh.
    unfold held_at in Hh. pose proof (u32_range (win_base_seq w + Z.of_nat (S i))).
    replace ((0 <=? _) && _) with true in Hh by lia. rewrite u32_dist, Nat2Z.id in Hh by lia.
    rewrite lookup_cons in Hh. by rewrite Hi in Hh.
  - intros (s & c & Hc)%map_choose. rewrite Hh in Hc. unfold held_at in Hc. destruct (_ && _); [|done].
    destruct (Z.to_nat (s ⊖ _)) as [|i]; [done|]. rewrite lookup_cons in Hc. apply existsb_exists. exists (Some c).
    split; [|done]. apply list_elem_of_In, list_elem_of_lookup. exists i.
    cbn beta iota in Hc. destruct (slots !! i) as [[c'|]|]; cbn in Hc; congruence.
Qed.

Lemma sim_needs_nack w b : window_refines ws mp w b -> simulates w b CallNeedsNack.
Proof.
  intros Href. pose proof Href as (w1 & slots & -> & Hr & _ & _ & Hn & Hh).
  destruct (recv_repr_shape _ _ Hr) as (ps & vs & pool & [] & Hl).
  destruct slots as [|o slots]; [cbn in Hl; lia|]. eexists. split; [|exact Href].
  cbn [window_answer buffer_answer potr_internal_window_recv_needs_nack fst].
  rewrite (needs_nack_spec _ _ _ Hr). cbn [mbind option_bind].
  rewrite Hh, Hn, held_head, (proj1 Hr) by done. destruct o as [c|]; cbn [slot_full negb andb].
  - by rewrite decide_False by (by intros [? _]).
  - pose proof (held_gap _ _ _ Hr Hh) as Hgap. destruct (existsb slot_full slots).
    + by rewrite decide_True by (split; [done|by apply Hgap]).
    + rewrite decide_False; [done|]. intros [_ Hne]. by apply Hgap in Hne.
Qed.

Lemma window_simulates w b c : window_refines ws mp w b -> call_ok mp c -> simulates w b c.
Proof.
  destruct c; auto using sim_push, sim_pop, sim_skip, sim_needs_nack, sim_has_packet, sim_reset.
Qed.
End Simulation.

(** ** Whole runs *)

Fixpoint window_answers (w : option potr_internal_window) (cs : list window_call)
    : option (list window_reply * option potr_internal_window) :=
  match cs with
  | [] => Some ([], w)
  | c :: cs =>
      '(r, w') ← window_answer w c;
      '(rs, w'') ← window_answers w' cs; Some (r :: rs, w'')
  end.

Fixpoint buffer_answers (ws : Z) (b : reorder_buffer) (cs : list window_call) : list window_reply :=
  match cs with
  | [] => []
  | c :: cs => let '(r, b') := buffer_answer ws b c in r :: buffer_answers ws b' cs
  end.

Lemma window_answers_refine ws mp cs w b :
  window_refines ws mp w b -> Forall (call_ok mp) cs ->
  exists w', window_answers w cs = Some (buffer_answers ws b cs, w').
Proof.
  revert w b. induction cs as [|c cs IH]; intros w b Hr Hc; [by eexists|].
  apply Forall_cons_1 in Hc as [Hc Hcs]. cbn [window_answers buffer_answers].
  destruct (window_simulates _ _ _ _ _ Hr Hc) as (w1 & -> & Hr1).
  destruct (buffer_answer ws b c) as [r b1]. cbn [fst snd mbind option_bind] in *.
  destruct (IH _ _ Hr1 Hcs) as [w2 ->]. by eexists.
Qed.

(** C19. The receive window refines a reorder buffer: after any initialisation
    (with fresh memory, or in place over a used window), every sequence of
    pushes, pops, skips, gap tests, presence tests and resets through the API
    is answered, without a fault, exactly like a finite map from numbers to
    packets answers it: a push is accepted when its number is one of the next
    [ws], the first packet of a number wins, a pop hands out the next number
    and leaves [packet_out] alone when it has not arrived, a NACK is due for the
    next number exactly when it is missing and something later is held, and
    nothing survives a reset. *)
Theorem recv_window_refines_buffer w0 s ws mp cs :
  0 < ws < 65536 -> 0 <= s < 4294967296 ->
  win_packets w0 = None \/ (exists slots, repr Z.to_nat w0 slots) ->
  Forall (call_ok mp) cs ->
  exists w w', potr_internal_window_init (true, true, true) (Some w0) s ws mp = (POTR_OK, w) /\
    window_answers w cs = Some (buffer_answers ws (ReorderBuffer s ∅) cs, w').
Proof.
  intros Hws Hs Hw0 Hcs. cbn [potr_internal_window_init].
  destruct (window_init (true, true, true) w0 s ws mp) as [rc w] eqn:Hi.
  destruct (window_init_spec _ _ _ _ _ _ _ Hws Hs Hw0 Hi) as [Hok|(_ & [] & _)]; [|done].
  destruct Hok as (-> & Hb & Hsz & Hm & Hr).
  assert (window_refines ws mp (Some w) (ReorderBuffer s ∅)) as Href.
  { exists w, (replicate (Z.to_nat ws) None). split_and!; try done.
    intros s'. cbn [rb_held]. by rewrite held_empty, lookup_empty. }
  destruct (window_answers_refine _ _ cs _ _ Href Hcs) as [w' Hrun]. by exists (Some w), w'.
Qed.

(** A window of two slots around the wrap of the sequence numbers. *)
Definition example_window_calls : list window_call :=
  [CallPush (example_msg 0 [7]); CallNeedsNack; CallPop (example_msg 9 []); CallPush (example_msg 1 [8]);
   CallSkip 4294967295; CallPop (example_msg 9 []); CallHasPacket 0; CallReset 5; CallNeedsNack].

Lemma recv_window_refines_buffer_witness :
  exists w w', potr_internal_window_init (true, true, true) (Some no_window) 4294967295 2 4 = (POTR_OK, w) /\
    window_answers w example_window_calls
    = Some ([Returned POTR_OK; NackFor (Some 4294967295);
             Popped POTR_ERR_EMPTY (content (example_msg 9 [])); Returned POTR_ERR_OUT_OF_WINDOW; Void;
             Popped POTR_OK (content (example_msg 0 [7])); Present false; Void; NackFor None], w').
Proof.
  destruct (recv_window_refines_buffer no_window 4294967295 2 4 example_window_calls)
    as (w & w' & Hi & Ha); [lia|lia|left; reflexivity|repeat constructor; vm_compute; first [done|lia]|].
  exists w, w'. split; [exact Hi|]. rewrite Ha. vm_compute. reflexivity.
Defined.
