(* ===== verification/SendQueue.v ===== *)
(** The send queue: [potr_send_queue.c].  A ring of payload elements over a
    flat pool of payload slots, shared by the callers of [potr_service_send]
    (producers), the send thread (the only consumer) and the callers that wait
    until the queue is drained.  Every operation runs under the queue's mutex;
    an operation that waits on a condition variable is modelled by the passes
    it makes between acquiring the mutex and returning or waiting again. *)

From stdpp Require Import base list numbers option.
From Stdlib Require Import ZArith Lia ZifyBool.
From S2P Require Import Prelude Types.
Local Open Scope Z_scope.
Local Open Scope porter_scope.

(** The payload pointer is an offset into the pool. *)
Record potr_internal_payload_elem := PayloadElem {
  pe_peer_id : Z;
  pe_flags : Z;
  pe_payload_len : Z;
  pe_payload : nat
}.

(** [sq_sync] says that the mutex and the condition variables exist. *)
Record potr_internal_send_queue := SendQueue {
  sq_entries : option (list potr_internal_payload_elem);
  sq_payload_pool : option (list Z);
  sq_depth : nat;
  sq_head : nat;
  sq_tail : nat;
  sq_count : nat;
  sq_inflight : nat;
  sq_sync : bool
}.

Inductive sq_cond := not_empty | not_full | drained.
Inductive sq_notify := Signal (c : sq_cond) | Broadcast (c : sq_cond).

#[export] Instance sq_cond_eq_dec : EqDecision sq_cond.
Proof. solve_decision. Defined.

Definition potr_internal_send_queue_dispose (q : potr_internal_send_queue)
    : potr_internal_send_queue :=
  SendQueue None None (sq_depth q) (sq_head q) (sq_tail q) (sq_count q) (sq_inflight q) false.

(** [alloc] and [sync] say whether the two allocations and the creation of
    the synchronisation objects succeed. *)
Definition potr_internal_send_queue_init (alloc : bool * bool) (sync : bool)
    (depth : nat) (max_payload : Z) : Z * potr_internal_send_queue :=
  match alloc with
  | (true, true) =>
      let q := SendQueue
        (Some (map (fun i => PayloadElem POTR_PEER_NA 0 0 (i * Z.to_nat max_payload)%nat)
                 (seq 0 depth)))
        (Some (replicate (depth * Z.to_nat max_payload) 0)) depth 0 0 0 0 sync in
      if sync then (POTR_OK, q)
      else (POTR_ERR_UNKNOWN, potr_internal_send_queue_dispose q)
  | _ => (POTR_ERR_OUT_OF_MEMORY, SendQueue None None 0 0 0 0 0 false)
  end.

(** The end of an operation's pass: it returns a code and possibly an element,
    or waits on a condition variable. *)
Inductive sq_pass :=
  | Returns (rc : Z) (out : option potr_internal_payload_elem)
  | Waits (c : sq_cond).

Definition sq_result : Type :=
  option (sq_pass * potr_internal_send_queue * list sq_notify).

Definition sq_full (q : potr_internal_send_queue) : bool :=
  (sq_depth q <=? sq_count q + sq_inflight q)%nat.

(** Storing at the tail, common to [push] and [push_wait]: the entry's fields,
    the [memcpy] through its payload pointer, tail, count and the signal. *)
Definition sq_store (q : potr_internal_send_queue) (peer_id flags : Z) (payload : list Z)
    : sq_result :=
  es ← sq_entries q;
  pool ← sq_payload_pool q;
  e ← es !! sq_tail q;
  pool' ← mem_write pool (pe_payload e) payload;
  if (sq_depth q =? 0)%nat then None else
  Some (Returns POTR_OK None,
    SendQueue
      (Some (<[sq_tail q := PayloadElem peer_id flags (Z.of_nat (length payload)) (pe_payload e)]> es))
      (Some pool') (sq_depth q) (sq_head q) ((sq_tail q + 1) mod sq_depth q)
      (sq_count q + 1) (sq_inflight q) (sq_sync q),
    [Signal not_empty]).

(** [payload] holds the [payload_len] bytes at the caller's pointer. *)
Definition potr_internal_send_queue_push (q : potr_internal_send_queue)
    (peer_id flags : Z) (payload : list Z) : sq_result :=
  if sq_full q then Some (Returns POTR_ERR_FULL None, q, [])
  else sq_store q peer_id flags payload.

Definition potr_internal_send_queue_push_wait (running : Z) (q : potr_internal_send_queue)
    (peer_id flags : Z) (payload : list Z) : sq_result :=
  if sq_full q then
    if running =? 0 then Some (Returns POTR_ERR_CANCELED None, q, [])
    else Some (Waits not_full, q, [])
  else sq_store q peer_id flags payload.

(** [*out = entries[head]]. *)
Definition sq_front (q : potr_internal_send_queue) : option potr_internal_payload_elem :=
  es ← sq_entries q; es !! sq_head q.

(** Removing the head entry, common to [pop] and [try_pop]. *)
Definition sq_take (q : potr_internal_send_queue) : sq_result :=
  e ← sq_front q;
  if (sq_depth q =? 0)%nat then None else
  Some (Returns POTR_OK (Some e),
    SendQueue (sq_entries q) (sq_payload_pool q) (sq_depth q)
      ((sq_head q + 1) mod sq_depth q) (sq_tail q) (sq_count q - 1) (sq_inflight q + 1)
      (sq_sync q), []).

Definition potr_internal_send_queue_pop (running : Z) (q : potr_internal_send_queue) : sq_result :=
  if (sq_count q =? 0)%nat then
    if running =? 0 then Some (Returns POTR_ERR_CANCELED None, q, [])
    else Some (Waits not_empty, q, [])
  else sq_take q.

Definition potr_internal_send_queue_peek (q : potr_internal_send_queue) : sq_result :=
  if (sq_count q =? 0)%nat then Some (Returns POTR_ERR_EMPTY None, q, [])
  else e ← sq_front q; Some (Returns POTR_OK (Some e), q, []).

(** [waited] is false in the pass that enters the function and true in the one
    after its single timed wait. *)
Definition potr_internal_send_queue_peek_timed (waited : bool) (q : potr_internal_send_queue)
    : sq_result :=
  if (sq_count q =? 0)%nat && negb waited then Some (Waits not_empty, q, [])
  else if (sq_count q =? 0)%nat then Some (Returns POTR_ERR_TIMEOUT None, q, [])
  else e ← sq_front q; Some (Returns POTR_OK (Some e), q, []).

Definition potr_internal_send_queue_try_pop (q : potr_internal_send_queue) : sq_result :=
  if (sq_count q =? 0)%nat then Some (Returns POTR_ERR_EMPTY None, q, []) else sq_take q.

Definition potr_internal_send_queue_complete (q : potr_internal_send_queue) : sq_result :=
  let inflight := if (0 <? sq_inflight q)%nat then (sq_inflight q - 1)%nat else sq_inflight q in
  Some (Returns POTR_OK None,
    SendQueue (sq_entries q) (sq_payload_pool q) (sq_depth q) (sq_head q) (sq_tail q)
      (sq_count q) inflight (sq_sync q),
    (if (sq_count q =? 0)%nat && (inflight =? 0)%nat then [Broadcast drained] else [])
      ++ [Signal not_full]).

Definition potr_internal_send_queue_wait_drained (q : potr_internal_send_queue) : sq_result :=
  if ((0 <? sq_count q) || (0 <? sq_inflight q))%nat then Some (Waits drained, q, [])
  else Some (Returns POTR_OK None, q, []).

Definition potr_internal_send_queue_shutdown (q : potr_internal_send_queue) : sq_result :=
  Some (Returns POTR_OK None, q, [Broadcast not_empty; Broadcast not_full]).

(** ** The ring behind the queue

    A message as the producer handed it over: destination, flags, bytes. *)

Definition sq_msg : Type := Z * Z * list Z.

(** What a holder of [e] reads through its payload pointer. *)
Definition elem_read (q : potr_internal_send_queue) (e : potr_internal_payload_elem)
    : option sq_msg :=
  pool ← sq_payload_pool q;
  bs ← mem_read pool (pe_payload e) (Z.to_nat (pe_payload_len e));
  Some (pe_peer_id e, pe_flags e, bs).

Definition sq_start (q : potr_internal_send_queue) : nat :=
  (sq_head q + sq_depth q - sq_inflight q) mod sq_depth q.

Definition sq_idx (q : potr_internal_send_queue) (k : nat) : nat :=
  (sq_start q + k) mod sq_depth q.

(** [q] is a well-formed queue of slots of [mp] bytes: the elements [held]
    have been popped and not completed, the messages [queued] are waiting.
    [held] are the values the consumer keeps; their slots still hold [sent]. *)
Record sq_repr (mp : nat) (q : potr_internal_send_queue)
    (held : list potr_internal_payload_elem) (sent queued : list sq_msg) : Prop := {
  sr_entries : exists es, sq_entries q = Some es /\ length es = sq_depth q /\
    (forall i e, es !! i = Some e -> pe_payload e = (i * mp)%nat) /\
    (forall k e, held !! k = Some e -> es !! sq_idx q k = Some e) /\
    (forall k m, (sent ++ queued) !! k = Some m ->
       exists e, es !! sq_idx q k = Some e /\ (Z.to_nat (pe_payload_len e) <= mp)%nat /\
         elem_read q e = Some m);
  sr_pool : exists pool, sq_payload_pool q = Some pool /\ length pool = (sq_depth q * mp)%nat;
  sr_head : (sq_head q < sq_depth q)%nat;
  sr_tail : sq_tail q = ((sq_head q + sq_count q) mod sq_depth q)%nat;
  sr_bound : (sq_count q + sq_inflight q <= sq_depth q)%nat;
  sr_held : length held = sq_inflight q;
  sr_sent : length sent = sq_inflight q;
  sr_queued : length queued = sq_count q
}.

(** The ring position as a case distinction, which [lia] can use. *)
Lemma sq_idx_cases mp q held sent queued k :
  sq_repr mp q held sent queued -> (k < sq_depth q)%nat ->
  sq_idx q k =
    (if sq_head q + k <? sq_inflight q then sq_head q + sq_depth q + k - sq_inflight q
     else if sq_head q + k - sq_inflight q <? sq_depth q then sq_head q + k - sq_inflight q
     else sq_head q + k - sq_inflight q - sq_depth q)%nat.
Proof.
  intros [] Hk. unfold sq_idx, sq_start.
  rewrite (nat_mod_once (sq_head q + _ - _)) by lia. 
  destruct (Nat.ltb_spec (sq_head q + sq_depth q - sq_inflight q) (sq_depth q));
    rewrite nat_mod_once by lia; destruct_ifs; lia.
Qed.

Lemma sq_idx_inj mp q held sent queued k k' :
  sq_repr mp q held sent queued -> (k < sq_depth q)%nat -> (k' < sq_depth q)%nat ->
  sq_idx q k = sq_idx q k' -> k = k'.
Proof.
  intros Hr Hk Hk'. rewrite !(sq_idx_cases mp q held sent queued) by done.
  destruct Hr. destruct_ifs; lia.
Qed.

Lemma sq_idx_tail mp q held sent queued :
  sq_repr mp q held sent queued -> (sq_count q + sq_inflight q < sq_depth q)%nat ->
  sq_tail q = sq_idx q (sq_inflight q + sq_count q).
Proof.
  intros Hr Hlt. rewrite (sq_idx_cases _ _ _ _ _ _ Hr) by lia. destruct Hr.
  rewrite sr_tail0, nat_mod_once by lia. destruct_ifs; lia.
Qed.

Lemma sq_idx_head mp q held sent queued :
  sq_repr mp q held sent queued -> (0 < sq_count q)%nat ->
  sq_head q = sq_idx q (sq_inflight q).
Proof.
  intros Hr Hlt. pose proof Hr as [].
  rewrite (sq_idx_cases _ _ _ _ _ _ Hr) by lia. destruct_ifs; lia.
Qed.

Section QueueOps.
Context (mp : nat).

Lemma sq_init_repr depth max_payload q :
  mp = Z.to_nat max_payload -> (0 < depth)%nat ->
  potr_internal_send_queue_init (true, true) true depth max_payload = (POTR_OK, q) ->
  sq_repr mp q [] [] [] /\ sq_depth q = depth.
Proof.
  intros -> Hd [= <-]. split; [|done]. split; simpl; rewrite ?Nat.Div0.mod_0_l; try done; try lia.
  - eexists. split; [done|]. split; [by rewrite length_map, length_seq|].
    split; [|split; intros ?? ?; done].
    intros i e (x & -> & (-> & _)%lookup_seq)%list_lookup_fmap_Some. done.
  - eexists. split; [done|]. by rewrite length_replicate.
Qed.

(** Bytes outside the written slot are unchanged. *)
Lemma elem_read_other q q' e e' pool pool' off bs :
  sq_payload_pool q = Some pool -> sq_payload_pool q' = Some pool' ->
  mem_write pool off bs = Some pool' ->
  pe_payload e = pe_payload e' -> pe_peer_id e = pe_peer_id e' -> pe_flags e = pe_flags e' ->
  pe_payload_len e = pe_payload_len e' ->
  (pe_payload e + Z.to_nat (pe_payload_len e) <= off \/ off + length bs <= pe_payload e)%nat ->
  elem_read q' e' = elem_read q e.
Proof.
  intros Hp Hp' Hw H1 H2 H3 H4 Hsep. unfold elem_read. rewrite Hp, Hp'. cbn [mbind option_bind].
  rewrite <- H1, <- H2, <- H3, <- H4. unfold mem_read.
  rewrite (mem_write_length _ _ _ _ Hw). destruct (_ <=? _)%nat; [|done].
  cbn [mbind option_bind]. do 2 f_equal. destruct Hsep.
  - by eapply mem_write_read_before.
  - by eapply mem_write_read_after.
Qed.

Lemma sq_store_spec q held sent queued peer flags bs :
  sq_repr mp q held sent queued -> sq_full q = false -> (length bs <= mp)%nat ->
  exists q', sq_store q peer flags bs = Some (Returns POTR_OK None, q', [Signal not_empty]) /\
    sq_depth q' = sq_depth q /\ sq_count q' = (sq_count q + 1)%nat /\
    sq_inflight q' = sq_inflight q /\
    sq_repr mp q' held sent (queued ++ [(peer, flags, bs)]).
Proof.
  intros Hr Hfull Hbs. unfold sq_full in Hfull. apply Nat.leb_gt in Hfull.
  pose proof (sq_idx_tail _ _ _ _ _ Hr Hfull) as Ht.
  pose proof Hr as [(es & Hes & Hlen & Hptr & Hheld & Hmsg) (pool & Hpool & Hplen)].
  set (k := (sq_inflight q + sq_count q)%nat) in *.
  assert (sq_tail q < sq_depth q)%nat as Htl
    by (rewrite Ht; apply Nat.mod_upper_bound; lia).
  destruct (lookup_lt_is_Some_2 es (sq_tail q)) as [e He]; [lia|].
  pose proof (Hptr _ _ He) as Hep.
  unfold sq_store. rewrite Hes, Hpool. cbn [mbind option_bind]. rewrite He. cbn [mbind option_bind].
  destruct (mem_write pool (pe_payload e) bs) as [pool'|] eqn:Hw.
  2: { rewrite mem_write_Some in Hw; [done|]. rewrite Hep. nia. }
  cbn [mbind option_bind]. rewrite (proj2 (Nat.eqb_neq _ _)) by lia.
  eexists. split; [done|]. split_and!; [done..|].
  split; cbn [sq_entries sq_payload_pool sq_depth sq_head sq_tail sq_count sq_inflight];
    try done; try lia.
  - eexists. split; [done|]. split; [by rewrite length_insert|]. split; [|split].
    + intros i x [(<- & ->)|(_ & Hx)]%list_lookup_insert_cases; [done|by apply Hptr].
    + intros j x Hx. pose proof (lookup_lt_Some _ _ _ Hx) as Hlt.
      change (sq_idx _ j) with (sq_idx q j).
      rewrite list_lookup_insert_ne; [by apply Hheld|].
      rewrite Ht. intros Heq. apply (sq_idx_inj _ _ _ _ _ _ _ Hr) in Heq; lia.
    + intros j m Hm. change (sq_idx _ j) with (sq_idx q j).
      rewrite app_assoc in Hm. apply lookup_app_Some in Hm as [Hm|[Hj Hm]].
      * destruct (Hmsg j m Hm) as (x & Hx & Hxl & Hrd). exists x.
        pose proof (lookup_lt_Some _ _ _ Hm) as Hlt. rewrite length_app in Hlt.
        assert (sq_tail q <> sq_idx q j) as Hne.
        { rewrite Ht. intros Heq. apply (sq_idx_inj _ _ _ _ _ _ _ Hr) in Heq; lia. }
        rewrite list_lookup_insert_ne by done. split; [done|]. split; [done|].
        rewrite <- Hrd. eapply elem_read_other; try done.
        rewrite Hep, (Hptr _ _ Hx). nia.
      * apply list_lookup_singleton_Some in Hm as [Hj0 <-].
        rewrite length_app in Hj, Hj0. assert (j = k) as -> by lia. rewrite <- Ht.
        eexists. split; [apply list_lookup_insert_eq; lia|]. cbn [pe_payload_len].
        split; [lia|]. unfold elem_read. cbn [sq_payload_pool pe_payload pe_payload_len mbind option_bind].
        rewrite Nat2Z.id, mem_read_Some by (rewrite (mem_write_length _ _ _ _ Hw), Hep; nia).
        rewrite (mem_write_read_same _ _ _ _ _ Hw), firstn_all by lia. done.
  - eexists. split; [done|]. by rewrite (mem_write_length _ _ _ _ Hw).
  - rewrite sr_tail0, Nat.Div0.add_mod_idemp_l. f_equal. lia.
  - rewrite length_app. simpl. lia.
Qed.

Lemma sq_front_spec q held sent m queued :
  sq_repr mp q held sent (m :: queued) ->
  exists e, sq_front q = Some e /\ elem_read q e = Some m.
Proof.
  intros Hr. pose proof Hr as [(es & Hes & Hlen & Hptr & Hheld & Hmsg) _]. simpl in *.
  pose proof (sq_idx_head _ _ _ _ _ Hr ltac:(lia)) as Hh.
  unfold sq_front. rewrite Hes, Hh. cbn [mbind option_bind].
  destruct (Hmsg (sq_inflight q) m) as (e & He & _ & Hrd);
    [rewrite lookup_app_r, sr_sent0, Nat.sub_diag by lia; done|].
  eauto.
Qed.

Lemma sq_take_spec q held sent m queued :
  sq_repr mp q held sent (m :: queued) ->
  exists q' e, sq_take q = Some (Returns POTR_OK (Some e), q', []) /\
    elem_read q e = Some m /\ sq_front q = Some e /\
    sq_depth q' = sq_depth q /\ sq_count q = S (sq_count q') /\
    sq_inflight q' = S (sq_inflight q) /\
    sq_repr mp q' (held ++ [e]) (sent ++ [m]) queued.
Proof.
  intros Hr. destruct (sq_front_spec _ _ _ _ _ Hr) as (e & Hf & Hrd).
  pose proof Hr as [(es & Hes & Hlen & Hptr & Hheld & Hmsg) Hpool]. simpl in sr_queued0.
  pose proof (sq_idx_head _ _ _ _ _ Hr ltac:(lia)) as Hh.
  unfold sq_take. rewrite Hf. cbn [mbind option_bind].
  rewrite (proj2 (Nat.eqb_neq _ _)) by lia. eexists _, e. split; [done|].
  split; [done|]. split; [done|]. split; [done|].
  split; [simpl; lia|]. split; [simpl; lia|].
  assert (forall q' k, sq_depth q' = sq_depth q -> sq_head q' = ((sq_head q + 1) mod sq_depth q)%nat ->
    sq_inflight q' = (sq_inflight q + 1)%nat -> sq_idx q' k = sq_idx q k) as Hidx.
  { intros q' k H1 H2 H3. unfold sq_idx, sq_start. rewrite H1, H2, H3.
    do 2 f_equal. rewrite (nat_mod_once (sq_head q + 1)) by lia.
    destruct (Nat.ltb_spec (sq_head q + 1) (sq_depth q)); [f_equal; lia|].
    rewrite !nat_mod_once by lia. destruct_ifs; lia. }
  split; cbn [sq_entries sq_payload_pool sq_depth sq_head sq_tail sq_count sq_inflight];
    try done; try (apply Nat.mod_upper_bound; lia).
  - exists es. split; [done|]. split; [done|]. split; [done|]. split.
    + intros k x Hx. rewrite Hidx by done.
      apply lookup_app_Some in Hx as [Hx|[Hk Hx]]; [by apply Hheld|].
      apply list_lookup_singleton_Some in Hx as [Hk0 <-].
      assert (k = sq_inflight q) as -> by lia. rewrite <- Hh.
      unfold sq_front in Hf. rewrite Hes in Hf. done.
    + intros k x Hx. rewrite Hidx by done. rewrite <- app_assoc in Hx. by apply Hmsg.
  - rewrite sr_tail0. destruct (sq_count q); [lia|].
    rewrite Nat.Div0.add_mod_idemp_l. f_equal. lia.
  - lia.
  - rewrite length_app. simpl. lia.
  - rewrite length_app. simpl. lia.
  - lia.
Qed.

Lemma sq_complete_spec q held sent queued :
  sq_repr mp q held sent queued ->
  exists q' ns, potr_internal_send_queue_complete q = Some (Returns POTR_OK None, q', ns) /\
    sq_depth q' = sq_depth q /\ sq_count q' = sq_count q /\
    sq_inflight q' = (sq_inflight q - 1)%nat /\
    ns = (if (sq_count q' + sq_inflight q' =? 0)%nat then [Broadcast drained] else [])
           ++ [Signal not_full] /\
    sq_repr mp q' (tail held) (tail sent) queued.
Proof.
  intros Hr. pose proof Hr as [(es & Hes & Hlen & Hptr & Hheld & Hmsg) Hpool].
  unfold potr_internal_send_queue_complete.
  assert ((if (0 <? sq_inflight q)%nat then (sq_inflight q - 1)%nat else sq_inflight q)
          = (sq_inflight q - 1)%nat) as -> by (destruct_ifs; lia).
  eexists _, _. split; [done|]. cbn [sq_depth sq_count sq_inflight].
  split_and!; [done..| |].
  { do 2 f_equal. destruct_ifs; try done; lia. }
  destruct (sq_inflight q) as [|n] eqn:Hn.
  - destruct held; [|done]. destruct sent; [|done]. destruct q. simpl in *. subst. done.
  - assert (forall q' k, sq_depth q' = sq_depth q -> sq_head q' = sq_head q ->
      sq_inflight q' = n -> (S k < sq_depth q)%nat -> sq_idx q' k = sq_idx q (S k)) as Hidx.
    { intros q' k H1 H2 H3 Hk. unfold sq_idx, sq_start. rewrite H1, H2, H3, Hn.
      rewrite (nat_mod_once (sq_head q + sq_depth q - n)),
        (nat_mod_once (sq_head q + sq_depth q - S n)) by lia.
      destruct_ifs; rewrite !nat_mod_once by lia; destruct_ifs; lia. }
    destruct held as [|e held]; [done|]. destruct sent as [|m sent]; [done|].
    simpl in sr_held0, sr_sent0. simpl tail.
    replace (S n - 1)%nat with n by lia.
    split; cbn [sq_entries sq_payload_pool sq_depth sq_head sq_tail sq_count sq_inflight];
      try done; try lia.
    exists es. split; [done|]. split; [done|]. split; [done|]. split.
    + intros k x Hx. pose proof (lookup_lt_Some _ _ _ Hx).
      rewrite Hidx by (done || lia). by apply (Hheld (S k)).
    + intros k x Hx. pose proof (lookup_lt_Some _ _ _ Hx) as Hl. rewrite length_app in Hl.
      rewrite Hidx by (done || lia). by apply (Hmsg (S k)).
Qed.

(** Every element the consumer holds still reads the message it was popped with. *)
Lemma sq_held_reads q held sent queued :
  sq_repr mp q held sent queued -> mapM (elem_read q) held = Some sent.
Proof.
  intros [(es & Hes & Hlen & Hptr & Hheld & Hmsg)]. apply mapM_Some.
  apply Forall2_same_length_lookup_2; [congruence|].
  intros k e m He Hm. destruct (Hmsg k m) as (e' & He' & _ & Hrd);
    [by apply lookup_app_l_Some|].
  pose proof (Hheld k e He) as H'. rewrite H' in He'. by injection He' as <-.
Qed.
End QueueOps.

(** ** Threads sharing the queue

    A configuration holds the queue, the [running] flag, one state per thread
    (thread 0 is the send thread) and the history of the queue: the messages
    accepted by [push] and [push_wait], the messages the send thread has
    popped, and the elements it holds (popped, not yet completed).
    [sc_stopped] records a [shutdown] executed after [running] was cleared. *)

Inductive sq_call :=
  | CallPush (peer flags : Z) (bs : list Z)
  | CallPushWait (peer flags : Z) (bs : list Z)
  | CallPop | CallPeek | CallPeekTimed (waited : bool) | CallTryPop | CallComplete
  | CallWaitDrained | CallShutdown.

Inductive sq_thread :=
  | Idle
  | Active (call : sq_call)
  | Blocked (c : sq_cond) (call : sq_call).

Record sq_config := Config {
  sc_queue : potr_internal_send_queue;
  sc_running : Z;
  sc_threads : list sq_thread;
  sc_held : list potr_internal_payload_elem;
  sc_accepted : list sq_msg;
  sc_popped : list sq_msg;
  sc_stopped : bool
}.

Definition sq_exec (running : Z) (q : potr_internal_send_queue) (call : sq_call) : sq_result :=
  match call with
  | CallPush p f bs => potr_internal_send_queue_push q p f bs
  | CallPushWait p f bs => potr_internal_send_queue_push_wait running q p f bs
  | CallPop => potr_internal_send_queue_pop running q
  | CallPeek => potr_internal_send_queue_peek q
  | CallPeekTimed waited => potr_internal_send_queue_peek_timed waited q
  | CallTryPop => potr_internal_send_queue_try_pop q
  | CallComplete => potr_internal_send_queue_complete q
  | CallWaitDrained => potr_internal_send_queue_wait_drained q
  | CallShutdown => potr_internal_send_queue_shutdown q
  end.

Definition is_consumer_call (call : sq_call) : bool :=
  match call with
  | CallPop | CallPeek | CallPeekTimed _ | CallTryPop | CallComplete => true
  | _ => false
  end.

Definition call_payload (call : sq_call) : list Z :=
  match call with CallPush _ _ bs | CallPushWait _ _ bs => bs | _ => [] end.

Definition resume (call : sq_call) : sq_call :=
  match call with CallPeekTimed _ => CallPeekTimed true | _ => call end.

Definition after_pass (call : sq_call) (p : sq_pass) : sq_thread :=
  match p with Returns _ _ => Idle | Waits c => Blocked c call end.

Definition wake (c : sq_cond) (t : sq_thread) : sq_thread :=
  match t with
  | Blocked c' call => if bool_decide (c = c') then Active (resume call) else t
  | _ => t
  end.

(** A signal wakes one waiting thread, if there is any. *)
Inductive notified : sq_notify -> list sq_thread -> list sq_thread -> Prop :=
  | notified_signal c ts i call :
      ts !! i = Some (Blocked c call) ->
      notified (Signal c) ts (<[i:=Active (resume call)]> ts)
  | notified_signal_none c ts :
      (forall i call, ts !! i <> Some (Blocked c call)) -> notified (Signal c) ts ts
  | notified_broadcast c ts : notified (Broadcast c) ts (map (wake c) ts).

Inductive notified_all : list sq_notify -> list sq_thread -> list sq_thread -> Prop :=
  | notified_nil ts : notified_all [] ts ts
  | notified_cons n ns ts ts' ts'' :
      notified n ts ts' -> notified_all ns ts' ts'' -> notified_all (n :: ns) ts ts''.

(** The history after a pass. *)
Definition accepted_by (call : sq_call) (p : sq_pass) : list sq_msg :=
  match call, p with
  | CallPush peer f bs, Returns 0 _ | CallPushWait peer f bs, Returns 0 _ => [(peer, f, bs)]
  | _, _ => []
  end.

Definition popped_by (call : sq_call) (p : sq_pass) : list potr_internal_payload_elem :=
  match call, p with
  | CallPop, Returns _ (Some e) | CallTryPop, Returns _ (Some e) => [e]
  | _, _ => []
  end.

Definition record_pass (c : sq_config) (call : sq_call) (p : sq_pass)
    (q' : potr_internal_send_queue) (ts' : list sq_thread) : sq_config :=
  Config q' (sc_running c) ts'
    (match call with CallComplete => tail (sc_held c) | _ => sc_held c ++ popped_by call p end)
    (sc_accepted c ++ accepted_by call p)
    (sc_popped c ++ omap (elem_read q') (popped_by call p))
    (match call with CallShutdown => (sc_running c =? 0) || sc_stopped c | _ => sc_stopped c end).

Inductive sq_step (mp : nat) : sq_config -> sq_config -> Prop :=
  | step_call c i call :
      sc_threads c !! i = Some Idle ->
      (is_consumer_call call = true -> i = O) -> (length (call_payload call) <= mp)%nat ->
      sq_step mp c (Config (sc_queue c) (sc_running c) (<[i:=Active call]> (sc_threads c))
        (sc_held c) (sc_accepted c) (sc_popped c) (sc_stopped c))
  | step_pass c i call p q' ns ts' :
      sc_threads c !! i = Some (Active call) ->
      sq_exec (sc_running c) (sc_queue c) call = Some (p, q', ns) ->
      notified_all ns (<[i:=after_pass call p]> (sc_threads c)) ts' ->
      sq_step mp c (record_pass c call p q' ts')
  | step_wake c i cond call :
      (* time-out or spurious wake-up *)
      sc_threads c !! i = Some (Blocked cond call) ->
      sq_step mp c (Config (sc_queue c) (sc_running c)
        (<[i:=Active (resume call)]> (sc_threads c))
        (sc_held c) (sc_accepted c) (sc_popped c) (sc_stopped c))
  | step_stop c :
      sq_step mp c (Config (sc_queue c) 0 (sc_threads c)
        (sc_held c) (sc_accepted c) (sc_popped c) (sc_stopped c)).

Inductive sq_reachable (mp : nat) (c0 : sq_config) : sq_config -> Prop :=
  | reach_start : sq_reachable mp c0 c0
  | reach_step c c' : sq_reachable mp c0 c -> sq_step mp c c' -> sq_reachable mp c0 c'.

(** [n] threads beside the send thread, on a queue just initialised. *)
Definition sq_initial (depth : nat) (max_payload : Z) (n : nat) : sq_config :=
  Config (snd (potr_internal_send_queue_init (true, true) true depth max_payload)) 1
    (replicate (S n) Idle) [] [] [] false.

(** *** Data invariant: the queue is a FIFO *)

Definition fifo_inv (mp : nat) (c : sq_config) : Prop :=
  exists sent queued done_,
    sq_repr mp (sc_queue c) (sc_held c) sent queued /\
    sc_popped c = done_ ++ sent /\ sc_accepted c = sc_popped c ++ queued.

(** What a pass of [call] with result [r] does to the data of a well-formed
    queue. *)
Definition pass_ok (mp : nat) (q : potr_internal_send_queue) held (sent queued : list sq_msg)
    (call : sq_call) (r : sq_result) : Prop :=
  exists p q' ns sent' queued',
    r = Some (p, q', ns) /\
    sq_repr mp q' (match call with CallComplete => tail held | _ => held ++ popped_by call p end)
      sent' queued' /\ sq_depth q' = sq_depth q /\
    queued ++ accepted_by call p = omap (elem_read q') (popped_by call p) ++ queued' /\
    sent' = match call with
            | CallComplete => tail sent | _ => sent ++ omap (elem_read q') (popped_by call p) end.

Section PassOk.
Context (mp : nat) (q : potr_internal_send_queue) (held : list potr_internal_payload_elem)
  (sent queued : list sq_msg) (Hr : sq_repr mp q held sent queued).

Lemma pass_ok_same call p ns :
  call <> CallComplete -> popped_by call p = [] -> accepted_by call p = [] ->
  pass_ok mp q held sent queued call (Some (p, q, ns)).
Proof.
  intros Hc Hp Ha. exists p, q, ns, sent, queued. rewrite Hp, Ha. simpl. rewrite !app_nil_r.
  destruct call; done.
Qed.

Lemma pass_ok_store call peer flags bs :
  (length bs <= mp)%nat -> sq_full q = false ->
  call = CallPush peer flags bs \/ call = CallPushWait peer flags bs ->
  pass_ok mp q held sent queued call (sq_store q peer flags bs).
Proof.
  intros Hl Hf Hcall.
  destruct (sq_store_spec mp q held sent queued peer flags bs Hr Hf Hl)
    as (q' & -> & Hd & _ & _ & Hr').
  exists (Returns POTR_OK None), q', [Signal not_empty], sent, (queued ++ [(peer, flags, bs)]).
  destruct Hcall as [-> | ->]; cbn; rewrite !app_nil_r; done.
Qed.

Lemma pass_ok_take call :
  (sq_count q =? 0)%nat = false -> call = CallPop \/ call = CallTryPop ->
  pass_ok mp q held sent queued call (sq_take q).
Proof.
  intros Hc Hcall.
  destruct queued as [|m queued0]; [destruct Hr; simpl in *; lia|].
  destruct (sq_take_spec mp q held sent m queued0 Hr)
    as (q' & e & Ht & Hrd & Hf & Hd & _ & _ & Hr').
  assert (elem_read q' e = Some m) as Hrd'.
  { rewrite <- Hrd. unfold elem_read.
    assert (sq_payload_pool q' = sq_payload_pool q) as ->; [|done].
    unfold sq_take in Ht. rewrite Hf in Ht. cbn [mbind option_bind] in Ht.
    destruct (_ =? _)%nat in Ht; [done|]. by injection Ht as <-. }
  exists (Returns POTR_OK (Some e)), q', [], (sent ++ [m]), queued0. split; [done|].
  destruct Hcall as [-> | ->]; cbn; rewrite Hrd', app_nil_r; done.
Qed.

Lemma pass_ok_peek call :
  call = CallPeek \/ (exists w, call = CallPeekTimed w) -> (sq_count q =? 0)%nat = false ->
  pass_ok mp q held sent queued call (e ← sq_front q; Some (Returns POTR_OK (Some e), q, [])).
Proof.
  intros Hcall Hc.
  assert (exists m queued0, queued = m :: queued0) as (m & queued0 & Hq)
    by (destruct Hr; destruct queued; [simpl in *; lia|eauto]).
  destruct (sq_front_spec mp q held sent m queued0) as (e & -> & _); [by rewrite <- Hq|].
  cbn [mbind option_bind]. apply pass_ok_same; by destruct Hcall as [-> | [w ->]].
Qed.
End PassOk.

Lemma sq_exec_spec mp running q held sent queued call :
  sq_repr mp q held sent queued -> (length (call_payload call) <= mp)%nat ->
  pass_ok mp q held sent queued call (sq_exec running q call).
Proof.
  intros Hr Hbs. destruct call as [pe f bs|pe f bs| | |w| | | |]; cbn [sq_exec]; simpl in Hbs.
  - unfold potr_internal_send_queue_push. destruct (sq_full q) eqn:Hf.
    + by apply pass_ok_same.
    + apply pass_ok_store; auto.
  - unfold potr_internal_send_queue_push_wait. destruct (sq_full q) eqn:Hf.
    + destruct (running =? 0); by apply pass_ok_same.
    + apply pass_ok_store; auto.
  - unfold potr_internal_send_queue_pop. destruct (sq_count q =? 0)%nat eqn:Hc.
    + destruct (running =? 0); by apply pass_ok_same.
    + apply pass_ok_take; auto.
  - unfold potr_internal_send_queue_peek. destruct (sq_count q =? 0)%nat eqn:Hc.
    + by apply pass_ok_same.
    + apply pass_ok_peek; auto.
  - unfold potr_internal_send_queue_peek_timed. destruct (sq_count q =? 0)%nat eqn:Hc.
    + destruct w; by apply pass_ok_same.
    + apply pass_ok_peek; eauto.
  - unfold potr_internal_send_queue_try_pop. destruct (sq_count q =? 0)%nat eqn:Hc.
    + by apply pass_ok_same.
    + apply pass_ok_take; auto.
  - destruct (sq_complete_spec mp q held sent queued Hr) as (q' & ns & -> & Hd & _ & _ & _ & Hr').
    exists (Returns POTR_OK None), q', ns, (tail sent), queued. cbn. rewrite app_nil_r. done.
  - unfold potr_internal_send_queue_wait_drained. destruct (_ || _); by apply pass_ok_same.
  - by apply pass_ok_same.
Qed.

(** Calls in progress respect the single consumer and the payload bound. *)
Definition calls_ok (mp : nat) (ts : list sq_thread) : Prop :=
  forall i call, (ts !! i = Some (Active call) \/ exists c, ts !! i = Some (Blocked c call)) ->
    (is_consumer_call call = true -> i = O) /\ (length (call_payload call) <= mp)%nat.

(** The condition variable a call waits on. *)
Definition waits_for (call : sq_call) (c : sq_cond) : Prop :=
  match c with
  | not_full => exists p f bs, call = CallPushWait p f bs
  | not_empty => is_consumer_call call = true
  | drained => call = CallWaitDrained
  end.

(** Why a pass waits. *)
Definition wait_reason (running : Z) (q : potr_internal_send_queue) (call : sq_call) (c : sq_cond)
    : Prop :=
  match c with
  | not_full => sq_full q = true /\ running <> 0
  | not_empty => sq_count q = O /\ (call = CallPop -> running <> 0)
  | drained => (0 < sq_count q + sq_inflight q)%nat
  end.

(** Every waiting thread waits where its call does. *)
Definition waits_ok (ts : list sq_thread) : Prop :=
  forall i c call, ts !! i = Some (Blocked c call) ->
    waits_for call c.

Definition ts_ok (mp : nat) (ts : list sq_thread) : Prop := calls_ok mp ts /\ waits_ok ts.

Lemma ts_ok_insert mp ts i t :
  ts_ok mp ts ->
  (forall call, (t = Active call \/ exists c, t = Blocked c call) ->
     (is_consumer_call call = true -> i = O) /\ (length (call_payload call) <= mp)%nat) ->
  (forall c call, t = Blocked c call -> waits_for call c) ->
  ts_ok mp (<[i:=t]> ts).
Proof.
  intros [Hc Hw] Ht1 Ht2. split.
  - intros j call [Hj|[c Hj]]; apply list_lookup_insert_cases in Hj as [(<- & <-)|(_ & Hj)]; eauto.
  - intros j c call [(<- & <-)|(_ & Hj)]%list_lookup_insert_cases; [by apply Ht2|by eapply Hw].
Qed.

Lemma resume_consumer call : is_consumer_call (resume call) = is_consumer_call call.
Proof. by destruct call. Qed.
Lemma resume_payload call : call_payload (resume call) = call_payload call.
Proof. by destruct call. Qed.

Lemma ts_ok_wake mp ts i c call :
  ts_ok mp ts -> ts !! i = Some (Blocked c call) -> ts_ok mp (<[i:=Active (resume call)]> ts).
Proof.
  intros Hts Hi. pose proof Hts as [Hc _]. apply ts_ok_insert; [done| |done].
  intros call' [[= <-]|[? ?]]; [|done]. rewrite resume_consumer, resume_payload. eauto.
Qed.

Lemma ts_ok_broadcast mp ts c : ts_ok mp ts -> ts_ok mp (map (wake c) ts).
Proof.
  intros [Hc Hw].
  assert (forall i t, map (wake c) ts !! i = Some t -> exists t0, ts !! i = Some t0 /\ t = wake c t0)
    as Hlk by (intros i t (t0 & -> & H0)%list_lookup_fmap_Some; eauto).
  split.
  - intros i call [Hi|[c' Hi]]; apply Hlk in Hi as (t0 & Hi & Ht); destruct t0 as [|a|d a];
      simpl in Ht; try case_bool_decide; simplify_eq; rewrite ?resume_consumer, ?resume_payload;
      apply Hc; eauto.
  - intros i c' call Hi. apply Hlk in Hi as (t0 & Hi & Ht). destruct t0 as [|a|d a]; simpl in Ht;
      try case_bool_decide; simplify_eq. by eapply Hw.
Qed.

Lemma notified_ts_ok mp n ts ts' : notified n ts ts' -> ts_ok mp ts -> ts_ok mp ts'.
Proof. destruct 1; eauto using ts_ok_wake, ts_ok_broadcast. Qed.

Lemma notified_all_ts_ok mp ns ts ts' : notified_all ns ts ts' -> ts_ok mp ts -> ts_ok mp ts'.
Proof. induction 1; eauto using notified_ts_ok. Qed.

(** A pass waits only on the variable of its call. *)
Lemma sq_exec_waits running q call c q' ns :
  sq_exec running q call = Some (Waits c, q', ns) ->
  q' = q /\ ns = [] /\ waits_for call c /\ wait_reason running q call c.
Proof.
  destruct call as [pe f bs|pe f bs| | |w| | | |]; cbn [sq_exec];
    unfold potr_internal_send_queue_push, potr_internal_send_queue_push_wait,
      potr_internal_send_queue_pop, potr_internal_send_queue_peek,
      potr_internal_send_queue_peek_timed, potr_internal_send_queue_try_pop,
      potr_internal_send_queue_complete, potr_internal_send_queue_wait_drained,
      potr_internal_send_queue_shutdown, sq_store, sq_take, mbind, option_bind;
    repeat (case_match; try done); intros [= <- <- <-]; bool_hyps;
    rewrite ?orb_true_iff, ?andb_true_iff in *; split_and!; cbn; naive_solver lia.
Qed.

(** The kinds of passes, by their effect on the counters. *)
Inductive pass_kind (running : Z) (q : potr_internal_send_queue) :
    sq_call -> sq_pass -> potr_internal_send_queue -> list sq_notify -> Prop :=
  | kind_wait call c : waits_for call c -> wait_reason running q call c ->
      pass_kind running q call (Waits c) q []
  | kind_return call rc out : call <> CallShutdown ->
      (forall p f bs, call = CallPushWait p f bs -> sq_full q = true) ->
      pass_kind running q call (Returns rc out) q []
  | kind_shutdown : pass_kind running q CallShutdown (Returns POTR_OK None) q
      [Broadcast not_empty; Broadcast not_full]
  | kind_store call q' :
      sq_full q = false -> sq_depth q' = sq_depth q -> sq_count q' = (sq_count q + 1)%nat ->
      sq_inflight q' = sq_inflight q -> call <> CallShutdown ->
      pass_kind running q call (Returns POTR_OK None) q' [Signal not_empty]
  | kind_take call e q' :
      sq_depth q' = sq_depth q -> sq_count q = S (sq_count q') ->
      sq_inflight q' = S (sq_inflight q) -> is_consumer_call call = true ->
      pass_kind running q call (Returns POTR_OK (Some e)) q' []
  | kind_complete q' :
      sq_depth q' = sq_depth q -> sq_count q' = sq_count q ->
      sq_inflight q' = (sq_inflight q - 1)%nat ->
      pass_kind running q CallComplete (Returns POTR_OK None) q'
        ((if (sq_count q' + sq_inflight q' =? 0)%nat then [Broadcast drained] else [])
           ++ [Signal not_full]).

Lemma sq_exec_kind mp running q held sent queued call p q' ns :
  sq_repr mp q held sent queued -> (length (call_payload call) <= mp)%nat ->
  sq_exec running q call = Some (p, q', ns) -> pass_kind running q call p q' ns.
Proof.
  intros Hr Hbs Hex. destruct p as [rc out|c].
  2: { apply sq_exec_waits in Hex as (-> & -> & ? & ?). by constructor. }
  assert (sq_full q = false -> forall pe f bs r, (length bs <= mp)%nat -> call <> CallShutdown ->
    sq_store q pe f bs = Some r -> r = (Returns rc out, q', ns) ->
    pass_kind running q call (Returns rc out) q' ns) as Hstore.
  { intros Hf pe f bs r Hl Hs Hst ->.
    destruct (sq_store_spec mp q held sent queued pe f bs Hr Hf Hl) as (q1 & Hq1 & ? & ? & ? & _).
    rewrite Hq1 in Hst. injection Hst as <- <- <- <-. by constructor. }
  assert ((sq_count q =? 0)%nat = false -> is_consumer_call call = true ->
    sq_take q = Some (Returns rc out, q', ns) ->
    pass_kind running q call (Returns rc out) q' ns) as Htake.
  { intros Hc Hcall Ht. destruct queued as [|m queued0]; [destruct Hr; simpl in *; lia|].
    destruct (sq_take_spec mp q held sent m queued0 Hr) as (q1 & e & Hq1 & _ & _ & ? & ? & ? & _).
    rewrite Hq1 in Ht. injection Ht as <- <- <- <-. by constructor. }
  destruct call as [pe f bs|pe f bs| | |w| | | |]; cbn [sq_exec] in Hex; simpl in Hbs.
  7: { destruct (sq_complete_spec mp q held sent queued Hr) as (q1 & ns1 & Hq1 & ? & ? & ? & -> & _).
       rewrite Hq1 in Hex. injection Hex as <- <- <- <-. by constructor. }
  all: unfold potr_internal_send_queue_push, potr_internal_send_queue_push_wait,
      potr_internal_send_queue_pop, potr_internal_send_queue_peek,
      potr_internal_send_queue_peek_timed, potr_internal_send_queue_try_pop,
      potr_internal_send_queue_wait_drained, potr_internal_send_queue_shutdown in Hex;
    repeat case_match; eauto; unfold mbind, option_bind in Hex; repeat case_match; try done;
    injection Hex as <- <- <- <-; constructor; try done; intros; simplify_eq; done.
Qed.

(** *** No wake-up is lost *)

Definition blocked_on (c : sq_cond) (ts : list sq_thread) : Prop :=
  exists i call, ts !! i = Some (Blocked c call).

(** Threads about to run a pass of [push_wait]. *)
Definition is_pusher (t : sq_thread) : bool :=
  match t with Active (CallPushWait _ _ _) => true | _ => false end.
Definition pushers : list sq_thread -> nat := count_if is_pusher.

Record wake_inv (ts : list sq_thread) (q : potr_internal_send_queue) : Prop := {
  wi_drained : blocked_on drained ts -> (0 < sq_count q + sq_inflight q)%nat;
  wi_full : blocked_on not_full ts -> (sq_depth q <= sq_count q + sq_inflight q + pushers ts)%nat;
  wi_empty : blocked_on not_empty ts -> sq_count q = O
}.

(** Notifications only wake threads. *)
Lemma notified_mono n ts ts' c :
  notified n ts ts' ->
  (blocked_on c ts' -> blocked_on c ts) /\ (pushers ts <= pushers ts')%nat.
Proof.
  destruct 1 as [c' ts i call Hi|c' ts Hn|c' ts].
  - split.
    + intros (j & call' & [(_ & ?)|(_ & ?)]%list_lookup_insert_cases); [done|by eexists _, _].
    + pose proof (count_if_insert is_pusher ts i _ (Active (resume call)) Hi). unfold pushers.
      simpl in *. lia.
  - done.
  - split.
    + intros (j & call' & (t & Ht & Hj)%list_lookup_fmap_Some). destruct t; simpl in Ht;
        try case_bool_decide; simplify_eq. by eexists _, _.
    + apply count_if_mono. by intros [].
Qed.

Lemma notified_all_mono ns ts ts' c :
  notified_all ns ts ts' ->
  (blocked_on c ts' -> blocked_on c ts) /\ (pushers ts <= pushers ts')%nat.
Proof.
  induction 1 as [|n ns ts ts1 ts' Hn _ IH]; [done|].
  destruct (notified_mono _ _ _ c Hn), IH. split; [tauto|lia].
Qed.

Lemma notified_all_app ns1 ns2 ts ts' :
  notified_all (ns1 ++ ns2) ts ts' ->
  exists ts1, notified_all ns1 ts ts1 /\ notified_all ns2 ts1 ts'.
Proof.
  revert ts. induction ns1 as [|n ns1 IH]; simpl; intros ts H.
  - exists ts. split; [constructor|done].
  - inversion H as [|n' ns' t1 t2 t3 Hn Hr]; subst. destruct (IH _ Hr) as (ts1 & ? & ?).
    exists ts1. split; [by econstructor|done].
Qed.

Lemma broadcast_none c ts : ~ blocked_on c (map (wake c) ts).
Proof.
  intros (j & call & (t & Ht & _)%list_lookup_fmap_Some).
  destruct t; simpl in Ht; try case_bool_decide; simplify_eq.
Qed.

(** The only waiting consumer is woken by a signal. *)
Lemma signal_empty_none mp ts ts' :
  ts_ok mp ts -> notified (Signal not_empty) ts ts' -> ~ blocked_on not_empty ts'.
Proof.
  intros [Hc Hw] Hn. inversion Hn as [c ts0 i call Hi|c ts0 Hnone|]; subst.
  - intros (j & call' & [(_ & ?)|(Hne & Hj)]%list_lookup_insert_cases); [done|]. apply Hne.
    rewrite (proj1 (Hc i call (or_intror (ex_intro _ _ Hi))) (Hw _ _ _ Hi)).
    by rewrite (proj1 (Hc j call' (or_intror (ex_intro _ _ Hj))) (Hw _ _ _ Hj)).
  - intros (j & call' & Hj). by eapply Hnone.
Qed.

(** A signal on [not_full] makes one more pusher runnable. *)
Lemma signal_full_pushers mp ts ts' :
  ts_ok mp ts -> notified (Signal not_full) ts ts' ->
  blocked_on not_full ts' -> pushers ts' = S (pushers ts).
Proof.
  intros [Hc Hw] Hn Hb. inversion Hn as [c ts0 i call Hi|c ts0 Hnone|]; subst.
  - pose proof (count_if_insert is_pusher ts i _ (Active (resume call)) Hi) as Hcnt.
    destruct (Hw _ _ _ Hi) as (p & f & bs & ->). simpl in Hcnt. unfold pushers. simpl. lia.
  - destruct Hb as (j & call' & Hj). by apply Hnone in Hj.
Qed.

Lemma not_pusher call :
  (forall a f bs, call <> CallPushWait a f bs) -> is_pusher (Active call) = false.
Proof. intros Hn. destruct call; simpl; try done. by edestruct Hn. Qed.

Section PassInv.
Context (mp : nat) (running : Z) (ts : list sq_thread) (q q' : potr_internal_send_queue)
  (i : nat) (call : sq_call) (p : sq_pass) (ns : list sq_notify) (ts' : list sq_thread).
Hypothesis Hok : ts_ok mp ts.
Hypothesis Hi : ts !! i = Some (Active call).
Hypothesis Hkind : pass_kind running q call p q' ns.
Hypothesis Hnote : notified_all ns (<[i:=after_pass call p]> ts) ts'.

Lemma after_blocked c call' j :
  <[i:=after_pass call p]> ts !! j = Some (Blocked c call') ->
  ts !! j = Some (Blocked c call') \/ (p = Waits c /\ call' = call).
Proof.
  intros [(<- & Heq)|(_ & ?)]%list_lookup_insert_cases; [|by left].
  right. destruct p; simpl in Heq; by simplify_eq.
Qed.

Lemma after_blocked_on c :
  blocked_on c (<[i:=after_pass call p]> ts) -> blocked_on c ts \/ p = Waits c.
Proof.
  intros (j & call' & [?|[? _]]%after_blocked); [left; by eexists _, _|by right].
Qed.

Lemma after_pushers :
  (pushers (<[i:=after_pass call p]> ts) + (if is_pusher (Active call) then 1 else 0)
   = pushers ts)%nat.
Proof.
  pose proof (count_if_insert is_pusher ts i _ (after_pass call p) Hi) as H.
  unfold pushers. destruct p; simpl in *; lia.
Qed.

Lemma after_ts_ok : ts_ok mp (<[i:=after_pass call p]> ts).
Proof.
  pose proof Hok as [Hc _]. apply ts_ok_insert; [done| |].
  - intros call' [Heq|[c Heq]]; destruct p; simpl in Heq; simplify_eq; apply Hc; auto.
  - intros c call' Heq. destruct p; simpl in Heq; simplify_eq. by inversion Hkind.
Qed.

Lemma wake_inv_pass : wake_inv ts q -> wake_inv ts' q'.
Proof.
  intros [Hd Hf He]. pose proof after_pushers as Hp. pose proof after_ts_ok as Hok1.
  assert (forall c, blocked_on c ts' -> blocked_on c ts \/ p = Waits c) as Hb.
  { intros c Hb. by apply after_blocked_on, (notified_all_mono _ _ _ c Hnote). }
  pose proof (proj2 (notified_all_mono _ _ _ drained Hnote)) as Hmono.
  inversion Hkind as [call0 c Hw Hreason|call0 rc out Hns Hfull| | call0 q0 Hfull H1 H2 H3 Hns
    |call0 e q0 H1 H2 H3 Hcons|q0 H1 H2 H3]; subst.
  - assert (sq_full q' = true \/ is_pusher (Active call) = false) as Hor.
    { destruct c; simpl in Hreason; [right|left; tauto|right]; apply not_pusher; intros ??? ->; done. }
    split; intros Hc; apply Hb in Hc as [Hc|[= ->]]; simpl in Hreason; try tauto; auto.
    + specialize (Hf Hc). destruct Hor as [Hor|Hor]; unfold sq_full in *; [lia|].
      rewrite Hor in Hp. lia.
    + unfold sq_full in *. lia.
  - split; intros Hc; apply Hb in Hc as [Hc|?]; try done; auto. specialize (Hf Hc).
    destruct call; cbn [is_pusher] in Hp; try lia. specialize (Hfull _ _ _ eq_refl). unfold sq_full in *. lia.
  - split; intros Hc; apply Hb in Hc as [Hc|?]; try done; auto. specialize (Hf Hc). cbn [is_pusher] in Hp. lia.
  - split; intros Hc.
    + lia.
    + apply Hb in Hc as [Hc|?]; [|done]. specialize (Hf Hc). destruct (is_pusher _); lia.
    + exfalso. inversion Hnote as [|n ns0 t1 t2 t3 Hn1 Hn2]; subst. inversion Hn2; subst.
      by eapply signal_empty_none.
  - rewrite not_pusher in Hp by (intros ??? ->; done).
    split; intros Hc; apply Hb in Hc as [Hc|?]; try done.
    + specialize (Hd Hc). lia.
    + specialize (Hf Hc). lia.
    + specialize (He Hc). lia.
  - cbn [is_pusher] in Hp. split; intros Hc.
    + destruct (Nat.eqb_spec (sq_count q' + sq_inflight q') 0) as [Hz|]; [exfalso|lia].
      simpl in Hnote. inversion Hnote as [|n ns0 t1 t2 t3 Hn1 Hn2]; subst.
      inversion Hn1; subst. eapply broadcast_none, (notified_all_mono _ _ _ _ Hn2), Hc.
    + pose proof (Hb _ Hc) as [Hc0|?]; [|done]. specialize (Hf Hc0).
      apply notified_all_app in Hnote as (t1 & Hn1 & Hn2).
      inversion Hn2 as [|n ns0 t2 t3 t4 Hn3 Hn4]; subst. inversion Hn4; subst.
      pose proof (signal_full_pushers mp _ _ (notified_all_ts_ok _ _ _ _ Hn1 Hok1) Hn3 Hc).
      pose proof (proj2 (notified_all_mono _ _ _ drained Hn1)). lia.
    + apply Hb in Hc as [Hc|?]; [|done]. specialize (He Hc). lia.
Qed.
End PassInv.

(** After the stop sequence no [push_wait] or [pop] is left waiting. *)
Definition stop_inv (c : sq_config) : Prop :=
  sc_stopped c = true -> sc_running c = 0 /\
  forall i cond call, sc_threads c !! i = Some (Blocked cond call) ->
    (forall p f bs, call <> CallPushWait p f bs) /\ call <> CallPop.

Lemma notified_blocked n ts ts' i cond call :
  notified n ts ts' -> ts' !! i = Some (Blocked cond call) -> ts !! i = Some (Blocked cond call).
Proof.
  destruct 1 as [c' ts j call' Hj|c' ts Hn|c' ts]; [|done|].
  - by intros [(_ & ?)|(_ & ?)]%list_lookup_insert_cases.
  - intros (t & Ht & Hj)%list_lookup_fmap_Some. destruct t; simpl in Ht;
      try case_bool_decide; by simplify_eq.
Qed.

Lemma notified_all_blocked ns ts ts' i cond call :
  notified_all ns ts ts' -> ts' !! i = Some (Blocked cond call) ->
  ts !! i = Some (Blocked cond call).
Proof. induction 1; eauto using notified_blocked. Qed.

Lemma stop_inv_pass mp c i call p q' ns ts' :
  stop_inv c -> ts_ok mp (sc_threads c) -> sc_threads c !! i = Some (Active call) ->
  pass_kind (sc_running c) (sc_queue c) call p q' ns ->
  notified_all ns (<[i:=after_pass call p]> (sc_threads c)) ts' ->
  stop_inv (record_pass c call p q' ts').
Proof.
  intros Hs [_ Hw] Hi Hk Hn. unfold stop_inv, record_pass. cbn [sc_stopped sc_running sc_threads].
  assert (forall j cond call', ts' !! j = Some (Blocked cond call') ->
    sc_threads c !! j = Some (Blocked cond call') \/ (p = Waits cond /\ call' = call)) as Hb.
  { intros j cond call' Hj. by eapply after_blocked, notified_all_blocked. }
  assert (sc_stopped c = true -> sc_running c = 0 /\
    forall j cond call', ts' !! j = Some (Blocked cond call') ->
      (forall p f bs, call' <> CallPushWait p f bs) /\ call' <> CallPop) as Hmain.
  { intros Hst. destruct (Hs Hst) as [Hr Hblk]. split; [done|]. intros j cond call' Hj.
    destruct (Hb _ _ _ Hj) as [Hj'|[-> ->]]; [by eapply Hblk|].
    inversion Hk as [? ? Hwf Hre| | | | |]; subst. destruct cond; simpl in Hwf, Hre.
    - split; [by intros ??? ->|]. intros ->. by apply Hre.
    - destruct Hre as [_ []]. done.
    - by subst call. }
  destruct call; try done. intros Hor.
  apply orb_true_iff in Hor as [Hr|Hr]; [|by apply Hmain].
  split; [by apply Z.eqb_eq|]. intros j cond call' Hj.
  inversion Hk as [? cw Hwf Hre|? ? ? Hns| | ? ? ? ? ? ? Hns| |]; subst; try done.
  { destruct cw; simpl in Hwf; [done|by destruct Hwf as (? & ? & ? & ?)|done]. }
  assert (forall x, x = not_empty \/ x = not_full -> ~ blocked_on x ts') as Hnone.
  { inversion Hn as [|n1 ns1 t1 t2 t3 Hn1 Hn2]; subst. inversion Hn1; subst.
    inversion Hn2 as [|n2 ns2 t4 t5 t6 Hn3 Hn4]; subst. inversion Hn4; subst. inversion Hn3; subst.
    intros x [-> | ->]; [|apply broadcast_none].
    intros Hx. eapply broadcast_none, (notified_mono _ _ _ not_empty Hn3), Hx. }
  destruct (Hb _ _ _ Hj) as [Hj'|[? _]]; [|done]. pose proof (Hw _ _ _ Hj') as Hwf.
  destruct cond; simpl in Hwf.
  - destruct (Hnone not_empty); [by left|by eexists _, _].
  - destruct (Hnone not_full); [by right|by eexists _, _].
  - subst call'. done.
Qed.

Definition sq_inv (mp : nat) (depth : nat) (c : sq_config) : Prop :=
  fifo_inv mp c /\ ts_ok mp (sc_threads c) /\ wake_inv (sc_threads c) (sc_queue c) /\ stop_inv c /\
  sq_depth (sc_queue c) = depth.

Lemma fifo_inv_pass mp c i call p q' ns ts' :
  fifo_inv mp c -> ts_ok mp (sc_threads c) -> sc_threads c !! i = Some (Active call) ->
  sq_exec (sc_running c) (sc_queue c) call = Some (p, q', ns) ->
  fifo_inv mp (record_pass c call p q' ts') /\ sq_depth q' = sq_depth (sc_queue c).
Proof.
  intros (sent & queued & dn & Hr & Hpop & Hacc) [Hc _] Hi Hex.
  destruct (sq_exec_spec mp (sc_running c) _ _ _ _ call Hr) as
    (p1 & q1 & ns1 & sent' & queued' & Hex1 & Hr1 & Hd & Hq & Hs); [by eapply Hc; left|].
  rewrite Hex in Hex1. injection Hex1 as <- <- <-. split; [|done].
  assert (sc_accepted c ++ accepted_by call p
    = (sc_popped c ++ omap (elem_read q') (popped_by call p)) ++ queued') as Hacc'.
  { rewrite Hacc, <- !app_assoc. by rewrite Hq. }
  unfold fifo_inv, record_pass. cbn [sc_queue sc_held sc_popped sc_accepted].
  destruct call; try (exists sent', queued', dn; split; [exact Hr1|]; split; [|exact Hacc'];
    rewrite Hpop, Hs, app_assoc; done).
  exists sent', queued', (dn ++ take 1 sent). split; [exact Hr1|]. split; [|exact Hacc'].
  cbn [popped_by omap list_omap]. rewrite app_nil_r, Hpop, Hs, <- app_assoc.
  f_equal. destruct sent; done.
Qed.

Lemma sq_inv_step mp depth c c' : sq_inv mp depth c -> sq_step mp c c' -> sq_inv mp depth c'.
Proof.
  intros (Hf & Ht & Hw & Hs & Hd) Hstep.
  destruct Hstep as [c i call Hi Hc Hl|c i call p q' ns ts' Hi Hex Hn|c i cond call Hi|c].
  - split; [done|]. split; [|split; [|split; [|done]]].
    + apply ts_ok_insert; [done| |done]. intros call' [[= <-]|[? ?]]; done.
    + assert (forall x, blocked_on x (<[i:=Active call]> (sc_threads c)) ->
        blocked_on x (sc_threads c)) as Hb.
      { intros x (j & k & [(_ & ?)|(_ & ?)]%list_lookup_insert_cases); [done|by eexists _, _]. }
      pose proof (count_if_insert is_pusher _ i _ (Active call) Hi) as Hp. fold pushers in Hp.
      destruct Hw as [H1 H2 H3]. split; intros Hx; apply Hb in Hx; auto.
      specialize (H2 Hx). cbn [sc_threads sc_queue] in *. change (is_pusher Idle) with false in Hp.
      destruct (is_pusher (Active call)); lia.
    + intros Hst. destruct (Hs Hst) as [Hr Hb]. split; [done|]. cbn [sc_threads].
      intros j cond k [(_ & ?)|(_ & ?)]%list_lookup_insert_cases; [done|by eapply Hb].
  - destruct (fifo_inv_pass _ _ _ _ _ _ _ ts' Hf Ht Hi Hex) as [Hf' Hd'].
    destruct Hf as (sent & queued & dn & Hr & _).
    pose proof (sq_exec_kind mp _ _ _ _ _ _ _ _ _ Hr
      (proj2 (proj1 Ht i call (or_introl Hi))) Hex) as Hk.
    split; [done|]. split; [|split; [|split]].
    + eapply notified_all_ts_ok; [exact Hn|]. by eapply after_ts_ok.
    + by eapply wake_inv_pass.
    + by eapply stop_inv_pass.
    + cbn [record_pass sc_queue]. congruence.
  - assert (notified (Signal cond) (sc_threads c) (<[i:=Active (resume call)]> (sc_threads c)))
      as Hn by by constructor.
    split; [done|]. split; [by eapply notified_ts_ok|]. split; [|split; [|done]].
    + destruct Hw as [H1 H2 H3].
      split; intros Hx; apply (notified_mono _ _ _ _ Hn) in Hx; auto.
      specialize (H2 Hx). pose proof (proj2 (notified_mono _ _ _ drained Hn)).
      cbn [sc_threads sc_queue] in *. lia.
    + intros Hst. destruct (Hs Hst) as [Hr Hb]. split; [done|]. cbn [sc_threads].
      intros j x k Hj. by eapply Hb, notified_blocked.
  - split; [done|]. split; [done|]. split; [done|]. split; [|done].
    intros Hst. destruct (Hs Hst) as [_ Hb]. done.
Qed.

Lemma sq_inv_initial depth max_payload n :
  (0 < depth)%nat ->
  sq_inv (Z.to_nat max_payload) depth (sq_initial depth max_payload n).
Proof.
  intros Hd. destruct (sq_init_repr (Z.to_nat max_payload) depth max_payload
    (snd (potr_internal_send_queue_init (true, true) true depth max_payload)))
    as [Hr Hdep]; [done..|].
  assert (forall i t, sc_threads (sq_initial depth max_payload n) !! i = Some t -> t = Idle) as Hidle.
  { intros i t. cbn [sq_initial sc_threads]. by intros [-> _]%lookup_replicate. }
  split; [by exists [], [], []|].
  assert (forall c, ~ blocked_on c (sc_threads (sq_initial depth max_payload n))) as Hno
    by (intros c (i & call & ?%Hidle); done).
  split; [split|split; [split|split]].
  - by intros i call [?%Hidle|[c ?%Hidle]].
  - by intros i c call ?%Hidle.
  - by intros ?%Hno.
  - by intros ?%Hno.
  - by intros ?%Hno.
  - done.
  - done.
Qed.

Lemma sq_reachable_inv depth max_payload n c :
  (0 < depth)%nat ->
  sq_reachable (Z.to_nat max_payload) (sq_initial depth max_payload n) c ->
  sq_inv (Z.to_nat max_payload) depth c.
Proof. intros Hd. induction 1; eauto using sq_inv_initial, sq_inv_step. Qed.

(** ** Properties *)

(** C20. The send queue is a FIFO in every interleaving: in every configuration
    reachable by any number of producer threads, drain waiters and one send
    thread from a freshly initialised queue of positive depth, the messages
    accepted by [push] and [push_wait] are, in order, the ones already popped
    followed by the ones still queued (none lost, duplicated or reordered);
    every element popped and not yet completed still reads, through its pointer
    into the shared pool, the very bytes that were pushed (the slot is not
    reused before [complete]); at most [depth] elements are queued or in
    flight; and no pass of any thread touches memory out of bounds. *)
Theorem send_queue_fifo depth max_payload n c :
  (0 < depth)%nat ->
  sq_reachable (Z.to_nat max_payload) (sq_initial depth max_payload n) c ->
  (exists queued done_ sent,
     sc_accepted c = sc_popped c ++ queued /\ length queued = sq_count (sc_queue c) /\
     sc_popped c = done_ ++ sent /\ mapM (elem_read (sc_queue c)) (sc_held c) = Some sent) /\
  (sq_count (sc_queue c) + sq_inflight (sc_queue c) <= depth)%nat /\
  forall i call, sc_threads c !! i = Some (Active call) ->
    exists r, sq_exec (sc_running c) (sc_queue c) call = Some r.
Proof.
  intros Hd Hc.
  destruct (sq_reachable_inv _ _ _ _ Hd Hc) as ((sent & queued & dn & Hr & Hp & Ha) & [Ht _] & _ & _ & Hdep).
  split; [|split].
  - exists queued, dn, sent. split; [done|]. split; [by apply (sr_queued _ _ _ _ _ Hr)|].
    split; [done|]. by eapply sq_held_reads.
  - rewrite <- Hdep. apply (sr_bound _ _ _ _ _ Hr).
  - intros i call Hi.
    destruct (sq_exec_spec _ (sc_running c) _ _ _ _ call Hr
      (proj2 (Ht i call (or_introl Hi)))) as (p & q' & ns & _ & _ & -> & _). eauto.
Qed.

(** C21. No wake-up is lost, and the stop sequence frees every blocked thread:
    in every reachable configuration a thread waits for [drained] only while
    the queue is not drained; the send thread waits for [not_empty] only while
    the queue is empty; while a producer waits for [not_full] and there is room
    in the queue, some producer is runnable; and once [shutdown] has run after
    [running] was cleared, no [push_wait] and no [pop] is left waiting. *)
Theorem send_queue_no_lost_wakeup depth max_payload n c :
  (0 < depth)%nat ->
  sq_reachable (Z.to_nat max_payload) (sq_initial depth max_payload n) c ->
  (blocked_on drained (sc_threads c) ->
     (0 < sq_count (sc_queue c) + sq_inflight (sc_queue c))%nat) /\
  (blocked_on not_empty (sc_threads c) -> sq_count (sc_queue c) = O) /\
  (blocked_on not_full (sc_threads c) -> sq_full (sc_queue c) = false ->
     exists i p f bs, sc_threads c !! i = Some (Active (CallPushWait p f bs))) /\
  (sc_stopped c = true -> forall i cond call, sc_threads c !! i = Some (Blocked cond call) ->
     (forall p f bs, call <> CallPushWait p f bs) /\ call <> CallPop).
Proof.
  intros Hd Hc.
  destruct (sq_reachable_inv _ _ _ _ Hd Hc) as (_ & _ & [H1 H2 H3] & Hs & _).
  split; [done|]. split; [done|]. split.
  - intros Hb Hf. specialize (H2 Hb). unfold sq_full in Hf.
    destruct (count_if_pos is_pusher (sc_threads c)) as (i & t & Hi & Ht).
    { unfold pushers in H2. lia. }
    destruct t as [|[]|]; try done. by eexists _, _, _, _.
  - intros Hst. by apply Hs.
Qed.

(** A producer pushes into a queue of depth 1, the send thread pops, a second
    producer blocks in [push_wait]. *)
Definition example_config : sq_config :=
  Config (SendQueue (Some [PayloadElem 7 0 2 0]) (Some [5; 6]) 1 0 0 0 1 true) 1
    [Idle; Idle; Blocked not_full (CallPushWait 8 0 [9])]
    [PayloadElem 7 0 2 0] [(7, 0, [5; 6])] [(7, 0, [5; 6])] false.

Lemma reach_next mp c0 c c' c'' :
  sq_reachable mp c0 c -> sq_step mp c c' -> c' = c'' -> sq_reachable mp c0 c''.
Proof. intros Hc Hs <-. by econstructor. Qed.

(** One call and one pass of a thread in the example run. *)
Local Ltac call H i c :=
  let H' := fresh in
  pose proof H as H'; clear H;
  eapply reach_next in H' as H; [|apply (step_call _ _ i c); [reflexivity|done|vm_compute; lia]
    |cbv; reflexivity]; clear H'.
Local Ltac pass H i :=
  let H' := fresh in
  pose proof H as H'; clear H;
  eapply reach_next in H' as H; [|eapply (step_pass _ _ i); [reflexivity|reflexivity|
    repeat (eapply notified_cons; [apply notified_signal_none; intros [|[|[|?]]] ?; done|]);
    apply notified_nil]|cbv; reflexivity]; clear H'.

Lemma example_reachable : sq_reachable 2 (sq_initial 1 2 2) example_config.
Proof.
  pose proof (reach_start 2 (sq_initial 1 2 2)) as H.
  call H 1%nat (CallPush 7 0 [5; 6]). pass H 1%nat.
  call H 0%nat CallPop. pass H 0%nat.
  call H 2%nat (CallPushWait 8 0 [9]). pass H 2%nat.
  exact H.
Qed.

Lemma send_queue_fifo_witness :
  (exists queued done_ sent,
     sc_accepted example_config = sc_popped example_config ++ queued /\
     length queued = sq_count (sc_queue example_config) /\
     sc_popped example_config = done_ ++ sent /\
     mapM (elem_read (sc_queue example_config)) (sc_held example_config) = Some sent) /\
  (0 + 1 <= 1)%nat.
Proof.
  destruct (send_queue_fifo 1 2 2 example_config) as (H1 & H2 & _);
    [lia | apply example_reachable |].
  split; [exact H1|exact H2].
Defined.

Lemma send_queue_no_lost_wakeup_witness :
  blocked_on not_full (sc_threads example_config) /\ sq_full (sc_queue example_config) = true /\
  (blocked_on not_full (sc_threads example_config) -> sq_full (sc_queue example_config) = false ->
     exists i p f bs, sc_threads example_config !! i = Some (Active (CallPushWait p f bs))).
Proof.
  split; [by exists 2%nat, (CallPushWait 8 0 [9])|]. split; [reflexivity|].
  apply (send_queue_no_lost_wakeup 1 2 2 example_config); [lia | apply example_reachable].
Defined.
