(* ===== verification/Context.v ===== *)
(** The service context: [potr_context.h].  The state a service keeps, the
    fields its peers (N:1 mode) share with it, the platform it runs on, and the
    monad in which the handlers of the following files are written. *)

From stdpp Require Import base list numbers option.
From Stdlib Require Import ZArith Lia ZifyBool.
From S2P Require Import Prelude Types Packet Window.
Local Open Scope Z_scope.
Local Open Scope porter_scope.

(** ** The platform library

    Clocks, random numbers, allocation and socket results are taken from
    arbitrary sequences, one value per call, so that a theorem holds for every
    behaviour of the environment. *)
Class Platform := {
  clock_monotonic : nat -> timespec;
  clock_monotonic_ms : nat -> Z;
  clock_realtime : nat -> timespec;
  random_u32 : nat -> option Z;
  alloc_ok : nat -> bool;
  send_ok : nat -> bool;
  writable : nat -> bool;
  (** the cause of a failed socket call *)
  error_cause : nat -> cplat_cause;
  cplat_timespec_cmp : timespec -> timespec -> Z;
  cplat_timespec_diff_ms : timespec -> timespec -> Z;
  cplat_timespec_add_ms : timespec -> Z -> timespec;
  (** capacity of the destination, key, nonce, associated data, text *)
  cplat_crypto_encrypt : nat -> list Z -> list Z -> list Z -> list Z -> option (list Z);
  cplat_crypto_decrypt : nat -> list Z -> list Z -> list Z -> list Z -> option (list Z);
  (** capacity of the destination, source *)
  cplat_compress : nat -> list Z -> option (list Z);
  cplat_decompress : nat -> list Z -> option (list Z)
}.

(** What the code relies on: the order of time stamps, the size and the round
    trip of authenticated encryption, and the capacity of output buffers. *)
Class PlatformLaws `{Platform} := {
  timespec_cmp_eq t u : cplat_timespec_cmp t u = 0 <-> t = u;
  timespec_cmp_antisym t u : cplat_timespec_cmp t u < 0 <-> 0 < cplat_timespec_cmp u t;
  timespec_cmp_trans t u v :
    0 < cplat_timespec_cmp t u -> 0 < cplat_timespec_cmp u v -> 0 < cplat_timespec_cmp t v;
  encrypt_length cap key nonce aad pt ct :
    cplat_crypto_encrypt cap key nonce aad pt = Some ct ->
    length ct = (length pt + POTR_CRYPTO_TAG_SIZE)%nat /\ (length ct <= cap)%nat;
  decrypt_length cap key nonce aad ct pt :
    cplat_crypto_decrypt cap key nonce aad ct = Some pt ->
    (length pt + POTR_CRYPTO_TAG_SIZE)%nat = length ct /\ (length pt <= cap)%nat;
  decrypt_encrypt cap cap' key nonce aad pt ct :
    cplat_crypto_encrypt cap key nonce aad pt = Some ct -> (length pt <= cap')%nat ->
    cplat_crypto_decrypt cap' key nonce aad ct = Some pt;
  encrypt_bytes cap key nonce aad pt ct :
    cplat_crypto_encrypt cap key nonce aad pt = Some ct -> Forall is_byte ct;
  decrypt_bytes cap key nonce aad ct pt :
    cplat_crypto_decrypt cap key nonce aad ct = Some pt -> Forall is_byte pt;
  decompress_length cap src dst : cplat_decompress cap src = Some dst -> (length dst <= cap)%nat;
  decompress_compress cap cap' src dst :
    cplat_compress cap src = Some dst -> (length src <= cap')%nat ->
    cplat_decompress cap' dst = Some src;
  (** the compressed form starts with a header *)
  compress_nonempty cap src dst : cplat_compress cap src = Some dst -> src <> [] -> dst <> []
}.

(** ** State *)

(** The sessions of both ends. *)
Record session_state := SessionState {
  session_id : Z;
  session_ts : timespec;
  peer_session_id : Z;
  peer_session_known : bool;
  peer_session_ts : timespec
}.

(** Reassembly of fragmented messages. *)
Record frag_state := FragState {
  frag_buf : option (list Z);
  frag_buf_len : nat;
  frag_compressed : bool
}.

Record health_state := HealthState {
  health_alive : bool;
  path_logical_alive : list bool;
  path_ping_state : list Z;
  remote_path_ping_state : list Z;
  last_recv_ts : timespec;
  path_last_recv_ts : list timespec
}.

(** The last NACKs answered: pairs of [ack_num] and [time_ms]. *)
Record dedup_state := DedupState {
  nack_dedup_buf : list (Z * Z);
  nack_dedup_next : Z
}.

Record reorder_state := ReorderState {
  reorder_pending : bool;
  reorder_nack_num : Z;
  reorder_deadline_ts : timespec
}.

Record fin_state := FinState {
  pending_fin : bool;
  fin_target_seq : Z
}.

(** The fields that [thread_recv_slot] reaches through pointers, either in the
    context or in a peer. *)
Record conn := Conn {
  c_session : session_state;
  c_send_window : potr_internal_window;
  c_recv_window : potr_internal_window;
  c_send_has_data : bool;
  c_frag : frag_state;
  c_health : health_state;
  c_dedup : dedup_state;
  c_reorder : reorder_state;
  c_fin : fin_state;
  c_dest_addr : list endpoint
}.

Definition set_session (c : conn) x := Conn x (c_send_window c) (c_recv_window c)
  (c_send_has_data c) (c_frag c) (c_health c) (c_dedup c) (c_reorder c) (c_fin c) (c_dest_addr c).
Definition set_send_window (c : conn) x := Conn (c_session c) x (c_recv_window c)
  (c_send_has_data c) (c_frag c) (c_health c) (c_dedup c) (c_reorder c) (c_fin c) (c_dest_addr c).
Definition set_recv_window (c : conn) x := Conn (c_session c) (c_send_window c) x
  (c_send_has_data c) (c_frag c) (c_health c) (c_dedup c) (c_reorder c) (c_fin c) (c_dest_addr c).
Definition set_send_has_data (c : conn) x := Conn (c_session c) (c_send_window c) (c_recv_window c)
  x (c_frag c) (c_health c) (c_dedup c) (c_reorder c) (c_fin c) (c_dest_addr c).
Definition set_frag (c : conn) x := Conn (c_session c) (c_send_window c) (c_recv_window c)
  (c_send_has_data c) x (c_health c) (c_dedup c) (c_reorder c) (c_fin c) (c_dest_addr c).
Definition set_health (c : conn) x := Conn (c_session c) (c_send_window c) (c_recv_window c)
  (c_send_has_data c) (c_frag c) x (c_dedup c) (c_reorder c) (c_fin c) (c_dest_addr c).
Definition set_dedup (c : conn) x := Conn (c_session c) (c_send_window c) (c_recv_window c)
  (c_send_has_data c) (c_frag c) (c_health c) x (c_reorder c) (c_fin c) (c_dest_addr c).
Definition set_reorder (c : conn) x := Conn (c_session c) (c_send_window c) (c_recv_window c)
  (c_send_has_data c) (c_frag c) (c_health c) (c_dedup c) x (c_fin c) (c_dest_addr c).
Definition set_fin (c : conn) x := Conn (c_session c) (c_send_window c) (c_recv_window c)
  (c_send_has_data c) (c_frag c) (c_health c) (c_dedup c) (c_reorder c) x (c_dest_addr c).
Definition set_dest_addr (c : conn) x := Conn (c_session c) (c_send_window c) (c_recv_window c)
  (c_send_has_data c) (c_frag c) (c_health c) (c_dedup c) (c_reorder c) (c_fin c) x.

(** [*reorder_pending = b]. *)
Definition set_reorder_pending (c : conn) (b : bool) : conn :=
  set_reorder c (ReorderState b (reorder_nack_num (c_reorder c)) (reorder_deadline_ts (c_reorder c))).

Record potr_internal_peer_context := Peer {
  p_peer_id : Z;
  p_active : bool;
  p_conn : conn;
  p_n_paths : Z;
  p_send_window_mutex : bool (* does the lock exist? *)
}.

(** What does not change while the service is open. *)
Record service_config := ServiceConfig {
  x_callback : bool;
  x_service : potr_service_def;
  x_global : potr_global_config;
  x_health_interval_ms : Z;
  x_health_timeout_ms : Z;
  x_role : potr_role;
  x_n_path : nat;
  x_is_multi_peer : bool;
  x_max_peers : Z;
  x_src_addr_resolved : list Z;
  x_dst_addr_resolved : list Z;
  x_compress_buf_size : nat;
  x_crypto_buf_size : nat
}.

(** The TCP close handshake. *)
Record tcp_close_state := TcpCloseState {
  tcp_close_waiting_ack : bool;
  tcp_close_ack_received : bool;
  tcp_close_wait_target_seq : Z;
  tcp_close_ack_seq : Z
}.

(** The TCP connection as a whole: active paths, whether the service is being
    closed, and the session the receiver accepted. *)
Record tcp_link_state := TcpLinkState {
  tcp_active_paths : Z;
  close_requested : bool;
  tcp_accepted_session_known : bool;
  tcp_accepted_session_id : Z;
  tcp_accepted_session_ts : timespec
}.

(** The pointers of the context to buffers, locks, condition variables and
    threads, and the listening sockets.  Of each only whether it is non-null
    (valid) is kept. *)
Inductive handle :=
  | HCallbackMutex | HSendWindowMutex | HRecvWindowMutex | HSessionEstablishMutex
  | HTcpRecvMutex | HTcpStateMutex | HTcpStateCv | HTcpCloseMutex | HTcpCloseCv
  | HTcpSendMutex (k : nat) | HHealthMutex (k : nat) | HHealthWakeup (k : nat)
  | HCompressBuf | HRecvBuf | HSendWireBuf | HCryptoBuf | HRecvCompressBuf | HRecvCryptoBuf
  | HTcpRecvBuf (k : nat) | HTcpFirstPktBuf (k : nat)
  | HSendQueue
  | HTcpListenSock (k : nat)
  | HLocalSock (k : nat) (* opened by the code that sets up path [k], and still in a local variable *)
  | HSendThread | HRecvThread (k : nat) | HHealthThread (k : nat) | HConnectThread (k : nat).

#[export] Instance handle_eq_dec : EqDecision handle.
Proof. solve_decision. Defined.

(** The non-null handles, the flags that tell threads to run, and the packets
    read ahead by the accept threads (empty when [tcp_first_pkt_len] is 0). *)
Record runtime := Runtime {
  rt_handles : list handle;
  send_thread_running : bool;
  rt_running : list bool;
  connect_thread_running : list bool;
  health_send_immediate : list bool;
  tcp_first_pkt : list (list Z)
}.

(** A socket is kept as whether it is valid. *)
Record potr_context := PotrContext {
  x_cfg : service_config;
  x_conn : conn;
  x_sock : list bool;
  x_peer_port : list Z;
  x_peers : option (list potr_internal_peer_context);
  x_n_peers : Z;
  x_next_peer_id : Z;
  x_tcp_conn_fd : list bool;
  x_tcp_close : tcp_close_state;
  x_tcp_last_ping_recv_ms : list Z;
  x_health_running : list bool;
  x_last_ping_send_ms : Z;
  x_last_valid_data_send_ms : Z;
  x_tcp_link : tcp_link_state;
  x_rt : runtime
}.

Definition set_x_conn (x : potr_context) c := PotrContext (x_cfg x) c (x_sock x) (x_peer_port x)
  (x_peers x) (x_n_peers x) (x_next_peer_id x) (x_tcp_conn_fd x) (x_tcp_close x)
  (x_tcp_last_ping_recv_ms x) (x_health_running x) (x_last_ping_send_ms x) (x_last_valid_data_send_ms x)
  (x_tcp_link x) (x_rt x).
Definition set_x_peer_port (x : potr_context) pp := PotrContext (x_cfg x) (x_conn x) (x_sock x) pp
  (x_peers x) (x_n_peers x) (x_next_peer_id x) (x_tcp_conn_fd x) (x_tcp_close x)
  (x_tcp_last_ping_recv_ms x) (x_health_running x) (x_last_ping_send_ms x) (x_last_valid_data_send_ms x)
  (x_tcp_link x) (x_rt x).
Definition set_x_peers (x : potr_context) ps := PotrContext (x_cfg x) (x_conn x) (x_sock x)
  (x_peer_port x) ps (x_n_peers x) (x_next_peer_id x) (x_tcp_conn_fd x) (x_tcp_close x)
  (x_tcp_last_ping_recv_ms x) (x_health_running x) (x_last_ping_send_ms x) (x_last_valid_data_send_ms x)
  (x_tcp_link x) (x_rt x).
Definition set_x_n_peers (x : potr_context) n := PotrContext (x_cfg x) (x_conn x) (x_sock x)
  (x_peer_port x) (x_peers x) n (x_next_peer_id x) (x_tcp_conn_fd x) (x_tcp_close x)
  (x_tcp_last_ping_recv_ms x) (x_health_running x) (x_last_ping_send_ms x) (x_last_valid_data_send_ms x)
  (x_tcp_link x) (x_rt x).
Definition set_x_next_peer_id (x : potr_context) n := PotrContext (x_cfg x) (x_conn x) (x_sock x)
  (x_peer_port x) (x_peers x) (x_n_peers x) n (x_tcp_conn_fd x) (x_tcp_close x)
  (x_tcp_last_ping_recv_ms x) (x_health_running x) (x_last_ping_send_ms x) (x_last_valid_data_send_ms x)
  (x_tcp_link x) (x_rt x).
Definition set_x_tcp_close (x : potr_context) t := PotrContext (x_cfg x) (x_conn x) (x_sock x)
  (x_peer_port x) (x_peers x) (x_n_peers x) (x_next_peer_id x) (x_tcp_conn_fd x) t
  (x_tcp_last_ping_recv_ms x) (x_health_running x) (x_last_ping_send_ms x) (x_last_valid_data_send_ms x)
  (x_tcp_link x) (x_rt x).
Definition set_x_tcp_last_ping (x : potr_context) t := PotrContext (x_cfg x) (x_conn x) (x_sock x)
  (x_peer_port x) (x_peers x) (x_n_peers x) (x_next_peer_id x) (x_tcp_conn_fd x) (x_tcp_close x)
  t (x_health_running x) (x_last_ping_send_ms x) (x_last_valid_data_send_ms x)
  (x_tcp_link x) (x_rt x).
Definition set_x_last_ping_send_ms (x : potr_context) t := PotrContext (x_cfg x) (x_conn x) (x_sock x)
  (x_peer_port x) (x_peers x) (x_n_peers x) (x_next_peer_id x) (x_tcp_conn_fd x) (x_tcp_close x)
  (x_tcp_last_ping_recv_ms x) (x_health_running x) t (x_last_valid_data_send_ms x)
  (x_tcp_link x) (x_rt x).
Definition set_x_last_valid_data_send_ms (x : potr_context) t := PotrContext (x_cfg x) (x_conn x) (x_sock x)
  (x_peer_port x) (x_peers x) (x_n_peers x) (x_next_peer_id x) (x_tcp_conn_fd x) (x_tcp_close x)
  (x_tcp_last_ping_recv_ms x) (x_health_running x) (x_last_ping_send_ms x) t
  (x_tcp_link x) (x_rt x).
Definition set_x_tcp_link (x : potr_context) t := PotrContext (x_cfg x) (x_conn x) (x_sock x)
  (x_peer_port x) (x_peers x) (x_n_peers x) (x_next_peer_id x) (x_tcp_conn_fd x) (x_tcp_close x)
  (x_tcp_last_ping_recv_ms x) (x_health_running x) (x_last_ping_send_ms x) (x_last_valid_data_send_ms x) t
  (x_rt x).
Definition set_x_tcp_conn_fd (x : potr_context) fd := PotrContext (x_cfg x) (x_conn x) (x_sock x)
  (x_peer_port x) (x_peers x) (x_n_peers x) (x_next_peer_id x) fd (x_tcp_close x)
  (x_tcp_last_ping_recv_ms x) (x_health_running x) (x_last_ping_send_ms x) (x_last_valid_data_send_ms x)
  (x_tcp_link x) (x_rt x).
Definition set_x_sock (x : potr_context) so := PotrContext (x_cfg x) (x_conn x) so
  (x_peer_port x) (x_peers x) (x_n_peers x) (x_next_peer_id x) (x_tcp_conn_fd x) (x_tcp_close x)
  (x_tcp_last_ping_recv_ms x) (x_health_running x) (x_last_ping_send_ms x) (x_last_valid_data_send_ms x)
  (x_tcp_link x) (x_rt x).
Definition set_x_health_running (x : potr_context) h := PotrContext (x_cfg x) (x_conn x) (x_sock x)
  (x_peer_port x) (x_peers x) (x_n_peers x) (x_next_peer_id x) (x_tcp_conn_fd x) (x_tcp_close x)
  (x_tcp_last_ping_recv_ms x) h (x_last_ping_send_ms x) (x_last_valid_data_send_ms x)
  (x_tcp_link x) (x_rt x).
Definition set_x_cfg (x : potr_context) g := PotrContext g (x_conn x) (x_sock x)
  (x_peer_port x) (x_peers x) (x_n_peers x) (x_next_peer_id x) (x_tcp_conn_fd x) (x_tcp_close x)
  (x_tcp_last_ping_recv_ms x) (x_health_running x) (x_last_ping_send_ms x) (x_last_valid_data_send_ms x)
  (x_tcp_link x) (x_rt x).
Definition set_x_rt (x : potr_context) r := PotrContext (x_cfg x) (x_conn x) (x_sock x)
  (x_peer_port x) (x_peers x) (x_n_peers x) (x_next_peer_id x) (x_tcp_conn_fd x) (x_tcp_close x)
  (x_tcp_last_ping_recv_ms x) (x_health_running x) (x_last_ping_send_ms x) (x_last_valid_data_send_ms x)
  (x_tcp_link x) r.

(** ** Effects and the handler monad *)

(** What the user callback receives: message bytes, the states of all paths
    with the index of the changed one, or nothing. *)
Inductive callback_data :=
  | CbBytes (bs : list Z)
  | CbPath (states : list bool) (path : nat)
  | CbNone.

Inductive effect :=
  | EvCallback (peer_id : Z) (event : potr_event) (data : callback_data)
  | EvSendto (path : nat) (wire : list Z) (dest : endpoint)
  | EvTcpSend (path : nat) (wire : list Z)
  | EvHealthWake (path : nat)
  | EvBind (path : nat) (local : endpoint)
  | EvTcpCloseSignal
  | EvNullLock (h : handle).

Record world := World { w_ctx : potr_context; w_tick : nat }.

(** [None] is a fault: an access outside a buffer or through a null pointer, or
    an abort. *)
Definition M (A : Type) : Type := world -> option (A * world * list effect).

#[export] Instance M_ret : MRet M := fun A a w => Some (a, w, []).
#[export] Instance M_bind : MBind M := fun A B k m w =>
  match m w with
  | None => None
  | Some (a, w1, es1) =>
      match k a w1 with None => None | Some (b, w2, es2) => Some (b, w2, es1 ++ es2) end
  end.

Definition fault {A} : M A := fun _ => None.
Definition lift {A} (o : option A) : M A :=
  fun w => match o with Some a => Some (a, w, []) | None => None end.
Definition get_ctx : M potr_context := fun w => Some (w_ctx w, w, []).
Definition put_ctx (x : potr_context) : M unit := fun w => Some (tt, World x (w_tick w), []).
Definition emit (e : effect) : M unit := fun w => Some (tt, w, [e]).
Definition when (b : bool) (m : M unit) : M unit := if b then m else mret tt.

Definition holds (x : potr_context) (h : handle) : bool := bool_decide (h ∈ rt_handles (x_rt x)).

(** [cplat_local_lock_lock] on a mutex of the context that may not exist; its
    result is not looked at.  The call with a null pointer is an effect of its
    own, after which the section runs without the lock. *)
Definition lock_mutex (h : handle) : M unit :=
  x ← get_ctx; when (negb (holds x h)) (emit (EvNullLock h)).

(** One call into the environment. *)
Definition tick {A} (f : nat -> A) : M A :=
  fun w => Some (f (w_tick w), World (w_ctx w) (S (w_tick w)), []).

(** [for (i = a; i < a + n; i++) body(i)]. *)
Fixpoint for_range (a n : nat) (body : nat -> M unit) : M unit :=
  match n with O => mret tt | S n => body a;; for_range (S a) n body end.

(** A slot ([thread_recv_slot]) refers to the context itself or to one of its
    peers. *)
Inductive slot := SlotCtx | SlotPeer (i : nat).

Definition slot_is_peer (s : slot) : bool := match s with SlotCtx => false | SlotPeer _ => true end.

Definition find_peer (x : potr_context) (i : nat) : option potr_internal_peer_context :=
  ps ← x_peers x; ps !! i.

Definition put_peer (i : nat) (p : potr_internal_peer_context) : M unit :=
  x ← get_ctx;
  ps ← lift (x_peers x);
  if (i <? length ps)%nat then put_ctx (set_x_peers x (Some (<[i:=p]> ps))) else fault.

Definition get_peer (i : nat) : M potr_internal_peer_context :=
  x ← get_ctx; lift (find_peer x i).

Definition get_conn (s : slot) : M conn :=
  match s with
  | SlotCtx => x ← get_ctx; mret (x_conn x)
  | SlotPeer i => p ← get_peer i; mret (p_conn p)
  end.

Definition put_conn (s : slot) (c : conn) : M unit :=
  match s with
  | SlotCtx => x ← get_ctx; put_ctx (set_x_conn x c)
  | SlotPeer i => p ← get_peer i; put_peer i (Peer (p_peer_id p) (p_active p) c (p_n_paths p) (p_send_window_mutex p))
  end.

Definition modify_conn (s : slot) (f : conn -> conn) : M unit :=
  c ← get_conn s; put_conn s (f c).

(** [slot->peer_id]. *)
Definition slot_peer_id (s : slot) : M Z :=
  match s with
  | SlotCtx => mret POTR_PEER_NA
  | SlotPeer i => p ← get_peer i; mret (p_peer_id p)
  end.

(** [thread_recv_slot_init_ctx] and [thread_recv_slot_init_peer]. *)
Definition thread_recv_slot_init_ctx : slot := SlotCtx.
Definition thread_recv_slot_init_peer (i : nat) : slot := SlotPeer i.

Definition get_cfg : M service_config := x ← get_ctx; mret (x_cfg x).

(** [cplat_socket_sendto] on path [i]; its result. *)
Definition socket_sendto `{Platform} (i : nat) (wire : list Z) (dest : endpoint) : M bool :=
  ok ← tick send_ok;
  emit (EvSendto i wire dest);;
  mret ok.

(** [ctx->sock[i] == CPLAT_INVALID_SOCKET], an index outside the array faults. *)
Definition sock_valid (i : nat) : M bool := x ← get_ctx; lift (x_sock x !! i).

(** [copy_path_ping_state] and [fill_path_ping_state]. *)
Definition copy_path_ping_state (dst src : list Z) (count : nat) : list Z :=
  take count src ++ drop count dst.
Definition fill_path_ping_state (dst : list Z) (value : Z) (count : nat) : list Z :=
  replicate count value ++ drop count dst.

(** ** Well-formed contexts *)

Record cfg_ok (g : service_config) : Prop := {
  co_window : 2 <= window_size_cfg (x_global g) <= POTR_MAX_WINDOW_SIZE;
  co_payload : 64 <= max_payload_cfg (x_global g) <= POTR_MAX_PAYLOAD;
  co_message : max_payload_cfg (x_global g) <= max_message_size (x_global g);
  co_reorder : 0 <= reorder_timeout_ms (x_global g) < 4294967296;
  co_n_path : (x_n_path g <= POTR_MAX_PATH)%nat;
  co_src : length (x_src_addr_resolved g) = POTR_MAX_PATH;
  co_dst : length (x_dst_addr_resolved g) = POTR_MAX_PATH;
  co_peers : 0 <= x_max_peers g < 2147483648;
  co_crypto : x_crypto_buf_size g =
    (Z.to_nat (max_payload_cfg (x_global g)) + POTR_CRYPTO_TAG_SIZE)%nat
}.

(** The windows of a connection have the configured dimensions. *)
Definition win_dims (g : service_config) (w : potr_internal_window) : Prop :=
  win_window_size w = window_size_cfg (x_global g) /\
  win_max_payload w = max_payload_cfg (x_global g).

Definition POTR_NACK_DEDUP_SLOTS : nat := 8.

Record frag_ok (g : service_config) (f : frag_state) : Prop := {
  fo_buf : exists buf, frag_buf f = Some buf /\
    length buf = Z.to_nat (max_message_size (x_global g));
  fo_len : (frag_buf_len f <= Z.to_nat (max_message_size (x_global g)))%nat
}.

(** The connection is alive exactly when one of its paths is. *)
Record health_ok (h : health_state) : Prop := {
  ho_alive : health_alive h = existsb id (path_logical_alive h);
  ho_logical : length (path_logical_alive h) = POTR_MAX_PATH;
  ho_ping : length (path_ping_state h) = POTR_MAX_PATH;
  ho_remote : length (remote_path_ping_state h) = POTR_MAX_PATH;
  ho_recv_ts : length (path_last_recv_ts h) = POTR_MAX_PATH
}.

Record dedup_ok (d : dedup_state) : Prop := {
  do_len : length (nack_dedup_buf d) = POTR_NACK_DEDUP_SLOTS;
  do_next : 0 <= nack_dedup_next d < Z.of_nat POTR_NACK_DEDUP_SLOTS
}.

Record runtime_ok (r : runtime) : Prop := {
  ro_running : length (rt_running r) = POTR_MAX_PATH;
  ro_connect : length (connect_thread_running r) = POTR_MAX_PATH;
  ro_immediate : length (health_send_immediate r) = POTR_MAX_PATH;
  ro_first : length (tcp_first_pkt r) = POTR_MAX_PATH
}.

Section WellFormed.
Context `{CplatByteorder}.

(** On TCP the send window only numbers packets; otherwise it also holds
    the last packets for retransmission. *)
Definition send_window_ok (g : service_config) (w : potr_internal_window) : Prop :=
  win_dims g w /\
  if is_tcp_type (service_type (x_service g))
  then exists slots, repr nbo_len w slots
  else exists pkts, send_repr w pkts.

(** A packet of the receive window holds bytes, at most the protocol's
    maximum. *)
Definition slot_bytes (o : option (potr_packet (list Z))) : Prop :=
  match o with
  | Some c => Forall is_byte (pkt_payload c) /\ 0 <= pkt_payload_len c <= POTR_MAX_PAYLOAD
  | None => True
  end.

Definition recv_window_ok (g : service_config) (w : potr_internal_window) : Prop :=
  win_dims g w /\ exists slots, recv_repr w slots /\ Forall slot_bytes slots.

Lemma slot_bytes_empty n : Forall slot_bytes (replicate n None).
Proof. by apply Forall_replicate. Qed.

Record conn_ok (g : service_config) (c : conn) : Prop := {
  ok_send : send_window_ok g (c_send_window c);
  ok_recv : recv_window_ok g (c_recv_window c);
  ok_frag : frag_ok g (c_frag c);
  ok_health : health_ok (c_health c);
  ok_dedup : dedup_ok (c_dedup c);
  ok_reorder : 0 <= reorder_nack_num (c_reorder c) < 4294967296;
  ok_dest : length (c_dest_addr c) = POTR_MAX_PATH
}.

Record peer_ok (g : service_config) (p : potr_internal_peer_context) : Prop := {
  po_conn : conn_ok g (p_conn p);
  po_id : 0 < p_peer_id p < POTR_PEER_ALL
}.

(** The peer table: [n_peers] counts the active slots, their identifiers are
    distinct and none is [POTR_PEER_NA] or [POTR_PEER_ALL]. *)
Record peers_ok (g : service_config) (ps : list potr_internal_peer_context) (n : Z) : Prop := {
  pt_len : Z.of_nat (length ps) = x_max_peers g;
  pt_count : n = Z.of_nat (count_if p_active ps);
  pt_ok : forall i p, ps !! i = Some p -> p_active p = true -> peer_ok g p;
  pt_unique : forall i j p q, ps !! i = Some p -> ps !! j = Some q ->
    p_active p = true -> p_active q = true -> p_peer_id p = p_peer_id q -> i = j
}.

Record ctx_ok (x : potr_context) : Prop := {
  xo_cfg : cfg_ok (x_cfg x);
  xo_conn : conn_ok (x_cfg x) (x_conn x);
  xo_sock : length (x_sock x) = POTR_MAX_PATH;
  xo_port : length (x_peer_port x) = POTR_MAX_PATH;
  xo_fd : length (x_tcp_conn_fd x) = POTR_MAX_PATH;
  xo_ping_ms : length (x_tcp_last_ping_recv_ms x) = POTR_MAX_PATH;
  xo_running : length (x_health_running x) = POTR_MAX_PATH;
  xo_peers : match x_peers x with
             | Some ps => peers_ok (x_cfg x) ps (x_n_peers x)
             | None => x_is_multi_peer (x_cfg x) = false end;
  xo_next_id : 0 <= x_next_peer_id x < 4294967296;
  xo_rt : runtime_ok (x_rt x)
}.

Definition slot_conn (x : potr_context) (s : slot) : option conn :=
  match s with
  | SlotCtx => Some (x_conn x)
  | SlotPeer i => p ← find_peer x i; if p_active p then Some (p_conn p) else None
  end.

(** The slot refers to the context or to an active peer. *)
Definition slot_live (x : potr_context) (s : slot) : Prop := is_Some (slot_conn x s).

Definition with_conn (x : potr_context) (s : slot) (c : conn) : potr_context :=
  match s with
  | SlotCtx => set_x_conn x c
  | SlotPeer i =>
      match x_peers x, find_peer x i with
      | Some ps, Some p =>
          set_x_peers x (Some (<[i:=Peer (p_peer_id p) (p_active p) c (p_n_paths p) (p_send_window_mutex p)]> ps))
      | _, _ => x
      end
  end.

Lemma with_conn_peer x i c ps p :
  x_peers x = Some ps -> ps !! i = Some p ->
  with_conn x (SlotPeer i) c
  = set_x_peers x (Some (<[i:=Peer (p_peer_id p) (p_active p) c (p_n_paths p) (p_send_window_mutex p)]> ps)).
Proof. intros Hps Hp. unfold with_conn, find_peer. rewrite Hps. simpl. by rewrite Hp. Qed.

Lemma slot_conn_peer x i c :
  slot_conn x (SlotPeer i) = Some c ->
  exists ps p, x_peers x = Some ps /\ ps !! i = Some p /\ p_active p = true /\ p_conn p = c.
Proof.
  unfold slot_conn, find_peer. destruct (x_peers x) as [ps|]; [|done].
  cbn [mbind option_bind]. destruct (ps !! i) as [p|] eqn:Hp; [|done].
  cbn [mbind option_bind]. destruct (p_active p) eqn:Ha; [|done]. intros [= <-]. eauto 10.
Qed.

Lemma get_conn_run s w c :
  slot_conn (w_ctx w) s = Some c -> get_conn s w = Some (c, w, []).
Proof.
  destruct s as [|i]; intros Hs.
  - injection Hs as <-. done.
  - apply slot_conn_peer in Hs as (ps & p & Hps & Hp & _ & <-).
    unfold get_conn, get_peer, get_ctx, lift, find_peer, mbind, M_bind.
    rewrite Hps. cbn [mbind option_bind]. by rewrite Hp.
Qed.

Lemma slot_peer_id_run s w c :
  slot_conn (w_ctx w) s = Some c -> exists id, slot_peer_id s w = Some (id, w, []).
Proof.
  destruct s as [|i]; intros Hs; [by eexists|].
  apply slot_conn_peer in Hs as (ps & p & Hps & Hp & _ & <-). exists (p_peer_id p).
  unfold slot_peer_id, get_peer, get_ctx, lift, find_peer, mbind, M_bind.
  rewrite Hps. cbn [mbind option_bind]. by rewrite Hp.
Qed.

Lemma put_conn_run s w c c0 :
  slot_conn (w_ctx w) s = Some c0 ->
  put_conn s c w = Some (tt, World (with_conn (w_ctx w) s c) (w_tick w), []).
Proof.
  destruct s as [|i]; intros Hs; [done|].
  apply slot_conn_peer in Hs as (ps & p & Hps & Hp & _ & _).
  unfold put_conn, get_peer, put_peer, get_ctx, lift, find_peer, mbind, M_bind.
  rewrite Hps. cbn [mbind option_bind]. rewrite Hp. rewrite Hps.
  rewrite (proj2 (Nat.ltb_lt _ _)) by by eapply lookup_lt_Some.
  unfold put_ctx. by rewrite (with_conn_peer _ _ _ _ _ Hps Hp).
Qed.

Lemma with_conn_cfg x s c : x_cfg (with_conn x s c) = x_cfg x.
Proof. destruct s; simpl; [done|]. by destruct (x_peers x), (find_peer x i). Qed.

Lemma slot_conn_with x s c c0 :
  slot_conn x s = Some c0 -> slot_conn (with_conn x s c) s = Some c.
Proof.
  destruct s as [|i]; intros Hs; [done|].
  apply slot_conn_peer in Hs as (ps & p & Hps & Hp & Ha & _).
  rewrite (with_conn_peer _ _ _ _ _ Hps Hp). unfold slot_conn, find_peer.
  cbn [x_peers set_x_peers mbind option_bind].
  rewrite list_lookup_insert_eq by by eapply lookup_lt_Some. simpl. by rewrite Ha.
Qed.

Lemma slot_conn_ok x s c : ctx_ok x -> slot_conn x s = Some c -> conn_ok (x_cfg x) c.
Proof.
  intros Hx. destruct s as [|i]; intros Hs.
  - injection Hs as <-. by apply Hx.
  - apply slot_conn_peer in Hs as (ps & p & Hps & Hp & Ha & <-).
    pose proof (xo_peers _ Hx) as Hpt. rewrite Hps in Hpt. by eapply po_conn, pt_ok.
Qed.

Lemma with_conn_ok x s c c0 :
  ctx_ok x -> slot_conn x s = Some c0 -> conn_ok (x_cfg x) c -> ctx_ok (with_conn x s c).
Proof.
  intros Hx Hs Hc. destruct s as [|i].
  - destruct Hx. by split.
  - apply slot_conn_peer in Hs as (ps & p & Hps & Hp & Ha & _).
    rewrite (with_conn_peer _ _ _ _ _ Hps Hp).
    pose proof (xo_peers _ Hx) as Hpt. rewrite Hps in Hpt.
    destruct Hpt as [Hlen Hcnt Hok Huniq].
    assert (forall j q, <[i:=Peer (p_peer_id p) (p_active p) c (p_n_paths p) (p_send_window_mutex p)]> ps !! j
      = Some q -> exists q0, ps !! j = Some q0 /\ p_peer_id q = p_peer_id q0 /\
        p_active q = p_active q0 /\ (p_conn q = c \/ q = q0)) as Hlk.
    { intros j q [(<- & ->)|(_ & Hj)]%list_lookup_insert_cases; [exists p|exists q]; auto. }
    destruct Hx. split; try done. cbn [x_cfg x_peers x_n_peers set_x_peers]. split.
    + by rewrite length_insert.
    + pose proof (count_if_insert p_active ps i p
        (Peer (p_peer_id p) (p_active p) c (p_n_paths p) (p_send_window_mutex p)) Hp) as Hci. simpl in Hci. lia.
    + intros j q Hj Hq. destruct (Hlk j q Hj) as (q0 & Hj0 & Hid & Hact & Hor).
      rewrite Hact in Hq. destruct (Hok j q0 Hj0 Hq) as [Hco Hi]. split; [|by rewrite Hid].
      destruct Hor as [->| ->]; done.
    + intros j k q r Hj Hk Hq Hr Hid.
      destruct (Hlk j q Hj) as (q0 & Hj0 & Hid0 & Ha0 & _).
      destruct (Hlk k r Hk) as (r0 & Hk0 & Hid1 & Ha1 & _).
      apply (Huniq j k q0 r0); congruence.
Qed.
End WellFormed.

(** ** Total correctness of handlers

    [triple P m Q]: from every world satisfying [P], [m] does not fault and
    ends with a result, a world and effects satisfying [Q]. *)

Definition triple {A} (P : world -> Prop) (m : M A) (Q : A -> world -> list effect -> Prop) : Prop :=
  forall w, P w -> exists a w' es, m w = Some (a, w', es) /\ Q a w' es.

Lemma triple_ret {A} (a : A) P Q : (forall w, P w -> Q a w []) -> triple P (mret a) Q.
Proof. intros HQ w Hw. exists a, w, []. auto. Qed.

Lemma triple_conseq {A} (m : M A) (P P' : world -> Prop) (Q Q' : A -> world -> list effect -> Prop) :
  triple P m Q -> (forall w, P' w -> P w) -> (forall a w es, Q a w es -> Q' a w es) ->
  triple P' m Q'.
Proof. intros Hm HP HQ w Hw. destruct (Hm w (HP w Hw)) as (a & w' & es & ? & ?). eauto 10. Qed.

(** Sequencing when the postcondition does not speak of the effects. *)
Lemma triple_seq {A B} (m : M A) (k : A -> M B) P R (Q : B -> world -> Prop) :
  triple P m (fun a w _ => R a w) -> (forall a, triple (R a) (k a) (fun b w _ => Q b w)) ->
  triple P (m ≫= k) (fun b w _ => Q b w).
Proof.
  intros Hm Hk w Hw. destruct (Hm w Hw) as (a & w1 & es1 & H1 & HR).
  destruct (Hk a w1 HR) as (b & w2 & es2 & H2 & HQ).
  exists b, w2, (es1 ++ es2). unfold mbind, M_bind. by rewrite H1, H2.
Qed.

Lemma triple_pre {A} (m : M A) (P : world -> Prop) (Q : A -> world -> list effect -> Prop) :
  (forall w, P w -> triple (fun w' => w' = w) m Q) -> triple P m Q.
Proof. intros Hm w Hw. by apply (Hm w Hw w). Qed.

Lemma bind_run {A B} (m : M A) (k : A -> M B) w a w1 es1 :
  m w = Some (a, w1, es1) ->
  (m ≫= k) w = match k a w1 with
    None => None | Some (b, w2, es2) => Some (b, w2, es1 ++ es2) end.
Proof. intros Hm. unfold mbind, M_bind. by rewrite Hm. Qed.

Lemma bind_run_nil {A B} (m : M A) (k : A -> M B) w a w1 :
  m w = Some (a, w1, []) -> (m ≫= k) w = k a w1.
Proof. intros Hm. rewrite (bind_run _ _ _ _ _ _ Hm). by destruct (k a w1) as [[[? ?] ?]|]. Qed.

(** The two runs of a sequence that ended. *)
Lemma bind_inv {A B} (m : M A) (k : A -> M B) w b w' es :
  (m ≫= k) w = Some (b, w', es) ->
  exists a w1 e1 e2, m w = Some (a, w1, e1) /\ k a w1 = Some (b, w', e2) /\ es = e1 ++ e2.
Proof.
  unfold mbind, M_bind. destruct (m w) as [[[a w1] e1]|] eqn:H1; [|done].
  destruct (k a w1) as [[[b2 w2] e2]|] eqn:H2; [|done]. intros [= <- <- <-]. eauto 10.
Qed.

(** One step of each primitive. *)
Lemma ret_bind {A B} (a : A) (k : A -> M B) w : (mret a ≫= k) w = k a w.
Proof. by apply bind_run_nil. Qed.

Lemma get_ctx_bind {B} (k : potr_context -> M B) w : (get_ctx ≫= k) w = k (w_ctx w) w.
Proof. by apply bind_run_nil. Qed.

Lemma get_cfg_bind {B} (k : service_config -> M B) w : (get_cfg ≫= k) w = k (x_cfg (w_ctx w)) w.
Proof. by apply bind_run_nil. Qed.

Lemma put_ctx_bind {B} x (k : unit -> M B) w : (put_ctx x ≫= k) w = k tt (World x (w_tick w)).
Proof. by apply bind_run_nil. Qed.

Lemma tick_bind {A B} (f : nat -> A) (k : A -> M B) w :
  (tick f ≫= k) w = k (f (w_tick w)) (World (w_ctx w) (S (w_tick w))).
Proof. by apply bind_run_nil. Qed.

Lemma lift_bind {A B} (o : option A) a (k : A -> M B) w : o = Some a -> (lift o ≫= k) w = k a w.
Proof. intros ->. by apply bind_run_nil. Qed.

Lemma bind_assoc {A B C} (m : M A) (f : A -> M B) (g : B -> M C) w :
  ((m ≫= f) ≫= g) w = (m ≫= (fun a => f a ≫= g)) w.
Proof.
  unfold mbind, M_bind. destruct (m w) as [[[a w1] e1]|]; [|done].
  destruct (f a w1) as [[[b w2] e2]|]; [|done]. destruct (g b w2) as [[[c w3] e3]|]; [|done].
  by rewrite app_assoc.
Qed.

Lemma get_conn_bind {B} x s c t (k : conn -> M B) :
  slot_conn x s = Some c -> (get_conn s ≫= k) (World x t) = k c (World x t).
Proof. intros Hs. by apply bind_run_nil, get_conn_run. Qed.

Lemma put_conn_at x s c c0 t :
  slot_conn x s = Some c0 -> put_conn s c (World x t) = Some (tt, World (with_conn x s c) t, []).
Proof. apply (put_conn_run s (World x t) c c0). Qed.

Lemma put_conn_bind {B} x s c c0 t (k : unit -> M B) :
  slot_conn x s = Some c0 -> (put_conn s c ≫= k) (World x t) = k tt (World (with_conn x s c) t).
Proof. intros Hs. apply bind_run_nil. by rewrite (put_conn_run s (World x t) c c0 Hs). Qed.

Lemma modify_conn_run x s c t (f : conn -> conn) :
  slot_conn x s = Some c ->
  modify_conn s f (World x t) = Some (tt, World (with_conn x s (f c)) t, []).
Proof. intros Hs. unfold modify_conn. rewrite (get_conn_bind _ _ _ _ _ Hs). by rewrite (put_conn_run s (World x t) (f c) c Hs). Qed.

Lemma modify_conn_bind {B} x s c t (f : conn -> conn) (k : unit -> M B) :
  slot_conn x s = Some c ->
  (modify_conn s f ≫= k) (World x t) = k tt (World (with_conn x s (f c)) t).
Proof. intros Hs. by apply bind_run_nil, modify_conn_run. Qed.

Lemma with_conn_twice x s c c1 c0 :
  slot_conn x s = Some c0 -> with_conn (with_conn x s c1) s c = with_conn x s c.
Proof.
  destruct s as [|i]; intros Hs; [done|].
  apply slot_conn_peer in Hs as (ps & p & Hps & Hp & Ha & _).
  rewrite (with_conn_peer x i c1 ps p Hps Hp), (with_conn_peer x i c ps p Hps Hp).
  pose proof (lookup_lt_Some _ _ _ Hp).
  rewrite (with_conn_peer _ i c (<[i:=Peer (p_peer_id p) (p_active p) c1 (p_n_paths p) (p_send_window_mutex p)]> ps)
    (Peer (p_peer_id p) (p_active p) c1 (p_n_paths p) (p_send_window_mutex p))); [|done|by apply list_lookup_insert_eq].
  cbn. by rewrite list_insert_insert_eq.
Qed.

Lemma with_conn_same x s c : slot_conn x s = Some c -> with_conn x s c = x.
Proof.
  destruct s as [|i]; intros Hs.
  - injection Hs as <-. by destruct x.
  - apply slot_conn_peer in Hs as (ps & p & Hps & Hp & Ha & <-).
    rewrite (with_conn_peer x i _ ps p Hps Hp). rewrite list_insert_id; [by destruct x; cbn in *; subst|].
    rewrite Hp. by destruct p.
Qed.

Lemma slot_peer_id_with x s c c0 t pid :
  slot_conn x s = Some c0 -> slot_peer_id s (World x t) = Some (pid, World x t, []) ->
  slot_peer_id s (World (with_conn x s c) t) = Some (pid, World (with_conn x s c) t, []).
Proof.
  destruct s as [|i]; intros Hs Hid; [by injection Hid as <-|].
  apply slot_conn_peer in Hs as (ps & p & Hps & Hp & Ha & _).
  unfold slot_peer_id, get_peer, get_ctx, lift, find_peer, mbind, M_bind in *.
  cbn [w_ctx] in *. rewrite (with_conn_peer _ _ _ _ _ Hps Hp). rewrite Hps in Hid.
  cbn [x_peers set_x_peers mbind option_bind] in *. rewrite Hp in Hid.
  rewrite list_lookup_insert_eq by by eapply lookup_lt_Some. injection Hid as <-. done.
Qed.

(** ** Fresh windows, and an example context *)

Section Fresh.
Context `{CplatByteorder}.

Lemma fresh_send_window_ok g w0 s w :
  cfg_ok g -> 0 <= s < 4294967296 -> win_packets w0 = None ->
  window_init (true, true, true) w0 s (window_size_cfg (x_global g)) (max_payload_cfg (x_global g))
    = (POTR_OK, w) -> send_window_ok g w.
Proof.
  intros [] Hs Hw0 Hi. unfold POTR_MAX_WINDOW_SIZE in *.
  destruct (fresh_send_repr (true, true, true) w0 s (window_size_cfg (x_global g))
    (max_payload_cfg (x_global g))) as (w' & Hi' & _ & Hsz & Hm & Hr); [lia|done..|].
  rewrite Hi in Hi'. injection Hi' as <-. split; [done|].
  destruct (is_tcp_type _); [|by exists []]. destruct Hr as (_ & _ & Hr). eauto.
Qed.

Lemma init_send_window_ok g alloc w0 s rc w :
  cfg_ok g -> 0 <= s < 4294967296 -> win_packets w0 = None ->
  window_init alloc w0 s (window_size_cfg (x_global g)) (max_payload_cfg (x_global g)) = (rc, w) ->
  (rc = POTR_OK /\ send_window_ok g w) \/ rc = POTR_ERR_OUT_OF_MEMORY.
Proof.
  intros Hg Hs Hw Hi.
  assert (alloc = (true, true, true) \/ rc = POTR_ERR_OUT_OF_MEMORY) as [->|?]; [|left|by right].
  - unfold window_init in Hi. rewrite Hw in Hi.
    destruct alloc as [[[] []] []]; injection Hi as <- <-; auto.
  - assert (rc = POTR_OK) as ->.
    { unfold window_init in Hi. rewrite Hw in Hi. by injection Hi as <- <-. }
    split; [done|]. by eapply fresh_send_window_ok.
Qed.

Lemma init_recv_window_ok g alloc w0 s rc w :
  cfg_ok g -> 0 <= s < 4294967296 ->
  win_packets w0 = None \/ recv_window_ok g w0 ->
  window_init alloc w0 s (window_size_cfg (x_global g)) (max_payload_cfg (x_global g)) = (rc, w) ->
  (rc = POTR_OK /\ recv_window_ok g w /\ win_base_seq w = s /\ win_next_seq w = s) \/
  (rc = POTR_ERR_OUT_OF_MEMORY /\ win_packets w0 = None /\ win_packets w = None).
Proof.
  intros [] Hs Hw0 Hi. unfold POTR_MAX_WINDOW_SIZE in *.
  destruct (window_init_spec alloc w0 s (window_size_cfg (x_global g))
    (max_payload_cfg (x_global g)) rc w) as [(-> & Hb & Hsz & Hm & Hr)|(-> & Ha & Hw)];
    [lia|done| |done| |].
  - destruct Hw0 as [?|(_ & sl & (_ & Hr & _) & _)]; eauto.
  - left. split; [done|]. split; [split; [done|eauto using slot_bytes_empty]|]. split; [done|].
    destruct Hr as [-> _]. done.
  - right. split; [done|]. split; [|done]. destruct Hw0 as [?|((Hd1 & Hd2) & sl & Hr & _)]; [done|].
    exfalso. destruct (recv_repr_shape _ _ Hr) as (ps & vs & pool & Hsh & _).
    unfold window_init in Hi. rewrite (ws_packets _ _ _ _ Hsh), Hd1, Hd2, !Z.eqb_refl in Hi.
    by injection Hi as ?.
Qed.
End Fresh.

(** The two parts of a run. *)
Definition world_after {A} (m : M A) (w : world) : world :=
  match m w with Some (_, w', _) => w' | None => w end.

Definition effects_of {A} (m : M A) (w : world) : list effect :=
  match m w with Some (_, _, es) => es | None => [] end.

Definition example_service (t : potr_type) (enc : bool) : potr_service_def :=
  ServiceDef 10 t 5000 0 1 0 [] [] (replicate 4 []) (replicate 4 []) (replicate 32 7) enc 2 0 0 0 0.
Definition example_global : potr_global_config := GlobalConfig 2 64 50 100 4 0 300 0 300 1000.
Definition example_config (t : potr_type) (enc : bool) : service_config :=
  ServiceConfig true (example_service t enc) example_global 1000 300 POTR_ROLE_RECEIVER 1
    (bool_decide (t = POTR_TYPE_UNICAST_BIDIR_N1)) 2 (replicate 4 0) (replicate 4 0) 200 80.
Definition ts0 : timespec := Timespec 0 0.
Definition fresh_window (s : Z) : potr_internal_window :=
  snd (window_init (true, true, true) no_window s 2 64).
Definition example_conn : conn :=
  Conn (SessionState 77 (Timespec 1 0) 0 false ts0) (fresh_window 0) (fresh_window 0) false
    (FragState (Some (replicate 100 0)) 0 false)
    (HealthState false (replicate 4 false) (replicate 4 0) (replicate 4 0) ts0 (replicate 4 ts0))
    (DedupState (replicate 8 (0, 0)) 0) (ReorderState false 0 ts0) (FinState false 0)
    (replicate 4 endpoint_clear).
Definition example_ctx (t : potr_type) (enc : bool) : potr_context :=
  PotrContext (example_config t enc) example_conn (replicate 4 true) (replicate 4 0)
    (Some [Peer 1 true example_conn 0 true; Peer 0 false example_conn 0 false]) 1 2 (replicate 4 true)
    (TcpCloseState false false 0 0) (replicate 4 0) (replicate 4 true) 0 0
    (TcpLinkState 1 false false 0 (Timespec 0 0))
    (Runtime [HCallbackMutex] true (replicate 4 true) (replicate 4 true) (replicate 4 false) (replicate 4 [])).

Lemma example_cfg_ok t enc : cfg_ok (example_config t enc).
Proof.
  split; unfold POTR_MAX_WINDOW_SIZE, POTR_MAX_PAYLOAD, POTR_MAX_PATH; first [reflexivity | simpl; lia].
Qed.

Lemma example_conn_ok `{CplatByteorder} t enc : conn_ok (example_config t enc) example_conn.
Proof.
  pose proof (example_cfg_ok t enc) as Hg. split.
  - eapply (fresh_send_window_ok _ no_window 0); [done|lia|done|reflexivity].
  - destruct (init_recv_window_ok (example_config t enc) (true, true, true) no_window 0 POTR_OK
      (fresh_window 0)) as [(_ & ? & _)|(? & _)]; [done|lia|by left|reflexivity|done|done].
  - split; [by eexists|]. simpl. lia.
  - by split.
  - split; [done|]. vm_compute; done.
  - cbn. lia.
  - done.
Qed.

Lemma example_ctx_ok `{CplatByteorder} t enc : ctx_ok (example_ctx t enc).
Proof.
  pose proof (example_cfg_ok t enc) as Hg. pose proof (example_conn_ok t enc) as Hc.
  split; try done. cbn [example_ctx x_peers x_cfg x_n_peers].
  split; [reflexivity|reflexivity| |].
  - intros [|[|i]] p Hp Ha; try done; injection Hp as <-; done.
  - intros [|[|i]] [|[|j]] p q Hp Hq Ha Hb Hid; try done; cbn in Hp, Hq; simplify_eq.
Qed.

(** ** A platform that satisfies the contract

    Time advances by one second per call, every call succeeds, sealing appends
    a constant tag and compression stores. *)

Definition toy_tag : list Z := replicate POTR_CRYPTO_TAG_SIZE 165.
Definition is_byteb (b : Z) : bool := (0 <=? b) && (b <? 256).

Definition toy_encrypt (cap : nat) (key nonce aad pt : list Z) : option (list Z) :=
  if forallb is_byteb pt && (length pt + POTR_CRYPTO_TAG_SIZE <=? cap)%nat
  then Some (pt ++ toy_tag) else None.

Definition toy_decrypt (cap : nat) (key nonce aad ct : list Z) : option (list Z) :=
  let n := (length ct - POTR_CRYPTO_TAG_SIZE)%nat in
  if forallb is_byteb ct && bool_decide (drop n ct = toy_tag) && (n <=? cap)%nat
  then Some (take n ct) else None.

Definition toy_cmp (t u : timespec) : Z :=
  if tv_sec t =? tv_sec u then tv_nsec t - tv_nsec u else tv_sec t - tv_sec u.

Definition toy_store (cap : nat) (src : list Z) : option (list Z) :=
  if (length src <=? cap)%nat then Some src else None.

Definition toy_platform : Platform := {|
  clock_monotonic n := Timespec (Z.of_nat n + 1) 0;
  clock_monotonic_ms n := (Z.of_nat n + 1) * 1000;
  clock_realtime n := Timespec (Z.of_nat n + 1) 0;
  random_u32 n := Some (u32 (Z.of_nat n));
  alloc_ok _ := true;
  send_ok _ := true;
  writable _ := true;
  error_cause _ := CPLAT_CAUSE_OTHER;
  cplat_timespec_cmp := toy_cmp;
  cplat_timespec_diff_ms t u := (tv_sec t - tv_sec u) * 1000;
  cplat_timespec_add_ms t ms := Timespec (tv_sec t + ms / 1000) (tv_nsec t);
  cplat_crypto_encrypt := toy_encrypt;
  cplat_crypto_decrypt := toy_decrypt;
  cplat_compress := toy_store;
  cplat_decompress := toy_store
|}.

Lemma forallb_is_byte l : forallb is_byteb l = true <-> Forall is_byte l.
Proof.
  unfold is_byteb, is_byte. induction l as [|b l IH]; simpl; [split; constructor|].
  rewrite andb_true_iff, IH. split.
  - intros [Hb Hl]. constructor; [lia|done].
  - intros Hl. inversion Hl; subst. split; [lia|done].
Qed.

Lemma toy_decrypt_inv cap key nonce aad ct pt :
  toy_decrypt cap key nonce aad ct = Some pt ->
  ct = pt ++ toy_tag /\ Forall is_byte ct /\ (length pt <= cap)%nat.
Proof.
  unfold toy_decrypt. destruct (_ && _) eqn:Hc; [|done]. intros [= <-].
  rewrite !andb_true_iff in Hc. destruct Hc as [[Hb Hd] Hl].
  apply forallb_is_byte in Hb. apply bool_decide_eq_true_1 in Hd. apply Nat.leb_le in Hl.
  rewrite length_take. split; [|split; [done|lia]]. rewrite <- Hd. by rewrite take_drop.
Qed.

Lemma toy_laws : @PlatformLaws toy_platform.
Proof.
  split.
  - intros [a b] [c d]. cbn. unfold toy_cmp. cbn. destruct (Z.eqb_spec a c); split; intros Hx;
      try (injection Hx; lia); f_equal; lia.
  - intros [a b] [c d]. cbn. unfold toy_cmp. cbn. destruct (Z.eqb_spec a c), (Z.eqb_spec c a); lia.
  - intros [a b] [c d] [e f]. cbn. unfold toy_cmp. cbn.
    destruct (Z.eqb_spec a c), (Z.eqb_spec c e), (Z.eqb_spec a e); lia.
  - intros cap key nonce aad pt ct. cbn. unfold toy_encrypt. destruct (_ && _) eqn:Hc; [|done].
    intros [= <-]. bool_hyps. rewrite length_app. unfold toy_tag. rewrite length_replicate. lia.
  - intros cap key nonce aad ct pt (-> & _ & Hl)%toy_decrypt_inv.
    rewrite length_app. unfold toy_tag. by rewrite length_replicate.
  - intros cap cap' key nonce aad pt ct. cbn. unfold toy_encrypt, toy_decrypt.
    destruct (_ && _) eqn:Hc; [|done]. intros [= <-] Hl. bool_hyps.
    assert (length (pt ++ toy_tag) - POTR_CRYPTO_TAG_SIZE = length pt)%nat as ->.
    { rewrite length_app. unfold toy_tag. rewrite length_replicate. lia. }
    rewrite drop_app_length, take_app_length, bool_decide_true by done.
    rewrite (proj2 (Nat.leb_le _ _)) by done.
    rewrite (proj2 (forallb_is_byte _)); [done|]. apply Forall_app.
    split; [by apply forallb_is_byte|]. apply forallb_is_byte. reflexivity.
  - intros cap key nonce aad pt ct. cbn. unfold toy_encrypt. destruct (_ && _) eqn:Hc; [|done].
    intros [= <-]. apply andb_true_iff in Hc as [Hb _]. apply Forall_app.
    split; apply forallb_is_byte; [done|reflexivity].
  - intros cap key nonce aad ct pt (-> & Hb & _)%toy_decrypt_inv. by apply Forall_app in Hb as [? _].
  - intros cap src dst. cbn. unfold toy_store. destruct (_ <=? _)%nat eqn:Hc; [|done].
    intros [= <-]. by apply Nat.leb_le.
  - intros cap cap' src dst. cbn. unfold toy_store. destruct (_ <=? _)%nat; [|done].
    intros [= <-] Hl. by rewrite (proj2 (Nat.leb_le _ _)).
  - intros cap src dst. cbn. unfold toy_store. destruct (_ <=? _)%nat; [|done]. by intros [= <-].
Qed.

(** ** Handlers that only produce effects *)

Section Quiet.
(** [m] never faults and changes nothing but the tick counter. *)
Definition quiet {A} (x : potr_context) (m : M A) : Prop :=
  forall t, exists a t' es, m (World x t) = Some (a, World x t', es).

Lemma quiet_ret {A} x (a : A) : quiet x (mret a).
Proof. intros t. by eexists _, _, _. Qed.

Lemma quiet_bind {A B} x (m : M A) (k : A -> M B) :
  quiet x m -> (forall a, quiet x (k a)) -> quiet x (m ≫= k).
Proof.
  intros Hm Hk t. destruct (Hm t) as (a & t1 & es & H1). destruct (Hk a t1) as (b & t2 & es2 & H2).
  eexists b, t2, _. by rewrite (bind_run _ _ _ _ _ _ H1), H2.
Qed.

Lemma quiet_for x body n a :
  (forall k, (a <= k < a + n)%nat -> quiet x (body k)) -> quiet x (for_range a n body).
Proof.
  revert a. induction n as [|n IH]; intros a Hb; [apply quiet_ret|]. cbn [for_range].
  apply quiet_bind; [apply Hb; lia|]. intros _. apply IH. intros k Hk. apply Hb. lia.
Qed.

Lemma quiet_sendto `{Platform} x k wire d : quiet x (socket_sendto k wire d).
Proof. intros t. by eexists _, _, _. Qed.

Lemma quiet_emit x e : quiet x (emit e).
Proof. intros t. by eexists _, _, _. Qed.

Lemma quiet_get_ctx_bind {B} x (k : potr_context -> M B) : quiet x (k x) -> quiet x (get_ctx ≫= k).
Proof. intros Hk t. rewrite get_ctx_bind. apply Hk. Qed.

Lemma quiet_get_cfg_bind {B} x (k : service_config -> M B) :
  quiet x (k (x_cfg x)) -> quiet x (get_cfg ≫= k).
Proof. intros Hk t. rewrite get_cfg_bind. apply Hk. Qed.

Lemma quiet_lift_bind {A B} x (o : option A) (k : A -> M B) a :
  o = Some a -> quiet x (k a) -> quiet x (lift o ≫= k).
Proof. intros Ho Hk t. rewrite (lift_bind _ _ _ _ Ho). apply Hk. Qed.

Lemma quiet_tick {A} x (f : nat -> A) : quiet x (tick f).
Proof. intros t. by eexists _, _, _. Qed.

Lemma quiet_when x b m : (b = true -> quiet x m) -> quiet x (when b m).
Proof. destruct b; intros Hm; [by apply Hm|apply quiet_ret]. Qed.

Lemma quiet_sock_valid x k :
  (k < length (x_sock x))%nat -> quiet x (sock_valid k).
Proof.
  intros Hk. destruct (lookup_lt_is_Some_2 _ _ Hk) as [v Hv].
  apply quiet_get_ctx_bind. intros t. unfold lift. rewrite Hv. by eexists _, _, _.
Qed.

Lemma lock_mutex_run x t h :
  lock_mutex h (World x t) = Some (tt, World x t, if holds x h then [] else [EvNullLock h]).
Proof. unfold lock_mutex. rewrite get_ctx_bind. cbn [w_ctx]. by destruct (holds x h). Qed.

Lemma quiet_lock_mutex x h : quiet x (lock_mutex h).
Proof. intros t. rewrite lock_mutex_run. by eexists _, _, _. Qed.
End Quiet.

#[export] Hint Resolve quiet_ret quiet_sendto quiet_emit quiet_tick quiet_lock_mutex : porter.

(** The same, with every effect satisfying [P]. *)
Section Calm.
Context (P : effect -> Prop) (x : potr_context).

Definition calm {A} (m : M A) : Prop :=
  forall t, exists a t' es, m (World x t) = Some (a, World x t', es) /\ Forall P es.

Lemma calm_ret {A} (a : A) : calm (mret a).
Proof. intros t. by eexists _, _, _. Qed.

Lemma calm_bind {A B} (m : M A) (k : A -> M B) : calm m -> (forall a, calm (k a)) -> calm (m ≫= k).
Proof.
  intros Hm Hk t. destruct (Hm t) as (a & t1 & es & H1 & He).
  destruct (Hk a t1) as (b & t2 & es2 & H2 & He2).
  eexists b, t2, _. rewrite (bind_run _ _ _ _ _ _ H1), H2. split; [done|]. by apply Forall_app.
Qed.

Lemma calm_for body n a :
  (forall k, (a <= k < a + n)%nat -> calm (body k)) -> calm (for_range a n body).
Proof.
  revert a. induction n as [|n IH]; intros a Hb; [apply calm_ret|]. cbn [for_range].
  apply calm_bind; [apply Hb; lia|]. intros _. apply IH. intros k Hk. apply Hb. lia.
Qed.

Lemma calm_emit e : P e -> calm (emit e).
Proof. intros He t. eexists _, _, _. split; [done|]. by constructor. Qed.

Lemma calm_tick {A} (f : nat -> A) : calm (tick f).
Proof. intros t. by eexists _, _, _. Qed.

Lemma calm_sendto `{Platform} k wire d : P (EvSendto k wire d) -> calm (socket_sendto k wire d).
Proof.
  intros He. apply calm_bind; [apply calm_tick|]. intros ok.
  apply calm_bind; [by apply calm_emit|]. intros _. apply calm_ret.
Qed.

Lemma calm_get_ctx_bind {B} (k : potr_context -> M B) : calm (k x) -> calm (get_ctx ≫= k).
Proof. intros Hk t. rewrite get_ctx_bind. apply Hk. Qed.

Lemma calm_lift_bind {A B} (o : option A) (k : A -> M B) a :
  o = Some a -> calm (k a) -> calm (lift o ≫= k).
Proof. intros Ho Hk t. rewrite (lift_bind _ _ _ _ Ho). apply Hk. Qed.

Lemma calm_when b m : (b = true -> calm m) -> calm (when b m).
Proof. destruct b; intros Hm; [by apply Hm|apply calm_ret]. Qed.

Lemma calm_sock_valid k : (k < length (x_sock x))%nat -> calm (sock_valid k).
Proof.
  intros Hk. destruct (lookup_lt_is_Some_2 _ _ Hk) as [v Hv].
  apply calm_get_ctx_bind. intros t. unfold lift. rewrite Hv. by eexists _, _, _.
Qed.
End Calm.

#[export] Hint Resolve calm_ret calm_tick : porter.

(** ** Handlers that preserve the invariant *)

Section Keeps.
Context `{CplatByteorder}.

(** A well-formed world of a service configured by [g]; in [good] the slot
    [s] is moreover in use. *)
Definition fine (g : service_config) (w : world) : Prop := ctx_ok (w_ctx w) /\ x_cfg (w_ctx w) = g.
Definition good (g : service_config) (s : slot) (w : world) : Prop :=
  fine g w /\ slot_live (w_ctx w) s.

Definition keeps {A} (I : world -> Prop) (m : M A) : Prop := triple I m (fun _ w _ => I w).

(** The result additionally satisfies [R]. *)
Definition yields {A} (I : world -> Prop) (m : M A) (R : A -> Prop) : Prop :=
  triple I m (fun a w _ => I w /\ R a).

Lemma keeps_ret {A} I (a : A) : keeps I (mret a).
Proof. by apply triple_ret. Qed.

Lemma keeps_bind {A B} I (m : M A) (k : A -> M B) :
  keeps I m -> (forall a, keeps I (k a)) -> keeps I (m ≫= k).
Proof. intros Hm Hk. eapply triple_seq; [apply Hm|]. intros a. apply Hk. Qed.

Lemma yields_ret {A} I (a : A) (R : A -> Prop) : R a -> yields I (mret a) R.
Proof. intros HR. apply triple_ret. auto. Qed.

Lemma yields_bind {A B} I (m : M A) (k : A -> M B) R (Q : B -> Prop) :
  yields I m R -> (forall a, R a -> yields I (k a) Q) -> yields I (m ≫= k) Q.
Proof.
  intros Hm Hk. eapply triple_seq; [apply Hm|]. intros a w [Hw Ha]. by apply (Hk a Ha w).
Qed.

Lemma keeps_bind_yields {A B} I (m : M A) (k : A -> M B) R :
  yields I m R -> (forall a, R a -> keeps I (k a)) -> keeps I (m ≫= k).
Proof.
  intros Hm Hk. eapply triple_seq; [apply Hm|]. intros a w [Hw Ha]. by apply (Hk a Ha w).
Qed.

Lemma keeps_yields {A} I (m : M A) : keeps I m -> yields I m (fun _ => True).
Proof. intros Hm. eapply triple_conseq; [apply Hm|done|]. auto. Qed.

Lemma yields_keeps {A} I (m : M A) R : yields I m R -> keeps I m.
Proof. intros Hm. eapply triple_conseq; [apply Hm|done|]. by intros a w es [? _]. Qed.

Lemma keeps_lift_bind {A B} I (o : option A) a (k : A -> M B) :
  o = Some a -> keeps I (k a) -> keeps I (lift o ≫= k).
Proof.
  intros Ho Hk w Hw. rewrite (lift_bind _ _ _ _ Ho). by apply Hk.
Qed.

Lemma keeps_when I b m : (b = true -> keeps I m) -> keeps I (when b m).
Proof. destruct b; intros Hm; [by apply Hm|apply keeps_ret]. Qed.

Lemma keeps_for I body n a :
  (forall k, (a <= k < a + n)%nat -> keeps I (body k)) -> keeps I (for_range a n body).
Proof.
  revert a. induction n as [|n IH]; intros a Hb; [apply keeps_ret|]. cbn [for_range].
  apply keeps_bind; [apply Hb; lia|]. intros _. apply IH. intros k Hk. apply Hb. lia.
Qed.

Lemma keeps_tick {A} g s (f : nat -> A) : keeps (good g s) (tick f).
Proof. intros [x t] Hw. eexists _, _, _. split; [done|]. done. Qed.

Lemma fine_tick {A} g (f : nat -> A) : keeps (fine g) (tick f).
Proof. intros [x t] Hw. eexists _, _, _. split; [done|]. done. Qed.

Lemma keeps_emit I e : keeps I (emit e).
Proof. intros w Hw. by eexists _, _, _. Qed.

Lemma keeps_get_ctx_bind {B} g s (k : potr_context -> M B) :
  (forall x, ctx_ok x -> x_cfg x = g -> slot_live x s -> keeps (good g s) (k x)) ->
  keeps (good g s) (get_ctx ≫= k).
Proof. intros Hk w Hw. rewrite get_ctx_bind. destruct Hw as [[? ?] ?]. apply Hk; done. Qed.

Lemma triple_get_cfg_bind {B} g s (k : service_config -> M B) Q :
  triple (good g s) (k g) Q -> triple (good g s) (get_cfg ≫= k) Q.
Proof. intros Hk w Hw. rewrite get_cfg_bind. rewrite (proj2 (proj1 Hw)). by apply Hk. Qed.

Lemma keeps_get_cfg_bind {B} g s (k : service_config -> M B) :
  keeps (good g s) (k g) -> keeps (good g s) (get_cfg ≫= k).
Proof. apply triple_get_cfg_bind. Qed.

Lemma fine_get_cfg_bind {B} g (k : service_config -> M B) :
  keeps (fine g) (k g) -> keeps (fine g) (get_cfg ≫= k).
Proof. intros Hk w Hw. rewrite get_cfg_bind. rewrite (proj2 Hw). by apply Hk. Qed.

Lemma fine_cfg_ok g w : fine g w -> cfg_ok g.
Proof. intros [[] <-]. done. Qed.

Lemma triple_get_conn_bind {B} g s (k : conn -> M B) Q :
  (forall c, conn_ok g c -> triple (good g s) (k c) Q) -> triple (good g s) (get_conn s ≫= k) Q.
Proof.
  intros Hk [x t] Hw. pose proof Hw as [[Hx Hg] [c Hs]]. cbn [w_ctx] in *.
  rewrite (get_conn_bind _ _ _ _ _ Hs). apply Hk; [|done]. subst g. by eapply slot_conn_ok.
Qed.

Lemma keeps_put_conn g s c : conn_ok g c -> keeps (good g s) (put_conn s c).
Proof.
  intros Hc [x t] [[Hx Hg] [c0 Hs]]. cbn [w_ctx] in *. rewrite (put_conn_at _ _ _ _ _ Hs).
  eexists _, _, _. split; [done|]. split; [split|]; cbn [w_ctx].
  - eapply with_conn_ok; [done..|]. by rewrite Hg.
  - by rewrite with_conn_cfg.
  - eexists. by eapply slot_conn_with.
Qed.

Lemma keeps_modify_conn g s f :
  (forall c, conn_ok g c -> conn_ok g (f c)) -> keeps (good g s) (modify_conn s f).
Proof.
  intros Hf. apply triple_get_conn_bind. intros c Hc. by apply keeps_put_conn, Hf.
Qed.

Lemma keeps_quiet {A} g s (m : M A) :
  (forall x, ctx_ok x -> x_cfg x = g -> slot_live x s -> quiet x m) -> keeps (good g s) m.
Proof.
  intros Hq [x t] Hw. pose proof Hw as [[Hx Hg] Hs]. destruct (Hq x Hx Hg Hs t) as (a & t' & es & Hr).
  exists a, (World x t'), es. done.
Qed.

Lemma good_fine g s w : good g s w -> fine g w.
Proof. by intros [? _]. Qed.
End Keeps.

Ltac conn_solve :=
  match goal with
  | Hc : conn_ok _ ?c |- conn_ok _ _ =>
      pose proof Hc as [?Hcs ?Hcr ?Hcf ?Hch ?Hcd ?Hco ?Hce]; split; cbn [c_send_window c_recv_window c_frag c_health c_dedup c_reorder
        c_dest_addr set_session set_send_window set_recv_window set_send_has_data set_frag set_health
        set_dedup set_reorder set_fin set_dest_addr set_reorder_pending reorder_nack_num]; try done
  end.

#[export] Hint Resolve keeps_ret keeps_tick keeps_emit : porter.
