(* ===== verification/PathEvent.v ===== *)
(** Connection and path events: [potr_path_event.c].  The logical state of the
    paths is replaced as a whole; the differences become PATH_CONNECTED and
    PATH_DISCONNECTED events, and a change of the connection as a whole becomes
    one CONNECTED or DISCONNECTED event after them. *)

From stdpp Require Import base list numbers option.
From Stdlib Require Import ZArith Lia ZifyBool.
From S2P Require Import Prelude Types Packet Window Context.
Local Open Scope Z_scope.
Local Open Scope porter_scope.

Definition path_state_is_normal (state : Z) : bool := state =? POTR_PING_STATE_NORMAL.

Definition any_path_alive (states : list bool) : bool := existsb id (take POTR_MAX_PATH states).

Record potr_internal_prepared_path_events := Prepared {
  final_states : list bool;
  changed : list (nat * potr_event);
  session_event : option potr_event
}.

Definition potr_internal_callback_emit_locked (peer_id : Z) (event : potr_event)
    (data : callback_data) : M unit :=
  g ← get_cfg; when (x_callback g) (emit (EvCallback peer_id event data)).

Definition potr_internal_callback_emit (peer_id : Z) (event : potr_event)
    (data : callback_data) : M unit :=
  g ← get_cfg;
  if x_callback g then potr_internal_callback_emit_locked peer_id event data else mret tt.

Definition potr_internal_zero_path_states : list bool := replicate POTR_MAX_PATH false.

(** Loops over the paths that fill [states]. *)
Definition fill_states (f : nat -> option bool) : option (list bool) :=
  mapM f (seq 0 POTR_MAX_PATH).

Definition potr_internal_copy_oneway_path_states (h : health_state) : option (list bool) :=
  fill_states (fun k => s ← path_ping_state h !! k; Some (path_state_is_normal s)).

Definition potr_internal_copy_bidir_udp_path_states (h : health_state) : option (list bool) :=
  fill_states (fun k =>
    s ← path_ping_state h !! k;
    if path_state_is_normal s
    then r ← remote_path_ping_state h !! k; Some (path_state_is_normal r)
    else Some false).

(** The same loop over the arrays of a peer. *)
Definition potr_internal_copy_bidir_n1_path_states (p : potr_internal_peer_context)
    : option (list bool) :=
  fill_states (fun k =>
    s ← path_ping_state (c_health (p_conn p)) !! k;
    if path_state_is_normal s
    then r ← remote_path_ping_state (c_health (p_conn p)) !! k; Some (path_state_is_normal r)
    else Some false).

Definition potr_internal_copy_tcp_path_states (x : potr_context) : option (list bool) :=
  let h := c_health (x_conn x) in
  fill_states (fun k =>
    fd ← x_tcp_conn_fd x !! k;
    if fd : bool then
      s ← path_ping_state h !! k;
      if path_state_is_normal s
      then r ← remote_path_ping_state h !! k; Some (path_state_is_normal r)
      else Some false
    else Some false).

(** The loop over [path_logical_alive]: the changed paths and their events. *)
Fixpoint changed_paths (k : nat) (old next : list bool) : list (nat * potr_event) :=
  match old, next with
  | o :: old, n :: next =>
      if bool_decide (o = n) then changed_paths (S k) old next
      else (k, if n : bool then POTR_EVENT_PATH_CONNECTED else POTR_EVENT_PATH_DISCONNECTED)
             :: changed_paths (S k) old next
  | _, _ => []
  end.

(** The body shared by the two functions below. *)
Definition sync_path_state (h : health_state) (next : list bool)
    : potr_internal_prepared_path_events * health_state :=
  let old_alive := health_alive h in
  let new_alive := any_path_alive next in
  (Prepared next (changed_paths 0 (path_logical_alive h) next)
     (if bool_decide (old_alive = new_alive) then None
      else Some (if new_alive then POTR_EVENT_CONNECTED else POTR_EVENT_DISCONNECTED)),
   HealthState new_alive next (path_ping_state h) (remote_path_ping_state h)
     (last_recv_ts h) (path_last_recv_ts h)).

Definition potr_internal_sync_service_path_state_locked (next : list bool)
    : M potr_internal_prepared_path_events :=
  c ← get_conn SlotCtx;
  let '(prepared, h) := sync_path_state (c_health c) next in
  put_conn SlotCtx (set_health c h);;
  mret prepared.

Definition potr_internal_sync_peer_path_state_locked (i : nat) (next : list bool)
    : M potr_internal_prepared_path_events :=
  c ← get_conn (SlotPeer i);
  let '(prepared, h) := sync_path_state (c_health c) next in
  put_conn (SlotPeer i) (set_health c h);;
  mret prepared.

Fixpoint emit_changed (peer_id : Z) (states : list bool) (ch : list (nat * potr_event)) : M unit :=
  match ch with
  | [] => mret tt
  | (k, ev) :: ch =>
      potr_internal_callback_emit_locked peer_id ev (CbPath states k);;
      emit_changed peer_id states ch
  end.

Definition emit_path_events (peer_id : Z) (p : potr_internal_prepared_path_events) : M unit :=
  emit_changed peer_id (final_states p) (changed p);;
  match session_event p with
  | Some ev => potr_internal_callback_emit_locked peer_id ev CbNone
  | None => mret tt
  end.

Definition potr_internal_emit_service_path_events_locked
    (p : potr_internal_prepared_path_events) : M unit := emit_path_events POTR_PEER_NA p.

Definition potr_internal_emit_peer_path_events_locked (i : nat)
    (p : potr_internal_prepared_path_events) : M unit :=
  pe ← get_peer i; emit_path_events (p_peer_id pe) p.

(** Synchronise a slot and emit what changed: the sequence every caller runs
    under [callback_mutex]. *)
Definition sync_and_emit (s : slot) (next : list bool) : M unit :=
  match s with
  | SlotCtx =>
      p ← potr_internal_sync_service_path_state_locked next;
      potr_internal_emit_service_path_events_locked p
  | SlotPeer i =>
      p ← potr_internal_sync_peer_path_state_locked i next;
      potr_internal_emit_peer_path_events_locked i p
  end.

(** ** What a synchronisation does *)

(** The events of a change from [h] to [next], as the callback sees them. *)
Definition path_events (peer_id : Z) (h : health_state) (next : list bool) : list effect :=
  map (fun '(k, ev) => EvCallback peer_id ev (CbPath next k))
    (changed_paths 0 (path_logical_alive h) next) ++
  (if bool_decide (health_alive h = any_path_alive next) then []
   else [EvCallback peer_id
     (if any_path_alive next then POTR_EVENT_CONNECTED else POTR_EVENT_DISCONNECTED) CbNone]).

Lemma callback_emit_locked_run peer_id ev d w :
  potr_internal_callback_emit_locked peer_id ev d w
  = Some (tt, w, if x_callback (x_cfg (w_ctx w)) then [EvCallback peer_id ev d] else []).
Proof.
  unfold potr_internal_callback_emit_locked, get_cfg, get_ctx, when, mbind, M_bind. simpl.
  by destruct (x_callback _).
Qed.

Lemma emit_changed_run peer_id states ch w :
  emit_changed peer_id states ch w
  = Some (tt, w, if x_callback (x_cfg (w_ctx w))
      then map (fun '(k, ev) => EvCallback peer_id ev (CbPath states k)) ch else []).
Proof.
  induction ch as [|[k ev] ch IH]; [by destruct (x_callback _)|]. cbn [emit_changed].
  rewrite (bind_run _ _ _ _ _ _ (callback_emit_locked_run _ _ _ w)), IH.
  by destruct (x_callback _).
Qed.

Lemma sync_and_emit_run s next w c :
  slot_conn (w_ctx w) s = Some c ->
  exists id h', slot_peer_id s w = Some (id, w, []) /\
    h' = snd (sync_path_state (c_health c) next) /\
    sync_and_emit s next w
    = Some (tt, World (with_conn (w_ctx w) s (set_health c h')) (w_tick w),
        if x_callback (x_cfg (w_ctx w)) then path_events id (c_health c) next else []).
Proof.
  intros Hs. destruct (slot_peer_id_run _ _ _ Hs) as [id Hid].
  set (h' := snd (sync_path_state (c_health c) next)).
  set (w' := World (with_conn (w_ctx w) s (set_health c h')) (w_tick w)).
  assert (x_cfg (w_ctx w') = x_cfg (w_ctx w)) as Hcfg by apply with_conn_cfg.
  assert (forall id p, p = fst (sync_path_state (c_health c) next) ->
    emit_path_events id p w' = Some (tt, w',
      if x_callback (x_cfg (w_ctx w)) then path_events id (c_health c) next else [])) as Hemit.
  { intros id0 p ->. unfold emit_path_events.
    rewrite (bind_run _ _ _ _ _ _ (emit_changed_run _ _ _ w')), Hcfg.
    unfold path_events, sync_path_state. cbn [fst session_event final_states changed].
    destruct (bool_decide _); [by destruct (x_callback _)|].
    rewrite callback_emit_locked_run, Hcfg. by destruct (x_callback _). }
  exists id, h'. split; [done|]. split; [done|].
  destruct s as [|i]; cbn [sync_and_emit].
  - injection Hid as <-. injection Hs as Hs.
    assert (potr_internal_sync_service_path_state_locked next w
      = Some (fst (sync_path_state (c_health c) next), w', [])) as Hsync.
    { unfold potr_internal_sync_service_path_state_locked.
      rewrite (bind_run_nil _ _ _ _ _ (get_conn_run SlotCtx w c ltac:(simpl; congruence))). done. }
    rewrite (bind_run_nil _ _ _ _ _ Hsync). by apply Hemit.
  - assert (potr_internal_sync_peer_path_state_locked i next w
      = Some (fst (sync_path_state (c_health c) next), w', [])) as Hsync.
    { unfold potr_internal_sync_peer_path_state_locked.
      rewrite (bind_run_nil _ _ _ _ _ (get_conn_run _ _ _ Hs)). cbn [sync_path_state].
      by rewrite (bind_run_nil _ _ _ _ _ (put_conn_run _ _ _ _ Hs)). }
    rewrite (bind_run_nil _ _ _ _ _ Hsync).
    unfold potr_internal_emit_peer_path_events_locked.
    apply slot_conn_peer in Hs as (ps & p & Hps & Hp & Ha & Hc).
    assert (get_peer i w' = Some (Peer (p_peer_id p) (p_active p) (set_health c h') (p_n_paths p) (p_send_window_mutex p), w', []))
      as Hg.
    { unfold get_peer, get_ctx, lift, find_peer, mbind, M_bind, w'. cbn [w_ctx].
      rewrite (with_conn_peer _ _ _ _ _ Hps Hp). cbn [x_peers set_x_peers mbind option_bind].
      by rewrite list_lookup_insert_eq by by eapply lookup_lt_Some. }
    rewrite (bind_run_nil _ _ _ _ _ Hg). cbn [p_peer_id].
    assert (id = p_peer_id p) as ->; [|by apply Hemit].
    unfold slot_peer_id, get_peer, get_ctx, lift, find_peer, mbind, M_bind in Hid.
    rewrite Hps in Hid. cbn [mbind option_bind] in Hid. rewrite Hp in Hid. by injection Hid.
Qed.

Lemma sync_health_ok h next :
  health_ok h -> length next = POTR_MAX_PATH -> health_ok (snd (sync_path_state h next)).
Proof.
  intros [] Hn. split; cbn; try done. unfold any_path_alive. rewrite take_ge; [done|]. by rewrite Hn.
Qed.

(** ** The event streams *)

(** The connections ([true]) and disconnections of a peer in a trace, and those
    of one of its paths. *)
Definition session_changes (id : Z) (es : list effect) : list bool :=
  omap (fun e => match e with
    | EvCallback id' POTR_EVENT_CONNECTED _ => if id' =? id then Some true else None
    | EvCallback id' POTR_EVENT_DISCONNECTED _ => if id' =? id then Some false else None
    | _ => None end) es.

Definition path_changes (id : Z) (k : nat) (es : list effect) : list bool :=
  omap (fun e => match e with
    | EvCallback id' POTR_EVENT_PATH_CONNECTED (CbPath _ j) =>
        if (id' =? id) && (j =? k)%nat then Some true else None
    | EvCallback id' POTR_EVENT_PATH_DISCONNECTED (CbPath _ j) =>
        if (id' =? id) && (j =? k)%nat then Some false else None
    | _ => None end) es.

(** Replaying changes from a known state: every change must be one. *)
Fixpoint replay (b : bool) (l : list bool) : option bool :=
  match l with
  | [] => Some b
  | e :: l => if bool_decide (e = b) then None else replay e l
  end.

Lemma replay_app b l1 l2 : replay b (l1 ++ l2) = b' ← replay b l1; replay b' l2.
Proof. revert b. induction l1 as [|e l1 IH]; intros b; simpl; [done|]. by case_bool_decide. Qed.

Lemma session_changes_app id es1 es2 :
  session_changes id (es1 ++ es2) = session_changes id es1 ++ session_changes id es2.
Proof. apply omap_app. Qed.

Lemma path_changes_app id k es1 es2 :
  path_changes id k (es1 ++ es2) = path_changes id k es1 ++ path_changes id k es2.
Proof. apply omap_app. Qed.

Lemma changed_session id st k old next :
  session_changes id (map (fun '(j, ev) => EvCallback id ev (CbPath st j))
    (changed_paths k old next)) = [].
Proof.
  revert k old. induction next as [|n next IH]; intros k [|o old]; try done.
  cbn [changed_paths]. case_bool_decide; [apply IH|]. cbn [map session_changes omap list_omap].
  destruct n; apply IH.
Qed.

Lemma session_replay id h next :
  replay (health_alive h) (session_changes id (path_events id h next))
  = Some (any_path_alive next).
Proof.
  unfold path_events. rewrite session_changes_app, changed_session. cbn [app].
  case_bool_decide as Heq; [cbn; by rewrite Heq|].
  destruct (health_alive h), (any_path_alive next); try done; cbn; by rewrite Z.eqb_refl.
Qed.

Lemma changed_path_replay id st k j old next o :
  old !! j = Some o -> length next = length old ->
  exists n, next !! j = Some n /\
  replay o (path_changes id (k + j) (map (fun '(i, ev) => EvCallback id ev (CbPath st i))
    (changed_paths k old next))) = Some n.
Proof.
  revert k j next. induction old as [|a old IH]; intros k j [|n next] Hj Hlen; try done.
  assert (forall i b l, (forall x, i <> (x + S k)%nat) ->
    replay b (path_changes id i (map (fun '(i, ev) => EvCallback id ev (CbPath st i))
      (changed_paths (S k) old l))) = Some b) as Hskip.
  { clear. generalize (S k). clear k. induction old as [|a old IH]; intros k i b [|n l] Hi; try done.
    cbn [changed_paths]. case_bool_decide.
    - apply IH. intros x. specialize (Hi (S x)). lia.
    - cbn [map]. assert ((k =? i)%nat = false) as Hne by (specialize (Hi O); lia).
      unfold path_changes. cbn [omap list_omap].
      destruct n; rewrite Hne, andb_false_r; apply IH; intros x; specialize (Hi (S x)); lia. }
  destruct j as [|j].
  - injection Hj as ->. exists n. split; [done|]. cbn [changed_paths]. rewrite Nat.add_0_r.
    case_bool_decide as Heq.
    + subst. apply Hskip. lia.
    + cbn [map]. unfold path_changes. cbn [omap list_omap].
      assert ((id =? id) && (k =? k)%nat = true) as Hb by lia.
      destruct n; rewrite Hb; cbn [replay]; rewrite bool_decide_false by congruence;
        apply Hskip; lia.
  - injection Hlen as Hlen. destruct (IH (S k) j next Hj Hlen) as (m & Hm & Hrep).
    exists m. split; [done|]. rewrite Nat.add_succ_r. rewrite Nat.add_succ_l in Hrep.
    cbn [changed_paths]. case_bool_decide; [done|]. cbn [map]. unfold path_changes.
    cbn [omap list_omap]. assert ((k =? S (k + j))%nat = false) as Hne by lia.
    destruct n; rewrite Hne, andb_false_r; done.
Qed.

Lemma path_replay id h next k o :
  path_logical_alive h !! k = Some o -> length next = length (path_logical_alive h) ->
  exists n, next !! k = Some n /\
    replay o (path_changes id k (path_events id h next)) = Some n.
Proof.
  intros Ho Hlen. unfold path_events. rewrite path_changes_app.
  destruct (changed_path_replay id next 0 k _ _ _ Ho Hlen) as (n & Hn & Hrep).
  exists n. split; [done|]. rewrite replay_app. rewrite Nat.add_0_l in Hrep. rewrite Hrep.
  cbn [mbind option_bind]. case_bool_decide; [done|]. by destruct (any_path_alive next).
Qed.

Fixpoint sync_all (s : slot) (nexts : list (list bool)) : M unit :=
  match nexts with [] => mret tt | n :: nexts => sync_and_emit s n;; sync_all s nexts end.

Section Streams.
Context `{CplatByteorder}.

Lemma sync_and_emit_ok s next w c :
  ctx_ok (w_ctx w) -> slot_conn (w_ctx w) s = Some c -> length next = POTR_MAX_PATH ->
  exists w' es c', sync_and_emit s next w = Some (tt, w', es) /\ ctx_ok (w_ctx w') /\
    x_cfg (w_ctx w') = x_cfg (w_ctx w) /\ slot_conn (w_ctx w') s = Some c' /\
    c' = set_health c (snd (sync_path_state (c_health c) next)) /\
    (exists id, slot_peer_id s w = Some (id, w, []) /\ slot_peer_id s w' = Some (id, w', []) /\
      es = if x_callback (x_cfg (w_ctx w)) then path_events id (c_health c) next else []).
Proof.
  intros Hx Hs Hn. pose proof (slot_conn_ok _ _ _ Hx Hs) as Hc.
  destruct (sync_and_emit_run s next w c Hs) as (id & h' & Hid & -> & ->).
  eexists _, _, _. split; [done|]. cbn [w_ctx].
  assert (ctx_ok (with_conn (w_ctx w) s (set_health c (snd (sync_path_state (c_health c) next)))))
    as Hx'.
  { eapply with_conn_ok; [done..|]. destruct Hc. split; try done. by apply sync_health_ok. }
  split; [done|]. split; [apply with_conn_cfg|]. split; [by eapply slot_conn_with|].
  split; [done|]. exists id. split; [done|]. split; [|done].
  destruct s as [|i]; [by injection Hid as <-|].
  apply slot_conn_peer in Hs as (ps & p & Hps & Hp & _).
  unfold slot_peer_id, get_peer, get_ctx, lift, find_peer, mbind, M_bind in *.
  cbn [w_ctx]. rewrite (with_conn_peer _ _ _ _ _ Hps Hp). rewrite Hps in Hid.
  cbn [x_peers set_x_peers mbind option_bind] in *. rewrite Hp in Hid.
  rewrite list_lookup_insert_eq by by eapply lookup_lt_Some. injection Hid as <-. done.
Qed.

Lemma sync_all_ok nexts s w c id :
  ctx_ok (w_ctx w) -> slot_conn (w_ctx w) s = Some c -> slot_peer_id s w = Some (id, w, []) ->
  x_callback (x_cfg (w_ctx w)) = true ->
  Forall (fun n => length n = POTR_MAX_PATH) nexts ->
  exists w' es c', sync_all s nexts w = Some (tt, w', es) /\ ctx_ok (w_ctx w') /\
    slot_conn (w_ctx w') s = Some c' /\
    replay (health_alive (c_health c)) (session_changes id es)
      = Some (health_alive (c_health c')) /\
    forall k o, path_logical_alive (c_health c) !! k = Some o -> exists n,
      path_logical_alive (c_health c') !! k = Some n /\ replay o (path_changes id k es) = Some n.
Proof.
  revert w c. induction nexts as [|n nexts IH]; intros w c Hx Hs Hid Hcb Hn.
  - exists w, [], c. split_and!; try done. intros k o Ho. by exists o.
  - apply Forall_cons_1 in Hn as [Hn Hns]. cbn [sync_all].
    destruct (sync_and_emit_ok s n w c Hx Hs Hn)
      as (w1 & es1 & c1 & H1 & Hx1 & Hcfg & Hs1 & -> & id' & Hid' & Hid1 & ->).
    rewrite Hid in Hid'. injection Hid' as <-. rewrite Hcb in H1.
    rewrite (bind_run _ _ _ _ _ _ H1).
    destruct (IH w1 _ Hx1 Hs1 Hid1 ltac:(by rewrite Hcfg) Hns)
      as (w' & es & c' & -> & Hx' & Hs' & Hrs & Hrp).
    eexists w', _, c'. split; [done|]. split; [done|]. split; [done|].
    cbn [c_health set_health sync_path_state snd health_alive path_logical_alive] in Hrs, Hrp.
    pose proof (slot_conn_ok _ _ _ Hx Hs) as [_ _ _ [] _ _ _]. split.
    + by rewrite session_changes_app, replay_app, session_replay.
    + intros k o Ho. destruct (path_replay id (c_health c) n k o Ho) as (m & Hm & Hr); [congruence|].
      destruct (Hrp k m Hm) as (m' & Hm' & Hr'). exists m'. split; [done|].
      by rewrite path_changes_app, replay_app, Hr.
Qed.

(** C34. The event streams the user sees are consistent: whatever sequence of
    path states is synchronised for a live service or peer, the CONNECTED and
    DISCONNECTED callbacks alternate strictly and end in the connection's
    final state, the PATH_CONNECTED and PATH_DISCONNECTED callbacks of every
    single path alternate and end in that path's final state, and afterwards
    the connection is alive exactly when one of its paths is. *)
Theorem path_events_consistent nexts s w c id :
  ctx_ok (w_ctx w) -> slot_conn (w_ctx w) s = Some c -> slot_peer_id s w = Some (id, w, []) ->
  x_callback (x_cfg (w_ctx w)) = true ->
  Forall (fun n => length n = POTR_MAX_PATH) nexts ->
  exists w' es c', sync_all s nexts w = Some (tt, w', es) /\
    slot_conn (w_ctx w') s = Some c' /\
    replay (health_alive (c_health c)) (session_changes id es)
      = Some (health_alive (c_health c')) /\
    (forall k o, path_logical_alive (c_health c) !! k = Some o -> exists n,
      path_logical_alive (c_health c') !! k = Some n /\
      replay o (path_changes id k es) = Some n) /\
    health_alive (c_health c') = existsb Datatypes.id (path_logical_alive (c_health c')).
Proof.
  intros Hx Hs Hid Hcb Hn.
  destruct (sync_all_ok nexts s w c id Hx Hs Hid Hcb Hn)
    as (w' & es & c' & Hrun & Hx' & Hs' & Hrs & Hrp).
  exists w', es, c'. split_and!; try done.
  by apply ho_alive, (ok_health _ _ (slot_conn_ok _ _ _ Hx' Hs')).
Qed.
End Streams.

Lemma path_events_consistent_witness :
  exists w' es c',
    sync_all (SlotPeer 0) [[true; false; false; false]; [true; true; false; false];
                           [false; false; false; false]]
      (World (example_ctx POTR_TYPE_UNICAST_BIDIR_N1 false) 0) = Some (tt, w', es) /\
    slot_conn (w_ctx w') (SlotPeer 0) = Some c' /\
    replay false (session_changes 1 es) = Some (health_alive (c_health c')).
Proof.
  destruct (@path_events_consistent little_host
    [[true; false; false; false]; [true; true; false; false]; [false; false; false; false]]
    (SlotPeer 0) (World (example_ctx POTR_TYPE_UNICAST_BIDIR_N1 false) 0) example_conn 1)
    as (w' & es & c' & H1 & H2 & H3 & _);
    [apply example_ctx_ok | reflexivity.. | repeat constructor |].
  exists w', es, c'. split; [exact H1|]. split; [exact H2|exact H3].
Defined.
