(* ===== verification/Validate.v ===== *)
(** Sealing and checking packets: the encryption steps of the senders
    ([build_ctrl_pkt_wire], [potr_internal_tcp_send_control_packet]) and the
    checks of [thread_recv_validate.c]. *)

From stdpp Require Import base list numbers option.
From Stdlib Require Import ZArith Lia ZifyBool.
From S2P Require Import Prelude Types Packet Window Context.
Local Open Scope Z_scope.
Local Open Scope porter_scope.

Section Validate.
Context `{CplatByteorder} `{Platform}.

(** The 12-byte nonce, from the memory images of network-order fields. *)
Definition make_nonce (session_id flags val : Z) : list Z :=
  mem_of host_endian 4 session_id ++ mem_of host_endian 2 flags ++
  mem_of host_endian 4 val ++ [0; 0].

(** Mark a built packet as encrypted, with a payload of [len] bytes: the
    [|=] acts on the network-order flags. *)
Definition mark_encrypted {P} (p : potr_packet P) (len : Z) : potr_packet P :=
  set_pkt_payload_len (set_pkt_flags p (Z.lor (pkt_flags p) (cplat_hton16 POTR_FLAG_ENCRYPTED)))
    (cplat_hton16 (u16 len)).

(** [build_ctrl_pkt_wire]: the wire image of a control packet, [None] when
    encryption fails. *)
Definition build_ctrl_pkt_wire (g : service_config) (pkt : packet) : option (list Z) :=
  if encrypt_enabled (x_service g) then
    let pkt := mark_encrypted pkt (Z.of_nat POTR_CRYPTO_TAG_SIZE) in
    let nonce := make_nonce (pkt_session_id pkt) (pkt_flags pkt) (pkt_ack_num pkt) in
    tag ← cplat_crypto_encrypt POTR_CRYPTO_TAG_SIZE (encrypt_key (x_service g)) nonce
            (packet_header_bytes pkt) [];
    Some (packet_header_bytes pkt ++ tag)
  else
    Some (take (Z.to_nat (potr_internal_packet_wire_size (Some pkt))) (packet_header_bytes pkt)).

(** The same with an explicit nonce value, as
    [potr_internal_tcp_send_control_packet] and the FIN senders do it. *)
Definition build_ctrl_pkt_wire_nonce (g : service_config) (pkt : packet) (nonce_val : Z)
    : option (list Z) :=
  if encrypt_enabled (x_service g) then
    let pkt := mark_encrypted pkt (Z.of_nat POTR_CRYPTO_TAG_SIZE) in
    let nonce := make_nonce (pkt_session_id pkt) (pkt_flags pkt) (cplat_hton32 nonce_val) in
    tag ← cplat_crypto_encrypt POTR_CRYPTO_TAG_SIZE (encrypt_key (x_service g)) nonce
            (packet_header_bytes pkt) [];
    Some (packet_header_bytes pkt ++ tag)
  else Some (packet_header_bytes pkt).

(** [pkt->flags & ~POTR_FLAG_ENCRYPTED], narrowed to 16 bits. *)
Definition clear_encrypted (flags : Z) : Z :=
  u16 (Z.land flags (Z.lnot POTR_FLAG_ENCRYPTED)).

(** [thread_recv_authenticate_packet]; [None] is a read outside the received
    packet.  [wire_hdr] is the buffer the packet was parsed from. *)
Definition thread_recv_authenticate_packet (g : service_config) (pkt : packet)
    (wire_hdr : list Z) : option (Z * packet) :=
  if negb (pkt_flags pkt has POTR_FLAG_ENCRYPTED) then
    if negb (encrypt_enabled (x_service g)) then Some (POTR_OK, pkt)
    else Some (POTR_ERR_PROTOCOL, pkt)
  else if (pkt_flags pkt has POTR_FLAG_ENCRYPTED)
          && (pkt_flags pkt has Z.lor POTR_FLAG_DATA POTR_FLAG_PING) then
    let nonce := make_nonce (cplat_hton32 (pkt_session_id pkt)) (cplat_hton16 (pkt_flags pkt))
                   (cplat_hton32 (pkt_seq_num pkt)) in
    ct ← read_at (pkt_payload pkt) 0 (Z.to_nat (pkt_payload_len pkt));
    hdr ← mem_read wire_hdr 0 POTR_PACKET_HEADER_SIZE;
    match cplat_crypto_decrypt (x_crypto_buf_size g) (encrypt_key (x_service g)) nonce hdr ct with
    | None => Some (POTR_ERR_PROTOCOL, pkt)
    | Some pt =>
        Some (POTR_OK, with_payload
          (set_pkt_payload_len (set_pkt_flags pkt (clear_encrypted (pkt_flags pkt)))
             (u16 (Z.of_nat (length pt)))) (Some pt))
    end
  else if negb (pkt_payload_len pkt =? Z.of_nat POTR_CRYPTO_TAG_SIZE) then
    Some (POTR_ERR_PROTOCOL, pkt)
  else
    let val := if pkt_flags pkt has
                    Z.lor (Z.lor POTR_FLAG_NACK POTR_FLAG_REJECT) POTR_FLAG_FIN_ACK
               then pkt_ack_num pkt else pkt_seq_num pkt in
    let nonce := make_nonce (cplat_hton32 (pkt_session_id pkt)) (cplat_hton16 (pkt_flags pkt))
                   (cplat_hton32 val) in
    tag ← read_at (pkt_payload pkt) 0 POTR_CRYPTO_TAG_SIZE;
    hdr ← mem_read wire_hdr 0 POTR_PACKET_HEADER_SIZE;
    match cplat_crypto_decrypt 1 (encrypt_key (x_service g)) nonce hdr tag with
    | None => Some (POTR_ERR_PROTOCOL, pkt)
    | Some _ =>
        Some (POTR_OK, with_payload
          (set_pkt_payload_len (set_pkt_flags pkt (clear_encrypted (pkt_flags pkt))) 0) None)
    end.

(** The loops of [thread_recv_check_src_addr] over the first [n] addresses. *)
Fixpoint addr_listed (n : nat) (addr : Z) (l : list Z) : bool :=
  match n, l with
  | S n, a :: l => (addr =? a) || addr_listed n addr l
  | _, _ => false
  end.

Definition thread_recv_check_src_addr (g : service_config) (sender : endpoint) : bool :=
  let svc := x_service g in
  if x_is_multi_peer g then
    if negb (src_port svc =? 0) then cplat_ntoh16 (ep_port sender) =? src_port svc else true
  else if type_eqb (service_type svc) POTR_TYPE_UNICAST_BIDIR then
    match x_role g with
    | POTR_ROLE_SENDER =>
        if addr_is_empty (dst_addr svc) 0 then true
        else addr_listed (x_n_path g) (ep_address sender) (x_dst_addr_resolved g)
    | POTR_ROLE_RECEIVER =>
        if addr_is_empty (src_addr svc) 0 then true
        else addr_listed (x_n_path g) (ep_address sender) (x_src_addr_resolved g)
    end
  else if addr_is_empty (src_addr svc) 0 then true
  else addr_listed (x_n_path g) (ep_address sender) (x_src_addr_resolved g).

(** ** Facts *)

(** What a packet must satisfy to be handled: host-order fields in range and
    a payload that can be read and stored in a window slot. *)
Record pkt_ok (g : service_config) (p : packet) : Prop := {
  pk_ranges : packet_ranges p;
  pk_len : pkt_payload_len p <= max_payload_cfg (x_global g);
  pk_payload : match pkt_payload p with
    | Some bs => Forall is_byte bs /\ (Z.to_nat (pkt_payload_len p) <= length bs)%nat
    | None => pkt_payload_len p = 0
    end
}.

Context `{!PlatformLaws}.

Lemma land_bound a m : 0 <= a -> 0 <= Z.land a m <= a.
Proof.
  intros Ha. split; [apply Z.land_nonneg; by left|].
  apply Z.ldiff_le; [done|]. apply Z.bits_inj'. intros n Hn.
  rewrite Z.ldiff_spec, Z.land_spec, Z.bits_0. destruct (Z.testbit a n), (Z.testbit m n); done.
Qed.

Lemma clear_encrypted_range f : 0 <= clear_encrypted f < 65536.
Proof. apply u16_range. Qed.

(** An accepted sealed packet: only flags, length and payload change. *)
Lemma opened_pkt_ok g (p : packet) (len : Z) (v : view) :
  pkt_ok g p -> 0 <= len < 65536 -> len <= max_payload_cfg (x_global g) ->
  match v with
  | Some bs => Forall is_byte bs /\ (Z.to_nat len <= length bs)%nat
  | None => len = 0
  end ->
  pkt_ok g (with_payload (set_pkt_payload_len
    (set_pkt_flags p (clear_encrypted (pkt_flags p))) len) v).
Proof.
  intros [[] Hl Hp] Hlen Hmax Hv. split; [|done|done].
  split; cbn; auto using clear_encrypted_range.
Qed.

(** Authentication is total, rejects or accepts, and an accepted packet is
    again fit to be handled. *)
Lemma authenticate_total g (p : packet) bs buf :
  cfg_ok g -> pkt_ok g p -> pkt_payload p = Some bs ->
  (POTR_PACKET_HEADER_SIZE <= length buf)%nat ->
  exists rc q, thread_recv_authenticate_packet g p buf = Some (rc, q) /\
    (rc = POTR_OK \/ rc = POTR_ERR_PROTOCOL) /\ (rc = POTR_OK -> pkt_ok g q).
Proof.
  intros Hg Hok Hbs Hb. pose proof Hok as [Hr Hl Hp]. rewrite Hbs in Hp.
  destruct Hp as [Hby Hlen]. pose proof (pr_len _ Hr) as Hl0. destruct Hg.
  unfold POTR_MAX_PAYLOAD in *. unfold thread_recv_authenticate_packet.
  assert (forall n, (n <= length bs)%nat -> read_at (pkt_payload p) 0 n = Some (take n bs)) as Hrd.
  { intros n Hn. unfold read_at. rewrite Hbs. simpl. by rewrite mem_read_Some, drop_0. }
  assert (forall q, exists rc q', Some (POTR_ERR_PROTOCOL, q) = Some (rc, q') /\
    (rc = POTR_OK \/ rc = POTR_ERR_PROTOCOL) /\ (rc = POTR_OK -> pkt_ok g q')) as Hrej.
  { intros q. exists POTR_ERR_PROTOCOL, q. split; [done|]. split; [by right|done]. }
  destruct (negb (pkt_flags p has POTR_FLAG_ENCRYPTED)).
  { destruct (negb _); [|apply Hrej]. exists POTR_OK, p. auto. }
  rewrite (mem_read_Some buf 0) by lia. destruct (_ && _).
  - rewrite Hrd by done. cbn [mbind option_bind].
    destruct (cplat_crypto_decrypt _ _ _ _ _) as [pt|] eqn:Hdec; [|apply Hrej].
    apply decrypt_length in Hdec as Hdl. apply decrypt_bytes in Hdec.
    rewrite length_take in Hdl. unfold POTR_CRYPTO_TAG_SIZE in *.
    eexists _, _. split; [done|]. split; [by left|]. intros _.
    rewrite u16_small by lia. apply opened_pkt_ok; try done; try lia. split; [done|lia].
  - destruct (negb _) eqn:Htag; [apply Hrej|].
    apply negb_false_iff, Z.eqb_eq in Htag. rewrite Hrd by lia. cbn [mbind option_bind].
    destruct (cplat_crypto_decrypt _ _ _ _ _); [|apply Hrej].
    eexists _, _. split; [done|]. split; [by left|]. intros _. apply opened_pkt_ok; try done; lia.
Qed.

(** ** Sealed packets open *)

(** The packet a sender seals, in network byte order. *)
Definition sealed_pkt {Q} (h : session_hdr) (seq ack flags : Z) (len : nat) (q : Q)
    : potr_packet Q :=
  built h seq ack (Z.lor flags POTR_FLAG_ENCRYPTED) (Z.of_nat (len + POTR_CRYPTO_TAG_SIZE)) q.

(** The flags a sender combines; their network-order images can be or-ed. *)
Definition plain_flags : list Z :=
  [POTR_FLAG_DATA; POTR_FLAG_NACK; POTR_FLAG_PING; POTR_FLAG_REJECT; POTR_FLAG_FIN;
   Z.lor POTR_FLAG_FIN POTR_FLAG_FIN_TARGET_VALID; POTR_FLAG_FIN_ACK].

Lemma hton16_lor_flags f m :
  f ∈ plain_flags -> m ∈ [POTR_FLAG_ENCRYPTED; POTR_FLAG_FIN_TARGET_VALID] ->
  Z.lor (cplat_hton16 f) (cplat_hton16 m) = cplat_hton16 (Z.lor f m).
Proof.
  intros Hf%list_elem_of_In Hm%list_elem_of_In. simpl in Hf, Hm.
  destruct_or!; subst; try done; rewrite !hton16_spec by (vm_compute; done);
    destruct host_endian; reflexivity.
Qed.

Lemma mark_encrypted_built {Q} h seq ack f len (q : Q) l :
  f ∈ plain_flags -> 0 <= l < 65536 ->
  mark_encrypted (built h seq ack f len q) l
  = built h seq ack (Z.lor f POTR_FLAG_ENCRYPTED) l q.
Proof.
  intros Hf Hl. unfold mark_encrypted. cbn [built set_body set_pkt_flags set_pkt_payload_len
    pkt_flags pkt_service_id pkt_session_tv_sec pkt_session_id pkt_session_tv_nsec pkt_seq_num
    pkt_ack_num pkt_protocol_version pkt_payload].
  rewrite hton16_lor_flags by (done || left). by rewrite u16_small.
Qed.

Lemma plain_flags_facts f :
  f ∈ plain_flags ->
  0 <= Z.lor f POTR_FLAG_ENCRYPTED < 65536 /\
  (Z.lor f POTR_FLAG_ENCRYPTED has POTR_FLAG_ENCRYPTED) = true /\
  clear_encrypted (Z.lor f POTR_FLAG_ENCRYPTED) = f /\
  (Z.lor f POTR_FLAG_ENCRYPTED has Z.lor POTR_FLAG_DATA POTR_FLAG_PING)
    = (f has Z.lor POTR_FLAG_DATA POTR_FLAG_PING) /\
  (Z.lor f POTR_FLAG_ENCRYPTED has Z.lor (Z.lor POTR_FLAG_NACK POTR_FLAG_REJECT) POTR_FLAG_FIN_ACK)
    = (f has Z.lor (Z.lor POTR_FLAG_NACK POTR_FLAG_REJECT) POTR_FLAG_FIN_ACK).
Proof.
  intros Hf%list_elem_of_In. simpl in Hf.
  destruct_or!; subst; try done; vm_compute; done.
Qed.

(** The nonce value of a packet: its [ack_num] for NACK, REJECT and FIN_ACK,
    its [seq_num] otherwise. *)
Definition nonce_val (seq ack f : Z) : Z :=
  if f has Z.lor POTR_FLAG_DATA POTR_FLAG_PING then seq
  else if f has Z.lor (Z.lor POTR_FLAG_NACK POTR_FLAG_REJECT) POTR_FLAG_FIN_ACK then ack else seq.

(** Opening a sealed packet, after parsing it from the wire. *)
Lemma open_sealed g h seq ack f pt ct cap prev :
  cfg_ok g -> session_hdr_ranges h -> 0 <= seq < 4294967296 -> 0 <= ack < 4294967296 ->
  f ∈ plain_flags ->
  (f has Z.lor POTR_FLAG_DATA POTR_FLAG_PING) = true \/ pt = [] ->
  Z.of_nat (length pt + POTR_CRYPTO_TAG_SIZE) <= max_payload_cfg (x_global g) ->
  let p := sealed_pkt h seq ack f (length pt) tt in
  cplat_crypto_encrypt cap (encrypt_key (x_service g))
    (make_nonce (pkt_session_id p) (pkt_flags p) (cplat_hton32 (nonce_val seq ack f)))
    (packet_header_bytes p) pt = Some ct ->
  let wire := packet_header_bytes p ++ ct in
  exists q, potr_internal_packet_parse (Some prev) (Some wire) (length wire)
      = Some (POTR_OK, Some q) /\
    thread_recv_authenticate_packet g q wire
    = Some (POTR_OK, Packet (hdr_service_id h) (hdr_session_tv_sec h) (hdr_session_id h)
        (hdr_session_tv_nsec h) seq ack f
        (if f has Z.lor POTR_FLAG_DATA POTR_FLAG_PING then Z.of_nat (length pt) else 0)
        POTR_PROTOCOL_VERSION
        (if f has Z.lor POTR_FLAG_DATA POTR_FLAG_PING then Some pt else None)).
Proof.
  intros Hg Hh Hseq Hack Hf Hpt Hlen p Henc wire.
  destruct (plain_flags_facts f Hf) as (Hfr & Hfe & Hfc & Hfd & Hfn).
  pose proof (co_payload _ Hg) as Hmp. unfold POTR_MAX_PAYLOAD in Hmp.
  destruct (encrypt_length _ _ _ _ _ _ Henc) as [Hct _].
  pose proof (encrypt_bytes _ _ _ _ _ _ Henc) as Hctb.
  assert (length wire = POTR_PACKET_HEADER_SIZE + length ct)%nat as Hwl
    by (unfold wire; by rewrite length_app, length_packet_header_bytes).
  set (q := Packet (hdr_service_id h) (hdr_session_tv_sec h) (hdr_session_id h)
    (hdr_session_tv_nsec h) seq ack (Z.lor f POTR_FLAG_ENCRYPTED) (Z.of_nat (length ct))
    POTR_PROTOCOL_VERSION (Some ct)).
  exists q. split.
  { rewrite Hwl. unfold wire, p, sealed_pkt. rewrite <- Hct.
    apply parse_built; try done. unfold POTR_MAX_PAYLOAD. lia. }
  assert (mem_read wire 0 POTR_PACKET_HEADER_SIZE = Some (packet_header_bytes p)) as Hhdr
    by (apply mem_read_app_hd, length_packet_header_bytes).
  assert (read_at (Some ct) 0 (length ct) = Some ct) as Hrd.
  { unfold read_at. simpl. by rewrite mem_read_Some, drop_0, firstn_all. }
  unfold thread_recv_authenticate_packet. cbn [pkt_flags q pkt_payload pkt_payload_len
    pkt_session_id pkt_seq_num pkt_ack_num]. rewrite Hfe, Hfd, Hfn, Hfc, Hhdr. cbn [negb andb].
  unfold nonce_val in Henc. cbn [p sealed_pkt built set_body fill_session_hdr pkt_session_id
    pkt_flags] in Henc.
  destruct (f has Z.lor POTR_FLAG_DATA POTR_FLAG_PING) eqn:Hdp.
  - rewrite Nat2Z.id, Hrd. cbn [mbind option_bind].
    rewrite (decrypt_encrypt _ (x_crypto_buf_size g) _ _ _ _ _ Henc)
      by (rewrite (co_crypto _ Hg); lia).
    by rewrite u16_small by lia.
  - destruct Hpt as [?| ->]; [done|]. simpl in Hct. rewrite Hct, Z.eqb_refl. cbn [negb].
    rewrite Hct in Hrd. rewrite Hrd. cbn [mbind option_bind].
    by rewrite (decrypt_encrypt _ 1 _ _ _ _ _ Henc) by (simpl; lia).
Qed.

(** A sealed control packet of a service with the same key opens. *)
Lemma sealed_ctrl_opens g g' h ack f wire prev :
  cfg_ok g' -> session_hdr_ranges h -> 0 <= ack < 4294967296 -> f ∈ plain_flags ->
  (f has Z.lor POTR_FLAG_DATA POTR_FLAG_PING) = false -> encrypt_enabled (x_service g) = true ->
  encrypt_key (x_service g') = encrypt_key (x_service g) ->
  build_ctrl_pkt_wire_nonce g (built (Q:=view) h 0 ack f 0 None) (nonce_val 0 ack f) = Some wire ->
  exists q, potr_internal_packet_parse (Some prev) (Some wire) (length wire) = Some (POTR_OK, Some q) /\
    pkt_service_id q = hdr_service_id h /\
    thread_recv_authenticate_packet g' q wire
    = Some (POTR_OK, Packet (hdr_service_id h) (hdr_session_tv_sec h) (hdr_session_id h)
        (hdr_session_tv_nsec h) 0 ack f 0 POTR_PROTOCOL_VERSION None).
Proof.
  intros Hg Hh Hack Hf Hdp Henc Hkey Hw. unfold build_ctrl_pkt_wire_nonce in Hw. rewrite Henc in Hw.
  rewrite (mark_encrypted_built (Q:=view) h 0 ack f 0 None (Z.of_nat POTR_CRYPTO_TAG_SIZE) Hf) in Hw
    by (unfold POTR_CRYPTO_TAG_SIZE; lia).
  destruct (cplat_crypto_encrypt _ _ _ _ _) as [tag|] eqn:Ht in Hw; [|done].
  cbn [mbind option_bind] in Hw. injection Hw as <-. rewrite <- Hkey in Ht.
  pose proof (encrypt_length _ _ _ _ _ _ Ht) as [Htl _].
  pose proof (co_payload _ Hg) as Hm. unfold POTR_MAX_PAYLOAD in Hm.
  destruct (open_sealed g' h 0 ack f [] tag POTR_CRYPTO_TAG_SIZE prev) as (q & Hq & Ha);
    [done|done|lia|done|done|by right|unfold POTR_CRYPTO_TAG_SIZE; cbn [length]; lia|exact Ht|].
  exists q. rewrite Hdp in Ha. split; [exact Hq|]. split; [|exact Ha]. clear Ha.
  unfold sealed_pkt in Hq. cbn [length Nat.add] in Htl, Hq. rewrite <- Htl in Hq.
  rewrite length_app, length_packet_header_bytes, parse_built in Hq;
    [by injection Hq as <-|done|lia|done|by apply plain_flags_facts|rewrite Htl; unfold POTR_CRYPTO_TAG_SIZE, POTR_MAX_PAYLOAD; lia].
Qed.

(** The builders of [build_ctrl_pkt_wire] take the nonce from [ack_num]. *)
Lemma ctrl_wire_nonce g (p : packet) n :
  encrypt_enabled (x_service g) = true -> pkt_ack_num p = cplat_hton32 n ->
  build_ctrl_pkt_wire g p = build_ctrl_pkt_wire_nonce g p n.
Proof.
  intros Henc Hm. unfold build_ctrl_pkt_wire, build_ctrl_pkt_wire_nonce. rewrite Henc.
  cbn [mark_encrypted set_pkt_payload_len set_pkt_flags pkt_ack_num]. by rewrite Hm.
Qed.
End Validate.

(** ** Properties *)

(** C33. Sealed control packets open: on an encrypted service, every NACK and
    REJECT a receiver or sender builds, every FIN (with or without a target)
    and every FIN_ACK, once sealed and put on the wire, is parsed and accepted
    by the other end with exactly the session, numbers and flags it was built
    with.  Sender and receiver compute the nonce from different fields for the
    different kinds; this shows that they agree for each kind. *)
Theorem sealed_control_roundtrip `{CplatByteorder} `{Platform} `{!PlatformLaws}
    g h n wire prev out :
  cfg_ok g -> session_hdr_ranges h -> 0 <= n < 4294967296 ->
  encrypt_enabled (x_service g) = true ->
  let accepted f ack :=
    exists q, potr_internal_packet_parse (Some prev) (Some wire) (length wire)
        = Some (POTR_OK, Some q) /\
      thread_recv_authenticate_packet g q wire
      = Some (POTR_OK, Packet (hdr_service_id h) (hdr_session_tv_sec h) (hdr_session_id h)
          (hdr_session_tv_nsec h) 0 ack f 0 POTR_PROTOCOL_VERSION None) in
  (forall p, potr_internal_packet_build_nack (Some out) (Some h) n = (POTR_OK, Some p) ->
     build_ctrl_pkt_wire g p = Some wire -> accepted POTR_FLAG_NACK n) /\
  (forall p, potr_internal_packet_build_reject (Some out) (Some h) n = (POTR_OK, Some p) ->
     build_ctrl_pkt_wire g p = Some wire -> accepted POTR_FLAG_REJECT n) /\
  (forall p, potr_internal_packet_build_fin_ack (Some out) (Some h) n = (POTR_OK, Some p) ->
     build_ctrl_pkt_wire_nonce g p n = Some wire -> accepted POTR_FLAG_FIN_ACK n) /\
  (forall p, potr_internal_packet_build_fin (Some out) (Some h) = (POTR_OK, Some p) ->
     build_ctrl_pkt_wire_nonce g p 0 = Some wire -> accepted POTR_FLAG_FIN 0) /\
  (forall p, potr_internal_packet_build_fin (Some out) (Some h) = (POTR_OK, Some p) ->
     build_ctrl_pkt_wire_nonce g
       (set_pkt_ack_num (set_pkt_flags p (Z.lor (pkt_flags p) (cplat_hton16 POTR_FLAG_FIN_TARGET_VALID)))
          (cplat_hton32 n)) 0 = Some wire ->
     accepted (Z.lor POTR_FLAG_FIN POTR_FLAG_FIN_TARGET_VALID) n).
Proof.
  intros Hg Hh Hn Henc accepted.
  assert (forall f ack val (p : packet), f ∈ plain_flags ->
    (f has Z.lor POTR_FLAG_DATA POTR_FLAG_PING) = false -> 0 <= ack < 4294967296 ->
    p = built h 0 ack f 0 None -> val = nonce_val 0 ack f ->
    build_ctrl_pkt_wire_nonce g p val = Some wire -> accepted f ack) as Hmain.
  { intros f ack val p Hf Hdp Hack -> -> Hw.
    destruct (sealed_ctrl_opens g g h ack f wire prev) as (q & Hq & _ & Ha); [done..|]. by exists q. }
  split_and!; intros p Hb Hw.
  - rewrite build_nack_built in Hb. injection Hb as <-.
    rewrite (ctrl_wire_nonce g _ n Henc) in Hw by done. eapply Hmain; [..|exact Hw]; try done. apply list_elem_of_In; simpl; tauto.
  - rewrite build_reject_built in Hb. injection Hb as <-.
    rewrite (ctrl_wire_nonce g _ n Henc) in Hw by done. eapply Hmain; [..|exact Hw]; try done. apply list_elem_of_In; simpl; tauto.
  - rewrite build_fin_ack_built in Hb. injection Hb as <-.
    eapply Hmain; [..|exact Hw]; try done. apply list_elem_of_In; simpl; tauto.
  - rewrite build_fin_built in Hb. injection Hb as <-.
    eapply Hmain; [..|exact Hw]; try done. apply list_elem_of_In; simpl; tauto.
  - rewrite build_fin_built in Hb. injection Hb as <-.
    eapply Hmain; [..|exact Hw]; try done; [apply list_elem_of_In; simpl; tauto|].
    unfold built, set_body, set_pkt_flags, set_pkt_ack_num. cbn.
    rewrite hton16_lor_flags; [done|apply list_elem_of_In; simpl; tauto..].
Qed.

(** C32. No unauthenticated packet is accepted on an encrypted service: when
    [thread_recv_authenticate_packet] returns [POTR_OK], the received packet
    carried the ENCRYPTED flag and its payload decrypted (the tag verified)
    under the service's key, with the 40 header bytes as received as
    associated data. *)
Theorem accepted_is_authentic `{CplatByteorder} `{Platform} g (p q : packet) buf :
  encrypt_enabled (x_service g) = true ->
  thread_recv_authenticate_packet g p buf = Some (POTR_OK, q) ->
  (pkt_flags p has POTR_FLAG_ENCRYPTED) = true /\
  exists cap nonce ct hdr pt,
    read_at (pkt_payload p) 0 (Z.to_nat (pkt_payload_len p)) = Some ct /\
    mem_read buf 0 POTR_PACKET_HEADER_SIZE = Some hdr /\
    nonce = make_nonce (cplat_hton32 (pkt_session_id p)) (cplat_hton16 (pkt_flags p))
      (cplat_hton32 (nonce_val (pkt_seq_num p) (pkt_ack_num p) (pkt_flags p))) /\
    cplat_crypto_decrypt cap (encrypt_key (x_service g)) nonce hdr ct = Some pt.
Proof.
  intros Henc. unfold thread_recv_authenticate_packet, nonce_val. rewrite Henc. cbn [negb].
  destruct (pkt_flags p has POTR_FLAG_ENCRYPTED); cbn [negb andb]; [|done].
  intros Ha. split; [done|]. destruct (pkt_flags p has Z.lor POTR_FLAG_DATA POTR_FLAG_PING).
  - destruct (read_at _ _ _) as [ct|]; [|done]. destruct (mem_read _ _ _) as [hdr|]; [|done].
    cbn [mbind option_bind] in Ha. destruct (cplat_crypto_decrypt _ _ _ _ _) as [pt|] eqn:Hd; [|done].
    exists (x_crypto_buf_size g). eauto 10.
  - destruct (negb _) eqn:Htag; [done|]. apply negb_false_iff, Z.eqb_eq in Htag. rewrite Htag.
    change (Z.to_nat (Z.of_nat POTR_CRYPTO_TAG_SIZE)) with POTR_CRYPTO_TAG_SIZE.
    destruct (read_at _ _ _) as [ct|]; [|done]. destruct (mem_read _ _ _) as [hdr|]; [|done].
    cbn [mbind option_bind] in Ha. destruct (cplat_crypto_decrypt _ _ _ _ _) as [pt|] eqn:Hd; [|done].
    exists 1%nat. eauto 10.
Qed.

Definition example_nack_wire : list Z :=
  default [] (@build_ctrl_pkt_wire little_host toy_platform (example_config POTR_TYPE_UNICAST true)
    (@built little_host view example_hdr 0 77 POTR_FLAG_NACK 0 None)).

Lemma sealed_control_roundtrip_witness :
  length example_nack_wire = 56%nat /\
  exists q, @potr_internal_packet_parse little_host (Some blank_packet) (Some example_nack_wire) 56
      = Some (POTR_OK, Some q) /\
    @thread_recv_authenticate_packet little_host toy_platform
      (example_config POTR_TYPE_UNICAST true) q example_nack_wire
    = Some (POTR_OK, Packet (-7) 1700000000 3735928559 999999999 0 77 POTR_FLAG_NACK 0
        POTR_PROTOCOL_VERSION None).
Proof.
  split; [reflexivity|].
  destruct (@sealed_control_roundtrip little_host toy_platform toy_laws
    (example_config POTR_TYPE_UNICAST true) example_hdr 77 example_nack_wire blank_packet blank_packet)
    as (Hnack & _); [apply example_cfg_ok | split; simpl; lia | lia | reflexivity |].
  eapply Hnack; [reflexivity|]. vm_compute. reflexivity.
Defined.

Lemma accepted_is_authentic_witness :
  exists q q',
    @potr_internal_packet_parse little_host (Some blank_packet) (Some example_nack_wire) 56
      = Some (POTR_OK, Some q) /\
    @thread_recv_authenticate_packet little_host toy_platform
      (example_config POTR_TYPE_UNICAST true) q example_nack_wire = Some (POTR_OK, q') /\
    (pkt_flags q has POTR_FLAG_ENCRYPTED) = true.
Proof.
  eexists _, _. split; [vm_compute; reflexivity|]. split; [vm_compute; reflexivity|].
  eapply (@accepted_is_authentic little_host toy_platform (example_config POTR_TYPE_UNICAST true)
    _ _ example_nack_wire);
    [reflexivity | vm_compute; reflexivity].
Defined.
