(* ===== verification/PeerTable.v ===== *)
(** The peer table of N:1 mode: [potr_peer_table.c], and
    [potr_peer_disconnect.c]. *)

From stdpp Require Import base list numbers option.
From Stdlib Require Import ZArith Lia ZifyBool.
From S2P Require Import Prelude Types Packet Window Context PathEvent Validate.
Local Open Scope Z_scope.
Local Open Scope porter_scope.

(** A peer structure cleared by [memset]. *)
Definition zero_conn : conn :=
  Conn (SessionState 0 (Timespec 0 0) 0 false (Timespec 0 0))
    (Window None None None 0 0 0 0 0) (Window None None None 0 0 0 0 0) false
    (FragState None 0 false)
    (HealthState false (replicate POTR_MAX_PATH false) (replicate POTR_MAX_PATH 0)
       (replicate POTR_MAX_PATH 0) (Timespec 0 0) (replicate POTR_MAX_PATH (Timespec 0 0)))
    (DedupState (replicate POTR_NACK_DEDUP_SLOTS (0, 0)) 0)
    (ReorderState false 0 (Timespec 0 0)) (FinState false 0)
    (replicate POTR_MAX_PATH endpoint_clear).

(** The header fields of the packets a session sends. *)
Definition own_session_hdr (g : service_config) (s : session_state) : session_hdr :=
  let '(sec, nsec) := session_ts_to_hdr (session_ts s) in
  SessionHdr (service_id (x_service g)) sec (session_id s) nsec.

Definition id_in_use (ps : list potr_internal_peer_context) (candidate : Z) : bool :=
  existsb (fun p => p_active p && (p_peer_id p =? candidate)) ps.

(** The search loop of [allocate_peer_id]; [None] when the fuel runs out. *)
Fixpoint alloc_id_loop (fuel : nat) (ps : list potr_internal_peer_context) (candidate : Z)
    : option Z :=
  match fuel with
  | O => None
  | S fuel =>
      if (candidate =? 0) || (candidate =? POTR_PEER_ALL) then alloc_id_loop fuel ps (candidate ⊕ 1)
      else if id_in_use ps candidate then alloc_id_loop fuel ps (candidate ⊕ 1)
      else Some candidate
  end.

(** The table has at most [length ps] identifiers in use, and two are
    reserved: [length ps + 3] candidates contain a free one. *)
Definition allocate_peer_id : M Z :=
  x ← get_ctx;
  ps ← lift (x_peers x);
  id ← lift (alloc_id_loop (length ps + 3) ps (x_next_peer_id x));
  put_ctx (set_x_next_peer_id x (id ⊕ 1));;
  mret id.

(** The first slot that satisfies a test: the search loops of the table. *)
Fixpoint find_index (f : potr_internal_peer_context -> bool)
    (ps : list potr_internal_peer_context) : option nat :=
  match ps with
  | [] => None
  | p :: ps => if f p then Some O else S <$> find_index f ps
  end.

Definition potr_internal_peer_find_by_id (peer_id : Z) : M (option nat) :=
  x ← get_ctx;
  ps ← lift (x_peers x);
  mret (find_index (fun p => p_active p && (p_peer_id p =? peer_id)) ps).

Section PeerTable.
Context `{CplatByteorder} `{Platform}.

Definition potr_internal_peer_find_by_session (sid : Z) (ts : timespec) : M (option nat) :=
  x ← get_ctx;
  ps ← lift (x_peers x);
  mret (find_index (fun p => p_active p
    && (peer_session_id (c_session (p_conn p)) =? sid)
    && (cplat_timespec_cmp (peer_session_ts (c_session (p_conn p))) ts =? 0)) ps).

(** The session of a new peer, [None] when no random number is available. *)
Definition peer_generate_session (s : session_state) : M (option session_state) :=
  r ← tick random_u32;
  match r with
  | None => mret None
  | Some sid =>
      now ← tick clock_realtime;
      mret (Some (SessionState sid now (peer_session_id s) (peer_session_known s)
                    (peer_session_ts s)))
  end.

(** The three allocations of [potr_internal_window_init]. *)
Definition tick_alloc3 : M (bool * bool * bool) :=
  a ← tick alloc_ok; b ← tick alloc_ok; c ← tick alloc_ok; mret (a, b, c).

Definition init_window (w : potr_internal_window) (s : Z) : M (Z * potr_internal_window) :=
  g ← get_cfg;
  al ← tick_alloc3;
  mret (window_init al w s (window_size_cfg (x_global g)) (max_payload_cfg (x_global g))).

Definition dispose_window (w : potr_internal_window) : potr_internal_window :=
  default w (potr_internal_window_dispose (Some w)).

(** The FIN packet of a session, with its target when data has been sent. *)
Definition build_session_fin (g : service_config) (c : conn) : option packet :=
  match potr_internal_packet_build_fin (Some blank_packet) (Some (own_session_hdr g (c_session c))) with
  | (rc, Some p) =>
      if negb (rc =? POTR_OK) then None
      else if c_send_has_data c
      then Some (set_pkt_ack_num
             (set_pkt_flags p (Z.lor (pkt_flags p) (cplat_hton16 POTR_FLAG_FIN_TARGET_VALID)))
             (cplat_hton32 (win_next_seq (c_send_window c))))
      else Some p
  | _ => None
  end.

Definition potr_internal_peer_send_fin (i : nat) : M unit :=
  g ← get_cfg;
  p ← get_peer i;
  match build_session_fin g (p_conn p) with
  | None => mret tt
  | Some fin_pkt =>
      match build_ctrl_pkt_wire_nonce g fin_pkt 0 with
      | None => mret tt
      | Some wire =>
          for_range 0 POTR_MAX_PATH (fun k =>
            d ← lift (c_dest_addr (p_conn p) !! k);
            if endpoint_is_unset d then mret tt
            else v ← sock_valid k;
                 when v (_ ← socket_sendto k wire d; mret tt))
      end
  end.

Definition potr_internal_peer_table_init (max_peers : Z) : M Z :=
  ok ← tick alloc_ok;
  if negb ok then mret POTR_ERR_OUT_OF_MEMORY
  else
    x ← get_ctx;
    lock ← tick alloc_ok;
    if negb lock then put_ctx (set_x_peers x None);; mret POTR_ERR_UNKNOWN
    else
      put_ctx (set_x_next_peer_id (set_x_n_peers (set_x_peers x
        (Some (replicate (Z.to_nat max_peers) (Peer 0 false zero_conn 0 false)))) 0) 1);;
      mret POTR_OK.

Definition dispose_peer (p : potr_internal_peer_context) : potr_internal_peer_context :=
  let c := p_conn p in
  Peer (p_peer_id p) false
    (set_frag (set_recv_window (set_send_window c (dispose_window (c_send_window c)))
       (dispose_window (c_recv_window c)))
       (FragState None (frag_buf_len (c_frag c)) (frag_compressed (c_frag c))))
    (p_n_paths p) false.

Definition potr_internal_peer_table_dispose : M unit :=
  x ← get_ctx;
  match x_peers x with
  | None => mret tt
  | Some _ => put_ctx (set_x_n_peers (set_x_peers x None) 0)
  end.

Definition potr_internal_peer_table_send_fin : M unit :=
  g ← get_cfg;
  for_range 0 (Z.to_nat (x_max_peers g)) (fun i =>
    p ← get_peer i; when (p_active p) (potr_internal_peer_send_fin i)).

(** [peer->active = 0] on the error paths of [potr_internal_peer_create]. *)
Definition abandon_peer (i : nat) (id : Z) (c : conn) : M (option nat) :=
  put_peer i (Peer id false c 0 false);; mret None.

Definition potr_internal_peer_create (sender : endpoint) (path_idx : nat) : M (option nat) :=
  x ← get_ctx;
  let g := x_cfg x in
  if x_max_peers g <=? x_n_peers x then mret None
  else
    ps ← lift (x_peers x);
    match find_index (fun p => negb (p_active p)) ps with
    | None => fault
    | Some i =>
        put_peer i (Peer 0 false zero_conn 0 false);;
        id ← allocate_peer_id;
        put_peer i (Peer id true zero_conn 0 false);;
        ses ← peer_generate_session (c_session zero_conn);
        match ses with
        | None => abandon_peer i id zero_conn
        | Some ses =>
            let c := set_session zero_conn ses in
            '(rc, sw) ← init_window (c_send_window c) 0;
            let c := set_send_window c sw in
            if negb (rc =? POTR_OK) then abandon_peer i id c
            else
              '(rc, rw) ← init_window (c_recv_window c) 0;
              let c := set_recv_window c rw in
              if negb (rc =? POTR_OK)
              then abandon_peer i id (set_send_window c (dispose_window sw))
              else
                lock ← tick alloc_ok;
                ok ← tick alloc_ok;
                if negb ok then
                  abandon_peer i id (set_send_window (set_recv_window c (dispose_window rw))
                                       (dispose_window sw))
                else
                  let c := set_frag c (FragState
                    (Some (replicate (Z.to_nat (max_message_size (x_global g))) 0)) 0 false) in
                  if (POTR_MAX_PATH <=? path_idx)%nat then fault
                  else
                    let c := set_dest_addr c (<[path_idx:=sender]> (c_dest_addr c)) in
                    put_peer i (Peer id true c 1 lock);;
                    x ← get_ctx;
                    put_ctx (set_x_n_peers x (x_n_peers x + 1));;
                    mret (Some i)
        end
    end.

Definition potr_internal_peer_path_clear (i : nat) (path_idx : nat) : M unit :=
  p ← get_peer i;
  let c := p_conn p in
  d ← lift (c_dest_addr c !! path_idx);
  if endpoint_is_unset d then mret tt
  else
    let h := c_health c in
    _ ← lift (path_last_recv_ts h !! path_idx);
    let h := HealthState (health_alive h) (path_logical_alive h) (path_ping_state h)
               (remote_path_ping_state h) (last_recv_ts h)
               (<[path_idx:=Timespec 0 0]> (path_last_recv_ts h)) in
    put_peer i (Peer (p_peer_id p) (p_active p)
      (set_health (set_dest_addr c (<[path_idx:=endpoint_clear]> (c_dest_addr c))) h)
      (p_n_paths p - 1) (p_send_window_mutex p)).

Definition potr_internal_peer_free (i : nat) : M unit :=
  p ← get_peer i;
  if negb (p_active p) then mret tt
  else
    put_peer i (dispose_peer p);;
    x ← get_ctx;
    put_ctx (set_x_n_peers x (x_n_peers x - 1)).

(** [potr_peer_disconnect] on a non-null handle. *)
Definition potr_peer_disconnect (peer_id : Z) : M Z :=
  if (peer_id =? POTR_PEER_NA) || (peer_id =? POTR_PEER_ALL)
  then mret POTR_ERR_INVALID_ARGUMENT
  else
    g ← get_cfg;
    if negb (x_is_multi_peer g) then mret POTR_ERR_UNSUPPORTED
    else
      o ← potr_internal_peer_find_by_id peer_id;
      match o with
      | None => mret POTR_ERR_NOT_FOUND
      | Some i =>
          potr_internal_peer_send_fin i;;
          sync_and_emit (SlotPeer i) potr_internal_zero_path_states;;
          potr_internal_peer_free i;;
          mret POTR_OK
      end.
End PeerTable.

(** ** The table invariant *)

Lemma find_index_Some f ps i :
  find_index f ps = Some i -> exists p, ps !! i = Some p /\ f p = true.
Proof.
  revert i. induction ps as [|p ps IH]; intros i; simpl; [done|].
  destruct (f p) eqn:Hf.
  - intros [= <-]. by exists p.
  - destruct (find_index f ps) as [j|]; [|done]. intros [= <-]. by apply IH.
Qed.

Lemma find_index_None f ps : find_index f ps = None -> forall i p, ps !! i = Some p -> f p = false.
Proof.
  induction ps as [|p ps IH]; intros Hn [|i] q Hi; simpl in *; try done.
  - injection Hi as ->. by destruct (f q).
  - destruct (f p); [done|]. destruct (find_index f ps); [done|]. by eapply IH.
Qed.

Lemma count_if_all {A} (f : A -> bool) l :
  (forall i x, l !! i = Some x -> f x = true) -> count_if f l = length l.
Proof.
  induction l as [|x l IH]; intros Hall; simpl; [done|]. rewrite (Hall O x eq_refl).
  rewrite IH; [done|]. intros i y Hi. by apply (Hall (S i)).
Qed.

Lemma id_in_use_ids ps c :
  id_in_use ps c = true -> In c (map p_peer_id ps).
Proof.
  unfold id_in_use. intros (p & Hp & Hb)%existsb_exists. apply andb_true_iff in Hb as [_ Hb].
  apply Z.eqb_eq in Hb. subst. by apply in_map.
Qed.

(** The candidates the loop tries. *)
Definition candidates (c : Z) (n : nat) : list Z := map (fun k => c ⊕ Z.of_nat k) (seq 0 n).

Lemma candidates_NoDup c n : Z.of_nat n <= 4294967296 -> NoDup (candidates c n).
Proof.
  intros Hn. apply NoDup_alt. unfold candidates. intros i j x Hi Hj.
  apply list_lookup_fmap_Some in Hi as (a & -> & Ha). apply list_lookup_fmap_Some in Hj as (b & Hx & Hb).
  apply lookup_seq in Ha as [-> Ha]. apply lookup_seq in Hb as [-> Hb].
  apply (f_equal (fun z => z ⊖ c)) in Hx. rewrite !u32_dist in Hx by lia. lia.
Qed.

(** Running out of fuel means every candidate is reserved or in use. *)
Lemma alloc_id_loop_None fuel ps c :
  0 <= c < 4294967296 -> alloc_id_loop fuel ps c = None ->
  incl (candidates c fuel) (0 :: POTR_PEER_ALL :: map p_peer_id ps).
Proof.
  revert c. induction fuel as [|fuel IH]; intros c Hc Hn; [intros x []|].
  assert (candidates c (S fuel) = c :: candidates (c ⊕ 1) fuel) as ->.
  { unfold candidates. cbn [seq map]. rewrite Z.add_0_r, u32_small by done. f_equal.
    rewrite <- seq_shift, map_map. apply map_ext. intros k. rewrite u32_add_l. f_equal. lia. }
  cbn [alloc_id_loop] in Hn.
  assert (alloc_id_loop fuel ps (c ⊕ 1) = None /\ In c (0 :: POTR_PEER_ALL :: map p_peer_id ps))
    as [Hrest Hin].
  { destruct (_ || _) eqn:Hres.
    - split; [done|]. apply orb_true_iff in Hres as [?%Z.eqb_eq| ?%Z.eqb_eq]; subst; simpl; auto.
    - destruct (id_in_use ps c) eqn:Hu; [|done]. split; [done|].
      right. right. by apply id_in_use_ids. }
  apply incl_cons; [done|]. apply IH; [auto with porter|done].
Qed.

Lemma alloc_id_loop_total ps c :
  0 <= c < 4294967296 -> Z.of_nat (length ps) + 3 <= 4294967296 ->
  exists id, alloc_id_loop (length ps + 3) ps c = Some id.
Proof.
  intros Hc Hlen. destruct (alloc_id_loop (length ps + 3) ps c) as [id|] eqn:Hn; [eauto|exfalso].
  apply alloc_id_loop_None in Hn; [|done].
  apply NoDup_incl_length in Hn; [|apply NoDup_ListNoDup, candidates_NoDup; lia].
  unfold candidates in Hn. rewrite length_map, length_seq in Hn. simpl in Hn.
  rewrite length_map in Hn. lia.
Qed.

Lemma alloc_id_loop_free fuel ps c id :
  0 <= c < 4294967296 -> alloc_id_loop fuel ps c = Some id ->
  0 < id < POTR_PEER_ALL /\ id_in_use ps id = false.
Proof.
  revert c. induction fuel as [|fuel IH]; intros c Hc; [done|]. cbn [alloc_id_loop].
  destruct (_ || _) eqn:Hres; [apply IH; auto with porter|].
  destruct (id_in_use ps c) eqn:Hu; [apply IH; auto with porter|]. intros [= <-].
  split; [|done]. unfold POTR_PEER_ALL in *. lia.
Qed.

Section TableInv.
Context `{CplatByteorder}.

(** Replacing a slot of the table. *)
Lemma set_peer_ok x ps i p n :
  ctx_ok x -> x_peers x = Some ps -> (i < length ps)%nat ->
  n = Z.of_nat (count_if p_active (<[i:=p]> ps)) ->
  (p_active p = true -> peer_ok (x_cfg x) p /\
     forall j q, ps !! j = Some q -> p_active q = true -> j <> i -> p_peer_id q <> p_peer_id p) ->
  ctx_ok (set_x_n_peers (set_x_peers x (Some (<[i:=p]> ps))) n).
Proof.
  intros Hx Hps Hi Hn Hp. pose proof (xo_peers _ Hx) as Hpt. rewrite Hps in Hpt.
  destruct Hx. split; try done. cbn [x_cfg x_peers x_n_peers set_x_peers set_x_n_peers].
  destruct Hpt as [Hlen Hcnt Hok Hu]. split.
  - by rewrite length_insert.
  - done.
  - intros j q [(<- & ->)|(_ & Hj)]%list_lookup_insert_cases Ha; [by apply Hp|by eapply Hok].
  - intros j k q r Hj Hk Hq Hr Hid.
    apply list_lookup_insert_cases in Hj as [(<- & ->)|(Hne & Hj)];
      apply list_lookup_insert_cases in Hk as [(<- & ->)|(Hne' & Hk)]; try done.
    + destruct (Hp Hq) as [_ Hd]. exfalso. by apply (Hd k r Hk Hr).
    + destruct (Hp Hr) as [_ Hd]. exfalso. by apply (Hd j q Hj Hq).
    + by eapply Hu.
Qed.

Lemma put_peer_run i p w ps :
  x_peers (w_ctx w) = Some ps -> (i < length ps)%nat ->
  put_peer i p w = Some (tt, World (set_x_peers (w_ctx w) (Some (<[i:=p]> ps))) (w_tick w), []).
Proof.
  intros Hps Hi. unfold put_peer, get_ctx, lift, mbind, M_bind. rewrite Hps.
  by rewrite (proj2 (Nat.ltb_lt _ _)) by done.
Qed.

Lemma get_peer_run i p w ps :
  x_peers (w_ctx w) = Some ps -> ps !! i = Some p -> get_peer i w = Some (p, w, []).
Proof.
  intros Hps Hp. unfold get_peer, get_ctx, lift, find_peer, mbind, M_bind. rewrite Hps.
  cbn [mbind option_bind]. by rewrite Hp.
Qed.

(** Releasing a peer: the slot becomes free, nothing else changes. *)
Lemma peer_free_ok i w ps p :
  ctx_ok (w_ctx w) -> x_peers (w_ctx w) = Some ps -> ps !! i = Some p -> p_active p = true ->
  exists w', potr_internal_peer_free i w = Some (tt, w', []) /\ ctx_ok (w_ctx w') /\
    x_cfg (w_ctx w') = x_cfg (w_ctx w) /\ x_n_peers (w_ctx w') = x_n_peers (w_ctx w) - 1 /\
    x_peers (w_ctx w') = Some (<[i:=dispose_peer p]> ps) /\
    x_conn (w_ctx w') = x_conn (w_ctx w).
Proof.
  intros Hx Hps Hp Ha. pose proof (lookup_lt_Some _ _ _ Hp) as Hi.
  unfold potr_internal_peer_free.
  rewrite (bind_run_nil _ _ _ _ _ (get_peer_run _ _ _ _ Hps Hp)), Ha. cbn [negb].
  rewrite (bind_run_nil _ _ _ _ _ (put_peer_run _ (dispose_peer p) _ _ Hps Hi)).
  eexists. split; [done|]. cbn [w_ctx]. split; [|done].
  apply set_peer_ok with (ps := ps); try done.
  pose proof (xo_peers _ Hx) as Hpt. rewrite Hps in Hpt. destruct Hpt as [_ Hn _ _].
  pose proof (count_if_insert p_active ps i p (dispose_peer p) Hp) as Hc.
  rewrite Ha in Hc. simpl in Hc. simpl. lia.
Qed.
End TableInv.

Section Create.
Context `{CplatByteorder} `{Platform}.

Lemma init_window_run w0 s w :
  exists al, init_window w0 s w
    = Some (window_init al w0 s (window_size_cfg (x_global (x_cfg (w_ctx w))))
              (max_payload_cfg (x_global (x_cfg (w_ctx w)))),
            World (w_ctx w) (3 + w_tick w), []).
Proof. eexists. reflexivity. Qed.

(** The table while a new peer is set up in slot [i]: identifiers have moved
    on, the slot holds [p]. *)
Definition with_new_peer (x : potr_context) (ps : list potr_internal_peer_context) (i : nat)
    (id : Z) (p : potr_internal_peer_context) : potr_context :=
  set_x_peers (set_x_next_peer_id x (id ⊕ 1)) (Some (<[i:=p]> ps)).

Lemma put_new_peer x ps i id p q t :
  (i < length ps)%nat ->
  put_peer i q (World (with_new_peer x ps i id p) t)
  = Some (tt, World (with_new_peer x ps i id q) t, []).
Proof.
  intros Hi. rewrite (put_peer_run i q _ (<[i:=p]> ps)); [|done|by rewrite length_insert].
  unfold with_new_peer. cbn. by rewrite list_insert_insert_eq.
Qed.

Lemma abandon_new_peer x ps i id p c t :
  (i < length ps)%nat ->
  abandon_peer i id c (World (with_new_peer x ps i id p) t)
  = Some (None, World (with_new_peer x ps i id (Peer id false c 0 false)) t, []).
Proof.
  intros Hi. unfold abandon_peer.
  by rewrite (bind_run_nil _ _ _ _ _ (put_new_peer x ps i id p _ t Hi)).
Qed.

(** An abandoned slot leaves a well-formed table. *)
Lemma with_inactive_ok x ps i id p :
  ctx_ok x -> x_peers x = Some ps -> (exists q, ps !! i = Some q /\ p_active q = false) ->
  p_active p = false -> ctx_ok (with_new_peer x ps i id p).
Proof.
  intros Hx Hps (q & Hq & Hqa) Hp.
  assert (ctx_ok (set_x_next_peer_id x (id ⊕ 1))) as Hx'.
  { destruct Hx. split; try done. cbn. apply u32_range. }
  change (with_new_peer x ps i id p) with
    (set_x_n_peers (set_x_peers (set_x_next_peer_id x (id ⊕ 1)) (Some (<[i:=p]> ps))) (x_n_peers x)).
  apply set_peer_ok; [done|done|by eapply lookup_lt_Some| |by rewrite Hp].
  pose proof (xo_peers _ Hx) as Hpt. rewrite Hps in Hpt. destruct Hpt as [_ -> _ _].
  pose proof (count_if_insert p_active ps i q p Hq) as Hc. rewrite Hqa, Hp in Hc. lia.
Qed.

(** The connection of a peer just set up. *)
Definition new_peer_conn (g : service_config) (ses : session_state) sw rw (path : nat)
    (sender : endpoint) : conn :=
  set_dest_addr (set_frag (set_recv_window (set_send_window (set_session zero_conn ses) sw) rw)
    (FragState (Some (replicate (Z.to_nat (max_message_size (x_global g))) 0)) 0 false))
    (<[path:=sender]> (c_dest_addr zero_conn)).

Lemma new_peer_conn_ok g ses sw rw path sender :
  cfg_ok g -> send_window_ok g sw -> recv_window_ok g rw ->
  conn_ok g (new_peer_conn g ses sw rw path sender).
Proof.
  intros Hg Hsw Hrw. split; try done.
  - split; cbn; [|lia]. eexists. split; [done|]. by rewrite length_replicate.
  - unfold new_peer_conn. cbn [c_dest_addr set_dest_addr]. by rewrite length_insert.
Qed.

Lemma find_free_slot g ps n :
  peers_ok g ps n -> n < x_max_peers g ->
  exists i q, find_index (fun p => negb (p_active p)) ps = Some i /\
    ps !! i = Some q /\ p_active q = false.
Proof.
  intros [Hlen Hcnt _ _] Hn.
  destruct (find_index (fun p => negb (p_active p)) ps) as [i|] eqn:Hf.
  - destruct (find_index_Some _ _ _ Hf) as (q & Hq & Hb). apply negb_true_iff in Hb. eauto.
  - exfalso. pose proof (find_index_None _ _ Hf) as Hall.
    rewrite (count_if_all p_active ps) in Hcnt; [lia|].
    intros i x Hi. specialize (Hall i x Hi). by apply negb_false_iff.
Qed.

Lemma allocate_peer_id_run x ps i t :
  ctx_ok x -> x_peers x = Some ps -> (exists q, ps !! i = Some q /\ p_active q = false) ->
  let ps1 := <[i:=Peer 0 false zero_conn 0 false]> ps in
  exists id, allocate_peer_id (World (set_x_peers x (Some ps1)) t)
    = Some (id, World (with_new_peer x ps i id (Peer 0 false zero_conn 0 false)) t, []) /\
    0 < id < POTR_PEER_ALL /\
    forall j q, ps !! j = Some q -> p_active q = true -> p_peer_id q <> id.
Proof.
  intros Hx Hps (q & Hq & Hqa) ps1. pose proof Hx as [Hcfg _ _ _ _ _ _ Hpt Hid].
  rewrite Hps in Hpt. destruct Hpt as [Hlen _ _ _]. destruct Hcfg.
  destruct (alloc_id_loop_total ps1 (x_next_peer_id x)) as [id Hal];
    [done|unfold ps1; rewrite length_insert; lia|].
  destruct (alloc_id_loop_free _ _ _ _ Hid Hal) as [Hr Hu]. exists id. split_and!; try lia.
  - unfold allocate_peer_id, get_ctx, lift, mbind, M_bind.
    cbn [w_ctx x_peers set_x_peers x_next_peer_id]. by rewrite Hal.
  - intros j r Hj Ha Heq. assert (j <> i) as Hne by congruence.
    unfold id_in_use in Hu. rewrite (proj2 (existsb_exists _ _)) in Hu; [done|].
    exists r. split; [|rewrite Ha, Heq; apply Z.eqb_refl].
    apply list_elem_of_In, list_elem_of_lookup. exists j. unfold ps1.
    by rewrite list_lookup_insert_ne by done.
Qed.

(** The branches of [potr_internal_peer_create] that give up. *)
Local Ltac abandon Hab := edestruct Hab as (o & w' & Heq & ? & ? & ? & ? & ? & -> & ?);
  rewrite Heq; exists None, w'; done.

(** What [potr_internal_peer_create] does: it never faults (the abort is
    unreachable) and keeps the table well formed; on success one more peer is
    active, with a new identifier. *)
Lemma peer_create_ok sender path w ps :
  ctx_ok (w_ctx w) -> x_peers (w_ctx w) = Some ps -> (path < POTR_MAX_PATH)%nat ->
  exists o w', potr_internal_peer_create sender path w = Some (o, w', []) /\
    ctx_ok (w_ctx w') /\ x_cfg (w_ctx w') = x_cfg (w_ctx w) /\
    x_conn (w_ctx w') = x_conn (w_ctx w) /\ x_peer_port (w_ctx w') = x_peer_port (w_ctx w) /\
    is_Some (x_peers (w_ctx w')) /\
    match o with
    | None => x_n_peers (w_ctx w') = x_n_peers (w_ctx w)
    | Some i => exists p, x_peers (w_ctx w') = Some (<[i:=p]> ps) /\ p_active p = true /\
        (exists q, ps !! i = Some q /\ p_active q = false) /\
        x_n_peers (w_ctx w') = x_n_peers (w_ctx w) + 1 /\
        c_dest_addr (p_conn p) !! path = Some sender /\
        (forall j q, ps !! j = Some q -> p_active q = true -> p_peer_id q <> p_peer_id p)
    end.
Proof.
  intros Hx Hps Hpath. destruct w as [x t]. cbn [w_ctx] in *.
  unfold potr_internal_peer_create.
  rewrite get_ctx_bind. cbv zeta. cbn [w_ctx].
  destruct (Z.leb_spec (x_max_peers (x_cfg x)) (x_n_peers x)) as [Hfull|Hroom].
  { exists None, (World x t). cbn [w_ctx]. rewrite Hps. done. }
  rewrite (lift_bind _ _ _ _ Hps).
  pose proof (xo_peers _ Hx) as Hpt. rewrite Hps in Hpt.
  destruct (find_free_slot _ _ _ Hpt Hroom) as (i & q & -> & Hq & Hqa).
  pose proof (lookup_lt_Some _ _ _ Hq) as Hi.
  rewrite (bind_run_nil _ _ _ _ _ (put_peer_run i (Peer 0 false zero_conn 0 false) (World x t) ps Hps Hi)).
  cbn [w_ctx w_tick].
  destruct (allocate_peer_id_run x ps i t Hx Hps (ex_intro _ q (conj Hq Hqa)))
    as (id & Hal & Hid & Huniq).
  rewrite (bind_run_nil _ _ _ _ _ Hal).
  rewrite (bind_run_nil _ _ _ _ _ (put_new_peer x ps i id _ (Peer id true zero_conn 0 false) t Hi)).
  assert (forall c t', exists o w',
    abandon_peer i id c (World (with_new_peer x ps i id (Peer id true zero_conn 0 false)) t')
      = Some (o, w', []) /\
    ctx_ok (w_ctx w') /\ x_cfg (w_ctx w') = x_cfg x /\ x_conn (w_ctx w') = x_conn x /\
    x_peer_port (w_ctx w') = x_peer_port x /\ is_Some (x_peers (w_ctx w')) /\ o = None /\
    x_n_peers (w_ctx w') = x_n_peers x) as Hab.
  { intros c t'. rewrite abandon_new_peer by done. eexists _, _. split; [done|].
    split; [|done]. cbn. eapply with_inactive_ok; eauto. }
  unfold peer_generate_session. rewrite bind_assoc, tick_bind. cbn [w_tick w_ctx].
  destruct (random_u32 t) as [sid|]; [|rewrite ret_bind; abandon Hab].
  rewrite bind_assoc, tick_bind, ret_bind. cbn [w_tick w_ctx].
  set (ses := SessionState _ _ _ _ _).
  match goal with |- context [init_window ?w0 0] =>
    destruct (init_window_run w0 0 (World (with_new_peer x ps i id (Peer id true zero_conn 0 false)) (S (S t))))
      as [al Hiw] end.
  rewrite (bind_run_nil _ _ _ _ _ Hiw). clear Hiw. cbn [w_ctx w_tick].
  destruct (window_init _ _ _ _ _) as [rc sw] eqn:Hsw.
  destruct (init_send_window_ok (x_cfg x) _ (c_send_window zero_conn) 0 _ _ (xo_cfg _ Hx) ltac:(lia) eq_refl Hsw)
    as [[-> Hsok]| ->]; [|cbn [negb Z.eqb POTR_ERR_OUT_OF_MEMORY POTR_OK]; abandon Hab].
  clear Hsw. change (negb (POTR_OK =? POTR_OK)) with false. cbn match.
  match goal with |- context [init_window ?w0 0] =>
    destruct (init_window_run w0 0 (World (with_new_peer x ps i id (Peer id true zero_conn 0 false)) (5 + t)))
      as [al' Hiw] end.
  rewrite (bind_run_nil _ _ _ _ _ Hiw). clear Hiw. cbn [w_ctx w_tick].
  destruct (window_init _ _ _ _ _) as [rc rw] eqn:Hrw.
  destruct (init_recv_window_ok (x_cfg x) _ (c_recv_window zero_conn) 0 _ _ (xo_cfg _ Hx) ltac:(lia) (or_introl eq_refl) Hrw)
    as [(-> & Hrok & _)|(-> & _)]; [|cbn [negb Z.eqb POTR_ERR_OUT_OF_MEMORY POTR_OK]; abandon Hab].
  change (negb (POTR_OK =? POTR_OK)) with false. cbn match.
  rewrite tick_bind. cbn [w_ctx w_tick].
  match goal with |- context [alloc_ok ?n] => generalize (alloc_ok n) end. intros lock.
  rewrite tick_bind. cbn [w_ctx w_tick]. destruct (alloc_ok _); cbn [negb]; [|abandon Hab].
  rewrite (proj2 (Nat.leb_gt _ _)) by done.
  rewrite (bind_run_nil _ _ _ _ _ (put_new_peer x ps i id _ _ _ Hi)).
  rewrite get_ctx_bind. cbn [w_ctx]. rewrite put_ctx_bind. cbn [w_tick].
  change (set_dest_addr _ _) with (new_peer_conn (x_cfg x) ses sw rw path sender).
  set (p := Peer id true (new_peer_conn (x_cfg x) ses sw rw path sender) 1 lock).
  eexists (Some i), _. split; [done|]. cbn [w_ctx].
  assert (ctx_ok (set_x_next_peer_id x (id ⊕ 1))) as Hx1.
  { destruct Hx. split; try done. cbn. apply u32_range. }
  split.
  { apply set_peer_ok; [done|done|done| |].
    - destruct Hpt as [_ Hn _ _]. pose proof (count_if_insert p_active ps i q p Hq) as Hc.
      rewrite Hqa in Hc. cbn [p_active p] in Hc. cbn. lia.
    - intros _. split; [|by intros j r Hj Ha _; apply (Huniq j r)].
      split; [|done]. apply new_peer_conn_ok; [apply Hx|done|done]. }
  split_and!; try done. exists p. split_and!; try done; [by exists q|].
  cbn [p p_conn]. unfold new_peer_conn. cbn [c_dest_addr set_dest_addr].
  by rewrite list_lookup_insert_eq by (cbn; done).
Qed.
End Create.

Section TableOps.
Context `{CplatByteorder} `{Platform}.

Lemma peer_send_fin_quiet i x ps p :
  ctx_ok x -> x_peers x = Some ps -> ps !! i = Some p -> p_active p = true ->
  quiet x (potr_internal_peer_send_fin i).
Proof.
  intros Hx Hps Hp Ha. unfold potr_internal_peer_send_fin. apply quiet_get_cfg_bind.
  intros t. rewrite (bind_run_nil _ _ _ _ _ (get_peer_run i p (World x t) ps Hps Hp)).
  revert t. change (quiet x (match build_session_fin (x_cfg x) (p_conn p) with
    | None => mret tt | Some fin_pkt => match build_ctrl_pkt_wire_nonce (x_cfg x) fin_pkt 0 with
      | None => mret tt | Some wire => for_range 0 POTR_MAX_PATH (fun k =>
            d ← lift (c_dest_addr (p_conn p) !! k);
            if endpoint_is_unset d then mret tt
            else v ← sock_valid k; when v (_ ← socket_sendto k wire d; mret tt)) end end)).
  destruct (build_session_fin _ _) as [fin|]; [|auto with porter].
  destruct (build_ctrl_pkt_wire_nonce _ _ _) as [wire|]; [|auto with porter].
  apply quiet_for. intros k Hk.
  pose proof (xo_peers _ Hx) as Hpt. rewrite Hps in Hpt.
  destruct (pt_ok _ _ _ Hpt i p Hp Ha) as [[_ _ _ _ _ _ Hd] _].
  destruct (lookup_lt_is_Some_2 (c_dest_addr (p_conn p)) k) as [d Hdk];
    [lia|].
  apply (quiet_lift_bind _ _ _ d); [done|]. destruct (endpoint_is_unset d); [auto with porter|].
  apply quiet_bind; [apply quiet_sock_valid; rewrite (xo_sock _ Hx); lia|].
  intros v. apply quiet_when. intros _. apply quiet_bind; auto with porter.
Qed.

Lemma peer_path_clear_ok i path w ps p :
  ctx_ok (w_ctx w) -> x_peers (w_ctx w) = Some ps -> ps !! i = Some p -> p_active p = true ->
  (path < POTR_MAX_PATH)%nat ->
  exists w' p', potr_internal_peer_path_clear i path w = Some (tt, w', []) /\ ctx_ok (w_ctx w') /\
    x_cfg (w_ctx w') = x_cfg (w_ctx w) /\ x_n_peers (w_ctx w') = x_n_peers (w_ctx w) /\
    x_peers (w_ctx w') = Some (<[i:=p']> ps) /\ p_active p' = true /\
    p_peer_id p' = p_peer_id p /\ w_tick w' = w_tick w /\
    c_dest_addr (p_conn p') !! path = Some endpoint_clear.
Proof.
  intros Hx Hps Hp Ha Hpath. pose proof (lookup_lt_Some _ _ _ Hp) as Hi.
  pose proof (xo_peers _ Hx) as Hpt. rewrite Hps in Hpt.
  destruct (pt_ok _ _ _ Hpt i p Hp Ha) as [[Hsend Hrecv Hfrag Hhealth Hdedup Hreorder Hdest] Hid].
  destruct (lookup_lt_is_Some_2 (c_dest_addr (p_conn p)) path) as [d Hd]; [lia|].
  destruct (lookup_lt_is_Some_2 (path_last_recv_ts (c_health (p_conn p))) path) as [ts Hts];
    [rewrite (ho_recv_ts _ Hhealth); lia|].
  unfold potr_internal_peer_path_clear.
  rewrite (bind_run_nil _ _ _ _ _ (get_peer_run _ _ _ _ Hps Hp)), (lift_bind _ _ _ _ Hd).
  destruct (endpoint_is_unset d) eqn:Hu.
  { exists w, p. split; [done|]. split_and!; try done; [by rewrite list_insert_id|].
    rewrite Hd. unfold endpoint_is_unset in Hu. destruct d as [a b]. cbn in Hu.
    apply andb_true_iff in Hu as [?%Z.eqb_eq ?%Z.eqb_eq]. by subst. }
  rewrite (lift_bind _ _ _ _ Hts), (put_peer_run _ _ _ _ Hps Hi).
  eexists _, _. split; [done|]. cbn [w_ctx]. split.
  - match goal with |- ctx_ok (set_x_peers ?x ?ps') =>
      change (ctx_ok (set_x_n_peers (set_x_peers x ps') (x_n_peers x))) end.
    apply set_peer_ok; try done.
    + destruct Hpt as [_ Hn _ _]. rewrite Hn.
      match goal with |- context [<[i:=?p']> ps] =>
        pose proof (count_if_insert p_active ps i p p' Hp) as Hc2 end.
      cbn [p_active] in Hc2. lia.
    + intros _. split.
      * split; [|done]. split; try done; cbn; [|by rewrite length_insert].
        destruct Hhealth. split; try done. cbn. by rewrite length_insert.
      * intros j q Hj Hq Hne Heq. apply Hne. by eapply (pt_unique _ _ _ Hpt).
  - split_and!; try done. cbn. rewrite list_lookup_insert_eq; [done|]. lia.
Qed.
End TableOps.

Section Lifecycle.
Context `{CplatByteorder} `{Platform}.

Lemma get_peers_bind {B} (k : list potr_internal_peer_context -> M B) w ps :
  x_peers (w_ctx w) = Some ps ->
  (x ← get_ctx; ps ← lift (x_peers x); k ps) w = k ps w.
Proof. intros Hps. by rewrite get_ctx_bind, (lift_bind _ _ _ _ Hps). Qed.

(** [potr_peer_disconnect] on a well-formed context: it never faults, and
    on success the peer is gone after its events have been delivered. *)
Lemma peer_disconnect_ok id w ps :
  ctx_ok (w_ctx w) -> x_peers (w_ctx w) = Some ps ->
  exists rc w' es, potr_peer_disconnect id w = Some (rc, w', es) /\ ctx_ok (w_ctx w') /\
    x_cfg (w_ctx w') = x_cfg (w_ctx w) /\ (exists ps', x_peers (w_ctx w') = Some ps') /\
    (rc = POTR_OK -> exists i p ps', ps !! i = Some p /\ p_active p = true /\ p_peer_id p = id /\
       x_peers (w_ctx w') = Some ps' /\ id_in_use ps' id = false /\
       x_n_peers (w_ctx w') = x_n_peers (w_ctx w) - 1).
Proof.
  intros Hx Hps. unfold potr_peer_disconnect.
  destruct (_ || _); [eexists _, w, []; split; [done|]; split_and!; eauto; done|].
  rewrite get_cfg_bind. destruct (negb _); [eexists _, w, []; split; [done|]; split_and!; eauto; done|].
  unfold potr_internal_peer_find_by_id. rewrite bind_assoc, get_ctx_bind, bind_assoc.
  rewrite (lift_bind _ _ _ _ Hps), ret_bind.
  destruct (find_index _ ps) as [i|] eqn:Hf;
    [|eexists _, w, []; split; [done|]; split_and!; eauto; done].
  apply find_index_Some in Hf as (p & Hp & Hb). apply andb_true_iff in Hb as [Ha Hid].
  apply Z.eqb_eq in Hid. destruct w as [x t]. cbn [w_ctx] in *.
  destruct (peer_send_fin_quiet i x ps p Hx Hps Hp Ha t) as ([] & t' & es1 & H1).
  rewrite (bind_run _ _ _ _ _ _ H1).
  assert (slot_conn x (SlotPeer i) = Some (p_conn p)) as Hs.
  { unfold slot_conn, find_peer. rewrite Hps. simpl. rewrite Hp. simpl. by rewrite Ha. }
  destruct (sync_and_emit_run (SlotPeer i) potr_internal_zero_path_states (World x t') (p_conn p) Hs)
    as (pid & h' & _ & Hh & H2).
  rewrite (bind_run _ _ _ _ _ _ H2). cbn [w_ctx w_tick].
  rewrite (with_conn_peer _ _ _ _ _ Hps Hp).
  set (p1 := Peer (p_peer_id p) (p_active p) (set_health (p_conn p) h') (p_n_paths p) (p_send_window_mutex p)).
  assert (ctx_ok (set_x_peers x (Some (<[i:=p1]> ps)))) as Hx1.
  { unfold p1. rewrite <- (with_conn_peer x i (set_health (p_conn p) h') ps p Hps Hp).
    eapply with_conn_ok; [done|exact Hs|]. pose proof (slot_conn_ok _ _ _ Hx Hs) as [].
    split; try done. cbn. rewrite Hh. by apply sync_health_ok. }
  pose proof (lookup_lt_Some _ _ _ Hp) as Hi.
  destruct (peer_free_ok i (World (set_x_peers x (Some (<[i:=p1]> ps))) t') (<[i:=p1]> ps) p1)
    as (w' & H3 & Hx' & Hcfg & Hn & Hps' & _);
    [done|done|by apply list_lookup_insert_eq|done|].
  rewrite (bind_run _ _ _ _ _ _ H3). eexists _, w', _. split; [done|]. split; [done|].
  split; [done|]. split; [eauto|]. intros _. eexists i, p, _. split_and!; try done.
  unfold id_in_use. apply not_true_is_false. intros (r & Hr & Hrb)%existsb_exists.
  apply andb_true_iff in Hrb as [Hra Hrid]. apply Z.eqb_eq in Hrid.
  apply list_elem_of_In, list_elem_of_lookup in Hr as [j Hj].
  apply list_lookup_insert_cases in Hj as [(<- & ->)|(Hne & Hj)]; [done|].
  apply list_lookup_insert_cases in Hj as [(<- & ->)|(_ & Hj)]; [done|]. apply Hne.
  pose proof (xo_peers _ Hx) as Hpt. rewrite Hps in Hpt.
  eapply (pt_unique _ _ _ Hpt i j p r); congruence.
Qed.

(** The operations other components perform on the table. *)
Inductive table_op :=
  | TableCreate (sender : endpoint) (path : nat)
  | TableFree (i : nat)
  | TableDisconnect (id : Z).

Definition run_table_op (o : table_op) : M unit :=
  match o with
  | TableCreate sender path => _ ← potr_internal_peer_create sender path; mret tt
  | TableFree i => potr_internal_peer_free i
  | TableDisconnect id => _ ← potr_peer_disconnect id; mret tt
  end.

Definition table_op_ok (g : service_config) (o : table_op) : Prop :=
  match o with
  | TableCreate _ path => (path < POTR_MAX_PATH)%nat
  | TableFree i => Z.of_nat i < x_max_peers g
  | TableDisconnect _ => True
  end.

Fixpoint run_table_ops (ops : list table_op) : M unit :=
  match ops with [] => mret tt | o :: ops => run_table_op o;; run_table_ops ops end.

Lemma run_table_op_ok o w :
  ctx_ok (w_ctx w) -> (exists ps, x_peers (w_ctx w) = Some ps) -> table_op_ok (x_cfg (w_ctx w)) o ->
  exists w' es, run_table_op o w = Some (tt, w', es) /\ ctx_ok (w_ctx w') /\
    x_cfg (w_ctx w') = x_cfg (w_ctx w) /\ (exists ps, x_peers (w_ctx w') = Some ps).
Proof.
  intros Hx (ps & Hps) Ho. destruct o as [sender path|i|id]; cbn [run_table_op].
  - destruct (peer_create_ok sender path w ps Hx Hps Ho) as (o & w' & H1 & Hx' & Hcfg & _ & _ & Hsome & _).
    rewrite (bind_run _ _ _ _ _ _ H1). eexists w', _. split; [done|]. split; [done|]. split; [done|].
    done.
  - pose proof (xo_peers _ Hx) as Hpt. rewrite Hps in Hpt. destruct Hpt as [Hlen _ _ _].
    simpl in Ho. destruct (lookup_lt_is_Some_2 ps i) as [p Hp]; [lia|].
    destruct (p_active p) eqn:Ha.
    + destruct (peer_free_ok i w ps p Hx Hps Hp Ha) as (w' & H1 & ? & ? & _ & ? & _). eauto 10.
    + exists w, []. split; [|eauto]. unfold potr_internal_peer_free.
      by rewrite (bind_run_nil _ _ _ _ _ (get_peer_run _ _ _ _ Hps Hp)), Ha.
  - destruct (peer_disconnect_ok id w ps Hx Hps) as (rc & w' & es & H1 & ? & ? & ? & _).
    rewrite (bind_run _ _ _ _ _ _ H1). eexists w', _. split; [done|]. eauto.
Qed.

Lemma run_table_ops_ok ops w :
  ctx_ok (w_ctx w) -> is_Some (x_peers (w_ctx w)) ->
  Forall (table_op_ok (x_cfg (w_ctx w))) ops ->
  exists w' es, run_table_ops ops w = Some (tt, w', es) /\ ctx_ok (w_ctx w') /\
    x_cfg (w_ctx w') = x_cfg (w_ctx w) /\ is_Some (x_peers (w_ctx w')).
Proof.
  revert w. induction ops as [|o ops IH]; intros w Hx Hps Ho; [by eexists w, []|].
  apply Forall_cons_1 in Ho as [Ho Hos]. cbn [run_table_ops].
  destruct (run_table_op_ok o w Hx Hps Ho) as (w1 & es1 & H1 & Hx1 & Hcfg & Hps1).
  rewrite (bind_run _ _ _ _ _ _ H1). rewrite <- Hcfg in Hos.
  destruct (IH w1 Hx1 Hps1 Hos) as (w2 & es2 & -> & Hx2 & Hcfg2 & Hps2).
  eexists w2, _. split; [done|]. split; [done|]. split; [congruence|done].
Qed.

(** A table of free slots. *)
Lemma fresh_peers_ok g :
  0 <= x_max_peers g ->
  peers_ok g (replicate (Z.to_nat (x_max_peers g)) (Peer 0 false zero_conn 0 false)) 0.
Proof.
  intros Hn. assert (forall i p, replicate (Z.to_nat (x_max_peers g)) (Peer 0 false zero_conn 0 false)
    !! i = Some p -> p_active p = false) as Hin by (by intros i p [-> _]%lookup_replicate).
  split.
  - rewrite length_replicate. lia.
  - generalize (Z.to_nat (x_max_peers g)). intros n. induction n as [|n IH]; [done|]. simpl. done.
  - intros i p Hp Ha. by rewrite (Hin i p Hp) in Ha.
  - intros i j p q Hp _ Ha. by rewrite (Hin i p Hp) in Ha.
Qed.

Lemma table_init_ok w w' :
  ctx_ok (w_ctx w) -> 
  potr_internal_peer_table_init (x_max_peers (x_cfg (w_ctx w))) w = Some (POTR_OK, w', []) ->
  ctx_ok (w_ctx w') /\ x_cfg (w_ctx w') = x_cfg (w_ctx w) /\ is_Some (x_peers (w_ctx w')).
Proof.
  intros Hx. unfold potr_internal_peer_table_init. rewrite tick_bind.
  destruct (alloc_ok _); cbn [negb]; [|by intros [= ?]].
  rewrite get_ctx_bind, tick_bind. cbn [w_ctx w_tick].
  destruct (alloc_ok _); cbn [negb]; rewrite put_ctx_bind; [|by intros [= ?]].
  intros [= <-]. cbn [w_ctx]. split; [|done].
  pose proof (co_peers _ (xo_cfg _ Hx)) as Hmp.
  destruct Hx. split; try done. cbn [x_cfg x_peers x_n_peers set_x_peers set_x_n_peers set_x_next_peer_id].
  apply fresh_peers_ok. lia.
Qed.

(** C35. The peer table is consistent under every sequence of creations,
    releases and disconnections, for every behaviour of the allocator, the
    random source and the sockets: no operation faults (in particular the
    abort on a count that disagrees with the slots is unreachable and the
    search for a free identifier terminates), [n_peers] always equals the
    number of active slots and never exceeds [max_peers], the identifiers of
    active peers are pairwise distinct, and none is [POTR_PEER_NA] or
    [POTR_PEER_ALL]. *)
Theorem peer_table_consistent w w0 ops :
  ctx_ok (w_ctx w) ->
  potr_internal_peer_table_init (x_max_peers (x_cfg (w_ctx w))) w = Some (POTR_OK, w0, []) ->
  Forall (table_op_ok (x_cfg (w_ctx w))) ops ->
  exists w' es ps, run_table_ops ops w0 = Some (tt, w', es) /\
    x_peers (w_ctx w') = Some ps /\
    x_n_peers (w_ctx w') = Z.of_nat (count_if p_active ps) /\
    x_n_peers (w_ctx w') <= x_max_peers (x_cfg (w_ctx w)) /\
    (forall i p, ps !! i = Some p -> p_active p = true ->
       p_peer_id p <> POTR_PEER_NA /\ p_peer_id p <> POTR_PEER_ALL) /\
    (forall i j p q, ps !! i = Some p -> ps !! j = Some q -> p_active p = true ->
       p_active q = true -> p_peer_id p = p_peer_id q -> i = j).
Proof.
  intros Hx Hi Hops. destruct (table_init_ok w w0 Hx Hi) as (Hx0 & Hcfg & Hps0).
  rewrite <- Hcfg in Hops.
  destruct (run_table_ops_ok ops w0 Hx0 Hps0 Hops) as (w' & es & Hrun & Hx' & Hcfg' & [ps Hps]).
  pose proof (xo_peers _ Hx') as Hpt. rewrite Hps in Hpt. destruct Hpt as [Hlen Hcnt Hok Hu].
  exists w', es, ps. split_and!; try done.
  - assert (forall l, count_if p_active l <= length l)%nat as Hle.
    { induction l as [|a l IH]; simpl; [done|]. destruct (p_active a); lia. }
    specialize (Hle ps). rewrite <- Hcfg, <- Hcfg'. lia.
  - intros i p Hp Ha. destruct (Hok i p Hp Ha) as [_ Hid]. unfold POTR_PEER_NA. lia.
Qed.
End Lifecycle.

Definition example_table_world : world :=
  match @potr_internal_peer_table_init toy_platform 2
          (World (example_ctx POTR_TYPE_UNICAST_BIDIR_N1 true) 0) with
  | Some (_, w, _) => w
  | None => World (example_ctx POTR_TYPE_UNICAST_BIDIR_N1 true) 0
  end.

Definition example_table_ops : list table_op :=
  [TableCreate (Endpoint 5 6) 0; TableCreate (Endpoint 7 8) 1; TableCreate (Endpoint 7 8) 1;
   TableDisconnect 1; TableCreate (Endpoint 9 9) 3; TableFree 1].

Lemma peer_table_consistent_witness :
  exists w' es ps,
    @run_table_ops little_host toy_platform example_table_ops example_table_world
      = Some (tt, w', es) /\
    x_peers (w_ctx w') = Some ps /\
    x_n_peers (w_ctx w') = Z.of_nat (count_if p_active ps).
Proof.
  destruct (@peer_table_consistent little_host toy_platform
    (World (example_ctx POTR_TYPE_UNICAST_BIDIR_N1 true) 0) example_table_world example_table_ops)
    as (w' & es & ps & H1 & H2 & H3 & _);
    [apply example_ctx_ok | reflexivity
    | repeat constructor; simpl; unfold POTR_MAX_PATH; lia |].
  exists w', es, ps. split; [exact H1|]. split; [exact H2|exact H3].
Defined.
