(* ===== verification/Threads.v ===== *)
(** Threads and the handles of the context: the start and stop functions of
    [potr_send_thread.c], [potr_recv_thread.c] and [potr_health_thread.c], and
    the disposal functions of [api_context_cleanup.c].

    Creating a lock, a thread or a buffer into a handle that is already in use
    would lose it, and disposing of one that is not would free it twice: both
    fault, as does using a lock that does not exist. *)

From stdpp Require Import base list numbers option.
From Stdlib Require Import ZArith Lia ZifyBool.
From S2P Require Import Prelude Types Packet Window Context PathEvent Validate PeerTable.
Local Open Scope Z_scope.
Local Open Scope porter_scope.

(** ** The operating system

    Results of thread, lock, address and socket calls, one per call. *)
Class Host := {
  lock_create_ok : nat -> bool;
  thread_create_ok : nat -> bool;
  thread_join_ok : nat -> bool;
  socket_ok : nat -> bool;
  (** does ending reception also close the socket? *)
  shutdown_closes : nat -> bool;
  socket_result : nat -> cplat_result;
  cond_wait : nat -> cplat_result;
  (** [CPLAT_COMPRESS_HEADER_SIZE] *)
  compress_header_size : nat;
  cplat_ipv4_resolve : nat -> list Z -> cplat_result * Z;
  cplat_ipv4_parse : list Z -> cplat_result * Z
}.

(** ** Handles *)

Definition set_handles (r : runtime) (l : list handle) : runtime :=
  Runtime l (send_thread_running r) (rt_running r) (connect_thread_running r)
    (health_send_immediate r) (tcp_first_pkt r).

Definition acquire (h : handle) : M unit :=
  x ← get_ctx;
  if holds x h then fault
  else put_ctx (set_x_rt x (set_handles (x_rt x) (h :: rt_handles (x_rt x)))).

Definition release (h : handle) : M unit :=
  x ← get_ctx;
  if holds x h
  then put_ctx (set_x_rt x (set_handles (x_rt x) (filter (.≠ h) (rt_handles (x_rt x)))))
  else fault.

(** A use that dereferences the handle. *)
Definition need (h : handle) : M unit := x ← get_ctx; if holds x h then mret tt else fault.

(** [dispose_lock], [dispose_condvar] and [dispose_secret_buffer]: nothing
    happens for a null pointer. *)
Definition dispose (h : handle) : M unit := x ← get_ctx; when (holds x h) (release h).

(** ** Flags *)

Definition set_send_running (b : bool) : M unit :=
  x ← get_ctx;
  let r := x_rt x in
  put_ctx (set_x_rt x (Runtime (rt_handles r) b (rt_running r) (connect_thread_running r)
    (health_send_immediate r) (tcp_first_pkt r))).

(** An assignment to an array element, which must exist. *)
Definition store {A} (l : list A) (k : nat) (a : A) : M (list A) :=
  if (k <? length l)%nat then mret (<[k:=a]> l) else fault.

Definition set_running (k : nat) (b : bool) : M unit :=
  x ← get_ctx;
  let r := x_rt x in
  l ← store (rt_running r) k b;
  put_ctx (set_x_rt x (Runtime (rt_handles r) (send_thread_running r) l (connect_thread_running r)
    (health_send_immediate r) (tcp_first_pkt r))).

Definition set_connect_running (k : nat) (b : bool) : M unit :=
  x ← get_ctx;
  let r := x_rt x in
  l ← store (connect_thread_running r) k b;
  put_ctx (set_x_rt x (Runtime (rt_handles r) (send_thread_running r) (rt_running r) l
    (health_send_immediate r) (tcp_first_pkt r))).

Definition set_health_immediate (k : nat) (b : bool) : M unit :=
  x ← get_ctx;
  let r := x_rt x in
  l ← store (health_send_immediate r) k b;
  put_ctx (set_x_rt x (Runtime (rt_handles r) (send_thread_running r) (rt_running r)
    (connect_thread_running r) l (tcp_first_pkt r))).

Definition set_first_pkt (k : nat) (buf : list Z) : M unit :=
  x ← get_ctx;
  let r := x_rt x in
  l ← store (tcp_first_pkt r) k buf;
  put_ctx (set_x_rt x (Runtime (rt_handles r) (send_thread_running r) (rt_running r)
    (connect_thread_running r) (health_send_immediate r) l)).

Definition set_health_running (k : nat) (b : bool) : M unit :=
  x ← get_ctx;
  l ← store (x_health_running x) k b;
  put_ctx (set_x_health_running x l).

Definition set_sock (k : nat) (b : bool) : M unit :=
  x ← get_ctx;
  l ← store (x_sock x) k b;
  put_ctx (set_x_sock x l).

Section Threads.
Context `{Host}.

Definition create_lock (h : handle) : M bool :=
  ok ← tick lock_create_ok;
  if ok : bool then acquire h;; mret true else mret false.

Definition create_thread (h : handle) : M bool :=
  ok ← tick thread_create_ok;
  if ok : bool then acquire h;; mret true else mret false.

(** [cplat_malloc] into a pointer of the context. *)
Definition alloc_buf `{Platform} (h : handle) : M bool :=
  ok ← tick alloc_ok;
  if ok : bool then acquire h;; mret true else mret false.

(** [cplat_socket_open] into a local variable of the code that sets up path
    [k], [cplat_socket_close] of it, and its assignment to a member of the
    context, which owns it then. *)
Definition open_local (k : nat) : M bool :=
  ok ← tick socket_ok;
  if ok : bool then acquire (HLocalSock k);; mret true else mret false.
Definition close_local (k : nat) : M unit := release (HLocalSock k).
Definition hand_over (k : nat) : M unit := release (HLocalSock k).

(** Wait for the end of a thread; the handle is forgotten when that works. *)
Definition join_thread (h : handle) : M bool :=
  need h;;
  ok ← tick thread_join_ok;
  if ok : bool then release h;; mret true else mret false.

(** ** The send thread *)

Definition potr_internal_send_thread_start : M Z :=
  set_send_running true;;
  ok ← create_lock HSendWindowMutex;
  if negb ok then set_send_running false;; mret POTR_ERR_UNKNOWN
  else
    ok ← create_thread HSendThread;
    if negb ok then
      set_send_running false;; release HSendWindowMutex;; mret POTR_ERR_UNKNOWN
    else mret POTR_OK.

Definition potr_internal_send_thread_stop : M unit :=
  x ← get_ctx;
  if negb (holds x HSendThread) then mret tt
  else
    set_send_running false;;
    need HSendQueue;;
    ok ← join_thread HSendThread;
    when ok (release HSendWindowMutex).

(** ** Receive threads *)

Definition potr_internal_comm_recv_thread_start : M Z :=
  set_running 0 true;;
  ok ← create_thread (HRecvThread 0);
  if negb ok then set_running 0 false;; mret POTR_ERR_UNKNOWN else mret POTR_OK.

Definition potr_internal_comm_recv_thread_stop : M Z :=
  set_running 0 false;;
  g ← get_cfg;
  for_range 0 (x_n_path g) (fun k =>
    v ← sock_valid k;
    when v (closed ← tick shutdown_closes; when closed (set_sock k false)));;
  x ← get_ctx;
  if holds x (HRecvThread 0) then
    ok ← join_thread (HRecvThread 0);
    if negb ok then mret POTR_ERR_UNKNOWN else mret POTR_OK
  else mret POTR_OK.

Definition potr_internal_tcp_recv_thread_start (path_idx : nat) : M Z :=
  if (POTR_MAX_PATH <=? path_idx)%nat then mret POTR_ERR_INVALID_ARGUMENT
  else
    set_running path_idx true;;
    ok ← create_thread (HRecvThread path_idx);
    if negb ok then set_running path_idx false;; mret POTR_ERR_UNKNOWN else mret POTR_OK.

Definition potr_internal_tcp_recv_thread_stop (path_idx : nat) : M Z :=
  if (POTR_MAX_PATH <=? path_idx)%nat then mret POTR_ERR_INVALID_ARGUMENT
  else
    set_running path_idx false;;
    x ← get_ctx;
    if holds x (HRecvThread path_idx) then
      ok ← join_thread (HRecvThread path_idx);
      if negb ok then mret POTR_ERR_UNKNOWN else mret POTR_OK
    else mret POTR_OK.

(** ** Health threads *)

Definition potr_internal_health_thread_start : M Z :=
  g ← get_cfg;
  if x_health_interval_ms g =? 0 then mret POTR_OK
  else
    ok ← create_lock (HHealthMutex 0);
    if negb ok then mret POTR_ERR_UNKNOWN
    else
      ok ← create_lock (HHealthWakeup 0);
      if negb ok then release (HHealthMutex 0);; mret POTR_ERR_UNKNOWN
      else
        set_health_running 0 true;;
        ok ← create_thread (HHealthThread 0);
        if negb ok then
          set_health_running 0 false;;
          release (HHealthWakeup 0);; release (HHealthMutex 0);;
          mret POTR_ERR_UNKNOWN
        else mret POTR_OK.

(** Tell the health thread to end and wake it. *)
Definition signal_health_stop (k : nat) : M unit :=
  set_health_running k false;;
  need (HHealthMutex k);; need (HHealthWakeup k);;
  emit (EvHealthWake k).

Definition potr_internal_health_thread_stop : M Z :=
  x ← get_ctx;
  if negb (holds x (HHealthThread 0)) then mret POTR_OK
  else
    signal_health_stop 0;;
    ok ← join_thread (HHealthThread 0);
    if negb ok then mret POTR_ERR_UNKNOWN
    else release (HHealthWakeup 0);; release (HHealthMutex 0);; mret POTR_OK.

Definition potr_internal_tcp_health_thread_start (path_idx : nat) : M Z :=
  if (POTR_MAX_PATH <=? path_idx)%nat then mret POTR_ERR_INVALID_ARGUMENT
  else
    g ← get_cfg;
    if x_health_interval_ms g =? 0 then mret POTR_OK
    else
      set_health_running path_idx true;;
      ok ← create_thread (HHealthThread path_idx);
      if negb ok then set_health_running path_idx false;; mret POTR_ERR_UNKNOWN
      else mret POTR_OK.

Definition potr_internal_tcp_health_thread_stop (path_idx : nat) : M Z :=
  if (POTR_MAX_PATH <=? path_idx)%nat then mret POTR_ERR_INVALID_ARGUMENT
  else
    x ← get_ctx;
    if negb (holds x (HHealthThread path_idx)) then mret POTR_OK
    else
      signal_health_stop path_idx;;
      ok ← join_thread (HHealthThread path_idx);
      if negb ok then mret POTR_ERR_UNKNOWN else mret POTR_OK.

(** ** Disposal ([api_context_cleanup.c]) *)

Definition is_path_thread (h : handle) : bool :=
  match h with
  | HConnectThread k | HRecvThread k | HHealthThread k => (k <? POTR_MAX_PATH)%nat
  | _ => false
  end.

Definition api_context_has_threads (x : potr_context) : bool :=
  holds x HSendThread || existsb is_path_thread (rt_handles (x_rt x)).

Definition api_context_dispose_tcp_sync : M unit :=
  dispose HTcpStateMutex;; dispose HTcpStateCv;; dispose HTcpCloseMutex;; dispose HTcpCloseCv;;
  for_range 0 POTR_MAX_PATH (fun k =>
    dispose (HTcpSendMutex k);; dispose (HHealthMutex k);; dispose (HHealthWakeup k));;
  dispose HRecvWindowMutex;; dispose HTcpRecvMutex.

Definition set_tcp_conn_fd (k : nat) (b : bool) : M unit :=
  x ← get_ctx;
  l ← store (x_tcp_conn_fd x) k b;
  put_ctx (set_x_tcp_conn_fd x l).

(** The per-path part of [api_context_dispose_resources]. *)
Definition dispose_path (k : nat) : M unit :=
  dispose (HTcpRecvBuf k);;
  dispose (HTcpListenSock k);;
  x ← get_ctx;
  fd ← lift (x_tcp_conn_fd x !! k);
  when fd (set_tcp_conn_fd k false);;
  v ← sock_valid k;
  when v (set_sock k false).

(** The key is overwritten with zeros. *)
Definition clear_key (g : service_config) : service_config :=
  let s := x_service g in
  ServiceConfig (x_callback g)
    (ServiceDef (service_id s) (service_type s) (dst_port s) (src_port s) (ttl s) (pack_wait_ms s)
       (multicast_group s) (broadcast_addr s) (src_addr s) (dst_addr s)
       (map (fun _ => 0) (encrypt_key s)) (encrypt_enabled s) (max_peers_def s)
       (service_health_interval_ms s) (service_health_timeout_ms s) (reconnect_interval_ms s)
       (connect_timeout_ms s))
    (x_global g) (x_health_interval_ms g) (x_health_timeout_ms g) (x_role g) (x_n_path g)
    (x_is_multi_peer g) (x_max_peers g) (x_src_addr_resolved g) (x_dst_addr_resolved g)
    (x_compress_buf_size g) (x_crypto_buf_size g).

(** The windows and the reassembly buffer of the context. *)
Definition dispose_conn (c : conn) : conn :=
  set_frag (set_recv_window (set_send_window c (dispose_window (c_send_window c)))
    (dispose_window (c_recv_window c)))
    (FragState None (frag_buf_len (c_frag c)) (frag_compressed (c_frag c))).

Definition api_context_dispose_resources : M unit :=
  modify_conn SlotCtx dispose_conn;;
  potr_internal_peer_table_dispose;;
  dispose HCompressBuf;; dispose HCryptoBuf;; dispose HRecvBuf;;
  dispose HRecvCompressBuf;; dispose HRecvCryptoBuf;;
  for_range 0 POTR_MAX_PATH dispose_path;;
  dispose HSendWireBuf;;
  x ← get_ctx;
  put_ctx (set_x_cfg x (clear_key (x_cfg x)));;
  dispose HCallbackMutex.
End Threads.

(** A system on which every call works. *)
Definition toy_host : Host := {|
  lock_create_ok _ := true;
  thread_create_ok _ := true;
  thread_join_ok _ := true;
  socket_ok _ := true;
  shutdown_closes _ := false;
  socket_result _ := CPLAT_OK;
  cond_wait _ := CPLAT_OK;
  compress_header_size := 4;
  cplat_ipv4_resolve _ _ := (CPLAT_OK, 16777343);
  cplat_ipv4_parse _ := (CPLAT_OK, 16777343)
|}.
