(* ===== verification/RecvSlot.v ===== *)
(** Reassembly and delivery of messages: [thread_recv_slot.c]. *)

From stdpp Require Import base list numbers option.
From Stdlib Require Import ZArith Lia ZifyBool.
From S2P Require Import Prelude Types Packet Window Context PathEvent.
Local Open Scope Z_scope.
Local Open Scope porter_scope.

Section RecvSlot.
Context `{Platform}.

Definition slot_recv_deliver (s : slot) (payload : list Z) (compressed : bool) : M unit :=
  g ← get_cfg;
  pid ← slot_peer_id s;
  if compressed then
    match cplat_decompress (x_compress_buf_size g) payload with
    | Some data => potr_internal_callback_emit pid POTR_EVENT_DATA (CbBytes data)
    | None => mret tt
    end
  else potr_internal_callback_emit pid POTR_EVENT_DATA (CbBytes payload).

(** [memcpy(frag_buf + frag_buf_len, elem->payload, elem->payload_len)] and
    the new length. *)
Definition frag_append (f : frag_state) (bs : list Z) : option frag_state :=
  buf ← frag_buf f;
  buf' ← mem_write buf (frag_buf_len f) bs;
  Some (FragState (Some buf') (frag_buf_len f + length bs) (frag_compressed f)).

Definition thread_recv_slot_deliver_payload_elem (s : slot) (elem : packet) : M unit :=
  g ← get_cfg;
  c ← get_conn s;
  let f := c_frag c in
  let len := Z.to_nat (pkt_payload_len elem) in
  let max_len := Z.to_nat (max_message_size (x_global g)) in
  if negb (health_alive (c_health c)) then mret tt
  else if pkt_flags elem has POTR_FLAG_MORE_FRAG then
    if (frag_buf_len f + len <=? max_len)%nat then
      let comp := if (frag_buf_len f =? 0)%nat
                  then pkt_flags elem has POTR_FLAG_COMPRESSED else frag_compressed f in
      bs ← lift (read_at (pkt_payload elem) 0 len);
      f' ← lift (frag_append (FragState (frag_buf f) (frag_buf_len f) comp) bs);
      put_conn s (set_frag c f')
    else put_conn s (set_frag c (FragState (frag_buf f) 0 false))
  else if (0 <? frag_buf_len f)%nat then
    (if (frag_buf_len f + len <=? max_len)%nat then
       bs ← lift (read_at (pkt_payload elem) 0 len);
       f' ← lift (frag_append f bs);
       put_conn s (set_frag c f');;
       when (x_callback g)
         (bs ← lift (read_at (frag_buf f') 0 (frag_buf_len f'));
          slot_recv_deliver s bs (frag_compressed f'))
     else mret tt);;
    modify_conn s (fun c => set_frag c (FragState (frag_buf (c_frag c)) 0 false))
  else
    when (x_callback g)
      (bs ← lift (read_at (pkt_payload elem) 0 len);
       slot_recv_deliver s bs (pkt_flags elem has POTR_FLAG_COMPRESSED)).

(** ** Reassembly as a function of the elements

    The state is the bytes collected so far and whether they are compressed;
    a step yields the new state and the completed message, if any. *)
Definition reasm (max_len : nat) (st : list Z * bool) (flags : Z) (bs : list Z)
    : (list Z * bool) * option (list Z * bool) :=
  let '(acc, comp) := st in
  if flags has POTR_FLAG_MORE_FRAG then
    if (length acc + length bs <=? max_len)%nat
    then ((acc ++ bs, if (length acc =? 0)%nat then flags has POTR_FLAG_COMPRESSED else comp), None)
    else (([], false), None)
  else if (0 <? length acc)%nat then
    (([], false), if (length acc + length bs <=? max_len)%nat then Some (acc ++ bs, comp) else None)
  else (st, Some (bs, flags has POTR_FLAG_COMPRESSED)).

(** A sequence of elements: the state at the end and the messages. *)
Fixpoint reasm_all (max_len : nat) (st : list Z * bool) (es : list (Z * list Z))
    : (list Z * bool) * list (list Z * bool) :=
  match es with
  | [] => (st, [])
  | (flags, bs) :: es =>
      let '(st', o) := reasm max_len st flags bs in
      let '(st'', out) := reasm_all max_len st' es in
      (st'', option_list o ++ out)
  end.

Definition frag_view (f : frag_state) : list Z * bool :=
  (take (frag_buf_len f) (default [] (frag_buf f)), frag_compressed f).

(** The callback for a completed message. *)
Definition deliver_effects (g : service_config) (pid : Z) (o : option (list Z * bool))
    : list effect :=
  match o with
  | Some (bs, comp) =>
      if x_callback g then
        if comp : bool then
          match cplat_decompress (x_compress_buf_size g) bs with
          | Some d => [EvCallback pid POTR_EVENT_DATA (CbBytes d)]
          | None => []
          end
        else [EvCallback pid POTR_EVENT_DATA (CbBytes bs)]
      else []
  | None => []
  end.

Lemma callback_emit_run pid ev d w :
  potr_internal_callback_emit pid ev d w
  = Some (tt, w, if x_callback (x_cfg (w_ctx w)) then [EvCallback pid ev d] else []).
Proof.
  unfold potr_internal_callback_emit. rewrite get_cfg_bind.
  destruct (x_callback _) eqn:Hcb; [|done]. by rewrite callback_emit_locked_run, Hcb.
Qed.

Lemma slot_recv_deliver_run s bs comp w pid :
  slot_peer_id s w = Some (pid, w, []) ->
  slot_recv_deliver s bs comp w
  = Some (tt, w, deliver_effects (x_cfg (w_ctx w)) pid (Some (bs, comp))).
Proof.
  intros Hid. unfold slot_recv_deliver. rewrite get_cfg_bind, (bind_run_nil _ _ _ _ _ Hid).
  unfold deliver_effects. destruct comp; [|apply callback_emit_run].
  destruct (cplat_decompress _ _); [apply callback_emit_run|]. by destruct (x_callback _).
Qed.

Lemma frag_append_spec g f bs :
  frag_ok g f -> (frag_buf_len f + length bs <= Z.to_nat (max_message_size (x_global g)))%nat ->
  exists f', frag_append f bs = Some f' /\ frag_ok g f' /\
    frag_buf_len f' = (frag_buf_len f + length bs)%nat /\
    frag_view f' = (fst (frag_view f) ++ bs, frag_compressed f) /\
    read_at (frag_buf f') 0 (frag_buf_len f') = Some (fst (frag_view f) ++ bs).
Proof.
  intros [(buf & Hbuf & Hlen) Hle] Hfit. unfold frag_append. rewrite Hbuf. cbn [mbind option_bind].
  rewrite (mem_write_Some buf) by lia. cbn [mbind option_bind].
  set (buf' := take (frag_buf_len f) buf ++ bs ++ drop (frag_buf_len f + length bs) buf).
  assert (length buf' = length buf) as Hl.
  { unfold buf'. rewrite !length_app, length_take, length_drop. lia. }
  assert (take (frag_buf_len f + length bs) buf' = take (frag_buf_len f) buf ++ bs) as Htk.
  { unfold buf'. rewrite app_assoc.
    assert (length (take (frag_buf_len f) buf ++ bs) = (frag_buf_len f + length bs)%nat) as <-
      by (rewrite length_app, length_take; lia).
    apply take_app_length. }
  eexists. split; [done|]. cbn [frag_buf frag_buf_len frag_compressed]. split_and!.
  - split; cbn [frag_buf frag_buf_len]; [|lia]. exists buf'. split; [done|]. by rewrite Hl.
  - done.
  - unfold frag_view. rewrite Hbuf. cbn [frag_buf frag_buf_len frag_compressed from_option id].
    unfold id. by rewrite Htk.
  - unfold read_at. cbn [mbind option_bind]. rewrite mem_read_Some by (cbn; lia). rewrite drop_0, Htk.
    unfold frag_view. by rewrite Hbuf.
Qed.

Lemma frag_view_length g f : frag_ok g f -> length (fst (frag_view f)) = frag_buf_len f.
Proof.
  intros [(buf & Hbuf & Hlen) Hle]. unfold frag_view. rewrite Hbuf. cbn [fst from_option]. unfold id.
  rewrite length_take. lia.
Qed.
End RecvSlot.

Section RecvSlotSpec.
Context `{CplatByteorder} `{Platform}.

(** Delivering one element refines [reasm]: while the connection is alive
    the collected bytes and the callback are those of the function, and a
    connection that is not alive drops the element. *)
Lemma deliver_elem_run s (elem : packet) bs w c pid :
  ctx_ok (w_ctx w) -> slot_conn (w_ctx w) s = Some c -> slot_peer_id s w = Some (pid, w, []) ->
  pkt_payload elem = Some bs -> (Z.to_nat (pkt_payload_len elem) <= length bs)%nat ->
  exists f' es,
    thread_recv_slot_deliver_payload_elem s elem w
    = Some (tt, World (with_conn (w_ctx w) s (set_frag c f')) (w_tick w), es) /\
    frag_ok (x_cfg (w_ctx w)) f' /\
    (if health_alive (c_health c) then
       let r := reasm (Z.to_nat (max_message_size (x_global (x_cfg (w_ctx w))))) (frag_view (c_frag c))
                  (pkt_flags elem) (take (Z.to_nat (pkt_payload_len elem)) bs) in
       frag_view f' = fst r /\ es = deliver_effects (x_cfg (w_ctx w)) pid (snd r)
     else f' = c_frag c /\ es = []).
Proof.
  intros Hx Hs Hid Hpay Hlen. destruct w as [x t]. cbn [w_ctx w_tick] in *.
  pose proof (ok_frag _ _ (slot_conn_ok _ _ _ Hx Hs)) as Hf.
  assert (set_frag c (c_frag c) = c) as Hsame by (by destruct c).
  unfold thread_recv_slot_deliver_payload_elem. rewrite get_cfg_bind.
  rewrite (get_conn_bind _ _ _ _ _ Hs). cbv zeta. cbn [w_ctx].
  destruct (health_alive (c_health c)); cbn [negb].
  2: { exists (c_frag c), []. rewrite Hsame, with_conn_same by done. done. }
  set (len := Z.to_nat (pkt_payload_len elem)) in *.
  assert (read_at (pkt_payload elem) 0 len = Some (take len bs)) as Hrd.
  { unfold read_at. rewrite Hpay. cbn [mbind option_bind]. by rewrite mem_read_Some, drop_0. }
  assert (length (take len bs) = len) as Htl by (rewrite length_take; lia).
  pose proof (frag_view_length _ _ Hf) as Hvl.
  assert (forall b, frag_ok (x_cfg x) (FragState (frag_buf (c_frag c)) 0 b)) as Hzero.
  { intros b. destruct Hf. split; [done|]. cbn. lia. }
  unfold reasm. destruct (frag_view (c_frag c)) as [acc comp] eqn:Hv. cbn [fst] in Hvl.
  rewrite Hvl, Htl. destruct (pkt_flags elem has POTR_FLAG_MORE_FRAG).
  - destruct (Nat.leb_spec (frag_buf_len (c_frag c) + len)
      (Z.to_nat (max_message_size (x_global (x_cfg x))))) as [Hfit|Hfit].
    + rewrite (lift_bind _ _ _ _ Hrd).
      set (cb := if (frag_buf_len (c_frag c) =? 0)%nat then _ else _).
      destruct (frag_append_spec (x_cfg x) (FragState (frag_buf (c_frag c)) (frag_buf_len (c_frag c)) cb)
        (take len bs)) as (f' & Ha & Hok & _ & Hview & _).
      { destruct Hf. by split. }
      { cbn. lia. }
      rewrite (lift_bind _ _ _ _ Ha), (put_conn_at _ _ _ _ _ Hs).
      eexists f', []. split; [done|]. split; [done|]. split; [|done]. cbn [fst]. rewrite Hview.
      cbn [frag_compressed]. unfold frag_view in Hv |- *. cbn. injection Hv as <- <-. done.
    + rewrite (put_conn_at _ _ _ _ _ Hs). eexists _, []. split; [done|]. split; [apply Hzero|].
      cbn. done.
  - destruct (Nat.ltb_spec 0 (frag_buf_len (c_frag c))) as [Hpos|Hpos].
    + destruct (Nat.leb_spec (frag_buf_len (c_frag c) + len)
        (Z.to_nat (max_message_size (x_global (x_cfg x))))) as [Hfit|Hfit].
      2: { rewrite ret_bind, (modify_conn_run _ _ _ _ _ Hs). eexists _, [].
           split; [done|]. split; [apply Hzero|]. done. }
      destruct (frag_append_spec (x_cfg x) (c_frag c) (take len bs)) as (f' & Ha & Hok & _ & Hview & Hrf);
        [done|lia|].
      rewrite bind_assoc, (lift_bind _ _ _ _ Hrd), bind_assoc, (lift_bind _ _ _ _ Ha).
      rewrite bind_assoc, (put_conn_bind _ _ _ _ _ _ Hs). cbn [w_ctx w_tick].
      exists (FragState (frag_buf f') 0 false),
        (deliver_effects (x_cfg x) pid (Some (acc ++ take len bs, comp))).
      assert (frag_compressed f' = comp /\ fst (frag_view (c_frag c)) = acc) as [Hfc Hacc].
      { rewrite Hv. split; [|done]. replace (frag_compressed f') with (snd (frag_view f')) by done.
        rewrite Hview. unfold frag_view in Hv. by injection Hv. }
      rewrite Hacc in Hrf. split.
      * assert (when (x_callback (x_cfg x))
          (bs0 ← lift (read_at (frag_buf f') 0 (frag_buf_len f'));
           slot_recv_deliver s bs0 (frag_compressed f')) (World (with_conn x s (set_frag c f')) t)
          = Some (tt, World (with_conn x s (set_frag c f')) t,
              deliver_effects (x_cfg x) pid (Some (acc ++ take len bs, comp)))) as Hwhen.
        { unfold when. destruct (x_callback (x_cfg x)) eqn:Hcb; [|by unfold deliver_effects; rewrite Hcb].
          rewrite (lift_bind _ _ _ _ Hrf), Hfc.
          rewrite (slot_recv_deliver_run _ _ _ _ _ (slot_peer_id_with _ _ _ _ _ _ Hs Hid)).
          cbn [w_ctx]. by rewrite with_conn_cfg. }
        rewrite (bind_run _ _ _ _ _ _ Hwhen).
        rewrite (modify_conn_run _ _ _ _ _ (slot_conn_with _ _ _ _ Hs)). cbn [w_ctx w_tick c_frag].
        rewrite app_nil_r, (with_conn_twice _ _ _ _ _ Hs). done.
      * split; [|done]. destruct Hok. split; [done|]. cbn. lia.
    + unfold when. destruct (x_callback (x_cfg x)) eqn:Hcb.
      * rewrite (lift_bind _ _ _ _ Hrd), (slot_recv_deliver_run _ _ _ _ _ Hid).
        exists (c_frag c), (deliver_effects (x_cfg x) pid (Some (take len bs, pkt_flags elem has POTR_FLAG_COMPRESSED))).
        rewrite Hsame, with_conn_same by done. split; [done|]. split; [done|]. cbn. done.
      * exists (c_frag c), []. rewrite Hsame, with_conn_same by done. split; [done|].
        split; [done|]. cbn. rewrite Hcb. done.
Qed.
End RecvSlotSpec.
