(* ===== verification/Session.v ===== *)
(** Sessions and path states of a receiver: [thread_recv_session.c].

    The remote end names its sessions by a start time and a random identifier.
    A receiver follows the newest session it has heard of; adopting a newer one
    restarts the receive window. *)

From stdpp Require Import base list numbers option.
From Stdlib Require Import ZArith Lia ZifyBool.
From S2P Require Import Prelude Types Packet Window Context PathEvent PeerTable.
Local Open Scope Z_scope.
Local Open Scope porter_scope.

(** Assignments to single members of the health state. *)
Definition set_ping (h : health_state) (l : list Z) : health_state :=
  HealthState (health_alive h) (path_logical_alive h) l (remote_path_ping_state h)
    (last_recv_ts h) (path_last_recv_ts h).
Definition set_remote_ping (h : health_state) (l : list Z) : health_state :=
  HealthState (health_alive h) (path_logical_alive h) (path_ping_state h) l
    (last_recv_ts h) (path_last_recv_ts h).
Definition set_last_recv (h : health_state) (t : timespec) : health_state :=
  HealthState (health_alive h) (path_logical_alive h) (path_ping_state h) (remote_path_ping_state h)
    t (path_last_recv_ts h).
Definition set_path_last_recv (h : health_state) (l : list timespec) : health_state :=
  HealthState (health_alive h) (path_logical_alive h) (path_ping_state h) (remote_path_ping_state h)
    (last_recv_ts h) l.

(** [ts.tv_sec = 0]. *)
Definition clear_sec (t : timespec) : timespec := Timespec 0 (tv_nsec t).

Definition slot_clear_pending_fin (c : conn) : conn := set_fin c (FinState false 0).

Definition pkt_session_ts (pkt : packet) : timespec :=
  session_ts_from_hdr (pkt_session_tv_sec pkt) (pkt_session_tv_nsec pkt).

(** [memset(states, 0, POTR_MAX_PATH)]. *)
Definition zero_ping : list Z := replicate POTR_MAX_PATH 0.

(** [thread_recv_set_path_ping_state] on element [k] of [states]. *)
Definition thread_recv_set_path_ping_state (states : list Z) (k : nat) (next : Z)
    : option (bool * list Z) :=
  st ← states !! k;
  Some (if st =? next then (false, states) else (true, <[k:=next]> states)).

(** The loop over [count] elements. *)
Fixpoint set_all_loop (states : list Z) (k count : nat) (next : Z) (changed : bool)
    : option (bool * list Z) :=
  match count with
  | O => Some (changed, states)
  | S count =>
      st ← states !! k;
      if st =? next then set_all_loop states (S k) count next changed
      else set_all_loop (<[k:=next]> states) (S k) count next true
  end.

Definition thread_recv_set_all_path_ping_states (states : list Z) (count : nat) (next : Z)
    : option (bool * list Z) := set_all_loop states 0 count next false.

Definition thread_recv_disconnect_service_all_paths : M unit :=
  sync_and_emit SlotCtx potr_internal_zero_path_states.

Definition thread_recv_disconnect_peer_all_paths (i : nat) : M unit :=
  sync_and_emit (SlotPeer i) potr_internal_zero_path_states.

(** The two statements that make every path of a slot undefined on both
    sides: [thread_recv_set_all_path_ping_states] and the [memset] of the
    remote states. *)
Definition clear_ping_states (s : slot) : M bool :=
  c ← get_conn s;
  '(ch, l) ← lift (thread_recv_set_all_path_ping_states (path_ping_state (c_health c)) POTR_MAX_PATH
                     POTR_PING_STATE_UNDEFINED);
  put_conn s (set_health c (set_remote_ping (set_ping (c_health c) l) zero_ping));;
  mret ch.

Section Session.
Context `{Platform}.

(** [potr_internal_window_init(slot->recv_window, seq, ...)], the result
    ignored. *)
Definition reinit_recv_window (s : slot) (seq : Z) : M unit :=
  c ← get_conn s;
  '(_, w) ← init_window (c_recv_window c) seq;
  put_conn s (set_recv_window c w).

(** The connection after a switch, the window apart. *)
Definition follow (c : conn) (pkt : packet) : conn :=
  let ses := c_session c in
  slot_clear_pending_fin (set_reorder_pending (set_session c
    (SessionState (session_id ses) (session_ts ses) (pkt_session_id pkt) true
       (pkt_session_ts pkt))) false).

(** The assignments at the end of [thread_recv_session_adopt] (and in its
    branch for the first contact). *)
Definition switch_session (s : slot) (c : conn) (pkt : packet) : M bool :=
  put_conn s (follow c pkt);;
  reinit_recv_window s (pkt_seq_num pkt);;
  mret true.

(** [thread_recv_session_adopt]: does the packet belong to the followed
    session, possibly after switching to it? *)
Definition thread_recv_session_adopt (s : slot) (pkt : packet) : M bool :=
  c ← get_conn s;
  let ses := c_session c in
  if negb (peer_session_known ses) then switch_session s c pkt
  else
    let ts_cmp := cplat_timespec_cmp (pkt_session_ts pkt) (peer_session_ts ses) in
    if 0 <? ts_cmp then switch_session s c pkt
    else if ts_cmp <? 0 then mret false
    else if peer_session_id ses <? pkt_session_id pkt then switch_session s c pkt
    else mret (pkt_session_id pkt =? peer_session_id ses).

Definition thread_recv_update_path_health (s : slot) (path_idx : nat) : M bool :=
  now_ts ← tick clock_monotonic;
  c ← get_conn s;
  let h := c_health c in
  _ ← lift (path_last_recv_ts h !! path_idx);
  let h := set_path_last_recv (set_last_recv h now_ts)
             (<[path_idx:=now_ts]> (path_last_recv_ts h)) in
  '(ch, l) ← lift (thread_recv_set_path_ping_state (path_ping_state h) path_idx
                     POTR_PING_STATE_NORMAL);
  put_conn s (set_health c (set_ping h l));;
  mret ch.

Definition thread_recv_sync_path_state (s : slot) : M unit :=
  match s with
  | SlotPeer i =>
      p ← get_peer i;
      next ← lift (potr_internal_copy_bidir_n1_path_states p);
      sync_and_emit (SlotPeer i) next
  | SlotCtx =>
      x ← get_ctx;
      let t := service_type (x_service (x_cfg x)) in
      next ← lift (if is_tcp_type t then potr_internal_copy_tcp_path_states x
                   else if type_eqb t POTR_TYPE_UNICAST_BIDIR
                   then potr_internal_copy_bidir_udp_path_states (c_health (x_conn x))
                   else potr_internal_copy_oneway_path_states (c_health (x_conn x)));
      sync_and_emit SlotCtx next
  end.

Definition thread_recv_learn_sender_path (s : slot) (path_idx : nat) (sender : endpoint) : M unit :=
  match s with
  | SlotPeer i =>
      p ← get_peer i;
      let c := p_conn p in
      d ← lift (c_dest_addr c !! path_idx);
      if negb (endpoint_is_unset d)
      then put_conn s (set_dest_addr c (<[path_idx:=Endpoint (ep_address d) (ep_port sender)]>
                                          (c_dest_addr c)))
      else put_peer i (Peer (p_peer_id p) (p_active p)
             (set_dest_addr c (<[path_idx:=sender]> (c_dest_addr c))) (p_n_paths p + 1)
             (p_send_window_mutex p))
  | SlotCtx =>
      x ← get_ctx;
      let sv := x_service (x_cfg x) in
      _ ← lift (x_peer_port x !! path_idx);
      put_ctx (set_x_peer_port x (<[path_idx:=ep_port sender]> (x_peer_port x)));;
      when (type_eqb (service_type sv) POTR_TYPE_UNICAST_BIDIR)
        (c ← get_conn SlotCtx;
         d ← lift (c_dest_addr c !! path_idx);
         let d := if addr_is_empty (src_addr sv) 0 && (ep_address d =? 0)
                  then Endpoint (ep_address sender) (ep_port d) else d in
         let d := if ep_port d =? 0 then Endpoint (ep_address d) (ep_port sender) else d in
         put_conn SlotCtx (set_dest_addr c (<[path_idx:=d]> (c_dest_addr c))))
  end.
End Session.

Lemma set_all_spec states next :
  exists ch, thread_recv_set_all_path_ping_states states (length states) next
    = Some (ch, replicate (length states) next) /\
    (ch = false <-> states = replicate (length states) next).
Proof.
  unfold thread_recv_set_all_path_ping_states.
  assert (forall l pre b, exists ch,
    set_all_loop (pre ++ l) (length pre) (length l) next b = Some (ch, pre ++ replicate (length l) next) /\
    (ch = false <-> b = false /\ l = replicate (length l) next)) as Hgen.
  { induction l as [|a l IH]; intros pre b; [exists b; cbn; rewrite app_nil_r; split; [done|tauto]|].
    cbn [length set_all_loop replicate].
    rewrite lookup_app_r, Nat.sub_diag by lia. cbn [lookup list_lookup mbind option_bind].
    destruct (Z.eqb_spec a next) as [->|Hne].
    - destruct (IH (pre ++ [next]) b) as (ch & Hl & Hch).
      rewrite <- app_assoc, length_app in Hl. cbn [length app] in Hl. rewrite Nat.add_1_r in Hl.
      exists ch. rewrite Hl, <- app_assoc. split; [done|]. rewrite Hch. intuition congruence.
    - destruct (IH (pre ++ [next]) true) as (ch & Hl & Hch).
      rewrite <- app_assoc, length_app in Hl. cbn [length app] in Hl. rewrite Nat.add_1_r in Hl.
      exists ch. rewrite insert_app_r_alt, Nat.sub_diag by lia. cbn [insert list_insert].
      rewrite Hl, <- app_assoc. split; [done|]. rewrite Hch. intuition congruence. }
  destruct (Hgen states [] false) as (ch & Hl & Hch). exists ch. split; [done|]. tauto.
Qed.

Lemma set_ping_state_spec states k next :
  (k < length states)%nat ->
  exists ch, thread_recv_set_path_ping_state states k next = Some (ch, <[k:=next]> states).
Proof.
  intros Hk. destruct (lookup_lt_is_Some_2 _ _ Hk) as [st Hst].
  unfold thread_recv_set_path_ping_state. rewrite Hst. cbn [mbind option_bind].
  destruct (Z.eqb_spec st next) as [->|]; [|by eexists].
  exists false. by rewrite list_insert_id.
Qed.

Section SessionOk.
Context `{CplatByteorder} `{Platform}.

Lemma keeps_sync g s next :
  length next = POTR_MAX_PATH -> keeps (good g s) (sync_and_emit s next).
Proof.
  intros Hn w [[Hx Hg] [c Hs]].
  destruct (sync_and_emit_ok s next w c Hx Hs Hn) as (w' & es & c' & Hr & Hx' & Hg' & Hs' & _).
  exists tt, w', es. split; [done|]. split; [split; [done|congruence]|by eexists].
Qed.

Lemma keeps_disconnect_service g : keeps (good g SlotCtx) thread_recv_disconnect_service_all_paths.
Proof. by apply keeps_sync. Qed.

Lemma keeps_disconnect_peer g i :
  keeps (good g (SlotPeer i)) (thread_recv_disconnect_peer_all_paths i).
Proof. by apply keeps_sync. Qed.

Lemma keeps_clear_ping_states g s : keeps (good g s) (clear_ping_states s).
Proof.
  apply triple_get_conn_bind. intros c Hc. pose proof (ok_health _ _ Hc) as Hh.
  destruct (set_all_spec (path_ping_state (c_health c)) POTR_PING_STATE_UNDEFINED) as (ch & Hch & _).
  rewrite (ho_ping _ Hh) in Hch. eapply (keeps_lift_bind _ _ (ch, _)); [exact Hch|].
  apply keeps_bind; [|auto with porter]. apply keeps_put_conn. conn_solve. by destruct Hh.
Qed.

Lemma init_window_any x t w seq :
  exists al t', init_window w seq (World x t)
  = Some (window_init al w seq (window_size_cfg (x_global (x_cfg x)))
            (max_payload_cfg (x_global (x_cfg x))), World x t', []).
Proof. eexists _, _. unfold init_window. by rewrite get_cfg_bind. Qed.

(** Reinitialising the receive window of a connection cannot fail: its
    buffers already have the configured size. *)
Lemma reinit_recv_window_run x t s c seq :
  ctx_ok x -> slot_conn x s = Some c -> 0 <= seq < 4294967296 ->
  exists rw t', reinit_recv_window s seq (World x t)
    = Some (tt, World (with_conn x s (set_recv_window c rw)) t', []) /\
    recv_window_ok (x_cfg x) rw /\ win_base_seq rw = seq /\ win_next_seq rw = seq /\
    recv_repr rw (replicate (Z.to_nat (window_size_cfg (x_global (x_cfg x)))) None).
Proof.
  intros Hx Hs Hseq. pose proof (slot_conn_ok _ _ _ Hx Hs) as Hc.
  pose proof (ok_recv _ _ Hc) as Hrw. pose proof (xo_cfg _ Hx) as [].
  unfold reinit_recv_window. rewrite (get_conn_bind _ _ _ _ _ Hs).
  destruct (init_window_any x t (c_recv_window c) seq) as (al & t' & Hi).
  rewrite (bind_run_nil _ _ _ _ _ Hi). destruct (window_init _ _ _ _ _) as [rc rw] eqn:Hw.
  rewrite (put_conn_at _ _ _ _ _ Hs). exists rw, t'. split; [done|].
  unfold POTR_MAX_WINDOW_SIZE in *. pose proof Hrw as (Hdim & sl & Hrepr & _).
  destruct (window_init_spec al (c_recv_window c) seq (window_size_cfg (x_global (x_cfg x)))
    (max_payload_cfg (x_global (x_cfg x))) rc rw ltac:(lia) Hseq
    (or_intror (ex_intro _ sl (proj1 (proj2 Hrepr)))) Hw)
    as [(-> & Hb & Hsz & Hm & Hr)|(-> & Hal & Hn)].
  - split_and!; try done; [split; [done|]|by rewrite (proj1 Hr)].
    eexists. split; [done|]. apply slot_bytes_empty.
  - exfalso. destruct (recv_repr_shape _ _ Hrepr) as (ps & vs & pool & Hsh & _).
    destruct Hdim as [Hd1 Hd2]. unfold window_init in Hw.
    rewrite (ws_packets _ _ _ _ Hsh), Hd1, Hd2, !Z.eqb_refl in Hw. by injection Hw as ?.
Qed.

Lemma keeps_reinit_recv_window g s seq :
  0 <= seq < 4294967296 -> keeps (good g s) (reinit_recv_window s seq).
Proof.
  intros Hseq [x t] [[Hx Hg] [c Hs]]. cbn [w_ctx] in *.
  destruct (reinit_recv_window_run x t s c seq Hx Hs Hseq) as (rw & t' & Hr & Hrw & _).
  eexists _, _, _. split; [done|]. pose proof (slot_conn_ok _ _ _ Hx Hs) as Hc.
  split; [split|]; cbn [w_ctx].
  - eapply with_conn_ok; [done..|]. conn_solve.
  - by rewrite with_conn_cfg.
  - eexists. by eapply slot_conn_with.
Qed.

Lemma fill_states_length f states : fill_states f = Some states -> length states = POTR_MAX_PATH.
Proof. unfold fill_states. intros Hf%length_mapM. by rewrite length_seq in Hf. Qed.

Lemma fill_states_total f :
  (forall k, (k < POTR_MAX_PATH)%nat -> is_Some (f k)) ->
  exists states, fill_states f = Some states /\ length states = POTR_MAX_PATH.
Proof.
  intros Hf. destruct (fill_states f) as [states|] eqn:Hs; [eauto using fill_states_length|].
  exfalso. unfold fill_states in Hs. apply mapM_None_1 in Hs.
  apply Exists_exists in Hs as (k & Hk & Hn). apply in_seq in Hk.
  destruct (Hf k ltac:(lia)) as [b Hb]. congruence.
Qed.

Lemma keeps_update_path_health g s path :
  (path < POTR_MAX_PATH)%nat -> keeps (good g s) (thread_recv_update_path_health s path).
Proof.
  intros Hp. unfold thread_recv_update_path_health. apply keeps_bind; [apply keeps_tick|].
  intros now. apply triple_get_conn_bind. intros c Hc. pose proof (ok_health _ _ Hc) as Hh.
  destruct (lookup_lt_is_Some_2 (path_last_recv_ts (c_health c)) path) as [ts Hts].
  { by rewrite (ho_recv_ts _ Hh). }
  apply (keeps_lift_bind _ _ ts); [done|].
  destruct (set_ping_state_spec (path_ping_state (c_health c)) path POTR_PING_STATE_NORMAL) as [ch Hch].
  { by rewrite (ho_ping _ Hh). }
  eapply (keeps_lift_bind _ _ (ch, _)); [exact Hch|]. cbn beta iota.
  apply keeps_bind; [|auto with porter]. apply keeps_put_conn. conn_solve.
  destruct Hh. split; cbn; by rewrite ?length_insert.
Qed.

Lemma ping_states_total h k :
  health_ok h -> (k < POTR_MAX_PATH)%nat ->
  is_Some (path_ping_state h !! k) /\ is_Some (remote_path_ping_state h !! k).
Proof. intros [] Hk. split; apply lookup_lt_is_Some_2; congruence. Qed.

Lemma keeps_sync_path_state g s : keeps (good g s) (thread_recv_sync_path_state s).
Proof.
  intros [x t] Hw. pose proof Hw as [[Hx Hg] [c Hs]]. cbn [w_ctx] in *.
  pose proof (ok_health _ _ (slot_conn_ok _ _ _ Hx Hs)) as Hh.
  assert (forall next (k : list bool -> M unit), (exists st, next = Some st /\ length st = POTR_MAX_PATH) ->
    (forall st, k st = sync_and_emit s st) ->
    exists a w' es, (lift next ≫= k) (World x t) = Some (a, w', es) /\ good g s w') as Hfin.
  { intros next k (st & -> & Hl) Hk. rewrite (lift_bind _ st _ _ eq_refl), Hk.
    by apply (keeps_sync g s st Hl). }
  destruct s as [|i]; unfold thread_recv_sync_path_state.
  - injection Hs as <-. rewrite get_ctx_bind. apply Hfin; [|done]. cbn [w_ctx].
    destruct (is_tcp_type _); [|destruct (type_eqb _ _)]; apply fill_states_total; intros k Hk;
      destruct (ping_states_total _ k Hh Hk) as [[a Ha] [b Hb]]; rewrite Ha, ?Hb;
      cbn [mbind option_bind].
    + destruct (lookup_lt_is_Some_2 (x_tcp_conn_fd x) k) as [fd Hfd]; [by rewrite (xo_fd _ Hx)|].
      rewrite Hfd. cbn [mbind option_bind]. destruct fd, (path_state_is_normal a); eauto.
    + destruct (path_state_is_normal a); eauto.
    + eauto.
  - apply slot_conn_peer in Hs as (ps & p & Hps & Hp & Ha & <-).
    rewrite (bind_run_nil _ _ _ _ _ (get_peer_run i p (World x t) ps Hps Hp)).
    apply Hfin; [|done]. apply fill_states_total. intros k Hk.
    destruct (ping_states_total _ k Hh Hk) as [[a Ha'] [b Hb]]. rewrite Ha', ?Hb.
    cbn [mbind option_bind]. destruct (path_state_is_normal a); eauto.
Qed.

Lemma put_peer_conn_at x t i ps p c n b :
  ctx_ok x -> x_peers x = Some ps -> ps !! i = Some p -> p_active p = true ->
  conn_ok (x_cfg x) c ->
  exists x', put_peer i (Peer (p_peer_id p) (p_active p) c n b) (World x t) = Some (tt, World x' t, []) /\
    ctx_ok x' /\ x_cfg x' = x_cfg x /\ slot_conn x' (SlotPeer i) = Some c.
Proof.
  intros Hx Hps Hp Ha Hc. pose proof (lookup_lt_Some _ _ _ Hp) as Hi.
  pose proof (xo_peers _ Hx) as Hpt. rewrite Hps in Hpt. destruct Hpt as [Hlen Hcnt Hok Hu].
  rewrite (put_peer_run i _ (World x t) ps Hps Hi). cbn [w_ctx w_tick].
  set (q := Peer (p_peer_id p) (p_active p) c n b). eexists. split; [done|].
  split; [|split; [done|]].
  - assert (x_n_peers x = Z.of_nat (count_if p_active (<[i:=q]> ps))) as Hn.
    { pose proof (count_if_insert p_active ps i p q Hp) as Hci. cbn [p_active q] in Hci.
      rewrite Ha in Hci. lia. }
    pose proof (set_peer_ok x ps i q (x_n_peers x) Hx Hps Hi Hn) as Hs.
    apply Hs. intros _. split.
    + split; [done|]. apply (po_id _ _ (Hok i p Hp Ha)).
    + intros j r Hj Hr Hne Hid. apply Hne. by apply (Hu j i r p).
  - unfold slot_conn, find_peer. cbn [x_peers set_x_peers mbind option_bind].
    rewrite list_lookup_insert_eq by done. cbn. by rewrite Ha.
Qed.

Lemma keeps_learn_sender_path g s path sender :
  (path < POTR_MAX_PATH)%nat -> keeps (good g s) (thread_recv_learn_sender_path s path sender).
Proof.
  intros Hpath [x t] Hw. pose proof Hw as [[Hx Hg] [c Hs]]. cbn [w_ctx] in *.
  pose proof (slot_conn_ok _ _ _ Hx Hs) as Hc. pose proof (ok_dest _ _ Hc) as Hd.
  destruct (lookup_lt_is_Some_2 (c_dest_addr c) path) as [d Hdp]; [congruence|].
  assert (forall e, conn_ok g (set_dest_addr c (<[path:=e]> (c_dest_addr c)))) as Hok.
  { intros e. subst g. conn_solve. by rewrite length_insert. }
  destruct s as [|i]; unfold thread_recv_learn_sender_path.
  - injection Hs as <-. rewrite get_ctx_bind.
    destruct (lookup_lt_is_Some_2 (x_peer_port x) path) as [pp Hpp]; [by rewrite (xo_port _ Hx)|].
    cbn [w_ctx]. rewrite (lift_bind _ _ _ _ Hpp), put_ctx_bind. cbn [w_tick].
    set (x1 := set_x_peer_port x (<[path:=ep_port sender]> (x_peer_port x))).
    assert (good g SlotCtx (World x1 t)) as Hg1.
    { split; [split|by eexists]; [|done]. destruct Hx. split; try done. cbn. by rewrite length_insert. }
    assert (keeps (good g SlotCtx) (put_conn SlotCtx (x_conn x))) as Hput.
    { apply keeps_put_conn. by subst g. }
    unfold when. destruct (type_eqb _ _); [|by apply keeps_ret].
    rewrite (get_conn_bind x1 SlotCtx (x_conn x)) by done. rewrite (lift_bind _ _ _ _ Hdp).
    apply keeps_put_conn; [|done]. apply Hok.
  - pose proof Hs as Hs'. apply slot_conn_peer in Hs' as (ps & p & Hps & Hp & Ha & Hpc).
    rewrite (bind_run_nil _ _ _ _ _ (get_peer_run i p (World x t) ps Hps Hp)).
    rewrite Hpc, (lift_bind _ _ _ _ Hdp).
    destruct (negb _); [by apply keeps_put_conn|]. subst g.
    destruct (put_peer_conn_at x t i ps p _ (p_n_paths p + 1) (p_send_window_mutex p) Hx Hps Hp Ha (Hok sender))
      as (x' & Hr & Hx' & Hg' & Hs').
    eexists _, _, _. split; [exact Hr|]. split; [done|]. by eexists.
Qed.

(** ** Which session is followed *)

Definition followed (c : conn) : option (timespec * Z) :=
  let s := c_session c in
  if peer_session_known s then Some (peer_session_ts s, peer_session_id s) else None.

Definition pkt_session (p : packet) : timespec * Z := (pkt_session_ts p, pkt_session_id p).

(** Later start, or the larger identifier of two sessions started at once. *)
Definition newer (a b : timespec * Z) : bool :=
  (0 <? cplat_timespec_cmp a.1 b.1) ||
  ((cplat_timespec_cmp a.1 b.1 =? 0) && (b.2 <? a.2)).

Definition newest (o : option (timespec * Z)) (p : timespec * Z) : timespec * Z :=
  match o with Some q => if newer p q then p else q | None => p end.

Context `{!PlatformLaws}.

Lemma switch_session_run x t s c pkt :
  ctx_ok x -> slot_conn x s = Some c -> packet_ranges pkt ->
  exists c' t', switch_session s c pkt (World x t) = Some (true, World (with_conn x s c') t', []) /\
    conn_ok (x_cfg x) c' /\ followed c' = Some (pkt_session pkt) /\
    win_next_seq (c_recv_window c') = pkt_seq_num pkt /\
    recv_repr (c_recv_window c') (replicate (Z.to_nat (window_size_cfg (x_global (x_cfg x)))) None) /\
    pending_fin (c_fin c') = false /\ reorder_pending (c_reorder c') = false /\
    c_frag c' = c_frag c /\ c_health c' = c_health c.
Proof.
  intros Hx Hs Hpr. pose proof (slot_conn_ok _ _ _ Hx Hs) as Hc.
  assert (conn_ok (x_cfg x) (follow c pkt)) as Hc1 by (unfold follow, slot_clear_pending_fin; conn_solve).
  unfold switch_session. rewrite (put_conn_bind _ _ _ _ _ _ Hs).
  destruct (reinit_recv_window_run (with_conn x s (follow c pkt)) t s (follow c pkt) (pkt_seq_num pkt))
    as (rw & t' & Hr & Hrw & _ & Hnx & Hrep).
  { by eapply with_conn_ok. }
  { by eapply slot_conn_with. }
  { by apply pr_seq. }
  rewrite (bind_run_nil _ _ _ _ _ Hr). rewrite with_conn_cfg in *.
  exists (set_recv_window (follow c pkt) rw), t'. split; [by rewrite (with_conn_twice _ _ _ _ _ Hs)|].
  split; [conn_solve|]. done.
Qed.

(** One packet: the connection follows the newer of the two sessions; a
    switch empties the receive window at the packet's sequence number, drops
    a pending FIN and the reordering timer, but not what has been collected of
    a message, and nothing else changes anything. *)
Lemma session_adopt_run x t s c pkt :
  ctx_ok x -> slot_conn x s = Some c -> packet_ranges pkt ->
  exists b c' t',
    thread_recv_session_adopt s pkt (World x t) = Some (b, World (with_conn x s c') t', []) /\
    conn_ok (x_cfg x) c' /\
    followed c' = Some (newest (followed c) (pkt_session pkt)) /\
    b = bool_decide (newest (followed c) (pkt_session pkt) = pkt_session pkt) /\
    (if (match followed c with Some q => newer (pkt_session pkt) q | None => true end : bool)
     then win_next_seq (c_recv_window c') = pkt_seq_num pkt /\
          recv_repr (c_recv_window c')
            (replicate (Z.to_nat (window_size_cfg (x_global (x_cfg x)))) None) /\
          pending_fin (c_fin c') = false /\ reorder_pending (c_reorder c') = false /\
          c_frag c' = c_frag c /\ c_health c' = c_health c
     else c' = c).
Proof.
  intros Hx Hs Hpr. pose proof (slot_conn_ok _ _ _ Hx Hs) as Hc.
  unfold thread_recv_session_adopt. rewrite (get_conn_bind _ _ _ _ _ Hs). cbv zeta.
  destruct (switch_session_run x t s c pkt Hx Hs Hpr) as (c' & t' & Hr & Hok & Hfo & Hrest).
  assert (bool_decide (pkt_session pkt = pkt_session pkt) = true) as Hself
    by by apply bool_decide_eq_true.
  unfold newest. set (fc := followed c). unfold followed in fc. subst fc.
  destruct (peer_session_known (c_session c)) eqn:Hk; cbn [negb].
  2: { exists true, c', t'. rewrite Hself. split_and!; try done; try apply Hrest. }
  unfold newer. cbn [fst snd pkt_session].
  set (cmp := cplat_timespec_cmp (pkt_session_ts pkt) (peer_session_ts (c_session c))).
  assert (conn_ok (x_cfg x) c /\ followed c
    = Some (peer_session_ts (c_session c), peer_session_id (c_session c))) as [_ Hfc].
  { split; [done|]. unfold followed. by rewrite Hk. }
  destruct (Z.ltb_spec 0 cmp) as [Hpos|Hpos]; cbn [orb].
  { exists true, c', t'. rewrite Hself. split_and!; try done; try apply Hrest. }
  destruct (Z.ltb_spec cmp 0) as [Hneg|Hneg].
  { exists false, c, t. rewrite (with_conn_same _ _ _ Hs).
    assert ((cmp =? 0) = false) as -> by lia. cbn [andb]. split_and!; try done.
    symmetry. apply bool_decide_eq_false. intros [= Heq _].
    assert (cmp = 0); [|lia]. by apply timespec_cmp_eq. }
  assert (cmp = 0) as Hz by lia. rewrite Hz, Z.eqb_refl. cbn [andb].
  destruct (Z.ltb_spec (peer_session_id (c_session c)) (pkt_session_id pkt)) as [Hid|Hid].
  { exists true, c', t'. rewrite Hself. split_and!; try done; try apply Hrest. }
  exists (pkt_session_id pkt =? peer_session_id (c_session c)), c, t.
  rewrite (with_conn_same _ _ _ Hs). split_and!; try done.
  apply timespec_cmp_eq in Hz. unfold pkt_session.
  destruct (Z.eqb_spec (pkt_session_id pkt) (peer_session_id (c_session c))) as [He|He]; symmetry.
  - apply bool_decide_eq_true. by rewrite Hz, He.
  - apply bool_decide_eq_false. congruence.
Qed.

Lemma keeps_session_adopt g s pkt :
  packet_ranges pkt -> keeps (good g s) (thread_recv_session_adopt s pkt).
Proof.
  intros Hpr [x t] [[Hx Hg] [c Hs]]. cbn [w_ctx] in *.
  destruct (session_adopt_run x t s c pkt Hx Hs Hpr) as (b & c' & t' & Hr & Hok & _).
  eexists _, _, _. split; [exact Hr|]. split; [split|]; cbn [w_ctx].
  - by eapply with_conn_ok.
  - by rewrite with_conn_cfg.
  - eexists. by eapply slot_conn_with.
Qed.

Fixpoint adopt_all (s : slot) (pkts : list packet) : M (list bool) :=
  match pkts with
  | [] => mret []
  | p :: pkts => b ← thread_recv_session_adopt s p; bs ← adopt_all s pkts; mret (b :: bs)
  end.

(** The newest session of a sequence. *)
Definition newest_of (o : option (timespec * Z)) (l : list (timespec * Z)) : option (timespec * Z) :=
  fold_left (fun o p => Some (newest o p)) l o.

(** C31. A receiver follows the newest session it has heard of: for every
    sequence of packets the handler returns a verdict for each, the session
    followed at the end is the newest (by start time, then identifier) of the
    one followed before and those of the packets, and a packet is accepted
    exactly when its own session is the newest so far, so that packets of
    superseded sessions are always dropped and never switch back. *)
Theorem newest_session_followed pkts x t s c :
  ctx_ok x -> slot_conn x s = Some c -> Forall packet_ranges pkts ->
  exists bs x' t' c', adopt_all s pkts (World x t) = Some (bs, World x' t', []) /\
    ctx_ok x' /\ slot_conn x' s = Some c' /\
    followed c' = newest_of (followed c) (map pkt_session pkts) /\
    length bs = length pkts /\
    forall k p b, pkts !! k = Some p -> bs !! k = Some b ->
      b = bool_decide (newest_of (followed c) (map pkt_session (take (S k) pkts))
                       = Some (pkt_session p)).
Proof.
  revert x t c. induction pkts as [|p pkts IH]; intros x t c Hx Hs Hpk.
  - exists [], x, t, c. split_and!; done.
  - apply Forall_cons_1 in Hpk as [Hp Hps].
    destruct (session_adopt_run x t s c p Hx Hs Hp) as (b & c1 & t1 & Hr & Hok & Hf & Hb & _).
    destruct (IH (with_conn x s c1) t1 c1) as (bs & x' & t' & c' & Hr' & Hx' & Hs' & Hf' & Hl & Hk).
    { by eapply with_conn_ok. }
    { by eapply slot_conn_with. }
    { done. }
    exists (b :: bs), x', t', c'. cbn [adopt_all]. rewrite (bind_run_nil _ _ _ _ _ Hr).
    rewrite (bind_run_nil _ _ _ _ _ Hr'). split; [done|]. split; [done|]. split; [done|].
    cbn [map newest_of fold_left]. rewrite <- Hf. split; [done|]. split; [by cbn; rewrite Hl|].
    intros [|k] q b0 Hq Hb0.
    + injection Hq as ->. injection Hb0 as ->. cbn [take map newest_of fold_left].
      rewrite Hb. apply bool_decide_ext. split; [by intros ->|by intros [= ->]].
    + rewrite (Hk k q b0 Hq Hb0). cbn [take map newest_of fold_left]. by rewrite <- Hf.
Qed.
End SessionOk.

Definition example_ping (sec sid seq : Z) : packet := Packet 10 sec sid 0 seq 0 POTR_FLAG_PING 0 1 None.

Lemma example_ping_ranges sec sid seq :
  0 <= sec < 4294967296 -> 0 <= sid < 4294967296 -> 0 <= seq < 4294967296 ->
  packet_ranges (example_ping sec sid seq).
Proof. intros. split; unfold example_ping, POTR_FLAG_PING; cbn [pkt_service_id pkt_session_tv_sec
  pkt_session_id pkt_session_tv_nsec pkt_seq_num pkt_ack_num pkt_flags pkt_payload_len
  pkt_protocol_version]; lia. Qed.

Lemma newest_session_followed_witness :
  exists x' t' c', @adopt_all toy_platform SlotCtx
      [example_ping 5 7 0; example_ping 3 9 0; example_ping 5 8 4; example_ping 5 7 1]
      (World (example_ctx POTR_TYPE_UNICAST false) 0) = Some ([true; false; true; false], World x' t', []) /\
    slot_conn x' SlotCtx = Some c' /\ followed c' = Some (Timespec 5 0, 8).
Proof.
  destruct (@newest_session_followed little_host toy_platform toy_laws
    [example_ping 5 7 0; example_ping 3 9 0; example_ping 5 8 4; example_ping 5 7 1]
    (example_ctx POTR_TYPE_UNICAST false) 0 SlotCtx example_conn)
    as (bs & x' & t' & c' & H1 & _ & H2 & H3 & H4 & H5);
    [apply example_ctx_ok | reflexivity | repeat (apply Forall_cons_2; [apply example_ping_ranges; lia|]); apply Forall_nil_2 |].
  exists x', t', c'. split; [|split; [exact H2|exact H3]].
  rewrite H1. do 3 f_equal. destruct bs as [|b0 [|b1 [|b2 [|b3 [|]]]]]; try discriminate H4.
  rewrite (H5 0%nat _ b0 eq_refl eq_refl), (H5 1%nat _ b1 eq_refl eq_refl),
    (H5 2%nat _ b2 eq_refl eq_refl), (H5 3%nat _ b3 eq_refl eq_refl). reflexivity.
Defined.
