(* ===== verification/Fin.v ===== *)
(** The end of a session: [thread_recv_fin.c] and the TCP control packets of
    [potr_tcp_control.c].  A FIN may carry the sequence number up to which data
    was sent; it takes effect once the receive window has reached it. *)

From stdpp Require Import base list numbers option.
From Stdlib Require Import ZArith Lia ZifyBool.
From S2P Require Import Prelude Types Packet Window Context PathEvent Validate PeerTable.
From S2P Require Import Session.
Local Open Scope Z_scope.
Local Open Scope porter_scope.

Inductive fin_action := THREAD_RECV_FIN_IGNORED | THREAD_RECV_FIN_PENDING | THREAD_RECV_FIN_FIRE.

Definition recv_window_reached_fin_target (next_seq target : Z) : bool := next_seq =? target.

Definition fin_packet_has_target (pkt : packet) : bool := pkt_flags pkt has POTR_FLAG_FIN_TARGET_VALID.

Section Fin.
Context `{CplatByteorder} `{Platform}.

(** [tcp_send_all_locked]: one attempt to write the whole buffer. *)
Definition tcp_send_all_locked (i : nat) (wire : list Z) : M bool :=
  ok ← tick send_ok;
  emit (EvTcpSend i wire);;
  mret ok.

(** The loop over the connections: [attempted] and [sent_any]. *)
Fixpoint tcp_send_loop (i n : nat) (wire : list Z) (attempted sent_any : bool) : M (bool * bool) :=
  match n with
  | O => mret (attempted, sent_any)
  | S n =>
      x ← get_ctx;
      fd ← lift (x_tcp_conn_fd x !! i);
      if negb fd then tcp_send_loop (S i) n wire attempted sent_any
      else
        ok ← tcp_send_all_locked i wire;
        tcp_send_loop (S i) n wire true (sent_any || ok)
  end.

Definition potr_internal_tcp_send_control_packet (pkt : packet) (nonce_val : Z) : M Z :=
  g ← get_cfg;
  match build_ctrl_pkt_wire_nonce g pkt nonce_val with
  | None => mret POTR_ERR_UNKNOWN
  | Some wire =>
      '(attempted, sent_any) ← tcp_send_loop 0 (x_n_path g) wire false false;
      mret (if sent_any : bool then POTR_OK
            else if negb attempted then POTR_ERR_DISCONNECTED else POTR_ERR_IO)
  end.

Definition send_tcp_fin_ack (fin_target_seq : Z) : M Z :=
  x ← get_ctx;
  match potr_internal_packet_build_fin_ack (Some blank_packet)
          (Some (own_session_hdr (x_cfg x) (c_session (x_conn x)))) fin_target_seq with
  | (rc, Some pkt) =>
      if negb (rc =? POTR_OK) then mret rc
      else potr_internal_tcp_send_control_packet pkt fin_target_seq
  | (rc, None) => mret rc
  end.

(** The action, and the target when the packet is a FIN. *)
Definition thread_recv_fin_on_packet (s : slot) (pkt : packet) : M (fin_action * Z) :=
  if negb (pkt_flags pkt has POTR_FLAG_FIN) then mret (THREAD_RECV_FIN_IGNORED, 0)
  else
    c ← get_conn s;
    if fin_packet_has_target pkt &&
       negb (recv_window_reached_fin_target (win_next_seq (c_recv_window c)) (pkt_ack_num pkt))
    then
      put_conn s (set_fin c (FinState true (pkt_ack_num pkt)));;
      mret (THREAD_RECV_FIN_PENDING, pkt_ack_num pkt)
    else mret (THREAD_RECV_FIN_FIRE, pkt_ack_num pkt).

(** The target of a pending FIN the window has reached. *)
Definition thread_recv_fin_pending_reached (c : conn) : option Z :=
  if pending_fin (c_fin c) &&
     recv_window_reached_fin_target (win_next_seq (c_recv_window c)) (fin_target_seq (c_fin c))
  then Some (fin_target_seq (c_fin c)) else None.

(** Every path becomes undefined on both sides, and the service is
    disconnected. *)
Definition reset_service_paths : M unit :=
  _ ← clear_ping_states SlotCtx;
  thread_recv_disconnect_service_all_paths.

(** The connection has no session any more. *)
Definition forget_session (c : conn) : conn :=
  let ses := c_session c in
  set_health (set_reorder_pending (set_session (set_fin c (FinState false 0))
    (SessionState (session_id ses) (session_ts ses) (peer_session_id ses) false (peer_session_ts ses)))
    false)
    (set_last_recv (c_health c) (clear_sec (last_recv_ts (c_health c)))).

Definition thread_recv_fin_fire (s : slot) (fin_target_seq : Z) : M unit :=
  match s with
  | SlotPeer i =>
      thread_recv_disconnect_peer_all_paths i;;
      modify_conn s (fun c => set_fin c (FinState false 0));;
      potr_internal_peer_free i
  | SlotCtx =>
      g ← get_cfg;
      let t := service_type (x_service g) in
      when (type_eqb t POTR_TYPE_TCP || type_eqb t POTR_TYPE_TCP_BIDIR)
        (_ ← send_tcp_fin_ack fin_target_seq; mret tt);;
      reset_service_paths;;
      modify_conn SlotCtx forget_session;;
      lock_mutex HRecvWindowMutex;;
      reinit_recv_window SlotCtx 0
  end.

Definition thread_recv_fin_on_ack (ack_num : Z) : M unit :=
  x ← get_ctx;
  let t := x_tcp_close x in
  when (tcp_close_waiting_ack t && (tcp_close_wait_target_seq t =? ack_num) &&
        negb (tcp_close_ack_received t))
    (put_ctx (set_x_tcp_close x (TcpCloseState (tcp_close_waiting_ack t) true
                                   (tcp_close_wait_target_seq t) ack_num));;
     emit EvTcpCloseSignal).

(** ** They never fault and keep the context well-formed *)

Lemma quiet_tcp_send_loop x n i wire a b :
  (i + n <= length (x_tcp_conn_fd x))%nat -> quiet x (tcp_send_loop i n wire a b).
Proof.
  revert i a b. induction n as [|n IH]; intros i a b Hn; [apply quiet_ret|]. cbn [tcp_send_loop].
  apply quiet_get_ctx_bind.
  destruct (lookup_lt_is_Some_2 (x_tcp_conn_fd x) i) as [fd Hfd]; [lia|].
  apply (quiet_lift_bind _ _ _ fd Hfd). destruct (negb fd); [apply IH; lia|].
  apply quiet_bind; [|intros ok; apply IH; lia].
  unfold tcp_send_all_locked. apply quiet_bind; [auto with porter|]. intros ok.
  apply quiet_bind; auto with porter.
Qed.

Lemma quiet_tcp_send_control x pkt v :
  ctx_ok x -> quiet x (potr_internal_tcp_send_control_packet pkt v).
Proof.
  intros Hx. unfold potr_internal_tcp_send_control_packet. apply quiet_get_cfg_bind.
  destruct (build_ctrl_pkt_wire_nonce _ _ _); [|auto with porter].
  apply quiet_bind; [|intros [a b]; auto with porter].
  apply quiet_tcp_send_loop. rewrite (xo_fd _ Hx). apply (xo_cfg _ Hx).
Qed.

Lemma quiet_send_tcp_fin_ack x seq : ctx_ok x -> quiet x (send_tcp_fin_ack seq).
Proof.
  intros Hx. unfold send_tcp_fin_ack. apply quiet_get_ctx_bind.
  destruct (potr_internal_packet_build_fin_ack _ _ _) as [rc [pkt|]]; [|auto with porter].
  destruct (negb _); [auto with porter|]. by apply quiet_tcp_send_control.
Qed.

Lemma keeps_fin_on_packet g s pkt :
  keeps (good g s) (thread_recv_fin_on_packet s pkt).
Proof.
  unfold thread_recv_fin_on_packet. destruct (negb _); [apply keeps_ret|].
  apply triple_get_conn_bind. intros c Hc. destruct (_ && _); [|apply keeps_ret].
  apply keeps_bind; [|auto with porter]. apply keeps_put_conn. conn_solve.
Qed.

Lemma keeps_reset_service_paths g : keeps (good g SlotCtx) reset_service_paths.
Proof.
  apply keeps_bind; [apply keeps_clear_ping_states|intros _; apply keeps_disconnect_service].
Qed.

Lemma forget_session_ok g c : conn_ok g c -> conn_ok g (forget_session c).
Proof. intros Hc. unfold forget_session. conn_solve. destruct (ok_health _ _ Hc). by split. Qed.

Lemma keeps_fin_fire_ctx g seq : keeps (good g SlotCtx) (thread_recv_fin_fire SlotCtx seq).
Proof.
  unfold thread_recv_fin_fire. apply keeps_get_cfg_bind.
  apply keeps_bind; [apply keeps_when; intros _; apply keeps_quiet; intros x Hx _ _|intros _].
  { apply quiet_bind; [by apply quiet_send_tcp_fin_ack|auto with porter]. }
  apply keeps_bind; [apply keeps_reset_service_paths|intros _].
  apply keeps_bind; [apply keeps_modify_conn, forget_session_ok|intros _].
  apply keeps_bind; [apply keeps_quiet; intros; apply quiet_lock_mutex|intros _].
  apply keeps_reinit_recv_window. lia.
Qed.

(** Releasing the peer of a live slot. *)
Lemma peer_free_fine g i :
  triple (good g (SlotPeer i)) (potr_internal_peer_free i) (fun _ w _ => fine g w).
Proof.
  intros w [[Hx Hg] [c Hs]]. apply slot_conn_peer in Hs as (ps & p & Hps & Hp & Ha & _).
  destruct (peer_free_ok i w ps p Hx Hps Hp Ha) as (w' & Hr & Hx' & Hg' & _).
  exists tt, w', []. split; [done|]. split; [done|congruence].
Qed.

Lemma fin_fire_fine g s seq :
  triple (good g s) (thread_recv_fin_fire s seq)
    (fun _ w _ => fine g w /\ (s = SlotCtx -> good g s w)).
Proof.
  destruct s as [|i].
  - eapply triple_conseq; [apply keeps_fin_fire_ctx|done|]. intros a w es Hw.
    split; [by apply (good_fine g SlotCtx)|done].
  - unfold thread_recv_fin_fire. eapply triple_seq; [apply keeps_disconnect_peer|]. intros ?.
    eapply triple_seq; [apply keeps_modify_conn; intros c Hc; conn_solve|]. intros ?.
    eapply triple_conseq; [apply peer_free_fine|done|]. done.
Qed.

Lemma fin_on_ack_good g s seq : keeps (good g s) (thread_recv_fin_on_ack seq).
Proof.
  unfold thread_recv_fin_on_ack. intros [x t] Hw. rewrite get_ctx_bind. unfold when.
  destruct (_ && _); [|by apply keeps_ret]. rewrite put_ctx_bind. cbn [w_ctx w_tick].
  eexists _, _, _. split; [done|]. destruct Hw as [[Hx Hg] Hs].
  split; [split|]; [by destruct Hx| done |by destruct s].
Qed.
End Fin.
