(* ===== verification/RecvWindow.v ===== *)
(** The receive window handlers: [thread_recv_window.c].  Data packets enter
    the receive window of their connection and leave it in sequence; gaps are
    answered by NACKs (or, on the RAW types, end the session), NACKs by
    retransmissions or REJECTs. *)

From stdpp Require Import base list numbers option.
From Stdlib Require Import ZArith Lia ZifyBool.
From S2P Require Import Prelude Types Packet Window Context PathEvent Validate PeerTable.
From S2P Require Import RecvSlot Session Fin.
Local Open Scope Z_scope.
Local Open Scope porter_scope.

Definition POTR_NACK_DEDUP_MS : Z := 200.

(** Run [f] on the elements in order. *)
Fixpoint for_each {A} (l : list A) (f : A -> M unit) : M unit :=
  match l with [] => mret tt | a :: l => f a;; for_each l f end.

Section RecvWindow.
Context `{CplatByteorder} `{Platform}.

Definition fill_own_session_hdr (g : service_config) (c : conn) : session_hdr :=
  let '(sec, nsec) := session_ts_to_hdr (session_ts (c_session c)) in
  SessionHdr (service_id (x_service g)) sec (session_id (c_session c)) nsec.

Definition slot_send_wire_to_dests (s : slot) (wire : list Z) : M unit :=
  g ← get_cfg;
  c ← get_conn s;
  if slot_is_peer s then
    for_range 0 POTR_MAX_PATH (fun k =>
      d ← lift (c_dest_addr c !! k);
      if endpoint_is_unset d then mret tt
      else _ ← sock_valid k; _ ← socket_sendto k wire d; mret tt)
  else
    for_range 0 (x_n_path g) (fun k =>
      d ← lift (c_dest_addr c !! k);
      _ ← sock_valid k; _ ← socket_sendto k wire d; mret tt).

Definition slot_send_ctrl (s : slot) (pkt : packet) : M unit :=
  g ← get_cfg;
  match build_ctrl_pkt_wire g pkt with
  | None => mret tt
  | Some wire => slot_send_wire_to_dests s wire
  end.

Definition slot_send_nack (s : slot) (nack_seq : Z) : M unit :=
  x ← get_ctx;
  let g := x_cfg x in
  let sv := x_service g in
  c ← get_conn s;
  match potr_internal_packet_build_nack (Some blank_packet) (Some (fill_own_session_hdr g c))
          nack_seq with
  | (0, Some nack_pkt) =>
      if slot_is_peer s || type_eqb (service_type sv) POTR_TYPE_UNICAST_BIDIR
      then slot_send_ctrl s nack_pkt
      else
        match build_ctrl_pkt_wire g nack_pkt with
        | None => mret tt
        | Some wire =>
            for_range 0 (x_n_path g) (fun k =>
              port ← (if negb (src_port sv =? 0) then mret (cplat_hton16 (src_port sv))
                      else lift (x_peer_port x !! k));
              if port =? 0 then mret tt
              else
                a ← lift (x_src_addr_resolved g !! k);
                _ ← sock_valid k;
                _ ← socket_sendto k wire (Endpoint a port);
                mret tt)
        end
  | _ => mret tt
  end.

Definition slot_send_reject (s : slot) (seq_num : Z) : M unit :=
  g ← get_cfg;
  c ← get_conn s;
  match potr_internal_packet_build_reject (Some blank_packet) (Some (fill_own_session_hdr g c))
          seq_num with
  | (0, Some reject_pkt) => slot_send_ctrl s reject_pkt
  | _ => mret tt
  end.

(** Has the gap at [nack_num] been open for the reordering time? *)
Definition reorder_gap_ready (s : slot) (nack_num : Z) : M bool :=
  g ← get_cfg;
  let ms := reorder_timeout_ms (x_global g) in
  let t := service_type (x_service g) in
  if ms =? 0 then mret true
  else
    c ← get_conn s;
    if negb (reorder_pending (c_reorder c)) || negb (reorder_nack_num (c_reorder c) =? nack_num)
    then
      now_ts ← tick clock_monotonic;
      let effective_ms :=
        if type_eqb t POTR_TYPE_MULTICAST || type_eqb t POTR_TYPE_BROADCAST
        then u32 (ms + u32 (u64 (tv_nsec now_ts) mod ms)) else ms in
      put_conn s (set_reorder c (ReorderState true nack_num (cplat_timespec_add_ms now_ts effective_ms)));;
      mret false
    else
      now_ts ← tick clock_monotonic;
      if 0 <=? cplat_timespec_cmp now_ts (reorder_deadline_ts (c_reorder c))
      then put_conn s (set_reorder_pending c false);; mret true
      else mret false.

Definition slot_gap_ready (s : slot) (nack_num : Z) : M bool :=
  if slot_is_peer s then mret true else reorder_gap_ready s nack_num.

Definition raw_session_disconnect (s : slot) : M unit :=
  _ ← clear_ping_states s;
  thread_recv_disconnect_service_all_paths;;
  modify_conn s (fun c => set_frag (set_fin c (FinState false 0))
                            (FragState (frag_buf (c_frag c)) 0 false)).

(** [potr_internal_window_recv_push] and the other operations on
    [slot->recv_window]. *)
Definition slot_recv_push (s : slot) (pkt : packet) : M Z :=
  c ← get_conn s;
  '(rc, w) ← lift (window_recv_push (c_recv_window c) pkt);
  put_conn s (set_recv_window c w);;
  mret rc.

Definition slot_recv_reset (s : slot) (seq : Z) : M unit :=
  modify_conn s (fun c => set_recv_window c (window_recv_reset (c_recv_window c) seq)).

Definition slot_recv_skip (s : slot) (seq : Z) : M unit :=
  c ← get_conn s;
  w ← lift (window_recv_skip (c_recv_window c) seq);
  put_conn s (set_recv_window c w).

Definition slot_needs_nack (s : slot) : M (option Z) :=
  c ← get_conn s; lift (window_recv_needs_nack (c_recv_window c)).

Definition deliver_packet (s : slot) (pkt : packet) : M unit :=
  elems ← lift (unpack_elems pkt);
  for_each elems (thread_recv_slot_deliver_payload_elem s).

(** The loop that pops and delivers; the UDP handlers pass over PING packets.
    A packet delivered from the window is read from the window's pool, which
    delivering does not change. *)
Fixpoint drain_loop (fuel : nat) (skip_ping : bool) (s : slot) : M unit :=
  match fuel with
  | O => fault
  | S fuel =>
      c ← get_conn s;
      '(rc, w, o) ← lift (window_recv_pop (c_recv_window c));
      put_conn s (set_recv_window c w);;
      match rc =? POTR_OK, o with
      | true, Some pop_pkt =>
          if skip_ping && (pkt_flags pop_pkt has POTR_FLAG_PING) then drain_loop fuel skip_ping s
          else deliver_packet s pop_pkt;; drain_loop fuel skip_ping s
      | _, _ => mret tt
      end
  end.

(** [slot_drain_recv_window]; [false] when the peer was released. *)
Definition slot_drain_recv_window (s : slot) : M bool :=
  c ← get_conn s;
  drain_loop (S (Z.to_nat (win_window_size (c_recv_window c)))) true s;;
  c ← get_conn s;
  match thread_recv_fin_pending_reached c with
  | Some target =>
      thread_recv_fin_fire s target;;
      mret (negb (slot_is_peer s))
  | None => mret true
  end.

Definition nack_is_duplicate (s : slot) (ack_num : Z) : M bool :=
  now_ms ← tick clock_monotonic_ms;
  c ← get_conn s;
  let d := c_dedup c in
  let recent '(a, t) := negb (t =? 0) && (a =? ack_num) && (u64 (now_ms - t) <? POTR_NACK_DEDUP_MS) in
  if existsb recent (take POTR_NACK_DEDUP_SLOTS (nack_dedup_buf d)) then mret true
  else
    let i := Z.to_nat (nack_dedup_next d) in
    _ ← lift (nack_dedup_buf d !! i);
    put_conn s (set_dedup c (DedupState (<[i:=(ack_num, now_ms)]> (nack_dedup_buf d))
      (u8 ((nack_dedup_next d + 1) mod Z.of_nat POTR_NACK_DEDUP_SLOTS))));;
    mret false.

(** The wire image of a packet of the send window, assembled in
    [ctx->recv_buf], whose size is the header and [max_payload]. *)
Definition resend_wire (g : service_config) (p : packet) : option (list Z) :=
  let wire_len := Z.to_nat (potr_internal_packet_wire_size (Some p)) in
  let len := (wire_len - POTR_PACKET_HEADER_SIZE)%nat in
  if (POTR_PACKET_HEADER_SIZE + Z.to_nat (max_payload_cfg (x_global g)) <? wire_len)%nat then None
  else bs ← read_at (pkt_payload p) 0 len; Some (packet_header_bytes p ++ bs).

Definition slot_retransmit_or_reject (s : slot) (ack_num : Z) : M unit :=
  g ← get_cfg;
  c ← get_conn s;
  '(rc, o) ← lift (window_send_get (c_send_window c) ack_num);
  match rc =? POTR_OK, o with
  | true, Some resend_pkt =>
      wire ← lift (resend_wire g resend_pkt);
      slot_send_wire_to_dests s wire
  | _, _ => slot_send_reject s ack_num
  end.

(** The first reaction to a gap; [false] when the handler returns. *)
Definition outer_gap (s : slot) (pkt : packet) (is_raw : bool) : M bool :=
  n ← slot_needs_nack s;
  match n with
  | None => modify_conn s (fun c => set_reorder_pending c false);; mret true
  | Some nack_num =>
      if is_raw then
        r ← reorder_gap_ready s nack_num;
        if r : bool then
          raw_session_disconnect s;;
          slot_recv_reset s (pkt_seq_num pkt);;
          rc ← slot_recv_push s pkt;
          mret (rc =? POTR_OK)
        else mret true
      else
        r ← slot_gap_ready s nack_num;
        when r (slot_send_nack s nack_num);;
        mret true
  end.

(** What follows a successful push. *)
Definition outer_pushed (s : slot) (pkt : packet) (path_idx : nat) : M unit :=
  g ← get_cfg;
  let t := service_type (x_service g) in
  let is_raw := is_raw_type t in
  go ← outer_gap s pkt is_raw;
  if negb go then mret tt
  else
    when (negb (slot_is_peer s) && (pkt_flags pkt has POTR_FLAG_DATA) &&
          negb (type_eqb t POTR_TYPE_UNICAST_BIDIR))
      (_ ← thread_recv_update_path_health s path_idx; thread_recv_sync_path_state s);;
    live ← slot_drain_recv_window s;
    if negb live then mret tt
    else
      n ← slot_needs_nack s;
      match n with
      | None => modify_conn s (fun c => set_reorder_pending c false)
      | Some nack_num =>
          if is_raw then mret tt
          else r ← slot_gap_ready s nack_num; when r (slot_send_nack s nack_num)
      end.

Definition thread_recv_window_accept_outer (s : slot) (pkt : packet) (path_idx : nat) : M unit :=
  g ← get_cfg;
  rc ← slot_recv_push s pkt;
  if rc =? POTR_OK then outer_pushed s pkt path_idx
  else if is_raw_type (service_type (x_service g)) then
    raw_session_disconnect s;;
    slot_recv_reset s (pkt_seq_num pkt);;
    rc ← slot_recv_push s pkt;
    if rc =? POTR_OK then outer_pushed s pkt path_idx else mret tt
  else mret tt.

Definition thread_recv_window_on_reject (s : slot) (pkt : packet) (path_idx : nat)
    (sender : endpoint) : M unit :=
  g ← get_cfg;
  if is_raw_type (service_type (x_service g)) then mret tt
  else
    ok ← thread_recv_session_adopt s pkt;
    if negb ok then mret tt
    else
      thread_recv_learn_sender_path s path_idx sender;;
      _ ← clear_ping_states s;
      match s with
      | SlotPeer i => thread_recv_disconnect_peer_all_paths i
      | SlotCtx => thread_recv_disconnect_service_all_paths
      end;;
      modify_conn s (fun c => set_reorder_pending c false);;
      slot_recv_skip s (pkt_ack_num pkt);;
      _ ← slot_drain_recv_window s;
      mret tt.

Definition thread_recv_window_on_nack (s : slot) (pkt : packet) : M unit :=
  g ← get_cfg;
  if negb (pkt_flags pkt has POTR_FLAG_NACK) then mret tt
  else if is_raw_type (service_type (x_service g)) then mret tt
  else
    dup ← nack_is_duplicate s (pkt_ack_num pkt);
    if dup : bool then mret tt else slot_retransmit_or_reject s (pkt_ack_num pkt).

(** The scan of a PING for missing packets below its sequence number; the
    result is the sequence number it stopped at. *)
Fixpoint scan_loop (fuel : nat) (s : slot) (target scan_seq : Z) : M Z :=
  match fuel with
  | O => fault
  | S fuel =>
      c ← get_conn s;
      let w := c_recv_window c in
      if negb (scan_seq =? target) &&
         potr_internal_seqnum_in_window scan_seq (win_base_seq w) (win_window_size w)
      then
        held ← lift (window_recv_has_packet w scan_seq);
        if negb held then
          r ← reorder_gap_ready s scan_seq;
          if r : bool then slot_send_nack s scan_seq;; scan_loop fuel s target (scan_seq ⊕ 1)
          else mret scan_seq
        else scan_loop fuel s target (scan_seq ⊕ 1)
      else mret scan_seq
  end.

Definition thread_recv_window_scan_ping_gap (s : slot) (pkt : packet) : M unit :=
  g ← get_cfg;
  c ← get_conn s;
  let w := c_recv_window c in
  let next_seq := win_next_seq w in
  let behind := negb (pkt_seq_num pkt =? next_seq) &&
                potr_internal_seqnum_in_window (pkt_seq_num pkt) (next_seq ⊕ 1) (win_window_size w) in
  if slot_is_peer s then
    when behind (r ← slot_gap_ready s next_seq; when r (slot_send_nack s next_seq))
  else if is_raw_type (service_type (x_service g)) then
    if behind then
      r ← reorder_gap_ready s next_seq;
      when r (raw_session_disconnect s;; slot_recv_reset s (pkt_seq_num pkt))
    else modify_conn s (fun c => set_reorder_pending c false)
  else
    stop ← scan_loop (S (Z.to_nat (win_window_size w))) s (pkt_seq_num pkt) next_seq;
    when (stop =? pkt_seq_num pkt) (modify_conn s (fun c => set_reorder_pending c false)).

Definition thread_recv_window_check_reorder_timeout (s : slot) : M unit :=
  g ← get_cfg;
  c ← get_conn s;
  if negb (reorder_pending (c_reorder c)) then mret tt
  else
    r ← reorder_gap_ready s (reorder_nack_num (c_reorder c));
    if negb r then mret tt
    else if is_raw_type (service_type (x_service g)) then
      raw_session_disconnect s;;
      modify_conn s (fun c =>
        let ses := c_session c in
        set_health (set_session c (SessionState (session_id ses) (session_ts ses) (peer_session_id ses)
                                     false (peer_session_ts ses)))
          (set_last_recv (c_health c) (clear_sec (last_recv_ts (c_health c)))));;
      reinit_recv_window s 0
    else
      c ← get_conn s;
      slot_send_nack s (reorder_nack_num (c_reorder c)).
End RecvWindow.

(** ** The handlers are total and keep the context well-formed *)

Section Quietness.
Context `{CplatByteorder} `{Platform}.

Lemma quiet_get_conn_bind {B} x s c (k : conn -> M B) :
  slot_conn x s = Some c -> quiet x (k c) -> quiet x (get_conn s ≫= k).
Proof. intros Hs Hk t. rewrite (get_conn_bind _ _ _ _ _ Hs). apply Hk. Qed.

(** Sending one datagram on a path of the context. *)
Lemma quiet_sendto_path x k wire d :
  ctx_ok x -> (k < POTR_MAX_PATH)%nat ->
  quiet x (_ ← sock_valid k; _ ← socket_sendto k wire d; mret tt).
Proof.
  intros Hx Hk. apply quiet_bind; [apply quiet_sock_valid; by rewrite (xo_sock _ Hx)|intros _].
  apply quiet_bind; auto with porter.
Qed.

Lemma quiet_wire_to_dests x s wire :
  ctx_ok x -> slot_live x s -> quiet x (slot_send_wire_to_dests s wire).
Proof.
  intros Hx [c Hs]. unfold slot_send_wire_to_dests. apply quiet_get_cfg_bind.
  apply (quiet_get_conn_bind _ _ _ _ Hs). pose proof (ok_dest _ _ (slot_conn_ok _ _ _ Hx Hs)) as Hd.
  pose proof (co_n_path _ (xo_cfg _ Hx)) as Hn.
  destruct (slot_is_peer s); apply quiet_for; intros k Hk;
    (destruct (lookup_lt_is_Some_2 (c_dest_addr c) k) as [d Hdk]; [lia|]);
    apply (quiet_lift_bind _ _ _ d Hdk).
  - destruct (endpoint_is_unset d); [auto with porter|]. apply quiet_sendto_path; [done|lia].
  - apply quiet_sendto_path; [done|lia].
Qed.

Lemma quiet_send_ctrl x s pkt : ctx_ok x -> slot_live x s -> quiet x (slot_send_ctrl s pkt).
Proof.
  intros Hx Hs. unfold slot_send_ctrl. apply quiet_get_cfg_bind.
  destruct (build_ctrl_pkt_wire _ _); [by apply quiet_wire_to_dests|auto with porter].
Qed.

Lemma quiet_send_nack x s seq : ctx_ok x -> slot_live x s -> quiet x (slot_send_nack s seq).
Proof.
  intros Hx Hs. unfold slot_send_nack. apply quiet_get_ctx_bind. pose proof Hs as [c Hc].
  apply (quiet_get_conn_bind _ _ _ _ Hc).
  destruct (potr_internal_packet_build_nack _ _ _) as [[] [pkt|]]; auto with porter.
  destruct (_ || _); [by apply quiet_send_ctrl|].
  destruct (build_ctrl_pkt_wire _ _); [|auto with porter].
  pose proof (xo_cfg _ Hx) as []. apply quiet_for. intros k Hk.
  apply quiet_bind.
  { destruct (negb _); [auto with porter|].
    destruct (lookup_lt_is_Some_2 (x_peer_port x) k) as [p Hp]; [rewrite (xo_port _ Hx); lia|].
    intros t. unfold lift. rewrite Hp. by eexists _, _, _. }
  intros port. destruct (port =? 0); [auto with porter|].
  destruct (lookup_lt_is_Some_2 (x_src_addr_resolved (x_cfg x)) k) as [a Ha]; [lia|].
  apply (quiet_lift_bind _ _ _ a Ha). apply quiet_sendto_path; [done|lia].
Qed.

Lemma quiet_send_reject x s seq : ctx_ok x -> slot_live x s -> quiet x (slot_send_reject s seq).
Proof.
  intros Hx Hs. unfold slot_send_reject. apply quiet_get_cfg_bind. pose proof Hs as [c Hc].
  apply (quiet_get_conn_bind _ _ _ _ Hc).
  destruct (potr_internal_packet_build_reject _ _ _) as [[] [pkt|]]; auto with porter.
  by apply quiet_send_ctrl.
Qed.
End Quietness.

Section RecvWindowOk.
Context `{CplatByteorder} `{Platform} (g : service_config).
Hypothesis Hg : cfg_ok g.

Lemma keeps_send_nack s seq : keeps (good g s) (slot_send_nack s seq).
Proof. apply keeps_quiet. intros x Hx _ Hs. by apply quiet_send_nack. Qed.

(** [good], and the receive window of the slot is [W]. *)
Definition good_window (s : slot) (W : potr_internal_window) (w : world) : Prop :=
  good g s w /\ exists c, slot_conn (w_ctx w) s = Some c /\ c_recv_window c = W.

Lemma good_window_good s W w : good_window s W w -> good g s w.
Proof. by intros [? _]. Qed.

Lemma keeps_window_good {A} s (m : M A) :
  (forall W, keeps (good_window s W) m) -> keeps (good g s) m.
Proof.
  intros Hm w Hw. pose proof Hw as [_ [c Hs]].
  destruct (Hm (c_recv_window c) w) as (a & w' & es & Hr & Hw'); [by split; eauto|].
  exists a, w', es. split; [done|apply Hw'].
Qed.

Lemma triple_get_conn_window {B} s W (k : conn -> M B) Q :
  (forall c, conn_ok g c -> c_recv_window c = W -> triple (good_window s W) (k c) Q) ->
  triple (good_window s W) (get_conn s ≫= k) Q.
Proof.
  intros Hk w Hw. pose proof Hw as ([[Hx Hgx] _] & c & Hs & HW).
  rewrite (bind_run_nil _ _ _ _ _ (get_conn_run _ _ _ Hs)). apply (Hk c); [|done..].
  rewrite <- Hgx. by eapply slot_conn_ok.
Qed.

Lemma keeps_put_conn_window s W W' c :
  conn_ok g c -> c_recv_window c = W' ->
  triple (good_window s W) (put_conn s c) (fun _ w _ => good_window s W' w).
Proof.
  intros Hc HW w (Hw & c0 & Hs & _). destruct w as [x t]. cbn [w_ctx] in *.
  destruct (keeps_put_conn g s c Hc (World x t) Hw) as (a & w' & es & Hr & Hw').
  pose proof Hr as Hr'. rewrite (put_conn_at _ _ _ _ _ Hs) in Hr'. injection Hr' as <- <- <-.
  eexists _, _, _. split; [exact Hr|]. split; [done|]. exists c. split; [|done].
  by eapply slot_conn_with.
Qed.

Lemma keeps_quiet_window {A} s W (m : M A) :
  (forall x, ctx_ok x -> x_cfg x = g -> slot_live x s -> quiet x m) -> keeps (good_window s W) m.
Proof.
  intros Hq [x t] Hw. pose proof Hw as [[[Hx Hgx] Hs] _].
  destruct (Hq x Hx Hgx Hs t) as (a & t' & es & Hr). exists a, (World x t'), es. done.
Qed.

Lemma keeps_gap_ready_window s W n :
  0 <= n < 4294967296 -> keeps (good_window s W) (reorder_gap_ready s n).
Proof.
  intros Hn. unfold reorder_gap_ready. intros w Hw. rewrite get_cfg_bind.
  rewrite (proj2 (proj1 (proj1 Hw))). revert w Hw.
  match goal with |- forall w, _ -> exists a w' es, ?m w = _ /\ _ =>
    change (keeps (good_window s W) m) end.
  cbv zeta. destruct (_ =? 0); [apply keeps_ret|]. apply triple_get_conn_window. intros c Hc HW.
  destruct (_ || _); (apply keeps_bind; [by apply keeps_quiet_window; auto with porter|]); intros now.
  - apply keeps_bind; [|intros _; apply keeps_ret]. apply keeps_put_conn_window; [conn_solve|done].
  - destruct (_ <=? _); [|apply keeps_ret].
    apply keeps_bind; [|intros _; apply keeps_ret]. apply keeps_put_conn_window; [conn_solve|done].
Qed.

Lemma keeps_gap_ready s n :
  0 <= n < 4294967296 -> keeps (good g s) (reorder_gap_ready s n).
Proof. intros Hn. apply keeps_window_good. intros W. by apply keeps_gap_ready_window. Qed.

Lemma keeps_slot_gap_ready s n :
  0 <= n < 4294967296 -> keeps (good g s) (slot_gap_ready s n).
Proof.
  intros Hn. unfold slot_gap_ready. destruct (slot_is_peer s); [auto with porter|].
  by apply keeps_gap_ready.
Qed.

Lemma good_ctx s w : good g s w -> good g SlotCtx w.
Proof. intros [Hf _]. split; [done|by eexists]. Qed.

(** Disconnecting the service does not release any peer. *)
Lemma keeps_disconnect_service_any s :
  keeps (good g s) thread_recv_disconnect_service_all_paths.
Proof.
  intros w Hw. pose proof Hw as [[Hx Hgx] Hs].
  destruct (keeps_disconnect_service g w (good_ctx _ _ Hw)) as (a & w' & es & Hr & [Hf _]).
  exists a, w', es. split; [done|]. split; [done|].
  destruct (sync_and_emit_run SlotCtx potr_internal_zero_path_states w (x_conn (w_ctx w)) eq_refl)
    as (id & h' & _ & _ & Hr').
  unfold thread_recv_disconnect_service_all_paths in Hr. rewrite Hr' in Hr. injection Hr as _ <- _.
  destruct s; [by eexists|exact Hs].
Qed.

Lemma keeps_raw_disconnect s : keeps (good g s) (raw_session_disconnect s).
Proof.
  apply keeps_bind; [apply keeps_clear_ping_states|intros _].
  apply keeps_bind; [apply keeps_disconnect_service_any|intros _].
  apply keeps_modify_conn. intros c Hc. conn_solve. destruct (ok_frag _ _ Hc).
  split; [done|]. cbn. lia.
Qed.

(** *** Operations on the receive window *)

Lemma pkt_ok_storable pkt : pkt_ok g pkt -> storable Z.to_nat (max_payload_cfg (x_global g)) pkt.
Proof.
  intros [Hr Hl Hp]. split; [lia|]. destruct (pkt_payload pkt); [by destruct Hp|]. by rewrite Hp.
Qed.

Lemma pkt_ok_bytes pkt : pkt_ok g pkt -> slot_bytes (Some (content Z.to_nat pkt)).
Proof.
  intros [Hr Hl Hp]. destruct Hg. pose proof (pr_len _ Hr). split.
  - unfold content. cbn [pkt_payload with_payload]. apply Forall_take.
    destruct (pkt_payload pkt); [apply Hp|constructor].
  - unfold content. cbn [pkt_payload_len with_payload]. lia.
Qed.

Lemma window_push_ok w pkt :
  recv_window_ok g w -> pkt_ok g pkt ->
  exists rc w', window_recv_push w pkt = Some (rc, w') /\ recv_window_ok g w' /\
    (rc = POTR_OK <-> pkt_seq_num pkt ⊖ win_base_seq w < win_window_size w).
Proof.
  intros ([Hd1 Hd2] & slots & Hr & Hb) Hp.
  destruct (recv_push_spec w slots pkt Hr) as (rc & w' & Hrun & (_ & _ & Hs1 & Hs2 & _) & Hc).
  { rewrite Hd2. by apply pkt_ok_storable. }
  { apply pr_seq, Hp. }
  exists rc, w'. split; [done|].
  destruct (Z.ltb_spec (pkt_seq_num pkt ⊖ win_base_seq w) (win_window_size w)) as [Hin|Hout].
  - destruct Hc as [-> Hr']. split; [|done]. split; [split; congruence|].
    eexists. split; [done|]. unfold spec_recv_push.
    destruct (slots !! _) as [[c|]|]; try done. by apply Forall_insert, pkt_ok_bytes.
  - destruct Hc as [-> ->]. split; [by split; eauto|]. split; [done|lia].
Qed.

Lemma keeps_slot_push s pkt : pkt_ok g pkt -> keeps (good g s) (slot_recv_push s pkt).
Proof.
  intros Hp. apply triple_get_conn_bind. intros c Hc.
  destruct (window_push_ok _ pkt (ok_recv _ _ Hc) Hp) as (rc & w' & Hr & Hw & _).
  eapply (keeps_lift_bind _ _ (rc, w')); [exact Hr|].
  apply keeps_bind; [|auto with porter]. apply keeps_put_conn. conn_solve.
Qed.

Lemma keeps_slot_reset s seq : 0 <= seq < 4294967296 -> keeps (good g s) (slot_recv_reset s seq).
Proof.
  intros Hs. apply keeps_modify_conn. intros c Hc. conn_solve.
  pose proof (ok_recv _ _ Hc) as ([Hd1 Hd2] & slots & Hr & _).
  destruct (recv_reset_spec _ _ seq Hr Hs) as (_ & Hs1 & Hs2 & Hr').
  split; [split; congruence|]. eexists. split; [done|]. apply slot_bytes_empty.
Qed.

Lemma recv_slots_cons w slots : recv_repr w slots -> exists o sl, slots = o :: sl.
Proof.
  intros Hr. destruct (recv_repr_shape _ _ Hr) as (ps & vs & pool & Hs & Hlen).
  pose proof Hs as []. destruct slots as [|o sl]; [cbn in Hlen; lia|by eexists _, _].
Qed.

Lemma recv_base_range w slots : recv_repr w slots -> 0 <= win_base_seq w < 4294967296.
Proof. intros Hr. destruct (recv_repr_shape _ _ Hr) as (ps & vs & pool & [] & _). done. Qed.

Lemma yields_needs_nack s :
  yields (good g s) (slot_needs_nack s)
    (fun o => match o with Some n => 0 <= n < 4294967296 | None => True end).
Proof.
  unfold yields, slot_needs_nack. apply triple_get_conn_bind. intros c Hc w Hw.
  pose proof (ok_recv _ _ Hc) as (_ & slots & Hr & _).
  destruct (recv_slots_cons _ _ Hr) as (o & sl & ->).
  pose proof (recv_base_range _ _ Hr) as Hb. rewrite <- (proj1 Hr) in Hb.
  unfold lift. rewrite (needs_nack_spec _ _ _ Hr). eexists _, _, _. split; [done|].
  split; [done|]. by destruct (_ && _).
Qed.

(** *** Delivery *)

Lemma keeps_deliver_elem s W e :
  packet_readable e -> keeps (good_window s W) (thread_recv_slot_deliver_payload_elem s e).
Proof.
  intros (_ & bs & Hbs & _ & Hl) w ([[Hx Hgx] _] & c & Hs & HW).
  destruct (slot_peer_id_run _ _ _ Hs) as [pid Hid].
  destruct (deliver_elem_run s e bs w c pid Hx Hs Hid Hbs Hl) as (f' & es & Hr & Hf & _).
  eexists _, _, _. split; [done|]. cbn [w_ctx w_tick].
  assert (slot_conn (with_conn (w_ctx w) s (set_frag c f')) s = Some (set_frag c f')) as Hs'
    by by eapply slot_conn_with.
  pose proof (slot_conn_ok _ _ _ Hx Hs) as Hc. split; [split; [split|]|]; cbn [w_ctx].
  - eapply with_conn_ok; [done..|]. conn_solve.
  - by rewrite with_conn_cfg.
  - by eexists.
  - eexists. split; [exact Hs'|]. done.
Qed.

Lemma keeps_for_each {A} I (l : list A) f :
  (forall a, In a l -> keeps I (f a)) -> keeps I (for_each l f).
Proof.
  induction l as [|a l IH]; intros Hf; [apply keeps_ret|]. cbn [for_each].
  apply keeps_bind; [apply Hf; by left|intros _]. apply IH. intros b Hb. apply Hf. by right.
Qed.

Lemma keeps_deliver_packet s W p :
  packet_readable p -> keeps (good_window s W) (deliver_packet s p).
Proof.
  intros Hp. unfold deliver_packet.
  destruct (unpack_loop_total p (S (Z.to_nat (pkt_payload_len p))) 0 Hp) as (es & Hes & Hall); [lia..|].
  apply (keeps_lift_bind _ _ es); [exact Hes|]. apply keeps_for_each. intros e He.
  apply keeps_deliver_elem. rewrite Forall_forall in Hall. by apply Hall.
Qed.

(** A popped packet can be unpacked. *)
Lemma popped_readable p c bs :
  content Z.to_nat p = c -> slot_bytes (Some c) -> pkt_payload p = Some bs ->
  (Z.to_nat (pkt_payload_len p) <= length bs)%nat -> packet_readable p.
Proof.
  intros <- [Hb Hl] Hbs Hle. unfold content in Hb, Hl. cbn [pkt_payload pkt_payload_len with_payload] in *.
  rewrite Hbs in Hb. split; [done|]. by exists bs.
Qed.

Lemma good_window_put s W W' w c :
  good_window s W w -> slot_conn (w_ctx w) s = Some c -> recv_window_ok g W' ->
  exists w', put_conn s (set_recv_window c W') w = Some (tt, w', []) /\ good_window s W' w'.
Proof.
  intros Hw Hs HW. pose proof Hw as ([[Hx Hgx] _] & _).
  pose proof (slot_conn_ok _ _ _ Hx Hs) as Hc. rewrite Hgx in Hc.
  assert (conn_ok g (set_recv_window c W')) as Hc' by conn_solve.
  destruct (keeps_put_conn_window s W W' _ Hc' eq_refl w Hw) as (a & w' & es & Hr & Hw').
  rewrite (put_conn_run _ _ _ _ Hs) in Hr |- *. injection Hr as <- <- <-. by eexists.
Qed.

(** The loop ends: every turn takes one packet of the run that is ready. *)
Lemma drain_loop_ok fuel skip s W slots :
  win_dims g W -> recv_repr W slots -> Forall slot_bytes slots -> (length (ready slots) < fuel)%nat ->
  triple (good_window s W) (drain_loop fuel skip s) (fun _ w _ => good g s w).
Proof.
  revert W slots. induction fuel as [|fuel IH]; intros W slots Hd Hr Hb Hf; [lia|].
  intros w Hw. pose proof Hw as (Hgood & c & Hs & HW). cbn [drain_loop].
  rewrite (bind_run_nil _ _ _ _ _ (get_conn_run _ _ _ Hs)), HW.
  destruct (recv_slots_cons _ _ Hr) as (o & sl & ->). apply Forall_cons_1 in Hb as [Ho Hb].
  pose proof (recv_pop_spec _ _ _ Hr) as Hpop. destruct o as [pc|].
  - destruct Hpop as (W' & p & Hpop & Hpc & (bs & Hbs & Hle) & _ & Hs1 & Hs2 & Hr').
    rewrite (lift_bind _ _ _ _ Hpop).
    assert (win_dims g W') as Hd' by (destruct Hd; split; congruence).
    assert (Forall slot_bytes (sl ++ [None])) as Hb' by (apply Forall_app; split; [done|by constructor]).
    destruct (good_window_put s W W' w c Hw Hs) as (w' & Hput & Hw').
    { split; [done|]. by exists (sl ++ [None]). }
    rewrite (bind_run_nil _ _ _ _ _ Hput). cbn [Z.eqb POTR_OK].
    assert (triple (good_window s W') (drain_loop fuel skip s) (fun _ w _ => good g s w)) as Hrest.
    { apply (IH W' (sl ++ [None])); try done. rewrite ready_app_None. cbn in Hf. lia. }
    destruct (skip && _); [by apply Hrest|].
    eapply triple_seq; [by apply keeps_deliver_packet, (popped_readable p pc bs)| |exact Hw'].
    intros ?. apply Hrest.
  - rewrite (lift_bind _ _ _ _ Hpop).
    destruct (good_window_put s W W w c Hw Hs) as (w' & Hput & Hw').
    { split; [done|]. exists (None :: sl). split; [done|]. by constructor. }
    rewrite (bind_run_nil _ _ _ _ _ Hput). exists tt, w', []. split; [done|]. apply Hw'.
Qed.

Lemma drain_ok s :
  triple (good g s) (slot_drain_recv_window s)
    (fun b w _ => fine g w /\ (b = true -> good g s w)).
Proof.
  intros w Hw. pose proof Hw as [[Hx Hgx] [c Hs]].
  pose proof (slot_conn_ok _ _ _ Hx Hs) as Hc. rewrite Hgx in Hc.
  pose proof (ok_recv _ _ Hc) as (Hd & slots & Hr & Hb).
  destruct (recv_repr_shape _ _ Hr) as (ps & vs & pool & _ & Hlen).
  unfold slot_drain_recv_window. rewrite (bind_run_nil _ _ _ _ _ (get_conn_run _ _ _ Hs)).
  refine (triple_seq _ _ (good_window s (c_recv_window c)) _ _
    (drain_loop_ok _ true s _ slots Hd Hr Hb _) _ w _).
  - pose proof (ready_length slots). lia.
  - intros ?. apply triple_get_conn_bind. intros c1 Hc1.
    destruct (thread_recv_fin_pending_reached c1) as [target|].
    + eapply triple_seq; [apply fin_fire_fine|]. intros ?. apply triple_ret.
      intros w' [Hf Hctx]. split; [done|]. destruct s; [by intros _; apply Hctx|done].
    + apply triple_ret. intros w' Hw'. split; [by eapply good_fine|done].
  - split; [done|]. by exists c.
Qed.

Lemma keeps_outer_gap s pkt raw : pkt_ok g pkt -> keeps (good g s) (outer_gap s pkt raw).
Proof.
  intros Hp. pose proof (pr_seq _ (pk_ranges _ _ Hp)) as Hseq. unfold outer_gap.
  eapply keeps_bind_yields; [apply yields_needs_nack|]. intros [n|] Hn.
  - destruct raw.
    + apply keeps_bind; [by apply keeps_gap_ready|]. intros []; [|auto with porter].
      apply keeps_bind; [apply keeps_raw_disconnect|intros _].
      apply keeps_bind; [by apply keeps_slot_reset|intros _].
      apply keeps_bind; [by apply keeps_slot_push|auto with porter].
    + apply keeps_bind; [by apply keeps_slot_gap_ready|]. intros r.
      apply keeps_bind; [|auto with porter]. apply keeps_when. intros _. apply keeps_send_nack.
  - apply keeps_bind; [|auto with porter]. apply keeps_modify_conn. intros c Hc. conn_solve.
Qed.

Lemma keeps_fine {A} s (m : M A) :
  keeps (good g s) m -> triple (good g s) m (fun _ w _ => fine g w).
Proof. intros Hm. eapply triple_conseq; [apply Hm|done|]. intros a w es Hw. apply Hw. Qed.

Lemma outer_pushed_ok s pkt path :
  pkt_ok g pkt -> (path < POTR_MAX_PATH)%nat ->
  triple (good g s) (outer_pushed s pkt path) (fun _ w _ => fine g w).
Proof.
  intros Hp Hpath. unfold outer_pushed. apply triple_get_cfg_bind. cbv zeta.
  apply (triple_seq _ _ _ (fun _ => good g s)); [by apply keeps_outer_gap|]. intros go.
  destruct (negb go); [apply keeps_fine, keeps_ret|].
  apply (triple_seq _ _ _ (fun _ => good g s)).
  { apply keeps_when. intros _. apply keeps_bind; [by apply keeps_update_path_health|intros _].
    apply keeps_sync_path_state. }
  intros _. eapply triple_seq; [apply drain_ok|]. intros live.
  destruct live; cbn [negb].
  2: { apply triple_ret. by intros w [Hw _]. }
  apply (triple_conseq _ (good g s) _ (fun _ w _ => fine g w)); [|intros w [_ Hw]; by apply Hw|done].
  apply keeps_fine.
  eapply keeps_bind_yields; [apply yields_needs_nack|]. intros [n|] Hn.
  - destruct (is_raw_type _); [auto with porter|].
    apply keeps_bind; [by apply keeps_slot_gap_ready|]. intros r. apply keeps_when. intros _.
    apply keeps_send_nack.
  - apply keeps_modify_conn. intros c Hc. conn_solve.
Qed.

Lemma accept_outer_ok s pkt path :
  pkt_ok g pkt -> (path < POTR_MAX_PATH)%nat ->
  triple (good g s) (thread_recv_window_accept_outer s pkt path) (fun _ w _ => fine g w).
Proof.
  intros Hp Hpath. pose proof (pr_seq _ (pk_ranges _ _ Hp)) as Hseq.
  apply triple_get_cfg_bind.
  apply (triple_seq _ _ _ (fun _ => good g s)); [by apply keeps_slot_push|]. intros rc.
  destruct (rc =? POTR_OK); [by apply outer_pushed_ok|].
  destruct (is_raw_type _); [|apply keeps_fine, keeps_ret].
  apply (triple_seq _ _ _ (fun _ => good g s)); [apply keeps_raw_disconnect|intros _].
  apply (triple_seq _ _ _ (fun _ => good g s)); [by apply keeps_slot_reset|intros _].
  apply (triple_seq _ _ _ (fun _ => good g s)); [by apply keeps_slot_push|intros rc'].
  destruct (rc' =? POTR_OK); [by apply outer_pushed_ok|apply keeps_fine, keeps_ret].
Qed.

Lemma keeps_window_skip s seq :
  keeps (good g s) (slot_recv_skip s seq).
Proof.
  apply triple_get_conn_bind. intros c Hc.
  pose proof (ok_recv _ _ Hc) as ([Hd1 Hd2] & slots & Hr & Hb).
  destruct (recv_slots_cons _ _ Hr) as (o & sl & ->).
  destruct (recv_skip_spec _ _ _ seq Hr) as (w' & Hrun & Hs1 & Hs2 & Hcase).
  apply (keeps_lift_bind _ _ w' _ Hrun). apply keeps_put_conn. conn_solve.
  split; [split; congruence|]. destruct (_ =? _).
  - destruct Hcase as [_ Hr']. eexists. split; [exact Hr'|]. apply Forall_cons_1 in Hb as [_ Hb].
    apply Forall_app. split; [done|by constructor].
  - subst. by eexists.
Qed.

Context `{!PlatformLaws}.

Lemma on_reject_ok s pkt path sender :
  pkt_ok g pkt -> (path < POTR_MAX_PATH)%nat ->
  triple (good g s) (thread_recv_window_on_reject s pkt path sender) (fun _ w _ => fine g w).
Proof.
  intros Hp Hpath. apply triple_get_cfg_bind. destruct (is_raw_type _); [apply keeps_fine, keeps_ret|].
  apply (triple_seq _ _ _ (fun _ => good g s)); [apply keeps_session_adopt, Hp|intros ok].
  destruct (negb ok); [apply keeps_fine, keeps_ret|].
  apply (triple_seq _ _ _ (fun _ => good g s)); [by apply keeps_learn_sender_path|intros _].
  apply (triple_seq _ _ _ (fun _ => good g s)); [apply keeps_clear_ping_states|intros _].
  apply (triple_seq _ _ _ (fun _ => good g s)); [|intros _].
  { destruct s; [apply keeps_disconnect_service|apply keeps_disconnect_peer]. }
  apply (triple_seq _ _ _ (fun _ => good g s)); [|intros _].
  { apply keeps_modify_conn. intros c Hc. conn_solve. }
  apply (triple_seq _ _ _ (fun _ => good g s)); [apply keeps_window_skip|intros _].
  eapply triple_seq; [apply drain_ok|]. intros ?. apply triple_ret. by intros w [Hw _].
Qed.

Lemma keeps_nack_is_duplicate s n : keeps (good g s) (nack_is_duplicate s n).
Proof.
  apply keeps_bind; [auto with porter|]. intros now. apply triple_get_conn_bind. intros c Hc. cbv zeta.
  destruct (existsb _ _); [apply keeps_ret|]. pose proof (ok_dedup _ _ Hc) as [Hl Hn].
  destruct (lookup_lt_is_Some_2 (nack_dedup_buf (c_dedup c)) (Z.to_nat (nack_dedup_next (c_dedup c))))
    as [e He]; [lia|].
  apply (keeps_lift_bind _ _ e _ He). apply keeps_bind; [|auto with porter].
  apply keeps_put_conn. conn_solve. split; cbn [nack_dedup_buf nack_dedup_next].
  - by rewrite length_insert.
  - unfold u8, POTR_NACK_DEDUP_SLOTS in *. rewrite Z.mod_small; [|zmod]. zmod.
Qed.

Lemma resend_wire_ok (p : packet) bs :
  (nbo_len (pkt_payload_len p) <= Z.to_nat (max_payload_cfg (x_global g)))%nat ->
  pkt_payload p = Some bs -> (nbo_len (pkt_payload_len p) <= length bs)%nat ->
  resend_wire g p = Some (packet_header_bytes p ++ take (nbo_len (pkt_payload_len p)) bs).
Proof.
  intros Hle Hbs Hl. unfold resend_wire, potr_internal_packet_wire_size, nbo_len in *.
  destruct (Nat.ltb_spec (POTR_PACKET_HEADER_SIZE + Z.to_nat (max_payload_cfg (x_global g)))
    (Z.to_nat (Z.of_nat POTR_PACKET_HEADER_SIZE + cplat_ntoh16 (pkt_payload_len p)))) as [Hx|Hx]; [lia|].
  unfold read_at. rewrite Hbs. cbn [mbind option_bind].
  replace (Z.to_nat (Z.of_nat POTR_PACKET_HEADER_SIZE + cplat_ntoh16 (pkt_payload_len p)) -
    POTR_PACKET_HEADER_SIZE)%nat with (Z.to_nat (cplat_ntoh16 (pkt_payload_len p))) by lia.
  rewrite mem_read_Some by lia. by rewrite drop_0.
Qed.

Lemma keeps_retransmit s n :
  is_tcp_type (service_type (x_service g)) = false ->
  keeps (good g s) (slot_retransmit_or_reject s n).
Proof.
  intros Ht. apply keeps_get_cfg_bind. apply triple_get_conn_bind. intros c Hc.
  pose proof (ok_send _ _ Hc) as ([_ Hd2] & Hsw). rewrite Ht in Hsw. destruct Hsw as [pkts Hsw].
  destruct (send_get_spec _ _ n Hsw) as (rc & q & Hget & Hq).
  eapply (keeps_lift_bind _ _ (rc, q)); [exact Hget|]. cbn beta iota.
  destruct (pkts !! _) as [pc|].
  - destruct Hq as (-> & p & -> & _ & Hfit & bs & Hbs & Hl). rewrite Hd2 in Hfit. cbn [Z.eqb POTR_OK].
    eapply keeps_lift_bind; [by apply (resend_wire_ok p bs)|]. apply keeps_quiet.
    intros x Hx _ Hs. by apply quiet_wire_to_dests.
  - destruct Hq as [-> ->]. apply keeps_quiet. intros x Hx _ Hs. by apply quiet_send_reject.
Qed.

Lemma keeps_on_nack s pkt :
  is_tcp_type (service_type (x_service g)) = false ->
  keeps (good g s) (thread_recv_window_on_nack s pkt).
Proof.
  intros Ht. apply keeps_get_cfg_bind. destruct (negb _); [apply keeps_ret|].
  destruct (is_raw_type _); [apply keeps_ret|].
  apply keeps_bind; [apply keeps_nack_is_duplicate|]. intros [|]; [apply keeps_ret|].
  by apply keeps_retransmit.
Qed.

(** The scan stops at the latest at the end of the window. *)
Lemma scan_loop_ok fuel s W slots target k :
  recv_repr W slots -> 0 <= k <= win_window_size W -> win_window_size W < k + Z.of_nat fuel ->
  keeps (good_window s W) (scan_loop fuel s target (win_base_seq W ⊕ k)).
Proof.
  intros Hr. destruct (recv_repr_shape _ _ Hr) as (ps & vs & pool & [] & _).
  revert k. induction fuel as [|fuel IH]; intros k Hk Hf; [lia|]. cbn [scan_loop].
  assert (keeps (good_window s W) (scan_loop fuel s target ((win_base_seq W ⊕ k) ⊕ 1)) \/
    potr_internal_seqnum_in_window (win_base_seq W ⊕ k) (win_base_seq W) (win_window_size W) = false)
    as Hnext.
  { unfold potr_internal_seqnum_in_window. rewrite u32_dist by lia.
    destruct (Z.ltb_spec k (win_window_size W)) as [Hin|]; [left|by right].
    rewrite u32_add_l. replace (win_base_seq W + k + 1) with (win_base_seq W + (k + 1)) by lia.
    apply IH; lia. }
  apply triple_get_conn_window. intros c Hc HW. cbv zeta. rewrite HW.
  destruct Hnext as [Hnext| ->]; [|rewrite andb_false_r; apply keeps_ret].
  destruct (_ && _); [|apply keeps_ret].
  eapply keeps_lift_bind; [by apply (has_packet_spec _ slots)|].
  destruct (negb _); [|exact Hnext].
  apply keeps_bind; [apply keeps_gap_ready_window, u32_range|].
  intros [|]; [|apply keeps_ret].
  apply keeps_bind; [|intros _; exact Hnext].
  apply keeps_quiet_window. intros x Hx _ Hs. by apply quiet_send_nack.
Qed.

Lemma keeps_get_conn_window {B} s (k : conn -> M B) :
  (forall c, conn_ok g c ->
     triple (good_window s (c_recv_window c)) (k c) (fun _ w _ => good g s w)) ->
  keeps (good g s) (get_conn s ≫= k).
Proof.
  intros Hk w Hw. pose proof Hw as [[Hx Hgx] [c Hs]].
  rewrite (bind_run_nil _ _ _ _ _ (get_conn_run _ _ _ Hs)). apply (Hk c).
  - rewrite <- Hgx. by eapply slot_conn_ok.
  - split; [done|]. by exists c.
Qed.

Lemma keeps_scan_ping_gap s pkt :
  packet_ranges pkt -> keeps (good g s) (thread_recv_window_scan_ping_gap s pkt).
Proof.
  intros Hp. pose proof (pr_seq _ Hp) as Hseq. apply keeps_get_cfg_bind.
  apply keeps_get_conn_window. intros c Hc. cbv zeta.
  pose proof (ok_recv _ _ Hc) as (_ & slots & Hr & _). pose proof (recv_base_range _ _ Hr) as Hb.
  assert (forall m, keeps (good g s) m ->
    triple (good_window s (c_recv_window c)) m (fun (_ : unit) w _ => good g s w)) as Hweak.
  { intros m Hm. eapply triple_conseq; [exact Hm|apply good_window_good|done]. }
  assert (keeps (good g s) (modify_conn s (fun c => set_reorder_pending c false))) as Hclear.
  { apply keeps_modify_conn. intros c' Hc'. conn_solve. }
  rewrite (proj1 Hr). destruct (slot_is_peer s).
  { apply Hweak, keeps_when. intros _. apply keeps_bind; [by apply keeps_slot_gap_ready|].
    intros r. apply keeps_when. intros _. apply keeps_send_nack. }
  destruct (is_raw_type _).
  { apply Hweak. destruct (_ && _); [|exact Hclear].
    apply keeps_bind; [by apply keeps_gap_ready|]. intros r. apply keeps_when. intros _.
    apply keeps_bind; [apply keeps_raw_disconnect|intros _]. by apply keeps_slot_reset. }
  destruct (recv_repr_shape _ _ Hr) as (ps & vs & pool & [] & _).
  apply (triple_seq _ _ _ (fun _ => good_window s (c_recv_window c))).
  - replace (win_base_seq (c_recv_window c)) with (win_base_seq (c_recv_window c) ⊕ 0) at 1.
    + apply (scan_loop_ok _ _ _ slots); [done|lia..].
    + rewrite Z.add_0_r. by apply u32_small.
  - intros stop. apply Hweak, keeps_when. intros _. exact Hclear.
Qed.

Lemma keeps_check_reorder_timeout s :
  keeps (good g s) (thread_recv_window_check_reorder_timeout s).
Proof.
  apply keeps_get_cfg_bind. apply triple_get_conn_bind. intros c Hc.
  destruct (negb _); [apply keeps_ret|].
  apply keeps_bind; [apply keeps_gap_ready, (ok_reorder _ _ Hc)|]. intros r.
  destruct (negb r); [apply keeps_ret|]. destruct (is_raw_type _).
  - apply keeps_bind; [apply keeps_raw_disconnect|intros _].
    apply keeps_bind; [|intros _; apply keeps_reinit_recv_window; lia].
    apply keeps_modify_conn. intros c' Hc'. conn_solve. destruct (ok_health _ _ Hc'). by split.
  - apply triple_get_conn_bind. intros c' Hc'. apply keeps_send_nack.
Qed.
End RecvWindowOk.
