(* ===== verification/HealthThread.v ===== *)
(** Health monitoring, sending side: [potr_health_thread.c].  A PING carries
    the sender's view of every path; it is sent once per interval, or at once
    when a path changes its state. *)

From stdpp Require Import base list numbers option.
From Stdlib Require Import ZArith Lia ZifyBool.
From S2P Require Import Prelude Types Packet Window Context PathEvent Validate PeerTable.
From S2P Require Import Session Fin.
Local Open Scope Z_scope.
Local Open Scope porter_scope.

Definition get_last_health_signal_send_ms (x : potr_context) : Z :=
  if x_last_valid_data_send_ms x <? x_last_ping_send_ms x
  then x_last_ping_send_ms x else x_last_valid_data_send_ms x.

(** Wake the health thread of path [k], when it runs. *)
Definition signal_health_thread (k : nat) : M unit :=
  if (POTR_MAX_PATH <=? k)%nat then mret tt
  else
    x ← get_ctx;
    r ← lift (x_health_running x !! k);
    when r (emit (EvHealthWake k)).

Definition potr_internal_health_thread_wake : M unit := signal_health_thread 0.

Definition potr_internal_tcp_health_thread_wake_all : M unit :=
  g ← get_cfg; for_range 0 (x_n_path g) signal_health_thread.

(** One turn of the loop of [wait_oneway_udp_ping_due]: [None] when the PING is
    due, otherwise how long to sleep.  Times are 64-bit milliseconds. *)
Definition oneway_udp_ping_wait (x : potr_context) (initial_ping_due_ms now : Z) : option Z :=
  let last_ping := x_last_ping_send_ms x in
  let last_data := x_last_valid_data_send_ms x in
  let due_ms := if (last_ping =? 0) && (last_data =? 0) then initial_ping_due_ms
                else u64 (get_last_health_signal_send_ms x + x_health_interval_ms (x_cfg x)) in
  if due_ms <=? now then None else Some (u32 (due_ms - now)).

Section HealthThread.
Context `{CplatByteorder} `{Platform}.

(** The wire image of a PING with the path states [states]; [None] when
    encryption fails. *)
Definition ping_wire (g : service_config) (ping_pkt : packet) (states : list Z) : option (list Z) :=
  if encrypt_enabled (x_service g) then
    let p := mark_encrypted ping_pkt (Z.of_nat (POTR_MAX_PATH + POTR_CRYPTO_TAG_SIZE)) in
    let nonce := make_nonce (pkt_session_id p) (pkt_flags p) (pkt_seq_num p) in
    ct ← cplat_crypto_encrypt (POTR_MAX_PATH + POTR_CRYPTO_TAG_SIZE) (encrypt_key (x_service g)) nonce
           (packet_header_bytes p) states;
    Some (packet_header_bytes p ++ ct)
  else Some (packet_header_bytes ping_pkt ++ states).

Definition build_ping (g : service_config) (c : conn) (states : list Z) : Z * option packet :=
  potr_internal_packet_build_ping (Some blank_packet) (Some (own_session_hdr g (c_session c)))
    (win_next_seq (c_send_window c)) (Some states) (Z.of_nat POTR_MAX_PATH).

Definition tcp_send_ping_packet (path_idx : nat) : M Z :=
  if (POTR_MAX_PATH <=? path_idx)%nat then mret POTR_ERR_INVALID_ARGUMENT
  else
    x ← get_ctx;
    let g := x_cfg x in
    let l := x_tcp_link x in
    if close_requested l then mret POTR_ERR_CANCELED
    else
      fd ← lift (x_tcp_conn_fd x !! path_idx);
      if (tcp_active_paths l =? 0) || negb fd then mret POTR_ERR_DISCONNECTED
      else
        lock_mutex HSendWindowMutex;;
        let states := copy_path_ping_state zero_ping (path_ping_state (c_health (x_conn x)))
                        POTR_MAX_PATH in
        match build_ping g (x_conn x) states with
        | (0, Some ping_pkt) =>
            match ping_wire g ping_pkt states with
            | None => mret POTR_ERR_UNKNOWN
            | Some wire =>
                ok ← tcp_send_all_locked path_idx wire;
                if ok : bool then mret POTR_OK
                else e ← tick error_cause; mret (potr_internal_result_from_error e)
            end
        | (rc, _) => mret rc
        end.

Definition potr_internal_tcp_send_ping_now (path_idx : nat) : M Z := tcp_send_ping_packet path_idx.

(** The PING round of [health_thread_func] for one peer of an N:1 service;
    the result of [build_ping] is not looked at. *)
Definition health_ping_peer (i : nat) : M unit :=
  g ← get_cfg;
  p ← get_peer i;
  if negb (p_active p) then mret tt
  else
    let c := p_conn p in
    let states := copy_path_ping_state zero_ping (path_ping_state (c_health c)) POTR_MAX_PATH in
    match build_ping g c states with
    | (_, Some ping_pkt) =>
        match ping_wire g ping_pkt states with
        | None => mret tt
        | Some wire =>
            for_range 0 POTR_MAX_PATH (fun k =>
              d ← lift (c_dest_addr c !! k);
              if endpoint_is_unset d then mret tt
              else _ ← sock_valid k; _ ← socket_sendto k wire d; mret tt)
        end
    | _ => mret tt
    end.

Definition health_ping_peers : M unit :=
  g ← get_cfg;
  for_range 0 (Z.to_nat (x_max_peers g)) (fun i =>
    x ← get_ctx;
    running ← lift (x_health_running x !! 0%nat);
    when running (health_ping_peer i)).

(** The loop of sends; was any successful? *)
Fixpoint ping_sends (k n : nat) (dests : list endpoint) (wire : list Z) (sent_any : bool) : M bool :=
  match n with
  | O => mret sent_any
  | S n =>
      d ← lift (dests !! k);
      _ ← sock_valid k;
      ok ← socket_sendto k wire d;
      ping_sends (S k) n dests wire (sent_any || ok)
  end.

(** The PING round of [health_thread_func] for a 1:1 UDP service. *)
Definition health_ping_service : M unit :=
  x ← get_ctx;
  let g := x_cfg x in
  let c := x_conn x in
  let t := service_type (x_service g) in
  let states := if type_eqb t POTR_TYPE_UNICAST_BIDIR
                then copy_path_ping_state zero_ping (path_ping_state (c_health c)) POTR_MAX_PATH
                else fill_path_ping_state zero_ping POTR_PING_STATE_UNDEFINED POTR_MAX_PATH in
  match build_ping g c states with
  | (0, Some ping_pkt) =>
      match ping_wire g ping_pkt states with
      | None => mret tt
      | Some wire =>
          sent_any ← ping_sends 0 (x_n_path g) (c_dest_addr c) wire false;
          when (is_oneway_udp_type t && sent_any)
            (now ← tick clock_monotonic_ms;
             x ← get_ctx;
             put_ctx (set_x_last_ping_send_ms x now))
      end
  | _ => mret tt
  end.

Definition health_ping_round : M unit :=
  g ← get_cfg;
  if x_is_multi_peer g then health_ping_peers else health_ping_service.
End HealthThread.

(** ** They never fault *)

Section HealthThreadOk.
Context `{CplatByteorder} `{Platform}.

Lemma quiet_signal x k : ctx_ok x -> quiet x (signal_health_thread k).
Proof.
  intros Hx. unfold signal_health_thread. destruct (Nat.leb_spec POTR_MAX_PATH k); [auto with porter|].
  apply quiet_get_ctx_bind.
  destruct (lookup_lt_is_Some_2 (x_health_running x) k) as [r Hr]; [by rewrite (xo_running _ Hx)|].
  apply (quiet_lift_bind _ _ _ r Hr). apply quiet_when. auto with porter.
Qed.

Lemma quiet_health_wake x : ctx_ok x -> quiet x potr_internal_health_thread_wake.
Proof. apply quiet_signal. Qed.

Lemma quiet_health_wake_all x : ctx_ok x -> quiet x potr_internal_tcp_health_thread_wake_all.
Proof. intros Hx. apply quiet_get_cfg_bind, quiet_for. intros k _. by apply quiet_signal. Qed.

Lemma quiet_tcp_send_all x k wire : quiet x (tcp_send_all_locked k wire).
Proof.
  unfold tcp_send_all_locked. apply quiet_bind; [auto with porter|]. intros ok.
  apply quiet_bind; auto with porter.
Qed.

Lemma quiet_tcp_send_ping x k : ctx_ok x -> quiet x (tcp_send_ping_packet k).
Proof.
  intros Hx. unfold tcp_send_ping_packet. destruct (Nat.leb_spec POTR_MAX_PATH k); [auto with porter|].
  apply quiet_get_ctx_bind. cbv zeta. destruct (close_requested _); [auto with porter|].
  destruct (lookup_lt_is_Some_2 (x_tcp_conn_fd x) k) as [fd Hfd]; [by rewrite (xo_fd _ Hx)|].
  apply (quiet_lift_bind _ _ _ fd Hfd). destruct (_ || _); [auto with porter|].
  apply quiet_bind; [auto with porter|intros _].
  destruct (build_ping _ _ _) as [[] [p|]]; auto with porter.
  destruct (ping_wire _ _ _); [|auto with porter].
  apply quiet_bind; [apply quiet_tcp_send_all|]. intros [|]; [auto with porter|].
  apply quiet_bind; auto with porter.
Qed.

Lemma keeps_quiet_fine {A} g (m : M A) :
  (forall x, ctx_ok x -> x_cfg x = g -> quiet x m) -> keeps (fine g) m.
Proof.
  intros Hq [x t] Hw. pose proof Hw as [Hx Hg]. destruct (Hq x Hx Hg t) as (a & t' & es & Hr).
  exists a, (World x t'), es. done.
Qed.

Lemma quiet_ping_sends x n k dests wire b :
  ctx_ok x -> (k + n <= POTR_MAX_PATH)%nat -> length dests = POTR_MAX_PATH ->
  quiet x (ping_sends k n dests wire b).
Proof.
  intros Hx. revert k b. induction n as [|n IH]; intros k b Hk Hd; [apply quiet_ret|]. cbn [ping_sends].
  destruct (lookup_lt_is_Some_2 dests k) as [d Hdk]; [lia|].
  apply (quiet_lift_bind _ _ _ d Hdk).
  apply quiet_bind; [apply quiet_sock_valid; rewrite (xo_sock _ Hx); lia|intros _].
  apply quiet_bind; [auto with porter|]. intros ok. apply IH; [lia|done].
Qed.

Lemma quiet_ping_peer x i :
  ctx_ok x -> is_Some (find_peer x i) -> quiet x (health_ping_peer i).
Proof.
  intros Hx [p Hp]. unfold health_ping_peer. apply quiet_get_cfg_bind.
  unfold find_peer in Hp. destruct (x_peers x) as [ps|] eqn:Hps; [|done]. cbn in Hp.
  intros t. rewrite (bind_run_nil _ _ _ _ _ (get_peer_run i p (World x t) ps Hps Hp)). revert t.
  match goal with |- forall t, exists a t' es, ?m (World x t) = _ => change (quiet x m) end.
  destruct (p_active p) eqn:Ha; cbn [negb]; [|auto with porter].
  pose proof (xo_peers _ Hx) as Hpt. rewrite Hps in Hpt.
  pose proof (ok_dest _ _ (po_conn _ _ (pt_ok _ _ _ Hpt i p Hp Ha))) as Hd.
  cbv zeta. destruct (build_ping _ _ _) as [rc [pp|]]; [|auto with porter].
  destruct (ping_wire _ _ _) as [wire|]; [|auto with porter].
  apply quiet_for. intros k Hk.
  destruct (lookup_lt_is_Some_2 (c_dest_addr (p_conn p)) k) as [d Hdk]; [lia|].
  apply (quiet_lift_bind _ _ _ d Hdk). destruct (endpoint_is_unset d); [auto with porter|].
  apply quiet_bind; [apply quiet_sock_valid; rewrite (xo_sock _ Hx); lia|intros _].
  apply quiet_bind; auto with porter.
Qed.

(** A PING round never faults and leaves a well-formed context; an N:1
    service needs its peer table. *)
Lemma ping_round_ok g :
  triple (fun w => fine g w /\ (x_is_multi_peer g = true -> is_Some (x_peers (w_ctx w))))
    health_ping_round (fun _ w _ => fine g w).
Proof.
  intros [x t] [[Hx Hg] Hps]. cbn [w_ctx] in *. unfold health_ping_round. rewrite get_cfg_bind.
  cbn [w_ctx]. rewrite Hg. destruct (x_is_multi_peer g).
  - destruct (Hps eq_refl) as [ps Hp]. pose proof (xo_peers _ Hx) as Hpt. rewrite Hp in Hpt.
    assert (quiet x health_ping_peers) as Hq.
    { apply quiet_get_cfg_bind, quiet_for. intros i Hi. apply quiet_get_ctx_bind.
      destruct (lookup_lt_is_Some_2 (x_health_running x) 0) as [r Hr].
      { rewrite (xo_running _ Hx). unfold POTR_MAX_PATH. lia. }
      apply (quiet_lift_bind _ _ _ r Hr), quiet_when. intros _. apply quiet_ping_peer; [done|].
      unfold find_peer. rewrite Hp. cbn. apply lookup_lt_is_Some_2. destruct Hpt. lia. }
    destruct (Hq t) as (a & t' & es & Hr). exists a, (World x t'), es. done.
  - unfold health_ping_service. rewrite get_ctx_bind. cbv zeta. cbn [w_ctx].
    destruct (build_ping _ _ _) as [[] [pp|]]; try (by eexists _, _, _).
    destruct (ping_wire _ _ _) as [wire|]; [|by eexists _, _, _].
    destruct (quiet_ping_sends x (x_n_path (x_cfg x)) 0 (c_dest_addr (x_conn x)) wire false Hx)
      with (t := t) as (b & t' & es & Hr).
    { apply (xo_cfg _ Hx). }
    { apply (ok_dest _ _ (xo_conn _ Hx)). }
    rewrite (bind_run _ _ _ _ _ _ Hr). unfold when. destruct (_ && _); [|by eexists _, _, _].
    rewrite tick_bind, get_ctx_bind. cbn [w_ctx w_tick].
    eexists _, _, _. split; [done|]. split; [|done]. by destruct Hx.
Qed.
End HealthThreadOk.
