(* ===== verification/Send.v ===== *)
(** Sending: [potr_service_send.c] and [potr_send_thread.c].

    A message is cut into elements that fit a packet, the elements pass through
    the send queue, and the send thread packs them into packets, numbers, seals
    and keeps each packet for retransmission, and sends it on every path. *)

From stdpp Require Import base list numbers option.
From Stdlib Require Import Sorted ZArith Lia ZifyBool.
From S2P Require Import Prelude Types Packet Window SendQueue Context PathEvent Validate.
From S2P Require Import PeerTable RecvSlot Session Fin RecvWindow HealthThread.
Local Open Scope Z_scope.
Local Open Scope porter_scope.

(** The bytes of one element at most: [max_payload] in [send_to_peer]. *)
Definition max_chunk (g : service_config) : Z :=
  let m := max_payload_cfg (x_global g) - Z.of_nat POTR_PAYLOAD_ELEM_HDR_SIZE in
  if encrypt_enabled (x_service g) then m - Z.of_nat POTR_CRYPTO_TAG_SIZE else m.

(** The [while (remaining > 0)] loop, as the queue operations it makes in
    order (the loop ends at the first one that fails); [None] only when the
    fuel runs out. *)
Fixpoint fragment_loop (fuel cap : nat) (peer_id base_flags : Z) (data : list Z)
    : option (list sq_call) :=
  match fuel with
  | O => None
  | S fuel =>
      match data with
      | [] => Some []
      | _ =>
          let chunk := if (cap <? length data)%nat then cap else length data in
          let elem_flags := if (chunk <? length data)%nat
                            then Z.lor base_flags POTR_FLAG_MORE_FRAG else base_flags in
          rest ← fragment_loop fuel cap peer_id base_flags (drop chunk data);
          Some (CallPushWait peer_id elem_flags (take chunk data) :: rest)
      end
  end.

Definition send_to_peer (g : service_config) (peer_id : Z) (data : list Z) (flags base_flags : Z)
    : option (list sq_call) :=
  let block := if flags has POTR_SEND_BLOCKING then [CallWaitDrained] else [] in
  calls ← fragment_loop (S (length data)) (Z.to_nat (max_chunk g)) peer_id base_flags data;
  Some (block ++ calls ++ block).

(** The identifiers of the connected peers, in slot order. *)
Definition alive_ids (ps : list potr_internal_peer_context) : list Z :=
  omap (fun p => if p_active p && health_alive (c_health (p_conn p))
                 then Some (p_peer_id p) else None) ps.

Section Send.
Context `{CplatByteorder} `{Platform}.

(** [potr_service_send] on a non-null handle and buffer: an error code, or
    the queue operations of the [send_to_peer] calls it makes. *)
Definition potr_service_send (peer_id : Z) (data : list Z) (flags : Z)
    : M (Z + list (list sq_call)) :=
  x ← get_ctx;
  let g := x_cfg x in
  let t := service_type (x_service g) in
  let alive := health_alive (c_health (x_conn x)) in
  if (length data =? 0)%nat || (max_message_size (x_global g) <? Z.of_nat (length data))
  then mret (inl POTR_ERR_INVALID_ARGUMENT)
  else if close_requested (x_tcp_link x) then mret (inl POTR_ERR_CANCELED)
  else if is_tcp_type t && ((tcp_active_paths (x_tcp_link x) =? 0) || negb alive)
  then mret (inl POTR_ERR_DISCONNECTED)
  else if type_eqb t POTR_TYPE_UNICAST_BIDIR && negb alive
  then mret (inl POTR_ERR_DISCONNECTED)
  else
    let flags := if is_raw_type t then Z.lor flags POTR_SEND_BLOCKING else flags in
    let body :=
      if flags has POTR_SEND_COMPRESS then
        cmp ← cplat_compress (x_compress_buf_size g) data;
        Some (if (length cmp <? length data)%nat then (cmp, POTR_FLAG_COMPRESSED) else (data, 0))
      else Some (data, 0) in
    match body with
    | None => mret (inl POTR_ERR_UNKNOWN)
    | Some (data, base_flags) =>
        let one id :=
          calls ← lift (send_to_peer g id data flags base_flags); mret (inr [calls]) in
        if x_is_multi_peer g then
          if peer_id =? POTR_PEER_NA then mret (inl POTR_ERR_INVALID_ARGUMENT)
          else if peer_id =? POTR_PEER_ALL then
            ok ← tick alloc_ok;
            if negb ok then mret (inl POTR_ERR_OUT_OF_MEMORY)
            else
              ps ← lift (x_peers x);
              match alive_ids ps with
              | [] => mret (inl POTR_ERR_DISCONNECTED)
              | ids =>
                  calls ← lift (mapM (fun id => send_to_peer g id data flags base_flags) ids);
                  mret (inr calls)
              end
          else
            o ← potr_internal_peer_find_by_id peer_id;
            match o with
            | None => mret (inl POTR_ERR_NOT_FOUND)
            | Some i =>
                p ← get_peer i;
                if negb (health_alive (c_health (p_conn p)))
                then mret (inl POTR_ERR_DISCONNECTED)
                else one peer_id
            end
        else one POTR_PEER_NA
    end.

(** ** The send thread *)

Definition should_track_valid_data_send_time (g : service_config) : bool :=
  negb (x_is_multi_peer g) && is_oneway_udp_type (service_type (x_service g)).

(** [append_payload_elem] at the end of what has been packed into
    [send_wire_buf], which holds [max_payload] bytes behind the header. *)
Definition append_payload_elem (g : service_config) (packed : list Z) (flags : Z) (payload : list Z)
    : option (list Z) :=
  let packed' := packed ++ mem_of host_endian 2 (cplat_hton16 flags) ++
                 mem_of host_endian 4 (cplat_hton32 (Z.of_nat (length payload))) ++ payload in
  if (Z.to_nat (max_payload_cfg (x_global g)) <? length packed')%nat then None else Some packed'.

(** Reading an element through its payload pointer. *)
Definition append_entry (g : service_config) (q : potr_internal_send_queue) (packed : list Z)
    (e : potr_internal_payload_elem) : option (list Z) :=
  '(_, flags, payload) ← elem_read q e;
  append_payload_elem g packed flags payload.

Definition crypto_tag_overhead (g : service_config) : Z :=
  if encrypt_enabled (x_service g) then Z.of_nat POTR_CRYPTO_TAG_SIZE else 0.

(** May [next] join the packet? *)
Definition can_join (g : service_config) (target : option Z) (packed : list Z)
    (next : potr_internal_payload_elem) : bool :=
  match target with Some id => pe_peer_id next =? id | None => true end &&
  negb (pe_flags next has POTR_FLAG_MORE_FRAG) &&
  (Z.of_nat (length packed + POTR_PAYLOAD_ELEM_HDR_SIZE) + pe_payload_len next
     <=? max_payload_cfg (x_global g) - crypto_tag_overhead g).

(** Producers that run while the send thread waits: [push] of each message,
    as far as there is room. *)
Fixpoint push_arrivals (q : potr_internal_send_queue) (ms : list sq_msg)
    : option potr_internal_send_queue :=
  match ms with
  | [] => Some q
  | (peer, flags, bs) :: ms =>
      '(_, q', _) ← potr_internal_send_queue_push q peer flags bs; push_arrivals q' ms
  end.

(** The packing loops of [send_thread_func] and [send_packed_peer_mode].  Each
    turn, [arrivals] says what producers queue before the thread looks; the
    loop with [pack_wait_ms] ends when its time is over, which is when the
    list ends.  The result is the packed bytes, the number of elements taken
    and the queue. *)
Fixpoint pack_loop (g : service_config) (target : option Z) (arrivals : list (list sq_msg))
    (q : potr_internal_send_queue) (packed : list Z) (n_dequeued : nat)
    : option (list Z * nat * potr_internal_send_queue) :=
  match arrivals with
  | [] => Some (packed, n_dequeued, q)
  | ms :: arrivals =>
      q ← push_arrivals q ms;
      r ← potr_internal_send_queue_peek q;
      match r with
      | (Returns _ (Some next), _, _) =>
          if negb (can_join g target packed next) then Some (packed, n_dequeued, q)
          else
            r ← potr_internal_send_queue_try_pop q;
            match r with
            | (Returns _ (Some next), q', _) =>
                packed' ← append_entry g q packed next;
                pack_loop g target arrivals q' packed' (n_dequeued + 1)
            | (_, q', _) => Some (packed, n_dequeued, q')
            end
      | _ => Some (packed, n_dequeued, q)
      end
  end.

(** The sealed packet: header and payload as they go on the wire and into
    the send window; [None] when encryption fails. *)
Definition seal_packed (g : service_config) (outer_pkt : packet) (packed : list Z)
    : option packet :=
  if encrypt_enabled (x_service g) then
    let p := mark_encrypted outer_pkt (Z.of_nat (length packed + POTR_CRYPTO_TAG_SIZE)) in
    let nonce := make_nonce (pkt_session_id p) (pkt_flags p) (pkt_seq_num p) in
    ct ← cplat_crypto_encrypt (x_crypto_buf_size g) (encrypt_key (x_service g)) nonce
           (packet_header_bytes p) packed;
    Some (with_payload p (Some ct))
  else Some outer_pkt.

(** The wire image assembled in [send_wire_buf]. *)
Definition data_wire (g : service_config) (p : packet) (packed : list Z) : option (list Z) :=
  let body := if encrypt_enabled (x_service g) then default [] (pkt_payload p) else packed in
  if (Z.to_nat (max_payload_cfg (x_global g)) <? length body)%nat then None
  else Some (packet_header_bytes p ++ body).

(** Build, seal and number a packet: [None] when the function returns before
    the packet is numbered, otherwise its wire image. *)
Definition flush_build (s : slot) (packed : list Z) : M (option (list Z)) :=
  g ← get_cfg;
  c ← get_conn s;
  match potr_internal_packet_build_packed (Some blank_packet) (Some (own_session_hdr g (c_session c)))
          (win_next_seq (c_send_window c)) (Some packed) (Z.of_nat (length packed)) with
  | (0, Some outer_pkt) =>
      match seal_packed g outer_pkt packed with
      | None => mret None
      | Some p =>
          w ← (if is_tcp_type (service_type (x_service g))
               then mret (set_win_next_seq (c_send_window c) (win_next_seq (c_send_window c) ⊕ 1))
               else '(_, w) ← lift (window_send_push (c_send_window c) p); mret w);
          put_conn s (set_send_has_data (set_send_window c w) true);;
          wire ← lift (data_wire g p packed);
          mret (Some wire)
      end
  | _ => mret None
  end.

(** The TCP connections: a packet is skipped on a path whose send buffer is
    full.  ([buf_full_suppress_cnt] only limits the trace output.) *)
Definition flush_tcp (wire : list Z) : M unit :=
  x ← get_ctx;
  when (0 <? tcp_active_paths (x_tcp_link x))
    (for_range 0 (x_n_path (x_cfg x)) (fun k =>
       fd ← lift (x_tcp_conn_fd x !! k);
       if negb fd then mret tt
       else
         ok ← tick writable;
         when ok (_ ← tcp_send_all_locked k wire; mret tt))).

Definition flush_packed (packed : list Z) : M unit :=
  g ← get_cfg;
  o ← flush_build SlotCtx packed;
  match o with
  | None => mret tt
  | Some wire =>
      if is_tcp_type (service_type (x_service g)) then flush_tcp wire
      else
        c ← get_conn SlotCtx;
        sent_any ← ping_sends 0 (x_n_path g) (c_dest_addr c) wire false;
        when (sent_any && should_track_valid_data_send_time g)
          (now ← tick clock_monotonic_ms;
           x ← get_ctx;
           put_ctx (set_x_last_valid_data_send_ms x now);;
           potr_internal_health_thread_wake)
  end.

Definition flush_packed_peer (i : nat) (packed : list Z) : M unit :=
  o ← flush_build (SlotPeer i) packed;
  match o with
  | None => mret tt
  | Some wire =>
      c ← get_conn (SlotPeer i);
      for_range 0 POTR_MAX_PATH (fun k =>
        d ← lift (c_dest_addr c !! k);
        if endpoint_is_unset d then mret tt
        else _ ← sock_valid k; _ ← socket_sendto k wire d; mret tt)
  end.

(** The [complete] calls after a flush. *)
Fixpoint complete_n (n : nat) (q : potr_internal_send_queue) : option potr_internal_send_queue :=
  match n with
  | O => Some q
  | S n => '(_, q', _) ← potr_internal_send_queue_complete q; complete_n n q'
  end.

(** What follows a successful [pop]: pack, flush, complete.  [arrivals] as in
    [pack_loop]. *)
Definition send_packed_peer_mode (q : potr_internal_send_queue) (first : potr_internal_payload_elem)
    (arrivals : list (list sq_msg)) : M potr_internal_send_queue :=
  g ← get_cfg;
  o ← potr_internal_peer_find_by_id (pe_peer_id first);
  match o with
  | None => lift (complete_n 1 q)
  | Some i =>
      packed ← lift (append_entry g q [] first);
      '(packed, n, q) ← lift (if pe_flags first has POTR_FLAG_MORE_FRAG then Some (packed, 1%nat, q)
                              else pack_loop g (Some (pe_peer_id first)) arrivals q packed 1);
      flush_packed_peer i packed;;
      lift (complete_n n q)
  end.

Definition send_packed_service (q : potr_internal_send_queue) (first : potr_internal_payload_elem)
    (arrivals : list (list sq_msg)) : M potr_internal_send_queue :=
  g ← get_cfg;
  packed ← lift (append_entry g q [] first);
  '(packed, n, q) ← lift (if pe_flags first has POTR_FLAG_MORE_FRAG then Some (packed, 1%nat, q)
                          else pack_loop g None arrivals q packed 1);
  flush_packed packed;;
  lift (complete_n n q).

(** One turn of [send_thread_func], when the queue is not empty. *)
Definition send_thread_turn (q : potr_internal_send_queue) (arrivals : list (list sq_msg))
    : M potr_internal_send_queue :=
  g ← get_cfg;
  r ← lift (potr_internal_send_queue_pop 1 q);
  match r with
  | (Returns _ (Some first), q, _) =>
      if x_is_multi_peer g then send_packed_peer_mode q first arrivals
      else send_packed_service q first arrivals
  | (_, q, _) => mret q
  end.
End Send.

(** ** Fragmentation and reassembly *)

(** The elements a call queues. *)
Definition call_elems (calls : list sq_call) : list (Z * list Z) :=
  omap (fun c => match c with CallPushWait _ f bs => Some (f, bs) | _ => None end) calls.

Definition call_peers (calls : list sq_call) : list Z :=
  omap (fun c => match c with CallPushWait p _ _ => Some p | _ => None end) calls.

(** The entries a call queues, as the send queue holds them. *)
Definition call_msgs (calls : list sq_call) : list sq_msg :=
  omap (fun c => match c with CallPushWait p f bs => Some (p, f, bs) | _ => None end) calls.

Lemma call_elems_msgs calls : call_elems calls = map (fun m : sq_msg => (m.1.2, m.2)) (call_msgs calls).
Proof.
  unfold call_elems, call_msgs. induction calls as [|c calls IH]; [done|].
  destruct c; cbn; (exact IH || by f_equal).
Qed.

Lemma call_elems_app a b : call_elems (a ++ b) = call_elems a ++ call_elems b.
Proof. apply omap_app. Qed.

(** [base] is the flag word of a message: compressed or not. *)
Definition base_ok (base : Z) : Prop := base = 0 \/ base = POTR_FLAG_COMPRESSED.

Lemma base_flags_facts base :
  base_ok base ->
  base has POTR_FLAG_MORE_FRAG = false /\
  Z.lor base POTR_FLAG_MORE_FRAG has POTR_FLAG_MORE_FRAG = true /\
  Z.lor base POTR_FLAG_MORE_FRAG has POTR_FLAG_COMPRESSED = base has POTR_FLAG_COMPRESSED /\
  0 <= base < 65536 /\ 0 <= Z.lor base POTR_FLAG_MORE_FRAG < 65536.
Proof. intros [-> | ->]; vm_compute; intuition congruence. Qed.

Section Fragments.
Context (cap : nat) (base : Z).
Hypothesis Hcap : (0 < cap)%nat.
Hypothesis Hbase : base_ok base.

Lemma fragment_loop_total fuel peer data :
  (length data < fuel)%nat -> is_Some (fragment_loop fuel cap peer base data).
Proof.
  revert data. induction fuel as [|fuel IH]; intros data Hf; [lia|].
  cbn [fragment_loop]. destruct data as [|b data]; [by eexists|]. set (d := b :: data) in *. cbv zeta.
  set (chunk := if (cap <? length d)%nat then cap else length d).
  destruct (IH (drop chunk d)) as [rest ->].
  { assert (0 < length d)%nat by (subst d; cbn; lia). rewrite length_drop. subst chunk.
    destruct (Nat.ltb_spec cap (length d)); lia. }
  by eexists.
Qed.

(** Every element carries the base flags, and all but the last the mark of
    a continued message; none is empty or longer than [cap]. *)
Fixpoint fragments_ok (es : list (Z * list Z)) : Prop :=
  match es with
  | [] => False
  | [(f, bs)] => f = base /\ (0 < length bs <= cap)%nat
  | (f, bs) :: es =>
      f = Z.lor base POTR_FLAG_MORE_FRAG /\ (0 < length bs <= cap)%nat /\ fragments_ok es
  end.

Lemma fragment_loop_spec fuel peer data calls :
  fragment_loop fuel cap peer base data = Some calls -> data <> [] ->
  fragments_ok (call_elems calls) /\ concat (map snd (call_elems calls)) = data /\
  Forall (eq peer) (call_peers calls) /\ Forall (fun c => c <> CallWaitDrained) calls.
Proof.
  revert data calls. induction fuel as [|fuel IH]; intros data calls Hf Hne; [done|].
  cbn [fragment_loop] in Hf. destruct data as [|b data]; [done|]. set (d := b :: data) in *.
  cbv zeta in Hf. assert (0 < length d)%nat as Hpos by (subst d; cbn; lia).
  destruct (Nat.ltb_spec cap (length d)) as [Hlt|Hge].
  - rewrite (proj2 (Nat.ltb_lt _ _)) in Hf by done.
    destruct (fragment_loop fuel cap peer base (drop cap d)) as [rest|] eqn:Hr; [|done].
    injection Hf as <-. assert (drop cap d <> []) as Hne'.
    { intros Hnil. apply (f_equal length) in Hnil. rewrite length_drop in Hnil. cbn [length] in Hnil. lia. }
    destruct (IH _ _ Hr Hne') as (H1 & H2 & H3 & H4). cbn [call_elems call_peers omap list_omap map concat].
    fold (call_elems rest) (call_peers rest). rewrite H2. split_and!.
    + cbn [fragments_ok]. assert (0 < length (take cap d) <= cap)%nat as Hl by (rewrite length_take; lia).
      destruct (call_elems rest) as [|e es]; [done|]. done.
    + apply take_drop.
    + by constructor.
    + by constructor.
  - rewrite Nat.ltb_irrefl in Hf. rewrite drop_all, take_ge in Hf by lia.
    destruct fuel; [done|]. injection Hf as <-. cbn. rewrite app_nil_r. split_and!; try done.
    + by constructor.
    + by constructor.
Qed.

(** Reassembly inverts fragmentation. *)
Lemma fragments_reasm max es acc comp :
  fragments_ok es -> (length acc + length (concat (map snd es)) <= max)%nat ->
  (acc = [] -> comp = false) ->
  reasm_all max (acc, comp) es
  = (([], false), [(acc ++ concat (map snd es),
       if (length acc =? 0)%nat then base has POTR_FLAG_COMPRESSED else comp)]).
Proof.
  destruct (base_flags_facts base Hbase) as (Hb1 & Hb2 & Hb3 & _).
  revert acc comp. induction es as [|[f bs] es IH]; intros acc comp Hok Hmax Hc; [done|].
  cbn [reasm_all map concat snd] in *. rewrite length_app in Hmax. unfold reasm.
  destruct es as [|e es].
  - destruct Hok as [-> Hl]. rewrite Hb1. cbn [map concat reasm_all]. rewrite app_nil_r.
    destruct (Nat.ltb_spec 0 (length acc)) as [Hp|Hp].
    + rewrite (proj2 (Nat.leb_le _ _)) by lia. rewrite (proj2 (Nat.eqb_neq _ _)) by lia. done.
    + destruct acc; [|cbn in Hp; lia]. rewrite (Hc eq_refl). done.
  - destruct Hok as (-> & Hl & Hok). rewrite Hb2, Hb3.
    rewrite (proj2 (Nat.leb_le _ _)) by lia. rewrite IH; [|done|rewrite length_app; lia|].
    + rewrite <- app_assoc, length_app. rewrite (proj2 (Nat.eqb_neq (length acc + length bs) 0)) by lia.
      done.
    + intros Hnil. apply (f_equal length) in Hnil. rewrite length_app in Hnil. cbn in Hnil. lia.
Qed.
End Fragments.

Lemma reasm_all_app max st es1 es2 :
  reasm_all max st (es1 ++ es2)
  = let '(st1, o1) := reasm_all max st es1 in
    let '(st2, o2) := reasm_all max st1 es2 in (st2, o1 ++ o2).
Proof.
  revert st. induction es1 as [|[f bs] es1 IH]; intros st; cbn [reasm_all app].
  - by destruct (reasm_all max st es2).
  - destruct (reasm max st f bs) as [st1 o]. rewrite IH.
    destruct (reasm_all max st1 es1) as [st2 o1]. destruct (reasm_all max st2 es2) as [st3 o2].
    by rewrite app_assoc.
Qed.

(** A message handed to [send_to_peer]: its bytes and base flags. *)
Definition message : Type := list Z * Z.

(** Queue a sequence of messages for one destination. *)
Fixpoint send_all (g : service_config) (peer flags : Z) (ms : list message) : option (list sq_call) :=
  match ms with
  | [] => Some []
  | (data, base) :: ms =>
      a ← send_to_peer g peer data flags base;
      b ← send_all g peer flags ms;
      Some (a ++ b)
  end.

Lemma max_chunk_pos g : cfg_ok g -> (0 < Z.to_nat (max_chunk g))%nat.
Proof.
  intros [_ Hp _ _ _ _ _ _ _]. unfold max_chunk, POTR_PAYLOAD_ELEM_HDR_SIZE, POTR_CRYPTO_TAG_SIZE.
  destruct (encrypt_enabled _); lia.
Qed.

Lemma send_to_peer_spec g peer data flags base :
  cfg_ok g -> base_ok base -> data <> [] ->
  exists calls, send_to_peer g peer data flags base = Some calls /\
    fragments_ok (Z.to_nat (max_chunk g)) base (call_elems calls) /\
    concat (map snd (call_elems calls)) = data /\ Forall (eq peer) (call_peers calls).
Proof.
  intros Hg Hb Hne. pose proof (max_chunk_pos g Hg) as Hc. unfold send_to_peer.
  destruct (fragment_loop_total _ base Hc (S (length data)) peer data) as [calls Hf]; [lia|].
  rewrite Hf. cbn [mbind option_bind].
  destruct (fragment_loop_spec _ base Hc _ _ _ _ Hf Hne) as (H1 & H2 & H3 & _).
  eexists. split; [done|]. rewrite !call_elems_app.
  assert (call_elems (if flags has POTR_SEND_BLOCKING then [CallWaitDrained] else []) = []) as ->
    by by destruct (flags has _).
  cbn [app]. rewrite app_nil_r. split; [done|]. split; [done|].
  unfold call_peers in *. rewrite !omap_app. destruct (flags has _); cbn; by rewrite ?app_nil_r.
Qed.

Lemma fragments_elems g base es :
  base_ok base -> fragments_ok (Z.to_nat (max_chunk g)) base es ->
  Forall (fun e => 0 <= e.1 < 65536 /\ (0 < length e.2 <= Z.to_nat (max_chunk g))%nat) es.
Proof.
  intros Hb. destruct (base_flags_facts base Hb) as (_ & _ & _ & Hr1 & Hr2).
  induction es as [|[f bs] es IH]; intros Hok; [done|]. destruct es as [|e es].
  - destruct Hok as [-> Hok]. by constructor.
  - destruct Hok as (-> & Hl & Hok). constructor; [done|]. by apply IH.
Qed.

(** A message that can be sent: not empty, within [max_message_size]. *)
Definition message_ok (g : service_config) (m : message) : Prop :=
  m.1 <> [] /\ base_ok m.2 /\ Z.of_nat (length m.1) <= max_message_size (x_global g).

Definition message_view (m : message) : list Z * bool := (m.1, m.2 has POTR_FLAG_COMPRESSED).

Lemma send_all_spec g peer flags ms max :
  cfg_ok g -> Forall (message_ok g) ms -> max_message_size (x_global g) <= max ->
  exists calls, send_all g peer flags ms = Some calls /\ Forall (eq peer) (call_peers calls) /\
    Forall (fun e => 0 <= e.1 < 65536 /\ (0 < length e.2 <= Z.to_nat (max_chunk g))%nat)
      (call_elems calls) /\
    concat (map snd (call_elems calls)) = concat (map fst ms) /\
    reasm_all (Z.to_nat max) ([], false) (call_elems calls) = (([], false), map message_view ms).
Proof.
  intros Hg Hms0 Hmx. revert Hms0. pose proof (max_chunk_pos g Hg) as Hc.
  induction ms as [|[data base] ms IH]; intros Hms; [by eexists|].
  apply Forall_cons_1 in Hms as [(Hne & Hb & Hmax) Hms]. cbn [fst snd] in *.
  destruct (IH Hms) as (rest & Hrest & Hp & Hl & Hcr & Hre).
  destruct (send_to_peer_spec g peer data flags base Hg Hb Hne) as (calls & Hs & Hok & Hcat & Hpe).
  exists (calls ++ rest). cbn [send_all]. rewrite Hs, Hrest. cbn [mbind option_bind].
  split; [done|]. unfold call_peers. rewrite omap_app, Forall_app. split; [done|].
  rewrite call_elems_app, Forall_app, map_app, concat_app, Hcat, Hcr. split; [|split; [done|]].
  - split; [|done]. by eapply fragments_elems.
  - rewrite reasm_all_app, (fragments_reasm (Z.to_nat (max_chunk g)) base Hc Hb) by (rewrite ?Hcat; cbn; done || lia).
    rewrite Hre, Hcat. done.
Qed.

(** Fragmentation and reassembly are inverse: cutting any sequence of
    non-empty messages (compressed or not) of at most [max_message_size] bytes
    into the elements [send_to_peer] queues, for any payload size and with or
    without encryption, terminates with every element of 1 to [max_chunk]
    bytes, and the receiver's reassembly of those elements in order yields
    exactly the messages, each with its compression mark, and ends with an
    empty buffer. *)
Theorem fragments_reassemble g peer flags ms :
  cfg_ok g -> Forall (message_ok g) ms ->
  exists calls, send_all g peer flags ms = Some calls /\ Forall (eq peer) (call_peers calls) /\
    Forall (fun e => 0 <= e.1 < 65536 /\ (0 < length e.2 <= Z.to_nat (max_chunk g))%nat)
      (call_elems calls) /\
    reasm_all (Z.to_nat (max_message_size (x_global g))) ([], false) (call_elems calls)
    = (([], false), map message_view ms).
Proof.
  intros Hg Hms. destruct (send_all_spec g peer flags ms _ Hg Hms (Z.le_refl _))
    as (calls & H1 & H2 & H3 & _ & H4). by exists calls.
Qed.

Lemma fragments_reassemble_witness :
  exists calls, send_all (example_config POTR_TYPE_UNICAST true) 0 0
      [(replicate 90 1, 0); ([7; 8], POTR_FLAG_COMPRESSED)] = Some calls /\
    length (call_elems calls) = 4%nat /\
    reasm_all 100 ([], false) (call_elems calls)
    = (([], false), [(replicate 90 1, false); ([7; 8], true)]).
Proof.
  destruct (fragments_reassemble (example_config POTR_TYPE_UNICAST true) 0 0
    [(replicate 90 1, 0); ([7; 8], POTR_FLAG_COMPRESSED)]) as (calls & H1 & _ & _ & H2).
  - apply example_cfg_ok.
  - apply Forall_cons_2; [split; [discriminate|split; [left; reflexivity|cbn; lia]]|].
    apply Forall_cons_2; [split; [discriminate|split; [right; reflexivity|cbn; lia]]|apply Forall_nil_2].
  - exists calls. split; [exact H1|]. split; [|exact H2].
    vm_compute in H1. injection H1 as <-. reflexivity.
Defined.

(** ** The call of the application *)

Section ServiceSend.
Context `{CplatByteorder} `{Platform} `{!PlatformLaws}.

(** The queue operations [calls] carry [data] to [peer]: a receiver of the same
    or larger limits that gets the elements in order calls back once, with
    [data]. *)
Definition carries_message (g' : service_config) (peer : Z) (data : list Z) (calls : list sq_call)
    : Prop :=
  Forall (eq peer) (call_peers calls) /\
  exists m, reasm_all (Z.to_nat (max_message_size (x_global g'))) ([], false) (call_elems calls)
      = (([], false), [m]) /\
    forall pid, deliver_effects g' pid (Some m) = [EvCallback pid POTR_EVENT_DATA (CbBytes data)].

Lemma send_to_peer_carries g g' peer data body base flags calls :
  cfg_ok g -> body <> [] -> base_ok base -> x_callback g' = true ->
  Z.of_nat (length body) <= max_message_size (x_global g') ->
  (if base has POTR_FLAG_COMPRESSED
   then cplat_decompress (x_compress_buf_size g') body = Some data else body = data) ->
  send_to_peer g peer body flags base = Some calls -> carries_message g' peer data calls.
Proof.
  intros Hg Hne Hb Hcb Hmax Hbody Hs.
  destruct (send_to_peer_spec g peer body flags base Hg Hb Hne) as (calls' & Hs' & Hok & Hcat & Hpe).
  rewrite Hs in Hs'. injection Hs' as <-. split; [done|].
  exists (body, base has POTR_FLAG_COMPRESSED). split.
  - rewrite (fragments_reasm _ base (max_chunk_pos g Hg) Hb) by (rewrite ?Hcat; cbn; done || lia).
    by rewrite Hcat.
  - intros pid. cbn [deliver_effects]. rewrite Hcb.
    destruct (base has POTR_FLAG_COMPRESSED); [by rewrite Hbody|by subst].
Qed.

(** A peer in slot [i] that is connected. *)
Definition connected_in (x : potr_context) (i : nat) (id : Z) : Prop :=
  exists p, find_peer x i = Some p /\ p_active p = true /\ health_alive (c_health (p_conn p)) = true /\
    p_peer_id p = id.

(** What a call with the argument [peer] asks for: the single partner of a 1:1
    service; on an N:1 service the peer named, which must be connected, or the
    peer of every slot with a connected peer, in the order of the slots. *)
Definition asked_for (x : potr_context) (peer : Z) (ids : list Z) : Prop :=
  if negb (x_is_multi_peer (x_cfg x)) then ids = [POTR_PEER_NA]
  else if peer =? POTR_PEER_ALL then
    ids <> [] /\ exists slots, StronglySorted lt slots /\ Forall2 (connected_in x) slots ids /\
      forall i id, connected_in x i id -> i ∈ slots
  else ids = [peer] /\ exists i, connected_in x i peer.

Lemma alive_ids_slots ps : exists slots, StronglySorted lt slots /\
  let conn i id := exists p, ps !! i = Some p /\ p_active p = true /\
    health_alive (c_health (p_conn p)) = true /\ p_peer_id p = id in
  Forall2 conn slots (alive_ids ps) /\ forall i id, conn i id -> i ∈ slots.
Proof.
  induction ps as [|p ps (slots & Hso & Hall & Hin)]; cbv zeta in *.
  { exists []. split; [constructor|]. split; [constructor|]. by intros i id (p & Hp & _). }
  assert (StronglySorted lt (map S slots)) as Hmap.
  { clear -Hso. induction Hso as [|i l _ IH Hl]; cbn [map]; constructor; [done|].
    apply List.Forall_map. revert Hl. apply List.Forall_impl. lia. }
  assert (Forall2 (fun i id => exists q, (p :: ps) !! i = Some q /\ p_active q = true /\
    health_alive (c_health (p_conn q)) = true /\ p_peer_id q = id) (map S slots) (alive_ids ps)) as Hsh
    by by apply Forall2_fmap_l.
  unfold alive_ids. cbn [omap list_omap]. destruct (p_active p && health_alive (c_health (p_conn p))) eqn:Hp.
  - apply andb_true_iff in Hp as [Ha Hh]. exists (0%nat :: map S slots). split_and!.
    + constructor; [done|]. apply List.Forall_map, List.Forall_forall. intros; lia.
    + constructor; [by exists p|done].
    + intros [|i] id (q & Hq & Hrest); apply elem_of_cons; [by left|right].
      apply list_elem_of_fmap. exists i. split; [done|]. apply (Hin i id). by exists q.
  - exists (map S slots). split_and!; [done..|]. intros [|i] id (q & Hq & Ha & Hh & _).
    + injection Hq as ->. by rewrite Ha, Hh in Hp.
    + apply list_elem_of_fmap. exists i. split; [done|]. apply (Hin i (p_peer_id q)). by exists q.
Qed.

(** The bytes queued for [data], with their mark, give [data] back. *)
Lemma send_body_ok g' fl size data body base :
  (if fl has POTR_SEND_COMPRESS then
     cmp ← cplat_compress size data;
     Some (if (length cmp <? length data)%nat then (cmp, POTR_FLAG_COMPRESSED) else (data, 0))
   else Some (data, 0)) = Some (body, base) ->
  data <> [] -> Z.of_nat (length data) <= max_message_size (x_global g') ->
  Z.of_nat (length data) <= Z.of_nat (x_compress_buf_size g') ->
  body <> [] /\ base_ok base /\ Z.of_nat (length body) <= max_message_size (x_global g') /\
    if base has POTR_FLAG_COMPRESSED
    then cplat_decompress (x_compress_buf_size g') body = Some data else body = data.
Proof.
  intros Hbody Hnil Hmax Hcmp.
  destruct (fl has POTR_SEND_COMPRESS); [|injection Hbody as <- <-; split_and!; [done|by left|lia|done]].
  destruct (cplat_compress _ data) as [cmp|] eqn:Hc; [|done]. cbn [mbind option_bind] in Hbody.
  destruct (Nat.ltb_spec (length cmp) (length data)) as [Hlt|]; injection Hbody as <- <-;
    [|split_and!; [done|by left|lia|done]].
  pose proof (decompress_compress _ (x_compress_buf_size g') _ _ Hc ltac:(lia)) as Hd.
  split_and!; [by eapply compress_nonempty|by right|lia|done].
Qed.
End ServiceSend.

(** C18. What [potr_service_send] accepts arrives as it was given: when the call
    succeeds in queueing, it queues for exactly the destinations asked for: the
    peer named, which is connected; for [POTR_PEER_ALL] the peer of every slot
    that holds a connected peer, in the order of the slots; or the single
    partner ([asked_for]).  For each of them the elements queued, in order, make
    a receiver call back once, with exactly the bytes of the call, whether or
    not they were compressed on the way. *)
Theorem service_send_carries `{CplatByteorder} `{Platform} `{!PlatformLaws}
    x t peer data flags css w es g' :
  ctx_ok x -> x_callback g' = true ->
  max_message_size (x_global (x_cfg x)) <= max_message_size (x_global g') ->
  max_message_size (x_global (x_cfg x)) <= Z.of_nat (x_compress_buf_size g') ->
  potr_service_send peer data flags (World x t) = Some (inr css, w, es) ->
  w_ctx w = x /\ es = [] /\
  exists ids, asked_for x peer ids /\ Forall2 (fun id calls => carries_message g' id data calls) ids css.
Proof.
  intros Hx Hcb Hmax Hcmp. unfold potr_service_send. rewrite get_ctx_bind. cbv zeta. cbn [w_ctx].
  set (g := x_cfg x) in *. pose proof (xo_cfg _ Hx) as Hg. fold g in Hg.
  destruct (_ || _) eqn:Harg; [done|]. apply orb_false_iff in Harg as [Hne%Nat.eqb_neq Hle%Z.ltb_ge].
  destruct (close_requested _); [done|]. destruct (is_tcp_type _ && _); [done|].
  destruct (type_eqb _ _ && _); [done|].
  set (fl := if is_raw_type _ then _ else _).
  destruct (if fl has POTR_SEND_COMPRESS then _ else _) as [[body base]|] eqn:Hbody; [|done].
  destruct (send_body_ok g' fl _ data body base Hbody) as (Hb1 & Hb2 & Hb3 & Hb4); [intros ->; done|lia|lia|].
  clear Hbody. clearbody fl. clear Hne Hle.
  assert (forall id calls, send_to_peer g id body fl base = Some calls -> carries_message g' id data calls)
    as Hcar by (intros id calls; by eapply send_to_peer_carries).
  assert (forall id, (calls ← lift (send_to_peer g id body fl base); mret (@inr Z _ [calls]) : M _) (World x t)
    = Some (inr css, w, es) -> w_ctx w = x /\ es = [] /\
      Forall2 (fun id calls => carries_message g' id data calls) [id] css) as Hone.
  { intros id. destruct (send_to_peer g id body fl base) as [calls|] eqn:Hs; [|done].
    rewrite (lift_bind _ _ _ _ eq_refl). intros [= <- <- <-]. split; [done|]. split; [done|].
    constructor; [by apply Hcar|constructor]. }
  unfold asked_for. fold g. destruct (x_is_multi_peer g);
    [|intros Hr; destruct (Hone _ Hr) as (? & ? & ?); split_and!; [done..|by eexists]]. cbn [negb].
  destruct (_ =? POTR_PEER_NA); [done|]. destruct (peer =? POTR_PEER_ALL) eqn:Hall.
  - rewrite tick_bind. cbn [w_ctx w_tick]. destruct (alloc_ok t); [|done]. cbn [negb].
    destruct (x_peers x) as [ps|] eqn:Hps; [|done]. rewrite (lift_bind _ _ _ _ eq_refl).
    destruct (alive_ids_slots ps) as (slots & Hslots).
    destruct (alive_ids ps) as [|id ids] eqn:Hids; [done|]. rewrite <- Hids in *.
    destruct (mapM _ (alive_ids ps)) as [cs|] eqn:Hm; [|done]. rewrite (lift_bind _ _ _ _ eq_refl).
    intros [= <- <- <-]. split; [done|]. split; [done|]. exists (alive_ids ps). split.
    + split; [by rewrite Hids|]. exists slots. unfold connected_in, find_peer. rewrite Hps. exact Hslots.
    + apply mapM_Some in Hm. revert Hm. apply Forall2_impl. intros a b. apply Hcar.
  - unfold potr_internal_peer_find_by_id. rewrite bind_assoc, get_ctx_bind, bind_assoc. cbn [w_ctx].
    destruct (x_peers x) as [ps|] eqn:Hps; [|done]. rewrite (lift_bind _ _ _ _ eq_refl), ret_bind.
    destruct (find_index _ ps) as [i|] eqn:Hf; [|done].
    apply find_index_Some in Hf as (p & Hp & [Hact Hid%Z.eqb_eq]%andb_true_iff).
    rewrite (bind_run_nil _ _ _ _ _ (get_peer_run i p (World x t) ps Hps Hp)).
    destruct (negb _) eqn:Hal; [done|]. apply negb_false_iff in Hal. intros Hr.
    destruct (Hone _ Hr) as (? & ? & ?). split; [done|]. split; [done|]. exists [peer].
    split; [|done]. split; [done|]. exists i, p. unfold find_peer. rewrite Hps. by split_and!.
Qed.

(** The example context with its first peer connected. *)
Definition one_connected : potr_context :=
  with_conn (example_ctx POTR_TYPE_UNICAST_BIDIR_N1 true) (SlotPeer 0)
    (set_health example_conn (HealthState true [true; false; false; false] [1; 0; 0; 0] [1; 0; 0; 0] (Timespec 1 0)
      (replicate 4 (Timespec 1 0)))).

Lemma one_connected_ok `{CplatByteorder} : ctx_ok one_connected.
Proof.
  apply (with_conn_ok _ _ _ example_conn); [apply example_ctx_ok|reflexivity|].
  pose proof (example_conn_ok POTR_TYPE_UNICAST_BIDIR_N1 true) as Hc. conn_solve.
Qed.

Lemma service_send_carries_witness :
  exists calls, @potr_service_send toy_platform POTR_PEER_ALL (replicate 90 3) POTR_SEND_COMPRESS
      (World one_connected 0) = Some (inr [calls], World one_connected 1, []) /\
    @carries_message toy_platform (example_config POTR_TYPE_UNICAST true) 1 (replicate 90 3) calls.
Proof.
  destruct (@service_send_carries little_host toy_platform toy_laws one_connected 0
    POTR_PEER_ALL (replicate 90 3) POTR_SEND_COMPRESS
    (match @potr_service_send toy_platform POTR_PEER_ALL (replicate 90 3) POTR_SEND_COMPRESS
       (World one_connected 0) with
     | Some (inr css, _, _) => css | _ => [] end)
    (World one_connected 1) [] (example_config POTR_TYPE_UNICAST true))
    as (_ & _ & ids & (Hne & slots & _ & Hconn & _) & Hall);
    [apply (@one_connected_ok little_host) | reflexivity | cbn; lia | cbn; lia | vm_compute; reflexivity |].
  destruct ids as [|id ids]; [done|]. apply Forall2_cons_inv_r in Hconn as (i & sl & (p & Hp & Ha & _ & Hid) & _ & _).
  assert (p_peer_id p = 1) as Hone.
  { destruct i as [|[|i]]; [..|by destruct i]; injection Hp as <-; [reflexivity|discriminate]. }
  apply Forall2_cons_inv_l in Hall as (calls & css & Hc & Hrest & Heq). rewrite <- Hid, Hone in Hc.
  exists calls. split; [|exact Hc]. vm_compute in Heq. injection Heq as <- <-. vm_compute. reflexivity.
Defined.

(** ** Packing *)

Section Packing.
Context `{CplatByteorder} (g : service_config).
Hypothesis Hg : cfg_ok g.

Let mp : nat := Z.to_nat (max_payload_cfg (x_global g)).

(** A message as [send_to_peer] queues it. *)
Definition msg_ok (m : sq_msg) : Prop :=
  let '(_, flags, bs) := m in
  0 <= flags < 65536 /\ (0 < length bs <= Z.to_nat (max_chunk g))%nat /\ Forall is_byte bs.

Definition msg_elem (m : sq_msg) : Z * list Z := (m.1.2, m.2).
Definition packed_of (ms : list sq_msg) : list Z := concat (map elem_bytes (map msg_elem ms)).
Definition pack_cap : nat := Z.to_nat (max_payload_cfg (x_global g) - crypto_tag_overhead g).

Lemma packed_of_app a b : packed_of (a ++ b) = packed_of a ++ packed_of b.
Proof. unfold packed_of. by rewrite !map_app, concat_app. Qed.

Lemma pack_cap_le : (pack_cap <= mp)%nat.
Proof. unfold pack_cap, mp, crypto_tag_overhead. destruct (encrypt_enabled _); lia. Qed.

Lemma chunk_fits n :
  (n <= Z.to_nat (max_chunk g))%nat -> (POTR_PAYLOAD_ELEM_HDR_SIZE + n <= pack_cap)%nat.
Proof.
  pose proof (max_chunk_pos g Hg) as Hc. unfold max_chunk, pack_cap, crypto_tag_overhead in *.
  destruct (encrypt_enabled _); lia.
Qed.

Lemma append_elem_spec packed flags bs :
  0 <= flags < 65536 -> (length packed + POTR_PAYLOAD_ELEM_HDR_SIZE + length bs <= pack_cap)%nat ->
  append_payload_elem g packed flags bs = Some (packed ++ elem_bytes (flags, bs)).
Proof.
  intros Hf Hl. pose proof pack_cap_le as Hcap. pose proof (co_payload _ Hg) as Hmp.
  unfold POTR_MAX_PAYLOAD, mp in *. unfold append_payload_elem.
  rewrite mem_of_hton16, mem_of_hton32 by lia.
  change (be_encode 2 flags ++ be_encode 4 (Z.of_nat (length bs)) ++ bs) with (elem_bytes (flags, bs)).
  destruct (Nat.ltb_spec (Z.to_nat (max_payload_cfg (x_global g)))
    (length (packed ++ elem_bytes (flags, bs)))) as [Hlt|]; [|done].
  rewrite length_app, length_elem_bytes in Hlt. cbn [snd] in Hlt. lia.
Qed.

Lemma push_arrivals_spec ms q held sent queued :
  sq_repr mp q held sent queued -> Forall msg_ok ms ->
  exists q' more, push_arrivals q ms = Some q' /\ sq_repr mp q' held sent (queued ++ more) /\
    Forall msg_ok more.
Proof.
  revert q queued. induction ms as [|[[peer f] bs] ms IH]; intros q queued Hr Hms.
  - exists q, []. rewrite app_nil_r. done.
  - apply Forall_cons_1 in Hms as [Hm Hms]. cbn [push_arrivals]. unfold potr_internal_send_queue_push.
    destruct (sq_full q) eqn:Hfull.
    + cbn [mbind option_bind]. by apply IH.
    + destruct Hm as (Hfl & Hl & Hby). pose proof (chunk_fits _ (proj2 Hl)) as Hfit.
      pose proof pack_cap_le as Hcap.
      destruct (sq_store_spec mp q held sent queued peer f bs Hr Hfull) as (q1 & Hst & _ & _ & _ & Hr1); [lia|].
      rewrite Hst. cbn [mbind option_bind].
      destruct (IH q1 _ Hr1 Hms) as (q' & more & Hrun & Hr' & Hmo).
      exists q', ((peer, f, bs) :: more). rewrite <- app_assoc in Hr'. split; [done|]. split; [done|].
      by constructor.
Qed.

Lemma elem_read_fields q e peer f bs :
  elem_read q e = Some (peer, f, bs) ->
  pe_peer_id e = peer /\ pe_flags e = f /\ Z.to_nat (pe_payload_len e) = length bs.
Proof.
  unfold elem_read. destruct (sq_payload_pool q); [|done]. cbn [mbind option_bind].
  destruct (mem_read _ _ _) as [x|] eqn:Hm; [|done]. intros [= <- <- <-].
  by rewrite (mem_read_length _ _ _ _ Hm).
Qed.

(** What may be taken together: not a continued message, and for the peer. *)
Definition joins (target : option Z) (m : sq_msg) : Prop :=
  m.1.2 has POTR_FLAG_MORE_FRAG = false /\
  match target with Some id => m.1.1 = id | None => True end.

Lemma pack_loop_spec target arrivals q n held sent queued :
  sq_repr mp q held sent queued -> Forall msg_ok queued -> Forall (Forall msg_ok) arrivals ->
  (length (packed_of sent) <= pack_cap)%nat ->
  exists taken more queued' held' q',
    pack_loop g target arrivals q (packed_of sent) n
    = Some (packed_of (sent ++ taken), (n + length taken)%nat, q') /\
    sq_repr mp q' held' (sent ++ taken) queued' /\ queued ++ more = taken ++ queued' /\
    Forall msg_ok (taken ++ queued') /\ Forall (joins target) taken /\
    (length (packed_of (sent ++ taken)) <= pack_cap)%nat.
Proof.
  revert q n held sent queued. induction arrivals as [|ms arrivals IH];
    intros q n held sent queued Hr Hq Ha Hlen.
  { exists [], [], queued, held, q. cbn [pack_loop app length]. rewrite !app_nil_r, Nat.add_0_r. done. }
  apply Forall_cons_1 in Ha as [Hms Ha]. cbn [pack_loop].
  destruct (push_arrivals_spec ms q held sent queued Hr Hms) as (q1 & more & Hp & Hr1 & Hmo).
  rewrite Hp. cbn [mbind option_bind].
  assert (Forall msg_ok (queued ++ more)) as Hq1 by by apply Forall_app.
  assert (exists taken more0 queued' held' q', Some (packed_of sent, n, q1)
    = Some (packed_of (sent ++ taken), (n + length taken)%nat, q') /\
    sq_repr mp q' held' (sent ++ taken) queued' /\ queued ++ more0 = taken ++ queued' /\
    Forall msg_ok (taken ++ queued') /\ Forall (joins target) taken /\
    (length (packed_of (sent ++ taken)) <= pack_cap)%nat) as Hstop.
  { exists [], more, (queued ++ more), held, q1. cbn [app length]. rewrite !app_nil_r, Nat.add_0_r. done. }
  unfold potr_internal_send_queue_peek. pose proof Hr1 as [_ _ _ _ _ _ _ Hcount].
  destruct (Nat.eqb_spec (sq_count q1) 0) as [Hz|Hz]; [exact Hstop|].
  destruct (queued ++ more) as [|m rest] eqn:Hqm; [cbn in Hcount; lia|].
  destruct (sq_take_spec mp q1 held sent m rest Hr1) as (q2 & e & Htake & Hrd & Hfr & _ & _ & _ & Hr2).
  rewrite Hfr. cbn [mbind option_bind].
  destruct (negb (can_join g target (packed_of sent) e)) eqn:Hcj; [exact Hstop|].
  apply negb_false_iff in Hcj. unfold can_join in Hcj. rewrite !andb_true_iff in Hcj.
  destruct Hcj as [[Htg Hmf%negb_true_iff] Hfit%Z.leb_le].
  unfold potr_internal_send_queue_try_pop. rewrite (proj2 (Nat.eqb_neq _ _) Hz), Htake.
  cbn [mbind option_bind]. destruct m as [[peer f] bs]. unfold append_entry. rewrite Hrd.
  cbn [mbind option_bind]. destruct (elem_read_fields _ _ _ _ _ Hrd) as (Hpe & Hfe & Hle).
  apply Forall_cons_1 in Hq1 as [Hm Hrest]. pose proof Hm as (Hfl & Hl & _).
  assert (length (packed_of sent) + POTR_PAYLOAD_ELEM_HDR_SIZE + length bs <= pack_cap)%nat as Hfit'.
  { unfold pack_cap. lia. }
  rewrite (append_elem_spec _ _ _ Hfl Hfit'). cbn [mbind option_bind].
  assert (packed_of (sent ++ @cons sq_msg (peer, f, bs) []) = packed_of sent ++ elem_bytes (f, bs)) as Hpk.
  { rewrite packed_of_app. unfold packed_of at 2. cbn [map concat msg_elem fst snd]. by rewrite app_nil_r. }
  rewrite <- Hpk.
  destruct (IH q2 (n + 1)%nat _ _ _ Hr2 Hrest Ha) as (taken & more2 & queued' & held' & q' & Hrun & Hr' & Heq & Hok & Hj & Hl').
  { rewrite Hpk, length_app, length_elem_bytes. cbn [snd]. lia. }
  exists ((peer, f, bs) :: taken), (more ++ more2), queued', held', q'.
  rewrite <- app_assoc in Hrun, Hr', Hl'. cbn [app] in Hrun, Hr', Hl'.
  split; [rewrite Hrun; do 3 f_equal; cbn [length]; lia|]. split; [done|].
  split; [rewrite app_assoc, Hqm; cbn [app]; by rewrite Heq|].
  split; [by constructor|]. split; [|done]. constructor; [|done]. split; cbn [fst snd].
  - by rewrite <- Hfe.
  - destruct target; [|done]. rewrite <- Hpe. by apply Z.eqb_eq.
Qed.
End Packing.
