(* ===== verification/SendTurn.v ===== *)
(** What the send thread puts on the wire: the numbering and sealing of
    [flush_packed] and [flush_packed_peer], and whole turns of
    [send_thread_func] against the queue. *)

From stdpp Require Import base list numbers option.
From Stdlib Require Import ZArith Lia ZifyBool.
From S2P Require Import Prelude Types Packet Window SendQueue Context PathEvent Validate.
From S2P Require Import PeerTable RecvSlot Session Fin RecvWindow HealthThread Send.
Local Open Scope Z_scope.
Local Open Scope porter_scope.

(** ** Data packets *)

Section DataWire.
Context `{CplatByteorder} `{Platform} `{!PlatformLaws}.

(** The reference for the bytes of a data packet: the header of a DATA packet,
    then the payload, sealed on an encrypted service. *)
Definition data_image (g : service_config) (h : session_hdr) (seq : Z) (packed : list Z)
    : option (list Z) :=
  if encrypt_enabled (x_service g) then
    let p := sealed_pkt h seq 0 POTR_FLAG_DATA (length packed) tt in
    ct ← cplat_crypto_encrypt (x_crypto_buf_size g) (encrypt_key (x_service g))
           (make_nonce (pkt_session_id p) (pkt_flags p) (cplat_hton32 seq))
           (packet_header_bytes p) packed;
    Some (packet_header_bytes p ++ ct)
  else
    Some (packet_header_bytes (built h seq 0 POTR_FLAG_DATA (Z.of_nat (length packed)) tt) ++ packed).

(** What the receiver makes of it. *)
Definition data_packet (h : session_hdr) (seq : Z) (packed : list Z) : packet :=
  Packet (hdr_service_id h) (hdr_session_tv_sec h) (hdr_session_id h) (hdr_session_tv_nsec h)
    seq 0 POTR_FLAG_DATA (Z.of_nat (length packed)) POTR_PROTOCOL_VERSION (Some packed).

(** Two ends of one service: same keys, and the receiver takes packets as
    long as the sender's. *)
Record same_service (g g' : service_config) : Prop := {
  same_id : service_id (x_service g') = service_id (x_service g);
  same_enc : encrypt_enabled (x_service g') = encrypt_enabled (x_service g);
  same_key : encrypt_key (x_service g') = encrypt_key (x_service g);
  same_len : max_payload_cfg (x_global g) <= max_payload_cfg (x_global g')
}.

Lemma data_image_accepted g g' h seq packed wire prev :
  cfg_ok g -> cfg_ok g' -> same_service g g' -> session_hdr_ranges h -> 0 <= seq < 4294967296 ->
  (length packed <= pack_cap g)%nat -> data_image g h seq packed = Some wire ->
  (length wire <= POTR_PACKET_HEADER_SIZE + Z.to_nat (max_payload_cfg (x_global g)))%nat /\
  exists q, potr_internal_packet_parse (Some prev) (Some wire) (length wire) = Some (POTR_OK, Some q) /\
    pkt_service_id q = hdr_service_id h /\
    thread_recv_authenticate_packet g' q wire = Some (POTR_OK, data_packet h seq packed).
Proof.
  intros Hg Hg' [Hid Hen Hkey Hmp] Hh Hseq Hlen. pose proof (co_payload _ Hg) as Hm.
  unfold POTR_MAX_PAYLOAD in Hm. unfold pack_cap, crypto_tag_overhead, POTR_CRYPTO_TAG_SIZE in Hlen.
  unfold data_image. destruct (encrypt_enabled (x_service g)) eqn:Henc.
  - cbv zeta. destruct (cplat_crypto_encrypt _ _ _ _ _) as [ct|] eqn:Hct; [|done].
    intros [= <-]. destruct (encrypt_length _ _ _ _ _ _ Hct) as [Hctl _].
    unfold POTR_CRYPTO_TAG_SIZE in Hctl.
    split; [rewrite length_app, length_packet_header_bytes; lia|]. rewrite <- Hkey in Hct.
    destruct (open_sealed g' h seq 0 POTR_FLAG_DATA packed ct (x_crypto_buf_size g) prev)
      as (q & Hq & Ha); [done..|lia|apply list_elem_of_In; simpl; tauto|by left| |exact Hct|].
    { unfold POTR_CRYPTO_TAG_SIZE. lia. }
    exists q. split; [exact Hq|]. split; [|exact Ha].
    unfold sealed_pkt, POTR_CRYPTO_TAG_SIZE in Hq. rewrite <- Hctl in Hq.
    rewrite length_app, length_packet_header_bytes, parse_built in Hq;
      [by injection Hq as <-|done..|lia| |unfold POTR_MAX_PAYLOAD; lia].
    by apply (plain_flags_facts POTR_FLAG_DATA), list_elem_of_In; left.
  - intros [= <-]. split; [rewrite length_app, length_packet_header_bytes; lia|].
    rewrite length_app, length_packet_header_bytes.
    rewrite parse_built; [|done..|lia|unfold POTR_FLAG_DATA; lia|unfold POTR_MAX_PAYLOAD; lia].
    eexists. split; [done|]. split; [done|]. unfold thread_recv_authenticate_packet.
    by rewrite Hen.
Qed.

(** The packet of [flush_build] before it is put into the window. *)
Lemma seal_packed_spec g h seq packed :
  cfg_ok g -> (length packed <= pack_cap g)%nat ->
  match seal_packed g (built h seq 0 POTR_FLAG_DATA (Z.of_nat (length packed)) (Some packed)) packed,
        data_image g h seq packed with
  | Some p, Some wire => data_wire g p packed = Some wire /\
      storable nbo_len (max_payload_cfg (x_global g)) p
  | None, None => True
  | _, _ => False
  end.
Proof.
  intros Hg Hlen. pose proof (co_payload _ Hg) as Hm. unfold POTR_MAX_PAYLOAD in Hm.
  unfold pack_cap, crypto_tag_overhead, POTR_CRYPTO_TAG_SIZE in Hlen.
  unfold seal_packed, data_image, data_wire. destruct (encrypt_enabled (x_service g)) eqn:Henc.
  - cbv zeta. rewrite mark_encrypted_built;
      [|apply list_elem_of_In; by left|unfold POTR_CRYPTO_TAG_SIZE; lia].
    change (packet_header_bytes (built h seq 0 (Z.lor POTR_FLAG_DATA POTR_FLAG_ENCRYPTED)
      (Z.of_nat (length packed + POTR_CRYPTO_TAG_SIZE)) (Some packed)))
      with (packet_header_bytes (sealed_pkt h seq 0 POTR_FLAG_DATA (length packed) tt)).
    cbn [sealed_pkt built set_body fill_session_hdr pkt_session_id pkt_flags pkt_seq_num].
    destruct (cplat_crypto_encrypt _ _ _ _ _) as [ct|] eqn:Hct; [|done].
    cbn [mbind option_bind]. destruct (encrypt_length _ _ _ _ _ _ Hct) as [Hctl _].
    unfold POTR_CRYPTO_TAG_SIZE in *. cbn [with_payload pkt_payload default from_option id].
    rewrite (proj2 (Nat.ltb_ge _ _)) by lia. split; [done|].
    unfold storable, nbo_len. cbn [with_payload pkt_payload pkt_payload_len set_body built sealed_pkt].
    rewrite ntoh16_hton16 by lia. lia.
  - rewrite (proj2 (Nat.ltb_ge _ _)) by lia. split; [done|].
    unfold storable, nbo_len. cbn [built pkt_payload pkt_payload_len set_body].
    rewrite ntoh16_hton16 by lia. lia.
Qed.

Lemma send_window_next_range g w : send_window_ok g w -> 0 <= win_next_seq w < 4294967296.
Proof.
  intros [_ Hw]. destruct (is_tcp_type _).
  - destruct Hw as [slots (ps & vs & pool & Hs & _)]. by apply (ws_next _ _ _ _ Hs).
  - destruct Hw as [pkts (_ & _ & ps & vs & pool & Hs & _)]. by apply (ws_next _ _ _ _ Hs).
Qed.

(** The numbering: the packet gets the next number, and on UDP the window
    keeps it. *)
Lemma flush_build_run s packed x t c :
  ctx_ok x -> slot_conn x s = Some c -> (0 < length packed <= pack_cap (x_cfg x))%nat ->
  match data_image (x_cfg x) (own_session_hdr (x_cfg x) (c_session c))
          (win_next_seq (c_send_window c)) packed with
  | None => flush_build s packed (World x t) = Some (None, World x t, [])
  | Some wire => exists w', flush_build s packed (World x t)
      = Some (Some wire, World (with_conn x s (set_send_has_data (set_send_window c w') true)) t, []) /\
      send_window_ok (x_cfg x) w' /\ win_next_seq w' = win_next_seq (c_send_window c) ⊕ 1
  end.
Proof.
  intros Hx Hs [Hpos Hlen]. set (g := x_cfg x) in *. set (h := own_session_hdr g (c_session c)).
  set (n := win_next_seq (c_send_window c)). pose proof (xo_cfg _ Hx) as Hg. fold g in Hg.
  pose proof (slot_conn_ok _ _ _ Hx Hs) as Hc. fold g in Hc.
  pose proof (co_payload _ Hg) as Hm. pose proof (pack_cap_le g) as Hcap.
  pose proof (seal_packed_spec g h n packed Hg Hlen) as Hseal.
  assert (flush_build s packed (World x t)
    = match seal_packed g (built h n 0 POTR_FLAG_DATA (Z.of_nat (length packed)) (Some packed)) packed with
      | None => mret None
      | Some p =>
          w ← (if is_tcp_type (service_type (x_service g))
               then mret (set_win_next_seq (c_send_window c) (win_next_seq (c_send_window c) ⊕ 1))
               else '(_, w) ← lift (window_send_push (c_send_window c) p); mret w);
          put_conn s (set_send_has_data (set_send_window c w) true);;
          wire ← lift (data_wire g p packed);
          mret (Some wire)
      end (World x t)) as ->.
  { unfold flush_build. rewrite get_cfg_bind, (get_conn_bind _ _ _ _ _ Hs). cbn [w_ctx].
    fold g h n. by rewrite build_packed_built by lia. }
  destruct (seal_packed _ _ _) as [p|], (data_image g h n packed) as [wire|]; try done.
  destruct Hseal as [Hwire Hst]. pose proof (ok_send _ _ Hc) as [[Hd1 Hd2] Hw].
  destruct (is_tcp_type _) eqn:Ht.
  - destruct Hw as [slots Hr]. exists (set_win_next_seq (c_send_window c) (n ⊕ 1)).
    rewrite (bind_run_nil _ _ _ _ _ eq_refl), (put_conn_bind _ _ _ _ _ _ Hs).
    rewrite (lift_bind _ _ _ _ Hwire). split; [done|]. split; [|done].
    split; [done|]. rewrite Ht. exists slots. apply repr_set_next; [done|apply u32_range].
  - destruct Hw as [pkts Hr].
    destruct (send_push_spec (c_send_window c) pkts p Hr) as (w' & Hp & Hws & Hmp & Hn & Hr');
      [by rewrite Hd2|].
    exists w'. rewrite bind_assoc, (lift_bind _ _ _ _ Hp). cbn beta iota.
    rewrite (bind_run_nil _ _ _ _ _ eq_refl), (put_conn_bind _ _ _ _ _ _ Hs).
    rewrite (lift_bind _ _ _ _ Hwire). split; [done|]. split; [|done].
    split; [split; congruence|]. rewrite Ht. by eexists.
Qed.
End DataWire.

(** ** Turns of the send thread *)

Section Turns.
Context `{CplatByteorder} `{Platform} `{!PlatformLaws}.

(** A packet as one datagram on each of [n] paths from [k] on. *)
Definition datagrams (k n : nat) (dests : list endpoint) (wire : list Z) : list effect :=
  map (fun j => EvSendto j wire (default endpoint_clear (dests !! j))) (seq k n).

Lemma ping_sends_run x wire n : forall k dests b t,
  ctx_ok x -> (k + n <= POTR_MAX_PATH)%nat -> length dests = POTR_MAX_PATH ->
  exists b' t', ping_sends k n dests wire b (World x t) = Some (b', World x t', datagrams k n dests wire).
Proof.
  induction n as [|n IH]; intros k dests b t Hx Hk Hd; [by exists b, t|]. cbn [ping_sends].
  destruct (lookup_lt_is_Some_2 dests k) as [d Hdk]; [lia|].
  destruct (lookup_lt_is_Some_2 (x_sock x) k) as [so Hso]; [rewrite (xo_sock _ Hx); lia|].
  rewrite (lift_bind _ _ _ _ Hdk). unfold sock_valid. rewrite bind_assoc, get_ctx_bind, (lift_bind _ _ _ _ Hso).
  destruct (IH (S k) dests (b || send_ok t) (S t) Hx ltac:(lia) Hd) as (b' & t' & Hr). exists b', t'.
  unfold socket_sendto. rewrite bind_assoc, tick_bind, bind_assoc. cbn [w_ctx w_tick].
  rewrite (bind_run _ _ _ tt (World x (S t)) [EvSendto k wire d]) by done.
  rewrite ret_bind, Hr. unfold datagrams. cbn [seq map]. by rewrite Hdk.
Qed.

Definition is_datagram (e : effect) : bool := match e with EvSendto _ _ _ => true | _ => false end.

(** The datagrams of a trace. *)
Definition sent_datagrams (es : list effect) : list effect := List.filter is_datagram es.

Lemma sent_datagrams_all k n dests wire : sent_datagrams (datagrams k n dests wire) = datagrams k n dests wire.
Proof.
  unfold sent_datagrams, datagrams. revert k. induction n as [|n IH]; intros k; [done|]. cbn [seq map List.filter is_datagram].
  by rewrite IH.
Qed.

(** The datagrams to a peer of an N:1 service: one per path on which it has
    been heard. *)
Definition peer_datagrams (dests : list endpoint) (wire : list Z) : list effect :=
  omap (fun k => match dests !! k with
                 | Some d => if endpoint_is_unset d then None else Some (EvSendto k wire d)
                 | None => None
                 end) (seq 0 POTR_MAX_PATH).

Lemma peer_datagrams_run x wire dests n : forall k t,
  ctx_ok x -> (k + n <= POTR_MAX_PATH)%nat -> length dests = POTR_MAX_PATH ->
  exists t', for_range k n (fun k =>
      d ← lift (dests !! k);
      if endpoint_is_unset d then mret tt
      else _ ← sock_valid k; _ ← socket_sendto k wire d; mret tt) (World x t)
    = Some (tt, World x t', omap (fun k => match dests !! k with
        | Some d => if endpoint_is_unset d then None else Some (EvSendto k wire d)
        | None => None
        end) (seq k n)).
Proof.
  induction n as [|n IH]; intros k t Hx Hk Hd; [by exists t|]. cbn [for_range seq omap list_omap].
  destruct (lookup_lt_is_Some_2 dests k) as [d Hdk]; [lia|]. rewrite Hdk, bind_assoc, (lift_bind (Some d) d _ _ eq_refl).
  destruct (lookup_lt_is_Some_2 (x_sock x) k) as [so Hso]; [rewrite (xo_sock _ Hx); lia|].
  destruct (endpoint_is_unset d).
  - destruct (IH (S k) t Hx ltac:(lia) Hd) as [t' Hr]. exists t'. by rewrite ret_bind.
  - destruct (IH (S k) (S t) Hx ltac:(lia) Hd) as [t' Hr]. exists t'.
    rewrite (bind_run _ _ _ tt (World x (S t)) [EvSendto k wire d]);
      [by rewrite Hr|unfold sock_valid; by rewrite bind_assoc, get_ctx_bind, (lift_bind _ _ _ _ Hso)].
Qed.

(** The open connections of a TCP service that has any. *)
Definition open_conns (x : potr_context) : list nat :=
  if 0 <? tcp_active_paths (x_tcp_link x)
  then List.filter (fun k => default false (x_tcp_conn_fd x !! k)) (seq 0 (x_n_path (x_cfg x))) else [].

Lemma flush_tcp_run x wire t :
  ctx_ok x ->
  exists t' ks, flush_tcp wire (World x t) = Some (tt, World x t', map (fun k => EvTcpSend k wire) ks) /\
    ks `sublist_of` open_conns x /\ ((forall n, writable n = true) -> ks = open_conns x).
Proof.
  intros Hx. unfold flush_tcp, open_conns. rewrite get_ctx_bind. cbn [w_ctx].
  destruct (0 <? tcp_active_paths (x_tcp_link x)); [|by exists t, []]. unfold when.
  pose proof (co_n_path _ (xo_cfg _ Hx)) as Hn.
  cut (forall n k t, (k + n <= POTR_MAX_PATH)%nat -> exists t' ks, for_range k n (fun k =>
       fd ← lift (x_tcp_conn_fd x !! k);
       if negb fd then mret tt
       else ok ← tick writable; if ok : bool then (_ ← tcp_send_all_locked k wire; mret tt) else mret tt) (World x t)
    = Some (tt, World x t', map (fun k => EvTcpSend k wire) ks) /\
    ks `sublist_of` List.filter (fun k => default false (x_tcp_conn_fd x !! k)) (seq k n) /\
    ((forall n, writable n = true) -> ks = List.filter (fun k => default false (x_tcp_conn_fd x !! k)) (seq k n)));
    [intros Hall; apply Hall; lia|].
  clear t. induction n as [|n IH]; intros k t Hk; [by exists t, []|]. cbn [for_range seq List.filter].
  destruct (lookup_lt_is_Some_2 (x_tcp_conn_fd x) k) as [fd Hfd]; [rewrite (xo_fd _ Hx); lia|].
  rewrite Hfd, bind_assoc, (lift_bind (Some fd) fd _ _ eq_refl). cbn [default from_option id]. destruct fd; cbn [negb].
  - rewrite bind_assoc, tick_bind. cbn [w_ctx w_tick]. destruct (writable t) eqn:Hwr.
    + destruct (IH (S k) (S (S t)) ltac:(lia)) as (t' & ks & Hr & Hs & He). exists t', (k :: ks).
      rewrite (bind_run _ _ _ tt (World x (S (S t))) [EvTcpSend k wire]) by done. rewrite Hr.
      split; [done|]. split; [by constructor|]. intros Hall. by rewrite <- He.
    + destruct (IH (S k) (S t) ltac:(lia)) as (t' & ks & Hr & Hs & He). exists t', ks. rewrite ret_bind.
      split; [done|]. split; [by constructor|]. intros Hall. by rewrite Hall in Hwr.
  - rewrite ret_bind. by apply IH; lia.
Qed.

(** A packet [wire] of the slot [s] goes out with the effects [es]: to the peer
    of the slot on every path it has been heard on; on every open connection of
    a TCP service whose buffer has room; else to the destination of every
    path.  The only other effect is the wake-up of the health thread. *)
Definition goes_out (x : potr_context) (s : slot) (c : conn) (wire : list Z) (es : list effect) : Prop :=
  exists sent wakes, es = sent ++ wakes /\ (wakes = [] \/ wakes = [EvHealthWake 0]) /\
  match s with
  | SlotPeer _ => sent = peer_datagrams (c_dest_addr c) wire
  | SlotCtx =>
      if is_tcp_type (service_type (x_service (x_cfg x))) then
        exists ks, sent = map (fun k => EvTcpSend k wire) ks /\ ks `sublist_of` open_conns x /\
          ((forall n, writable n = true) -> ks = open_conns x)
      else sent = datagrams 0 (x_n_path (x_cfg x)) (c_dest_addr c) wire
  end.

(** The payload [packed] left through the slot [s]: as one data packet under
    the next number, whose wire image goes out, the number used up; or nothing
    happened, when it could not be sealed. *)
Definition sent_as (x : potr_context) (s : slot) (c : conn) (packed : list Z)
    (x' : potr_context) (es : list effect) : Prop :=
  ctx_ok x' /\ x_cfg x' = x_cfg x /\
  match data_image (x_cfg x) (own_session_hdr (x_cfg x) (c_session c))
          (win_next_seq (c_send_window c)) packed with
  | None => es = [] /\ x' = x
  | Some wire => goes_out x s c wire es /\
      exists c', slot_conn x' s = Some c' /\ c_session c' = c_session c /\ c_send_has_data c' = true /\
        win_next_seq (c_send_window c') = win_next_seq (c_send_window c) ⊕ 1
  end.

Definition flushed (x : potr_context) (s : slot) (c : conn) (packed : list Z) (m : M unit) : Prop :=
  forall t, exists x' t' es, m (World x t) = Some (tt, World x' t', es) /\
    sent_as x s c packed x' es.

Lemma flushed_ok x s c w' :
  ctx_ok x -> slot_conn x s = Some c -> send_window_ok (x_cfg x) w' ->
  ctx_ok (with_conn x s (set_send_has_data (set_send_window c w') true)).
Proof.
  intros Hx Hs Hw. apply (with_conn_ok _ _ _ c); [done..|].
  pose proof (slot_conn_ok _ _ _ Hx Hs) as Hc. conn_solve.
Qed.

Lemma flush_packed_peer_spec x i c packed :
  ctx_ok x -> slot_conn x (SlotPeer i) = Some c -> (0 < length packed <= pack_cap (x_cfg x))%nat ->
  flushed x (SlotPeer i) c packed (flush_packed_peer i packed).
Proof.
  intros Hx Hs Hl t. unfold flush_packed_peer, sent_as.
  pose proof (flush_build_run _ _ _ t c Hx Hs Hl) as Hrun.
  destruct (data_image _ _ _ _) as [wire|].
  - destruct Hrun as (w' & Hrun & Hw & Hn). rewrite (bind_run_nil _ _ _ _ _ Hrun).
    pose proof (flushed_ok _ _ _ _ Hx Hs Hw) as Hx1. set (x1 := with_conn x _ _) in *.
    assert (slot_conn x1 (SlotPeer i) = Some (set_send_has_data (set_send_window c w') true)) as Hs1
      by by eapply slot_conn_with.
    rewrite (get_conn_bind _ _ _ _ _ Hs1). cbn [c_dest_addr set_send_has_data set_send_window].
    pose proof (ok_dest _ _ (slot_conn_ok _ _ _ Hx Hs)) as Hd.
    destruct (peer_datagrams_run x1 wire (c_dest_addr c) POTR_MAX_PATH 0 t Hx1 (le_n _) Hd) as [t' Hsend].
    eexists x1, t', _. split; [exact Hsend|]. split; [done|]. split; [apply with_conn_cfg|].
    split; [|by eexists]. eexists _, []. by rewrite app_nil_r; split_and!; [|left|].
  - rewrite (bind_run_nil _ _ _ _ _ Hrun). by exists x, t, [].
Qed.

Lemma flush_packed_spec x packed :
  ctx_ok x -> (0 < length packed <= pack_cap (x_cfg x))%nat ->
  flushed x SlotCtx (x_conn x) packed (flush_packed packed).
Proof.
  intros Hx Hl t. unfold flush_packed, sent_as. rewrite get_cfg_bind. cbn [w_ctx].
  pose proof (flush_build_run SlotCtx _ _ t (x_conn x) Hx eq_refl Hl) as Hrun.
  destruct (data_image _ _ _ _) as [wire|];
    [|rewrite (bind_run_nil _ _ _ _ _ Hrun); by exists x, t, []].
  destruct Hrun as (w' & Hrun & Hw & Hn). rewrite (bind_run_nil _ _ _ _ _ Hrun).
  pose proof (flushed_ok _ SlotCtx _ _ Hx eq_refl Hw) as Hx1. set (x1 := with_conn x _ _) in *.
  assert (forall x2, ctx_ok x2 -> x_cfg x2 = x_cfg x1 -> x_conn x2 = x_conn x1 ->
    ctx_ok x2 /\ x_cfg x2 = x_cfg x /\ exists c', slot_conn x2 SlotCtx = Some c' /\
      c_session c' = c_session (x_conn x) /\ c_send_has_data c' = true /\
      win_next_seq (c_send_window c') = win_next_seq (c_send_window (x_conn x)) ⊕ 1) as Hend.
  { intros x2 Hx2 Hg2 Hc2. split; [done|]. split; [by rewrite Hg2|]. exists (x_conn x1). by cbn; rewrite Hc2. }
  unfold goes_out. destruct (is_tcp_type _).
  - destruct (flush_tcp_run x1 wire t Hx1) as (t' & ks & Hm & Hks). exists x1, t'. eexists. split; [exact Hm|].
    destruct (Hend x1 Hx1 eq_refl eq_refl) as (? & ? & ?). split; [done|]. split; [done|]. split; [|done].
    eexists _, []. rewrite app_nil_r. split; [done|]. split; [by left|]. by exists ks.
  - rewrite (get_conn_bind x1 SlotCtx (x_conn x1) t _ eq_refl).
    destruct (ping_sends_run x1 wire (x_n_path (x_cfg x)) 0 (c_dest_addr (x_conn x1)) false t Hx1)
      as (sent & t' & Hm); [apply (xo_cfg _ Hx)|apply (ok_dest _ _ (xo_conn _ Hx))|].
    rewrite (bind_run _ _ _ _ _ _ Hm). destruct (sent && should_track_valid_data_send_time (x_cfg x)); unfold when.
    + set (x2 := set_x_last_valid_data_send_ms x1 (clock_monotonic_ms t')).
      assert (ctx_ok x2) as Hx2 by by destruct Hx1. destruct (Hend x2 Hx2 eq_refl eq_refl) as (? & ? & ?).
      destruct (lookup_lt_is_Some_2 (x_health_running x2) 0) as [r Hr];
        [rewrite (xo_running _ Hx2); unfold POTR_MAX_PATH; lia|].
      exists x2, (S t'). eexists (_ ++ if r then [EvHealthWake 0] else []). split.
      * rewrite tick_bind, get_ctx_bind. cbn [w_ctx w_tick].
        rewrite put_ctx_bind. cbn [w_tick]. fold x2. unfold potr_internal_health_thread_wake, signal_health_thread.
        cbn [Nat.leb POTR_MAX_PATH]. rewrite get_ctx_bind. cbn [w_ctx]. rewrite (lift_bind _ _ _ _ Hr).
        by destruct r.
      * split; [done|]. split; [done|]. split; [|done]. eexists _, _. split; [done|]. destruct r; auto.
    + destruct (Hend x1 Hx1 eq_refl eq_refl) as (? & ? & ?). exists x1, t'. eexists. split; [done|].
      split; [done|]. split; [done|]. split; [|done]. eexists _, []. split; [done|]. auto.
Qed.

(** Completing everything in flight. *)
Lemma complete_all mp q held sent queued :
  sq_repr mp q held sent queued ->
  exists q', complete_n (length sent) q = Some q' /\ sq_repr mp q' [] [] queued.
Proof.
  revert q held. induction sent as [|m sent IH]; intros q held Hr.
  - pose proof Hr as [_ _ _ _ _ Hh Hs _]. cbn in Hs. destruct held; [|cbn in Hh; lia]. by exists q.
  - destruct (sq_complete_spec mp q held (m :: sent) queued Hr) as (q1 & ns & Hq & _ & _ & _ & _ & Hr1).
    cbn [complete_n length]. rewrite Hq. cbn [mbind option_bind]. apply (IH q1 _ Hr1).
Qed.

Context (g : service_config).
Hypothesis Hg : cfg_ok g.
Let mp : nat := Z.to_nat (max_payload_cfg (x_global g)).

(** Taking the first element and packing behind it. *)
Lemma pack_first target arrivals q m queued first q1 :
  sq_repr mp q [] [] (m :: queued) -> Forall (msg_ok g) (m :: queued) ->
  Forall (Forall (msg_ok g)) arrivals ->
  sq_take q = Some (Returns POTR_OK (Some first), q1, []) -> elem_read q first = Some m ->
  sq_repr mp q1 [first] [m] queued ->
  exists taken more queued' held' q2,
    (packed ← append_entry g q1 [] first;
     if pe_flags first has POTR_FLAG_MORE_FRAG then Some (packed, 1%nat, q1)
     else pack_loop g target arrivals q1 packed 1)
    = Some (packed_of (m :: taken), length (m :: taken), q2) /\
    sq_repr mp q2 held' (m :: taken) queued' /\ queued ++ more = taken ++ queued' /\
    Forall (msg_ok g) (m :: taken ++ queued') /\ Forall (joins target) taken /\
    (0 < length (packed_of (m :: taken)) <= pack_cap g)%nat.
Proof.
  intros Hr Hq Ha Htk Hrd Hr1. apply Forall_cons_1 in Hq as [Hm Hq].
  assert (exists peer f bs, m = (peer, f, bs)) as (peer & f & bs & Em) by (destruct m as [[] ?]; eauto).
  pose proof Hm as Hm'. rewrite Em in Hm'. destruct Hm' as (Hf & Hl & _).
  pose proof (chunk_fits g Hg _ (proj2 Hl)) as Hfit.
  assert (elem_read q1 first = Some m) as Hrd1.
  { destruct Hr1 as [(es & Hes & _ & _ & Hheld & Hmsg)].
    destruct (Hmsg 0%nat m eq_refl) as (e & He & _ & Hre).
    rewrite (Hheld 0%nat first eq_refl) in He. by injection He as <-. }
  assert (packed_of [m] = elem_bytes (f, bs)) as Hpk.
  { rewrite Em. unfold packed_of. cbn [map concat msg_elem fst snd]. by rewrite app_nil_r. }
  assert (append_entry g q1 [] first = Some (packed_of [m])) as ->.
  { unfold append_entry. rewrite Hrd1, Em. cbn [mbind option_bind]. rewrite Em in Hpk.
    rewrite Hpk. apply (append_elem_spec g Hg []); [done|cbn [length]; lia]. }
  cbn [mbind option_bind].
  assert (length (packed_of [m]) = POTR_PAYLOAD_ELEM_HDR_SIZE + length bs)%nat as Hlen
    by (rewrite Hpk; apply length_elem_bytes).
  unfold POTR_PAYLOAD_ELEM_HDR_SIZE in *. destruct (pe_flags first has POTR_FLAG_MORE_FRAG).
  - exists [], [], queued, [first], q1. rewrite app_nil_r. split; [done|]. split; [done|].
    split; [done|]. split; [by constructor|]. split; [done|]. rewrite Hlen. lia.
  - destruct (pack_loop_spec g Hg target arrivals q1 1 [first] [m] queued Hr1 Hq Ha)
      as (taken & more & queued' & held' & q2 & Hrun & Hr2 & Heq & Hok & Hj & Hcap); [lia|].
    exists taken, more, queued', held', q2. split; [exact Hrun|]. split; [done|]. split; [done|].
    split; [by constructor|]. split; [done|]. split; [|done].
    change (m :: taken) with ([m] ++ taken). rewrite packed_of_app, length_app, Hlen. lia.
Qed.

Lemma pop_first q m queued :
  sq_repr mp q [] [] (m :: queued) ->
  exists q1 first, potr_internal_send_queue_pop 1 q = Some (Returns POTR_OK (Some first), q1, []) /\
    sq_take q = Some (Returns POTR_OK (Some first), q1, []) /\ elem_read q first = Some m /\
    sq_repr mp q1 [first] [m] queued.
Proof.
  intros Hr. destruct (sq_take_spec mp q [] [] m queued Hr) as (q1 & e & Htk & Hrd & _ & _ & Hc & _ & Hr1).
  exists q1, e. split; [|done]. unfold potr_internal_send_queue_pop.
  by rewrite (proj2 (Nat.eqb_neq _ _)) by lia.
Qed.
End Turns.

(** C16. The send thread of a 1:1 service drains its queue into packets.  One
    turn takes the first message waiting and, unless it is a continued one,
    messages behind it, in order and never a continued one, as far as they fit
    [max_payload] minus the authentication tag (also messages that arrive
    while it waits); their elements, in order, are the payload of one data
    packet with the next sequence number.  Its wire image goes out exactly once
    per path: on UDP to the destination of every path, on TCP on every open
    connection whose buffer has room ([goes_out]); nothing else is sent, and
    nothing at all when the packet cannot be sealed.  The entries taken are
    released, the others stay queued in order; the context stays well-formed. *)
Theorem send_turn_packs `{CplatByteorder} `{Platform} `{!PlatformLaws} x t q m queued arrivals :
  ctx_ok x -> x_is_multi_peer (x_cfg x) = false ->
  sq_repr (Z.to_nat (max_payload_cfg (x_global (x_cfg x)))) q [] [] (m :: queued) ->
  Forall (msg_ok (x_cfg x)) (m :: queued) -> Forall (Forall (msg_ok (x_cfg x))) arrivals ->
  exists taken more queued' q' x' t' es,
    send_thread_turn q arrivals (World x t) = Some (q', World x' t', es) /\
    queued ++ more = taken ++ queued' /\ Forall (joins None) taken /\
    (length (packed_of (m :: taken)) <= pack_cap (x_cfg x))%nat /\
    sq_repr (Z.to_nat (max_payload_cfg (x_global (x_cfg x)))) q' [] [] queued' /\
    sent_as x SlotCtx (x_conn x) (packed_of (m :: taken)) x' es.
Proof.
  intros Hx Hmulti Hr Hm Ha. set (g := x_cfg x) in *. pose proof (xo_cfg _ Hx) as Hg. fold g in Hg.
  destruct (pop_first g q m queued Hr) as (q1 & first & Hpop & Htk & Hrd & Hr1).
  destruct (pack_first g Hg None arrivals q m queued first q1 Hr Hm Ha Htk Hrd Hr1)
    as (taken & more & queued' & held' & q2 & Hpack & Hr2 & Heq & Hok & Hj & Hpos & Hcap).
  destruct (complete_all _ _ _ _ _ Hr2) as (q3 & Hcomp & Hr3).
  destruct (flush_packed_spec x (packed_of (m :: taken)) Hx (conj Hpos Hcap) t)
    as (x' & t' & es & Hflush & Hsent).
  exists taken, more, queued', q3, x', t', es. split; [|done].
  unfold send_thread_turn. rewrite get_cfg_bind, (lift_bind _ _ _ _ Hpop). cbn [w_ctx].
  fold g. rewrite Hmulti. unfold send_packed_service. rewrite get_cfg_bind. cbn [w_ctx]. fold g.
  destruct (append_entry g q1 [] first) as [packed|]; [|done]. cbn [mbind option_bind] in Hpack.
  rewrite (lift_bind (Some packed) packed _ _ eq_refl), (lift_bind _ _ _ _ Hpack). cbn beta iota.
  rewrite (bind_run _ _ _ _ _ _ Hflush). unfold lift. rewrite Hcomp. by rewrite app_nil_r.
Qed.

(** C17. The send thread of an N:1 service keeps the peers apart: one turn sends
    the first message waiting to the peer it names, together with messages for
    the same peer that follow it, as one data packet numbered by that peer's
    window: one datagram to each address at which that peer has been heard, on
    its path, and none to any other ([peer_datagrams]); a message for a peer
    that is gone is released and nothing is sent. *)
Theorem send_turn_routes `{CplatByteorder} `{Platform} `{!PlatformLaws} x t q m queued arrivals ps :
  ctx_ok x -> x_is_multi_peer (x_cfg x) = true -> x_peers x = Some ps ->
  sq_repr (Z.to_nat (max_payload_cfg (x_global (x_cfg x)))) q [] [] (m :: queued) ->
  Forall (msg_ok (x_cfg x)) (m :: queued) -> Forall (Forall (msg_ok (x_cfg x))) arrivals ->
  exists q' x' t' es, send_thread_turn q arrivals (World x t) = Some (q', World x' t', es) /\
    match find_index (fun p => p_active p && (p_peer_id p =? m.1.1)) ps with
    | None => sq_repr (Z.to_nat (max_payload_cfg (x_global (x_cfg x)))) q' [] [] queued /\
        es = [] /\ x' = x
    | Some i => exists c taken more queued', slot_conn x (SlotPeer i) = Some c /\
        queued ++ more = taken ++ queued' /\ Forall (joins (Some m.1.1)) taken /\
        (length (packed_of (m :: taken)) <= pack_cap (x_cfg x))%nat /\
        sq_repr (Z.to_nat (max_payload_cfg (x_global (x_cfg x)))) q' [] [] queued' /\
        sent_as x (SlotPeer i) c (packed_of (m :: taken)) x' es
    end.
Proof.
  intros Hx Hmulti Hps Hr Hm Ha. set (g := x_cfg x) in *. pose proof (xo_cfg _ Hx) as Hg. fold g in Hg.
  destruct (pop_first g q m queued Hr) as (q1 & first & Hpop & Htk & Hrd & Hr1).
  assert (pe_peer_id first = m.1.1) as Hid.
  { destruct m as [[peer f] bs]. apply (elem_read_fields q first peer f bs Hrd). }
  unfold send_thread_turn. rewrite get_cfg_bind, (lift_bind _ _ _ _ Hpop). cbn [w_ctx].
  fold g. rewrite Hmulti. unfold send_packed_peer_mode. rewrite get_cfg_bind. cbn [w_ctx]. fold g. rewrite Hid.
  unfold potr_internal_peer_find_by_id. rewrite bind_assoc, get_ctx_bind, bind_assoc. cbn [w_ctx].
  rewrite (lift_bind _ _ _ _ Hps), ret_bind.
  destruct (find_index _ ps) as [i|] eqn:Hf.
  - destruct (pack_first g Hg (Some m.1.1) arrivals q m queued first q1 Hr Hm Ha Htk Hrd Hr1)
      as (taken & more & queued' & held' & q2 & Hpack & Hr2 & Heq & Hok & Hj & Hpos & Hcap).
    destruct (complete_all _ _ _ _ _ Hr2) as (q3 & Hcomp & Hr3).
    apply find_index_Some in Hf as (p & Hp & Hb). apply andb_true_iff in Hb as [Hact _].
    assert (slot_conn x (SlotPeer i) = Some (p_conn p)) as Hs.
    { unfold slot_conn, find_peer. rewrite Hps. cbn [mbind option_bind]. rewrite Hp. cbn. by rewrite Hact. }
    destruct (flush_packed_peer_spec x i _ (packed_of (m :: taken)) Hx Hs (conj Hpos Hcap) t)
      as (x' & t' & es & Hflush & Hsent).
    exists q3, x', t', es. split; [|by exists (p_conn p), taken, more, queued'].
    destruct (append_entry g q1 [] first) as [packed|]; [|done]. cbn [mbind option_bind] in Hpack.
    rewrite (lift_bind (Some packed) packed _ _ eq_refl), (lift_bind _ _ _ _ Hpack). cbn beta iota.
    rewrite (bind_run _ _ _ _ _ _ Hflush). unfold lift. rewrite Hcomp. by rewrite app_nil_r.
  - destruct (complete_all _ _ _ _ _ Hr1) as (q3 & Hcomp & Hr3). cbn [length] in Hcomp.
    unfold lift. rewrite Hcomp. by exists q3, x, t, [].
Qed.

Definition example_queued : list sq_msg := [(1, 0, [5; 6]); (1, 0, [7])].

Lemma example_queue_repr n : (8 <= n)%nat -> exists q, sq_repr n q [] [] example_queued.
Proof.
  intros Hn. destruct (sq_init_repr n 4 (Z.of_nat n) _ (eq_sym (Nat2Z.id n)) ltac:(lia) eq_refl) as [Hr Hd].
  assert (forall q s l, sq_repr n q [] s l -> sq_depth q = 4%nat ->
    (length l < 4)%nat -> sq_full q = false) as Hfull.
  { intros q s l [] Hdq Hl. unfold sq_full. apply Nat.leb_gt. cbn in *. lia. }
  destruct (sq_store_spec n _ [] [] [] 1 0 [5; 6] Hr) as (q1 & _ & Hd1 & _ & _ & Hr1);
    [by eapply Hfull; [done|done|cbn; lia]|cbn; lia|].
  destruct (sq_store_spec n _ [] [] _ 1 0 [7] Hr1) as (q2 & _ & _ & _ & _ & Hr2);
    [eapply Hfull; [done|congruence|cbn; lia]|cbn; lia|].
  by exists q2.
Qed.

Lemma example_queued_ok t enc : Forall (msg_ok (example_config t enc)) example_queued.
Proof.
  repeat (apply Forall_cons_2); try apply Forall_nil_2; (split; [lia|]); split;
    first [by apply forallb_is_byte | destruct enc; vm_compute; lia].
Qed.

Lemma send_turn_packs_witness :
  exists q taken more queued' q' x' t' es,
    @send_thread_turn little_host toy_platform q [[]; []] (World (example_ctx POTR_TYPE_UNICAST true) 0)
      = Some (q', World x' t', es) /\
    [(1, 0, [7])] ++ more = taken ++ queued' /\
    @sent_as little_host toy_platform (example_ctx POTR_TYPE_UNICAST true) SlotCtx example_conn
      (packed_of ((1, 0, [5; 6]) :: taken)) x' es.
Proof.
  destruct (example_queue_repr 64) as [q Hq]; [lia|].
  destruct (@send_turn_packs little_host toy_platform toy_laws (example_ctx POTR_TYPE_UNICAST true) 0 q
    (1, 0, [5; 6]) [(1, 0, [7])] [[]; []])
    as (taken & more & queued' & q' & x' & t' & es & Hrun & Heq & _ & _ & _ & Hs);
    [apply example_ctx_ok | reflexivity | exact Hq | apply example_queued_ok
    | by repeat constructor |].
  exists q, taken, more, queued', q', x', t', es. split; [exact Hrun|]. split; [exact Heq|exact Hs].
Defined.

Lemma send_turn_routes_witness :
  exists q q' x' t' es c taken more queued',
    @send_thread_turn little_host toy_platform q [[]; []]
      (World (example_ctx POTR_TYPE_UNICAST_BIDIR_N1 true) 0) = Some (q', World x' t', es) /\
    [(1, 0, [7])] ++ more = taken ++ queued' /\
    @sent_as little_host toy_platform (example_ctx POTR_TYPE_UNICAST_BIDIR_N1 true) (SlotPeer 0) c
      (packed_of ((1, 0, [5; 6]) :: taken)) x' es.
Proof.
  destruct (example_queue_repr 64) as [q Hq]; [lia|].
  destruct (@send_turn_routes little_host toy_platform toy_laws
    (example_ctx POTR_TYPE_UNICAST_BIDIR_N1 true) 0 q
    (1, 0, [5; 6]) [(1, 0, [7])] [[]; []]
    [Peer 1 true example_conn 0 true; Peer 0 false example_conn 0 false])
    as (q' & x' & t' & es & Hrun & c & taken & more & queued' & _ & Heq & _ & _ & _ & Hs);
    [apply example_ctx_ok | reflexivity | reflexivity | exact Hq | apply example_queued_ok
    | by repeat constructor |].
  exists q, q', x', t', es, c, taken, more, queued'. split; [exact Hrun|]. split; [exact Heq|exact Hs].
Defined.
