(* ===== verification/Dispatch.v ===== *)
(** Dispatch of received packets and the receiver's time-outs:
    [thread_recv_dispatch.c] and [thread_recv_health.c]. *)

From stdpp Require Import base list numbers option.
From Stdlib Require Import ZArith Lia ZifyBool.
From S2P Require Import Prelude Types Packet Window Context PathEvent Validate PeerTable.
From S2P Require Import RecvSlot Session Fin RecvWindow HealthThread.
Local Open Scope Z_scope.
Local Open Scope porter_scope.

(** [thread_recv_apply_remote_path_ping_state]: the states the remote end
    knows replace those recorded for it. *)
Fixpoint apply_remote_loop (k count : nat) (dst src : list Z) : option (list Z) :=
  match count with
  | O => Some dst
  | S count =>
      st ← src !! k;
      if st =? POTR_PING_STATE_UNDEFINED then apply_remote_loop (S k) count dst src
      else _ ← dst !! k; apply_remote_loop (S k) count (<[k:=st]> dst) src
  end.

Definition thread_recv_apply_remote_path_ping_state (dst src : list Z) (count : nat)
    : option (list Z) := apply_remote_loop 0 count dst src.

(** The update of [remote_path_ping_state] from the payload of a PING. *)
Definition apply_ping_payload (s : slot) (pkt : packet) : M unit :=
  match pkt_payload pkt with
  | Some _ =>
      if Z.of_nat POTR_MAX_PATH <=? pkt_payload_len pkt then
        c ← get_conn s;
        src ← lift (read_at (pkt_payload pkt) 0 POTR_MAX_PATH);
        l ← lift (thread_recv_apply_remote_path_ping_state (remote_path_ping_state (c_health c)) src
                    POTR_MAX_PATH);
        put_conn s (set_health c (set_remote_ping (c_health c) l))
      else mret tt
  | None => mret tt
  end.

Definition thread_recv_wake_udp_interrupt_ping (state_changed : bool) : M unit :=
  g ← get_cfg;
  when (state_changed && type_eqb (service_type (x_service g)) POTR_TYPE_UNICAST_BIDIR)
    potr_internal_health_thread_wake.

Section Dispatch.
Context `{CplatByteorder} `{Platform}.

Definition dispatch_fin (s : slot) (pkt : packet) : M bool :=
  ok ← (if slot_is_peer s then mret true else thread_recv_session_adopt s pkt);
  if negb ok then mret false
  else
    '(action, fin_target_seq) ← thread_recv_fin_on_packet s pkt;
    match action with
    | THREAD_RECV_FIN_FIRE => thread_recv_fin_fire s fin_target_seq;; mret false
    | _ => mret false
    end.

Definition dispatch_ping (s : slot) (pkt : packet) (path_idx : nat) : M bool :=
  g ← get_cfg;
  ping_state_changed ← thread_recv_update_path_health s path_idx;
  apply_ping_payload s pkt;;
  if is_raw_type (service_type (x_service g)) then
    thread_recv_window_scan_ping_gap s pkt;;
    thread_recv_sync_path_state s;;
    mret false
  else
    when (negb (slot_is_peer s)) (thread_recv_wake_udp_interrupt_ping ping_state_changed);;
    thread_recv_sync_path_state s;;
    thread_recv_window_scan_ping_gap s pkt;;
    mret (slot_is_peer s && ping_state_changed).

(** Must the caller wake the health thread? *)
Definition thread_recv_dispatch_packet (s : slot) (pkt : packet) (path_idx : nat)
    (sender : endpoint) : M bool :=
  if pkt_flags pkt has POTR_FLAG_FIN then dispatch_fin s pkt
  else if pkt_flags pkt has POTR_FLAG_NACK then
    when (slot_is_peer s) (thread_recv_window_on_nack s pkt);; mret false
  else if pkt_flags pkt has POTR_FLAG_REJECT then
    thread_recv_window_on_reject s pkt path_idx sender;; mret false
  else if negb (pkt_flags pkt has Z.lor POTR_FLAG_DATA POTR_FLAG_PING) then mret false
  else
    ok ← thread_recv_session_adopt s pkt;
    if negb ok then mret false
    else
      thread_recv_learn_sender_path s path_idx sender;;
      if pkt_flags pkt has POTR_FLAG_PING then dispatch_ping s pkt path_idx
      else thread_recv_window_accept_outer s pkt path_idx;; mret false.

(** ** Time-outs *)

Definition elapsed (now_ts ts : timespec) (timeout_ms : Z) : bool :=
  timeout_ms <=? cplat_timespec_diff_ms now_ts ts.

(** The loop over the paths of peer [i]; was a path state changed? *)
Fixpoint check_peer_paths (now_ts : timespec) (i k n : nat) (changed : bool) : M bool :=
  match n with
  | O => mret changed
  | S n =>
      g ← get_cfg;
      p ← get_peer i;
      let h := c_health (p_conn p) in
      d ← lift (c_dest_addr (p_conn p) !! k);
      if endpoint_is_unset d then check_peer_paths now_ts i (S k) n changed
      else
        ts ← lift (path_last_recv_ts h !! k);
        if tv_sec ts =? 0 then check_peer_paths now_ts i (S k) n changed
        else if elapsed now_ts ts (x_health_timeout_ms g) then
          '(ch, l) ← lift (thread_recv_set_path_ping_state (path_ping_state h) k
                             POTR_PING_STATE_ABNORMAL);
          put_conn (SlotPeer i) (set_health (p_conn p) (set_ping h l));;
          potr_internal_peer_path_clear i k;;
          check_peer_paths now_ts i (S k) n (changed || ch)
        else check_peer_paths now_ts i (S k) n changed
  end.

(** The body of the loop over the peers; must the health thread be woken? *)
Definition check_peer (now_ts : timespec) (i : nat) : M bool :=
  g ← get_cfg;
  p ← get_peer i;
  if negb (p_active p) || negb (health_alive (c_health (p_conn p))) then mret false
  else
    changed ← check_peer_paths now_ts i 0 POTR_MAX_PATH false;
    when changed (thread_recv_sync_path_state (SlotPeer i));;
    c ← get_conn (SlotPeer i);
    if tv_sec (last_recv_ts (c_health c)) =? 0 then mret changed
    else if elapsed now_ts (last_recv_ts (c_health c)) (x_health_timeout_ms g) then
      put_conn (SlotPeer i) (set_health c (set_remote_ping (c_health c) zero_ping));;
      thread_recv_disconnect_peer_all_paths i;;
      potr_internal_peer_free i;;
      mret changed
    else mret changed.

Fixpoint check_peers_loop (now_ts : timespec) (i n : nat) (wake : bool) : M bool :=
  match n with
  | O => mret wake
  | S n => b ← check_peer now_ts i; check_peers_loop now_ts (S i) n (wake || b)
  end.

Definition thread_recv_health_check_peers : M unit :=
  now_ts ← tick clock_monotonic;
  g ← get_cfg;
  if x_health_timeout_ms g =? 0 then mret tt
  else
    wake ← check_peers_loop now_ts 0 (Z.to_nat (x_max_peers g)) false;
    when wake potr_internal_health_thread_wake.

Definition thread_recv_health_wake_tcp (path_idx : nat) (state_changed : bool) : M unit :=
  x ← get_ctx;
  let g := x_cfg x in
  when (state_changed && is_tcp_type (service_type (x_service g)))
    (running ← (if 0 <? x_health_interval_ms g then lift (x_health_running x !! path_idx)
                else mret false);
     if running : bool then potr_internal_tcp_health_thread_wake_all
     else _ ← potr_internal_tcp_send_ping_now path_idx; mret tt).

(** The assignments for a path that timed out: the learned addresses are
    forgotten. *)
Definition expire_path (k : nat) : M unit :=
  x ← get_ctx;
  let sv := x_service (x_cfg x) in
  let c := x_conn x in
  let h := c_health c in
  _ ← lift (x_peer_port x !! k);
  ts ← lift (path_last_recv_ts h !! k);
  d ← lift (c_dest_addr c !! k);
  let d' := if type_eqb (service_type sv) POTR_TYPE_UNICAST_BIDIR
            then Endpoint (if addr_is_empty (src_addr sv) 0 then 0 else ep_address d)
                   (if src_port sv =? 0 then 0 else ep_port d)
            else d in
  put_ctx (set_x_conn (set_x_peer_port x (<[k:=0]> (x_peer_port x)))
    (set_dest_addr (set_health c (set_path_last_recv h (<[k:=clear_sec ts]> (path_last_recv_ts h))))
       (<[k:=d']> (c_dest_addr c)))).

Fixpoint check_service_paths (now_ts : timespec) (k n : nat) (changed : bool) : M bool :=
  match n with
  | O => mret changed
  | S n =>
      g ← get_cfg;
      c ← get_conn SlotCtx;
      let h := c_health c in
      ts ← lift (path_last_recv_ts h !! k);
      if tv_sec ts =? 0 then check_service_paths now_ts (S k) n changed
      else if elapsed now_ts ts (x_health_timeout_ms g) then
        '(ch, l) ← lift (thread_recv_set_path_ping_state (path_ping_state h) k
                           POTR_PING_STATE_ABNORMAL);
        put_conn SlotCtx (set_health c (set_ping h l));;
        expire_path k;;
        check_service_paths now_ts (S k) n (changed || ch)
      else check_service_paths now_ts (S k) n changed
  end.

Definition thread_recv_health_check_service : M unit :=
  g ← get_cfg;
  if x_health_timeout_ms g =? 0 then mret tt
  else
    now_ts ← tick clock_monotonic;
    changed ← check_service_paths now_ts 0 (x_n_path g) false;
    when changed (thread_recv_sync_path_state SlotCtx);;
    c ← get_conn SlotCtx;
    let h := c_health c in
    if negb (health_alive h) || (tv_sec (last_recv_ts h) =? 0) then mret tt
    else if elapsed now_ts (last_recv_ts h) (x_health_timeout_ms g) then
      modify_conn SlotCtx forget_session;;
      ch ← clear_ping_states SlotCtx;
      thread_recv_disconnect_service_all_paths;;
      reinit_recv_window SlotCtx 0;;
      thread_recv_wake_udp_interrupt_ping (changed || ch)
    else thread_recv_wake_udp_interrupt_ping changed.
End Dispatch.

Lemma apply_remote_length dst src k n :
  (k + n <= length src)%nat -> (k + n <= length dst)%nat ->
  exists l, apply_remote_loop k n dst src = Some l /\ length l = length dst.
Proof.
  revert k dst. induction n as [|n IH]; intros k dst Hs Hd; [by exists dst|]. cbn [apply_remote_loop].
  destruct (lookup_lt_is_Some_2 src k) as [st Hst]; [lia|]. rewrite Hst. cbn [mbind option_bind].
  destruct (st =? POTR_PING_STATE_UNDEFINED); [apply IH; lia|].
  destruct (lookup_lt_is_Some_2 dst k) as [d Hdk]; [lia|]. rewrite Hdk. cbn [mbind option_bind].
  destruct (IH (S k) (<[k:=st]> dst)) as (l & Hl & Hlen); [lia|rewrite length_insert; lia|].
  exists l. split; [done|]. by rewrite Hlen, length_insert.
Qed.

Section DispatchOk.
Context `{CplatByteorder} `{Platform} (g : service_config).
Hypothesis Hg : cfg_ok g.

Lemma keeps_apply_ping_payload s pkt :
  pkt_ok g pkt -> keeps (good g s) (apply_ping_payload s pkt).
Proof.
  intros [_ _ Hp]. unfold apply_ping_payload. destruct (pkt_payload pkt) as [bs|]; [|apply keeps_ret].
  destruct Hp as [_ Hl]. destruct (Z.leb_spec (Z.of_nat POTR_MAX_PATH) (pkt_payload_len pkt)) as [Hm|];
    [|apply keeps_ret].
  apply triple_get_conn_bind. intros c Hc. pose proof (ok_health _ _ Hc) as Hh.
  apply (keeps_lift_bind _ _ (take POTR_MAX_PATH bs)).
  { unfold read_at. cbn [mbind option_bind]. rewrite mem_read_Some by lia. by rewrite drop_0. }
  destruct (apply_remote_length (remote_path_ping_state (c_health c)) (take POTR_MAX_PATH bs) 0
    POTR_MAX_PATH) as (l & Hl' & Hlen).
  { rewrite length_take. lia. }
  { rewrite (ho_remote _ Hh). lia. }
  apply (keeps_lift_bind _ _ l); [exact Hl'|]. apply keeps_put_conn. conn_solve.
  destruct Hh. split; cbn; congruence.
Qed.

Lemma keeps_wake_udp s b : keeps (good g s) (thread_recv_wake_udp_interrupt_ping b).
Proof.
  apply keeps_quiet. intros x Hx _ _. apply quiet_get_cfg_bind, quiet_when. intros _.
  by apply quiet_health_wake.
Qed.

Context `{!PlatformLaws}.

Lemma dispatch_fin_ok s pkt :
  packet_ranges pkt -> triple (good g s) (dispatch_fin s pkt) (fun _ w _ => fine g w).
Proof.
  intros Hp. apply (triple_seq _ _ _ (fun _ => good g s)).
  { destruct (slot_is_peer s); [apply keeps_ret|by apply keeps_session_adopt]. }
  intros ok. destruct (negb ok); [apply keeps_fine, keeps_ret|].
  apply (triple_seq _ _ _ (fun _ => good g s)); [apply keeps_fin_on_packet|]. intros [a target].
  destruct a; [apply keeps_fine, keeps_ret..|].
  eapply triple_seq; [apply fin_fire_fine|]. intros ?. apply triple_ret. by intros w [Hw _].
Qed.

Lemma keeps_dispatch_ping s pkt path :
  pkt_ok g pkt -> (path < POTR_MAX_PATH)%nat -> keeps (good g s) (dispatch_ping s pkt path).
Proof.
  intros Hp Hpath. pose proof (pk_ranges _ _ Hp) as Hr. apply keeps_get_cfg_bind.
  apply keeps_bind; [by apply keeps_update_path_health|]. intros ch.
  apply keeps_bind; [by apply keeps_apply_ping_payload|intros _].
  destruct (is_raw_type _).
  - apply keeps_bind; [by apply keeps_scan_ping_gap|intros _].
    apply keeps_bind; [apply keeps_sync_path_state|auto with porter].
  - apply keeps_bind; [apply keeps_when; intros _; apply keeps_wake_udp|intros _].
    apply keeps_bind; [apply keeps_sync_path_state|intros _].
    apply keeps_bind; [by apply keeps_scan_ping_gap|auto with porter].
Qed.

Lemma dispatch_packet_ok s pkt path sender :
  is_tcp_type (service_type (x_service g)) = false -> pkt_ok g pkt -> (path < POTR_MAX_PATH)%nat ->
  triple (good g s) (thread_recv_dispatch_packet s pkt path sender) (fun _ w _ => fine g w).
Proof.
  intros Ht Hp Hpath. pose proof (pk_ranges _ _ Hp) as Hr. unfold thread_recv_dispatch_packet.
  destruct (pkt_flags pkt has POTR_FLAG_FIN); [by apply dispatch_fin_ok|].
  destruct (pkt_flags pkt has POTR_FLAG_NACK).
  { apply keeps_fine, keeps_bind; [|auto with porter]. apply keeps_when. intros _.
    by apply keeps_on_nack. }
  destruct (pkt_flags pkt has POTR_FLAG_REJECT).
  { eapply triple_seq; [by apply on_reject_ok|]. intros ?. by apply triple_ret. }
  destruct (negb _); [apply keeps_fine, keeps_ret|].
  apply (triple_seq _ _ _ (fun _ => good g s)); [by apply keeps_session_adopt|]. intros ok.
  destruct (negb ok); [apply keeps_fine, keeps_ret|].
  apply (triple_seq _ _ _ (fun _ => good g s)); [by apply keeps_learn_sender_path|intros _].
  destruct (pkt_flags pkt has POTR_FLAG_PING); [by apply keeps_fine, keeps_dispatch_ping|].
  eapply triple_seq; [by apply accept_outer_ok|]. intros ?. by apply triple_ret.
Qed.

(** *** Time-outs *)

Lemma triple_get_peer_bind {B} i (k : potr_internal_peer_context -> M B) Q :
  (forall p, p_active p = true -> conn_ok g (p_conn p) -> triple (good g (SlotPeer i)) (k p) Q) ->
  triple (good g (SlotPeer i)) (get_peer i ≫= k) Q.
Proof.
  intros Hk [x t] Hw. pose proof Hw as [[Hx Hgx] [c Hs]]. cbn [w_ctx] in *.
  pose proof (slot_conn_ok _ _ _ Hx Hs) as Hc. rewrite Hgx in Hc.
  apply slot_conn_peer in Hs as (ps & p & Hps & Hp & Ha & <-).
  rewrite (bind_run_nil _ _ _ _ _ (get_peer_run i p (World x t) ps Hps Hp)). by apply Hk.
Qed.

Lemma keeps_path_clear i k :
  (k < POTR_MAX_PATH)%nat -> keeps (good g (SlotPeer i)) (potr_internal_peer_path_clear i k).
Proof.
  intros Hk w [[Hx Hgx] [c Hs]]. apply slot_conn_peer in Hs as (ps & p & Hps & Hp & Ha & <-).
  destruct (peer_path_clear_ok i k w ps p Hx Hps Hp Ha Hk)
    as (w' & p' & Hr & Hx' & Hg' & _ & Hps' & Ha' & _).
  exists tt, w', []. split; [done|]. split; [split; [done|congruence]|].
  exists (p_conn p'). unfold slot_conn, find_peer. rewrite Hps'. cbn [mbind option_bind].
  rewrite list_lookup_insert_eq by by eapply lookup_lt_Some. cbn. by rewrite Ha'.
Qed.

Lemma keeps_check_peer_paths now i n k b :
  (k + n <= POTR_MAX_PATH)%nat -> keeps (good g (SlotPeer i)) (check_peer_paths now i k n b).
Proof.
  revert k b. induction n as [|n IH]; intros k b Hk; [apply keeps_ret|]. cbn [check_peer_paths].
  apply keeps_get_cfg_bind. apply triple_get_peer_bind. intros p Ha Hc. cbv zeta.
  pose proof (ok_health _ _ Hc) as Hh.
  destruct (lookup_lt_is_Some_2 (c_dest_addr (p_conn p)) k) as [d Hd]; [rewrite (ok_dest _ _ Hc); lia|].
  apply (keeps_lift_bind _ _ d _ Hd). destruct (endpoint_is_unset d); [apply IH; lia|].
  destruct (lookup_lt_is_Some_2 (path_last_recv_ts (c_health (p_conn p))) k) as [ts Hts];
    [rewrite (ho_recv_ts _ Hh); lia|].
  apply (keeps_lift_bind _ _ ts _ Hts). destruct (tv_sec ts =? 0); [apply IH; lia|].
  destruct (elapsed _ _ _); [|apply IH; lia].
  destruct (set_ping_state_spec (path_ping_state (c_health (p_conn p))) k POTR_PING_STATE_ABNORMAL)
    as [ch Hch]; [rewrite (ho_ping _ Hh); lia|].
  eapply (keeps_lift_bind _ _ (ch, _)); [exact Hch|]. cbn beta iota.
  apply keeps_bind; [apply keeps_put_conn; conn_solve; destruct Hh; split; cbn; by rewrite ?length_insert|].
  intros _. apply keeps_bind; [apply keeps_path_clear; lia|intros _]. apply IH. lia.
Qed.

(** A well-formed world with a peer table. *)
Definition fine_peers (w : world) : Prop := fine g w /\ is_Some (x_peers (w_ctx w)).

Lemma good_peer_fine_peers i w : good g (SlotPeer i) w -> fine_peers w.
Proof.
  intros [Hf [c Hs]]. split; [done|]. apply slot_conn_peer in Hs as (ps & _ & Hps & _). by eexists.
Qed.

Lemma peer_free_fine_peers i :
  triple (good g (SlotPeer i)) (potr_internal_peer_free i) (fun _ w _ => fine_peers w).
Proof.
  intros w [[Hx Hgx] [c Hs]]. apply slot_conn_peer in Hs as (ps & p & Hps & Hp & Ha & _).
  destruct (peer_free_ok i w ps p Hx Hps Hp Ha) as (w' & Hr & Hx' & Hg' & _ & Hps' & _).
  exists tt, w', []. split; [done|]. split; [split; [done|congruence]|by eexists].
Qed.

Lemma check_peer_ok now i :
  (Z.of_nat i < x_max_peers g) -> keeps fine_peers (check_peer now i).
Proof.
  intros Hi [x t] Hw. pose proof Hw as [[Hx Hgx] [ps Hps]]. cbn [w_ctx] in *.
  pose proof (xo_peers _ Hx) as Hpt. rewrite Hps, Hgx in Hpt.
  destruct (lookup_lt_is_Some_2 ps i) as [p Hp]; [destruct Hpt; lia|].
  unfold check_peer. rewrite get_cfg_bind. cbn [w_ctx]. rewrite Hgx.
  rewrite (bind_run_nil _ _ _ _ _ (get_peer_run i p (World x t) ps Hps Hp)).
  destruct (p_active p) eqn:Ha; cbn [negb orb]; [|by apply keeps_ret].
  destruct (negb _); [by apply keeps_ret|].
  assert (good g (SlotPeer i) (World x t)) as Hgood.
  { split; [done|]. exists (p_conn p). unfold slot_conn, find_peer. cbn [w_ctx]. rewrite Hps. cbn.
    rewrite Hp. cbn. by rewrite Ha. }
  revert Hgood. generalize (World x t). clear x t Hw Hx Hgx ps Hps Hpt p Hp Ha.
  match goal with |- forall w, _ -> exists a w' es, ?m w = _ /\ _ =>
    change (triple (good g (SlotPeer i)) m (fun _ w _ => fine_peers w)) end.
  apply (triple_seq _ _ _ (fun _ => good g (SlotPeer i))); [by apply keeps_check_peer_paths|].
  intros ch. apply (triple_seq _ _ _ (fun _ => good g (SlotPeer i))).
  { apply keeps_when. intros _. apply keeps_sync_path_state. }
  intros _. apply triple_get_conn_bind. intros c Hc.
  assert (triple (good g (SlotPeer i)) (mret ch) (fun _ w _ => fine_peers w)) as Hret.
  { apply triple_ret. apply good_peer_fine_peers. }
  destruct (_ =? 0); [exact Hret|]. destruct (elapsed _ _ _); [|exact Hret].
  apply (triple_seq _ _ _ (fun _ => good g (SlotPeer i))).
  { apply keeps_put_conn. conn_solve. by destruct (ok_health _ _ Hc). }
  intros _. apply (triple_seq _ _ _ (fun _ => good g (SlotPeer i))); [apply keeps_disconnect_peer|].
  intros _. eapply triple_seq; [apply peer_free_fine_peers|]. intros ?. by apply triple_ret.
Qed.

Lemma health_check_peers_ok : keeps fine_peers thread_recv_health_check_peers.
Proof.
  apply keeps_bind; [intros w Hw; by eexists _, _, _|]. intros now w Hw. rewrite get_cfg_bind.
  rewrite (proj2 (proj1 Hw)). destruct (_ =? 0); [by apply keeps_ret|].
  revert w Hw. apply keeps_bind.
  - assert (forall n i b, Z.of_nat (i + n) <= x_max_peers g ->
      keeps fine_peers (check_peers_loop now i n b)) as Hloop.
    { induction n as [|n IH]; intros i b Hi; [apply keeps_ret|]. cbn [check_peers_loop].
      apply keeps_bind; [apply check_peer_ok; lia|]. intros b'. apply IH. lia. }
    apply Hloop. destruct Hg. lia.
  - intros wake. apply keeps_when. intros _ [x t] Hw. pose proof Hw as [[Hx _] _].
    destruct (quiet_health_wake x Hx t) as (a & t' & es & Hr). by exists a, (World x t'), es.
Qed.

Lemma keeps_expire_path k :
  (k < POTR_MAX_PATH)%nat -> keeps (good g SlotCtx) (expire_path k).
Proof.
  intros Hk [x t] Hw. pose proof Hw as [[Hx Hgx] _]. cbn [w_ctx] in *.
  unfold expire_path. rewrite get_ctx_bind. cbv zeta. cbn [w_ctx].
  pose proof (xo_conn _ Hx) as Hc. pose proof (ok_health _ _ Hc) as Hh.
  destruct (lookup_lt_is_Some_2 (x_peer_port x) k) as [pp Hpp]; [rewrite (xo_port _ Hx); lia|].
  rewrite (lift_bind _ _ _ _ Hpp).
  destruct (lookup_lt_is_Some_2 (path_last_recv_ts (c_health (x_conn x))) k) as [ts Hts];
    [rewrite (ho_recv_ts _ Hh); lia|].
  rewrite (lift_bind _ _ _ _ Hts).
  destruct (lookup_lt_is_Some_2 (c_dest_addr (x_conn x)) k) as [d Hd]; [rewrite (ok_dest _ _ Hc); lia|].
  rewrite (lift_bind _ _ _ _ Hd). eexists _, _, _. split; [done|].
  split; [split|by eexists]; [|done]. cbn [w_ctx].
  assert (length (<[k:=0]> (x_peer_port x)) = POTR_MAX_PATH) as Hlp
    by (rewrite length_insert; apply (xo_port _ Hx)).
  destruct Hx. split; try done. cbn [x_conn x_cfg set_x_conn set_x_peer_port]. conn_solve.
  - destruct Hh. split; cbn; by rewrite ?length_insert.
  - by rewrite length_insert.
Qed.

Lemma keeps_check_service_paths now n k b :
  (k + n <= POTR_MAX_PATH)%nat -> keeps (good g SlotCtx) (check_service_paths now k n b).
Proof.
  revert k b. induction n as [|n IH]; intros k b Hk; [apply keeps_ret|]. cbn [check_service_paths].
  apply keeps_get_cfg_bind. apply triple_get_conn_bind. intros c Hc. cbv zeta.
  pose proof (ok_health _ _ Hc) as Hh.
  destruct (lookup_lt_is_Some_2 (path_last_recv_ts (c_health c)) k) as [ts Hts];
    [rewrite (ho_recv_ts _ Hh); lia|].
  apply (keeps_lift_bind _ _ ts _ Hts). destruct (tv_sec ts =? 0); [apply IH; lia|].
  destruct (elapsed _ _ _); [|apply IH; lia].
  destruct (set_ping_state_spec (path_ping_state (c_health c)) k POTR_PING_STATE_ABNORMAL)
    as [ch Hch]; [rewrite (ho_ping _ Hh); lia|].
  eapply (keeps_lift_bind _ _ (ch, _)); [exact Hch|]. cbn beta iota.
  apply keeps_bind; [apply keeps_put_conn; conn_solve; destruct Hh; split; cbn; by rewrite ?length_insert|].
  intros _. apply keeps_bind; [apply keeps_expire_path; lia|intros _]. apply IH. lia.
Qed.

Lemma health_check_service_ok : keeps (good g SlotCtx) thread_recv_health_check_service.
Proof.
  apply keeps_get_cfg_bind. destruct (_ =? 0); [apply keeps_ret|].
  apply keeps_bind; [auto with porter|]. intros now.
  apply keeps_bind; [apply keeps_check_service_paths; apply Hg|]. intros ch.
  apply keeps_bind; [apply keeps_when; intros _; apply keeps_sync_path_state|intros _].
  apply triple_get_conn_bind. intros c Hc. cbv zeta. destruct (_ || _); [apply keeps_ret|].
  destruct (elapsed _ _ _); [|apply keeps_wake_udp].
  apply keeps_bind; [apply keeps_modify_conn, forget_session_ok|intros _].
  apply keeps_bind; [apply keeps_clear_ping_states|]. intros ch'.
  apply keeps_bind; [apply keeps_disconnect_service|intros _].
  apply keeps_bind; [apply keeps_reinit_recv_window; lia|intros _]. apply keeps_wake_udp.
Qed.
End DispatchOk.
