(* ===== verification/RecvThread.v ===== *)
(** The receive threads: [potr_recv_thread.c].  What one datagram (UDP) or one
    frame of the byte stream (TCP) does to the service, and what happens while
    nothing arrives. *)

From stdpp Require Import base list numbers option.
From Stdlib Require Import ZArith Lia ZifyBool.
From S2P Require Import Prelude Types Packet Window Context PathEvent Validate PeerTable.
From S2P Require Import RecvSlot Session Fin RecvWindow HealthThread Dispatch.
Local Open Scope Z_scope.
Local Open Scope porter_scope.

Section RecvThread.
Context `{CplatByteorder} `{Platform}.

(** A peer created for the session of a first PING. *)
Definition n1_create_peer (pkt : packet) (sender : endpoint) (path_idx : nat) : M (option nat) :=
  o ← potr_internal_peer_create sender path_idx;
  match o with
  | None => mret None
  | Some i =>
      modify_conn (SlotPeer i) (fun c =>
        let ses := c_session c in
        set_session c (SessionState (session_id ses) (session_ts ses) (pkt_session_id pkt) true
                         (pkt_session_ts pkt)));;
      reinit_recv_window (SlotPeer i) (pkt_seq_num pkt);;
      mret (Some i)
  end.

Definition n1_handle_packet (pkt : packet) (wire_hdr : list Z) (sender : endpoint)
    (path_idx : nat) : M unit :=
  g ← get_cfg;
  '(rc, pkt) ← lift (thread_recv_authenticate_packet g pkt wire_hdr);
  if negb (rc =? POTR_OK) then mret tt
  else
    found ← potr_internal_peer_find_by_session (pkt_session_id pkt) (pkt_session_ts pkt);
    peer ← match found with
           | Some i => mret (Some i)
           | None => if pkt_flags pkt has POTR_FLAG_PING then n1_create_peer pkt sender path_idx
                     else mret None
           end;
    match peer with
    | None => mret tt
    | Some i =>
        wake ← thread_recv_dispatch_packet (thread_recv_slot_init_peer i) pkt path_idx sender;
        when wake potr_internal_health_thread_wake
    end.

(** Is the packet done with? *)
Definition sender_handle_packet (s : slot) (pkt : packet) : M bool :=
  g ← get_cfg;
  let t := service_type (x_service g) in
  if is_raw_type t then mret true
  else
    thread_recv_window_on_nack s pkt;;
    mret (negb (type_eqb t POTR_TYPE_UNICAST_BIDIR)).

(** One datagram: the part of the loop of [recv_thread_func] that follows
    [cplat_socket_recvfrom]. *)
Definition recv_datagram (buf : list Z) (sender : endpoint) (path_idx : nat) : M unit :=
  g ← get_cfg;
  '(rc, o) ← lift (potr_internal_packet_parse (Some blank_packet) (Some buf) (length buf));
  match rc =? POTR_OK, o with
  | true, Some pkt =>
      if negb (pkt_service_id pkt =? service_id (x_service g)) then mret tt
      else if negb (thread_recv_check_src_addr g sender) then mret tt
      else if x_is_multi_peer g then n1_handle_packet pkt buf sender path_idx
      else
        '(rc, pkt) ← lift (thread_recv_authenticate_packet g pkt buf);
        if negb (rc =? POTR_OK) then mret tt
        else
          done_ ← (if role_eqb (x_role g) POTR_ROLE_SENDER
                   then sender_handle_packet thread_recv_slot_init_ctx pkt else mret false);
          if done_ : bool then mret tt
          else _ ← thread_recv_dispatch_packet thread_recv_slot_init_ctx pkt path_idx sender; mret tt
  | _, _ => mret tt
  end.

(** What the poll finds on a path: nothing, a failing or empty read, or a
    datagram. *)
Inductive path_input :=
  | NotReady
  | ReadFailed
  | Datagram (buf : list Z) (sender : endpoint).

Definition is_ready (i : path_input) : bool := match i with NotReady => false | _ => true end.

(** The branch of the loop for a poll that timed out. *)
Definition recv_idle : M unit :=
  g ← get_cfg;
  if x_is_multi_peer g then thread_recv_health_check_peers
  else if role_eqb (x_role g) POTR_ROLE_RECEIVER
          || type_eqb (service_type (x_service g)) POTR_TYPE_UNICAST_BIDIR then
    thread_recv_health_check_service;;
    when (0 <? reorder_timeout_ms (x_global g))
      (thread_recv_window_check_reorder_timeout thread_recv_slot_init_ctx)
  else mret tt.

(** One turn of the loop of [recv_thread_func]. *)
Definition recv_thread_turn (inputs : list path_input) : M unit :=
  g ← get_cfg;
  if existsb is_ready (take (x_n_path g) inputs) then
    for_range 0 (x_n_path g) (fun k =>
      v ← sock_valid k;
      inp ← lift (inputs !! k);
      match inp with
      | Datagram buf sender => when v (recv_datagram buf sender k)
      | _ => mret tt
      end)
  else recv_idle.

(** ** TCP *)

Definition tcp_drain : M unit :=
  c ← get_conn SlotCtx;
  drain_loop (S (Z.to_nat (win_window_size (c_recv_window c)))) false SlotCtx;;
  c ← get_conn SlotCtx;
  match thread_recv_fin_pending_reached c with
  | Some target => thread_recv_fin_fire SlotCtx target
  | None => mret tt
  end.

Definition tcp_on_ping (pkt : packet) (path_idx : nat) : M unit :=
  now ← tick clock_monotonic_ms;
  x ← get_ctx;
  _ ← lift (x_tcp_last_ping_recv_ms x !! path_idx);
  put_ctx (set_x_tcp_last_ping x (<[path_idx:=now]> (x_tcp_last_ping_recv_ms x)));;
  c ← get_conn SlotCtx;
  '(ch, l) ← lift (thread_recv_set_path_ping_state (path_ping_state (c_health c)) path_idx
                     POTR_PING_STATE_NORMAL);
  put_conn SlotCtx (set_health c (set_ping (c_health c) l));;
  apply_ping_payload SlotCtx pkt;;
  thread_recv_sync_path_state SlotCtx;;
  thread_recv_health_wake_tcp path_idx ch.

Definition tcp_on_fin (pkt : packet) : M unit :=
  ok ← thread_recv_session_adopt SlotCtx pkt;
  if negb ok then mret tt
  else
    '(action, target) ← thread_recv_fin_on_packet SlotCtx pkt;
    match action with
    | THREAD_RECV_FIN_FIRE => thread_recv_fin_fire SlotCtx target
    | _ => mret tt
    end.

Definition tcp_on_data (pkt : packet) : M unit :=
  ok ← thread_recv_session_adopt SlotCtx pkt;
  if negb ok then mret tt
  else
    pushed ← slot_recv_push SlotCtx pkt;
    if negb (pushed =? POTR_OK) then mret tt else tcp_drain.

(** Does the packet belong to the session this receiver accepted? *)
Definition tcp_session_accepted (x : potr_context) (pkt : packet) : bool :=
  let l := x_tcp_link x in
  if role_eqb (x_role (x_cfg x)) POTR_ROLE_RECEIVER && tcp_accepted_session_known l
  then (pkt_session_id pkt =? tcp_accepted_session_id l) &&
       (cplat_timespec_cmp (pkt_session_ts pkt) (tcp_accepted_session_ts l) =? 0)
  else true.

Definition tcp_handle_packet (buf : list Z) (wire_payload_len : nat) (path_idx : nat) : M Z :=
  x ← get_ctx;
  let g := x_cfg x in
  '(rc, o) ← lift (potr_internal_packet_parse (Some blank_packet) (Some buf)
                     (POTR_PACKET_HEADER_SIZE + wire_payload_len));
  match rc =? POTR_OK, o with
  | true, Some pkt =>
      if negb (pkt_service_id pkt =? service_id (x_service g)) then mret POTR_OK
      else
        '(rc, pkt) ← lift (thread_recv_authenticate_packet g pkt buf);
        if negb (rc =? POTR_OK) then mret POTR_OK
        else if negb (tcp_session_accepted x pkt) then mret POTR_OK
        else if pkt_flags pkt has POTR_FLAG_FIN_ACK then
          thread_recv_fin_on_ack (pkt_ack_num pkt);; mret POTR_OK
        else if pkt_flags pkt has POTR_FLAG_FIN then tcp_on_fin pkt;; mret POTR_OK
        else if pkt_flags pkt has POTR_FLAG_PING then tcp_on_ping pkt path_idx;; mret POTR_OK
        else if pkt_flags pkt has POTR_FLAG_DATA then tcp_on_data pkt;; mret POTR_OK
        else mret POTR_OK
  | _, _ => mret POTR_ERR_PROTOCOL
  end.

(** One frame of the stream: the header, then as many bytes as its
    [payload_len] says.  [None] when the stream ends or the length exceeds
    [max_payload]. *)
Definition tcp_read_frame (g : service_config) (stream : list Z) : option (list Z * nat * list Z) :=
  hdr ← mem_read stream 0 POTR_PACKET_HEADER_SIZE;
  wpl ← mem_read hdr 34 2;
  let len := cplat_ntoh16 (mem_to host_endian wpl) in
  if max_payload_cfg (x_global g) <? len then None
  else
    buf ← mem_read stream 0 (POTR_PACKET_HEADER_SIZE + Z.to_nat len);
    Some (buf, Z.to_nat len, drop (POTR_PACKET_HEADER_SIZE + Z.to_nat len) stream).

(** What [tcp_wait_readable] reports. *)
Inductive tcp_poll := TcpPollError | TcpPollIdle | TcpPollReadable.

(** What one turn of the loop sees of the other threads and of the socket:
    [running] at its three loads, and the poll. *)
Record tcp_turn := TcpTurn {
  tt_running : bool;
  tt_poll : tcp_poll;
  tt_running_polled : bool;
  tt_running_read : bool
}.

Inductive tcp_verdict := TcpStop | TcpAgain | TcpRead.

(** The poll timed out: has the last PING been too long ago? *)
Definition tcp_idle (path_idx : nat) : M tcp_verdict :=
  x ← get_ctx;
  last ← lift (x_tcp_last_ping_recv_ms x !! path_idx);
  now ← tick clock_monotonic_ms;
  if (0 <? last) && (x_health_timeout_ms (x_cfg x) <? u64 (now - last)) then
    c ← get_conn SlotCtx;
    '(ch, l) ← lift (thread_recv_set_path_ping_state (path_ping_state (c_health c)) path_idx
                       POTR_PING_STATE_ABNORMAL);
    put_conn SlotCtx (set_health c (set_ping (c_health c) l));;
    thread_recv_sync_path_state SlotCtx;;
    thread_recv_health_wake_tcp path_idx ch;;
    mret TcpStop
  else mret TcpAgain.

(** Wait for data, when PINGs are expected periodically. *)
Definition tcp_await (turn : tcp_turn) (path_idx : nat) : M tcp_verdict :=
  g ← get_cfg;
  if (0 <? x_health_interval_ms g) && (0 <? x_health_timeout_ms g) then
    if negb (tt_running_polled turn) then mret TcpStop
    else match tt_poll turn with
         | TcpPollError => mret TcpStop
         | TcpPollIdle => tcp_idle path_idx
         | TcpPollReadable => mret TcpRead
         end
  else mret TcpRead.

(** The frame this turn handles: the one the accept thread read ahead, if it
    is still there, or the next one of the stream. *)
Definition tcp_next_frame (turn : tcp_turn) (path_idx : nat) (first stream : list Z)
    : M (tcp_verdict * (list Z * nat * list Z)) :=
  match first with
  | [] =>
      v ← tcp_await turn path_idx;
      g ← get_cfg;
      match v, tcp_read_frame g stream with
      | TcpRead, Some fr => mret (TcpRead, fr)
      | TcpAgain, _ => mret (TcpAgain, ([], O, stream))
      | _, _ => mret (TcpStop, ([], O, stream))
      end
  | _ =>
      wpl ← lift (mem_read first 34 2);
      mret (TcpRead, (first, Z.to_nat (cplat_ntoh16 (mem_to host_endian wpl)), stream))
  end.

(** The loop of [tcp_recv_thread_func]: [first] is the packet read ahead,
    [stream] the bytes that arrive before the connection ends.  The result
    is what is left unread. *)
Fixpoint tcp_recv_loop (turns : list tcp_turn) (path_idx : nat) (first stream : list Z)
    : M (list Z) :=
  match turns with
  | [] => mret stream
  | turn :: turns =>
      if negb (tt_running turn) then mret stream
      else
        x ← get_ctx;
        fd ← lift (x_tcp_conn_fd x !! path_idx);
        if negb fd then mret stream
        else
          fr ← tcp_next_frame turn path_idx first stream;
          match fr with
          | (TcpStop, _) => mret stream
          | (TcpAgain, _) => tcp_recv_loop turns path_idx [] stream
          | (TcpRead, (buf, len, rest)) =>
              r ← (if tt_running_read turn then tcp_handle_packet buf len path_idx
                   else mret POTR_ERR_CANCELED);
              if negb (r =? POTR_OK) then mret rest else tcp_recv_loop turns path_idx [] rest
          end
  end.
End RecvThread.

(** ** Whatever arrives, the receive path does not fault *)

Section ParsedPackets.
Context `{CplatByteorder}.

Lemma field_bytes (b : list Z) off n :
  Forall is_byte b -> (off + n <= length b)%nat ->
  length (take n (drop off b)) = n /\ Forall is_byte (take n (drop off b)).
Proof.
  intros Hb Hl. split; [|by apply Forall_take, Forall_drop]. rewrite length_take, length_drop. lia.
Qed.

Lemma ntoh32_field (b : list Z) off :
  Forall is_byte b -> (off + 4 <= length b)%nat ->
  0 <= cplat_ntoh32 (mem_to host_endian (take 4 (drop off b))) < 4294967296.
Proof.
  intros Hb Hl. destruct (field_bytes b off 4 Hb Hl) as [Hlen Hby].
  rewrite ntoh32_mem by done. pose proof (mem_to_bound BigEndian _ Hby) as Hr.
  rewrite Hlen in Hr. exact Hr.
Qed.

Lemma ntoh16_field (b : list Z) off :
  Forall is_byte b -> (off + 2 <= length b)%nat ->
  0 <= cplat_ntoh16 (mem_to host_endian (take 2 (drop off b))) < 65536.
Proof. intros Hb Hl. destruct (field_bytes b off 2 Hb Hl). by apply ntoh16_mem_range. Qed.

(** A parsed datagram that fits the receive buffer is a well-formed packet. *)
Lemma parse_pkt_ok g (b : list Z) :
  cfg_ok g -> Forall is_byte b ->
  (length b <= POTR_PACKET_HEADER_SIZE + Z.to_nat (max_payload_cfg (x_global g)))%nat ->
  exists rc q, potr_internal_packet_parse (Some blank_packet) (Some b) (length b) = Some (rc, Some q) /\
    (rc = POTR_OK -> pkt_ok g q /\ (POTR_PACKET_HEADER_SIZE <= length b)%nat /\
       pkt_payload q = Some (drop POTR_PACKET_HEADER_SIZE b)).
Proof.
  intros Hg Hb Hmax. pose proof (co_payload _ Hg) as Hmp.
  destruct (parse_total blank_packet b Hb) as (rc & q & Hrun & _ & Hok).
  exists rc, q. split; [done|]. intros ->. destruct (Hok eq_refl) as (Hlen & _ & Hread & Hpl).
  unfold potr_internal_packet_parse in Hrun.
  rewrite (proj2 (Nat.ltb_ge _ _)) in Hrun by lia. unfold POTR_PACKET_HEADER_SIZE in *.
  rewrite !mem_read_Some in Hrun by lia. cbn [mbind option_bind] in Hrun.
  destruct (_ || _) in Hrun; [by injection Hrun|]. injection Hrun as <-.
  destruct Hread as ((Hl0 & Hlm) & _).
  cbn [pkt_payload_len with_payload] in *. split; [|done]. split.
  - split; cbn [with_payload pkt_service_id pkt_session_tv_sec pkt_session_id pkt_session_tv_nsec
      pkt_seq_num pkt_ack_num pkt_flags pkt_payload_len pkt_protocol_version];
      first [apply i64_range | apply i32_range | apply ntoh32_field; [done|lia]
            | apply ntoh16_field; [done|lia]].
  - cbn [with_payload pkt_payload_len]. lia.
  - cbn [with_payload pkt_payload pkt_payload_len]. split; [by apply Forall_drop|].
    rewrite length_drop. lia.
Qed.
End ParsedPackets.

Section RecvThreadOk.
Context `{CplatByteorder} `{Platform} `{!PlatformLaws} (g : service_config).
Hypothesis Hg : cfg_ok g.

Lemma find_by_session_ok sid ts :
  x_is_multi_peer g = true ->
  triple (fine g) (potr_internal_peer_find_by_session sid ts)
    (fun o w _ => fine g w /\ match o with Some i => good g (SlotPeer i) w | None => True end).
Proof.
  intros Hm [x t] Hw. pose proof Hw as [Hx Hgx]. cbn [w_ctx] in *.
  pose proof (xo_peers _ Hx) as Hpt. unfold potr_internal_peer_find_by_session.
  rewrite get_ctx_bind. cbn [w_ctx]. destruct (x_peers x) as [ps|] eqn:Hps; [|congruence].
  rewrite (lift_bind _ ps _ _ eq_refl). eexists _, _, _. split; [done|]. split; [done|].
  destruct (find_index _ ps) as [i|] eqn:Hf; [|done].
  destruct (find_index_Some _ _ _ Hf) as (p & Hp & Hb). apply andb_true_iff in Hb as [[Ha _]%andb_true_iff _].
  split; [done|]. exists (p_conn p). unfold slot_conn, find_peer. cbn [w_ctx]. rewrite Hps. cbn.
  rewrite Hp. cbn. by rewrite Ha.
Qed.

Lemma n1_create_peer_ok pkt sender path :
  x_is_multi_peer g = true -> packet_ranges pkt -> (path < POTR_MAX_PATH)%nat ->
  triple (fine g) (n1_create_peer pkt sender path)
    (fun o w _ => fine g w /\ match o with Some i => good g (SlotPeer i) w | None => True end).
Proof.
  intros Hm Hp Hpath w Hw. pose proof Hw as [Hx Hgx]. pose proof (xo_peers _ Hx) as Hpt.
  destruct (x_peers (w_ctx w)) as [ps|] eqn:Hps; [|congruence].
  destruct (peer_create_ok sender path w ps Hx Hps Hpath)
    as (o & w1 & Hr & Hx1 & Hg1 & _ & _ & _ & Ho).
  unfold n1_create_peer. rewrite (bind_run_nil _ _ _ _ _ Hr).
  assert (fine g w1) as Hw1 by (split; [done|congruence]).
  destruct o as [i|]; [|by eexists _, _, _].
  destruct Ho as (p & Hps1 & Ha & (q & Hq & _) & _).
  assert (good g (SlotPeer i) w1) as Hgood.
  { split; [done|]. exists (p_conn p). unfold slot_conn, find_peer. rewrite Hps1. cbn.
    rewrite list_lookup_insert_eq by by eapply lookup_lt_Some. cbn. by rewrite Ha. }
  revert Hgood. generalize w1. clear w1 Hr Hx1 Hg1 Hps1 Hw1.
  match goal with |- forall w, _ -> exists a w' es, ?m w = _ /\ _ =>
    change (triple (good g (SlotPeer i)) m (fun o w _ =>
      fine g w /\ match o with Some i => good g (SlotPeer i) w | None => True end)) end.
  apply (triple_seq _ _ _ (fun _ => good g (SlotPeer i))).
  { apply keeps_modify_conn. intros c Hc. conn_solve. }
  intros _. apply (triple_seq _ _ _ (fun _ => good g (SlotPeer i))).
  { apply keeps_reinit_recv_window. by apply pr_seq. }
  intros _. apply triple_ret. intros w' Hw'. split; [apply Hw'|done].
Qed.

Lemma triple_lift_bind {A B} P (o : option A) a (k : A -> M B) Q :
  o = Some a -> triple P (k a) Q -> triple P (lift o ≫= k) Q.
Proof. intros Ho Hk w Hw. rewrite (lift_bind _ _ _ _ Ho). by apply Hk. Qed.

Lemma fine_good_ctx w : fine g w -> good g SlotCtx w.
Proof. intros Hw. split; [done|by eexists]. Qed.

Hypothesis Ht : is_tcp_type (service_type (x_service g)) = false.

Lemma n1_handle_packet_ok pkt bs wire sender path :
  x_is_multi_peer g = true -> pkt_ok g pkt -> pkt_payload pkt = Some bs ->
  (POTR_PACKET_HEADER_SIZE <= length wire)%nat -> (path < POTR_MAX_PATH)%nat ->
  keeps (fine g) (n1_handle_packet pkt wire sender path).
Proof.
  intros Hm Hp Hbs Hwl Hpath. apply fine_get_cfg_bind.
  destruct (authenticate_total g pkt bs wire Hg Hp Hbs Hwl) as (rc & q & Hrun & Hrc & Hq).
  eapply (keeps_lift_bind _ _ (rc, q)); [exact Hrun|]. cbn beta iota.
  destruct (Z.eqb_spec rc POTR_OK) as [->|]; cbn [negb]; [|apply keeps_ret]. specialize (Hq eq_refl).
  apply (triple_seq _ _ _ (fun o w => fine g w /\ match o with
    Some i => good g (SlotPeer i) w | None => True end)); [by apply find_by_session_ok|]. intros found.
  apply (triple_seq _ _ _ (fun o w => fine g w /\ match o with
    Some i => good g (SlotPeer i) w | None => True end)).
  { destruct found as [i|]; [by apply triple_ret|].
    destruct (pkt_flags q has POTR_FLAG_PING); [|by apply triple_ret].
    eapply triple_conseq; [apply n1_create_peer_ok; [done|apply Hq|done]|by intros w [Hw _]|done]. }
  intros [i|]; [|apply triple_ret; by intros w [Hw _]].
  apply (triple_seq _ _ _ (fun _ => fine g)).
  { eapply triple_conseq; [by apply (dispatch_packet_ok g Hg (SlotPeer i))|by intros w [_ Hw]|done]. }
  intros wake. apply keeps_when. intros _. apply keeps_quiet_fine. intros x Hx _.
  by apply quiet_health_wake.
Qed.

Lemma recv_datagram_ok buf sender path :
  Forall is_byte buf ->
  (length buf <= POTR_PACKET_HEADER_SIZE + Z.to_nat (max_payload_cfg (x_global g)))%nat ->
  (path < POTR_MAX_PATH)%nat -> keeps (fine g) (recv_datagram buf sender path).
Proof.
  intros Hb Hmax Hpath. apply fine_get_cfg_bind.
  destruct (parse_pkt_ok g buf Hg Hb Hmax) as (rc & q & Hrun & Hok).
  eapply (keeps_lift_bind _ _ (rc, _)); [exact Hrun|]. cbn beta iota.
  destruct (Z.eqb_spec rc POTR_OK) as [->|]; [|apply keeps_ret].
  destruct (Hok eq_refl) as (Hpk & Hlen & Hpay).
  destruct (negb _); [apply keeps_ret|]. destruct (negb _); [apply keeps_ret|].
  destruct (x_is_multi_peer g) eqn:Hm; [by eapply n1_handle_packet_ok|].
  destruct (authenticate_total g q _ buf Hg Hpk Hpay Hlen) as (rc' & q' & Hrun' & _ & Hq').
  eapply (keeps_lift_bind _ _ (rc', q')); [exact Hrun'|]. cbn beta iota.
  destruct (Z.eqb_spec rc' POTR_OK) as [->|]; cbn [negb]; [|apply keeps_ret]. specialize (Hq' eq_refl).
  eapply triple_conseq; [|apply fine_good_ctx|intros a w es Hw; exact Hw].
  apply (triple_seq _ _ _ (fun _ => good g SlotCtx)).
  { destruct (role_eqb _ _); [|apply keeps_ret]. apply keeps_get_cfg_bind. cbv zeta.
    destruct (is_raw_type _); [apply keeps_ret|].
    apply keeps_bind; [by apply keeps_on_nack|auto with porter]. }
  intros [|]; [apply keeps_fine, keeps_ret|].
  apply (triple_seq _ _ _ (fun _ => fine g)); [by apply dispatch_packet_ok|].
  intros _. by apply triple_ret.
Qed.

Lemma recv_idle_ok : keeps (fine g) recv_idle.
Proof.
  apply fine_get_cfg_bind. destruct (x_is_multi_peer g) eqn:Hm.
  - eapply triple_conseq; [by apply health_check_peers_ok| |by intros a w es [Hw _]].
    intros w Hw. split; [done|]. pose proof (xo_peers _ (proj1 Hw)) as Hpt.
    destruct (x_peers _); [by eexists|]. rewrite (proj2 Hw) in Hpt. congruence.
  - destruct (_ || _); [|apply keeps_ret].
    eapply triple_conseq; [|apply fine_good_ctx|intros a w es Hw; exact Hw]. apply keeps_fine.
    apply keeps_bind; [by apply health_check_service_ok|intros _].
    apply keeps_when. intros _. by apply keeps_check_reorder_timeout.
Qed.

(** The inputs of a turn: one per path, each datagram within the buffer. *)
Definition input_ok (i : path_input) : Prop :=
  match i with
  | Datagram buf _ => Forall is_byte buf /\
      (length buf <= POTR_PACKET_HEADER_SIZE + Z.to_nat (max_payload_cfg (x_global g)))%nat
  | _ => True
  end.

Definition inputs_ok (inputs : list path_input) : Prop :=
  (x_n_path g <= length inputs)%nat /\ Forall input_ok inputs.

Lemma recv_thread_turn_ok inputs : inputs_ok inputs -> keeps (fine g) (recv_thread_turn inputs).
Proof.
  intros [Hl Hi]. apply fine_get_cfg_bind. destruct (existsb _ _); [|apply recv_idle_ok].
  pose proof (co_n_path _ Hg) as Hn. apply keeps_for. intros k Hk.
  apply keeps_bind.
  { apply keeps_quiet_fine. intros x Hx _. apply quiet_sock_valid. rewrite (xo_sock _ Hx). lia. }
  intros v. destruct (lookup_lt_is_Some_2 inputs k) as [inp Hinp]; [lia|].
  apply (keeps_lift_bind _ _ inp _ Hinp). rewrite Forall_lookup in Hi. specialize (Hi k inp Hinp).
  destruct inp as [| |buf sender]; [apply keeps_ret..|]. destruct Hi as [Hb Hmax].
  apply keeps_when. intros _. apply recv_datagram_ok; [done..|lia].
Qed.

Fixpoint recv_thread_run (turns : list (list path_input)) : M unit :=
  match turns with [] => mret tt | t :: ts => recv_thread_turn t;; recv_thread_run ts end.

Lemma recv_thread_run_ok turns : Forall inputs_ok turns -> keeps (fine g) (recv_thread_run turns).
Proof.
  induction turns as [|t ts IH]; intros Hi; [apply keeps_ret|]. apply Forall_cons_1 in Hi as [Ht' Hts].
  cbn [recv_thread_run]. apply keeps_bind; [by apply recv_thread_turn_ok|intros _; by apply IH].
Qed.
End RecvThreadOk.

(** C9. No input can break the UDP receive path.  For a well-formed service
    context (any type but TCP, any number of peers, any state of its windows)
    and every sequence of polls in which the paths deliver arbitrary bytes from
    arbitrary senders, or nothing, and for every behaviour of the platform
    (clocks, random numbers, allocations, socket errors), the receive thread
    processes all of it without an out-of-range access, null dereference or
    endless loop, and the context is well-formed afterwards. *)
Theorem recv_thread_never_faults `{CplatByteorder} `{Platform} `{!PlatformLaws} x t turns :
  ctx_ok x -> is_tcp_type (service_type (x_service (x_cfg x))) = false ->
  Forall (inputs_ok (x_cfg x)) turns ->
  exists x' t' es, recv_thread_run turns (World x t) = Some (tt, World x' t', es) /\
    ctx_ok x' /\ x_cfg x' = x_cfg x.
Proof.
  intros Hx Ht Hi.
  destruct (recv_thread_run_ok (x_cfg x) (xo_cfg _ Hx) Ht turns Hi (World x t)) as ([] & [x' t'] & es & Hr & [Hx' Hg']);
    [by split|]. by exists x', t', es.
Qed.

(** A PING of an unknown session, garbage, and silence. *)
Definition example_turns : list (list path_input) :=
  [[Datagram (documented_layout (SessionHdr 10 5 7 0) 3 0 POTR_FLAG_PING 4 ++ [1; 1; 1; 1])
      (Endpoint 16777343 5000)];
   [Datagram [1; 2; 3] (Endpoint 1 1)]; [NotReady]].

Lemma recv_thread_never_faults_witness :
  exists x' t' es, @recv_thread_run little_host toy_platform example_turns
      (World (example_ctx POTR_TYPE_UNICAST_BIDIR_N1 false) 0) = Some (tt, World x' t', es) /\
    @ctx_ok little_host x' /\ x_cfg x' = example_config POTR_TYPE_UNICAST_BIDIR_N1 false.
Proof.
  apply (@recv_thread_never_faults little_host toy_platform toy_laws);
    [apply example_ctx_ok | reflexivity |].
  apply Forall_cons_2; [|apply Forall_cons_2; [|apply Forall_cons_2; [|apply Forall_nil_2]]];
    (split; [cbn; lia|]); (apply Forall_cons_2; [|apply Forall_nil_2]); cbn [input_ok];
    try exact I; (split; [apply forallb_is_byte; reflexivity | cbn; lia]).
Defined.

(** ** TCP *)

Section TcpOk.
Context `{CplatByteorder} `{Platform} `{!PlatformLaws} (g : service_config).
Hypothesis Hg : cfg_ok g.

Lemma tcp_drain_ok : triple (good g SlotCtx) tcp_drain (fun _ w _ => good g SlotCtx w).
Proof.
  intros w Hw. pose proof Hw as [[Hx Hgx] [c Hs]].
  pose proof (slot_conn_ok _ _ _ Hx Hs) as Hc. rewrite Hgx in Hc.
  pose proof (ok_recv _ _ Hc) as (Hd & slots & Hr & Hb).
  destruct (recv_repr_shape _ _ Hr) as (ps & vs & pool & _ & Hlen).
  unfold tcp_drain. rewrite (bind_run_nil _ _ _ _ _ (get_conn_run _ _ _ Hs)).
  refine (triple_seq _ _ (good_window g SlotCtx (c_recv_window c)) _ _
    (drain_loop_ok g _ false SlotCtx _ slots Hd Hr Hb _) _ w _).
  - pose proof (ready_length slots). lia.
  - intros ?. apply triple_get_conn_bind. intros c1 Hc1.
    destruct (thread_recv_fin_pending_reached c1) as [target|].
    + apply keeps_fin_fire_ctx.
    + by apply triple_ret.
  - split; [done|]. by exists c.
Qed.

Lemma tcp_on_data_ok pkt : pkt_ok g pkt -> keeps (good g SlotCtx) (tcp_on_data pkt).
Proof.
  intros Hp. apply keeps_bind; [apply keeps_session_adopt, Hp|]. intros ok.
  destruct (negb ok); [apply keeps_ret|].
  apply keeps_bind; [by apply keeps_slot_push|]. intros rc.
  destruct (negb _); [apply keeps_ret|apply tcp_drain_ok].
Qed.

Lemma tcp_on_fin_ok pkt : pkt_ok g pkt -> keeps (good g SlotCtx) (tcp_on_fin pkt).
Proof.
  intros Hp. apply keeps_bind; [apply keeps_session_adopt, Hp|]. intros ok.
  destruct (negb ok); [apply keeps_ret|].
  apply keeps_bind; [apply keeps_fin_on_packet|]. intros [a target].
  destruct a; [apply keeps_ret..|apply keeps_fin_fire_ctx].
Qed.

Lemma quiet_wake_tcp x k b :
  ctx_ok x -> (k < POTR_MAX_PATH)%nat -> quiet x (thread_recv_health_wake_tcp k b).
Proof.
  intros Hx Hk. unfold thread_recv_health_wake_tcp. apply quiet_get_ctx_bind. cbv zeta.
  apply quiet_when. intros _. apply quiet_bind.
  - destruct (_ <? _); [|auto with porter].
    destruct (lookup_lt_is_Some_2 (x_health_running x) k) as [r Hr]; [by rewrite (xo_running _ Hx)|].
    intros t. unfold lift. rewrite Hr. by eexists _, _, _.
  - intros [|]; [by apply quiet_health_wake_all|].
    apply quiet_bind; [by apply quiet_tcp_send_ping|auto with porter].
Qed.

(** The part [tcp_on_ping] and the PING timeout share. *)
Lemma keeps_ping_state_change {A} k v (f : bool -> M A) :
  (k < POTR_MAX_PATH)%nat -> (forall ch, keeps (good g SlotCtx) (f ch)) ->
  keeps (good g SlotCtx)
    (c ← get_conn SlotCtx;
     '(ch, l) ← lift (thread_recv_set_path_ping_state (path_ping_state (c_health c)) k v);
     put_conn SlotCtx (set_health c (set_ping (c_health c) l));; f ch).
Proof.
  intros Hk Hf. apply triple_get_conn_bind. intros c Hc. pose proof (ok_health _ _ Hc) as Hh.
  destruct (set_ping_state_spec (path_ping_state (c_health c)) k v) as [ch Hch];
    [by rewrite (ho_ping _ Hh)|].
  eapply (keeps_lift_bind _ _ (ch, _)); [exact Hch|]. cbn beta iota.
  apply keeps_bind; [apply keeps_put_conn; conn_solve; destruct Hh; split; cbn; by rewrite ?length_insert|].
  intros _. apply Hf.
Qed.

Lemma keeps_wake_tcp k b :
  (k < POTR_MAX_PATH)%nat -> keeps (good g SlotCtx) (thread_recv_health_wake_tcp k b).
Proof. intros Hk. apply keeps_quiet. intros x Hx _ _. by apply quiet_wake_tcp. Qed.

Lemma tcp_on_ping_ok pkt k :
  pkt_ok g pkt -> (k < POTR_MAX_PATH)%nat -> keeps (good g SlotCtx) (tcp_on_ping pkt k).
Proof.
  intros Hp Hk. apply keeps_bind; [auto with porter|]. intros now [x t] Hw.
  pose proof Hw as [[Hx Hgx] _]. cbn [w_ctx] in *. rewrite get_ctx_bind. cbn [w_ctx].
  destruct (lookup_lt_is_Some_2 (x_tcp_last_ping_recv_ms x) k) as [l Hl]; [by rewrite (xo_ping_ms _ Hx)|].
  rewrite (lift_bind _ _ _ _ Hl), put_ctx_bind. cbn [w_tick].
  set (x1 := set_x_tcp_last_ping x _).
  assert (good g SlotCtx (World x1 t)) as Hw1.
  { split; [split|by eexists]; [|done]. destruct Hx. split; try done. cbn. by rewrite length_insert. }
  revert Hw1. generalize (World x1 t). clear x t Hw Hx Hgx l Hl x1.
  match goal with |- forall w, _ -> exists a w' es, ?m w = _ /\ _ =>
    change (keeps (good g SlotCtx) m) end.
  apply keeps_ping_state_change; [done|]. intros ch.
  apply keeps_bind; [by apply keeps_apply_ping_payload|intros _].
  apply keeps_bind; [apply keeps_sync_path_state|intros _]. by apply keeps_wake_tcp.
Qed.

Lemma tcp_handle_packet_ok buf len k :
  Forall is_byte buf -> length buf = (POTR_PACKET_HEADER_SIZE + len)%nat ->
  (len <= Z.to_nat (max_payload_cfg (x_global g)))%nat -> (k < POTR_MAX_PATH)%nat ->
  keeps (good g SlotCtx) (tcp_handle_packet buf len k).
Proof.
  intros Hb Hl Hmax Hk. apply keeps_get_ctx_bind. intros x Hx Hgx _. cbv zeta. rewrite Hgx, <- Hl.
  destruct (parse_pkt_ok g buf Hg Hb) as (rc & q & Hrun & Hok); [lia|].
  eapply (keeps_lift_bind _ _ (rc, _)); [exact Hrun|]. cbn beta iota.
  destruct (Z.eqb_spec rc POTR_OK) as [->|]; [|apply keeps_ret].
  destruct (Hok eq_refl) as (Hpk & Hlen & Hpay). destruct (negb _); [apply keeps_ret|].
  destruct (authenticate_total g q _ buf Hg Hpk Hpay Hlen) as (rc' & q' & Hrun' & _ & Hq').
  eapply (keeps_lift_bind _ _ (rc', q')); [exact Hrun'|]. cbn beta iota.
  destruct (Z.eqb_spec rc' POTR_OK) as [->|]; cbn [negb]; [|apply keeps_ret]. specialize (Hq' eq_refl).
  destruct (negb _); [apply keeps_ret|].
  destruct (pkt_flags q' has POTR_FLAG_FIN_ACK);
    [apply keeps_bind; [apply fin_on_ack_good|auto with porter]|].
  destruct (pkt_flags q' has POTR_FLAG_FIN);
    [apply keeps_bind; [by apply tcp_on_fin_ok|auto with porter]|].
  destruct (pkt_flags q' has POTR_FLAG_PING);
    [apply keeps_bind; [by apply tcp_on_ping_ok|auto with porter]|].
  destruct (pkt_flags q' has POTR_FLAG_DATA); [|apply keeps_ret].
  apply keeps_bind; [by apply tcp_on_data_ok|auto with porter].
Qed.

(** A frame is a prefix of the stream, within the buffer, and not empty. *)
Lemma tcp_read_frame_spec stream buf len rest :
  Forall is_byte stream -> tcp_read_frame g stream = Some (buf, len, rest) ->
  stream = buf ++ rest /\ length buf = (POTR_PACKET_HEADER_SIZE + len)%nat /\
  (len <= Z.to_nat (max_payload_cfg (x_global g)))%nat.
Proof.
  intros Hb. unfold tcp_read_frame.
  destruct (mem_read stream 0 _) as [hdr|] eqn:Hh; [|done]. cbn [mbind option_bind].
  destruct (mem_read hdr 34 2) as [wpl|] eqn:Hw; [|done]. cbn [mbind option_bind].
  set (n := cplat_ntoh16 _). destruct (Z.ltb_spec (max_payload_cfg (x_global g)) n) as [|Hmax]; [done|].
  destruct (mem_read stream 0 (POTR_PACKET_HEADER_SIZE + Z.to_nat n)) as [bs|] eqn:Hbs; [|done].
  cbn [mbind option_bind]. intros [= <- <- <-].
  pose proof (mem_read_length _ _ _ _ Hbs) as Hlen. unfold mem_read in Hbs.
  destruct (_ <=? _)%nat in Hbs; [|done]. injection Hbs as <-. rewrite drop_0 in *.
  split; [by rewrite take_drop|]. split; [done|]. lia.
Qed.

Lemma tcp_idle_ok k : (k < POTR_MAX_PATH)%nat -> keeps (good g SlotCtx) (tcp_idle k).
Proof.
  intros Hk. apply keeps_get_ctx_bind. intros x Hx Hgx _.
  destruct (lookup_lt_is_Some_2 (x_tcp_last_ping_recv_ms x) k) as [l Hl]; [by rewrite (xo_ping_ms _ Hx)|].
  apply (keeps_lift_bind _ _ _ _ Hl), keeps_bind; [auto with porter|]. intros now.
  destruct (_ && _); [|apply keeps_ret]. apply keeps_ping_state_change; [done|]. intros ch.
  apply keeps_bind; [apply keeps_sync_path_state|intros _].
  apply keeps_bind; [by apply keeps_wake_tcp|auto with porter].
Qed.

Lemma tcp_await_ok turn k : (k < POTR_MAX_PATH)%nat -> keeps (good g SlotCtx) (tcp_await turn k).
Proof.
  intros Hk. apply keeps_get_cfg_bind. destruct (_ && _); [|apply keeps_ret].
  destruct (negb _); [apply keeps_ret|]. destruct (tt_poll turn); [apply keeps_ret| |apply keeps_ret].
  by apply tcp_idle_ok.
Qed.

(** What the accept thread leaves for the receive thread: nothing, or one
    frame. *)
Definition read_ahead (first : list Z) : Prop :=
  first = [] \/ exists len, tcp_read_frame g first = Some (first, len, []).

Definition frame_ok (r : tcp_verdict * (list Z * nat * list Z)) : Prop :=
  let '(_, (buf, len, rest)) := r in
  Forall is_byte rest /\
  (r.1 = TcpRead -> Forall is_byte buf /\ length buf = (POTR_PACKET_HEADER_SIZE + len)%nat /\
     (len <= Z.to_nat (max_payload_cfg (x_global g)))%nat).

Lemma tcp_next_frame_ok turn k first stream :
  (k < POTR_MAX_PATH)%nat -> read_ahead first -> Forall is_byte first -> Forall is_byte stream ->
  triple (good g SlotCtx) (tcp_next_frame turn k first stream)
    (fun r w _ => good g SlotCtx w /\ frame_ok r).
Proof.
  intros Hk Hfst Hbf Hbs. unfold tcp_next_frame. destruct first as [|b first].
  - eapply triple_seq; [by apply tcp_await_ok|]. intros v. apply triple_get_cfg_bind.
    assert (Hstop : forall v, v <> TcpRead -> frame_ok (v, ([], O, stream))) by done.
    destruct v; [by apply triple_ret; auto..|].
    destruct (tcp_read_frame g stream) as [[[buf len] rest]|] eqn:Hfr;
      [|apply triple_ret; split; [done|by apply Hstop]].
    destruct (tcp_read_frame_spec _ _ _ _ Hbs Hfr) as (-> & Hl & Hmax).
    apply Forall_app in Hbs as [? ?]. by apply triple_ret.
  - destruct Hfst as [|[len Hfr]]; [done|].
    destruct (tcp_read_frame_spec _ _ _ _ Hbf Hfr) as (_ & Hl & Hmax).
    unfold tcp_read_frame in Hfr.
    destruct (mem_read (b :: first) 0 _) as [hdr|] eqn:Hh; [|done]. cbn [mbind option_bind] in Hfr.
    destruct (mem_read hdr 34 2) as [wpl|] eqn:Hw; [|done]. cbn [mbind option_bind] in Hfr.
    intros w Hgood. rewrite (lift_bind _ _ _ _ (mem_read_prefix _ _ _ _ _ _ Hh Hw)).
    destruct (_ <? _) in Hfr; [done|]. destruct (mem_read _ _ _) in Hfr; [|done].
    cbn [mbind option_bind] in Hfr. injection Hfr as _ Hlen _. rewrite Hlen. by eexists _, _, _.
Qed.

Lemma tcp_recv_loop_ok turns k first stream :
  Forall is_byte first -> Forall is_byte stream -> read_ahead first -> (k < POTR_MAX_PATH)%nat ->
  keeps (good g SlotCtx) (tcp_recv_loop turns k first stream).
Proof.
  revert first stream. induction turns as [|turn turns IH]; intros first stream Hbf Hbs Hfst Hk;
    [apply keeps_ret|]. cbn [tcp_recv_loop]. destruct (negb _); [apply keeps_ret|].
  apply keeps_get_ctx_bind. intros x Hx _ _.
  destruct (lookup_lt_is_Some_2 (x_tcp_conn_fd x) k) as [fd Hfd]; [by rewrite (xo_fd _ Hx)|].
  apply (keeps_lift_bind _ _ _ _ Hfd). destruct (negb fd); [apply keeps_ret|].
  eapply triple_seq; [by apply tcp_next_frame_ok|]. intros [v [[buf len] rest]].
  intros w [Hw [Hbr Hfr]]. revert w Hw.
  match goal with |- forall w, _ -> exists a w' es, ?m w = _ /\ _ =>
    change (keeps (good g SlotCtx) m) end.
  destruct v; [apply keeps_ret|by apply IH; try left|].
  destruct (Hfr eq_refl) as (Hbb & Hl & Hmax).
  apply keeps_bind; [destruct (tt_running_read turn); [by apply tcp_handle_packet_ok|apply keeps_ret]|].
  intros r. destruct (negb _); [apply keeps_ret|]. by apply IH; try left.
Qed.
End TcpOk.

(** C10. No byte stream can break the TCP receive path: for a well-formed
    context, every sequence of bytes arriving on a connection, every packet
    the accept thread read ahead, and every schedule of polls, timeouts and stop
    requests, the receive loop frames and handles what arrives without a
    fault, and the context is well-formed afterwards. *)
Theorem tcp_stream_never_faults `{CplatByteorder} `{Platform} `{!PlatformLaws} x t turns k first stream :
  ctx_ok x -> Forall is_byte first -> Forall is_byte stream -> read_ahead (x_cfg x) first ->
  (k < POTR_MAX_PATH)%nat ->
  exists rest x' t' es,
    tcp_recv_loop turns k first stream (World x t) = Some (rest, World x' t', es) /\
    ctx_ok x' /\ x_cfg x' = x_cfg x.
Proof.
  intros Hx Hbf Hb Hf Hk.
  destruct (tcp_recv_loop_ok (x_cfg x) (xo_cfg _ Hx) turns k first stream Hbf Hb Hf Hk (World x t))
    as (rest & [x' t'] & es & Hr & [[Hx' Hg'] _]); [split; [by split|by eexists]|].
  by exists rest, x', t', es.
Qed.

Definition example_first : list Z :=
  documented_layout (SessionHdr 10 5 7 0) 3 0 POTR_FLAG_PING 4 ++ [1; 1; 1; 1].

Definition example_stream : list Z :=
  documented_layout (SessionHdr 10 5 7 0) 3 0 POTR_FLAG_DATA 9 ++ [0; 0; 0; 0; 0; 3; 65; 66; 67] ++
  [255; 255].

Definition example_tcp_turns : list tcp_turn :=
  [TcpTurn true TcpPollReadable true true; TcpTurn true TcpPollIdle true true;
   TcpTurn true TcpPollReadable true true; TcpTurn true TcpPollReadable true true].

Lemma tcp_stream_never_faults_witness :
  exists rest x' t' es, @tcp_recv_loop little_host toy_platform example_tcp_turns 1
      example_first example_stream (World (example_ctx POTR_TYPE_TCP false) 0)
      = Some (rest, World x' t', es) /\
    @ctx_ok little_host x' /\ x_cfg x' = example_config POTR_TYPE_TCP false.
Proof.
  apply (@tcp_stream_never_faults little_host toy_platform toy_laws);
    [apply example_ctx_ok | apply forallb_is_byte; reflexivity.. | | unfold POTR_MAX_PATH; lia].
  right. exists 4%nat. vm_compute. reflexivity.
Defined.
