(* ===== verification/Frame.v ===== *)
(** What the packet handlers leave alone: configuration, sockets, connections,
    threads and the state of the TCP link.  These belong to the threads that
    open, connect and close. *)

From stdpp Require Import base list numbers option.
From Stdlib Require Import ZArith Lia ZifyBool.
From S2P Require Import Prelude Types Packet Window SendQueue Context PathEvent Validate.
From S2P Require Import PeerTable RecvSlot Session Fin RecvWindow HealthThread Send Dispatch RecvThread.
Local Open Scope Z_scope.
Local Open Scope porter_scope.

Definition core (x : potr_context)
    : service_config * list bool * list bool * list bool * tcp_link_state * runtime :=
  (x_cfg x, x_sock x, x_tcp_conn_fd x, x_health_running x, x_tcp_link x, x_rt x).

(** From a context where [f] is [v], [m] ends, if it does, in one where it
    still is. *)
Definition frame {T A} (f : potr_context -> T) (v : T) (m : M A) : Prop :=
  forall w a w' es, f (w_ctx w) = v -> m w = Some (a, w', es) -> f (w_ctx w') = v.

Lemma frame_ret {T A} (f : potr_context -> T) v (a : A) : frame f v (mret a).
Proof. intros w b w' es Hv [= <- <- <-]. done. Qed.

Lemma frame_fault {T A} (f : potr_context -> T) v : frame f v (@fault A).
Proof. intros w b w' es Hv [=]. Qed.

Lemma frame_bind {T A B} (f : potr_context -> T) v (m : M A) (k : A -> M B) :
  frame f v m -> (forall a, frame f v (k a)) -> frame f v (m ≫= k).
Proof.
  intros Hm Hk w b w' es Hv. unfold mbind, M_bind.
  destruct (m w) as [[[a w1] e1]|] eqn:H1; [|done].
  destruct (k a w1) as [[[b' w2] e2]|] eqn:H2; [|done]. intros [= <- <- <-].
  eapply Hk; [|exact H2]. by eapply Hm.
Qed.

Lemma frame_get_ctx {T B} (f : potr_context -> T) v (k : potr_context -> M B) :
  (forall x, f x = v -> frame f v (k x)) -> frame f v (get_ctx ≫= k).
Proof. intros Hk w b w' es Hv. rewrite get_ctx_bind. by apply Hk. Qed.

Lemma frame_put_ctx {T} (f : potr_context -> T) v x : f x = v -> frame f v (put_ctx x).
Proof. intros Hx w b w' es _ [= <- <- <-]. done. Qed.

Lemma frame_emit {T} (f : potr_context -> T) v e : frame f v (emit e).
Proof. intros w b w' es Hv [= <- <- <-]. done. Qed.

Lemma frame_tick {T A} (f : potr_context -> T) v (g : nat -> A) : frame f v (tick g).
Proof. intros w b w' es Hv [= <- <- <-]. done. Qed.

Lemma frame_lift {T A} (f : potr_context -> T) v (o : option A) : frame f v (lift o).
Proof. intros w b w' es Hv. unfold lift. destruct o; [|done]. intros [= <- <- <-]. done. Qed.

Lemma frame_when {T} (f : potr_context -> T) v b m : frame f v m -> frame f v (when b m).
Proof. intros Hm. destruct b; [done|apply frame_ret]. Qed.

Lemma frame_for {T} (f : potr_context -> T) v body n : forall a, (forall k, frame f v (body k)) -> frame f v (for_range a n body).
Proof.
  induction n as [|n IH]; intros a Hb; [apply frame_ret|]. cbn [for_range].
  apply frame_bind; [apply Hb|]. intros _. by apply IH.
Qed.

Lemma frame_for_each {T A} (f : potr_context -> T) v (l : list A) g : (forall a, frame f v (g a)) -> frame f v (for_each l g).
Proof.
  intros Hf. induction l as [|a l IH]; [apply frame_ret|]. cbn [for_each].
  apply frame_bind; [apply Hf|done].
Qed.

Create HintDb frames discriminated.
#[export] Hint Resolve frame_ret frame_fault frame_emit frame_tick frame_lift frame_when : frames.
#[export] Hint Extern 1 (frame _ _ (put_ctx _)) => (apply frame_put_ctx; assumption) : frames.

(** Unfold a handler down to its calls, case by case. *)
Ltac head_of t := lazymatch t with ?f _ => head_of f | _ => t end.
Ltac frame_step :=
  match goal with
  | |- frame _ _ (get_ctx ≫= _) => apply frame_get_ctx; intros ? ?
  | |- frame _ _ (_ ≫= _) => apply frame_bind; [|intros ?]
  | |- frame _ _ (when _ _) => apply frame_when
  | |- frame _ _ (for_range _ _ _) => apply frame_for; intros ?
  | |- frame _ _ (for_each _ _) => apply frame_for_each; intros ?
  | |- frame _ _ (if ?b then _ else _) => destruct b
  | |- frame _ _ (match ?o with _ => _ end) => destruct o
  | |- frame _ _ (let _ := _ in _) => cbv zeta
  | |- frame _ _ ?m => let h := head_of m in unfold h
  end.
Ltac frames := repeat first [solve [eauto with frames] | frame_step].

Section Handlers.
Context `{CplatByteorder} `{Platform}.
Context (v : service_config * list bool * list bool * list bool * tcp_link_state * runtime).

Lemma frame_put_peer i p : frame core v (put_peer i p).
Proof. frames. Qed.
Lemma frame_put_conn s c : frame core v (put_conn s c).
Proof. frames. Qed.
#[local] Hint Resolve frame_put_peer frame_put_conn : frames.

Lemma frame_emit_changed pid st ch : frame core v (emit_changed pid st ch).
Proof. induction ch as [|[k e] ch IH]; cbn [emit_changed]; frames. Qed.

Lemma frame_tcp_send_loop n wire : forall i a b, frame core v (tcp_send_loop i n wire a b).
Proof. induction n as [|n IH]; intros i a b; cbn [tcp_send_loop]; frames. Qed.

#[local] Hint Resolve frame_emit_changed frame_tcp_send_loop : frames.

Lemma frame_deliver_packet s pkt : frame core v (deliver_packet s pkt).
Proof. unfold deliver_packet. frames. Qed.
#[local] Hint Resolve frame_deliver_packet : frames.

Lemma frame_drain_loop fuel b s : frame core v (drain_loop fuel b s).
Proof. induction fuel as [|fuel IH]; cbn [drain_loop]; frames. Qed.

Lemma frame_scan_loop fuel s target : forall q, frame core v (scan_loop fuel s target q).
Proof. induction fuel as [|fuel IH]; intros q; cbn [scan_loop]; frames. Qed.

Lemma frame_check_peer_paths now i n : forall k b, frame core v (check_peer_paths now i k n b).
Proof. induction n as [|n IH]; intros k b; cbn [check_peer_paths]; frames. Qed.
#[local] Hint Resolve frame_drain_loop frame_scan_loop frame_check_peer_paths : frames.

Lemma frame_check_peers_loop now n : forall i b, frame core v (check_peers_loop now i n b).
Proof. induction n as [|n IH]; intros i b; cbn [check_peers_loop]; frames. Qed.

Lemma frame_check_service_paths now n : forall k b, frame core v (check_service_paths now k n b).
Proof. induction n as [|n IH]; intros k b; cbn [check_service_paths]; frames. Qed.
#[local] Hint Resolve frame_check_peers_loop frame_check_service_paths : frames.

Lemma frame_ping_sends n dests wire : forall k b, frame core v (ping_sends k n dests wire b).
Proof. induction n as [|n IH]; intros k b; cbn [ping_sends]; frames. Qed.
#[local] Hint Resolve frame_ping_sends : frames.

(** Packets and idle turns of the receive threads. *)
Lemma frame_recv_turn inputs : frame core v (recv_thread_turn inputs).
Proof. frames. Qed.

Lemma frame_tcp_recv_loop turns k : forall first stream, frame core v (tcp_recv_loop turns k first stream).
Proof. induction turns as [|turn turns IH]; intros first stream; cbn [tcp_recv_loop]; frames. Qed.

(** Turns of the send thread and PING rounds. *)
Lemma frame_send_turn q arrivals : frame core v (send_thread_turn q arrivals).
Proof. frames. Qed.

Lemma frame_ping_round : frame core v health_ping_round.
Proof. frames. Qed.
End Handlers.
