(* ===== verification/Delivery.v ===== *)
(** From the sender's queue to the receiver's callback: what the receive
    handlers deliver, in which order, and what a connection end to end
    guarantees. *)

From stdpp Require Import base list numbers option.
From Stdlib Require Import ZArith Lia ZifyBool.
From S2P Require Import Prelude Types Packet Window SendQueue Context PathEvent Validate.
From S2P Require Import PeerTable RecvSlot Session Fin RecvWindow HealthThread Send.
From S2P Require Import SendTurn Dispatch RecvThread.
Local Open Scope Z_scope.
Local Open Scope porter_scope.

(** ** Draining the window *)

Section Drain.
Context `{CplatByteorder} `{Platform}.

(** The callbacks for a sequence of messages. *)
Definition delivered (g : service_config) (pid : Z) (msgs : list (list Z * bool)) : list effect :=
  concat (map (fun m => deliver_effects g pid (Some m)) msgs).

Lemma delivered_app g pid a b : delivered g pid (a ++ b) = delivered g pid a ++ delivered g pid b.
Proof. unfold delivered. by rewrite map_app, concat_app. Qed.

Lemma delivered_option g pid o : deliver_effects g pid o = delivered g pid (option_list o).
Proof. destruct o; [|done]. symmetry. apply app_nil_r. Qed.

Definition max_msg (x : potr_context) : nat := Z.to_nat (max_message_size (x_global (x_cfg x))).

Lemma elems_run s qs x t c pid :
  ctx_ok x -> slot_conn x s = Some c -> (forall t, slot_peer_id s (World x t) = Some (pid, World x t, [])) ->
  health_alive (c_health c) = true -> Forall packet_readable qs ->
  exists f', frag_ok (x_cfg x) f' /\
    let '(st, msgs) := reasm_all (max_msg x) (frag_view (c_frag c)) (map elem_content qs) in
    for_each qs (thread_recv_slot_deliver_payload_elem s) (World x t)
    = Some (tt, World (with_conn x s (set_frag c f')) t, delivered (x_cfg x) pid msgs) /\
    frag_view f' = st.
Proof.
  revert x c. induction qs as [|q qs IH]; intros x c Hx Hs Hid Hal Hq.
  - exists (c_frag c). split; [by apply (ok_frag _ _ (slot_conn_ok _ _ _ Hx Hs))|].
    cbn [map reasm_all for_each]. assert (set_frag c (c_frag c) = c) as -> by by destruct c.
    by rewrite with_conn_same.
  - apply Forall_cons_1 in Hq as [(Hl & bs & Hbs & _ & Hle) Hq]. cbn [for_each map].
    destruct (deliver_elem_run s q bs (World x t) c pid Hx Hs (Hid t) Hbs Hle) as (f1 & es1 & H1 & Hf1 & Hr1).
    rewrite Hal in Hr1. cbn [w_ctx w_tick] in *. destruct Hr1 as [Hv1 He1].
    assert (ctx_ok (with_conn x s (set_frag c f1))) as Hx1.
    { eapply with_conn_ok; [done..|]. pose proof (slot_conn_ok _ _ _ Hx Hs) as Hc. conn_solve. }
    destruct (IH (with_conn x s (set_frag c f1)) (set_frag c f1) Hx1) as (f' & Hf' & Hrest);
      [by eapply slot_conn_with|intros t'; by eapply slot_peer_id_with|done|done|].
    unfold max_msg in *. rewrite with_conn_cfg in *. exists f'. split; [done|].
    cbn [c_frag set_frag] in Hrest. rewrite Hv1 in Hrest. unfold elem_content at 1. cbn [reasm_all].
    rewrite Hbs. cbn [default from_option id]. unfold id in *.
    destruct (reasm _ _ _ _) as [st1 o1]. cbn [fst snd] in *.
    destruct (reasm_all _ st1 _) as [st msgs]. destruct Hrest as [Hrun Hview]. split; [|done].
    rewrite (bind_run _ _ _ _ _ _ H1), Hrun. rewrite (with_conn_twice _ _ _ _ _ Hs).
    by rewrite delivered_app, <- delivered_option, He1.
Qed.

(** A packet of the window whose payload is the elements [es]. *)
Definition carries (c : potr_packet (list Z)) (es : list (Z * list Z)) : Prop :=
  Forall elem_ok es /\ pkt_payload c = concat (map elem_bytes es) /\
  pkt_payload_len c = Z.of_nat (length (concat (map elem_bytes es))).

Lemma deliver_packet_run s (p : packet) bs es x t c pid :
  ctx_ok x -> slot_conn x s = Some c -> (forall t, slot_peer_id s (World x t) = Some (pid, World x t, [])) ->
  health_alive (c_health c) = true -> pkt_payload p = Some bs ->
  carries (content Z.to_nat p) es -> slot_bytes (Some (content Z.to_nat p)) ->
  exists f', frag_ok (x_cfg x) f' /\
    let '(st, msgs) := reasm_all (max_msg x) (frag_view (c_frag c)) es in
    deliver_packet s p (World x t)
    = Some (tt, World (with_conn x s (set_frag c f')) t, delivered (x_cfg x) pid msgs) /\
    frag_view f' = st.
Proof.
  intros Hx Hs Hid Hal Hbs (Hok & Htk & Hlen) [Hby Hmax].
  cbn [content with_payload pkt_payload pkt_payload_len] in *. rewrite Hbs in *.
  change (default [] (Some bs)) with bs in *.
  assert (Z.to_nat (pkt_payload_len p) <= length bs)%nat as Hle.
  { apply (f_equal length) in Htk. rewrite length_take in Htk. lia. }
  assert (packet_readable p) as Hrd.
  { split; [done|]. by exists bs. }
  destruct (unpack_loop_elems p es [] (drop (Z.to_nat (pkt_payload_len p)) bs)
    (S (Z.to_nat (pkt_payload_len p))) Hok) as (qs & Hun & Hqs).
  { cbn [app]. by rewrite <- Htk, take_drop. }
  { done. }
  { lia. }
  destruct (unpack_loop_total p (S (Z.to_nat (pkt_payload_len p))) 0 Hrd) as (qs' & Hun' & Hall);
    [lia..|].
  cbn [length] in Hun. rewrite Hun in Hun'. injection Hun' as <-.
  destruct (elems_run s qs x t c pid Hx Hs Hid Hal Hall) as (f' & Hf' & Hrun).
  exists f'. split; [done|]. rewrite Hqs in Hrun. destruct (reasm_all _ _ _) as [st msgs].
  destruct Hrun as [Hrun Hv]. split; [|done].
  unfold deliver_packet, unpack_elems. by rewrite (lift_bind _ _ _ _ Hun).
Qed.

Definition is_ping (c : potr_packet (list Z)) : bool := pkt_flags c has POTR_FLAG_PING.

(** The state a drain leaves: the window moved by [n], and the fragments. *)
Definition drained (c : conn) (W : potr_internal_window) (f : frag_state) : conn :=
  set_frag (set_recv_window c W) f.

(** Draining takes the run of packets that is ready, in sequence, and hands
    over the messages its elements make up, in order. *)
Lemma drain_loop_run skip s fuel x t c pid slots ess :
  ctx_ok x -> slot_conn x s = Some c -> (forall t, slot_peer_id s (World x t) = Some (pid, World x t, [])) ->
  health_alive (c_health c) = true -> recv_repr (c_recv_window c) slots -> Forall slot_bytes slots ->
  (length (ready slots) < fuel)%nat -> Forall2 carries (ready slots) ess ->
  Forall (fun p => skip && is_ping p = false) (ready slots) ->
  exists W f, let n := length (ready slots) in
    win_dims (x_cfg x) W /\ win_base_seq W = win_base_seq (c_recv_window c) ⊕ Z.of_nat n /\
    recv_repr W (drop n slots ++ replicate n None) /\ frag_ok (x_cfg x) f /\
    let '(st, msgs) := reasm_all (max_msg x) (frag_view (c_frag c)) (concat ess) in
    drain_loop fuel skip s (World x t)
    = Some (tt, World (with_conn x s (drained c W f)) t, delivered (x_cfg x) pid msgs) /\
    frag_view f = st.
Proof.
  revert x c slots ess. induction fuel as [|fuel IH];
    intros x c slots ess Hx Hs Hid Hal Hr Hb Hf Hess Hping; [lia|].
  cbn [drain_loop]. rewrite (get_conn_bind _ _ _ _ _ Hs).
  pose proof (slot_conn_ok _ _ _ Hx Hs) as Hc. pose proof (ok_recv _ _ Hc) as (Hd & _).
  destruct (recv_slots_cons _ _ Hr) as (o & sl & ->). pose proof Hb as Hb0.
  apply Forall_cons_1 in Hb as [Ho Hb]. pose proof (recv_pop_spec _ _ _ Hr) as Hpop.
  destruct o as [pc|].
  2: { rewrite (lift_bind _ _ _ _ Hpop), (put_conn_bind _ _ _ _ _ _ Hs). cbn [ready] in *.
    apply Forall2_nil_inv_l in Hess as ->. exists (c_recv_window c), (c_frag c).
    cbn [length drop replicate concat reasm_all]. rewrite app_nil_r.
    split; [done|]. split; [|split; [done|]].
    { destruct (recv_repr_shape _ _ Hr) as (ps & vs & pool & [] & _). by rewrite Z.add_0_r, u32_small. }
    split; [by apply (ok_frag _ _ Hc)|]. split; [|done].
    assert (drained c (c_recv_window c) (c_frag c) = set_recv_window c (c_recv_window c)) as ->
      by by destruct c. done. }
  destruct Hpop as (W1 & p & Hpop & Hpc & (bs & Hbs & Hle) & Hb1 & Hw1 & Hm1 & Hr1).
  cbn [ready] in *. apply Forall2_cons_inv_l in Hess as (es & ess' & Hes & Hess & ->).
  apply Forall_cons_1 in Hping as [Hnp Hping].
  rewrite (lift_bind _ _ _ _ Hpop), (put_conn_bind _ _ _ _ _ _ Hs). cbn [Z.eqb POTR_OK].
  assert (is_ping pc = (pkt_flags p has POTR_FLAG_PING)) as <- by by rewrite <- Hpc.
  rewrite Hnp. set (x1 := with_conn x s (set_recv_window c W1)).
  assert (Forall slot_bytes (sl ++ [None])) as Hbs1 by (apply Forall_app; split; [done|by constructor]).
  assert (ctx_ok x1) as Hx1.
  { eapply with_conn_ok; [done..|]. conn_solve. split; [destruct Hd; split; congruence|].
    by exists (sl ++ [None]). }
  assert (slot_conn x1 s = Some (set_recv_window c W1)) as Hs1 by by eapply slot_conn_with.
  assert (forall t, slot_peer_id s (World x1 t) = Some (pid, World x1 t, [])) as Hid1
    by (intros t'; by eapply slot_peer_id_with).
  destruct (deliver_packet_run s p bs es x1 t _ pid Hx1 Hs1 Hid1 Hal Hbs) as (f1 & Hf1 & Hrun1);
    [by rewrite Hpc..|].
  assert (x_cfg x1 = x_cfg x) as Hcfg1 by apply with_conn_cfg.
  unfold max_msg in Hrun1. rewrite Hcfg1 in Hrun1, Hf1.
  cbn [c_frag set_recv_window concat] in *. rewrite reasm_all_app.
  destruct (reasm_all _ (frag_view (c_frag c)) es) as [st1 m1] eqn:Hre1. destruct Hrun1 as [Hrun1 Hv1].
  rewrite (bind_run _ _ _ _ _ _ Hrun1). unfold x1 at 1. rewrite (with_conn_twice _ _ _ _ _ Hs).
  set (c2 := set_frag (set_recv_window c W1) f1).
  destruct (IH (with_conn x s c2) c2 (sl ++ [None]) ess') as (W & f & Hd' & Hbase & Hrr & Hfo & Hrest);
    rewrite ?ready_app_None; try done; [..|cbn [length] in Hf; lia|].
  { eapply with_conn_ok; [done..|]. pose proof (slot_conn_ok _ _ _ Hx1 Hs1) as Hc1.
    rewrite Hcfg1 in Hc1. subst c2. conn_solve. }
  { by eapply slot_conn_with. }
  { intros t'. by eapply slot_peer_id_with. }
  unfold max_msg in *. rewrite with_conn_cfg in Hd', Hfo, Hrest. rewrite ?ready_app_None in Hbase, Hrr.
  exists W, f. cbn [length drop]. split; [done|]. split; [|split; [|split; [done|]]].
  - rewrite Hbase. cbn [c2 c_recv_window set_frag set_recv_window]. rewrite Hb1, u32_add_l. f_equal. lia.
  - rewrite (drop_app_le (A:=option (potr_packet (list Z)))), <- app_assoc in Hrr by apply ready_length. exact Hrr.
  - cbn [c2 c_frag set_frag] in Hrest. rewrite Hv1 in Hrest.
    destruct (reasm_all _ st1 _) as [st2 m2]. destruct Hrest as [Hrun2 Hv2]. split; [|done].
    rewrite Hrun2, delivered_app. by rewrite (with_conn_twice _ _ _ _ _ Hs).
Qed.
End Drain.

(** ** One data packet on a TCP connection *)

Section TcpDelivery.
Context `{CplatByteorder} `{Platform} `{!PlatformLaws}.

(** The receiver follows the session of [h], expects [seq] next, and has
    collected [st] of a message. *)
Record expects (x : potr_context) (h : session_hdr) (seq : Z) (st : list Z * bool) : Prop := {
  ex_ok : ctx_ok x;
  ex_session : followed (x_conn x) = Some (pkt_session (data_packet h seq []));
  ex_window : recv_repr (c_recv_window (x_conn x))
    (replicate (Z.to_nat (win_window_size (c_recv_window (x_conn x)))) None);
  ex_seq : win_base_seq (c_recv_window (x_conn x)) = seq;
  ex_alive : health_alive (c_health (x_conn x)) = true;
  ex_fin : pending_fin (c_fin (x_conn x)) = false;
  ex_frag : frag_view (c_frag (x_conn x)) = st;
  ex_accepted : tcp_session_accepted x (data_packet h seq []) = true
}.

Lemma newer_self p : newer p p = false.
Proof.
  unfold newer. rewrite (proj2 (timespec_cmp_eq p.1 p.1) eq_refl), Z.ltb_irrefl. cbn.
  apply Z.ltb_irrefl.
Qed.

(** A packet of the session already followed is taken as it is. *)
Lemma adopt_same x t s c pkt :
  ctx_ok x -> slot_conn x s = Some c -> packet_ranges pkt -> followed c = Some (pkt_session pkt) ->
  exists t', thread_recv_session_adopt s pkt (World x t) = Some (true, World x t', []).
Proof.
  intros Hx Hs Hp Hf. destruct (session_adopt_run x t s c pkt Hx Hs Hp)
    as (b & c' & t' & Hr & _ & _ & Hb & Hc'). rewrite Hf in Hb, Hc'. unfold newest in Hb.
  rewrite newer_self in Hb, Hc'. rewrite bool_decide_eq_true_2 in Hb by done. subst b c'.
  rewrite with_conn_same in Hr by done. by exists t'.
Qed.

(** Pushing the packet that is expected into an empty window. *)
Lemma push_expected W p n :
  recv_repr W (replicate n None) -> (0 < n)%nat -> win_window_size W = Z.of_nat n ->
  storable Z.to_nat (win_max_payload W) p -> pkt_seq_num p = win_base_seq W ->
  exists W', window_recv_push W p = Some (POTR_OK, W') /\ same_ctl W W' /\
    recv_repr W' (Some (content Z.to_nat p) :: replicate (n - 1) None).
Proof.
  intros Hr Hn Hws Hst Hseq. destruct (recv_repr_shape _ _ Hr) as (ps & vs & pool & [] & _).
  destruct (recv_push_spec W _ p Hr Hst) as (rc & W' & Hp & Hctl & Hres); [by rewrite Hseq|].
  rewrite Hseq, u32_self in Hres. rewrite (proj2 (Z.ltb_lt _ _)) in Hres by lia.
  destruct Hres as [-> Hr']. exists W'. split; [done|]. split; [done|].
  destruct n as [|n]; [lia|]. cbn [replicate Nat.sub]. rewrite Nat.sub_0_r. exact Hr'.
Qed.

Lemma data_packet_ok g h seq packed :
  cfg_ok g -> session_hdr_ranges h -> 0 <= seq < 4294967296 -> Forall is_byte packed ->
  Z.of_nat (length packed) <= max_payload_cfg (x_global g) -> pkt_ok g (data_packet h seq packed).
Proof.
  intros Hg [] Hseq Hb Hl. pose proof (co_payload _ Hg). unfold POTR_MAX_PAYLOAD in *. split.
  - split; cbn [data_packet pkt_service_id pkt_session_tv_sec pkt_session_id pkt_session_tv_nsec
      pkt_seq_num pkt_ack_num pkt_flags pkt_payload_len pkt_protocol_version]; try done;
      unfold POTR_FLAG_DATA, POTR_PROTOCOL_VERSION; lia.
  - done.
  - cbn [data_packet pkt_payload pkt_payload_len]. split; [done|]. lia.
Qed.

Lemma data_packet_content g h seq es :
  cfg_ok g -> Forall elem_ok es ->
  let packed := concat (map elem_bytes es) in
  Forall is_byte packed -> Z.of_nat (length packed) <= max_payload_cfg (x_global g) ->
  carries (content Z.to_nat (data_packet h seq packed)) es /\
  slot_bytes (Some (content Z.to_nat (data_packet h seq packed))) /\
  storable Z.to_nat (max_payload_cfg (x_global g)) (data_packet h seq packed).
Proof.
  intros Hg Hes packed Hb Hl. pose proof (co_payload _ Hg).
  assert (take (Z.to_nat (Z.of_nat (length packed))) packed = packed) as Htk
    by (rewrite Nat2Z.id; apply firstn_all).
  unfold content, carries, slot_bytes, storable.
  cbn [data_packet with_payload pkt_payload pkt_payload_len default from_option id]. unfold id.
  rewrite Htk. split_and!; done || lia.
Qed.

(** The state after the window is pushed and drained. *)
Lemma expects_next x h seq st c' W f st' :
  expects x h seq st -> c' = drained (x_conn x) W f ->
  win_dims (x_cfg x) W -> win_base_seq W = seq ⊕ 1 ->
  recv_repr W (replicate (Z.to_nat (win_window_size W)) None) ->
  frag_ok (x_cfg x) f -> frag_view f = st' -> expects (set_x_conn x c') h (seq ⊕ 1) st'.
Proof.
  intros [] -> Hd Hb Hr Hf Hv. split; try done.
  change (ctx_ok (with_conn x SlotCtx (drained (x_conn x) W f))).
  eapply with_conn_ok; [done|reflexivity|]. pose proof (xo_conn _ ex_ok0) as Hc. unfold drained. conn_solve.
  split; [done|]. eexists. split; [exact Hr|apply slot_bytes_empty].
Qed.

Lemma ready_single c n : ready (Some c :: replicate n None) = [c].
Proof. by destruct n. Qed.

Lemma tcp_on_data_run x t h seq st es :
  let packed := concat (map elem_bytes es) in
  expects x h seq st -> session_hdr_ranges h -> 0 <= seq < 4294967296 ->
  Forall elem_ok es -> Forall is_byte packed ->
  Z.of_nat (length packed) <= max_payload_cfg (x_global (x_cfg x)) ->
  let '(st', msgs) := reasm_all (max_msg x) st es in
  exists c' t', tcp_on_data (data_packet h seq packed) (World x t)
    = Some (tt, World (set_x_conn x c') t', delivered (x_cfg x) POTR_PEER_NA msgs) /\
    expects (set_x_conn x c') h (seq ⊕ 1) st'.
Proof.
  intros packed He Hh Hseq Hes Hb Hl. pose proof He as [Hx Hses Hwin Hsq Hal Hfin Hfr _].
  set (g := x_cfg x) in *. pose proof (xo_cfg _ Hx) as Hg. fold g in Hg.
  pose proof (data_packet_ok g h seq packed Hg Hh Hseq Hb Hl) as Hpk.
  destruct (data_packet_content g h seq es Hg Hes Hb Hl) as (Hcar & Hsb & Hst).
  destruct (adopt_same x t SlotCtx (x_conn x) (data_packet h seq packed) Hx eq_refl (pk_ranges _ _ Hpk) Hses)
    as [t1 Had].
  pose proof (ok_recv _ _ (xo_conn _ Hx)) as ([Hd1 Hd2] & _). fold g in Hd1, Hd2.
  pose proof (co_window _ Hg) as Hcw. set (W := c_recv_window (x_conn x)) in *.
  destruct (push_expected W (data_packet h seq packed) _ Hwin) as (W1 & Hpush & Hctl & Hr1);
    [lia|lia|by rewrite Hd2|done|].
  destruct Hctl as (Hc1 & Hc2 & Hc3 & Hc4 & _). set (n := Z.to_nat (win_window_size W)) in *.
  set (c1 := set_recv_window (x_conn x) W1). set (x1 := set_x_conn x c1).
  assert (Forall slot_bytes (Some (content Z.to_nat (data_packet h seq packed)) :: replicate (n - 1) None))
    as Hsbs by (constructor; [done|apply slot_bytes_empty]).
  assert (ctx_ok x1) as Hx1.
  { apply (with_conn_ok x SlotCtx c1 (x_conn x) Hx eq_refl). pose proof (xo_conn _ Hx) as Hc.
    subst c1. conn_solve. split; [split; [by rewrite Hc3|by rewrite Hc4]|]. by eexists. }
  destruct (drain_loop_run false SlotCtx (S (Z.to_nat (win_window_size W1))) x1 t1 c1 POTR_PEER_NA
    _ [es] Hx1 eq_refl (fun _ => eq_refl) Hal Hr1 Hsbs) as (W2 & f & Hd' & Hb2 & Hr2 & Hf & Hrun).
  { rewrite ready_single. cbn [length]. lia. }
  { rewrite ready_single. constructor; [exact Hcar|constructor]. }
  { by apply Forall_forall. }
  rewrite ready_single in Hb2, Hr2. cbn [length drop replicate Z.of_nat] in Hb2, Hr2.
  cbn [concat] in Hrun. rewrite app_nil_r in Hrun. unfold max_msg in Hrun |- *.
  change (x_cfg x1) with g in *. change (c_frag c1) with (c_frag (x_conn x)) in Hrun. rewrite Hfr in Hrun.
  fold g. destruct (reasm_all _ st es) as [st' msgs]. destruct Hrun as [Hrun Hv].
  exists (drained (x_conn x) W2 f), t1. split.
  - unfold tcp_on_data. rewrite (bind_run_nil _ _ _ _ _ Had). cbn [negb].
    assert (slot_recv_push SlotCtx (data_packet h seq packed) (World x t1) = Some (POTR_OK, World x1 t1, []))
      as Hps.
    { unfold slot_recv_push. rewrite (get_conn_bind x SlotCtx _ _ _ eq_refl). fold W.
      by rewrite (lift_bind _ _ _ _ Hpush), (put_conn_bind x SlotCtx _ _ _ _ eq_refl). }
    rewrite (bind_run_nil _ _ _ _ _ Hps). cbn [Z.eqb POTR_OK negb]. unfold tcp_drain.
    rewrite (get_conn_bind x1 SlotCtx c1 _ _ eq_refl). change (c_recv_window c1) with W1.
    rewrite (bind_run _ _ _ _ _ _ Hrun). rewrite (get_conn_bind (with_conn x1 SlotCtx (drained c1 W2 f)) SlotCtx (drained c1 W2 f) _ _ eq_refl).
    unfold thread_recv_fin_pending_reached. change (c_fin (drained c1 W2 f)) with (c_fin (x_conn x)).
    rewrite Hfin. cbn [andb]. unfold mret, M_ret. by rewrite app_nil_r.
  - eapply expects_next; [done|reflexivity|done| | |done|done].
    + rewrite Hb2. change (c_recv_window c1) with W1. by rewrite Hc1, Hsq.
    + replace (Z.to_nat (win_window_size W2)) with n by (unfold n; destruct Hd'; congruence).
      rewrite <- (Nat.sub_add 1 n), replicate_add by lia. exact Hr2.
Qed.

(** *** Framing *)

Lemma data_image_shape g h seq packed wire :
  cfg_ok g -> (length packed <= pack_cap g)%nat -> data_image g h seq packed = Some wire ->
  exists f body, wire = packet_header_bytes (built h seq 0 f (Z.of_nat (length body)) tt) ++ body /\
    (length body <= Z.to_nat (max_payload_cfg (x_global g)))%nat.
Proof.
  intros Hg Hl. pose proof (co_payload _ Hg). unfold pack_cap, crypto_tag_overhead in Hl. unfold data_image.
  destruct (encrypt_enabled _).
  - cbv zeta. destruct (cplat_crypto_encrypt _ _ _ _ _) as [ct|] eqn:Hct; [|done]. intros [= <-].
    destruct (encrypt_length _ _ _ _ _ _ Hct) as [Hlen _]. unfold sealed_pkt. rewrite <- Hlen.
    eexists _, ct. split; [done|]. unfold POTR_CRYPTO_TAG_SIZE in *. lia.
  - intros [= <-]. eexists _, packed. split; [done|]. lia.
Qed.

Lemma header_len_field {P} (p : potr_packet P) :
  mem_read (packet_header_bytes p) 34 2 = Some (mem_of host_endian 2 (pkt_payload_len p)).
Proof.
  unfold packet_header_bytes. do 7 (rewrite mem_read_app_skip by (rewrite !length_mem_of; lia)).
  rewrite !length_mem_of. by apply mem_read_app_hd, length_mem_of.
Qed.

Lemma tcp_read_data g g' h seq packed wire rest :
  cfg_ok g -> same_service g g' -> (length packed <= pack_cap g)%nat ->
  data_image g h seq packed = Some wire ->
  tcp_read_frame g' (wire ++ rest) = Some (wire, (length wire - POTR_PACKET_HEADER_SIZE)%nat, rest).
Proof.
  intros Hg Hsame Hl Hd. destruct (data_image_shape g h seq packed wire Hg Hl Hd) as (f & body & -> & Hb).
  pose proof (co_payload _ Hg). pose proof (same_len _ _ Hsame). unfold POTR_MAX_PAYLOAD in *.
  set (p := built h seq 0 f (Z.of_nat (length body)) tt).
  assert (length (packet_header_bytes p ++ body) = POTR_PACKET_HEADER_SIZE + length body)%nat as Hwl
    by by rewrite length_app, length_packet_header_bytes.
  unfold tcp_read_frame.
  rewrite <- app_assoc, (mem_read_app_hd (packet_header_bytes p)) by apply length_packet_header_bytes.
  cbn [mbind option_bind]. rewrite header_len_field. cbn [mbind option_bind].
  assert (cplat_ntoh16 (mem_to host_endian (mem_of host_endian 2 (pkt_payload_len p)))
    = Z.of_nat (length body)) as ->.
  { rewrite mem_to_of by (cbn [p built set_body pkt_payload_len]; apply hton16_range; lia).
    cbn [p built set_body pkt_payload_len]. apply ntoh16_hton16. lia. }
  rewrite (proj2 (Z.ltb_ge _ _)) by lia. rewrite app_assoc, Nat2Z.id.
  rewrite (mem_read_app_hd (packet_header_bytes p ++ body)) by done. cbn [mbind option_bind].
  rewrite Hwl. do 3 f_equal; [f_equal; lia|]. rewrite <- Hwl. apply drop_app_length.
Qed.

Lemma tcp_handle_data x t k g h seq st es wire :
  let packed := concat (map elem_bytes es) in
  cfg_ok g -> same_service g (x_cfg x) -> session_hdr_ranges h -> 0 <= seq < 4294967296 ->
  hdr_service_id h = service_id (x_service g) -> expects x h seq st ->
  Forall elem_ok es -> Forall is_byte packed -> (length packed <= pack_cap g)%nat ->
  data_image g h seq packed = Some wire ->
  let '(st', msgs) := reasm_all (max_msg x) st es in
  exists c' t', tcp_handle_packet wire (length wire - POTR_PACKET_HEADER_SIZE) k (World x t)
    = Some (POTR_OK, World (set_x_conn x c') t', delivered (x_cfg x) POTR_PEER_NA msgs) /\
    expects (set_x_conn x c') h (seq ⊕ 1) st'.
Proof.
  intros packed Hg Hsame Hh Hseq Hsid He Hes Hb Hl Hd. pose proof (ex_ok _ _ _ _ He) as Hx.
  destruct (data_image_accepted g (x_cfg x) h seq packed wire blank_packet Hg (xo_cfg _ Hx) Hsame Hh Hseq Hl Hd)
    as (_ & q & Hparse & Hq & Hauth).
  destruct (data_image_shape g h seq packed wire Hg Hl Hd) as (f & body & Hw & _).
  pose proof (tcp_on_data_run x t h seq st es He Hh Hseq Hes Hb) as Hrun. fold packed in Hrun.
  destruct (reasm_all _ st es) as [st' msgs]. destruct Hrun as (c' & t' & Hrun & He').
  { pose proof (pack_cap_le g). pose proof (same_len _ _ Hsame). pose proof (co_payload _ Hg). lia. }
  exists c', t'. split; [|done]. unfold tcp_handle_packet. rewrite get_ctx_bind. cbv zeta. cbn [w_ctx].
  replace (POTR_PACKET_HEADER_SIZE + (length wire - POTR_PACKET_HEADER_SIZE))%nat with (length wire)
    by (rewrite Hw, length_app, length_packet_header_bytes; lia).
  rewrite (lift_bind _ _ _ _ Hparse). cbn beta iota.
  rewrite Hq, Hsid, (same_id _ _ Hsame), !Z.eqb_refl. cbn [Z.eqb POTR_OK negb].
  rewrite (lift_bind _ _ _ _ Hauth). cbn beta iota.
  assert (tcp_session_accepted x (data_packet h seq packed) = true) as -> by apply (ex_accepted _ _ _ _ He).
  cbn [Z.eqb negb data_packet pkt_flags]. fold (data_packet h seq packed).
  change (POTR_FLAG_DATA has POTR_FLAG_FIN_ACK) with false.
  change (POTR_FLAG_DATA has POTR_FLAG_FIN) with false.
  change (POTR_FLAG_DATA has POTR_FLAG_PING) with false.
  change (POTR_FLAG_DATA has POTR_FLAG_DATA) with true.
  change (POTR_OK =? POTR_OK) with true. cbn [negb]. cbv iota.
  rewrite (bind_run _ _ _ _ _ _ Hrun). unfold mret, M_ret. by rewrite app_nil_r.
Qed.

(** *** A stream of data packets *)

(** A turn of the receive loop that finds data. *)
Definition tcp_go : tcp_turn := TcpTurn true TcpPollReadable true true.

(** The bytes of consecutive data packets, one per list of queue entries: what
    a connection carries on which no packet was skipped.  [flush_tcp] skips a
    connection whose send buffer is full; such a stream is not a [data_stream]. *)
Fixpoint data_stream (g : service_config) (h : session_hdr) (seq : Z) (pkts : list (list sq_msg))
    : option (list Z) :=
  match pkts with
  | [] => Some []
  | ms :: pkts =>
      wire ← data_image g h seq (packed_of ms);
      rest ← data_stream g h (seq ⊕ 1) pkts;
      Some (wire ++ rest)
  end.

Lemma next_frame_go x t k wire len rest stream :
  tcp_read_frame (x_cfg x) stream = Some (wire, len, rest) ->
  tcp_next_frame tcp_go k [] stream (World x t) = Some ((TcpRead, (wire, len, rest)), World x t, []).
Proof.
  intros Hr. unfold tcp_next_frame.
  assert (tcp_await tcp_go k (World x t) = Some (TcpRead, World x t, [])) as Ha.
  { unfold tcp_await. rewrite get_cfg_bind. by destruct (_ && _). }
  rewrite (bind_run_nil _ _ _ _ _ Ha), get_cfg_bind. cbn [w_ctx]. by rewrite Hr.
Qed.

Lemma packed_bytes ms g :
  Forall (msg_ok g) ms -> cfg_ok g -> Forall elem_ok (map msg_elem ms) /\ Forall is_byte (packed_of ms).
Proof.
  intros Hms Hg. pose proof (co_payload _ Hg) as Hp. induction Hms as [|[[peer f] bs] ms Hm _ [IH1 IH2]]; [done|].
  destruct Hm as (Hf & Hl & Hb). pose proof (chunk_fits g Hg _ (proj2 Hl)) as Hc. pose proof (pack_cap_le g).
  split; cbn [map].
  - constructor; [|done]. split; [done|]. cbn [msg_elem fst snd]. unfold POTR_MAX_PAYLOAD in *. lia.
  - unfold packed_of. cbn [map concat]. apply Forall_app. split; [|exact IH2].
    unfold elem_bytes. apply Forall_app. split; [apply be_encode_bytes|].
    apply Forall_app. split; [apply be_encode_bytes|done].
Qed.

Lemma tcp_loop_data x t k g h seq st pkts stream rest :
  cfg_ok g -> same_service g (x_cfg x) -> session_hdr_ranges h -> 0 <= seq < 4294967296 ->
  hdr_service_id h = service_id (x_service g) -> expects x h seq st ->
  x_tcp_conn_fd x !! k = Some true ->
  Forall (fun ms => Forall (msg_ok g) ms /\ (length (packed_of ms) <= pack_cap g)%nat) pkts ->
  data_stream g h seq pkts = Some stream ->
  let '(st', msgs) := reasm_all (max_msg x) st (map msg_elem (concat pkts)) in
  exists x' t', tcp_recv_loop (replicate (length pkts) tcp_go) k [] (stream ++ rest) (World x t)
    = Some (rest, World x' t', delivered (x_cfg x) POTR_PEER_NA msgs) /\
    expects x' h (seq ⊕ Z.of_nat (length pkts)) st'.
Proof.
  revert x t seq st stream. induction pkts as [|ms pkts IH];
    intros x t seq st stream Hg Hsame Hh Hseq Hsid He Hfd Hpk Hd.
  - injection Hd as <-. cbn [concat map reasm_all length replicate]. exists x, t. split; [done|].
    rewrite Z.add_0_r, u32_small by done. exact He.
  - apply Forall_cons_1 in Hpk as [[Hms Hl] Hpk]. cbn [data_stream] in Hd.
    destruct (data_image g h seq (packed_of ms)) as [wire|] eqn:Hw; [|done].
    destruct (data_stream g h (seq ⊕ 1) pkts) as [tl|] eqn:Htl; [|done].
    cbn [mbind option_bind] in Hd. injection Hd as <-. cbn [concat]. rewrite map_app, reasm_all_app.
    destruct (packed_bytes ms g Hms Hg) as [Hes Hb].
    pose proof (tcp_handle_data x t k g h seq st (map msg_elem ms) wire Hg Hsame Hh Hseq Hsid He Hes Hb Hl Hw)
      as Hrun.
    destruct (reasm_all _ st (map msg_elem ms)) as [st1 m1]. destruct Hrun as (c1 & t1 & Hrun & He1).
    specialize (IH (set_x_conn x c1) t1 (seq ⊕ 1) st1 tl Hg Hsame Hh (u32_range _) Hsid He1 Hfd Hpk Htl).
    unfold max_msg in *. change (x_cfg (set_x_conn x c1)) with (x_cfg x) in IH.
    destruct (reasm_all _ st1 _) as [st2 m2]. destruct IH as (x' & t' & IH & He').
    exists x', t'. split.
    + cbn [length replicate tcp_recv_loop tt_running tcp_go negb]. fold tcp_go.
      rewrite get_ctx_bind. cbn [w_ctx]. rewrite (lift_bind _ _ _ _ Hfd). cbn [negb].
      rewrite <- app_assoc.
      rewrite (bind_run_nil _ _ _ _ _ (next_frame_go x t k _ _ _ _
        (tcp_read_data g _ h seq _ wire (tl ++ rest) Hg Hsame Hl Hw))). cbn beta iota.
      cbn [tcp_go tt_running_read]. rewrite (bind_run _ _ _ _ _ _ Hrun). cbn [Z.eqb POTR_OK negb].
      rewrite IH. by rewrite delivered_app.
    + cbn [length]. rewrite u32_add_l in He'. replace (Z.of_nat (S (length pkts)))
        with (1 + Z.of_nat (length pkts)) by lia. rewrite Z.add_assoc. exact He'.
Qed.
End TcpDelivery.

(** The entries [send_to_peer] queues are fit to be packed. *)
Lemma queued_msgs_ok g peer flags ms max :
  cfg_ok g -> Forall (message_ok g) ms -> Forall (fun m => Forall is_byte m.1) ms ->
  max_message_size (x_global g) <= max ->
  exists calls, send_all g peer flags ms = Some calls /\ Forall (msg_ok g) (call_msgs calls) /\
    reasm_all (Z.to_nat max) ([], false) (map msg_elem (call_msgs calls)) = (([], false), map message_view ms).
Proof.
  intros Hg Hms Hb Hmax. destruct (send_all_spec g peer flags ms max Hg Hms Hmax)
    as (calls & Hc & _ & He & Hcat & Hre).
  exists calls. rewrite call_elems_msgs in *. split; [done|]. split; [|exact Hre].
  assert (Forall is_byte (concat (map snd (map (fun m : sq_msg => (m.1.2, m.2)) (call_msgs calls))))) as Hbs.
  { rewrite Hcat. apply Forall_concat, Forall_fmap. exact Hb. }
  clear -He Hbs. induction (call_msgs calls) as [|[[peer f] bs] l IH]; [constructor|].
  cbn [map concat snd] in Hbs. apply Forall_app in Hbs as [H1 H2]. apply Forall_cons_1 in He as [[H3 H4] H5].
  constructor; [|by apply IH]. split; [exact H3|]. split; [exact H4|exact H1].
Qed.

(** C1. Messages cross a TCP connection: whatever messages the sender submits
    (each not empty and within [max_message_size], compressed or not), however
    the send thread groups the queued elements into packets, encrypted or not,
    the bytes of those packets, read by the receive loop of the other end (same
    service, same key), produce exactly one DATA callback per message, in the
    order of submission, with the message's bytes (decompressed if it was sent
    compressed), consume the stream entirely and leave the receiver expecting
    the next packet with no fragment pending.  The stream is one on which the
    send thread skipped no packet for want of room in the send buffer. *)
Theorem tcp_messages_delivered `{CplatByteorder} `{Platform} `{!PlatformLaws}
    g ses peer flags ms calls pkts seq stream x t k :
  let h := own_session_hdr g ses in
  cfg_ok g -> session_hdr_ranges h -> 0 <= seq < 4294967296 ->
  Forall (message_ok g) ms -> Forall (fun m => Forall is_byte m.1) ms ->
  send_all g peer flags ms = Some calls -> concat pkts = call_msgs calls ->
  Forall (fun p => (length (packed_of p) <= pack_cap g)%nat) pkts ->
  data_stream g h seq pkts = Some stream ->
  same_service g (x_cfg x) -> max_message_size (x_global g) <= max_message_size (x_global (x_cfg x)) ->
  expects x h seq ([], false) -> x_tcp_conn_fd x !! k = Some true ->
  exists x' t', tcp_recv_loop (replicate (length pkts) tcp_go) k [] stream (World x t)
    = Some ([], World x' t', delivered (x_cfg x) POTR_PEER_NA (map message_view ms)) /\
    expects x' h (seq ⊕ Z.of_nat (length pkts)) ([], false).
Proof.
  intros h Hg Hh Hseq Hms Hb Hsend Hcat Hfit Hd Hsame Hmax He Hfd.
  destruct (queued_msgs_ok g peer flags ms _ Hg Hms Hb Hmax) as (calls' & Hc & Hok & Hre).
  rewrite Hsend in Hc. injection Hc as <-. rewrite <- Hcat in Hok, Hre.
  pose proof (tcp_loop_data x t k g h seq ([], false) pkts stream [] Hg Hsame Hh Hseq) as Hrun.
  unfold max_msg in Hrun. rewrite Hre, app_nil_r in Hrun.
  apply Hrun; try done.
  rewrite Forall_concat in Hok. apply Forall_forall. intros p Hp.
  rewrite Forall_forall in Hok, Hfit. auto.
Qed.

(** A receiver connected to the session 55. *)
Definition example_sender : session_state := SessionState 55 (Timespec 9 0) 0 false ts0.

Definition connected_conn : conn :=
  set_health (set_session example_conn (SessionState 77 (Timespec 1 0) 55 true (Timespec 9 0)))
    (HealthState true [true; false; false; false] [1; 0; 0; 0] [1; 0; 0; 0] (Timespec 1 0)
       (replicate 4 (Timespec 1 0))).

Definition connected_ctx (t : potr_type) (enc : bool) : potr_context :=
  set_x_conn (example_ctx t enc) connected_conn.

Lemma connected_conn_ok `{CplatByteorder} t enc : conn_ok (example_config t enc) connected_conn.
Proof. pose proof (example_conn_ok t enc) as Hc. unfold connected_conn. conn_solve. Qed.

Lemma connected_ctx_ok `{CplatByteorder} t enc : ctx_ok (connected_ctx t enc).
Proof.
  apply (with_conn_ok (example_ctx t enc) SlotCtx connected_conn example_conn);
    [apply example_ctx_ok|reflexivity|apply connected_conn_ok].
Qed.

Lemma fresh_window_recv : recv_repr (fresh_window 0) (replicate 2 None).
Proof.
  destruct (window_init_spec (true, true, true) no_window 0 2 64 _ _ ltac:(lia) ltac:(lia) ltac:(by left) eq_refl)
    as [(_ & _ & _ & _ & Hr)|(? & _)]; [exact Hr|done].
Qed.

Lemma connected_expects `{CplatByteorder} `{Platform} t enc :
  expects (connected_ctx t enc) (own_session_hdr (example_config t enc) example_sender) 0 ([], false).
Proof. split; try done; [apply connected_ctx_ok|exact fresh_window_recv]. Qed.

(** Two messages, the second in three fragments, one element per packet. *)
Definition example_messages : list message := [([1; 2; 3], 0); (replicate 90 4, 0)].
Definition example_calls : list sq_call :=
  default [] (send_all (example_config POTR_TYPE_TCP true) 0 0 example_messages).
Definition example_packets : list (list sq_msg) := map (fun m => [m]) (call_msgs example_calls).
Definition example_bytes : list Z :=
  default [] (@data_stream little_host toy_platform (example_config POTR_TYPE_TCP true)
    (own_session_hdr (example_config POTR_TYPE_TCP true) example_sender) 0 example_packets).

Lemma tcp_messages_delivered_witness :
  exists x' t', @tcp_recv_loop little_host toy_platform (replicate 4 tcp_go) 0 [] example_bytes
      (World (connected_ctx POTR_TYPE_TCP true) 0)
    = Some ([], World x' t', [EvCallback POTR_PEER_NA POTR_EVENT_DATA (CbBytes [1; 2; 3]);
                              EvCallback POTR_PEER_NA POTR_EVENT_DATA (CbBytes (replicate 90 4))]).
Proof.
  destruct (@tcp_messages_delivered little_host toy_platform toy_laws
    (example_config POTR_TYPE_TCP true) example_sender 0 0 example_messages example_calls example_packets 0
    example_bytes (connected_ctx POTR_TYPE_TCP true) 0 0) as (x' & t' & Hrun & _).
  - apply example_cfg_ok.
  - split; (split; [vm_compute; discriminate | vm_compute; reflexivity]).
  - lia.
  - repeat (apply Forall_cons_2; [split; [discriminate|split; [left; reflexivity|cbn; lia]]|]).
    apply Forall_nil_2.
  - repeat (apply Forall_cons_2; [apply forallb_is_byte; reflexivity|]). apply Forall_nil_2.
  - vm_compute. reflexivity.
  - vm_compute. reflexivity.
  - assert (forallb (fun p => (length (packed_of p) <=? 48)%nat) example_packets = true) as Hall
      by (vm_compute; reflexivity).
    apply List.Forall_forall. intros p Hp. apply Nat.leb_le. exact (proj1 (List.forallb_forall _ _) Hall p Hp).
  - vm_compute. reflexivity.
  - by split.
  - cbn. lia.
  - apply connected_expects.
  - reflexivity.
  - exists x', t'. exact Hrun.
Defined.
