(* ===== verification/UdpDelivery.v ===== *)
(** Delivery over UDP: the data packets of a session arrive on any path, in
    any order, any number of times, some of them never, and mixed with
    datagrams that the receiver refuses.  What the receiver hands to the
    application is determined by a reorder buffer over the numbers of the
    packets that arrived. *)

From stdpp Require Import base list numbers option.
From Stdlib Require Import ZArith Lia ZifyBool.
From S2P Require Import Prelude Types Packet Window SendQueue Context PathEvent Validate.
From S2P Require Import PeerTable RecvSlot Session Fin RecvWindow HealthThread Send.
From S2P Require Import SendTurn Dispatch RecvThread Delivery.
Local Open Scope Z_scope.
Local Open Scope porter_scope.

(** ** The reorder buffer over packet indices *)

(** The index of the next packet to hand over, and those accepted so far. *)
Record transit := Transit { tr_next : nat; tr_got : list nat }.

(** Pass over the packets that are there. *)
Fixpoint pass_over (fuel next : nat) (got : list nat) : nat :=
  match fuel with
  | O => next
  | S fuel => if bool_decide (next ∈ got) then pass_over fuel (S next) got else next
  end.

(** Packet [i] arrives: it is accepted when it is one of the [ws] from the next. *)
Definition arrive (ws : nat) (s : transit) (i : nat) : transit :=
  if (tr_next s <=? i)%nat && (i <? tr_next s + ws)%nat
  then Transit (pass_over ws (tr_next s) (i :: tr_got s)) (i :: tr_got s) else s.

Definition arrive_all (ws : nat) (arr : list nat) : transit := fold_left (arrive ws) arr (Transit 0 []).

Lemma pass_over_ge fuel next got : (next <= pass_over fuel next got)%nat.
Proof. revert next. induction fuel as [|fuel IH]; intros next; cbn; [lia|]. case_bool_decide; [|lia]. specialize (IH (S next)). lia. Qed.

Lemma pass_over_got fuel next got i : (next <= i < pass_over fuel next got)%nat -> i ∈ got.
Proof.
  revert next. induction fuel as [|fuel IH]; intros next; cbn [pass_over]; [lia|].
  case_bool_decide as Hin; [|lia]. intros Hi. destruct (decide (i = next)) as [->|Hne]; [done|].
  apply (IH (S next)). lia.
Qed.

Lemma pass_over_stops fuel next got :
  pass_over fuel next got ∈ got -> pass_over fuel next got = (next + fuel)%nat.
Proof.
  revert next. induction fuel as [|fuel IH]; intros next; cbn [pass_over]; [lia|].
  case_bool_decide as Hin; [|done]. intros Hi. rewrite (IH _ Hi). lia.
Qed.

(** What is handed over has arrived, and what is accepted is known. *)
Lemma arrive_all_arrived ws arr :
  let s := arrive_all ws arr in
  (forall i, i ∈ tr_got s -> i ∈ arr) /\ (forall i, (i < tr_next s)%nat -> i ∈ tr_got s) /\
  (forall i, i ∈ tr_got s -> (i < tr_next s + ws)%nat).
Proof.
  cbv zeta. induction arr as [|i arr (IH1 & IH2 & IH3)] using rev_ind.
  { cbn. split_and!; intros i Hi; [by apply not_elem_of_nil in Hi|lia|by apply not_elem_of_nil in Hi]. }
  unfold arrive_all in *. rewrite fold_left_app. cbn [fold_left].
  set (s := fold_left (arrive ws) arr (Transit 0 [])) in *. unfold arrive.
  destruct (_ && _) eqn:Hb; cbn [tr_next tr_got].
  2: { split; [|done]. intros j Hj. apply elem_of_app. left. auto. }
  pose proof (pass_over_ge ws (tr_next s) (i :: tr_got s)) as Hge. split_and!; intros j Hj.
  - apply elem_of_app. apply elem_of_cons in Hj as [->|Hj]; [right; by left|left; auto].
  - destruct (decide (j < tr_next s)%nat) as [Hlt|Hlt]; [right; auto|].
    apply (pass_over_got ws (tr_next s)). lia.
  - apply elem_of_cons in Hj as [->|Hj]; [lia|]. specialize (IH3 j Hj). lia.
Qed.

(** When the packets fit the window, exactly those before the first one that
    is missing are handed over. *)
Lemma arrive_all_missing ws arr :
  (0 < ws)%nat -> (forall i, i ∈ arr -> (i < ws)%nat) -> tr_next (arrive_all ws arr) ∉ arr.
Proof.
  intros Hws Hfit. cut ((tr_next (arrive_all ws arr) ∉ tr_got (arrive_all ws arr)) /\
    (forall i, i ∈ arr -> i ∈ tr_got (arrive_all ws arr))).
  { intros [Hn Hg] Hin. apply Hn, Hg, Hin. }
  pose proof (arrive_all_arrived ws arr) as (Ha & _). revert Hfit Ha. cbv zeta.
  induction arr as [|i arr IH] using rev_ind; intros Hfit Ha.
  { split; [apply not_elem_of_nil|]. by intros i Hi%not_elem_of_nil. }
  pose proof (arrive_all_arrived ws arr) as (Ha' & Hlt & _).
  destruct IH as [IH1 IH2]; [intros j Hj; apply Hfit, elem_of_app; by left|done|].
  unfold arrive_all in *. rewrite fold_left_app in *. cbn [fold_left] in *.
  set (s := fold_left (arrive ws) arr (Transit 0 [])) in *. unfold arrive in *.
  assert (i < ws)%nat as Hi by (apply Hfit, elem_of_app; right; by left).
  destruct (_ && _) eqn:Hb; cbn [tr_next tr_got] in *.
  - split.
    + intros Hin. pose proof (pass_over_stops _ _ _ Hin) as Hs. rewrite Hs in Hin.
      apply Ha, Hfit in Hin. lia.
    + intros j [Hj|Hj]%elem_of_app; [right; auto|]. apply list_elem_of_singleton in Hj as ->. by left.
  - split; [done|]. intros j [Hj|Hj]%elem_of_app; [auto|]. apply list_elem_of_singleton in Hj as ->.
    apply Hlt. lia.
Qed.

(** ** Steps that leave the stream alone *)

Create HintDb stream discriminated.

Definition is_data (e : effect) : bool :=
  match e with EvCallback _ POTR_EVENT_DATA _ => true | _ => false end.

(** The DATA callbacks of a trace. *)
Definition data_events (es : list effect) : list effect := List.filter is_data es.

Lemma data_events_app a b : data_events (a ++ b) = data_events a ++ data_events b.
Proof. apply List.filter_app. Qed.

Lemma data_events_delivered `{Platform} g pid msgs : data_events (delivered g pid msgs) = delivered g pid msgs.
Proof.
  induction msgs as [|[bs comp] msgs IH]; [done|]. change (delivered g pid ((bs, comp) :: msgs))
    with (deliver_effects g pid (Some (bs, comp)) ++ delivered g pid msgs).
  rewrite data_events_app, IH. f_equal. cbn [deliver_effects].
  destruct (x_callback g), comp; try done. by destruct (cplat_decompress _ _).
Qed.

Lemma path_events_no_data pid h next : data_events (path_events pid h next) = [].
Proof.
  unfold path_events. rewrite data_events_app. assert (forall st k old nxt,
    data_events (map (fun '(j, ev) => EvCallback pid ev (CbPath st j)) (changed_paths k old nxt)) = []) as ->.
  { intros st k old. revert k. induction old as [|o old IH]; intros k [|n nxt]; try done. cbn [changed_paths].
    case_bool_decide; [done|]. cbn [map data_events List.filter]. destruct n; apply IH. }
  case_bool_decide; [done|]. by destruct (any_path_alive next).
Qed.

(** What the delivery of a stream depends on. *)
Definition stream_view (c : conn) : session_state * potr_internal_window * frag_state * fin_state :=
  (c_session c, c_recv_window c, c_frag c, c_fin c).
Definition link_view (x : potr_context) :=
  (x_cfg x, x_sock x, stream_view (x_conn x), health_alive (c_health (x_conn x))).
#[local] Abbreviation view :=
  (service_config * list bool * (session_state * potr_internal_window * frag_state * fin_state) * bool)%type.

(** [m] leaves the view and makes no DATA callback, whenever it ends. *)
Definition hush {A} (v : view) (m : M A) : Prop :=
  forall w a w' es, link_view (w_ctx w) = v -> m w = Some (a, w', es) ->
    link_view (w_ctx w') = v /\ data_events es = [].

Section Hush.
Context (v : view).

Lemma hush_ret {A} (a : A) : hush v (mret a).
Proof. by intros w b w' es Hv [= <- <- <-]. Qed.

Lemma hush_bind {A B} (m : M A) (k : A -> M B) : hush v m -> (forall a, hush v (k a)) -> hush v (m ≫= k).
Proof.
  intros Hm Hk w b w' es Hv. unfold mbind, M_bind. destruct (m w) as [[[a w1] e1]|] eqn:H1; [|done].
  destruct (k a w1) as [[[b' w2] e2]|] eqn:H2; [|done]. intros [= <- <- <-].
  destruct (Hm _ _ _ _ Hv H1) as [Hv1 He1]. destruct (Hk _ _ _ _ _ Hv1 H2) as [Hv2 He2].
  split; [done|]. by rewrite data_events_app, He1, He2.
Qed.

Lemma hush_get_ctx_bind {B} (k : potr_context -> M B) :
  (forall x, link_view x = v -> hush v (k x)) -> hush v (get_ctx ≫= k).
Proof. intros Hk w b w' es Hv. rewrite get_ctx_bind. by apply Hk. Qed.

Lemma hush_get_conn_bind {B} (k : conn -> M B) :
  (forall c, (stream_view c, health_alive (c_health c)) = (v.1.2, v.2) -> hush v (k c)) ->
  hush v (get_conn SlotCtx ≫= k).
Proof.
  intros Hk w b w' es Hv. rewrite (bind_run_nil _ _ _ _ _ (get_conn_run SlotCtx w _ eq_refl)).
  apply Hk; [|done]. by rewrite <- Hv.
Qed.

Lemma hush_put_ctx x : link_view x = v -> hush v (put_ctx x).
Proof. by intros Hx w b w' es _ [= <- <- <-]. Qed.

Lemma hush_put_conn c :
  (stream_view c, health_alive (c_health c)) = (v.1.2, v.2) -> hush v (put_conn SlotCtx c).
Proof.
  intros Hc. apply hush_get_ctx_bind. intros x Hx. apply hush_put_ctx. destruct v as [[[cfg so] sv] al].
  injection Hc as H1 H2. injection Hx as <- <- _ _. unfold link_view. cbn in *. congruence.
Qed.

Lemma hush_emit e : is_data e = false -> hush v (emit e).
Proof. intros He w b w' es Hv [= <- <- <-]. split; [done|]. cbn. by rewrite He. Qed.

Lemma hush_tick {A} (f : nat -> A) : hush v (tick f).
Proof. by intros w b w' es Hv [= <- <- <-]. Qed.

Lemma hush_lift {A} (o : option A) : hush v (lift o).
Proof. intros w b w' es Hv. unfold lift. destruct o; [|done]. by intros [= <- <- <-]. Qed.

Lemma hush_when b m : hush v m -> hush v (when b m).
Proof. intros Hm. destruct b; [done|apply hush_ret]. Qed.

Lemma hush_for body n : forall a, (forall k, hush v (body k)) -> hush v (for_range a n body).
Proof.
  induction n as [|n IH]; intros a Hb; [apply hush_ret|]. cbn [for_range].
  apply hush_bind; [apply Hb|]. intros _. by apply IH.
Qed.
End Hush.

#[export] Hint Resolve hush_ret hush_tick hush_lift hush_when : stream.
#[export] Hint Extern 1 (hush _ (put_ctx _)) => (apply hush_put_ctx; assumption) : stream.
#[export] Hint Extern 1 (hush _ (put_conn _ _)) => (apply hush_put_conn; assumption) : stream.
#[export] Hint Extern 1 (hush _ (emit _)) => (apply hush_emit; reflexivity) : stream.

Ltac head_symbol t := lazymatch t with ?f _ => head_symbol f | _ => t end.

(** Unfold a handler down to its calls. *)
Ltac hush_step :=
  match goal with
  | |- hush _ (get_ctx ≫= _) => apply hush_get_ctx_bind; intros ? ?
  | |- hush _ (get_conn SlotCtx ≫= _) => apply hush_get_conn_bind; intros ? ?
  | |- hush _ (_ ≫= _) => apply hush_bind; [|intros ?]
  | |- hush _ (when _ _) => apply hush_when
  | |- hush _ (for_range _ _ _) => apply hush_for; intros ?
  | |- hush _ (if ?b then _ else _) => destruct b
  | |- hush _ (match ?o with _ => _ end) => destruct o
  | |- hush _ (let _ := _ in _) => cbv zeta
  | |- hush _ ?m => let h := head_symbol m in unfold h
  end.
Ltac hushed := repeat first [solve [auto with stream] | hush_step].

Section Stream.
Context `{CplatByteorder} `{Platform}.
Context (v : view).

Lemma hush_learn path sender : hush v (thread_recv_learn_sender_path SlotCtx path sender).
Proof. hushed. Qed.

Lemma hush_send_nack n : hush v (slot_send_nack SlotCtx n).
Proof. hushed. Qed.

Lemma hush_gap_ready n : hush v (slot_gap_ready SlotCtx n).
Proof. hushed. Qed.
End Stream.

(** From [P], [m] ends in [Q] with exactly the DATA callbacks [D]. *)
Definition delivers {A} (P : world -> Prop) (m : M A) (D : list effect) (Q : A -> world -> Prop) : Prop :=
  forall w, P w -> exists a w' es, m w = Some (a, w', es) /\ data_events es = D /\ Q a w'.

Lemma delivers_bind {A B} P (m : M A) D1 R (k : A -> M B) D2 Q :
  delivers P m D1 R -> (forall a, delivers (R a) (k a) D2 Q) -> delivers P (m ≫= k) (D1 ++ D2) Q.
Proof.
  intros Hm Hk w Hw. destruct (Hm w Hw) as (a & w1 & e1 & Hr1 & <- & HR).
  destruct (Hk a w1 HR) as (b & w2 & e2 & Hr2 & <- & HQ). exists b, w2, (e1 ++ e2).
  split; [by rewrite (bind_run _ _ _ _ _ _ Hr1), Hr2|]. split; [apply data_events_app|done].
Qed.

Lemma delivers_before {A B} P (m : M A) R (k : A -> M B) D Q :
  delivers P m [] R -> (forall a, delivers (R a) (k a) D Q) -> delivers P (m ≫= k) D Q.
Proof. apply (delivers_bind P m [] R k D Q). Qed.

Lemma delivers_after {A B} P (m : M A) R (k : A -> M B) D Q :
  delivers P m D R -> (forall a, delivers (R a) (k a) [] Q) -> delivers P (m ≫= k) D Q.
Proof. intros Hm Hk. rewrite <- (app_nil_r D). by eapply delivers_bind. Qed.

(** A fact about the result or a case that it decides. *)
Lemma delivers_fact {A} (F : Prop) P (m : M A) D Q :
  (F -> delivers P m D Q) -> delivers (fun w => F /\ P w) m D Q.
Proof. intros Hm w [HF HP]. by apply Hm. Qed.

Lemma delivers_ret {A} P (a : A) (Q : A -> world -> Prop) : (forall w, P w -> Q a w) -> delivers P (mret a) [] Q.
Proof. intros Hq w Hw. exists a, w, []. auto. Qed.

Lemma delivers_conseq {A} (P P' : world -> Prop) (m : M A) D (Q Q' : A -> world -> Prop) :
  delivers P m D Q -> (forall w, P' w -> P w) -> (forall a w, Q a w -> Q' a w) -> delivers P' m D Q'.
Proof. intros Hm HP HQ w Hw. destruct (Hm w (HP w Hw)) as (a & w' & es & Hr & Hd & Hq). eauto 10. Qed.

(** ** The packets of a session in the window *)

(** The packets a sender with the configuration [gs] makes of the lists of
    queue entries [pkts] are numbered from [first]. *)
Record stream_ok (gs : service_config) (h : session_hdr) (first : Z) (pkts : list (list sq_msg)) : Prop := {
  so_cfg : cfg_ok gs;
  so_hdr : session_hdr_ranges h;
  so_service : hdr_service_id h = service_id (x_service gs);
  so_first : 0 <= first < 4294967296;
  so_pkts : Forall (fun ms => Forall (msg_ok gs) ms /\ (length (packed_of ms) <= pack_cap gs)%nat) pkts
}.

Section Window.
Context (h : session_hdr) (first : Z) (pkts : list (list sq_msg)).

Definition stream_packet (i : nat) : packet :=
  data_packet h (first ⊕ Z.of_nat i) (packed_of (default [] (pkts !! i))).

(** The window when packet [next] is expected and those of [got] are there. *)
Definition stream_slot (got : list nat) (i : nat) : option (potr_packet (list Z)) :=
  if bool_decide (i ∈ got) then Some (content Z.to_nat (stream_packet i)) else None.
Definition stream_slots (ws next : nat) (got : list nat) : list (option (potr_packet (list Z))) :=
  map (stream_slot got) (seq next ws).

Lemma stream_slots_lookup ws next got j :
  (j < ws)%nat -> stream_slots ws next got !! j = Some (stream_slot got (next + j)).
Proof. intros Hj. unfold stream_slots. rewrite list_lookup_fmap, lookup_seq_lt by done. done. Qed.

Lemma length_stream_slots ws next got : length (stream_slots ws next got) = ws.
Proof. unfold stream_slots. by rewrite length_map, length_seq. Qed.

Lemma ready_stream ws next got :
  ready (stream_slots ws next got)
  = map (fun i => content Z.to_nat (stream_packet i)) (seq next (pass_over ws next got - next)).
Proof.
  revert next. induction ws as [|ws IH]; intros next; [by rewrite Nat.sub_diag|].
  unfold stream_slots in *. cbn [seq map pass_over]. unfold stream_slot at 1.
  case_bool_decide; cbn [ready]; [|by rewrite Nat.sub_diag].
  pose proof (pass_over_ge ws (S next) got). rewrite IH.
  replace (pass_over ws (S next) got - next)%nat with (S (pass_over ws (S next) got - S next)) by lia. done.
Qed.

Lemma pass_over_le fuel next got : (pass_over fuel next got <= next + fuel)%nat.
Proof.
  revert next. induction fuel as [|fuel IH]; intros next; cbn; [lia|].
  case_bool_decide; [|lia]. specialize (IH (S next)). lia.
Qed.

(** Handing over the packets that are ready moves the window. *)
Lemma stream_slots_drained ws next got n :
  (n <= ws)%nat -> (forall i, i ∈ got -> (i < next + ws)%nat) ->
  drop n (stream_slots ws next got) ++ replicate n None = stream_slots ws (next + n) got.
Proof.
  intros Hn Hgot. apply list_eq. intros j. destruct (decide (j < ws)%nat) as [Hj|Hj].
  - rewrite stream_slots_lookup by done. destruct (decide (j < ws - n)%nat) as [Hd|Hd].
    + rewrite lookup_app_l by (rewrite length_drop, length_stream_slots; lia).
      rewrite lookup_drop, stream_slots_lookup by lia. do 2 f_equal. lia.
    + rewrite lookup_app_r by (rewrite length_drop, length_stream_slots; lia).
      rewrite length_drop, length_stream_slots, lookup_replicate_2 by lia. f_equal. symmetry.
      unfold stream_slot. rewrite bool_decide_false; [done|]. intros Hin%Hgot. lia.
  - rewrite !lookup_ge_None_2; [done|by rewrite length_stream_slots; lia|].
    rewrite length_app, length_drop, length_replicate, length_stream_slots. lia.
Qed.

(** Accepting a packet of the stream. *)
Lemma stream_slots_push ws next got i :
  (next <= i < next + ws)%nat ->
  spec_recv_push (stream_slots ws next got) (i - next) (content Z.to_nat (stream_packet i))
  = stream_slots ws next (i :: got).
Proof.
  intros Hi. unfold spec_recv_push. rewrite stream_slots_lookup by lia.
  replace (next + (i - next))%nat with i by lia. unfold stream_slot at 1.
  assert (forall j, j <> (i - next)%nat -> stream_slots ws next got !! j = stream_slots ws next (i :: got) !! j) as Hne.
  { intros j Hj. destruct (decide (j < ws)%nat) as [Hl|Hl].
    - rewrite !stream_slots_lookup by done. unfold stream_slot.
      rewrite (bool_decide_ext (next + j ∈ got)%nat (next + j ∈ i :: got)%nat); [done|].
      rewrite elem_of_cons. split; [by right|]. intros [?|?]; [lia|done].
    - by rewrite !lookup_ge_None_2 by (rewrite length_stream_slots; lia). }
  assert (stream_slots ws next (i :: got) !! (i - next)%nat
    = Some (Some (content Z.to_nat (stream_packet i)))) as Hi'.
  { rewrite stream_slots_lookup by lia. replace (next + (i - next))%nat with i by lia.
    unfold stream_slot. by rewrite bool_decide_true by left. }
  apply list_eq. intros j. case_bool_decide as Hin.
  - destruct (decide (j = (i - next)%nat)) as [->|Hj]; [|by apply Hne]. rewrite Hi'.
    rewrite stream_slots_lookup by lia. replace (next + (i - next))%nat with i by lia.
    unfold stream_slot. by rewrite bool_decide_true.
  - destruct (decide (j = (i - next)%nat)) as [->|Hj].
    + rewrite list_lookup_insert_eq by (rewrite length_stream_slots; lia). by rewrite Hi'.
    + rewrite list_lookup_insert_ne by done. by apply Hne.
Qed.

(** How far ahead of the next packet the number of packet [i] seems to be. *)
Lemma stream_distance ws next i :
  (next <= length pkts)%nat -> (i < length pkts)%nat -> (Z.of_nat (length pkts) + Z.of_nat ws <= 4294967296) ->
  let d := (first ⊕ Z.of_nat i) ⊖ (first ⊕ Z.of_nat next) in
  if (next <=? i)%nat && (i <? next + ws)%nat then d = Z.of_nat (i - next) else Z.of_nat ws <= d.
Proof.
  intros Hn Hi Hle d. assert (d = u32 (Z.of_nat i - Z.of_nat next)) as Hd.
  { unfold d. rewrite u32_sub_l, u32_sub_r. f_equal. lia. }
  destruct (decide (next <= i)%nat) as [Hc|Hc].
  - assert (d = Z.of_nat (i - next)) as Hd' by (rewrite Hd, u32_small; lia).
    destruct (_ && _) eqn:Hb; [done|]. lia.
  - assert (d = Z.of_nat i - Z.of_nat next + 4294967296) as Hd'.
    { rewrite Hd. zmod. }
    destruct (_ && _) eqn:Hb; lia.
Qed.
End Window.

Lemma path_up_alive h path next :
  (path < POTR_MAX_PATH)%nat -> path_ping_state h !! path = Some POTR_PING_STATE_NORMAL ->
  potr_internal_copy_oneway_path_states h = Some next -> any_path_alive next = true.
Proof.
  intros Hp Hs Hn. pose proof (fill_states_length _ _ Hn) as Hl.
  unfold potr_internal_copy_oneway_path_states, fill_states in Hn. apply mapM_Some_1 in Hn.
  destruct (Forall2_lookup_l _ _ _ path path Hn) as (b & Hb & Hf); [by apply lookup_seq_lt|].
  rewrite Hs in Hf. injection Hf as <-. unfold any_path_alive. rewrite take_ge by lia.
  apply existsb_exists. exists true. split; [|done]. by apply list_elem_of_In, list_elem_of_lookup_2 with path.
Qed.

(** A datagram that is dropped before it has any effect: it does not parse,
    belongs to another service, comes from a source that is not allowed, or
    fails authentication. *)
Definition refused `{CplatByteorder} `{Platform} (gr : service_config) (buf : list Z) (sender : endpoint) : bool :=
  match potr_internal_packet_parse (Some blank_packet) (Some buf) (length buf) with
  | Some (rc, Some q) =>
      negb (rc =? POTR_OK) || negb (pkt_service_id q =? service_id (x_service gr)) ||
      negb (thread_recv_check_src_addr gr sender) ||
      match thread_recv_authenticate_packet gr q buf with Some (rc, _) => negb (rc =? POTR_OK) | None => false end
  | Some (_, None) => true
  | None => false
  end.

Lemma recv_refused `{CplatByteorder} `{Platform} x t buf sender path :
  x_is_multi_peer (x_cfg x) = false -> refused (x_cfg x) buf sender = true ->
  recv_datagram buf sender path (World x t) = Some (tt, World x t, []).
Proof.
  intros Hm. unfold refused, recv_datagram. rewrite get_cfg_bind. cbn [w_ctx].
  destruct (potr_internal_packet_parse _ _ _) as [[rc [q|]]|] eqn:Hp; [| |done];
    rewrite (lift_bind _ _ _ _ eq_refl); [|by destruct (rc =? POTR_OK)].
  destruct (rc =? POTR_OK); [|done]. cbn [negb orb].
  destruct (negb (pkt_service_id q =? _)); [done|]. destruct (negb (thread_recv_check_src_addr _ _)); [done|].
  rewrite Hm. cbn [orb]. destruct (thread_recv_authenticate_packet _ _ _) as [[rc' q']|] eqn:Ha; [|done].
  rewrite (lift_bind _ _ _ _ eq_refl). intros ->. done.
Qed.

(** The wire images of consecutive data packets. *)
Fixpoint data_wires `{CplatByteorder} `{Platform} (g : service_config) (h : session_hdr) (seq : Z)
    (pkts : list (list sq_msg)) : option (list (list Z)) :=
  match pkts with
  | [] => Some []
  | ms :: pkts =>
      wire ← data_image g h seq (packed_of ms);
      rest ← data_wires g h (seq ⊕ 1) pkts;
      Some (wire :: rest)
  end.

Lemma data_wires_lookup `{CplatByteorder} `{Platform} g h seq pkts wires i ms :
  0 <= seq < 4294967296 -> data_wires g h seq pkts = Some wires -> pkts !! i = Some ms ->
  data_image g h (seq ⊕ Z.of_nat i) (packed_of ms) = Some (default [] (wires !! i)).
Proof.
  revert seq wires i. induction pkts as [|p pkts IH]; intros seq wires i Hs Hw Hi; [done|]. cbn [data_wires] in Hw.
  destruct (data_image g h seq (packed_of p)) as [wire|] eqn:Hd; [|done].
  destruct (data_wires g h (seq ⊕ 1) pkts) as [rest|] eqn:Hr; [|done]. injection Hw as <-.
  destruct i as [|i].
  - injection Hi as ->. cbn [Z.of_nat lookup list_lookup default from_option]. by rewrite Z.add_0_r, u32_small.
  - specialize (IH (seq ⊕ 1) rest i (u32_range _) Hr Hi). rewrite u32_add_l in IH.
    replace (seq + Z.of_nat (S i)) with (seq + 1 + Z.of_nat i) by lia. exact IH.
Qed.

(** ** The receiver *)

(** A service of one peer on UDP that repairs losses, seen by the end that receives. *)
Record udp_receiver (gr : service_config) : Prop := {
  ur_single : x_is_multi_peer gr = false;
  ur_not_raw : is_raw_type (service_type (x_service gr)) = false;
  ur_not_tcp : is_tcp_type (service_type (x_service gr)) = false;
  ur_role : x_role gr = POTR_ROLE_RECEIVER \/ service_type (x_service gr) = POTR_TYPE_UNICAST_BIDIR
}.

Section Receiver.
Context `{CplatByteorder} `{Platform} `{!PlatformLaws}.
Context (gs gr : service_config) (h : session_hdr) (first : Z) (pkts : list (list sq_msg)).
(** What has been collected of a message before the first packet. *)
Context (st0 : list Z * bool).
Hypothesis Hstream : stream_ok gs h first pkts.
Hypothesis Hsame : same_service gs gr.
Hypothesis Hkind : udp_receiver gr.
Hypothesis Hcount : Z.of_nat (length pkts) + window_size_cfg (x_global gr) <= 4294967296.

#[local] Abbreviation packet_at := (stream_packet h first pkts).
#[local] Abbreviation slots_at := (stream_slots h first pkts).

Definition window_width : nat := Z.to_nat (window_size_cfg (x_global gr)).

(** The elements of the first [n] packets, and the messages they make up. *)
Definition first_elems (n : nat) : list (Z * list Z) := map msg_elem (concat (take n pkts)).
Definition reassembled (n : nat) : (list Z * bool) * list (list Z * bool) :=
  reasm_all (Z.to_nat (max_message_size (x_global gr))) st0 (first_elems n).

(** The receiver follows the session and has got the packets of [s]. *)
Record receiving (x : potr_context) (s : transit) : Prop := {
  rv_ok : ctx_ok x;
  rv_cfg : x_cfg x = gr;
  rv_sock : forall k, (k < x_n_path gr)%nat -> x_sock x !! k = Some true;
  rv_session : followed (x_conn x) = Some (pkt_session (data_packet h 0 []));
  rv_base : win_base_seq (c_recv_window (x_conn x)) = first ⊕ Z.of_nat (tr_next s);
  rv_window : recv_repr (c_recv_window (x_conn x)) (slots_at window_width (tr_next s) (tr_got s));
  rv_alive : service_type (x_service gr) = POTR_TYPE_UNICAST_BIDIR -> health_alive (c_health (x_conn x)) = true;
  rv_fin : pending_fin (c_fin (x_conn x)) = false;
  rv_frag : frag_view (c_frag (x_conn x)) = fst (reassembled (tr_next s));
  rv_next : (tr_next s <= length pkts)%nat;
  rv_got : forall i, i ∈ tr_got s -> (i < length pkts)%nat /\ (i < tr_next s + window_width)%nat
}.

Lemma packet_at_ok i : cfg_ok gr -> (i < length pkts)%nat ->
  exists ms, pkts !! i = Some ms /\ packet_at i = data_packet h (first ⊕ Z.of_nat i) (packed_of ms) /\
    pkt_ok gr (packet_at i) /\ storable Z.to_nat (max_payload_cfg (x_global gr)) (packet_at i) /\
    slot_bytes (Some (content Z.to_nat (packet_at i))) /\
    carries (content Z.to_nat (packet_at i)) (map msg_elem ms).
Proof.
  intros Hg Hi. destruct (lookup_lt_is_Some_2 pkts i Hi) as [ms Hms]. exists ms. split; [done|].
  assert (packet_at i = data_packet h (first ⊕ Z.of_nat i) (packed_of ms)) as Hp
    by (unfold stream_packet; by rewrite Hms).
  split; [done|]. rewrite Hp. destruct Hstream as [Hgs Hh _ Hf Hpk].
  destruct (Forall_lookup_1 _ _ _ _ Hpk Hms) as [Hok Hl]. destruct (packed_bytes ms gs Hok Hgs) as [Hes Hb].
  assert (Z.of_nat (length (packed_of ms)) <= max_payload_cfg (x_global gr)) as Hfit.
  { pose proof (pack_cap_le gs). pose proof (same_len _ _ Hsame). pose proof (co_payload _ Hgs). lia. }
  split; [apply data_packet_ok; auto using u32_range|].
  destruct (data_packet_content gr h (first ⊕ Z.of_nat i) (map msg_elem ms) Hg Hes Hb Hfit) as (Hc & Hsb & Hst).
  done.
Qed.

(** Offering packet [i] to the window. *)
Lemma push_stream x s i :
  receiving x s -> (i < length pkts)%nat ->
  exists rc W', window_recv_push (c_recv_window (x_conn x)) (packet_at i) = Some (rc, W') /\
    if (tr_next s <=? i)%nat && (i <? tr_next s + window_width)%nat
    then rc = POTR_OK /\ same_ctl (c_recv_window (x_conn x)) W' /\
         recv_repr W' (slots_at window_width (tr_next s) (i :: tr_got s))
    else rc = POTR_ERR_OUT_OF_WINDOW /\ W' = c_recv_window (x_conn x).
Proof.
  intros [Hx Hcfg _ _ Hbase Hwin _ _ _ Hn _] Hi. pose proof (xo_cfg _ Hx) as Hg. rewrite Hcfg in Hg.
  destruct (packet_at_ok i Hg Hi) as (ms & _ & Hp & _ & Hst & _).
  pose proof (ok_recv _ _ (xo_conn _ Hx)) as ([Hd1 Hd2] & _). rewrite Hcfg in Hd1, Hd2.
  destruct (recv_push_spec _ _ (packet_at i) Hwin) as (rc & W' & Hr & Hctl & Hres);
    [by rewrite Hd2|rewrite Hp; apply u32_range|].
  exists rc, W'. split; [done|].
  pose proof (stream_distance first pkts window_width (tr_next s) i Hn Hi) as Hdist.
  pose proof (co_window _ Hg). unfold window_width in Hdist at 1. cbv zeta in Hdist.
  specialize (Hdist ltac:(lia)). revert Hres.
  replace (pkt_seq_num (packet_at i)) with (first ⊕ Z.of_nat i) by by rewrite Hp. rewrite Hbase, Hd1.
  destruct (_ && _) eqn:Hb.
  - rewrite Hdist, (proj2 (Z.ltb_lt _ _)) by (unfold window_width in *; lia). intros [-> Hr'].
    split; [done|]. split; [done|]. rewrite Nat2Z.id, stream_slots_push in Hr' by lia. done.
  - rewrite (proj2 (Z.ltb_ge _ _)) by (unfold window_width in *; lia). by intros [-> ->].
Qed.

(** *** Steps that leave the stream alone *)

(** The invariant, and whether the connection must be up. *)
Definition rx (s : transit) (up : bool) (w : world) : Prop :=
  receiving (w_ctx w) s /\ (up = true -> health_alive (c_health (x_conn (w_ctx w))) = true).

Lemma receiving_good s up w : rx s up w -> good gr SlotCtx w.
Proof. intros [[] _]. split; [by split|by eexists]. Qed.

Lemma receiving_view x x' s : ctx_ok x' -> link_view x' = link_view x -> receiving x s -> receiving x' s.
Proof.
  intros Hx' Hv [Hx Hcfg Hso Hses Hb Hw Hal Hf Hfr Hn Hg]. unfold link_view, stream_view in Hv.
  injection Hv as Hv1 Hv0 Hv2 Hv3 Hv4 Hv5 Hv6. unfold followed in *.
  split; unfold followed; rewrite ?Hv0, ?Hv1, ?Hv2, ?Hv3, ?Hv4, ?Hv5, ?Hv6; done.
Qed.

Lemma delivers_hush {A} s up (m : M A) :
  keeps (good gr SlotCtx) m -> (forall v, hush v m) -> delivers (rx s up) m [] (fun _ => rx s up).
Proof.
  intros Hk Hh w Hw. destruct (Hk w (receiving_good _ _ _ Hw)) as (a & w' & es & Hr & Hgood).
  destruct (Hh _ w a w' es eq_refl Hr) as [Hv Hd]. exists a, w', es. split; [done|]. split; [done|].
  destruct Hw as [Hrv Hup]. split; [eapply receiving_view; [apply Hgood|exact Hv|done]|].
  intros Hu. specialize (Hup Hu). unfold link_view in Hv. congruence.
Qed.

Lemma delivers_get_conn {B} s up (k : conn -> M B) D Q :
  (forall c, conn_ok gr c -> (exists w, rx s up w /\ x_conn (w_ctx w) = c) -> delivers (rx s up) (k c) D Q) ->
  delivers (rx s up) (get_conn SlotCtx ≫= k) D Q.
Proof.
  intros Hk w Hw. rewrite (bind_run_nil _ _ _ _ _ (get_conn_run SlotCtx w _ eq_refl)).
  apply Hk; [|by exists w|done]. pose proof Hw as [[Hx <-] _]. apply xo_conn, Hx.
Qed.

Lemma delivers_get_cfg {B} s up (k : service_config -> M B) D Q :
  delivers (rx s up) (k gr) D Q -> delivers (rx s up) (get_cfg ≫= k) D Q.
Proof. intros Hk w Hw. rewrite get_cfg_bind. pose proof Hw as [[_ -> _ _ _ _ _ _ _ _ _] _]. by apply Hk. Qed.

Lemma delivers_outer_gap s up pkt : pkt_ok gr pkt -> delivers (rx s up) (outer_gap SlotCtx pkt false) [] (fun _ => rx s up).
Proof.
  intros Hp w Hw. pose proof (fine_cfg_ok _ _ (good_fine _ _ _ (receiving_good _ _ _ Hw))) as Hg.
  revert w Hw. apply delivers_hush; [by apply keeps_outer_gap|]. intros v. hushed.
Qed.

(** The last reaction to a gap. *)
Lemma delivers_react s up :
  delivers (rx s up)
    (n ← slot_needs_nack SlotCtx;
     match n with
     | None => modify_conn SlotCtx (fun c => set_reorder_pending c false)
     | Some nack_num => r ← slot_gap_ready SlotCtx nack_num; when r (slot_send_nack SlotCtx nack_num)
     end) [] (fun _ => rx s up).
Proof.
  intros w Hw. pose proof (fine_cfg_ok _ _ (good_fine _ _ _ (receiving_good _ _ _ Hw))) as Hg.
  revert w Hw. apply delivers_hush; [|intros v; hushed].
  eapply keeps_bind_yields; [by apply yields_needs_nack|]. intros [n|] Hn.
  - apply keeps_bind; [by apply keeps_slot_gap_ready|]. intros r. apply keeps_when. intros _. apply keeps_send_nack.
  - apply keeps_modify_conn. intros c Hc. conn_solve.
Qed.

(** A data packet of a one-way service brings its path up. *)
Lemma delivers_health s up path :
  is_tcp_type (service_type (x_service gr)) = false ->
  service_type (x_service gr) <> POTR_TYPE_UNICAST_BIDIR -> (path < POTR_MAX_PATH)%nat ->
  delivers (rx s up)
    (_ ← thread_recv_update_path_health SlotCtx path; thread_recv_sync_path_state SlotCtx) [] (fun _ => rx s true).
Proof.
  intros Htcp Ht Hpath w Hw. pose proof (receiving_good _ _ _ Hw) as Hgood. destruct Hw as [Hrv _].
  pose proof Hgood as [[Hx Hcfg] _]. set (x := w_ctx w) in *.
  assert (keeps (good gr SlotCtx) (_ ← thread_recv_update_path_health SlotCtx path;
    thread_recv_sync_path_state SlotCtx)) as Hk.
  { apply keeps_bind; [by apply keeps_update_path_health|intros _; apply keeps_sync_path_state]. }
  destruct (Hk w Hgood) as (a & w' & es & Hr & Hgood'). exists a, w', es. split; [done|]. revert Hr.
  pose proof (ok_health _ _ (xo_conn _ Hx)) as Hh.
  destruct (lookup_lt_is_Some_2 (path_last_recv_ts (c_health (x_conn x))) path) as [ts Hts];
    [by rewrite (ho_recv_ts _ Hh)|].
  destruct (set_ping_state_spec (path_ping_state (c_health (x_conn x))) path POTR_PING_STATE_NORMAL) as [ch Hch];
    [by rewrite (ho_ping _ Hh)|].
  unfold thread_recv_update_path_health. rewrite bind_assoc, tick_bind, bind_assoc.
  rewrite (get_conn_bind x SlotCtx (x_conn x) _ _ eq_refl). cbv zeta.
  rewrite bind_assoc, (lift_bind _ _ _ _ Hts), bind_assoc.
  cbn [path_ping_state set_path_last_recv set_last_recv]. rewrite (lift_bind _ _ _ _ Hch). cbn beta iota.
  rewrite bind_assoc, (put_conn_bind x SlotCtx _ _ _ _ eq_refl), ret_bind.
  cbn [with_conn]. unfold thread_recv_sync_path_state. rewrite get_ctx_bind. cbv zeta. cbn [w_ctx x_cfg set_x_conn].
  rewrite Hcfg, Htcp.
  assert (type_eqb (service_type (x_service gr)) POTR_TYPE_UNICAST_BIDIR = false) as ->
    by by apply bool_decide_false.
  set (c1 := set_health _ _). set (x1 := set_x_conn x c1).
  assert (health_ok (c_health c1)) as Hh1.
  { destruct Hh. split; cbn; by rewrite ?length_insert. }
  destruct (fill_states_total (fun k => s ← path_ping_state (c_health c1) !! k; Some (path_state_is_normal s)))
    as (next & Hnext & Hlen).
  { intros k Hkp. destruct (ping_states_total _ k Hh1 Hkp) as [[b Hb] _]. rewrite Hb. by eexists. }
  change (c_health (x_conn (World x1 (S (w_tick w))).(w_ctx))) with (c_health c1).
  rewrite (lift_bind (potr_internal_copy_oneway_path_states (c_health c1)) next _ _ Hnext).
  destruct (sync_and_emit_run SlotCtx next (World x1 (S (w_tick w))) c1 eq_refl) as (id & h' & _ & -> & ->).
  intros [= <- <- <-]. split; [destruct (x_callback _); [apply path_events_no_data|done]|].
  split; [|intros _; change (any_path_alive next = true); apply (path_up_alive (c_health c1) path); try done].
  2: { cbn. apply list_lookup_insert_eq. by rewrite (ho_ping _ Hh). }
  destruct Hrv. split; try done. apply Hgood'.
Qed.

(** *** The window *)

Definition in_reach (s : transit) (i : nat) : bool := (tr_next s <=? i)%nat && (i <? tr_next s + window_width)%nat.

Lemma slots_at_bytes ws next got :
  cfg_ok gr -> (forall i, i ∈ got -> (i < length pkts)%nat) -> Forall slot_bytes (slots_at ws next got).
Proof.
  intros Hg Hgot. apply Forall_fmap, Forall_forall. intros i _. unfold stream_slot. cbn.
  case_bool_decide as Hin; [|done]. by destruct (packet_at_ok i Hg (Hgot i Hin)) as (ms & _ & _ & _ & _ & Hb & _).
Qed.

Lemma delivers_push s up i :
  (i < length pkts)%nat ->
  delivers (rx s up) (slot_recv_push SlotCtx (packet_at i)) []
    (fun rc w => if in_reach s i then rc = POTR_OK /\ rx (Transit (tr_next s) (i :: tr_got s)) up w
                 else rc = POTR_ERR_OUT_OF_WINDOW /\ rx s up w).
Proof.
  intros Hi [x t] [Hrv Hup]. cbn [w_ctx] in *. destruct (push_stream x s i Hrv Hi) as (rc & W' & Hr & Hres).
  exists rc, (World (set_x_conn x (set_recv_window (x_conn x) W')) t), []. split.
  { unfold slot_recv_push. rewrite (get_conn_bind x SlotCtx _ _ _ eq_refl).
    by rewrite (lift_bind _ _ _ _ Hr), (put_conn_bind x SlotCtx _ _ _ _ eq_refl). }
  split; [done|]. unfold in_reach. destruct (_ && _) eqn:Hb.
  2: { destruct Hres as [-> ->]. split; [done|].
       assert (set_x_conn x (set_recv_window (x_conn x) (c_recv_window (x_conn x))) = x) as ->; [|by split].
       replace (set_recv_window (x_conn x) (c_recv_window (x_conn x))) with (x_conn x) by by destruct (x_conn x).
       by destruct x. }
  destruct Hres as (-> & (Hc1 & _ & Hc3 & Hc4 & _) & Hr'). split; [done|]. split; [|done]. cbn [w_ctx].
  destruct Hrv as [Hx Hcfg Hso Hses Hbase Hwin Hal Hf Hfr Hn Hgot].
  assert (forall j, j ∈ i :: tr_got s -> (j < length pkts)%nat /\ (j < tr_next s + window_width)%nat) as Hgot'.
  { intros j [->|Hj]%elem_of_cons; [lia|auto]. }
  split; cbn [tr_next tr_got]; try done; [|by rewrite <- Hbase].
  apply (with_conn_ok x SlotCtx (set_recv_window (x_conn x) W') (x_conn x) Hx eq_refl).
  pose proof (xo_conn _ Hx) as Hc. pose proof (ok_recv _ _ Hc) as ([Hd1 Hd2] & _). conn_solve.
  split; [split; congruence|]. eexists. split; [exact Hr'|]. apply slots_at_bytes; [|intros j Hj; by apply Hgot'].
  rewrite <- Hcfg. apply xo_cfg, Hx.
Qed.

(** The messages completed by the packets from [m] to [n]. *)
Definition completed (m n : nat) : list (list Z * bool) :=
  snd (reasm_all (Z.to_nat (max_message_size (x_global gr))) (fst (reassembled m))
         (map msg_elem (concat (take (n - m) (drop m pkts))))).

Lemma reassembled_split m n :
  (m <= n)%nat ->
  reasm_all (Z.to_nat (max_message_size (x_global gr))) (fst (reassembled m))
    (map msg_elem (concat (take (n - m) (drop m pkts)))) = (fst (reassembled n), completed m n) /\
  snd (reassembled n) = snd (reassembled m) ++ completed m n.
Proof.
  intros Hmn. unfold completed, reassembled, first_elems.
  assert (take n pkts = take m pkts ++ take (n - m) (drop m pkts)) as ->.
  { rewrite take_drop_commute. replace (m + (n - m))%nat with n by lia.
    rewrite <- (take_drop m (take n pkts)) at 1. rewrite take_take. by replace (m `min` n)%nat with m by lia. }
  rewrite concat_app, map_app, reasm_all_app. cbn [fst snd].
  destruct (reasm_all _ st0 _) as [st ma]. cbn [fst snd].
  by destruct (reasm_all _ st _) as [st' mb].
Qed.

Lemma ready_carries next got :
  cfg_ok gr -> (forall i, i ∈ got -> (i < length pkts)%nat) ->
  let n := (pass_over window_width next got - next)%nat in
  Forall2 carries (ready (slots_at window_width next got)) (map (map msg_elem) (take n (drop next pkts))) /\
  Forall (fun p => true && is_ping p = false) (ready (slots_at window_width next got)).
Proof.
  intros Hg Hgot n. rewrite ready_stream. fold n.
  assert (forall j, (j < n)%nat -> (next + j < length pkts)%nat) as Hin.
  { intros j Hj. apply Hgot, (pass_over_got window_width next). lia. }
  split.
  - apply Forall2_same_length_lookup_2.
    { rewrite !length_map, length_seq, length_take, length_drop.
      destruct n as [|n']; [lia|]. specialize (Hin n' ltac:(lia)). lia. }
    intros j c es Hc He. rewrite list_lookup_fmap in Hc.
    change (map (map msg_elem) (take n (drop next pkts))) with ((map msg_elem) <$> take n (drop next pkts)) in He.
    rewrite list_lookup_fmap in He.
    destruct (seq next n !! j) as [i|] eqn:Hs; [|done]. injection Hc as <-. apply lookup_seq in Hs as [-> Hj].
    destruct (packet_at_ok (next + j) Hg (Hin j Hj)) as (ms & Hms & _ & _ & _ & _ & Hcar).
    rewrite lookup_take_lt, lookup_drop, Hms in He by done. injection He as <-. exact Hcar.
  - apply Forall_fmap, Forall_forall. done.
Qed.

(** The connection [c] of a slot in place of the connection of the service. *)
Lemma receiving_here x s : receiving x s -> receiving (set_x_conn x (x_conn x)) s.
Proof. by destruct x. Qed.

(** Draining the window of a slot. *)
Lemma drain_slot sl pid x t s c :
  let m' := pass_over window_width (tr_next s) (tr_got s) in
  ctx_ok x -> slot_conn x sl = Some c -> (forall t, slot_peer_id sl (World x t) = Some (pid, World x t, [])) ->
  receiving (set_x_conn x c) s -> health_alive (c_health c) = true ->
  exists W f, slot_drain_recv_window sl (World x t)
      = Some (true, World (with_conn x sl (drained c W f)) t, delivered gr pid (completed (tr_next s) m')) /\
    receiving (set_x_conn x (drained c W f)) (Transit m' (tr_got s)).
Proof.
  intros m' Hx0 Hsl Hid [Hx Hcfg Hso Hses Hbase Hwin Hal Hf Hfr Hn Hgot] Hup. cbn [x_cfg x_conn x_sock set_x_conn] in *.
  pose proof (xo_cfg _ Hx) as Hg. cbn [x_cfg set_x_conn] in Hg. rewrite Hcfg in Hg.
  set (m := tr_next s) in *. set (got := tr_got s) in *.
  assert (forall i, i ∈ got -> (i < length pkts)%nat) as Hgl by (intros i Hi; by apply Hgot).
  pose proof (pass_over_ge window_width m got) as Hge. pose proof (pass_over_le window_width m got) as Hle.
  fold m' in Hge, Hle. destruct (ready_carries m got Hg Hgl) as [Hcar Hping]. fold m' in Hcar.
  assert (length (ready (slots_at window_width m got)) = (m' - m)%nat) as Hlr
    by (rewrite ready_stream, length_map, length_seq; done).
  pose proof (slot_conn_ok _ _ _ Hx0 Hsl) as Hc. pose proof (ok_recv _ _ Hc) as ([Hd1 Hd2] & _). rewrite Hcfg in Hd1, Hd2.
  destruct (drain_loop_run true sl (S (Z.to_nat (win_window_size (c_recv_window c)))) x t c
    pid _ (map (map msg_elem) (take (m' - m) (drop m pkts))) Hx0 Hsl Hid Hup Hwin (slots_at_bytes _ _ _ Hg Hgl)) as
    (W & f & Hd' & Hb2 & Hr2 & Hfo & Hrun); [rewrite Hlr, Hd1; fold window_width; lia|exact Hcar|exact Hping|].
  rewrite Hlr in Hb2, Hr2. unfold max_msg in Hrun. rewrite Hcfg, Hfr, <- concat_map in Hrun.
  destruct (reassembled_split m m' Hge) as [Hre _]. rewrite Hre in Hrun. destruct Hrun as [Hrun Hfv].
  exists W, f. split.
  { unfold slot_drain_recv_window. rewrite (get_conn_bind x sl _ _ _ Hsl), (bind_run _ _ _ _ _ _ Hrun).
    rewrite (get_conn_bind (with_conn x sl (drained c W f)) sl (drained c W f)) by by apply (slot_conn_with _ _ _ _ Hsl).
    unfold thread_recv_fin_pending_reached. change (c_fin (drained c W f)) with (c_fin c).
    rewrite Hf. cbn [andb]. unfold mret, M_ret. by rewrite app_nil_r. }
  rewrite stream_slots_drained in Hr2 by (try lia; intros i Hi; apply Hgot; done).
  replace (m + (m' - m))%nat with m' in Hr2 by lia.
  split; cbn [tr_next tr_got]; try done.
  - apply (with_conn_ok x SlotCtx (drained c W f) (x_conn x) Hx0 eq_refl). unfold drained. conn_solve.
    split; [done|]. eexists. split; [exact Hr2|]. by apply slots_at_bytes.
  - cbn. rewrite Hb2, Hbase, u32_add_l. f_equal. lia.
  - destruct (decide (m' = m)) as [->|Hne]; [done|].
    assert (pred m' ∈ got) as Hin by (apply (pass_over_got window_width m); fold m'; lia). apply Hgl in Hin. lia.
  - intros i Hi. specialize (Hgot i Hi). lia.
Qed.

Lemma delivers_drain s :
  delivers (rx s true) (slot_drain_recv_window SlotCtx)
    (delivered gr POTR_PEER_NA (completed (tr_next s) (pass_over window_width (tr_next s) (tr_got s))))
    (fun live w => live = true /\
       rx (Transit (pass_over window_width (tr_next s) (tr_got s)) (tr_got s)) true w).
Proof.
  intros [x t] [Hrv Hup]. cbn [w_ctx] in *. specialize (Hup eq_refl).
  destruct (drain_slot SlotCtx POTR_PEER_NA x t s (x_conn x) (rv_ok _ _ Hrv) eq_refl (fun _ => eq_refl)
    (receiving_here _ _ Hrv) Hup) as (W & f & Hr & Hrv').
  eexists _, _, _. split; [exact Hr|]. split; [apply data_events_delivered|]. split; [done|]. split; [exact Hrv'|done].
Qed.

(** *** A data packet arrives *)

Lemma rx_down s up w : rx s up w -> rx s false w.
Proof. by intros [? _]. Qed.

Lemma completed_none m : completed m m = [].
Proof. unfold completed. by rewrite Nat.sub_diag. Qed.

Lemma delivers_pushed s i path :
  cfg_ok gr -> (i < length pkts)%nat -> (path < POTR_MAX_PATH)%nat ->
  let m' := pass_over window_width (tr_next s) (tr_got s) in
  delivers (rx s false) (outer_pushed SlotCtx (packet_at i) path)
    (delivered gr POTR_PEER_NA (completed (tr_next s) m')) (fun _ => rx (Transit m' (tr_got s)) false).
Proof.
  intros Hg Hi Hpath m'. destruct (packet_at_ok i Hg Hi) as (ms & _ & Hp & Hpk & _).
  unfold outer_pushed. apply delivers_get_cfg. cbv zeta. rewrite (ur_not_raw _ Hkind).
  apply (delivers_before _ _ (fun go w => go = true /\ rx s false w)).
  { intros w Hw. destruct (delivers_outer_gap s false _ Hpk w Hw) as (go & w' & es & Hr & Hd & Hw').
    exists go, w', es. split; [done|]. split; [done|]. split; [|done]. revert Hr. unfold outer_gap.
    unfold mbind at 1, M_bind. destruct (slot_needs_nack SlotCtx w) as [[[[n|] w1] e1]|]; [| |done].
    - unfold mbind, M_bind. destruct (slot_gap_ready _ _ _) as [[[r w2] e2]|]; [|done].
      destruct (when _ _ _) as [[[? w3] e3]|]; [|done]. by intros [= <- _ _].
    - unfold mbind, M_bind. destruct (modify_conn _ _ _) as [[[? w3] e3]|]; [|done]. by intros [= <- _ _]. }
  intros go. apply delivers_fact. intros ->. cbn [negb]. apply (delivers_before _ _ (fun _ => rx s true)).
  { assert (pkt_flags (packet_at i) has POTR_FLAG_DATA = true) as -> by by rewrite Hp.
    unfold type_eqb. cbn [slot_is_peer negb andb]. case_bool_decide as Ht; cbn [negb when].
    - apply delivers_ret. intros w [Hrv _]. split; [done|]. intros _. by apply (rv_alive _ _ Hrv).
    - eapply delivers_conseq; [by apply delivers_health; [apply Hkind|..]|intros w; apply rx_down|done]. }
  intros _. eapply delivers_after; [apply delivers_drain|]. intros live. apply delivers_fact. intros ->. cbn [negb].
  eapply delivers_conseq; [apply delivers_react|done|]. intros a w. apply rx_down.
Qed.

Lemma delivers_accept s i path :
  cfg_ok gr -> (i < length pkts)%nat -> (path < POTR_MAX_PATH)%nat ->
  let s' := arrive window_width s i in
  delivers (rx s false) (thread_recv_window_accept_outer SlotCtx (packet_at i) path)
    (delivered gr POTR_PEER_NA (completed (tr_next s) (tr_next s'))) (fun _ => rx s' false).
Proof.
  intros Hg Hi Hpath s'. unfold thread_recv_window_accept_outer. apply delivers_get_cfg.
  rewrite (ur_not_raw _ Hkind). eapply delivers_before; [by apply delivers_push|]. intros rc. cbv beta.
  unfold s', arrive. fold (in_reach s i). destruct (in_reach s i); apply delivers_fact; intros ->.
  - exact (delivers_pushed (Transit (tr_next s) (i :: tr_got s)) i path Hg Hi Hpath).
  - rewrite completed_none. by apply delivers_ret.
Qed.

Context (wires : list (list Z)).
Hypothesis Hwires : data_wires gs h first pkts = Some wires.

(** What a turn of the receive thread finds on a path: nothing, a failed
    read, a copy of packet [i], or a datagram that is refused. *)
Inductive fed :=
  | Silence
  | Failure
  | Copy (i : nat) (sender : endpoint)
  | Noise (buf : list Z) (sender : endpoint).

Definition fed_input (f : fed) : path_input :=
  match f with
  | Silence => NotReady
  | Failure => ReadFailed
  | Copy i sender => Datagram (default [] (wires !! i)) sender
  | Noise buf sender => Datagram buf sender
  end.

Definition fed_ok (f : fed) : Prop :=
  match f with
  | Copy i sender => (i < length pkts)%nat /\ thread_recv_check_src_addr gr sender = true
  | Noise buf sender => refused gr buf sender = true
  | _ => True
  end.

Definition copy_of (f : fed) : option nat := match f with Copy i _ => Some i | _ => None end.

(** The part of a sender does nothing to a data packet of a two-way service. *)
Lemma delivers_sender_part s i :
  cfg_ok gr -> (i < length pkts)%nat ->
  delivers (rx s false)
    (if role_eqb (x_role gr) POTR_ROLE_SENDER
     then sender_handle_packet thread_recv_slot_init_ctx (packet_at i) else mret false) []
    (fun done_ w => done_ = false /\ rx s false w).
Proof.
  intros Hg Hi. destruct (packet_at_ok i Hg Hi) as (ms & _ & Hp & _).
  unfold role_eqb. case_bool_decide as Hr; [|by apply delivers_ret]. unfold sender_handle_packet.
  apply delivers_get_cfg. cbv zeta. rewrite (ur_not_raw _ Hkind).
  destruct (ur_role _ Hkind) as [Hr'|Ht]; [congruence|]. unfold type_eqb. rewrite Ht, bool_decide_true by done.
  apply (delivers_before _ _ (fun _ => rx s false)); [|intros _; by apply delivers_ret].
  unfold thread_recv_window_on_nack. apply delivers_get_cfg.
  assert (pkt_flags (packet_at i) has POTR_FLAG_NACK = false) as -> by by rewrite Hp. by apply delivers_ret.
Qed.

(** What follows the adoption of the session of a data packet. *)
Lemma delivers_adopted s i sender path :
  cfg_ok gr -> (i < length pkts)%nat -> (path < POTR_MAX_PATH)%nat ->
  let s' := arrive window_width s i in
  delivers (rx s false)
    (thread_recv_learn_sender_path SlotCtx path sender;;
     thread_recv_window_accept_outer SlotCtx (packet_at i) path;; mret false)
    (delivered gr POTR_PEER_NA (completed (tr_next s) (tr_next s'))) (fun _ => rx s' false).
Proof.
  intros Hg Hi Hpath s'. apply (delivers_before _ _ (fun _ => rx s false)).
  { apply delivers_hush; [by apply keeps_learn_sender_path|]. intros v. apply hush_learn. }
  intros _. eapply delivers_after; [by apply delivers_accept|]. intros ?. by apply delivers_ret.
Qed.

(** The dispatch of a data packet. *)
Lemma dispatch_data slot_ pkt path sender :
  pkt_flags pkt = POTR_FLAG_DATA ->
  thread_recv_dispatch_packet slot_ pkt path sender
  = (ok ← thread_recv_session_adopt slot_ pkt;
     if negb ok then mret false
     else thread_recv_learn_sender_path slot_ path sender;;
          thread_recv_window_accept_outer slot_ pkt path;; mret false).
Proof. intros Hf. unfold thread_recv_dispatch_packet. by rewrite !Hf. Qed.

Lemma delivers_dispatch s i sender path :
  cfg_ok gr -> (i < length pkts)%nat -> (path < POTR_MAX_PATH)%nat ->
  let s' := arrive window_width s i in
  delivers (rx s false) (thread_recv_dispatch_packet thread_recv_slot_init_ctx (packet_at i) path sender)
    (delivered gr POTR_PEER_NA (completed (tr_next s) (tr_next s'))) (fun _ => rx s' false).
Proof.
  intros Hg Hi Hpath s'. destruct (packet_at_ok i Hg Hi) as (ms & _ & Hp & Hpk & _).
  rewrite dispatch_data by by rewrite Hp.
  apply (delivers_before _ _ (fun b w => b = true /\ rx s false w)).
  { intros [x t] [Hrv Hup]. pose proof Hrv as [Hx Hcfg _ Hses _]. cbn [w_ctx] in *.
    destruct (adopt_same x t SlotCtx (x_conn x) (packet_at i) Hx eq_refl (pk_ranges _ _ Hpk)) as [t' Hr];
      [by rewrite Hses, Hp|]. exists true, (World x t'), []. done. }
  intros b. apply delivers_fact. intros ->. by apply delivers_adopted.
Qed.

(** Copies of packets are taken from any path. *)
Lemma delivers_copy s i sender path :
  cfg_ok gr -> (i < length pkts)%nat -> thread_recv_check_src_addr gr sender = true -> (path < POTR_MAX_PATH)%nat ->
  let s' := arrive window_width s i in
  delivers (rx s false) (recv_datagram (default [] (wires !! i)) sender path)
    (delivered gr POTR_PEER_NA (completed (tr_next s) (tr_next s'))) (fun _ => rx s' false).
Proof.
  intros Hg Hi Hsrc Hpath s'. destruct (packet_at_ok i Hg Hi) as (ms & Hms & Hp & Hpk & _).
  pose proof Hstream as [Hgs Hh Hsid Hf Hall]. destruct (Forall_lookup_1 _ _ _ _ Hall Hms) as [_ Hl].
  destruct (data_image_accepted gs gr h (first ⊕ Z.of_nat i) (packed_of ms) _ blank_packet Hgs Hg Hsame Hh
    (u32_range _) Hl (data_wires_lookup _ _ _ _ _ _ _ Hf Hwires Hms)) as (_ & q & Hparse & Hq & Hauth).
  unfold recv_datagram. apply delivers_get_cfg.
  intros w Hw. rewrite (lift_bind _ _ _ _ Hparse). cbn beta iota.
  rewrite Hq, Hsid, (same_id _ _ Hsame), !Z.eqb_refl, Hsrc, (ur_single _ Hkind). cbn [Z.eqb POTR_OK negb].
  rewrite (lift_bind _ _ _ _ Hauth). cbn beta iota. rewrite <- Hp. cbn [Z.eqb POTR_OK negb]. revert w Hw.
  eapply delivers_before; [by apply delivers_sender_part|]. intros b. apply delivers_fact. intros ->.
  eapply delivers_after; [by apply delivers_dispatch|]. intros ?. by apply delivers_ret.
Qed.

(** *** Turns of the receive thread *)

Lemma arrive_mono s i : (tr_next s <= tr_next (arrive window_width s i))%nat.
Proof. unfold arrive. destruct (_ && _); [apply pass_over_ge|done]. Qed.

Lemma arrives_mono l s : (tr_next s <= tr_next (fold_left (arrive window_width) l s))%nat.
Proof.
  revert s. induction l as [|i l IH]; intros s; [done|]. cbn [fold_left].
  pose proof (arrive_mono s i). specialize (IH (arrive window_width s i)). lia.
Qed.

Lemma completed_trans a b c : (a <= b)%nat -> (b <= c)%nat -> completed a c = completed a b ++ completed b c.
Proof.
  intros Hab Hbc. apply (app_inv_head (snd (reassembled a))).
  rewrite app_assoc, <- (proj2 (reassembled_split a b Hab)), <- (proj2 (reassembled_split b c Hbc)).
  symmetry. apply reassembled_split. lia.
Qed.

(** The arrivals [l], and the messages they complete. *)
Definition taken_in {A} (m : M A) (l : list nat) : Prop := forall s,
  let s' := fold_left (arrive window_width) l s in
  delivers (rx s false) m (delivered gr POTR_PEER_NA (completed (tr_next s) (tr_next s'))) (fun _ => rx s' false).

Lemma taken_in_bind {A B} (m : M A) (k : A -> M B) l1 l2 :
  taken_in m l1 -> (forall a, taken_in (k a) l2) -> taken_in (m ≫= k) (l1 ++ l2).
Proof.
  intros Hm Hk s. cbv zeta. rewrite fold_left_app. set (s1 := fold_left _ l1 s).
  rewrite (completed_trans (tr_next s) (tr_next s1)) by apply arrives_mono.
  rewrite delivered_app. eapply delivers_bind; [apply Hm|]. intros a. apply Hk.
Qed.

Lemma taken_in_none {A} (m : M A) : (forall s, delivers (rx s false) m [] (fun _ => rx s false)) -> taken_in m [].
Proof. intros Hm s. cbn [fold_left]. rewrite completed_none. apply Hm. Qed.

Lemma taken_in_path (f : fed) path :
  cfg_ok gr -> fed_ok f -> (path < POTR_MAX_PATH)%nat ->
  taken_in (match fed_input f with Datagram buf sender => when true (recv_datagram buf sender path) | _ => mret tt end)
    (option_list (copy_of f)).
Proof.
  intros Hg Hf Hpath. destruct f as [| |i sender|buf sender]; cbn [fed_input copy_of option_list fed_ok] in *;
    try (apply taken_in_none; intros s; by apply delivers_ret).
  - intros s. cbn [fold_left when]. destruct Hf as [Hi Hsrc]. by apply delivers_copy.
  - apply taken_in_none. intros s [x t] Hw. pose proof Hw as [[_ Hcfg _] _]. cbn [w_ctx] in Hcfg.
    exists tt, (World x t), []. split; [|done]. cbn [when]. apply recv_refused; rewrite Hcfg; [apply Hkind|done].
Qed.

Definition turn_ok (turn : list fed) : Prop :=
  (x_n_path gr <= length turn)%nat /\ Forall fed_ok turn /\
  (existsb is_ready (take (x_n_path gr) (map fed_input turn)) = true \/ x_health_timeout_ms gr = 0).

Definition copies (turn : list fed) : list nat := omap copy_of (take (x_n_path gr) turn).

Lemma taken_in_paths turn n k :
  cfg_ok gr -> Forall fed_ok turn -> (k + n <= x_n_path gr)%nat -> (x_n_path gr <= length turn)%nat ->
  taken_in (for_range k n (fun k =>
      v ← sock_valid k;
      inp ← lift (map fed_input turn !! k);
      match inp with
      | Datagram buf sender => when v (recv_datagram buf sender k)
      | _ => mret tt
      end)) (omap copy_of (take n (drop k turn))).
Proof.
  intros Hg Hf. revert k. induction n as [|n IH]; intros k Hk Hl.
  { rewrite take_0. apply taken_in_none. intros s. by apply delivers_ret. }
  destruct (lookup_lt_is_Some_2 turn k) as [f Hfk]; [lia|]. cbn [for_range].
  assert (omap copy_of (take (S n) (drop k turn))
    = option_list (copy_of f) ++ omap copy_of (take n (drop (S k) turn))) as ->.
  { rewrite (drop_S _ _ _ Hfk). cbn [take omap list_omap]. by destruct (copy_of f). }
  apply taken_in_bind; [|intros _; apply IH; lia]. pose proof (co_n_path _ Hg) as Hn.
  pose proof (taken_in_path f k Hg (Forall_lookup_1 _ _ _ _ Hf Hfk) ltac:(lia)) as Hpath.
  intros s s' w Hw. pose proof Hw as [[_ _ Hso _] _]. destruct (Hpath s w Hw) as (a & w' & es & Hr & Hrest).
  exists a, w', es. split; [|exact Hrest]. unfold sock_valid. rewrite bind_assoc, get_ctx_bind.
  rewrite (lift_bind _ _ _ _ (Hso k ltac:(lia))).
  assert (map fed_input turn !! k = Some (fed_input f)) as Hin by by rewrite list_lookup_fmap, Hfk.
  rewrite (lift_bind _ _ _ _ Hin). exact Hr.
Qed.

Lemma delivers_reorder s :
  cfg_ok gr -> delivers (rx s false) (thread_recv_window_check_reorder_timeout SlotCtx) [] (fun _ => rx s false).
Proof.
  intros Hg. unfold thread_recv_window_check_reorder_timeout. apply delivers_get_cfg. apply delivers_get_conn.
  intros c Hc _. destruct (negb (reorder_pending _)); [by apply delivers_ret|].
  eapply delivers_before.
  { apply delivers_hush; [apply keeps_gap_ready, (ok_reorder _ _ Hc)|]. intros v. hushed. }
  intros r. destruct (negb r); [by apply delivers_ret|]. rewrite (ur_not_raw _ Hkind).
  apply delivers_get_conn. intros c' _ _. apply delivers_hush; [apply keeps_send_nack|]. intros v. apply hush_send_nack.
Qed.

Lemma taken_in_idle : cfg_ok gr -> x_health_timeout_ms gr = 0 -> taken_in recv_idle [].
Proof.
  intros Hg Ht. apply taken_in_none. intros s. unfold recv_idle. apply delivers_get_cfg.
  rewrite (ur_single _ Hkind).
  assert (role_eqb (x_role gr) POTR_ROLE_RECEIVER ||
    type_eqb (service_type (x_service gr)) POTR_TYPE_UNICAST_BIDIR = true) as ->.
  { unfold role_eqb, type_eqb. destruct (ur_role _ Hkind) as [->| ->]; cbn; [done|by destruct (bool_decide _)]. }
  apply (delivers_before _ _ (fun _ => rx s false)).
  { unfold thread_recv_health_check_service. apply delivers_get_cfg. rewrite Ht. by apply delivers_ret. }
  intros _. unfold when. destruct (0 <? _); [|by apply delivers_ret]. by apply delivers_reorder.
Qed.

(** A turn that finds no path ready brings no packet. *)
Lemma idle_no_copies turn :
  existsb is_ready (take (x_n_path gr) (map fed_input turn)) = false -> copies turn = [].
Proof.
  unfold copies. rewrite (firstn_map fed_input). generalize (take (x_n_path gr) turn).
  induction l as [|f l IH]; [done|]. cbn [map existsb omap list_omap]. intros [H1f H2f]%orb_false_iff.
  destruct f; try done. by apply IH.
Qed.

Lemma taken_in_turn turn : cfg_ok gr -> turn_ok turn -> taken_in (recv_thread_turn (map fed_input turn)) (copies turn).
Proof.
  intros Hg (Hl & Hf & Hbusy) s s'. unfold recv_thread_turn. apply delivers_get_cfg.
  destruct (existsb _ _) eqn:Hex.
  - pose proof (taken_in_paths turn (x_n_path gr) 0 Hg Hf ltac:(lia) Hl) as Hp. rewrite drop_0 in Hp. apply Hp.
  - destruct Hbusy as [?|Ht]; [congruence|]. unfold s'. rewrite (idle_no_copies turn Hex). by apply taken_in_idle.
Qed.

Lemma taken_in_run turns :
  cfg_ok gr -> Forall turn_ok turns ->
  taken_in (recv_thread_run (map (map fed_input) turns)) (concat (map copies turns)).
Proof.
  intros Hg Ht. induction Ht as [|turn turns H1t _ IH]; cbn [map recv_thread_run concat].
  - apply taken_in_none. intros s. by apply delivers_ret.
  - apply taken_in_bind; [by apply taken_in_turn|]. intros _. exact IH.
Qed.

Lemma copies_bound turns i : Forall turn_ok turns -> i ∈ concat (map copies turns) -> (i < length pkts)%nat.
Proof.
  intros Ht. induction Ht as [|turn turns (_ & Hf & _) _ IH]; cbn [map concat]; [by intros ?%not_elem_of_nil|].
  intros [Hi|Hi]%elem_of_app; [|by apply IH]. unfold copies in Hi. apply list_elem_of_omap in Hi as (f & Hin & Hc).
  apply elem_of_take in Hin as (k & Hk & _). pose proof (Forall_lookup_1 _ _ _ _ Hf Hk) as Hfk.
  destruct f as [| |j sender|]; try done. injection Hc as ->. apply Hfk.
Qed.

(** The DATA callbacks of a whole run. *)
Lemma run_delivers x t turns :
  receiving x (Transit 0 []) -> Forall turn_ok turns ->
  let m := tr_next (arrive_all window_width (concat (map copies turns))) in
  exists x' t' es, recv_thread_run (map (map fed_input) turns) (World x t) = Some (tt, World x' t', es) /\
    data_events es = delivered gr POTR_PEER_NA (snd (reassembled m)) /\ (m <= length pkts)%nat /\
    receiving x' (arrive_all window_width (concat (map copies turns))).
Proof.
  intros Hrv Ht m. pose proof Hrv as [Hx Hcfg _]. pose proof (xo_cfg _ Hx) as Hg. rewrite Hcfg in Hg.
  destruct (taken_in_run turns Hg Ht (Transit 0 []) (World x t)) as ([] & [x' t'] & es & Hr & Hd & [Hrv' _]).
  { by split. }
  exists x', t', es. split; [done|]. split; [|split; [apply (rv_next _ _ Hrv')|exact Hrv']].
  rewrite Hd. f_equal. cbn [tr_next]. fold (arrive_all window_width (concat (map copies turns))). fold m.
  by rewrite (proj2 (reassembled_split 0 m (Nat.le_0_l m))).
Qed.
End Receiver.

(** What the packets of a sender carry when all of them have been received. *)
Lemma sent_stream `{CplatByteorder} `{Platform} `{!PlatformLaws} gs gr h first peer flags ms calls pkts :
  cfg_ok gs -> session_hdr_ranges h -> hdr_service_id h = service_id (x_service gs) -> 0 <= first < 4294967296 ->
  Forall (message_ok gs) ms -> Forall (fun m => Forall is_byte m.1) ms ->
  send_all gs peer flags ms = Some calls -> concat pkts = call_msgs calls ->
  Forall (fun p => (length (packed_of p) <= pack_cap gs)%nat) pkts ->
  max_message_size (x_global gs) <= max_message_size (x_global gr) ->
  stream_ok gs h first pkts /\
  reassembled gr pkts ([], false) (length pkts) = (([], false), map message_view ms).
Proof.
  intros Hgs Hh Hid Hf Hms Hb Hsend Hcat Hfit Hmax.
  destruct (queued_msgs_ok gs peer flags ms _ Hgs Hms Hb Hmax) as (calls' & Hc & Hok & Hre).
  rewrite Hsend in Hc. injection Hc as <-. rewrite <- Hcat in Hok, Hre. split.
  - split; try done. rewrite Forall_concat in Hok. apply Forall_forall. intros p Hp.
    rewrite Forall_forall in Hok, Hfit. auto.
  - unfold reassembled, first_elems. by rewrite firstn_all.
Qed.

(** The messages of the first packets are the first messages. *)
Lemma reassembled_prefix `{CplatByteorder} `{Platform} gr pkts msgs n :
  (n <= length pkts)%nat -> reassembled gr pkts ([], false) (length pkts) = (([], false), msgs) ->
  exists later, msgs = snd (reassembled gr pkts ([], false) n) ++ later.
Proof.
  intros Hle Hall. exists (completed gr pkts ([], false) n (length pkts)).
  destruct (reassembled_split gr pkts ([], false) n (length pkts) Hle) as [_ Hs]. by rewrite Hall in Hs.
Qed.

(** Packets that fit the window and have all arrived are all passed over. *)
Lemma arrive_all_done ws len arr :
  (0 < ws)%nat -> (len <= ws)%nat -> (forall i, i ∈ arr -> (i < len)%nat) -> (forall i, (i < len)%nat -> i ∈ arr) ->
  (tr_next (arrive_all ws arr) <= len)%nat -> tr_next (arrive_all ws arr) = len.
Proof.
  intros Hws Hfit Hb Hevery Hle. assert (tr_next (arrive_all ws arr) ∉ arr) as Hn.
  { apply arrive_all_missing; [done|]. intros i Hi%Hb. lia. }
  destruct (decide (tr_next (arrive_all ws arr) < len)%nat) as [Hlt|Hge]; [by destruct Hn; apply Hevery|lia].
Qed.

(** C2. Messages cross a lossy network.  The data packets into which the sender
    of a UDP service packs its messages (encrypted or not, of any type but RAW
    and N:1) reach the receiver on any of its paths, in any order, each any
    number of times or never, mixed with datagrams that are refused (garbage,
    other services, forged tags, other sources) and with failed reads.  The
    receive thread then makes exactly the DATA callbacks of the messages that
    packets 0 to n - 1 complete, where n is the next number of the reorder
    buffer [arrive_all] after these arrivals: a buffer over packet numbers, as
    wide as the window, which refuses a packet that is a window or more ahead
    (it has to arrive again later to count).  All of these packets have
    arrived, and their messages are a prefix of the messages sent, in order,
    each once and unchanged.  When all the packets together fit the window
    ([length pkts <= window_width gr]) and each arrives at least once, every
    message is delivered. *)
Theorem udp_messages_delivered `{CplatByteorder} `{Platform} `{!PlatformLaws}
    gs ses peer flags ms calls pkts first wires x t turns :
  let gr := x_cfg x in
  let h := own_session_hdr gs ses in
  let arrivals := concat (map (copies gr) turns) in
  cfg_ok gs -> session_hdr_ranges h -> 0 <= first < 4294967296 ->
  Forall (message_ok gs) ms -> Forall (fun m => Forall is_byte m.1) ms ->
  send_all gs peer flags ms = Some calls -> concat pkts = call_msgs calls ->
  Forall (fun p => (length (packed_of p) <= pack_cap gs)%nat) pkts ->
  data_wires gs h first pkts = Some wires ->
  same_service gs gr -> max_message_size (x_global gs) <= max_message_size (x_global gr) -> udp_receiver gr ->
  Z.of_nat (length pkts) + window_size_cfg (x_global gr) <= 4294967296 ->
  receiving gr h first pkts ([], false) x (Transit 0 []) -> Forall (turn_ok gr pkts wires) turns ->
  exists x' t' es, recv_thread_run (map (map (fed_input wires)) turns) (World x t) = Some (tt, World x' t', es) /\
    let n := tr_next (arrive_all (window_width gr) arrivals) in
    let msgs := snd (reassembled gr pkts ([], false) n) in
    data_events es = delivered gr POTR_PEER_NA msgs /\
    (forall i, (i < n)%nat -> i ∈ arrivals) /\ (exists later, map message_view ms = msgs ++ later) /\
    ((length pkts <= window_width gr)%nat -> (forall i, (i < length pkts)%nat -> i ∈ arrivals) ->
     msgs = map message_view ms).
Proof.
  intros gr h arrivals Hgs Hh Hf Hms Hb Hsend Hcat Hfit Hw Hsame Hmax Hkind Hcount Hrv Hturns.
  destruct (sent_stream gs gr h first peer flags ms calls pkts) as [Hstream Hall]; try done.
  destruct (run_delivers gs gr h first pkts ([], false) Hstream Hsame Hkind Hcount wires Hw x t turns Hrv Hturns)
    as (x' & t' & es & Hr & Hd & Hle & _).
  set (n := tr_next (arrive_all (window_width gr) arrivals)) in *.
  pose proof (arrive_all_arrived (window_width gr) arrivals) as (Hg1 & Hg2 & _).
  exists x', t', es. split; [done|]. cbv zeta. fold n. fold arrivals in Hd. split; [done|].
  split; [intros i Hi; by apply Hg1, Hg2|]. split; [by apply (reassembled_prefix gr pkts)|].
  intros Hws Hevery. assert (n = length pkts) as ->; [|by rewrite Hall].
  pose proof (co_window _ (xo_cfg _ (rv_ok _ _ _ _ _ _ _ Hrv))) as Hcw.
  apply arrive_all_done; try done; [unfold window_width, gr; lia|].
  intros i Hi. by apply (copies_bound gr pkts wires turns i Hturns).
Qed.

(** A receiver in the state of [connected_ctx], with an empty window. *)
Lemma connected_receiving `{CplatByteorder} `{Platform} t enc pkts :
  receiving (example_config t enc) (own_session_hdr (example_config t enc) example_sender) 0 pkts ([], false)
    (connected_ctx t enc) (Transit 0 []).
Proof.
  split; try done.
  - apply connected_ctx_ok.
  - intros [|k] Hk; [done|]. cbn in Hk. lia.
  - exact fresh_window_recv.
  - cbn. lia.
  - intros i Hi. by apply not_elem_of_nil in Hi.
Qed.

Definition udp_config : service_config := example_config POTR_TYPE_UNICAST true.
Definition example_wires : list (list Z) :=
  default [] (@data_wires little_host toy_platform udp_config (own_session_hdr udp_config example_sender) 0
    example_packets).
Definition example_sender_addr : endpoint := Endpoint 16777343 5000.

(** Four packets, exchanged, repeated, and with garbage and a forged packet
    between them. *)
Definition example_feed : list (list fed) :=
  [[Copy 1 example_sender_addr]; [Noise [1; 2; 3] example_sender_addr]; [Copy 1 example_sender_addr];
   [Noise (removelast (default [] (example_wires !! 0%nat)) ++ [0]) example_sender_addr]; [Copy 0 example_sender_addr];
   [Copy 3 example_sender_addr]; [Failure]; [Copy 0 example_sender_addr]; [Copy 2 example_sender_addr]].

Lemma example_feed_ok :
  Forall (@turn_ok little_host toy_platform udp_config example_packets example_wires) example_feed.
Proof.
  assert (forall f, is_ready (fed_input example_wires f) = true ->
    @fed_ok little_host toy_platform udp_config example_packets f ->
    @turn_ok little_host toy_platform udp_config example_packets example_wires [f]) as Hturn.
  { intros f Hr Hf. split; [exact (le_n 1)|]. split; [by apply Forall_cons_2, Forall_nil_2|]. left.
    change (is_ready (fed_input example_wires f) || false = true). by rewrite Hr. }
  assert (length example_packets = 4%nat) as Hl by (vm_compute; reflexivity).
  repeat (apply Forall_cons_2; [apply Hturn; [reflexivity|]|]); [..|apply Forall_nil_2];
    cbn [fed_ok]; rewrite ?Hl; first [done | split; [lia|reflexivity] | vm_compute; reflexivity].
Qed.

Lemma udp_messages_delivered_witness :
  exists x' t' es, @recv_thread_run little_host toy_platform (map (map (fed_input example_wires)) example_feed)
      (World (connected_ctx POTR_TYPE_UNICAST true) 0) = Some (tt, World x' t', es) /\
    data_events es = [EvCallback POTR_PEER_NA POTR_EVENT_DATA (CbBytes [1; 2; 3]);
                      EvCallback POTR_PEER_NA POTR_EVENT_DATA (CbBytes (replicate 90 4))].
Proof.
  destruct (@udp_messages_delivered little_host toy_platform toy_laws udp_config example_sender 0 0 example_messages
    example_calls example_packets 0 example_wires (connected_ctx POTR_TYPE_UNICAST true) 0 example_feed)
    as (x' & t' & es & Hrun & Hd & _).
  - apply example_cfg_ok.
  - split; (split; [vm_compute; discriminate | vm_compute; reflexivity]).
  - lia.
  - repeat (apply Forall_cons_2; [split; [discriminate|split; [left; reflexivity|cbn; lia]]|]).
    apply Forall_nil_2.
  - repeat (apply Forall_cons_2; [apply forallb_is_byte; reflexivity|]). apply Forall_nil_2.
  - vm_compute. reflexivity.
  - vm_compute. reflexivity.
  - assert (forallb (fun p => (length (packed_of p) <=? 48)%nat) example_packets = true) as Hall
      by (vm_compute; reflexivity).
    apply List.Forall_forall. intros p Hp. apply Nat.leb_le. exact (proj1 (List.forallb_forall _ _) Hall p Hp).
  - vm_compute. reflexivity.
  - by split.
  - cbn. lia.
  - split; try reflexivity. by left.
  - vm_compute. discriminate.
  - apply (@connected_receiving little_host toy_platform).
  - exact example_feed_ok.
  - exists x', t', es. split; [exact Hrun|]. rewrite Hd. vm_compute. reflexivity.
Defined.
