(* ===== verification/PeerDelivery.v ===== *)
(** The server of an N:1 service: the packets of many clients arrive mixed, and
    the messages of each are delivered under the identifier of its peer. *)

From stdpp Require Import base list numbers option.
From Stdlib Require Import ZArith Lia ZifyBool.
From S2P Require Import Prelude Types Packet Window SendQueue Context PathEvent Validate.
From S2P Require Import PeerTable RecvSlot Session Fin RecvWindow HealthThread Send.
From S2P Require Import SendTurn Dispatch RecvThread Frame Delivery UdpDelivery.
Local Open Scope Z_scope.
Local Open Scope porter_scope.

(** ** One entry of the peer table *)

Definition with_peer (x : potr_context) (i : nat) (p : potr_internal_peer_context) : potr_context :=
  set_x_peers x ((fun ps => <[i:=p]> ps) <$> x_peers x).

Definition set_p_conn (p : potr_internal_peer_context) (c : conn) : potr_internal_peer_context :=
  Peer (p_peer_id p) (p_active p) c (p_n_paths p) (p_send_window_mutex p).

Definition peer_at (x : potr_context) (i : nat) (p : potr_internal_peer_context) : Prop :=
  find_peer x i = Some p /\ p_active p = true.

Section Entry.
Context (x : potr_context) (i : nat) (p0 : potr_internal_peer_context).
Hypothesis Hat : peer_at x i p0.

Lemma peer_at_table : exists ps, x_peers x = Some ps /\ ps !! i = Some p0.
Proof.
  destruct Hat as [Hf _]. unfold find_peer in Hf. destruct (x_peers x) as [ps|]; [|done]. by exists ps.
Qed.

Lemma find_with p : find_peer (with_peer x i p) i = Some p.
Proof.
  destruct peer_at_table as (ps & Hps & Hp). unfold find_peer, with_peer. rewrite Hps. cbn.
  apply list_lookup_insert_eq. by eapply lookup_lt_Some.
Qed.

Lemma find_with_other p j : j <> i -> find_peer (with_peer x i p) j = find_peer x j.
Proof.
  intros Hj. unfold find_peer, with_peer. destruct (x_peers x) as [ps|]; [|done]. cbn.
  by rewrite list_lookup_insert_ne.
Qed.

Lemma with_peer_twice p p' : with_peer (with_peer x i p) i p' = with_peer x i p'.
Proof.
  unfold with_peer. cbn. destruct (x_peers x) as [ps|]; [|done]. cbn. by rewrite list_insert_insert_eq.
Qed.

Lemma with_peer_same : with_peer x i p0 = x.
Proof.
  destruct peer_at_table as (ps & Hps & Hp). unfold with_peer. rewrite Hps. cbn. rewrite list_insert_id by done.
  rewrite <- Hps. by destruct x.
Qed.

Lemma slot_conn_peer_at p : p_active p = true -> slot_conn (with_peer x i p) (SlotPeer i) = Some (p_conn p).
Proof. intros Ha. unfold slot_conn. rewrite find_with. cbn. by rewrite Ha. Qed.

Lemma with_conn_entry p c :
  with_conn (with_peer x i p) (SlotPeer i) c = with_peer x i (set_p_conn p c).
Proof.
  unfold with_conn. rewrite find_with. destruct peer_at_table as (ps & Hps & Hp). unfold with_peer, set_p_conn.
  rewrite Hps. cbn. by rewrite list_insert_insert_eq.
Qed.

Lemma get_peer_at p t : get_peer i (World (with_peer x i p) t) = Some (p, World (with_peer x i p) t, []).
Proof. unfold get_peer, get_ctx, lift, mbind, M_bind. cbn [w_ctx]. by rewrite find_with. Qed.

Lemma put_peer_at p p' t :
  put_peer i p' (World (with_peer x i p) t) = Some (tt, World (with_peer x i p') t, []).
Proof.
  destruct peer_at_table as (ps & Hps & Hp). unfold put_peer. rewrite get_ctx_bind. cbn [w_ctx].
  assert (x_peers (with_peer x i p) = Some (<[i:=p]> ps)) as Hx by (unfold with_peer; by rewrite Hps).
  rewrite (lift_bind _ _ _ _ Hx), length_insert, (proj2 (Nat.ltb_lt _ _) (lookup_lt_Some _ _ _ Hp)).
  rewrite <- (with_peer_twice p p'). unfold with_peer at 3. by rewrite Hx.
Qed.

(** An entry with the identifier of the old one and a well-formed connection. *)
Lemma with_peer_ok `{CplatByteorder} p :
  ctx_ok x -> p_peer_id p = p_peer_id p0 -> p_active p = true -> conn_ok (x_cfg x) (p_conn p) ->
  ctx_ok (with_peer x i p).
Proof.
  intros Hx Hid Ha Hc. destruct peer_at_table as (ps & Hps & Hp). destruct Hat as [_ Ha0].
  pose proof (xo_peers _ Hx) as Hpt. rewrite Hps in Hpt. destruct Hpt as [Hlen Hcnt Hok Huniq].
  assert (forall j q, <[i:=p]> ps !! j = Some q -> exists q0, ps !! j = Some q0 /\ p_peer_id q = p_peer_id q0 /\
    p_active q = p_active q0 /\ (q = p \/ q = q0)) as Hlk.
  { intros j q [(<- & ->)|(_ & Hj)]%list_lookup_insert_cases; [exists p0|exists q]; split_and!; try done; auto; congruence. }
  unfold with_peer. rewrite Hps. destruct Hx. split; try done. cbn. split.
  - by rewrite length_insert.
  - pose proof (count_if_insert p_active ps i p0 p Hp) as Hci. rewrite Ha, Ha0 in Hci. lia.
  - intros j q Hj Hq. destruct (Hlk j q Hj) as (q0 & Hj0 & Hid0 & Hact & Hor). rewrite Hact in Hq.
    destruct (Hok j q0 Hj0 Hq) as [Hco Hi]. split; [|by rewrite Hid0]. by destruct Hor as [->| ->].
  - intros j k q r Hj Hk Hq Hr Heq. destruct (Hlk j q Hj) as (q0 & Hj0 & Hid0 & Haa & _).
    destruct (Hlk k r Hk) as (r0 & Hk0 & Hid1 & Hab & _). apply (Huniq j k q0 r0); congruence.
Qed.
End Entry.

(** ** A data packet of one client *)

Section OnePeer.
Context `{CplatByteorder} `{Platform} `{!PlatformLaws}.
Context (gs gr : service_config) (h : session_hdr) (first : Z) (pkts : list (list sq_msg)) (st0 : list Z * bool).
Hypothesis Hstream : stream_ok gs h first pkts.
Hypothesis Hsame : same_service gs gr.
Hypothesis Hraw : is_raw_type (service_type (x_service gr)) = false.
Hypothesis Hcount : Z.of_nat (length pkts) + window_size_cfg (x_global gr) <= 4294967296.
Context (x0 : potr_context) (i : nat) (p0 : potr_internal_peer_context).
Hypothesis Hx0 : ctx_ok x0.
Hypothesis Hcfg0 : x_cfg x0 = gr.
Hypothesis Hat : peer_at x0 i p0.

#[local] Abbreviation packet_at := (stream_packet h first pkts).
#[local] Abbreviation ws := (window_width gr).
#[local] Abbreviation here p := (with_peer x0 i p).

(** The entry holds the identifier of the peer, is alive and has got the
    packets of [s]. *)
Record hears (p : potr_internal_peer_context) (s : transit) : Prop := {
  he_id : p_peer_id p = p_peer_id p0;
  he_active : p_active p = true;
  he_alive : health_alive (c_health (p_conn p)) = true;
  he_stream : receiving gr h first pkts st0 (set_x_conn x0 (p_conn p)) s
}.

(** Only the entry of the peer differs from the context at the start. *)
Definition px (s : transit) (w : world) : Prop := exists p, w_ctx w = here p /\ hears p s.

Lemma hears_conn_ok p s : hears p s -> conn_ok (x_cfg x0) (p_conn p).
Proof. intros [_ _ _ [Hx _]]. apply (xo_conn _ Hx). Qed.

Lemma hears_ok p s : hears p s -> ctx_ok (here p).
Proof. intros Hp. apply (with_peer_ok _ _ _ Hat); [done|apply Hp|apply Hp|by eapply hears_conn_ok]. Qed.

Lemma hears_slot p s : hears p s -> slot_conn (here p) (SlotPeer i) = Some (p_conn p).
Proof. intros Hp. apply (slot_conn_peer_at _ _ _ Hat), Hp. Qed.

(** A connection that differs in what the stream does not depend on. *)
Lemma hears_view p s c n b :
  hears p s -> conn_ok gr c -> stream_view c = stream_view (p_conn p) ->
  health_alive (c_health c) = health_alive (c_health (p_conn p)) -> hears (Peer (p_peer_id p) (p_active p) c n b) s.
Proof.
  intros [Hid Ha Hal Hrv] Hc Hv Hh. split; try done; [by rewrite <- Hal|]. eapply receiving_view; [| |exact Hrv].
  - apply (with_conn_ok x0 SlotCtx c (x_conn x0)); [done|done|]. by rewrite Hcfg0.
  - unfold link_view. cbn [x_cfg x_sock x_conn set_x_conn p_conn]. by rewrite Hv, Hh.
Qed.

(** A step that leaves the context alone. *)
Lemma delivers_same {A} s (m : M A) (R : A -> Prop) :
  (forall p t, hears p s -> exists a t' es, m (World (here p) t) = Some (a, World (here p) t', es) /\
     data_events es = [] /\ R a) ->
  delivers (px s) m [] (fun a w => R a /\ px s w).
Proof.
  intros Hm [x t] (p & Hw & Hp). cbn [w_ctx] in Hw. subst x. destruct (Hm p t Hp) as (a & t' & es & Hr & Hd & HR).
  exists a, (World (here p) t'), es. split; [done|]. split; [done|]. split; [done|]. by exists p.
Qed.

Lemma delivers_cfg {B} s (k : service_config -> M B) D Q :
  delivers (px s) (k gr) D Q -> delivers (px s) (get_cfg ≫= k) D Q.
Proof.
  intros Hk w Hw. pose proof Hw as (p & Hx & _). rewrite get_cfg_bind, Hx. change (x_cfg (here p)) with (x_cfg x0).
  rewrite Hcfg0. by apply Hk.
Qed.

(** A change of the connection that the stream does not depend on. *)
Lemma delivers_modify s (f : conn -> conn) :
  (forall c, conn_ok gr c -> conn_ok gr (f c) /\ stream_view (f c) = stream_view c /\
     health_alive (c_health (f c)) = health_alive (c_health c)) ->
  delivers (px s) (modify_conn (SlotPeer i) f) [] (fun _ => px s).
Proof.
  intros Hf [x t] (p & Hw & Hp). cbn [w_ctx] in Hw. subst x.
  exists tt, (World (here (set_p_conn p (f (p_conn p)))) t), [].
  rewrite (modify_conn_run _ _ _ _ _ (hears_slot _ _ Hp)), (with_conn_entry _ _ _ Hat). split; [done|]. split; [done|].
  pose proof (hears_conn_ok _ _ Hp) as Hc. rewrite Hcfg0 in Hc. destruct (Hf _ Hc) as (H1c & H2c & H3c).
  eexists. split; [done|]. by apply hears_view.
Qed.

Lemma delivers_learn s path sender :
  (path < POTR_MAX_PATH)%nat ->
  delivers (px s) (thread_recv_learn_sender_path (SlotPeer i) path sender) [] (fun _ => px s).
Proof.
  intros Hpath [x t] (p & Hw & Hp). cbn [w_ctx] in Hw. subst x.
  pose proof (hears_conn_ok _ _ Hp) as Hc. rewrite Hcfg0 in Hc.
  destruct (lookup_lt_is_Some_2 (c_dest_addr (p_conn p)) path) as [d Hd]; [by rewrite (ok_dest _ _ Hc)|].
  unfold thread_recv_learn_sender_path. rewrite (bind_run_nil _ _ _ _ _ (get_peer_at _ _ _ Hat p t)). cbv zeta.
  rewrite (lift_bind _ _ _ _ Hd). destruct (negb _).
  - rewrite (put_conn_at _ _ _ _ _ (hears_slot _ _ Hp)), (with_conn_entry _ _ _ Hat).
    eexists _, _, _. split; [done|]. split; [done|]. eexists. split; [done|]. apply hears_view; [done| |done|done].
    conn_solve. by rewrite length_insert.
  - rewrite (put_peer_at _ _ _ Hat). eexists _, _, _. split; [done|]. split; [done|]. eexists. split; [done|].
    apply hears_view; [done| |done|done]. conn_solve. by rewrite length_insert.
Qed.

(** *** NACKs *)

Lemma peer_sends_run p s wire t :
  hears p s -> exists t' es, slot_send_wire_to_dests (SlotPeer i) wire (World (here p) t)
    = Some (tt, World (here p) t', es) /\ data_events es = [].
Proof.
  intros Hp. pose proof (hears_ok _ _ Hp) as Hx. unfold slot_send_wire_to_dests.
  rewrite get_cfg_bind, (get_conn_bind _ _ _ _ _ (hears_slot _ _ Hp)). cbn [slot_is_peer].
  pose proof (ok_dest _ _ (hears_conn_ok _ _ Hp)) as Hd. set (dests := c_dest_addr (p_conn p)) in *.
  cut (forall n k t, (k + n <= POTR_MAX_PATH)%nat -> exists t' es, for_range k n (fun k =>
    d ← lift (dests !! k);
    if endpoint_is_unset d then mret tt else _ ← sock_valid k; _ ← socket_sendto k wire d; mret tt) (World (here p) t)
    = Some (tt, World (here p) t', es) /\ data_events es = []); [intros Hall; apply Hall; lia|].
  induction n as [|n IH]; intros k t0 Hk; [by exists t0, []|]. cbn [for_range].
  destruct (lookup_lt_is_Some_2 dests k) as [d Hdk]; [lia|].
  destruct (lookup_lt_is_Some_2 (x_sock (here p)) k) as [so Hso]; [rewrite (xo_sock _ Hx); lia|].
  rewrite bind_assoc, (lift_bind _ _ _ _ Hdk). destruct (endpoint_is_unset d).
  - rewrite ret_bind. apply IH. lia.
  - destruct (IH (S k) (S t0) ltac:(lia)) as (t' & es & Hr & He). exists t', (EvSendto k wire d :: es).
    rewrite (bind_run _ _ _ tt (World (here p) (S t0)) [EvSendto k wire d]); [by rewrite Hr|].
    unfold sock_valid. by rewrite bind_assoc, get_ctx_bind, (lift_bind _ _ _ _ Hso).
Qed.

Lemma peer_nack_run p s n t :
  hears p s -> exists t' es, slot_send_nack (SlotPeer i) n (World (here p) t)
    = Some (tt, World (here p) t', es) /\ data_events es = [].
Proof.
  intros Hp. unfold slot_send_nack. rewrite get_ctx_bind. cbv zeta.
  rewrite (get_conn_bind _ _ _ _ _ (hears_slot _ _ Hp)), build_nack_built. change POTR_OK with 0. cbv beta iota.
  cbn [slot_is_peer orb]. unfold slot_send_ctrl. rewrite get_cfg_bind. destruct (build_ctrl_pkt_wire _ _) as [wire|].
  - by eapply peer_sends_run.
  - by exists t, [].
Qed.

Lemma delivers_nack s n : delivers (px s) (slot_send_nack (SlotPeer i) n) [] (fun _ => px s).
Proof.
  intros [x t] (p & Hw & Hp). cbn [w_ctx] in Hw. subst x. destruct (peer_nack_run p s n t Hp) as (t' & es & Hr & Hd).
  exists tt, (World (here p) t'), es. split; [done|]. split; [done|]. by exists p.
Qed.

Lemma delivers_needs_nack s : delivers (px s) (slot_needs_nack (SlotPeer i)) [] (fun _ => px s).
Proof.
  intros [x t] (p & Hw & Hp). cbn [w_ctx] in Hw. subst x.
  pose proof (ok_recv _ _ (hears_conn_ok _ _ Hp)) as (_ & sl & Hr & _). destruct (recv_slots_cons _ _ Hr) as (o & sl' & ->).
  unfold slot_needs_nack. rewrite (get_conn_bind _ _ _ _ _ (hears_slot _ _ Hp)). unfold lift.
  rewrite (needs_nack_spec _ _ _ Hr). eexists _, _, _. split; [done|]. split; [done|]. by exists p.
Qed.

(** The reactions to a gap: the server asks at once. *)
Lemma delivers_ask s :
  delivers (px s)
    (n ← slot_needs_nack (SlotPeer i);
     match n with
     | None => modify_conn (SlotPeer i) (fun c => set_reorder_pending c false)
     | Some nack_num => r ← slot_gap_ready (SlotPeer i) nack_num; when r (slot_send_nack (SlotPeer i) nack_num)
     end) [] (fun _ => px s).
Proof.
  eapply delivers_before; [apply delivers_needs_nack|]. intros [n|].
  - unfold slot_gap_ready. cbn [slot_is_peer]. intros w Hw. rewrite ret_bind. cbn [when]. by apply delivers_nack.
  - apply delivers_modify. intros c Hc. split; [conn_solve|done].
Qed.

Lemma delivers_gap s pkt :
  delivers (px s) (outer_gap (SlotPeer i) pkt false) [] (fun go w => go = true /\ px s w).
Proof.
  unfold outer_gap. eapply delivers_before; [apply delivers_needs_nack|]. intros [n|].
  - unfold slot_gap_ready. cbn [slot_is_peer]. intros w Hw. rewrite ret_bind. cbn [when]. revert w Hw.
    eapply delivers_before; [apply delivers_nack|]. intros ?. by apply delivers_ret.
  - apply (delivers_before _ _ (fun _ => px s)); [|intros _; by apply delivers_ret].
    apply delivers_modify. intros c Hc. split; [conn_solve|done].
Qed.

(** *** The window *)

Lemma delivers_peer_push s k :
  (k < length pkts)%nat ->
  delivers (px s) (slot_recv_push (SlotPeer i) (packet_at k)) []
    (fun rc w => if in_reach gr s k then rc = POTR_OK /\ px (Transit (tr_next s) (k :: tr_got s)) w
                 else rc = POTR_ERR_OUT_OF_WINDOW /\ px s w).
Proof.
  intros Hk [x t] (p & Hw & Hp). cbn [w_ctx] in Hw. subst x. pose proof Hp as [Hid Ha Hal Hrv].
  destruct (delivers_push gs gr h first pkts st0 Hstream Hsame Hcount s false k Hk (World (set_x_conn x0 (p_conn p)) t))
    as (rc & w' & es & Hr & Hd & Hq); [by split|].
  unfold slot_recv_push in *. rewrite (get_conn_bind _ SlotCtx _ _ _ eq_refl) in Hr. cbn [set_x_conn x_conn] in Hr.
  rewrite (get_conn_bind _ _ _ _ _ (hears_slot _ _ Hp)).
  destruct (window_recv_push (c_recv_window (p_conn p)) (packet_at k)) as [[rc' W]|] eqn:Hpush; [|done].
  rewrite (lift_bind _ _ _ _ eq_refl), (put_conn_bind _ SlotCtx _ _ _ _ eq_refl) in Hr.
  injection Hr as <- <- <-. rewrite (lift_bind _ _ _ _ eq_refl). rewrite (put_conn_bind _ _ _ _ _ _ (hears_slot _ _ Hp)), (with_conn_entry _ _ _ Hat).
  eexists _, _, _. split; [done|]. split; [done|]. cbn [w_ctx with_conn] in Hq.
  assert (set_x_conn (set_x_conn x0 (p_conn p)) (set_recv_window (p_conn p) W)
    = set_x_conn x0 (p_conn (set_p_conn p (set_recv_window (p_conn p) W)))) as He by done.
  destruct (in_reach gr s k); destruct Hq as [-> [Hrv' _]]; (split; [done|]); cbn [w_ctx] in Hrv'; rewrite He in Hrv';
    eexists; (split; [done|]); by split.
Qed.

Lemma delivers_peer_drain s :
  let m' := pass_over ws (tr_next s) (tr_got s) in
  delivers (px s) (slot_drain_recv_window (SlotPeer i))
    (delivered gr (p_peer_id p0) (completed gr pkts st0 (tr_next s) m'))
    (fun live w => live = true /\ px (Transit m' (tr_got s)) w).
Proof.
  intros m' [x t] (p & Hw & Hp). cbn [w_ctx] in Hw. subst x. pose proof Hp as [Hid Ha Hal Hrv].
  destruct (drain_slot gs gr h first pkts st0 Hstream Hsame (SlotPeer i) (p_peer_id p0) (here p) t s (p_conn p))
    as (W & f & Hr & Hrv'); [by eapply hears_ok|by eapply hears_slot| | |done|].
  - intros t'. unfold slot_peer_id. rewrite (bind_run_nil _ _ _ _ _ (get_peer_at _ _ _ Hat p t')). by rewrite <- Hid.
  - eapply receiving_view; [| |exact Hrv]; [|reflexivity].
    apply (with_conn_ok (here p) SlotCtx (p_conn p) (x_conn x0)); [by eapply hears_ok|done|by eapply hears_conn_ok].
  - eexists _, _, _. split; [exact Hr|]. split; [apply data_events_delivered|]. split; [done|].
    rewrite (with_conn_entry _ _ _ Hat). eexists. split; [done|]. split; try done.
    eapply receiving_view; [| |exact Hrv']; [|reflexivity].
    apply (with_conn_ok x0 SlotCtx _ (x_conn x0)); [done|done|].
    pose proof (xo_conn _ (rv_ok _ _ _ _ _ _ _ Hrv')) as Hc. exact Hc.
Qed.

(** *** The packet *)

Lemma delivers_peer_accept s k path :
  (k < length pkts)%nat ->
  let s' := arrive ws s k in
  delivers (px s) (thread_recv_window_accept_outer (SlotPeer i) (packet_at k) path)
    (delivered gr (p_peer_id p0) (completed gr pkts st0 (tr_next s) (tr_next s'))) (fun _ => px s').
Proof.
  intros Hk s'. unfold thread_recv_window_accept_outer. apply delivers_cfg. rewrite Hraw.
  eapply delivers_before; [by apply delivers_peer_push|]. intros rc. cbv beta. unfold s', arrive. fold (in_reach gr s k).
  destruct (in_reach gr s k); apply delivers_fact; intros ->.
  2: { rewrite completed_none. by apply delivers_ret. }
  set (s1 := Transit (tr_next s) (k :: tr_got s)). cbn [Z.eqb POTR_OK]. unfold outer_pushed. apply delivers_cfg. cbv zeta.
  rewrite Hraw. eapply delivers_before; [apply delivers_gap|]. intros go. apply delivers_fact. intros ->.
  cbn [negb slot_is_peer andb when]. apply (delivers_before _ _ (fun _ => px s1)); [by apply delivers_ret|]. intros _.
  eapply delivers_after; [apply delivers_peer_drain|]. intros live. apply delivers_fact. intros ->. cbn [negb].
  apply delivers_ask.
Qed.

Lemma delivers_peer_dispatch s k path sender :
  (k < length pkts)%nat -> (path < POTR_MAX_PATH)%nat ->
  let s' := arrive ws s k in
  delivers (px s) (thread_recv_dispatch_packet (thread_recv_slot_init_peer i) (packet_at k) path sender)
    (delivered gr (p_peer_id p0) (completed gr pkts st0 (tr_next s) (tr_next s'))) (fun wake w => wake = false /\ px s' w).
Proof.
  intros Hk Hpath s'. assert (cfg_ok gr) as Hg by (rewrite <- Hcfg0; apply xo_cfg, Hx0).
  destruct (packet_at_ok gs gr h first pkts Hstream Hsame k Hg Hk) as (ms & _ & Hp & Hpk & _).
  unfold thread_recv_slot_init_peer. rewrite dispatch_data by by rewrite Hp.
  apply (delivers_before _ _ (fun b w => b = true /\ px s w)).
  { apply delivers_same. intros p t Hh. destruct (adopt_same (here p) t (SlotPeer i) (p_conn p) (packet_at k)) as [t' Hr];
      [by eapply hears_ok|by eapply hears_slot|by eapply pk_ranges| |by exists true, t', []].
    pose proof (rv_session _ _ _ _ _ _ _ (he_stream _ _ Hh)) as Hses. cbn [set_x_conn x_conn] in Hses. by rewrite Hses, Hp. }
  intros b. apply delivers_fact. intros ->. cbn [negb].
  eapply delivers_before; [by apply delivers_learn|]. intros ?.
  eapply delivers_after; [by apply delivers_peer_accept|]. intros ?. by apply delivers_ret.
Qed.
End OnePeer.

(** ** The server *)

(** A client: its configuration, the header of its session, the number of its
    first packet, its messages, the queue entries of its packets and their
    datagrams; its entry in the peer table of the server and its identifier. *)
Record client := Client {
  cl_cfg : service_config;
  cl_hdr : session_hdr;
  cl_first : Z;
  cl_msgs : list message;
  cl_pkts : list (list sq_msg);
  cl_wires : list (list Z);
  cl_slot : nat;
  cl_id : Z
}.

Definition is_data_of (id : Z) (e : effect) : bool :=
  match e with EvCallback pid POTR_EVENT_DATA _ => pid =? id | _ => false end.

(** The DATA callbacks of a trace for one peer. *)
Definition data_from (id : Z) (es : list effect) : list effect := List.filter (is_data_of id) es.

Lemma data_from_app id a b : data_from id (a ++ b) = data_from id a ++ data_from id b.
Proof. apply List.filter_app. Qed.

Lemma data_from_data id es : data_from id es = data_from id (data_events es).
Proof.
  induction es as [|e es IH]; [done|]. cbn [data_from data_events List.filter]. fold (data_from id es) (data_events es).
  destruct (is_data e) eqn:He; cbn [data_from List.filter].
  - fold (data_from id (data_events es)). by rewrite IH.
  - by destruct e as [pid [] ?| | | | | |].
Qed.

Lemma data_from_delivered `{Platform} g pid id msgs :
  data_from id (delivered g pid msgs) = if pid =? id then delivered g pid msgs else [].
Proof.
  induction msgs as [|[bs comp] msgs IH]; [by destruct (pid =? id)|].
  change (delivered g pid ((bs, comp) :: msgs)) with (deliver_effects g pid (Some (bs, comp)) ++ delivered g pid msgs).
  rewrite data_from_app, IH. cbn [deliver_effects].
  destruct (x_callback g), comp, (pid =? id) eqn:He; try done; try destruct (cplat_decompress _ _); cbn; by rewrite ?He.
Qed.

Lemma delivered_ids `{Platform} g pid msgs e : e ∈ delivered g pid msgs -> is_data_of pid e = true.
Proof.
  intros He. pose proof (data_from_delivered g pid pid msgs) as Hf. rewrite Z.eqb_refl in Hf. rewrite <- Hf in He.
  apply list_elem_of_In, List.filter_In in He. apply He.
Qed.

(** A service of many peers on UDP. *)
Record n1_server (gr : service_config) : Prop := {
  ns_multi : x_is_multi_peer gr = true;
  ns_not_raw : is_raw_type (service_type (x_service gr)) = false
}.

(** The client has packed the messages of [cl_msgs] for the service. *)
Record client_ok `{CplatByteorder} `{Platform} (gr : service_config) (c : client) : Prop := {
  ck_cfg : cfg_ok (cl_cfg c);
  ck_hdr : session_hdr_ranges (cl_hdr c);
  ck_service : hdr_service_id (cl_hdr c) = service_id (x_service (cl_cfg c));
  ck_first : 0 <= cl_first c < 4294967296;
  ck_msgs : Forall (message_ok (cl_cfg c)) (cl_msgs c);
  ck_bytes : Forall (fun m => Forall is_byte m.1) (cl_msgs c);
  ck_sent : exists peer flags calls, send_all (cl_cfg c) peer flags (cl_msgs c) = Some calls /\
    concat (cl_pkts c) = call_msgs calls;
  ck_fit : Forall (fun p => (length (packed_of p) <= pack_cap (cl_cfg c))%nat) (cl_pkts c);
  ck_wires : data_wires (cl_cfg c) (cl_hdr c) (cl_first c) (cl_pkts c) = Some (cl_wires c);
  ck_same : same_service (cl_cfg c) gr;
  ck_max : max_message_size (x_global (cl_cfg c)) <= max_message_size (x_global gr);
  ck_count : Z.of_nat (length (cl_pkts c)) + window_size_cfg (x_global gr) <= 4294967296
}.

Lemma client_stream `{CplatByteorder} `{Platform} `{!PlatformLaws} gr c :
  client_ok gr c ->
  stream_ok (cl_cfg c) (cl_hdr c) (cl_first c) (cl_pkts c) /\
  reassembled gr (cl_pkts c) ([], false) (length (cl_pkts c)) = (([], false), map message_view (cl_msgs c)).
Proof.
  intros []. destruct ck_sent0 as (peer & flags & calls & Hs & Hc). by eapply sent_stream.
Qed.

(** The session of a client, as the entries of the peer table hold it. *)
Definition client_session `{Platform} (c : client) : timespec * Z := pkt_session (data_packet (cl_hdr c) 0 []).
Definition entry_session (p : potr_internal_peer_context) : timespec * Z :=
  (peer_session_ts (c_session (p_conn p)), peer_session_id (c_session (p_conn p))).

Section Server.
Context `{CplatByteorder} `{Platform} `{!PlatformLaws}.
Context (gr : service_config) (clients : list client).
Hypothesis Hserver : n1_server gr.
Hypothesis Hclients : Forall (client_ok gr) clients.
Hypothesis Hslots : List.NoDup (map cl_slot clients).

#[local] Abbreviation ws := (window_width gr).
#[local] Abbreviation hears_ c := (hears gr (cl_hdr c) (cl_first c) (cl_pkts c) ([], false)).

(** Every client has a live entry that has got the packets of [ss j], and no
    other entry has its session. *)
Record serving (x : potr_context) (ss : nat -> transit) : Prop := {
  sv_ok : ctx_ok x;
  sv_cfg : x_cfg x = gr;
  sv_sock : forall k, (k < x_n_path gr)%nat -> x_sock x !! k = Some true;
  sv_peer : forall j c, clients !! j = Some c -> exists p, peer_at x (cl_slot c) p /\
    p_peer_id p = cl_id c /\ hears_ c x p p (ss j);
  sv_unique : forall j c k q, clients !! j = Some c -> peer_at x k q -> entry_session q = client_session c -> k = cl_slot c
}.

Lemma entry_followed p s : followed (p_conn p) = Some s -> entry_session p = s.
Proof. unfold followed, entry_session. by destruct (peer_session_known _); intros [= <-]. Qed.

Lemma hears_session x0 p0 c p s : hears_ c x0 p0 p s -> entry_session p = client_session c.
Proof. intros [_ _ _ Hrv]. apply entry_followed, (rv_session _ _ _ _ _ _ _ Hrv). Qed.

(** The entry of a client is the one its packets find. *)
Lemma find_client x ss j c k t :
  serving x ss -> clients !! j = Some c -> (k < length (cl_pkts c))%nat ->
  let pkt := stream_packet (cl_hdr c) (cl_first c) (cl_pkts c) k in
  potr_internal_peer_find_by_session (pkt_session_id pkt) (pkt_session_ts pkt) (World x t)
  = Some (Some (cl_slot c), World x t, []).
Proof.
  intros Hsv Hc Hk pkt. destruct (sv_peer _ _ Hsv j c Hc) as (p & Hat & _ & Hh).
  pose proof (hears_session _ _ _ _ _ Hh) as Hs. destruct (peer_at_table _ _ _ Hat) as (ps & Hps & Hp).
  unfold potr_internal_peer_find_by_session. rewrite get_ctx_bind. cbn [w_ctx]. rewrite (lift_bind _ _ _ _ Hps).
  unfold mret, M_ret. do 3 f_equal. set (f := fun p => _).
  assert (forall q, f q = true <-> p_active q = true /\ entry_session q = client_session c) as Hf.
  { intros q. unfold f, entry_session, client_session. rewrite !andb_true_iff, !Z.eqb_eq, timespec_cmp_eq. split.
    - intros [[? H1q] H2q]. split; [done|]. by rewrite H1q, H2q.
    - intros [? [= H1q H2q]]. by rewrite H1q, H2q. }
  destruct (find_index f ps) as [m|] eqn:Hm.
  - destruct (find_index_Some _ _ _ Hm) as (q & Hq & [Ha Hqs]%Hf). f_equal.
    apply (sv_unique _ _ Hsv j c m q Hc); [|done]. split; [|done]. unfold find_peer. by rewrite Hps.
  - pose proof (find_index_None _ _ Hm _ _ Hp) as Hn. rewrite (proj2 (Hf p)) in Hn; [done|]. split; [apply Hat|done].
Qed.

(** Two clients do not share an entry, nor an identifier. *)
Lemma slots_distinct j j' c c' :
  clients !! j = Some c -> clients !! j' = Some c' -> cl_slot c = cl_slot c' -> j = j'.
Proof.
  intros Hj Hj' Hs. apply (proj1 (NoDup_alt (map cl_slot clients))) with (x := cl_slot c).
  - by apply NoDup_ListNoDup.
  - change (map cl_slot clients) with (cl_slot <$> clients). by rewrite list_lookup_fmap, Hj.
  - change (map cl_slot clients) with (cl_slot <$> clients). by rewrite list_lookup_fmap, Hj', Hs.
Qed.

Lemma ids_distinct x ss j j' c c' :
  serving x ss -> clients !! j = Some c -> clients !! j' = Some c' -> cl_id c = cl_id c' -> j = j'.
Proof.
  intros Hsv Hj Hj' Hid. destruct (sv_peer _ _ Hsv j c Hj) as (p & Hat & Hp & _).
  destruct (sv_peer _ _ Hsv j' c' Hj') as (p' & Hat' & Hp' & _).
  destruct (peer_at_table _ _ _ Hat) as (ps & Hps & Hl). destruct (peer_at_table _ _ _ Hat') as (ps' & Hps' & Hl').
  rewrite Hps in Hps'. injection Hps' as <-. pose proof (xo_peers _ (sv_ok _ _ Hsv)) as Hpt. rewrite Hps in Hpt.
  eapply slots_distinct; [done..|]. apply (pt_unique _ _ _ Hpt _ _ p p'); [done..|apply Hat|apply Hat'|congruence].
Qed.

(** What an entry has got does not depend on the other entries. *)
Lemma hears_rebase x x' c p0 p s :
  ctx_ok x' -> x_cfg x' = x_cfg x -> x_sock x' = x_sock x -> hears_ c x p0 p s -> hears_ c x' p p s.
Proof.
  intros Hx' Hcfg Hso Hh. pose proof (hears_conn_ok _ _ _ _ _ _ _ _ _ Hh) as Hc. destruct Hh as [_ Ha Hal Hrv].
  split; try done. eapply receiving_view; [| |exact Hrv].
  - apply (with_conn_ok x' SlotCtx _ (x_conn x')); [done|done|]. by rewrite Hcfg.
  - unfold link_view. cbn. by rewrite Hcfg, Hso.
Qed.

Definition moved (ss : nat -> transit) (j : nat) (s : transit) : nat -> transit :=
  fun j' => if (j' =? j)%nat then s else ss j'.

Lemma serving_moved x ss j c p p' s :
  serving x ss -> clients !! j = Some c -> peer_at x (cl_slot c) p -> p_peer_id p = cl_id c ->
  hears_ c x p p (ss j) -> hears_ c x p p' s -> serving (with_peer x (cl_slot c) p') (moved ss j s).
Proof.
  intros Hsv Hj Hat Hid Hh Hh'. pose proof Hsv as [Hx Hcfg Hso Hpe Hun].
  assert (ctx_ok (with_peer x (cl_slot c) p')) as Hx' by (eapply hears_ok; [exact Hx|exact Hat|exact Hh']).
  split; try done.
  - intros j' c' Hj'. unfold moved. destruct (Nat.eqb_spec j' j) as [->|Hne].
    + rewrite Hj in Hj'. injection Hj' as <-. exists p'. split; [split; [by eapply find_with|apply Hh']|].
      split; [by rewrite (he_id _ _ _ _ _ _ _ _ _ Hh')|]. eapply hears_rebase; [| | |exact Hh']; [done|reflexivity|reflexivity].
    + destruct (Hpe j' c' Hj') as (q & [Hq Ha] & Hqid & Hqh).
      assert (cl_slot c' <> cl_slot c) as Hsl by (intros He; apply Hne; by eapply slots_distinct).
      exists q. split; [split; [by rewrite find_with_other|done]|]. split; [done|]. eapply hears_rebase; [| | |exact Hqh]; [done|reflexivity|reflexivity].
  - intros j' c' k q Hj' [Hq Ha] Hs. destruct (decide (k = cl_slot c)) as [->|Hk].
    + rewrite (find_with _ _ _ Hat) in Hq. injection Hq as <-. apply (Hun j' c' _ p Hj' Hat).
      rewrite <- Hs, (hears_session _ _ _ _ _ Hh), (hears_session _ _ _ _ _ Hh'). done.
    + rewrite find_with_other in Hq by done. by apply (Hun j' c' k q Hj').
Qed.

(** The server takes a copy of packet [k] of client [j] from the network. *)
Lemma client_copy x t ss j c k sender path :
  serving x ss -> clients !! j = Some c -> (k < length (cl_pkts c))%nat ->
  thread_recv_check_src_addr gr sender = true -> (path < POTR_MAX_PATH)%nat ->
  let s' := arrive ws (ss j) k in
  exists x' t' es,
    recv_datagram (default [] (cl_wires c !! k)) sender path (World x t) = Some (tt, World x' t', es) /\
    serving x' (moved ss j s') /\
    data_events es = delivered gr (cl_id c) (completed gr (cl_pkts c) ([], false) (tr_next (ss j)) (tr_next s')).
Proof.
  intros Hsv Hj Hk Hsrc Hpath s'. pose proof Hsv as [Hx Hcfg _ Hpe _].
  assert (cfg_ok gr) as Hg by (rewrite <- Hcfg; apply xo_cfg, Hx).
  pose proof (Forall_lookup_1 _ _ _ _ Hclients Hj) as Hck. pose proof Hck as [Hgs Hh Hsid Hf _ _ _ _ Hw Hsame _ Hcount].
  destruct (client_stream _ _ Hck) as [Hst _]. destruct (Hpe j c Hj) as (p & Hat & Hid & Hhear).
  destruct (packet_at_ok _ gr _ _ _ Hst Hsame k Hg Hk) as (ms & Hms & Hp & _).
  destruct (Forall_lookup_1 _ _ _ _ (so_pkts _ _ _ _ Hst) Hms) as [_ Hl].
  destruct (data_image_accepted (cl_cfg c) gr (cl_hdr c) (cl_first c ⊕ Z.of_nat k) (packed_of ms) _ blank_packet Hgs Hg
    Hsame Hh (u32_range _) Hl (data_wires_lookup _ _ _ _ _ _ _ Hf Hw Hms)) as (_ & q & Hparse & Hq & Hauth).
  destruct (delivers_peer_dispatch (cl_cfg c) gr (cl_hdr c) (cl_first c) (cl_pkts c) ([], false) Hst Hsame
    (ns_not_raw _ Hserver) Hcount x (cl_slot c) p Hx Hcfg Hat (ss j) k path sender Hk Hpath (World x t))
    as (wake & [x' t'] & es & Hr & Hd & -> & p' & Hx' & Hh'); [exists p; by rewrite (with_peer_same _ _ _ Hat)|].
  cbn [w_ctx] in Hx'. subst x'. exists (with_peer x (cl_slot c) p'), t', es.
  split; [|split; [by eapply serving_moved|by rewrite Hd, Hid]].
  unfold recv_datagram. rewrite get_cfg_bind. cbn [w_ctx]. rewrite Hcfg, (lift_bind _ _ _ _ Hparse). cbn beta iota.
  rewrite Hq, Hsid, (same_id _ _ Hsame), !Z.eqb_refl, Hsrc, (ns_multi _ Hserver). cbn [Z.eqb POTR_OK negb].
  unfold n1_handle_packet. rewrite get_cfg_bind. cbn [w_ctx]. rewrite Hcfg, (lift_bind _ _ _ _ Hauth). cbn beta iota.
  rewrite <- Hp. cbn [Z.eqb POTR_OK negb].
  rewrite (bind_run_nil _ _ _ _ _ (find_client x ss j c k t Hsv Hj Hk)), ret_bind, (bind_run _ _ _ _ _ _ Hr).
  cbn [when]. unfold mret, M_ret. by rewrite app_nil_r.
Qed.

(** A datagram that is refused. *)
Lemma n1_refused x t buf sender path :
  x_cfg x = gr -> refused gr buf sender = true -> recv_datagram buf sender path (World x t) = Some (tt, World x t, []).
Proof.
  intros Hcfg. unfold refused, recv_datagram. rewrite get_cfg_bind. cbn [w_ctx]. rewrite Hcfg.
  destruct (potr_internal_packet_parse _ _ _) as [[rc [q|]]|] eqn:Hp; [| |done];
    rewrite (lift_bind _ _ _ _ eq_refl); [|by destruct (rc =? POTR_OK)].
  destruct (rc =? POTR_OK); [|done]. cbn [negb orb].
  destruct (negb (pkt_service_id q =? _)); [done|]. destruct (negb (thread_recv_check_src_addr _ _)); [done|].
  rewrite (ns_multi _ Hserver). cbn [orb]. unfold n1_handle_packet. rewrite get_cfg_bind. cbn [w_ctx]. rewrite Hcfg.
  destruct (thread_recv_authenticate_packet _ _ _) as [[rc' q']|] eqn:Ha; [|done].
  rewrite (lift_bind _ _ _ _ eq_refl). intros ->. done.
Qed.

(** *** Turns of the receive thread *)

(** What a turn finds on a path; [QCopy j k] is packet [k] of client [j]. *)
Inductive n1_fed :=
  | QSilence
  | QFailure
  | QCopy (j k : nat) (sender : endpoint)
  | QNoise (buf : list Z) (sender : endpoint).

Definition n1_input (f : n1_fed) : path_input :=
  match f with
  | QSilence => NotReady
  | QFailure => ReadFailed
  | QCopy j k sender => Datagram (default [] (c ← clients !! j; cl_wires c !! k)) sender
  | QNoise buf sender => Datagram buf sender
  end.

Definition n1_fed_ok (f : n1_fed) : Prop :=
  match f with
  | QCopy j k sender => thread_recv_check_src_addr gr sender = true /\
      exists c, clients !! j = Some c /\ (k < length (cl_pkts c))%nat
  | QNoise buf sender => refused gr buf sender = true
  | _ => True
  end.

Definition arrival (f : n1_fed) : option (nat * nat) := match f with QCopy j k _ => Some (j, k) | _ => None end.

(** The packets of client [j] among the arrivals. *)
Definition of_client (j : nat) (l : list (nat * nat)) : list nat :=
  omap (fun a => if (a.1 =? j)%nat then Some a.2 else None) l.

Definition after (ss : nat -> transit) (l : list (nat * nat)) : nat -> transit :=
  fun j => fold_left (arrive ws) (of_client j l) (ss j).

(** The DATA callbacks of the arrivals [l]: for every client those of the
    messages its packets complete, and none for anyone else. *)
Definition heard (ss : nat -> transit) (l : list (nat * nat)) (es : list effect) : Prop :=
  (forall j c, clients !! j = Some c -> data_from (cl_id c) es =
     delivered gr (cl_id c) (completed gr (cl_pkts c) ([], false) (tr_next (ss j)) (tr_next (after ss l j)))) /\
  (forall e, e ∈ data_events es -> exists c, c ∈ clients /\ is_data_of (cl_id c) e = true).

Definition serves {A} (m : M A) (l : list (nat * nat)) : Prop := forall ss x t, serving x ss ->
  exists a x' t' es, m (World x t) = Some (a, World x' t', es) /\ serving x' (after ss l) /\ heard ss l es.

Lemma serving_ext x ss ss' : (forall j, ss j = ss' j) -> serving x ss -> serving x ss'.
Proof. intros He []. split; try done. intros j c Hj. rewrite <- He. by apply sv_peer0. Qed.

Lemma after_app ss l l' j : after ss (l ++ l') j = after (after ss l) l' j.
Proof. unfold after, of_client. by rewrite omap_app, fold_left_app. Qed.

Lemma heard_none ss es : data_events es = [] -> heard ss [] es.
Proof.
  intros Hd. split.
  - intros j c _. rewrite data_from_data, Hd. unfold after. cbn. by rewrite completed_none.
  - rewrite Hd. by intros e ?%not_elem_of_nil.
Qed.

Lemma heard_app ss l l' es es' : heard ss l es -> heard (after ss l) l' es' -> heard ss (l ++ l') (es ++ es').
Proof.
  intros [H1e H2e] [H1e' H2e']. split.
  - intros j c Hj. rewrite data_from_app, (H1e j c Hj), (H1e' j c Hj), <- delivered_app. f_equal.
    rewrite after_app. symmetry. apply completed_trans; apply (arrives_mono gr (cl_pkts c)).
  - intros e. rewrite data_events_app, elem_of_app. intros [He|He]; auto.
Qed.

Lemma serves_bind {A B} (m : M A) (k : A -> M B) l l' :
  serves m l -> (forall a, serves (k a) l') -> serves (m ≫= k) (l ++ l').
Proof.
  intros Hm Hk ss x t Hsv. destruct (Hm ss x t Hsv) as (a & x1 & t1 & e1 & Hr1 & Hsv1 & He1).
  destruct (Hk a (after ss l) x1 t1 Hsv1) as (b & x2 & t2 & e2 & Hr2 & Hsv2 & He2).
  exists b, x2, t2, (e1 ++ e2). split; [by rewrite (bind_run _ _ _ _ _ _ Hr1), Hr2|].
  split; [|by apply heard_app]. eapply serving_ext; [|exact Hsv2]. intros j. by rewrite after_app.
Qed.

Lemma serves_ret {A} (a : A) : serves (mret a) [].
Proof. intros ss x t Hsv. exists a, x, t, []. split; [done|]. split; [done|]. by apply heard_none. Qed.

(** One datagram. *)
Lemma heard_copy x ss j c k es :
  serving x ss -> clients !! j = Some c ->
  data_events es = delivered gr (cl_id c)
    (completed gr (cl_pkts c) ([], false) (tr_next (ss j)) (tr_next (arrive ws (ss j) k))) -> heard ss [(j, k)] es.
Proof.
  intros Hsv Hj Hd. split.
  - intros j' c' Hj'. rewrite data_from_data, Hd, data_from_delivered. unfold after, of_client. cbn [omap list_omap fst snd].
    destruct (Nat.eqb_spec j j') as [<-|Hne].
    + rewrite Hj in Hj'. injection Hj' as <-. rewrite Z.eqb_refl. done.
    + destruct (Z.eqb_spec (cl_id c) (cl_id c')) as [He|_]; [by destruct Hne; eapply ids_distinct|].
      cbn. by rewrite completed_none.
  - intros e. rewrite Hd. intros He%delivered_ids. exists c. split; [by eapply list_elem_of_lookup_2|done].
Qed.

Lemma serves_path f path :
  n1_fed_ok f -> (path < POTR_MAX_PATH)%nat ->
  serves (match n1_input f with Datagram buf sender => when true (recv_datagram buf sender path) | _ => mret tt end)
    (option_list (arrival f)).
Proof.
  intros Hf Hpath. destruct f as [| |j k sender|buf sender]; cbn [n1_input arrival option_list n1_fed_ok] in *;
    try apply serves_ret.
  - destruct Hf as (Hsrc & c & Hj & Hk). intros ss x t Hsv. rewrite Hj. cbn [mbind option_bind when].
    destruct (client_copy x t ss j c k sender path Hsv Hj Hk Hsrc Hpath) as (x' & t' & es & Hr & Hsv' & Hd).
    exists tt, x', t', es. split; [done|]. split; [|by eapply heard_copy].
    eapply serving_ext; [|exact Hsv']. intros j'. unfold moved, after, of_client. cbn.
    destruct (decide (j' = j)) as [->|Hne]; [by rewrite !Nat.eqb_refl|]. by rewrite !(proj2 (Nat.eqb_neq _ _)).
  - intros ss x t Hsv. exists tt, x, t, []. split; [cbn [when]; apply n1_refused; [apply Hsv|done]|].
    split; [done|]. by apply heard_none.
Qed.

Definition n1_turn_ok (turn : list n1_fed) : Prop :=
  (x_n_path gr <= length turn)%nat /\ Forall n1_fed_ok turn /\
  (existsb is_ready (take (x_n_path gr) (map n1_input turn)) = true \/ x_health_timeout_ms gr = 0).

Definition arrivals (turn : list n1_fed) : list (nat * nat) := omap arrival (take (x_n_path gr) turn).

Lemma serves_paths turn n k :
  cfg_ok gr -> Forall n1_fed_ok turn -> (k + n <= x_n_path gr)%nat -> (x_n_path gr <= length turn)%nat ->
  serves (for_range k n (fun k =>
      v ← sock_valid k;
      inp ← lift (map n1_input turn !! k);
      match inp with
      | Datagram buf sender => when v (recv_datagram buf sender k)
      | _ => mret tt
      end)) (omap arrival (take n (drop k turn))).
Proof.
  intros Hg Hf. revert k. induction n as [|n IH]; intros k Hk Hl; [rewrite take_0; apply serves_ret|].
  destruct (lookup_lt_is_Some_2 turn k) as [f Hfk]; [lia|]. cbn [for_range].
  assert (omap arrival (take (S n) (drop k turn))
    = option_list (arrival f) ++ omap arrival (take n (drop (S k) turn))) as ->.
  { rewrite (drop_S _ _ _ Hfk). cbn [take omap list_omap]. by destruct (arrival f). }
  apply serves_bind; [|intros _; apply IH; lia]. pose proof (co_n_path _ Hg) as Hn.
  pose proof (serves_path f k (Forall_lookup_1 _ _ _ _ Hf Hfk) ltac:(lia)) as Hpath.
  intros ss x t Hsv. destruct (Hpath ss x t Hsv) as (a & x' & t' & es & Hr & Hrest).
  exists a, x', t', es. split; [|exact Hrest]. unfold sock_valid. rewrite bind_assoc, get_ctx_bind.
  rewrite (lift_bind _ _ _ _ (sv_sock _ _ Hsv k ltac:(lia))).
  assert (map n1_input turn !! k = Some (n1_input f)) as Hin by by rewrite list_lookup_fmap, Hfk.
  rewrite (lift_bind _ _ _ _ Hin). exact Hr.
Qed.

Lemma serves_idle : x_health_timeout_ms gr = 0 -> serves recv_idle [].
Proof.
  intros Ht ss x t Hsv. exists tt, x, (S t), []. split; [|split; [done|by apply heard_none]].
  unfold recv_idle. rewrite get_cfg_bind. cbn [w_ctx]. rewrite (sv_cfg _ _ Hsv), (ns_multi _ Hserver).
  unfold thread_recv_health_check_peers. rewrite tick_bind, get_cfg_bind. cbn [w_ctx w_tick].
  by rewrite (sv_cfg _ _ Hsv), Ht.
Qed.

Lemma serves_turn turn : cfg_ok gr -> n1_turn_ok turn -> serves (recv_thread_turn (map n1_input turn)) (arrivals turn).
Proof.
  intros Hg (Hl & Hf & Hbusy) ss x t Hsv. unfold recv_thread_turn. rewrite get_cfg_bind. cbn [w_ctx]. rewrite (sv_cfg _ _ Hsv).
  revert ss x t Hsv. change (serves (if existsb is_ready (take (x_n_path gr) (map n1_input turn)) then
    for_range 0 (x_n_path gr) (fun k =>
      v ← sock_valid k;
      inp ← lift (map n1_input turn !! k);
      match inp with
      | Datagram buf sender => when v (recv_datagram buf sender k)
      | _ => mret tt
      end) else recv_idle) (arrivals turn)).
  destruct (existsb _ _) eqn:Hex.
  - pose proof (serves_paths turn (x_n_path gr) 0 Hg Hf ltac:(lia) Hl) as Hp. rewrite drop_0 in Hp. exact Hp.
  - destruct Hbusy as [?|Ht]; [congruence|]. assert (arrivals turn = []) as ->; [|by apply serves_idle].
    unfold arrivals. revert Hex. rewrite (firstn_map n1_input). generalize (take (x_n_path gr) turn).
    induction l as [|f l IH]; [done|]. cbn [map existsb omap list_omap]. intros [H1f H2f]%orb_false_iff.
    destruct f; try done. by apply IH.
Qed.

Lemma serves_run turns :
  cfg_ok gr -> Forall n1_turn_ok turns ->
  serves (recv_thread_run (map (map n1_input) turns)) (concat (map arrivals turns)).
Proof.
  intros Hg Ht. induction Ht as [|turn turns H1t _ IH]; cbn [map recv_thread_run concat]; [apply serves_ret|].
  apply serves_bind; [by apply serves_turn|]. intros _. exact IH.
Qed.

Lemma of_client_bound turns j c k :
  Forall n1_turn_ok turns -> clients !! j = Some c -> k ∈ of_client j (concat (map arrivals turns)) ->
  (k < length (cl_pkts c))%nat.
Proof.
  intros Ht Hj Hk. apply list_elem_of_omap in Hk as ([j' k'] & Hin & Hk). cbn [fst snd] in Hk.
  destruct (Nat.eqb_spec j' j) as [->|]; [|done]. injection Hk as ->.
  apply list_elem_of_In, List.in_concat in Hin as (l & Hl & Hin). apply List.in_map_iff in Hl as (turn & <- & Hturn).
  apply list_elem_of_In, list_elem_of_omap in Hin as (f & Hf & Ha).
  rewrite List.Forall_forall in Ht. destruct (Ht turn Hturn) as (_ & Hall & _).
  apply elem_of_take in Hf as (n & Hf & _). pose proof (Forall_lookup_1 _ _ _ _ Hall Hf) as Hok. clear Hall.
  destruct f as [| |j1 k1 sender|]; try done. injection Ha as -> ->. destruct Hok as (_ & c' & Hc' & Hlt). congruence.
Qed.
End Server.

(** C3. The clients of a server are kept apart.  The clients of an N:1 service
    (encrypted or not) each pack messages into data packets, and copies of these
    packets reach the server on any of its paths, in any order and mixture, each
    any number of times or never, together with datagrams that are refused and
    failed reads.  The receive thread of the server then makes, under the
    identifier of each client, exactly the DATA callbacks of the messages that
    its packets before its first one missing complete: a prefix of the messages
    of this client, in order, each once and unchanged, whatever the others send;
    no DATA callback has another identifier.  A client whose packets fit the
    window and all arrive has every message delivered. *)
Theorem n1_messages_delivered `{CplatByteorder} `{Platform} `{!PlatformLaws} gr clients x t turns :
  let l := concat (map (arrivals gr) turns) in
  n1_server gr -> Forall (client_ok gr) clients -> List.NoDup (map cl_slot clients) ->
  serving gr clients x (fun _ => Transit 0 []) -> Forall (n1_turn_ok gr clients) turns ->
  exists x' t' es,
    recv_thread_run (map (map (n1_input clients)) turns) (World x t) = Some (tt, World x' t', es) /\
    (forall e, e ∈ data_events es -> exists c, c ∈ clients /\ is_data_of (cl_id c) e = true) /\
    forall j c, clients !! j = Some c ->
      let n := tr_next (arrive_all (window_width gr) (of_client j l)) in
      let msgs := snd (reassembled gr (cl_pkts c) ([], false) n) in
      data_from (cl_id c) es = delivered gr (cl_id c) msgs /\
      (forall i, (i < n)%nat -> i ∈ of_client j l) /\
      (exists later, map message_view (cl_msgs c) = msgs ++ later) /\
      ((length (cl_pkts c) <= window_width gr)%nat -> (forall i, (i < length (cl_pkts c))%nat -> i ∈ of_client j l) ->
       msgs = map message_view (cl_msgs c)).
Proof.
  intros l Hserver Hclients Hslots Hsv Hturns.
  assert (cfg_ok gr) as Hg by (rewrite <- (sv_cfg _ _ _ _ Hsv); apply xo_cfg, Hsv).
  destruct (serves_run gr clients Hserver Hclients Hslots turns Hg Hturns _ x t Hsv)
    as ([] & x' & t' & es & Hr & Hsv' & Hdata & Honly). fold l in Hsv', Hdata.
  exists x', t', es. split; [exact Hr|]. split; [exact Honly|]. intros j c Hj n msgs.
  pose proof (Forall_lookup_1 _ _ _ _ Hclients Hj) as Hck. destruct (client_stream _ _ Hck) as [_ Hall].
  destruct (sv_peer _ _ _ _ Hsv' j c Hj) as (p & _ & _ & [_ _ _ Hrv]). pose proof (rv_next _ _ _ _ _ _ _ Hrv) as Hle.
  change (tr_next (after gr (fun _ => Transit 0 []) l j)) with n in Hle.
  pose proof (arrive_all_arrived (window_width gr) (of_client j l)) as (Hg1 & Hg2 & _). split.
  { rewrite (Hdata j c Hj). f_equal. change (tr_next (after gr (fun _ => Transit 0 []) l j)) with n. cbn [tr_next].
    unfold msgs. by rewrite (proj2 (reassembled_split gr (cl_pkts c) ([], false) 0 n (Nat.le_0_l n))). }
  split; [intros i Hi; by apply Hg1, Hg2|]. split; [by apply (reassembled_prefix gr (cl_pkts c))|].
  intros Hws Hevery. unfold msgs. assert (n = length (cl_pkts c)) as ->; [|by rewrite Hall].
  pose proof (co_window _ Hg) as Hcw. apply arrive_all_done; try done; [unfold window_width; lia|].
  intros i Hi. by eapply of_client_bound.
Qed.

(** ** Example: two clients *)

Section TwoClients.
#[local] Existing Instances little_host toy_platform toy_laws.

Definition n1_config : service_config := example_config POTR_TYPE_UNICAST_BIDIR_N1 true.

Definition conn_from (sid sec : Z) : conn :=
  set_session connected_conn (SessionState 77 (Timespec 1 0) sid true (Timespec sec 0)).

(** The server knows the sessions 55 and 56. *)
Definition n1_ctx : potr_context :=
  PotrContext n1_config example_conn (replicate 4 true) (replicate 4 0)
    (Some [Peer 1 true (conn_from 55 9) 1 true; Peer 2 true (conn_from 56 10) 1 true]) 2 3 (replicate 4 true)
    (TcpCloseState false false 0 0) (replicate 4 0) (replicate 4 true) 0 0
    (TcpLinkState 1 false false 0 (Timespec 0 0))
    (Runtime [HCallbackMutex] true (replicate 4 true) (replicate 4 true) (replicate 4 false) (replicate 4 [])).

Definition client_of (sid sec : Z) (msgs : list message) (slot : nat) (id : Z) : client :=
  let hdr := own_session_hdr n1_config (SessionState sid (Timespec sec 0) 0 false ts0) in
  let pkts := map (fun m => [m]) (call_msgs (default [] (send_all n1_config 0 0 msgs))) in
  Client n1_config hdr 0 msgs pkts (default [] (data_wires n1_config hdr 0 pkts)) slot id.

Definition two_clients : list client :=
  [client_of 55 9 example_messages 0 1; client_of 56 10 [([7; 8], 0)] 1 2].

Lemma conn_from_ok sid sec : conn_ok n1_config (conn_from sid sec).
Proof. pose proof (connected_conn_ok POTR_TYPE_UNICAST_BIDIR_N1 true) as Hc. unfold conn_from. conn_solve. Qed.

Lemma n1_ctx_ok : ctx_ok n1_ctx.
Proof.
  destruct (example_ctx_ok POTR_TYPE_UNICAST_BIDIR_N1 true). split; try done. split; [reflexivity|reflexivity| |].
  - intros [|[|i]] p Hp _; try done; injection Hp as <-; (split; [apply conn_from_ok|cbn; unfold POTR_PEER_ALL; lia]).
  - intros [|[|i]] [|[|j]] p q Hp Hq _ _ Hid; try done; cbn in Hp, Hq; simplify_eq.
Qed.

Lemma n1_receiving sid sec pkts :
  let hdr := own_session_hdr n1_config (SessionState sid (Timespec sec 0) 0 false ts0) in
  followed (conn_from sid sec) = Some (pkt_session (data_packet hdr 0 [])) ->
  receiving n1_config hdr 0 pkts ([], false) (set_x_conn n1_ctx (conn_from sid sec)) (Transit 0 []).
Proof.
  intros hdr Hf. split; try done.
  - apply (with_conn_ok n1_ctx SlotCtx _ example_conn); [apply n1_ctx_ok|reflexivity|apply conn_from_ok].
  - intros [|k] Hk; [done|]. cbn in Hk. lia.
  - exact fresh_window_recv.
  - cbn. lia.
  - intros i Hi. by apply not_elem_of_nil in Hi.
Qed.

Lemma two_clients_serving : serving n1_config two_clients n1_ctx (fun _ => Transit 0 []).
Proof.
  split; [apply n1_ctx_ok|reflexivity|intros [|k] Hk; [done|cbn in Hk; lia]| |].
  - intros [|[|j]] c Hc; [..|done]; injection Hc as <-; eexists; (split; [split; reflexivity|]); (split; [reflexivity|]);
      (split; [reflexivity|reflexivity|reflexivity|apply n1_receiving; reflexivity]).
  - intros [|[|j]] c [|[|k]] q Hc [Hq Ha] Hs; try done; injection Hc as <-; injection Hq as <-; try reflexivity;
      vm_compute in Hs; discriminate Hs.
Qed.

Lemma client_of_ok sid sec msgs slot pid :
  Forall (message_ok n1_config) msgs -> Forall (fun m => Forall is_byte m.1) msgs ->
  let c := client_of sid sec msgs slot pid in
  session_hdr_ranges (cl_hdr c) ->
  (forallb (fun p => (length (packed_of p) <=? 48)%nat) (cl_pkts c) = true) ->
  (length (cl_pkts c) < 1000)%nat -> is_Some (send_all n1_config 0 0 msgs) ->
  is_Some (data_wires n1_config (cl_hdr c) 0 (cl_pkts c)) -> client_ok n1_config c.
Proof.
  intros Hms Hb c Hh Hfit Hlen [calls Hs] [wires Hw]. unfold c in *. cbn [client_of cl_hdr cl_pkts] in *.
  split; cbn [client_of cl_cfg cl_hdr cl_first cl_msgs cl_pkts cl_wires]; try done.
  - apply example_cfg_ok.
  - exists 0, 0, calls. split; [done|]. rewrite Hs. cbn [default from_option id].
    generalize (call_msgs calls). induction l as [|m l IH]; [done|]. cbn. by rewrite IH.
  - apply List.Forall_forall. intros p Hp. apply Nat.leb_le. exact (proj1 (List.forallb_forall _ _) Hfit p Hp).
  - by rewrite Hw.
  - cbn. lia.
Qed.

(** The packets of the first client arrive out of order, once and twice, with
    the packet of the second and garbage between them. *)
Definition two_clients_feed : list (list n1_fed) :=
  [[QCopy 0 1 example_sender_addr]; [QCopy 1 0 (Endpoint 16777344 5000)]; [QCopy 0 0 example_sender_addr];
   [QNoise [1; 2; 3] example_sender_addr]; [QCopy 1 0 example_sender_addr]; [QCopy 0 3 example_sender_addr];
   [QCopy 0 2 example_sender_addr]].

Lemma two_clients_feed_ok : Forall (n1_turn_ok n1_config two_clients) two_clients_feed.
Proof.
  assert (forall f, is_ready (n1_input two_clients f) = true -> n1_fed_ok n1_config two_clients f ->
    n1_turn_ok n1_config two_clients [f]) as Hturn.
  { intros f Hr Hf. split; [exact (le_n 1)|]. split; [by apply Forall_cons_2, Forall_nil_2|]. left.
    change (is_ready (n1_input two_clients f) || false = true). by rewrite Hr. }
  repeat (apply Forall_cons_2; [apply Hturn; [reflexivity|]|]); [..|apply Forall_nil_2];
    first [vm_compute; reflexivity
          | split; [reflexivity|]; eexists; split; [reflexivity|]; apply Nat.ltb_lt; vm_compute; reflexivity].
Qed.

Lemma n1_messages_delivered_witness :
  exists x' t' es,
    recv_thread_run (map (map (n1_input two_clients)) two_clients_feed) (World n1_ctx 0) = Some (tt, World x' t', es) /\
    data_from 1 es = [EvCallback 1 POTR_EVENT_DATA (CbBytes [1; 2; 3]); EvCallback 1 POTR_EVENT_DATA (CbBytes (replicate 90 4))] /\
    data_from 2 es = [EvCallback 2 POTR_EVENT_DATA (CbBytes [7; 8])].
Proof.
  destruct (n1_messages_delivered n1_config two_clients n1_ctx 0 two_clients_feed) as (x' & t' & es & Hrun & _ & Hd).
  - split; reflexivity.
  - repeat (apply Forall_cons_2; [apply client_of_ok|]); [..|apply Forall_nil_2];
      first [ repeat (apply Forall_cons_2; [split; [discriminate|split; [left; reflexivity|cbn; lia]]|]); apply Forall_nil_2
            | repeat (apply Forall_cons_2; [apply forallb_is_byte; reflexivity|]); apply Forall_nil_2
            | split; (split; [vm_compute; discriminate | vm_compute; reflexivity])
            | vm_compute; reflexivity
            | apply Nat.ltb_lt; vm_compute; reflexivity
            | eexists; vm_compute; reflexivity ].
  - repeat constructor; cbn; intuition discriminate.
  - exact two_clients_serving.
  - exact two_clients_feed_ok.
  - exists x', t', es. split; [exact Hrun|]. split.
    + destruct (Hd 0%nat _ eq_refl) as (H1d & _). cbn [cl_id client_of] in H1d. rewrite H1d. vm_compute. reflexivity.
    + destruct (Hd 1%nat _ eq_refl) as (H1d & _). cbn [cl_id client_of] in H1d. rewrite H1d. vm_compute. reflexivity.
Defined.
End TwoClients.
