(* ===== verification/Retransmit.v ===== *)
(** Retransmission: the packets a sender keeps, and what it answers to a NACK.
    Together with the delivery over a lossy network (UdpDelivery.v) this closes
    the loop of the protocol: what is sent again is, byte for byte, what was
    sent first. *)

From stdpp Require Import base list numbers option.
From Stdlib Require Import ZArith Lia ZifyBool.
From S2P Require Import Prelude Types Packet Window SendQueue Context PathEvent Validate.
From S2P Require Import PeerTable RecvSlot Session Fin RecvWindow HealthThread Send.
From S2P Require Import SendTurn Dispatch RecvThread Delivery UdpDelivery.
Local Open Scope Z_scope.
Local Open Scope porter_scope.

(** ** Packets in the send window *)

Section Kept.
Context `{CplatByteorder} `{Platform} `{!PlatformLaws}.

(** The wire image of a packet of the send window, whose header is in network
    byte order. *)
Definition kept_wire (c : potr_packet (list Z)) : list Z := packet_header_bytes c ++ pkt_payload c.

(** The window keeps the packet whose wire image is sent. *)
Lemma seal_packed_kept g h seq packed p wire :
  cfg_ok g -> (length packed <= pack_cap g)%nat ->
  seal_packed g (built h seq 0 POTR_FLAG_DATA (Z.of_nat (length packed)) (Some packed)) packed = Some p ->
  data_wire g p packed = Some wire -> kept_wire (content nbo_len p) = wire.
Proof.
  intros Hg Hl. pose proof (co_payload _ Hg) as Hm. unfold POTR_MAX_PAYLOAD in Hm.
  unfold pack_cap, crypto_tag_overhead, POTR_CRYPTO_TAG_SIZE in Hl.
  unfold seal_packed, data_wire, kept_wire, content. destruct (encrypt_enabled (x_service g)).
  - cbv zeta. rewrite mark_encrypted_built;
      [|apply list_elem_of_In; by left|unfold POTR_CRYPTO_TAG_SIZE; lia].
    destruct (cplat_crypto_encrypt _ _ _ _ _) as [ct|] eqn:Hct; [|done]. intros [= <-].
    destruct (encrypt_length _ _ _ _ _ _ Hct) as [Hctl _]. unfold POTR_CRYPTO_TAG_SIZE in *.
    cbn [with_payload pkt_payload pkt_payload_len default from_option id set_body built sealed_pkt].
    destruct (_ <? _)%nat; [done|]. intros [= <-]. f_equal. unfold nbo_len.
    cbn [pkt_payload_len set_body built]. rewrite ntoh16_hton16 by lia.
    rewrite Nat2Z.id, <- Hctl. apply firstn_all.
  - intros [= <-]. cbn [with_payload pkt_payload pkt_payload_len default from_option id built set_body].
    destruct (_ <? _)%nat; [done|]. intros [= <-]. f_equal. unfold nbo_len.
    rewrite ntoh16_hton16 by lia. rewrite Nat2Z.id. apply firstn_all.
Qed.

(** A flush on UDP: [flush_build_run] with what the window holds. *)
Lemma flush_build_kept packed x t pkts :
  let g := x_cfg x in let c := x_conn x in
  ctx_ok x -> is_tcp_type (service_type (x_service g)) = false ->
  (0 < length packed <= pack_cap g)%nat -> send_repr (c_send_window c) pkts ->
  match data_image g (own_session_hdr g (c_session c)) (win_next_seq (c_send_window c)) packed with
  | None => flush_build SlotCtx packed (World x t) = Some (None, World x t, [])
  | Some wire => exists w' k, flush_build SlotCtx packed (World x t)
      = Some (Some wire, World (with_conn x SlotCtx (set_send_has_data (set_send_window c w') true)) t, []) /\
      win_dims g w' /\ win_next_seq w' = win_next_seq (c_send_window c) ⊕ 1 /\
      send_repr w' (spec_push (Z.to_nat (window_size_cfg (x_global g))) pkts k) /\ kept_wire k = wire
  end.
Proof.
  intros g c Hx Ht [Hpos Hlen] Hr. set (h := own_session_hdr g (c_session c)).
  set (n := win_next_seq (c_send_window c)). pose proof (xo_cfg _ Hx) as Hg. fold g in Hg.
  pose proof (seal_packed_spec g h n packed Hg Hlen) as Hseal.
  pose proof (co_payload _ Hg) as Hm. pose proof (pack_cap_le g) as Hcap.
  unfold flush_build. rewrite get_cfg_bind, (get_conn_bind x SlotCtx c _ _ eq_refl). cbn [w_ctx].
  fold g h n. rewrite build_packed_built by lia. change POTR_OK with 0. cbv beta iota.
  destruct (seal_packed _ _ _) as [p|] eqn:Hp, (data_image g h n packed) as [wire|]; try done.
  destruct Hseal as [Hwire Hst]. pose proof (ok_send _ _ (xo_conn _ Hx)) as [[Hd1 Hd2] _]. fold g c in Hd1, Hd2.
  destruct (send_push_spec (c_send_window c) pkts p Hr) as (w' & Hpush & Hws & Hmp & Hn & Hr'); [by rewrite Hd2|].
  exists w', (content nbo_len p). rewrite Ht, bind_assoc, (lift_bind _ _ _ _ Hpush). cbn beta iota.
  rewrite (bind_run_nil _ _ _ _ _ eq_refl), (put_conn_bind x SlotCtx _ c _ _ eq_refl).
  rewrite (lift_bind _ _ _ _ Hwire). split; [done|]. split; [split; congruence|]. split; [done|].
  rewrite <- Hd1. split; [done|]. by eapply seal_packed_kept.
Qed.

(** ** Datagrams to every destination *)

Lemma wire_to_dests_run x t wire :
  ctx_ok x ->
  exists t', slot_send_wire_to_dests SlotCtx wire (World x t)
    = Some (tt, World x t', datagrams 0 (x_n_path (x_cfg x)) (c_dest_addr (x_conn x)) wire).
Proof.
  intros Hx. unfold slot_send_wire_to_dests. rewrite get_cfg_bind, (get_conn_bind x SlotCtx _ _ _ eq_refl).
  cbn [w_ctx slot_is_peer]. pose proof (ok_dest _ _ (xo_conn _ Hx)) as Hd.
  pose proof (co_n_path _ (xo_cfg _ Hx)) as Hn. set (dests := c_dest_addr (x_conn x)) in *.
  cut (forall n k t, (k + n <= POTR_MAX_PATH)%nat -> exists t', for_range k n (fun k =>
    d ← lift (dests !! k); _ ← sock_valid k; _ ← socket_sendto k wire d; mret tt) (World x t)
    = Some (tt, World x t', datagrams k n dests wire)); [intros Hall; apply Hall; lia|].
  induction n as [|n IH]; intros k t0 Hk; [by exists t0|]. cbn [for_range].
  destruct (lookup_lt_is_Some_2 dests k) as [d Hdk]; [lia|].
  destruct (lookup_lt_is_Some_2 (x_sock x) k) as [so Hso]; [rewrite (xo_sock _ Hx); lia|].
  destruct (IH (S k) (S t0) ltac:(lia)) as [t' Hr]. exists t'.
  rewrite (bind_run _ _ _ tt (World x (S t0)) [EvSendto k wire d]).
  - rewrite Hr. unfold datagrams. cbn [seq map]. by rewrite Hdk.
  - rewrite (lift_bind _ _ _ _ Hdk). unfold sock_valid. by rewrite bind_assoc, get_ctx_bind, (lift_bind _ _ _ _ Hso).
Qed.

(** A flush puts the packet on every path and keeps it. *)
Lemma flush_packed_kept packed x t pkts :
  let g := x_cfg x in let c := x_conn x in
  ctx_ok x -> is_tcp_type (service_type (x_service g)) = false ->
  (0 < length packed <= pack_cap g)%nat -> send_repr (c_send_window c) pkts ->
  match data_image g (own_session_hdr g (c_session c)) (win_next_seq (c_send_window c)) packed with
  | None => flush_packed packed (World x t) = Some (tt, World x t, [])
  | Some wire => exists w' k x' t' es, flush_packed packed (World x t) = Some (tt, World x' t', es) /\
      sent_datagrams es = datagrams 0 (x_n_path g) (c_dest_addr c) wire /\
      ctx_ok x' /\ x_cfg x' = g /\ x_conn x' = set_send_has_data (set_send_window c w') true /\
      win_next_seq w' = win_next_seq (c_send_window c) ⊕ 1 /\
      send_repr w' (spec_push (Z.to_nat (window_size_cfg (x_global g))) pkts k) /\ kept_wire k = wire
  end.
Proof.
  intros g c Hx Ht Hl Hr. pose proof (flush_build_kept packed x t pkts Hx Ht Hl Hr) as Hrun. fold g c in Hrun.
  unfold flush_packed. rewrite get_cfg_bind. cbn [w_ctx]. fold g.
  destruct (data_image _ _ _ _) as [wire|]; [|by rewrite (bind_run_nil _ _ _ _ _ Hrun)].
  destruct Hrun as (w' & k & Hrun & Hd & Hn & Hr' & Hk). rewrite (bind_run_nil _ _ _ _ _ Hrun), Ht.
  assert (ctx_ok (with_conn x SlotCtx (set_send_has_data (set_send_window c w') true))) as Hx1.
  { apply flushed_ok; [done..|]. split; [done|]. fold g. rewrite Ht. by eexists. }
  set (c1 := set_send_has_data _ _) in *. set (x1 := with_conn x SlotCtx c1) in *.
  rewrite (get_conn_bind x1 SlotCtx c1 t _ eq_refl).
  destruct (ping_sends_run x1 wire (x_n_path g) 0 (c_dest_addr c1) false t Hx1) as (sent & t1 & Hs);
    [apply (xo_cfg _ Hx)|apply (ok_dest _ _ (xo_conn _ Hx))|].
  rewrite (bind_run _ _ _ _ _ _ Hs). exists w', k. unfold when.
  destruct (sent && should_track_valid_data_send_time g).
  - set (x2 := set_x_last_valid_data_send_ms x1 (clock_monotonic_ms t1)).
    assert (ctx_ok x2) as Hx2 by by destruct Hx1.
    destruct (lookup_lt_is_Some_2 (x_health_running x2) 0) as [r Hrn];
      [rewrite (xo_running _ Hx2); unfold POTR_MAX_PATH; lia|].
    exists x2, (S t1), (datagrams 0 (x_n_path g) (c_dest_addr c1) wire ++ if r then [EvHealthWake 0] else []).
    split; [|split; [|done]].
    + rewrite tick_bind, get_ctx_bind. cbn [w_ctx w_tick]. rewrite put_ctx_bind. cbn [w_tick]. fold x2.
      unfold potr_internal_health_thread_wake, signal_health_thread. cbn [Nat.leb POTR_MAX_PATH].
      rewrite get_ctx_bind. cbn [w_ctx]. rewrite (lift_bind _ _ _ _ Hrn). by destruct r.
    + unfold sent_datagrams. rewrite List.filter_app. fold (sent_datagrams (datagrams 0 (x_n_path g) (c_dest_addr c1) wire)).
      rewrite sent_datagrams_all. destruct r; apply app_nil_r.
  - exists x1, t1, (datagrams 0 (x_n_path g) (c_dest_addr c1) wire).
    split; [unfold mret, M_ret; by rewrite app_nil_r|]. split; [apply sent_datagrams_all|done].
Qed.
End Kept.

(** ** The sender's side of the protocol *)

Section Sender.
Context `{CplatByteorder} `{Platform} `{!PlatformLaws}.
Context (g : service_config) (h : session_hdr) (first : Z) (dests : list endpoint).
Hypothesis Hudp : is_tcp_type (service_type (x_service g)) = false.

Let ws : nat := Z.to_nat (window_size_cfg (x_global g)).

(** The sender has sent the wire images [log], numbered from [first], and
    has answered NACKs for the numbers [asked] only. *)
Record sending (x : potr_context) (log : list (list Z)) (asked : list Z) : Prop := {
  sd_ok : ctx_ok x;
  sd_cfg : x_cfg x = g;
  sd_hdr : own_session_hdr g (c_session (x_conn x)) = h;
  sd_dests : c_dest_addr (x_conn x) = dests;
  sd_next : win_next_seq (c_send_window (x_conn x)) = first ⊕ Z.of_nat (length log);
  sd_kept : exists pkts, send_repr (c_send_window (x_conn x)) pkts /\
    map kept_wire pkts = drop (length log - ws) log;
  sd_asked : forall a t, (a, t) ∈ nack_dedup_buf (c_dedup (x_conn x)) -> t <> 0 -> a ∈ asked
}.

(** The packet number [n] asks for, if it is one of the last [ws] sent. *)
Definition nack_reply (log : list (list Z)) (n : Z) : option (list Z) :=
  let j := Z.to_nat (n ⊖ first) in if (length log <=? j + ws)%nat then log !! j else None.

Definition reject_image (n : Z) : option (list Z) := build_ctrl_pkt_wire g (built h 0 n POTR_FLAG_REJECT 0 None).

(** The datagrams that answer a NACK. *)
Definition nack_answer (log : list (list Z)) (n : Z) : list effect :=
  match nack_reply log n with
  | Some wire => datagrams 0 (x_n_path g) dests wire
  | None => match reject_image n with Some wire => datagrams 0 (x_n_path g) dests wire | None => [] end
  end.

Lemma kept_lookup w pkts log n :
  send_repr w pkts -> win_next_seq w = first ⊕ Z.of_nat (length log) ->
  map kept_wire pkts = drop (length log - ws) log -> Z.of_nat (length log) < 4294967296 ->
  win_window_size w = Z.of_nat ws -> kept_wire <$> pkts !! Z.to_nat (n ⊖ win_base_seq w) = nack_reply log n.
Proof.
  intros Hr Hn Hk Hl Hws. pose proof (send_dist _ _ Hr) as Hd. destruct Hr as (Hle & Hnx & Hrep).
  destruct (repr_shape _ _ _ Hrep) as (ps & vs & pool & [] & _).
  assert (length pkts = length log - (length log - ws))%nat as Hp.
  { apply (f_equal length) in Hk. rewrite length_map, length_drop in Hk. exact Hk. }
  rewrite <- list_lookup_fmap. change (kept_wire <$> pkts) with (map kept_wire pkts). rewrite Hk, lookup_drop.
  assert (n ⊖ win_base_seq w = u32 ((n ⊖ first) - Z.of_nat (length log - length pkts))) as ->.
  { rewrite Hn in Hd. rewrite u32_sub_l in Hd. rewrite u32_sub_l.
    assert (win_base_seq w = u32 (first + Z.of_nat (length log - length pkts))) as ->; [|rewrite u32_sub_r; f_equal; lia].
    transitivity ((win_base_seq w ⊕ Z.of_nat (length pkts)) ⊖ Z.of_nat (length pkts)).
    - rewrite u32_sub_l, Z.add_simpl_r, u32_small; done.
    - rewrite <- Hnx, Hn, u32_sub_l. f_equal. lia. }
  unfold nack_reply. cbv zeta. pose proof (u32_range (n - first)) as Hj. set (j := n ⊖ first) in *.
  destruct (Nat.leb_spec (length log) (Z.to_nat j + ws)) as [Hc|Hc].
  - rewrite u32_small by lia. f_equal. lia.
  - apply lookup_ge_None_2.
    assert (u32 (j - Z.of_nat (length log - length pkts)) = j - Z.of_nat (length log - length pkts) + 4294967296) as ->
      by zmod. lia.
Qed.

(** Answering a NACK that is not a repetition. *)
Lemma retransmit_run x t log asked n :
  sending x log asked -> Z.of_nat (length log) < 4294967296 ->
  exists t', slot_retransmit_or_reject SlotCtx n (World x t) = Some (tt, World x t', nack_answer log n).
Proof.
  intros [Hx Hcfg Hh Hd Hn (pkts & Hr & Hk) _] Hl. unfold slot_retransmit_or_reject.
  rewrite get_cfg_bind, (get_conn_bind x SlotCtx _ _ _ eq_refl). cbn [w_ctx].
  destruct (send_get_spec _ _ n Hr) as (rc & q & Hget & Hq). rewrite (lift_bind _ _ _ _ Hget). cbn beta iota.
  pose proof (ok_send _ _ (xo_conn _ Hx)) as [[Hd1 Hd2] _]. rewrite Hcfg in *.
  pose proof (xo_cfg _ Hx) as Hg. rewrite Hcfg in Hg. pose proof (co_window _ Hg) as Hcw.
  pose proof (kept_lookup _ _ log n Hr Hn Hk Hl ltac:(unfold ws; lia)) as Hlk. unfold nack_answer.
  destruct (pkts !! _) as [pc|]; rewrite <- Hlk; cbn [fmap option_fmap option_map].
  - destruct Hq as (-> & p & -> & <- & Hfit & bs & Hbs & Hlen). rewrite Hd2 in Hfit. cbn [Z.eqb POTR_OK].
    rewrite (lift_bind _ _ _ _ (resend_wire_ok g p bs Hfit Hbs Hlen)).
    destruct (wire_to_dests_run x t (packet_header_bytes p ++ take (nbo_len (pkt_payload_len p)) bs) Hx) as [t' Hrun].
    exists t'. rewrite Hrun, Hcfg, Hd. unfold kept_wire, content. cbn [with_payload pkt_payload]. by rewrite Hbs.
  - destruct Hq as [-> ->]. cbn [Z.eqb POTR_ERR_NOT_FOUND POTR_OK]. unfold slot_send_reject.
    rewrite get_cfg_bind, (get_conn_bind x SlotCtx _ _ _ eq_refl). cbn [w_ctx]. rewrite build_reject_built.
    change POTR_OK with 0. cbv beta iota. unfold slot_send_ctrl. rewrite get_cfg_bind. cbn [w_ctx]. rewrite Hcfg.
    change (fill_own_session_hdr g (x_conn x)) with (own_session_hdr g (c_session (x_conn x))). rewrite Hh.
    unfold reject_image. destruct (build_ctrl_pkt_wire _ _) as [wire|]; [|by exists t].
    destruct (wire_to_dests_run x t wire Hx) as [t' Hrun]. exists t'. by rewrite Hrun, Hcfg, Hd.
Qed.

(** A NACK is passed over only when its number was answered before. *)
Lemma nack_duplicate_run x t log asked n :
  sending x log asked ->
  exists b x' t', nack_is_duplicate SlotCtx n (World x t) = Some (b, World x' t', []) /\
    sending x' log (n :: asked) /\ (b = true -> n ∈ asked).
Proof.
  intros Hsd. pose proof Hsd as [Hx Hcfg Hh Hd Hn Hk Ha]. unfold nack_is_duplicate. rewrite tick_bind.
  rewrite (get_conn_bind x SlotCtx _ _ _ eq_refl). cbv zeta. set (d := c_dedup (x_conn x)) in *.
  set (now := clock_monotonic_ms (w_tick (World x t))).
  destruct (existsb _ _) eqn:Hex.
  - exists true, x, (S t). split; [done|]. split.
    + destruct Hsd. split; try done. intros a t' Hin Ht'. right. by apply (Ha a t').
    + intros _. apply existsb_exists in Hex as ([a t'] & Hin & Hb). apply andb_prop in Hb as [Hb _].
      apply andb_prop in Hb as [Ht Hb]. assert (a = n) as <- by lia. apply (Ha a t'); [|lia].
      apply list_elem_of_In in Hin. apply elem_of_take in Hin as (k & Hk' & _). by eapply list_elem_of_lookup_2.
  - pose proof (ok_dedup _ _ (xo_conn _ Hx)) as [Hl Hnx]. fold d in Hl, Hnx.
    destruct (lookup_lt_is_Some_2 (nack_dedup_buf d) (Z.to_nat (nack_dedup_next d))) as [e He]; [lia|].
    rewrite (lift_bind _ _ _ _ He). set (d' := DedupState _ _).
    assert (ctx_ok (with_conn x SlotCtx (set_dedup (x_conn x) d'))) as Hx'.
    { eapply with_conn_ok; [exact Hx|reflexivity|]. pose proof (xo_conn _ Hx) as Hc. conn_solve.
      split; cbn [d' nack_dedup_buf nack_dedup_next]; [by rewrite length_insert|].
      unfold u8, POTR_NACK_DEDUP_SLOTS in *. rewrite Z.mod_small; [|zmod]. zmod. }
    rewrite (put_conn_bind x SlotCtx _ (x_conn x) _ _ eq_refl).
    exists false, (with_conn x SlotCtx (set_dedup (x_conn x) d')), (S t). split; [done|]. split; [|done].
    split; try done. cbn [with_conn set_x_conn x_conn set_dedup c_dedup d' nack_dedup_buf]. intros a t' Hin Ht'.
    apply list_elem_of_lookup_1 in Hin as [k Hin]. apply list_lookup_insert_Some in Hin as [(_ & [= <- <-] & _)|[_ Hin]].
    + by left.
    + right. apply (Ha a t'); [by eapply list_elem_of_lookup_2|done].
Qed.

Lemma sending_tick x log asked n : sending x log asked -> sending x log (n :: asked).
Proof. intros []. split; try done. intros a t Hin Ht. right. eauto. Qed.

(** *** A conversation *)

(** The sender packs messages into a packet, or a NACK arrives. *)
Inductive sender_op :=
  | OpFlush (ms : list sq_msg)
  | OpNack (pkt : packet).

Definition sender_do (op : sender_op) : M unit :=
  match op with
  | OpFlush ms => flush_packed (packed_of ms)
  | OpNack pkt => thread_recv_window_on_nack SlotCtx pkt
  end.

(** The effects of the operations, one list each. *)
Fixpoint sender_run (ops : list sender_op) (w : world) : option (world * list (list effect)) :=
  match ops with
  | [] => Some (w, [])
  | op :: ops =>
      '(_, w1, es) ← sender_do op w;
      '(w2, trace) ← sender_run ops w1;
      Some (w2, es :: trace)
  end.

Definition op_ok (op : sender_op) : Prop :=
  match op with
  | OpFlush ms => Forall (msg_ok g) ms /\ ms <> [] /\ (length (packed_of ms) <= pack_cap g)%nat
  | OpNack pkt => pkt_flags pkt has POTR_FLAG_NACK = true
  end.

(** What is on the wire: a new packet is the image of its data under the next
    number; a NACK is answered from the log, or passed over when its number
    has been answered before. *)
Fixpoint lawful (log : list (list Z)) (asked : list Z) (ops : list sender_op) (trace : list (list effect)) : Prop :=
  match ops, trace with
  | [], [] => True
  | OpFlush ms :: ops, es :: trace =>
      match data_image g h (first ⊕ Z.of_nat (length log)) (packed_of ms) with
      | Some wire => sent_datagrams es = datagrams 0 (x_n_path g) dests wire /\ lawful (log ++ [wire]) asked ops trace
      | None => sent_datagrams es = [] /\ lawful log asked ops trace
      end
  | OpNack pkt :: ops, es :: trace =>
      (sent_datagrams es = nack_answer log (pkt_ack_num pkt) \/ (es = [] /\ pkt_ack_num pkt ∈ asked)) /\
      lawful log (pkt_ack_num pkt :: asked) ops trace
  | _, _ => False
  end.

Lemma log_push (pkts : list (potr_packet (list Z))) log k :
  (0 < ws)%nat -> map kept_wire pkts = drop (length log - ws) log ->
  map kept_wire (spec_push ws pkts k) = drop (length (log ++ [kept_wire k]) - ws) (log ++ [kept_wire k]).
Proof.
  intros Hws Hk. assert (length pkts = length log - (length log - ws))%nat as Hp.
  { apply (f_equal length) in Hk. rewrite length_map, length_drop in Hk. exact Hk. }
  rewrite length_app. cbn [length]. unfold spec_push. rewrite map_app. cbn [map].
  destruct (Nat.leb_spec ws (length pkts)) as [Hc|Hc].
  - rewrite drop_app_le by lia. f_equal.
    replace (map kept_wire (tail pkts)) with (tail (map kept_wire pkts)) by by destruct pkts.
    rewrite Hk. replace (length log + 1 - ws)%nat with (length log - ws + 1)%nat by lia.
    rewrite <- drop_drop. by destruct (drop (length log - ws) log).
  - replace (length log + 1 - ws)%nat with 0%nat by lia. replace (length log - ws)%nat with 0%nat in Hk by lia.
    by rewrite Hk.
Qed.

Lemma flush_step x t log asked ms :
  sending x log asked -> op_ok (OpFlush ms) ->
  exists x' t' es, flush_packed (packed_of ms) (World x t) = Some (tt, World x' t', es) /\
    match data_image g h (first ⊕ Z.of_nat (length log)) (packed_of ms) with
    | Some wire => sent_datagrams es = datagrams 0 (x_n_path g) dests wire /\ sending x' (log ++ [wire]) asked
    | None => sent_datagrams es = [] /\ sending x' log asked
    end.
Proof.
  intros Hsd (Hms & Hne & Hl). pose proof Hsd as [Hx Hcfg Hh Hd Hn (pkts & Hr & Hk) Ha].
  assert (0 < length (packed_of ms))%nat as Hpos.
  { destruct ms as [|[[peer f] bs] ms]; [done|]. unfold packed_of. cbn [map concat].
    rewrite length_app. unfold elem_bytes. rewrite length_app, length_be_encode. lia. }
  pose proof (flush_packed_kept (packed_of ms) x t pkts Hx) as Hrun. cbv zeta in Hrun. rewrite Hcfg, Hh, Hn, Hd in Hrun.
  specialize (Hrun Hudp (conj Hpos Hl) Hr). destruct (data_image _ _ _ _) as [wire|].
  - destruct Hrun as (w' & k & x' & t' & es & Hrun & Hes & Hx' & Hcfg' & Hc' & Hn' & Hr' & Hw).
    exists x', t', es. split; [done|]. split; [done|]. subst wire.
    split; rewrite ?Hc'; try done; [|exists (spec_push ws pkts k); split; [done|]].
    + cbn [set_send_has_data set_send_window c_send_window]. rewrite Hn', u32_add_l, length_app. cbn [length].
      f_equal. lia.
    + apply log_push; [|done]. pose proof (xo_cfg _ Hx) as Hg. rewrite Hcfg in Hg.
      pose proof (co_window _ Hg). unfold ws. lia.
  - exists x, t, []. done.
Qed.

Lemma nack_step x t log asked pkt :
  is_raw_type (service_type (x_service g)) = false -> Z.of_nat (length log) < 4294967296 ->
  sending x log asked -> op_ok (OpNack pkt) ->
  exists x' t' es, thread_recv_window_on_nack SlotCtx pkt (World x t) = Some (tt, World x' t', es) /\
    (sent_datagrams es = nack_answer log (pkt_ack_num pkt) \/ (es = [] /\ pkt_ack_num pkt ∈ asked)) /\
    sending x' log (pkt_ack_num pkt :: asked).
Proof.
  intros Hraw Hl Hsd Hf. cbn [op_ok] in Hf. unfold thread_recv_window_on_nack. rewrite get_cfg_bind. cbn [w_ctx].
  rewrite (sd_cfg _ _ _ Hsd), Hf, Hraw. cbn [negb].
  destruct (nack_duplicate_run x t log asked (pkt_ack_num pkt) Hsd) as (b & x' & t1 & Hr & Hsd' & Hb).
  rewrite (bind_run_nil _ _ _ _ _ Hr). destruct b.
  - exists x', t1, []. split; [done|]. split; [right; auto|done].
  - destruct (retransmit_run x' t1 log _ (pkt_ack_num pkt) Hsd' Hl) as [t' Hrun].
    exists x', t', (nack_answer log (pkt_ack_num pkt)). split; [exact Hrun|]. split; [left|done].
    unfold nack_answer. destruct (nack_reply _ _); [apply sent_datagrams_all|].
    destruct (reject_image _); [apply sent_datagrams_all|done].
Qed.

Lemma sender_run_lawful ops : forall x t log asked,
  is_raw_type (service_type (x_service g)) = false ->
  Z.of_nat (length log) + Z.of_nat (length ops) < 4294967296 ->
  sending x log asked -> Forall op_ok ops ->
  exists x' t' trace, sender_run ops (World x t) = Some (World x' t', trace) /\ lawful log asked ops trace.
Proof.
  induction ops as [|op ops IH]; intros x t log asked Hraw Hl Hsd Hops; [by exists x, t, []|].
  apply Forall_cons_1 in Hops as [Hop Hops]. cbn [length] in Hl.
  destruct op as [ms|pkt]; cbn [sender_run sender_do lawful].
  - destruct (flush_step x t log asked ms Hsd Hop) as (x1 & t1 & es & Hr & Hres). rewrite Hr.
    cbn [mbind option_bind]. destruct (data_image _ _ _ _) as [wire|]; destruct Hres as [Hes Hsd1].
    + destruct (IH x1 t1 (log ++ [wire]) asked Hraw) as (x' & t' & trace & Hrun & Hlaw);
        [rewrite length_app; cbn [length]; lia|done..|]. rewrite Hrun. by exists x', t', (es :: trace).
    + destruct (IH x1 t1 log asked Hraw) as (x' & t' & trace & Hrun & Hlaw); [lia|done..|].
      rewrite Hrun. by exists x', t', (es :: trace).
  - destruct (nack_step x t log asked pkt Hraw ltac:(lia) Hsd Hop) as (x1 & t1 & es & Hr & Hes & Hsd1). rewrite Hr.
    cbn [mbind option_bind]. destruct (IH x1 t1 log _ Hraw ltac:(lia) Hsd1 Hops) as (x' & t' & trace & Hrun & Hlaw).
    rewrite Hrun. by exists x', t', (es :: trace).
Qed.
(** *** Nothing else is on the wire *)

(** The data of the packets, in order. *)
Definition flushes (ops : list sender_op) : list (list sq_msg) :=
  omap (fun op => match op with OpFlush ms => Some ms | OpNack _ => None end) ops.

(** A datagram that is a copy of a data packet, or a REJECT. *)
Definition genuine (wires : list (list Z)) (e : effect) : Prop :=
  match e with
  | EvSendto _ w _ => w ∈ wires \/ exists n, reject_image n = Some w
  | _ => True
  end.

Lemma genuine_datagrams wires k n w :
  w ∈ wires \/ (exists a, reject_image a = Some w) -> Forall (genuine wires) (datagrams k n dests w).
Proof. intros Hw. apply Forall_fmap, Forall_forall. intros j _. exact Hw. Qed.

Lemma genuine_answer log wires n :
  (forall w, w ∈ log -> w ∈ wires) -> Forall (genuine wires) (nack_answer log n).
Proof.
  intros Hin. unfold nack_answer, nack_reply. cbv zeta. destruct (_ <=? _)%nat.
  - destruct (log !! _) as [w|] eqn:Hw.
    + apply genuine_datagrams. left. by eapply Hin, list_elem_of_lookup_2.
    + destruct (reject_image n) as [w|] eqn:Hr; [|constructor]. apply genuine_datagrams. eauto.
  - destruct (reject_image n) as [w|] eqn:Hr; [|constructor]. apply genuine_datagrams. eauto.
Qed.

Lemma lawful_genuine ops : forall log asked trace rest,
  lawful log asked ops trace -> data_wires g h (first ⊕ Z.of_nat (length log)) (flushes ops) = Some rest ->
  Forall (fun es => Forall (genuine (log ++ rest)) (sent_datagrams es)) trace.
Proof.
  induction ops as [|op ops IH]; intros log asked [|es trace] rest Hlaw Hw; cbn [lawful] in Hlaw; [constructor|done|by destruct op|].
  destruct op as [ms|pkt].
  - cbn [flushes omap list_omap data_wires] in Hw. destruct (data_image _ _ _ _) as [wire|]; [|done].
    destruct Hlaw as [Hes Hlaw]. cbn [mbind option_bind] in Hw.
    destruct (data_wires g h _ _) as [rest'|] eqn:Hr in Hw; [|done]. injection Hw as <-.
    constructor.
    + rewrite Hes. apply genuine_datagrams. left. apply elem_of_app. right. by left.
    + specialize (IH (log ++ [wire]) asked trace rest' Hlaw). rewrite <- app_assoc in IH. apply IH.
      rewrite length_app. cbn [length]. rewrite u32_add_l in Hr. rewrite <- Hr. do 2 f_equal. lia.
  - destruct Hlaw as [Hes Hlaw]. constructor; [|by eapply IH].
    destruct Hes as [-> | [-> _]]; [|constructor]. apply genuine_answer. intros w Hin. apply elem_of_app. by left.
Qed.
End Sender.

(** C4. What is lost is sent again unchanged.  A UDP sender (any type but RAW)
    with an empty window sends any data, and NACKs arrive in between for any
    numbers: the operations never fault; each new packet goes out on every path
    under the next number; a NACK for one of the last [window_size] packets
    makes exactly the datagrams of that packet again, byte for byte, and one for
    any other number a REJECT of that number; a NACK is passed over only when
    its number has been asked for before.  Hence every datagram on the wire is a
    copy of one of the data packets (those whose delivery
    [udp_messages_delivered] is about) or a REJECT. *)
Theorem nack_retransmits `{CplatByteorder} `{Platform} `{!PlatformLaws} x t ops :
  let g := x_cfg x in
  let h := own_session_hdr g (c_session (x_conn x)) in
  let first := win_next_seq (c_send_window (x_conn x)) in
  let dests := c_dest_addr (x_conn x) in
  is_tcp_type (service_type (x_service g)) = false -> is_raw_type (service_type (x_service g)) = false ->
  sending g h first dests x [] [] -> Forall (op_ok g) ops -> Z.of_nat (length ops) < 4294967296 ->
  exists x' t' trace, sender_run ops (World x t) = Some (World x' t', trace) /\
    lawful g h first dests [] [] ops trace /\
    forall wires, data_wires g h first (flushes ops) = Some wires ->
      Forall (fun es => Forall (genuine g h wires) (sent_datagrams es)) trace.
Proof.
  intros g h first dests Htcp Hraw Hsd Hops Hl.
  destruct (sender_run_lawful g h first dests Htcp ops x t [] [] Hraw Hl Hsd Hops) as (x' & t' & trace & Hr & Hlaw).
  exists x', t', trace. split; [done|]. split; [done|]. intros wires Hw.
  apply (lawful_genuine g h first dests Htcp ops [] [] trace wires Hlaw). cbn [length Z.of_nat].
  rewrite Z.add_0_r. rewrite u32_small; [done|].
  by apply (send_window_next_range g), (ok_send _ _ (xo_conn _ (sd_ok _ _ _ _ _ _ _ Hsd))).
Qed.

(** Three packets through a window of two, then NACKs for the second and for
    the first, which is no longer kept. *)
Definition example_nack (n : Z) : packet := Packet 10 9 55 0 0 n POTR_FLAG_NACK 0 1 None.
Definition example_ops : list sender_op :=
  [OpFlush [(0, 0, [1; 2; 3])]; OpFlush [(0, 0, [4])]; OpFlush [(0, 0, [5; 6])];
   OpNack (example_nack 1); OpNack (example_nack 0)].

Lemma example_sending `{CplatByteorder} ty enc :
  let x := example_ctx ty enc in
  sending (x_cfg x) (own_session_hdr (x_cfg x) (c_session (x_conn x))) 0 (c_dest_addr (x_conn x)) x [] [].
Proof.
  split; try done.
  - apply example_ctx_ok.
  - exists []. split; [|done].
    destruct (fresh_send_repr (true, true, true) no_window 0 2 64 ltac:(lia) ltac:(lia) eq_refl eq_refl)
      as (w & Hi & _ & _ & _ & Hr).
    change (send_repr (fresh_window 0) []). unfold fresh_window. by rewrite Hi.
  - intros a t Hin Ht. change (nack_dedup_buf _) with (replicate 8 (0, 0)) in Hin.
    apply elem_of_replicate in Hin as [[= -> ->] _]. done.
Qed.

Lemma example_ops_ok : Forall (op_ok (example_config POTR_TYPE_UNICAST true)) example_ops.
Proof.
  assert (forall bs, (0 < length bs <= 20)%nat -> forallb is_byteb bs = true ->
    op_ok (example_config POTR_TYPE_UNICAST true) (OpFlush [(0, 0, bs)])) as Hflush.
  { intros bs Hl Hb. split; [|split; [discriminate|]].
    - apply Forall_cons_2; [|apply Forall_nil_2]. split; [lia|]. split; [change (0 < length bs <= 42)%nat; lia|].
      by apply forallb_is_byte.
    - unfold packed_of. cbn [map concat msg_elem fst snd]. unfold elem_bytes. rewrite app_nil_r, !length_app.
      rewrite !length_be_encode. unfold msg_elem. cbn [fst snd]. change (pack_cap (example_config POTR_TYPE_UNICAST true)) with 48%nat. lia. }
  repeat (apply Forall_cons_2; [first [reflexivity | apply Hflush; [cbn; lia|reflexivity]]|]). apply Forall_nil_2.
Qed.

Lemma nack_retransmits_witness :
  exists x' t' trace, @sender_run little_host toy_platform example_ops (World (example_ctx POTR_TYPE_UNICAST true) 0)
      = Some (World x' t', trace) /\
    exists wire1 wire2 wire3 w4 w5,
      map sent_datagrams trace = [[EvSendto 0 wire1 endpoint_clear]; [EvSendto 0 wire2 endpoint_clear];
        [EvSendto 0 wire3 endpoint_clear]; [EvSendto 0 w4 endpoint_clear]; [EvSendto 0 w5 endpoint_clear]] /\
      w4 = wire2 /\ w5 <> wire1.
Proof.
  destruct (@nack_retransmits little_host toy_platform toy_laws (example_ctx POTR_TYPE_UNICAST true) 0 example_ops)
    as (x' & t' & trace & Hrun & Hlaw & _).
  - reflexivity.
  - reflexivity.
  - apply example_sending.
  - exact example_ops_ok.
  - cbn. lia.
  - exists x', t', trace. split; [exact Hrun|]. clear Hlaw. vm_compute in Hrun. injection Hrun as <- <- <-.
    eexists _, _, _, _, _. split; [reflexivity|]. split; [reflexivity|discriminate].
Defined.
