(* ===== verification/Repair.v ===== *)
(** Repairing losses: the NACKs with which a receiver answers a gap, and what
    the sender makes of them.  [UdpDelivery.v] follows the DATA callbacks of the
    receiver; here its datagrams are followed as well. *)

From stdpp Require Import base list numbers option.
From Stdlib Require Import ZArith Lia ZifyBool.
From S2P Require Import Prelude Types Packet Window SendQueue Context PathEvent Validate.
From S2P Require Import PeerTable RecvSlot Session Fin RecvWindow HealthThread Send.
From S2P Require Import SendTurn Dispatch RecvThread Delivery UdpDelivery Retransmit.
Local Open Scope Z_scope.
Local Open Scope porter_scope.

(** ** Steps that put nothing on the network *)

Create HintDb still discriminated.

(** The configuration and the session of this end. *)
Definition own (x : potr_context) : service_config * (Z * timespec) :=
  (x_cfg x, (session_id (c_session (x_conn x)), session_ts (c_session (x_conn x)))).
Definition own_session (c : conn) : Z * timespec := (session_id (c_session c), session_ts (c_session c)).

Lemma sent_datagrams_app a b : sent_datagrams (a ++ b) = sent_datagrams a ++ sent_datagrams b.
Proof. apply List.filter_app. Qed.

Lemma elem_of_sent e es : e ∈ sent_datagrams es -> e ∈ es.
Proof. rewrite !list_elem_of_In. by intros [? _]%List.filter_In. Qed.

(** [m] sends no datagram and stays what it is, whenever it ends. *)
Definition still {A} (v : service_config * (Z * timespec)) (m : M A) : Prop :=
  forall w a w' es, own (w_ctx w) = v -> m w = Some (a, w', es) ->
    own (w_ctx w') = v /\ sent_datagrams es = [].

Section Calm.
Context (v : service_config * (Z * timespec)).

Lemma still_ret {A} (a : A) : still v (mret a).
Proof. by intros w b w' es Hv [= <- <- <-]. Qed.

Lemma still_fault {A} : still v (@fault A).
Proof. by intros w b w' es Hv [=]. Qed.

Lemma still_bind {A B} (m : M A) (k : A -> M B) : still v m -> (forall a, still v (k a)) -> still v (m ≫= k).
Proof.
  intros Hm Hk w b w' es Hv (a & w1 & e1 & e2 & H1 & H2 & ->)%bind_inv.
  destruct (Hm _ _ _ _ Hv H1) as [Hv1 He1]. destruct (Hk _ _ _ _ _ Hv1 H2) as [Hv2 He2].
  split; [done|]. by rewrite sent_datagrams_app, He1, He2.
Qed.

Lemma still_get_ctx_bind {B} (k : potr_context -> M B) :
  (forall x, own x = v -> still v (k x)) -> still v (get_ctx ≫= k).
Proof. intros Hk w b w' es Hv. rewrite get_ctx_bind. by apply Hk. Qed.

Lemma still_get_conn_bind {B} (k : conn -> M B) :
  (forall c, own_session c = v.2 -> still v (k c)) -> still v (get_conn SlotCtx ≫= k).
Proof.
  intros Hk w b w' es Hv. rewrite (bind_run_nil _ _ _ _ _ (get_conn_run SlotCtx w _ eq_refl)).
  apply Hk; [|done]. by rewrite <- Hv.
Qed.

Lemma still_put_ctx x : own x = v -> still v (put_ctx x).
Proof. by intros Hx w b w' es _ [= <- <- <-]. Qed.

Lemma still_put_conn c : own_session c = v.2 -> still v (put_conn SlotCtx c).
Proof.
  intros Hc. apply still_get_ctx_bind. intros x Hx. apply still_put_ctx. destruct v as [g ses].
  injection Hx as <- _. unfold own. cbn in *. by rewrite <- Hc.
Qed.

Lemma still_emit e : is_datagram e = false -> still v (emit e).
Proof. intros He w b w' es Hv [= <- <- <-]. split; [done|]. cbn. by rewrite He. Qed.

Lemma still_tick {A} (f : nat -> A) : still v (tick f).
Proof. by intros w b w' es Hv [= <- <- <-]. Qed.

Lemma still_lift {A} (o : option A) : still v (lift o).
Proof. intros w b w' es Hv. unfold lift. destruct o; [|done]. by intros [= <- <- <-]. Qed.

Lemma still_when b m : still v m -> still v (when b m).
Proof. intros Hm. destruct b; [done|apply still_ret]. Qed.

Lemma still_for body n : forall a, (forall k, still v (body k)) -> still v (for_range a n body).
Proof.
  induction n as [|n IH]; intros a Hb; [apply still_ret|]. cbn [for_range].
  apply still_bind; [apply Hb|]. intros _. by apply IH.
Qed.

Lemma still_for_each {A} (l : list A) g : (forall a, still v (g a)) -> still v (for_each l g).
Proof.
  intros Hf. induction l as [|a l IH]; [apply still_ret|]. cbn [for_each]. apply still_bind; [apply Hf|done].
Qed.
End Calm.

#[export] Hint Resolve still_ret still_fault still_tick still_lift : still.
#[export] Hint Extern 1 (still _ (emit _)) => (apply still_emit; reflexivity) : still.
#[export] Hint Extern 1 (still _ (put_ctx _)) => (apply still_put_ctx; assumption) : still.
#[export] Hint Extern 1 (still _ (put_conn _ _)) => (apply still_put_conn; assumption) : still.

(** Unfold a handler down to its calls. *)
Ltac still_step :=
  match goal with
  | |- still _ (get_ctx ≫= _) => apply still_get_ctx_bind; intros ? ?
  | |- still _ (get_conn SlotCtx ≫= _) => apply still_get_conn_bind; intros ? ?
  | |- still _ (_ ≫= _) => apply still_bind; [|intros ?]
  | |- still _ (when _ _) => apply still_when
  | |- still _ (for_range _ _ _) => apply still_for; intros ?
  | |- still _ (for_each _ _) => apply still_for_each; intros ?
  | |- still _ (if ?b then _ else _) => destruct b
  | |- still _ (match ?o with _ => _ end) => destruct o
  | |- still _ (let _ := _ in _) => cbv zeta
  | |- still _ ?m => let h := head_symbol m in unfold h
  end.
Ltac stilled := repeat first [solve [auto with still] | still_step].

Section CalmHandlers.
Context `{CplatByteorder} `{Platform}.
Context (v : service_config * (Z * timespec)).

Lemma still_learn path sender : still v (thread_recv_learn_sender_path SlotCtx path sender).
Proof. stilled. Qed.

Lemma still_push pkt : still v (slot_recv_push SlotCtx pkt).
Proof. stilled. Qed.

Lemma still_gap_ready n : still v (slot_gap_ready SlotCtx n).
Proof. stilled. Qed.

Lemma still_emit_changed pid st ch : still v (emit_changed pid st ch).
Proof. induction ch as [|[k e] ch IH]; cbn [emit_changed]; stilled. Qed.
#[local] Hint Resolve still_emit_changed : still.

Lemma still_health path :
  still v (_ ← thread_recv_update_path_health SlotCtx path; thread_recv_sync_path_state SlotCtx).
Proof. stilled. Qed.

Lemma still_drain_loop fuel b : still v (drain_loop fuel b SlotCtx).
Proof. induction fuel as [|fuel IH]; cbn [drain_loop]; stilled. Qed.

Lemma still_tcp_send_loop n wire : forall i a b, still v (tcp_send_loop i n wire a b).
Proof. induction n as [|n IH]; intros i a b; cbn [tcp_send_loop]; stilled. Qed.
#[local] Hint Resolve still_drain_loop still_tcp_send_loop : still.

Lemma still_drain : still v (slot_drain_recv_window SlotCtx).
Proof. stilled. Qed.
End CalmHandlers.

(** ** NACKs and REJECTs *)

Section Control.
Context `{CplatByteorder} `{Platform} `{!PlatformLaws}.

(** A NACK or REJECT as the other end reads it; there is no payload. *)
Definition control_packet (h : session_hdr) (f n : Z) (body : view) : packet :=
  Packet (hdr_service_id h) (hdr_session_tv_sec h) (hdr_session_id h) (hdr_session_tv_nsec h) 0 n f 0
    POTR_PROTOCOL_VERSION body.

(** A NACK or REJECT is accepted by the other end of the service. *)
Lemma control_accepted g g' h f n wire :
  cfg_ok g' -> encrypt_enabled (x_service g') = encrypt_enabled (x_service g) ->
  encrypt_key (x_service g') = encrypt_key (x_service g) -> session_hdr_ranges h -> 0 <= n < 4294967296 ->
  f = POTR_FLAG_NACK \/ f = POTR_FLAG_REJECT ->
  build_ctrl_pkt_wire g (built (Q:=view) h 0 n f 0 None) = Some wire ->
  exists q body, potr_internal_packet_parse (Some blank_packet) (Some wire) (length wire) = Some (POTR_OK, Some q) /\
    pkt_service_id q = hdr_service_id h /\
    thread_recv_authenticate_packet g' q wire = Some (POTR_OK, control_packet h f n body) /\ (body = None \/ body = Some []).
Proof.
  intros Hg Hen Hkey Hh Hn Hf. assert (f ∈ plain_flags /\ (f has Z.lor POTR_FLAG_DATA POTR_FLAG_PING) = false /\
    nonce_val 0 n f = n /\ (f has POTR_FLAG_ENCRYPTED) = false /\ 0 <= f < 65536) as (Hpl & Hdp & Hnv & Hne & Hfr).
  { destruct Hf as [-> | ->]; (split; [apply list_elem_of_In; simpl; tauto|]);
      unfold POTR_FLAG_NACK, POTR_FLAG_REJECT; (split; [done|]); (split; [done|]); (split; [done|lia]). }
  destruct (encrypt_enabled (x_service g)) eqn:Henc.
  - rewrite (ctrl_wire_nonce g _ n Henc) by done. rewrite <- Hnv at 2. intros Hw.
    destruct (sealed_ctrl_opens g g' h n f wire blank_packet) as (q & Hq & Hs & Ha); [done..|].
    exists q, None. split; [exact Hq|]. split; [exact Hs|]. split; [exact Ha|by left].
  - unfold build_ctrl_pkt_wire. rewrite Henc. intros [= <-]. rewrite ntoh16_hton16 by lia. rewrite Z.add_0_r, Nat2Z.id.
    rewrite take_ge by (by rewrite length_packet_header_bytes).
    rewrite <- (app_nil_r (packet_header_bytes _)), length_app.
    rewrite length_packet_header_bytes. change 0 with (Z.of_nat (length (@nil Z))) at 2.
    rewrite parse_built; [|done..|unfold POTR_MAX_PAYLOAD; cbn; lia].
    eexists _, (Some []). split; [done|]. split; [done|]. split; [|by right]. unfold thread_recv_authenticate_packet.
    cbn [pkt_flags]. by rewrite Hen, Hne.
Qed.

(** The NACK for [n] of a receiver whose own session is [hr]. *)
Definition nack_image (gr : service_config) (hr : session_hdr) (n : Z) : option (list Z) :=
  build_ctrl_pkt_wire gr (built (Q:=view) hr 0 n POTR_FLAG_NACK 0 None).
End Control.

(** Where a receiver sends its NACKs. *)
Definition nack_port `{CplatByteorder} (x : potr_context) (k : nat) : Z :=
  let sv := x_service (x_cfg x) in
  if negb (src_port sv =? 0) then cplat_hton16 (src_port sv) else default 0 (x_peer_port x !! k).

Definition nack_datagrams `{CplatByteorder} (x : potr_context) (wire : list Z) (k n : nat) : list effect :=
  omap (fun k => if nack_port x k =? 0 then None
    else Some (EvSendto k wire (Endpoint (default 0 (x_src_addr_resolved (x_cfg x) !! k)) (nack_port x k)))) (seq k n).

(** The header of the session of this end. *)
Definition hdr_of `{Platform} (v : service_config * (Z * timespec)) : session_hdr :=
  let '(sec, nsec) := session_ts_to_hdr v.2.2 in SessionHdr (service_id (x_service v.1)) sec v.2.1 nsec.

Section SendNack.
Context `{CplatByteorder} `{Platform} `{!PlatformLaws}.

(** What [slot_send_nack] does for one path. *)
Definition nack_on_path (x : potr_context) (wire : list Z) (k : nat) : M unit :=
  port ← (if negb (src_port (x_service (x_cfg x)) =? 0) then mret (cplat_hton16 (src_port (x_service (x_cfg x))))
          else lift (x_peer_port x !! k));
  if port =? 0 then mret tt
  else
    a ← lift (x_src_addr_resolved (x_cfg x) !! k);
    _ ← sock_valid k;
    _ ← socket_sendto k wire (Endpoint a port);
    mret tt.

Lemma nack_on_path_run x wire k t :
  ctx_ok x -> (k < POTR_MAX_PATH)%nat ->
  exists t', nack_on_path x wire k (World x t) = Some (tt, World x t', nack_datagrams x wire k 1).
Proof.
  intros Hx Hk. unfold nack_on_path, nack_datagrams. cbn [seq omap list_omap].
  destruct (lookup_lt_is_Some_2 (x_peer_port x) k) as [po Hpo]; [by rewrite (xo_port _ Hx)|].
  destruct (lookup_lt_is_Some_2 (x_src_addr_resolved (x_cfg x)) k) as [a Ha]; [by rewrite (co_src _ (xo_cfg _ Hx))|].
  destruct (lookup_lt_is_Some_2 (x_sock x) k) as [so Hso]; [by rewrite (xo_sock _ Hx)|].
  assert ((if negb (src_port (x_service (x_cfg x)) =? 0) then mret (cplat_hton16 (src_port (x_service (x_cfg x))))
    else lift (x_peer_port x !! k)) (World x t) = Some (nack_port x k, World x t, [])) as Hport.
  { unfold nack_port. cbv zeta. destruct (negb _); [done|]. unfold lift. by rewrite Hpo. }
  rewrite (bind_run_nil _ _ _ _ _ Hport). destruct (nack_port x k =? 0); [by exists t|].
  exists (S t). rewrite (lift_bind _ _ _ _ Ha). unfold sock_valid.
  by rewrite bind_assoc, get_ctx_bind, (lift_bind _ _ _ _ Hso), Ha.
Qed.

Lemma nack_loop_run x wire n : forall k t,
  ctx_ok x -> (k + n <= POTR_MAX_PATH)%nat ->
  exists t', for_range k n (nack_on_path x wire) (World x t) = Some (tt, World x t', nack_datagrams x wire k n).
Proof.
  induction n as [|n IH]; intros k t Hx Hk; [by exists t|]. cbn [for_range].
  destruct (nack_on_path_run x wire k t Hx ltac:(lia)) as [t1 Hone].
  destruct (IH (S k) t1 Hx ltac:(lia)) as [t2 Hrest]. exists t2.
  rewrite (bind_run _ _ _ _ _ _ Hone), Hrest. unfold nack_datagrams. by rewrite <- omap_app.
Qed.

Lemma send_nack_run x t n :
  ctx_ok x -> service_type (x_service (x_cfg x)) <> POTR_TYPE_UNICAST_BIDIR ->
  exists t', slot_send_nack SlotCtx n (World x t) = Some (tt, World x t',
    match nack_image (x_cfg x) (hdr_of (own x)) n with
    | Some wire => nack_datagrams x wire 0 (x_n_path (x_cfg x))
    | None => []
    end).
Proof.
  intros Hx Ht. unfold slot_send_nack. rewrite get_ctx_bind, (get_conn_bind x SlotCtx _ _ _ eq_refl). cbv zeta.
  cbn [w_ctx]. rewrite build_nack_built. change POTR_OK with 0. cbv beta iota. unfold type_eqb.
  rewrite bool_decide_false by done. cbn [slot_is_peer orb]. unfold nack_image.
  change (fill_own_session_hdr (x_cfg x) (x_conn x)) with (hdr_of (own x)).
  destruct (build_ctrl_pkt_wire _ _) as [wire|]; [|by exists t].
  apply (nack_loop_run x wire (x_n_path (x_cfg x)) 0 t Hx). pose proof (co_n_path _ (xo_cfg _ Hx)). lia.
Qed.
End SendNack.

(** The datagrams of a trace, as bytes. *)
Definition wires_in (es : list effect) : list (list Z) :=
  omap (fun e => match e with EvSendto _ w _ => Some w | _ => None end) es.

Lemma wires_in_sent es : wires_in es = wires_in (sent_datagrams es).
Proof.
  unfold wires_in, sent_datagrams. induction es as [|e es IH]; [done|]. cbn [List.filter].
  destruct e; cbn [is_datagram omap list_omap]; try exact IH. by f_equal.
Qed.

Lemma wires_in_datagrams k n dests wire : Forall (eq wire) (wires_in (datagrams k n dests wire)).
Proof.
  unfold wires_in, datagrams. revert k. induction n as [|n IH]; intros k; cbn [seq map omap list_omap]; [constructor|].
  constructor; [done|apply IH].
Qed.

Lemma wires_in_nacks `{CplatByteorder} x wire k n : Forall (eq wire) (wires_in (nack_datagrams x wire k n)).
Proof.
  unfold wires_in, nack_datagrams. induction (seq k n) as [|j l IH]; cbn [omap list_omap]; [constructor|].
  destruct (nack_port x j =? 0); [done|]. cbn [omap list_omap]. by constructor.
Qed.

Lemma Forall_eq_impl (P : list Z -> Prop) wire l : P wire -> Forall (eq wire) l -> Forall P l.
Proof. rewrite !Forall_forall. intros Hp Hl w Hw. by rewrite <- (Hl w Hw). Qed.

(** ** The reaction of a receiver to a gap *)

(** Packet [tr_next s] is missing and a later one is there. *)
Definition gap (ws : nat) (s : transit) : bool :=
  negb (bool_decide (tr_next s ∈ tr_got s)) &&
  existsb (fun i => bool_decide (i ∈ tr_got s)) (seq (S (tr_next s)) (ws - 1)).

Lemma gap_spec ws s :
  gap ws s = true <-> (tr_next s ∉ tr_got s) /\ exists i, (i ∈ tr_got s) /\ (tr_next s < i < tr_next s + ws)%nat.
Proof.
  unfold gap. rewrite andb_true_iff, negb_true_iff, bool_decide_eq_false, existsb_exists. f_equiv. split.
  - intros (i & Hi%in_seq & Hin%bool_decide_eq_true). exists i. split; [done|lia].
  - intros (i & Hin & Hi). exists i. rewrite in_seq, bool_decide_eq_true. split; [lia|done].
Qed.

Lemma arrive_ge ws s i : (tr_next s <= tr_next (arrive ws s i))%nat.
Proof. unfold arrive. destruct (_ && _); [apply pass_over_ge|done]. Qed.

(** Packets below [k] keep the buffer below [k]. *)
Lemma arrive_bound ws s i k :
  (forall j, j ∈ tr_got s -> (j < k)%nat) -> (i < k)%nat -> (tr_next s <= k)%nat ->
  (forall j, j ∈ i :: tr_got s -> (j < k)%nat) /\
  (forall j, j ∈ tr_got (arrive ws s i) -> (j < k)%nat) /\ (tr_next (arrive ws s i) <= k)%nat.
Proof.
  intros Hg Hi Hn. assert (forall j, j ∈ i :: tr_got s -> (j < k)%nat) as Hg'.
  { intros j [->|Hj]%elem_of_cons; [done|auto]. }
  split; [done|]. unfold arrive. destruct (_ && _); [|done]. cbn [tr_next tr_got]. split; [done|].
  set (m := pass_over _ _ _). destruct (decide (m <= tr_next s)%nat) as [Hm|Hm]; [lia|].
  assert (pred m ∈ i :: tr_got s) as Hin by (apply (pass_over_got ws (tr_next s)); fold m; lia).
  apply Hg' in Hin. lia.
Qed.

Section Answers.
Context `{CplatByteorder} `{Platform} `{!PlatformLaws}.
Context (gs gr : service_config) (h : session_hdr) (first : Z) (pkts : list (list sq_msg)).
Context (st0 : list Z * bool) (ses : Z * timespec).
Hypothesis Hstream : stream_ok gs h first pkts.
Hypothesis Hsame : same_service gs gr.
Hypothesis Hkind : udp_receiver gr.
Hypothesis Honeway : service_type (x_service gr) <> POTR_TYPE_UNICAST_BIDIR.
Hypothesis Hcount : Z.of_nat (length pkts) + window_size_cfg (x_global gr) <= 4294967296.

#[local] Abbreviation ws := (window_width gr).
#[local] Abbreviation rx_ := (rx gr h first pkts st0).
#[local] Abbreviation packet_at := (stream_packet h first pkts).
#[local] Abbreviation msgs_of := (fun m n => delivered gr POTR_PEER_NA (completed gr pkts st0 m n)).

(** The receiver follows the stream as [ses]. *)
Definition rxo (s : transit) (up : bool) (w : world) : Prop := rx_ s up w /\ own (w_ctx w) = (gr, ses).

Lemma still_delivers {A} s up (m : M A) D Q w :
  delivers (rx_ s up) m D Q -> still (gr, ses) m -> rxo s up w ->
  exists a w' es, m w = Some (a, w', es) /\ data_events es = D /\ sent_datagrams es = [] /\
    Q a w' /\ own (w_ctx w') = (gr, ses).
Proof.
  intros Hd Hc [Hw Ho]. destruct (Hd w Hw) as (a & w' & es & Hr & He & Hq).
  destruct (Hc _ _ _ _ Ho Hr) as [Ho' Hs]. eauto 10.
Qed.

Lemma rx_ctx_ok s up w : rx_ s up w -> ctx_ok (w_ctx w) /\ x_cfg (w_ctx w) = gr.
Proof. intros [[] _]. done. Qed.

Lemma needs_nack_stream s up w :
  rx_ s up w ->
  slot_needs_nack SlotCtx w = Some (if gap ws s then Some (first ⊕ Z.of_nat (tr_next s)) else None, w, []).
Proof.
  intros [Hrv _]. destruct w as [x t]. cbn [w_ctx] in Hrv. pose proof Hrv as [Hx Hcfg _ _ Hb Hwin _].
  pose proof (co_window _ (xo_cfg _ Hx)) as Hcw. rewrite Hcfg in Hcw.
  unfold slot_needs_nack. rewrite (get_conn_bind x SlotCtx _ _ _ eq_refl). unfold lift.
  assert (stream_slots h first pkts ws (tr_next s) (tr_got s)
    = stream_slot h first pkts (tr_got s) (tr_next s)
      :: map (stream_slot h first pkts (tr_got s)) (seq (S (tr_next s)) (ws - 1))) as Hs.
  { unfold stream_slots. unfold window_width. destruct (Z.to_nat _) as [|n] eqn:Hn; [lia|]. cbn [seq map].
    by replace (S n - 1)%nat with n by lia. }
  rewrite Hs in Hwin. rewrite (needs_nack_spec _ _ _ Hwin), (proj1 Hwin), Hb. do 3 f_equal.
  assert (forall i, slot_full (stream_slot h first pkts (tr_got s) i) = bool_decide (i ∈ tr_got s)) as Hf.
  { intros i. unfold stream_slot. by case_bool_decide. }
  rewrite Hf. unfold gap.
  assert (forall l, existsb slot_full (map (stream_slot h first pkts (tr_got s)) l)
    = existsb (fun i => bool_decide (i ∈ tr_got s)) l) as ->; [|done].
  induction l as [|i l IH]; [done|]. cbn [map existsb]. by rewrite Hf, IH.
Qed.

(** The NACK for packet [n]. *)
Definition nack_for (x : potr_context) (n : nat) : list effect :=
  match nack_image gr (hdr_of (gr, ses)) (first ⊕ Z.of_nat n) with
  | Some wire => nack_datagrams x wire 0 (x_n_path gr)
  | None => []
  end.

Definition react : M unit :=
  n ← slot_needs_nack SlotCtx;
  match n with
  | None => modify_conn SlotCtx (fun c => set_reorder_pending c false)
  | Some nack_num => r ← slot_gap_ready SlotCtx nack_num; when r (slot_send_nack SlotCtx nack_num)
  end.

Lemma outer_gap_react pkt w : outer_gap SlotCtx pkt false w = (react;; mret true) w.
Proof.
  unfold outer_gap, react. rewrite bind_assoc. destruct (slot_needs_nack SlotCtx w) as [[[o w1] e1]|] eqn:Hn.
  - rewrite !(bind_run _ _ _ _ _ _ Hn). destruct o; [|done]. by rewrite bind_assoc.
  - unfold mbind, M_bind. by rewrite Hn.
Qed.

(** The datagrams of a reaction: the NACK for the missing packet, when the
    gap has been open for long enough ([ready]). *)
Definition reaction (s : transit) (ready : bool) (x : potr_context) : list effect :=
  if gap ws s && ready then nack_for x (tr_next s) else [].

Lemma nack_datagrams_sent x wire k n : sent_datagrams (nack_datagrams x wire k n) = nack_datagrams x wire k n.
Proof.
  unfold nack_datagrams. induction (seq k n) as [|j l IH]; [done|]. cbn [omap list_omap].
  destruct (nack_port x j =? 0); [done|]. cbn [sent_datagrams List.filter is_datagram]. f_equal. exact IH.
Qed.

Lemma nack_for_sent x n : sent_datagrams (nack_for x n) = nack_for x n.
Proof. unfold nack_for. destruct (nack_image _ _ _); [apply nack_datagrams_sent|done]. Qed.

Lemma nack_for_no_data x n : data_events (nack_for x n) = [].
Proof.
  unfold nack_for. destruct (nack_image _ _ _) as [wire|]; [|done]. unfold nack_datagrams.
  induction (seq 0 _) as [|j l IH]; [done|]. cbn [omap list_omap]. by destruct (nack_port x j =? 0).
Qed.

Definition prompt : Prop := reorder_timeout_ms (x_global gr) = 0.

Lemma gap_ready_run s up w n :
  0 <= n < 4294967296 -> rxo s up w ->
  exists r w' es, slot_gap_ready SlotCtx n w = Some (r, w', es) /\ data_events es = [] /\ sent_datagrams es = [] /\
    rxo s up w' /\ (prompt -> r = true /\ w' = w).
Proof.
  intros Hn Hw. destruct (rx_ctx_ok _ _ _ (proj1 Hw)) as [Hx Hcfg].
  destruct (still_delivers s up (slot_gap_ready SlotCtx n) [] (fun _ => rx_ s up) w)
    as (r & w' & es & Hr & Hd & Hs & Hq & Ho); [|apply still_gap_ready|done|].
  { apply delivers_hush; [by apply keeps_slot_gap_ready|intros v; apply hush_gap_ready]. }
  exists r, w', es. split; [done|]. split; [done|]. split; [done|]. split; [done|].
  intros Hp. revert Hr. unfold slot_gap_ready, reorder_gap_ready. cbn [slot_is_peer]. rewrite get_cfg_bind, Hcfg, Hp.
  by intros [= <- <- _].
Qed.

Lemma react_run s up w :
  rxo s up w ->
  exists r x1 w' es, react w = Some (tt, w', es) /\ data_events es = [] /\
    sent_datagrams es = reaction s r x1 /\ rxo s up w' /\ (prompt -> r = true /\ x1 = w_ctx w).
Proof.
  intros Hw. pose proof Hw as [Hrx Ho]. unfold react, reaction.
  rewrite (bind_run_nil _ _ _ _ _ (needs_nack_stream s up w Hrx)). destruct (gap ws s); cbn [andb].
  - destruct (gap_ready_run s up w (first ⊕ Z.of_nat (tr_next s)) (u32_range _) Hw)
      as (r & [x1 t1] & es & Hr & Hd & Hs & Hw1 & Hp). rewrite (bind_run _ _ _ _ _ _ Hr). unfold when.
    destruct r.
    2: { exists false, x1, (World x1 t1), es. split; [unfold mret, M_ret; by rewrite app_nil_r|].
         split; [done|]. split; [done|]. split; [done|]. intros [? _]%Hp. done. }
    destruct (rx_ctx_ok _ _ _ (proj1 Hw1)) as [Hx1 Hcfg1]. cbn [w_ctx] in *.
    destruct (send_nack_run x1 t1 (first ⊕ Z.of_nat (tr_next s)) Hx1) as [t2 Hn]; [by rewrite Hcfg1|].
    rewrite (proj2 Hw1 : own x1 = _), Hcfg1 in Hn. fold (nack_for x1 (tr_next s)) in Hn. rewrite Hn.
    exists true, x1, (World x1 t2), (es ++ nack_for x1 (tr_next s)). split; [done|].
    rewrite data_events_app, Hd, nack_for_no_data, sent_datagrams_app, Hs, nack_for_sent.
    split; [done|]. split; [done|]. split; [exact Hw1|]. intros [_ ?]%Hp. by subst w.
  - destruct (still_delivers s up (modify_conn SlotCtx (fun c => set_reorder_pending c false)) [] (fun _ => rx_ s up) w)
      as ([] & w' & es & Hr & Hd & Hs & Hq & Ho'); [|unfold modify_conn; apply still_get_conn_bind; intros c Hc; by apply still_put_conn|done|].
    { apply delivers_hush; [apply keeps_modify_conn; intros c Hc; conn_solve|].
      intros v. apply hush_get_conn_bind. intros c Hc. by apply hush_put_conn. }
    exists true, (w_ctx w), w', es. done.
Qed.

(** *** A data packet arrives *)

Lemma pushed_run s i path w :
  cfg_ok gr -> (i < length pkts)%nat -> (path < POTR_MAX_PATH)%nat -> rxo s false w ->
  let s' := Transit (pass_over ws (tr_next s) (tr_got s)) (tr_got s) in
  exists r1 x1 r2 x2 w' es, outer_pushed SlotCtx (packet_at i) path w = Some (tt, w', es) /\
    data_events es = msgs_of (tr_next s) (tr_next s') /\
    sent_datagrams es = reaction s r1 x1 ++ reaction s' r2 x2 /\ rxo s' false w' /\
    (prompt -> r1 = true /\ x1 = w_ctx w).
Proof.
  intros Hg Hi Hpath Hw s'.
  destruct (packet_at_ok gs gr h first pkts Hstream Hsame i Hg Hi) as (ms & _ & Hp & Hpk & _).
  destruct (rx_ctx_ok _ _ _ (proj1 Hw)) as [_ Hcfg].
  unfold outer_pushed. rewrite get_cfg_bind, Hcfg. cbv zeta. rewrite (ur_not_raw _ Hkind).
  destruct (react_run s false w Hw) as (r1 & x1 & w1 & e1 & Hr1 & Hd1 & Hs1 & Hw1 & Hpr).
  exists r1, x1. rewrite (bind_run _ _ _ true w1 e1); [cbn [negb]|].
  2: { rewrite outer_gap_react, (bind_run _ _ _ _ _ _ Hr1). unfold mret, M_ret. by rewrite app_nil_r. }
  assert (pkt_flags (packet_at i) has POTR_FLAG_DATA = true) as -> by by rewrite Hp.
  unfold type_eqb. rewrite bool_decide_false by done. cbn [slot_is_peer negb andb when].
  destruct (still_delivers s false _ [] (fun _ => rx_ s true) w1
    (delivers_health gr h first pkts st0 s false path (ur_not_tcp _ Hkind) Honeway Hpath)
    (still_health _ path) Hw1) as ([] & w2 & e2 & Hr2 & Hd2 & Hs2 & Hw2 & Ho2).
  rewrite (bind_run _ _ _ _ _ _ Hr2).
  destruct (still_delivers s true _ _ _ w2 (delivers_drain gs gr h first pkts st0 Hstream Hsame s)
    (still_drain _) (conj Hw2 Ho2)) as (live & w3 & e3 & Hr3 & Hd3 & Hs3 & [-> Hw3] & Ho3).
  rewrite (bind_run _ _ _ _ _ _ Hr3). cbn [negb].
  destruct (react_run s' true w3 (conj Hw3 Ho3)) as (r2 & x2 & w4 & e4 & Hr4 & Hd4 & Hs4 & Hw4 & _).
  fold react. rewrite Hr4. eexists r2, x2, w4, _. split; [done|].
  rewrite !data_events_app, !sent_datagrams_app, Hd1, Hd2, Hd3, Hd4, Hs1, Hs2, Hs3, Hs4, app_nil_r.
  split; [done|]. split; [done|]. split; [|done]. destruct Hw4 as [[Hrv _] Ho4]. split; [|done]. by split.
Qed.

(** The datagrams with which the receiver answers packet [i]. *)
Definition replies (s : transit) (i : nat) (ports : list Z) (l : list effect) : Prop :=
  if in_reach gr s i then
    exists r1 x1 r2 x2,
      l = reaction (Transit (tr_next s) (i :: tr_got s)) r1 x1 ++ reaction (arrive ws s i) r2 x2 /\
      (prompt -> r1 = true /\ x_cfg x1 = gr /\ x_peer_port x1 = ports)
  else l = [].

Lemma accept_run s i path w :
  cfg_ok gr -> (i < length pkts)%nat -> (path < POTR_MAX_PATH)%nat -> rxo s false w ->
  let s' := arrive ws s i in
  exists w' es, thread_recv_window_accept_outer SlotCtx (packet_at i) path w = Some (tt, w', es) /\
    data_events es = msgs_of (tr_next s) (tr_next s') /\
    replies s i (x_peer_port (w_ctx w)) (sent_datagrams es) /\ rxo s' false w'.
Proof.
  intros Hg Hi Hpath Hw s'. destruct (rx_ctx_ok _ _ _ (proj1 Hw)) as [_ Hcfg].
  unfold thread_recv_window_accept_outer. rewrite get_cfg_bind, Hcfg, (ur_not_raw _ Hkind).
  destruct (still_delivers s false _ _ _ w (delivers_push gs gr h first pkts st0 Hstream Hsame Hcount s false i Hi)
    (still_push _ _) Hw) as (rc & w1 & e1 & Hr1 & Hd1 & Hs1 & Hq & Ho1).
  assert (x_peer_port (w_ctx w1) = x_peer_port (w_ctx w)) as Hport.
  { revert Hr1. unfold slot_recv_push. destruct w as [x t]. rewrite (get_conn_bind x SlotCtx _ _ _ eq_refl).
    intros ([rc' W] & w2 & ? & ? & Hl & Hr & _)%bind_inv. unfold lift in Hl.
    destruct (window_recv_push _ _) as [[rc'' W']|]; [|done]. injection Hl as <- <- <- <-.
    rewrite (put_conn_bind x SlotCtx _ _ _ _ eq_refl) in Hr. by injection Hr as _ <- _. }
  rewrite (bind_run _ _ _ _ _ _ Hr1). unfold replies, s'. unfold arrive. fold (in_reach gr s i).
  destruct (in_reach gr s i); destruct Hq as [-> Hw1]; cbn [Z.eqb POTR_OK POTR_ERR_OUT_OF_WINDOW].
  - destruct (pushed_run _ i path w1 Hg Hi Hpath (conj Hw1 Ho1))
      as (r1 & x1 & r2 & x2 & w' & es & Hr & Hd & Hs & Hw' & Hp). cbn [tr_next tr_got] in *.
    rewrite Hr. exists w', (e1 ++ es). split; [done|]. rewrite data_events_app, sent_datagrams_app, Hd1, Hs1, Hd, Hs.
    split; [done|]. split; [|exact Hw']. exists r1, x1, r2, x2. split; [done|]. intros [? ->]%Hp.
    split; [done|]. split; [by injection Ho1|done].
  - exists w1, e1. split; [unfold mret, M_ret; by rewrite app_nil_r|]. rewrite Hs1, Hd1, completed_none.
    split; [done|]. split; [done|]. by split.
Qed.

Lemma learn_ports x t path sender :
  ctx_ok x -> x_cfg x = gr -> (path < POTR_MAX_PATH)%nat ->
  thread_recv_learn_sender_path SlotCtx path sender (World x t)
  = Some (tt, World (set_x_peer_port x (<[path:=ep_port sender]> (x_peer_port x))) t, []).
Proof.
  intros Hx Hcfg Hpath. unfold thread_recv_learn_sender_path. rewrite get_ctx_bind. cbv zeta. cbn [w_ctx].
  destruct (lookup_lt_is_Some_2 (x_peer_port x) path) as [po Hpo]; [by rewrite (xo_port _ Hx)|].
  rewrite (lift_bind _ _ _ _ Hpo), put_ctx_bind. unfold type_eqb. rewrite Hcfg, bool_decide_false by done. done.
Qed.

Context (wires : list (list Z)).
Hypothesis Hwires : data_wires gs h first pkts = Some wires.
Hypothesis Hrole : x_role gr = POTR_ROLE_RECEIVER.

(** A copy of packet [i] is taken from the network. *)
Lemma copy_run s i sender path w :
  (i < length pkts)%nat -> thread_recv_check_src_addr gr sender = true -> (path < POTR_MAX_PATH)%nat ->
  rxo s false w ->
  let s' := arrive ws s i in
  exists w' es, recv_datagram (default [] (wires !! i)) sender path w = Some (tt, w', es) /\
    data_events es = msgs_of (tr_next s) (tr_next s') /\
    replies s i (<[path:=ep_port sender]> (x_peer_port (w_ctx w))) (sent_datagrams es) /\ rxo s' false w'.
Proof.
  intros Hi Hsrc Hpath Hw s'. destruct (rx_ctx_ok _ _ _ (proj1 Hw)) as [Hx Hcfg].
  assert (cfg_ok gr) as Hg by (rewrite <- Hcfg; apply xo_cfg, Hx).
  destruct (packet_at_ok gs gr h first pkts Hstream Hsame i Hg Hi) as (ms & Hms & Hp & Hpk & _).
  pose proof Hstream as [Hgs Hh Hsid Hf Hall]. destruct (Forall_lookup_1 _ _ _ _ Hall Hms) as [_ Hl].
  destruct (data_image_accepted gs gr h (first ⊕ Z.of_nat i) (packed_of ms) _ blank_packet Hgs Hg Hsame Hh
    (u32_range _) Hl (data_wires_lookup _ _ _ _ _ _ _ Hf Hwires Hms)) as (_ & q & Hparse & Hq & Hauth).
  unfold recv_datagram. rewrite get_cfg_bind, Hcfg, (lift_bind _ _ _ _ Hparse). cbn beta iota.
  rewrite Hq, Hsid, (same_id _ _ Hsame), !Z.eqb_refl, Hsrc, (ur_single _ Hkind). cbn [Z.eqb POTR_OK negb].
  rewrite (lift_bind _ _ _ _ Hauth). cbn beta iota. rewrite <- Hp. cbn [Z.eqb POTR_OK negb].
  unfold role_eqb. rewrite Hrole, bool_decide_false by done. rewrite ret_bind, dispatch_data by by rewrite Hp.
  destruct w as [x t]. pose proof Hw as [[Hrv _] Ho]. cbn [w_ctx] in *.
  destruct (adopt_same x t SlotCtx (x_conn x) (packet_at i) Hx eq_refl (pk_ranges _ _ Hpk)) as [t' Hr];
    [by rewrite (rv_session _ _ _ _ _ _ _ Hrv : followed (x_conn x) = _), Hp|].
  unfold thread_recv_slot_init_ctx. rewrite bind_assoc, (bind_run_nil _ _ _ _ _ Hr). cbn [negb].
  rewrite bind_assoc, (bind_run_nil _ _ _ _ _ (learn_ports x t' path sender Hx Hcfg Hpath)).
  set (x1 := set_x_peer_port _ _).
  assert (rxo s false (World x1 t')) as Hw1.
  { split; [|exact Ho]. split; [|done]. eapply receiving_view; [| |exact Hrv]; [|reflexivity].
    destruct Hx. split; try done. unfold x1. cbn. by rewrite length_insert. }
  destruct (accept_run s i path (World x1 t') Hg Hi Hpath Hw1) as (w' & es & Hr1 & Hd & Hs & Hw').
  exists w', es. rewrite bind_assoc, (bind_run _ _ _ _ _ _ Hr1), ret_bind. unfold mret, M_ret. by rewrite app_nil_r.
Qed.
End Answers.

(** ** The sender *)

(** The end of a one-way UDP service that sends and repairs losses. *)
Record udp_sender (gs : service_config) : Prop := {
  us_role : x_role gs = POTR_ROLE_SENDER;
  us_single : x_is_multi_peer gs = false;
  us_not_raw : is_raw_type (service_type (x_service gs)) = false;
  us_not_tcp : is_tcp_type (service_type (x_service gs)) = false;
  us_oneway : service_type (x_service gs) <> POTR_TYPE_UNICAST_BIDIR
}.

Section SenderEnd.
Context `{CplatByteorder} `{Platform} `{!PlatformLaws}.
Context (gs gr : service_config) (h : session_hdr) (first : Z) (dests : list endpoint).
Hypothesis Hsender : udp_sender gs.
Hypothesis Hsame : same_service gs gr.

(** The sender takes a NACK from the network. *)
Lemma nack_datagram_run x t log asked hr n wire sender path :
  sending gs h first dests x log asked -> Z.of_nat (length log) < 4294967296 ->
  session_hdr_ranges hr -> hdr_service_id hr = service_id (x_service gr) -> 0 <= n < 4294967296 ->
  nack_image gr hr n = Some wire -> thread_recv_check_src_addr gs sender = true ->
  exists x' t' es, recv_datagram wire sender path (World x t) = Some (tt, World x' t', es) /\
    (sent_datagrams es = nack_answer gs h first dests log n \/ (es = [] /\ n ∈ asked)) /\
    sending gs h first dests x' log (n :: asked).
Proof.
  intros Hsd Hl Hh Hid Hn Hw Hsrc. pose proof Hsd as [Hx Hcfg _]. pose proof (xo_cfg _ Hx) as Hg. rewrite Hcfg in Hg.
  destruct (control_accepted gr gs hr POTR_FLAG_NACK n wire Hg) as (q & body & Hparse & Hq & Hauth & _);
    [symmetry; apply Hsame|symmetry; apply Hsame|done|done|by left|exact Hw|].
  set (p := control_packet hr POTR_FLAG_NACK n body) in Hauth.
  unfold recv_datagram. rewrite get_cfg_bind. cbn [w_ctx]. rewrite Hcfg, (lift_bind _ _ _ _ Hparse). cbn beta iota.
  rewrite Hq, Hid, (same_id _ _ Hsame), !Z.eqb_refl, Hsrc, (us_single _ Hsender). cbn [Z.eqb POTR_OK negb].
  rewrite (lift_bind _ _ _ _ Hauth). cbn beta iota. cbn [Z.eqb POTR_OK negb].
  unfold role_eqb. rewrite (us_role _ Hsender), bool_decide_true by done. unfold sender_handle_packet.
  rewrite bind_assoc, get_cfg_bind. cbn [w_ctx]. rewrite Hcfg. cbv zeta. rewrite (us_not_raw _ Hsender).
  destruct (nack_step gs h first dests (us_not_tcp _ Hsender) x t log asked p (us_not_raw _ Hsender) Hl Hsd)
    as (x' & t' & es & Hr & Hes & Hsd'); [done|].
  exists x', t', es. unfold thread_recv_slot_init_ctx. rewrite bind_assoc, (bind_run _ _ _ _ _ _ Hr), ret_bind.
  unfold type_eqb. rewrite bool_decide_false by apply Hsender. cbn [negb]. unfold mret, M_ret.
  by rewrite app_nil_r.
Qed.
End SenderEnd.

(** ** A lost packet is repaired *)

Lemma pass_over_beyond fuel next got i :
  (forall j, (next <= j <= i)%nat -> j ∈ got) -> (next <= i < next + fuel)%nat -> (i < pass_over fuel next got)%nat.
Proof.
  revert next. induction fuel as [|fuel IH]; intros next Hin Hi; [lia|]. cbn [pass_over].
  rewrite bool_decide_true by (apply Hin; lia). destruct (decide (i = next)) as [->|Hne].
  - pose proof (pass_over_ge fuel (S next) got). lia.
  - apply IH; [intros j Hj; apply Hin; lia|lia].
Qed.

Lemma arrive_blocked ws s i :
  (tr_next s ∉ tr_got s) -> (tr_next s < i < tr_next s + ws)%nat ->
  arrive ws s i = Transit (tr_next s) (i :: tr_got s).
Proof.
  intros Hn Hi. unfold arrive. rewrite (proj2 (Nat.leb_le _ _)), (proj2 (Nat.ltb_lt _ _)) by lia. cbn [andb]. f_equal.
  destruct ws as [|ws']; [done|]. cbn [pass_over]. rewrite bool_decide_false; [done|].
  intros [?|?]%elem_of_cons; [lia|done].
Qed.

(** The missing packet arrives after packet [i]. *)
Lemma arrive_repaired ws s i :
  let n := tr_next s in
  let s' := arrive ws (arrive ws s i) n in
  (n ∉ tr_got s) -> (n < i < n + ws)%nat ->
  (n < tr_next s')%nat /\ ((forall j, (n < j < i)%nat -> j ∈ tr_got s) -> (i < tr_next s')%nat).
Proof.
  intros n s' Hn Hi. unfold s'. rewrite (arrive_blocked ws s i Hn Hi). unfold arrive. cbn [tr_next tr_got]. fold n.
  rewrite (proj2 (Nat.leb_le _ _)), (proj2 (Nat.ltb_lt _ _)) by lia. cbn [andb tr_next]. split.
  - apply pass_over_beyond; [|lia]. intros j Hj. replace j with n by lia. by left.
  - intros Hall. apply pass_over_beyond; [|lia]. intros j Hj. rewrite !elem_of_cons.
    destruct (decide (j = n)) as [->|]; [by left|right]. destruct (decide (j = i)) as [->|]; [by left|right].
    apply Hall. lia.
Qed.

Lemma data_wires_length `{CplatByteorder} `{Platform} g h seq pkts wires :
  data_wires g h seq pkts = Some wires -> length wires = length pkts.
Proof.
  revert seq wires. induction pkts as [|p pkts IH]; intros seq wires; cbn [data_wires]; [by intros [= <-]|].
  destruct (data_image _ _ _ _); [|done]. destruct (data_wires _ _ _ _) as [rest|] eqn:Hr; [|done].
  intros [= <-]. cbn. f_equal. by eapply IH.
Qed.

(** The log answers a NACK for a packet it still keeps. *)
Lemma nack_reply_kept `{CplatByteorder} gs first (log : list (list Z)) n wire :
  Z.of_nat n < 4294967296 -> log !! n = Some wire -> (length log <= n + window_width gs)%nat ->
  nack_reply gs first log (first ⊕ Z.of_nat n) = Some wire.
Proof.
  intros Hn Hw Hl. unfold window_width in Hl. unfold nack_reply. cbv zeta. rewrite u32_sub_l.
  replace (u32 (first + Z.of_nat n - first)) with (Z.of_nat n) by (rewrite u32_small; lia).
  rewrite Nat2Z.id. by rewrite (proj2 (Nat.leb_le _ _) Hl).
Qed.

(** The NACK for the missing packet is among the replies. *)
Lemma gap_replied `{CplatByteorder} `{Platform} gr first ses s i ports l path nack :
  replies gr first ses s i ports l -> prompt gr -> in_reach gr s i = true ->
  (tr_next s ∉ tr_got s) -> (tr_next s < i)%nat -> (path < x_n_path gr)%nat ->
  nack_image gr (hdr_of (gr, ses)) (first ⊕ Z.of_nat (tr_next s)) = Some nack ->
  (if src_port (x_service gr) =? 0 then default 0 (ports !! path) else cplat_hton16 (src_port (x_service gr))) <> 0 ->
  exists ep, EvSendto path nack ep ∈ l.
Proof.
  unfold replies. intros Hr Hp Hin Hn Hi Hpath Hnack Hport. rewrite Hin in Hr.
  destruct Hr as (r1 & x1 & r2 & x2 & -> & Hx). destruct (Hx Hp) as (-> & Hcfg & <-).
  unfold reaction at 1. assert (gap (window_width gr) (Transit (tr_next s) (i :: tr_got s)) = true) as ->.
  { apply gap_spec. cbn [tr_next tr_got]. unfold in_reach in Hin. split.
    - intros [?|?]%elem_of_cons; [lia|done].
    - exists i. split; [by left|lia]. }
  cbn [andb tr_next]. unfold nack_for. rewrite Hnack. eexists. apply elem_of_app. left.
  unfold nack_datagrams. apply list_elem_of_omap. exists path. split; [apply list_elem_of_In, in_seq; lia|].
  assert (nack_port x1 path <> 0) as Hnp%Z.eqb_neq.
  { unfold nack_port. rewrite Hcfg. cbv zeta. by destruct (src_port _ =? 0). }
  by rewrite Hnp.
Qed.

(** The two ends of a one-way UDP service, and the packets that cross it. *)
Record one_way_link `{CplatByteorder} `{Platform} (gs gr : service_config) (h : session_hdr) (first : Z)
    (pkts : list (list sq_msg)) (wires : list (list Z)) : Prop := {
  ol_stream : stream_ok gs h first pkts;
  ol_full : Forall (fun ms => ms <> []) pkts;
  ol_wires : data_wires gs h first pkts = Some wires;
  ol_same : same_service gs gr;
  ol_sender : udp_sender gs;
  ol_receiver : udp_receiver gr;
  ol_role : x_role gr = POTR_ROLE_RECEIVER;
  ol_oneway : service_type (x_service gr) <> POTR_TYPE_UNICAST_BIDIR;
  ol_count : Z.of_nat (length pkts) + window_size_cfg (x_global gr) <= 4294967296
}.

(** C5. A lost packet is repaired in one round trip, on a link with
    [reorder_timeout_ms] 0 (otherwise the NACK is delayed, which is not part of
    this claim).  The sender of a one-way UDP service has sent [sent] packets,
    of which the receiver still misses the one it expects next; then packet [i],
    a later one within its window, reaches it on some path.  The receive thread
    sends a NACK for the missing packet back on that path.  If the missing
    packet is still in the window of the sender and the sender has not been
    asked for its number before, the sender that gets this NACK puts exactly the
    bytes of the missing packet on all its paths again; and when one of these
    copies arrives, the receiver hands over the messages that the packets up to
    the next missing one complete.  When the lost packet was the only one
    missing, this covers packet [i].  Nothing is handed over before the loss is
    repaired. *)
Theorem loss_repaired `{CplatByteorder} `{Platform} `{!PlatformLaws}
    gs gr h first pkts wires dests st0 xs ts sent asked xr tr s i nack asender areceiver path path' :
  let n := tr_next s in
  let s' := arrive (window_width gr) (arrive (window_width gr) s i) n in
  one_way_link gs gr h first pkts wires ->
  sending gs h first dests xs (take sent wires) asked -> receiving gr h first pkts st0 xr s ->
  session_hdr_ranges (hdr_of (own xr)) -> reorder_timeout_ms (x_global gr) = 0 ->
  (n ∉ tr_got s) -> (n < i < n + window_width gr)%nat -> (i < sent <= length pkts)%nat ->
  (sent <= n + window_width gs)%nat -> (first ⊕ Z.of_nat n ∉ asked) ->
  nack_image gr (hdr_of (own xr)) (first ⊕ Z.of_nat n) = Some nack ->
  thread_recv_check_src_addr gr asender = true -> thread_recv_check_src_addr gs areceiver = true ->
  (path < x_n_path gr)%nat ->
  (if src_port (x_service gr) =? 0 then ep_port asender else cplat_hton16 (src_port (x_service gr))) <> 0 ->
  exists wr1 es1 ep ws' es2 wr2 es3,
    recv_datagram (default [] (wires !! i)) asender path (World xr tr) = Some (tt, wr1, es1) /\
    EvSendto path nack ep ∈ es1 /\
    recv_datagram nack areceiver path' (World xs ts) = Some (tt, ws', es2) /\
    sent_datagrams es2 = datagrams 0 (x_n_path gs) dests (default [] (wires !! n)) /\
    recv_datagram (default [] (wires !! n)) asender path wr1 = Some (tt, wr2, es3) /\
    receiving gr h first pkts st0 (w_ctx wr2) s' /\ (n < tr_next s')%nat /\
    data_events es1 = [] /\
    data_events es3 = delivered gr POTR_PEER_NA (completed gr pkts st0 n (tr_next s')) /\
    ((forall j, (n < j < i)%nat -> j ∈ tr_got s) -> (i < tr_next s')%nat).
Proof.
  intros n s' [Hstream _ Hw Hsame Hs Hr Hrole Hone Hcount] Hsd Hrv Hh Hprompt Hmiss Hi Hsent Hkept Hnew Hnack
    Hsrc Hsrc' Hpath Hport.
  pose proof Hrv as [Hx Hcfg _ _ _ _ _ _ _ _ _]. pose proof (xo_cfg _ Hx) as Hg. rewrite Hcfg in Hg.
  pose proof (co_n_path _ Hg) as Hnp. pose proof (co_window _ Hg) as Hcw. set (ses := own_session (x_conn xr)).
  assert (own xr = (gr, ses)) as Hown by (unfold own, ses; by rewrite Hcfg). rewrite Hown in Hh, Hnack.
  assert (rxo gr h first pkts st0 ses s false (World xr tr)) as Hw0 by (split; [by split|done]).
  pose proof (arrive_blocked (window_width gr) s i Hmiss Hi) as Ha. fold n in Ha.
  destruct (copy_run gs gr h first pkts st0 ses Hstream Hsame Hr Hone Hcount wires Hw Hrole s i asender path
    (World xr tr) ltac:(lia) Hsrc ltac:(lia) Hw0) as (wr1 & es1 & Hr1 & Hd1 & Hrep & Hw1). cbv zeta in Hd1, Hw1.
  rewrite Ha in Hd1, Hw1. cbn [tr_next w_ctx] in Hd1, Hrep.
  destruct (gap_replied gr first ses s i _ _ path nack Hrep) as [ep Hep]; try done; [|lia| |].
  { unfold in_reach. fold n. rewrite (proj2 (Nat.leb_le _ _)), (proj2 (Nat.ltb_lt _ _)) by lia. done. }
  { rewrite list_lookup_insert_eq by (rewrite (xo_port _ Hx); lia). exact Hport. }
  pose proof (data_wires_length _ _ _ _ _ Hw) as Hlen.
  destruct (lookup_lt_is_Some_2 wires n) as [wire Hwn]; [lia|].
  destruct (nack_datagram_run gs gr h first dests Hs Hsame xs ts (take sent wires) asked (hdr_of (gr, ses))
    (first ⊕ Z.of_nat n) nack areceiver path' Hsd) as (xs' & ts' & es2 & Hr2 & Hes2 & _); try done.
  { rewrite length_take. lia. }
  { apply u32_range. }
  destruct (copy_run gs gr h first pkts st0 ses Hstream Hsame Hr Hone Hcount wires Hw Hrole
    (Transit n (i :: tr_got s)) n asender path wr1 ltac:(lia) Hsrc ltac:(lia) Hw1) as (wr2 & es3 & Hr3 & Hd3 & _ & Hw2).
  cbn [tr_next] in Hd3. cbv zeta in Hw2, Hd3. rewrite <- Ha in Hw2, Hd3. fold n s' in Hw2, Hd3.
  exists wr1, es1, ep, (World xs' ts'), es2, wr2, es3.
  split; [exact Hr1|]. split; [|split; [exact Hr2|split; [|split; [exact Hr3|split; [apply Hw2|]]]]].
  - by apply elem_of_sent.
  - destruct Hes2 as [-> |[_ Hin]]; [|by destruct Hnew]. unfold nack_answer.
    rewrite (nack_reply_kept gs first _ n wire), Hwn; [done|lia|by rewrite lookup_take_lt by lia|rewrite length_take; lia].
  - destruct (arrive_repaired (window_width gr) s i Hmiss Hi) as [Hadv Hall]. split; [exact Hadv|].
    split; [by rewrite Hd1, completed_none|]. split; [exact Hd3|exact Hall].
Qed.

(** ** The other direction *)

(** A receiver never repeats a packet of its own: the end with the role of a
    receiver, of a two-way service too, throws a NACK away, whichever number it
    asks for, so that a packet lost on the way from the receiver to the sender
    stays lost. *)
Theorem receiver_ignores_nack `{CplatByteorder} `{Platform} `{!PlatformLaws} g x t hs n nack from path :
  cfg_ok (x_cfg x) -> same_service g (x_cfg x) -> x_role (x_cfg x) = POTR_ROLE_RECEIVER ->
  x_is_multi_peer (x_cfg x) = false -> session_hdr_ranges hs -> 0 <= n < 4294967296 ->
  nack_image g hs n = Some nack ->
  recv_datagram nack from path (World x t) = Some (tt, World x t, []).
Proof.
  intros Hg Hsame Hrole Hsingle Hh Hn Hw.
  destruct (control_accepted g (x_cfg x) hs POTR_FLAG_NACK n nack Hg) as (q & body & Hparse & _ & Hauth & _);
    [apply Hsame|apply Hsame|done|done|by left|exact Hw|].
  unfold recv_datagram. rewrite get_cfg_bind. cbn [w_ctx]. rewrite (lift_bind _ _ _ _ Hparse). cbn beta iota.
  cbn [Z.eqb POTR_OK]. destruct (negb _); [done|]. destruct (negb _); [done|]. rewrite Hsingle.
  rewrite (lift_bind _ _ _ _ Hauth). cbn beta iota. cbn [Z.eqb POTR_OK negb].
  unfold role_eqb. rewrite Hrole, bool_decide_false by done. by rewrite ret_bind.
Qed.
