(* ===== verification/PingRepair.v ===== *)
(** PINGs: the health thread of a sender announces the number of its next
    packet, and a receiver that misses packets below it asks for them.  This
    finds the losses that no later data packet reveals. *)

From stdpp Require Import base list numbers option.
From Stdlib Require Import ZArith Lia ZifyBool.
From S2P Require Import Prelude Types Packet Window SendQueue Context PathEvent Validate.
From S2P Require Import PeerTable RecvSlot Session Fin RecvWindow HealthThread Send.
From S2P Require Import SendTurn Dispatch RecvThread Frame Delivery UdpDelivery Retransmit Repair.
Local Open Scope Z_scope.
Local Open Scope porter_scope.

(** ** The PING of a sender *)

(** The path states in the PING of a one-way service. *)
Definition idle_states : list Z := fill_path_ping_state zero_ping POTR_PING_STATE_UNDEFINED POTR_MAX_PATH.

Section PingImage.
Context `{CplatByteorder} `{Platform} `{!PlatformLaws}.

Definition ping_image (g : service_config) (h : session_hdr) (seq : Z) : option (list Z) :=
  ping_wire g (built (Q:=view) h seq 0 POTR_FLAG_PING (Z.of_nat POTR_MAX_PATH) (Some idle_states)) idle_states.

(** The packet the other end makes of it. *)
Definition ping_packet (h : session_hdr) (seq : Z) : packet :=
  Packet (hdr_service_id h) (hdr_session_tv_sec h) (hdr_session_id h) (hdr_session_tv_nsec h) seq 0
    POTR_FLAG_PING (Z.of_nat POTR_MAX_PATH) POTR_PROTOCOL_VERSION (Some idle_states).

Lemma ping_image_accepted g g' h seq wire :
  cfg_ok g' -> same_service g g' -> session_hdr_ranges h -> 0 <= seq < 4294967296 -> ping_image g h seq = Some wire ->
  exists q, potr_internal_packet_parse (Some blank_packet) (Some wire) (length wire) = Some (POTR_OK, Some q) /\
    pkt_service_id q = hdr_service_id h /\
    thread_recv_authenticate_packet g' q wire = Some (POTR_OK, ping_packet h seq).
Proof.
  intros Hg' [Hid Hen Hkey _] Hh Hseq. pose proof (co_payload _ Hg') as Hm. unfold POTR_MAX_PAYLOAD in Hm.
  unfold ping_image, ping_wire. destruct (encrypt_enabled (x_service g)) eqn:Henc.
  - cbv zeta. rewrite mark_encrypted_built;
      [|apply list_elem_of_In; simpl; tauto|unfold POTR_MAX_PATH, POTR_CRYPTO_TAG_SIZE; lia].
    destruct (cplat_crypto_encrypt _ _ _ _ _) as [ct|] eqn:Hct; [|done]. intros <-%(inj Some).
    destruct (encrypt_length _ _ _ _ _ _ Hct) as [Hctl _]. rewrite <- Hkey in Hct.
    destruct (open_sealed g' h seq 0 POTR_FLAG_PING idle_states ct (POTR_MAX_PATH + POTR_CRYPTO_TAG_SIZE) blank_packet)
      as (q & Hq & Ha); [done..|lia|apply list_elem_of_In; simpl; tauto|by left| |exact Hct|].
    { unfold POTR_CRYPTO_TAG_SIZE. change (length idle_states) with 4%nat. lia. }
    exists q. split; [exact Hq|]. split; [|exact Ha].
    unfold sealed_pkt in Hq. change (length idle_states) with 4%nat in Hctl, Hq. unfold POTR_CRYPTO_TAG_SIZE in Hctl, Hq.
    rewrite <- Hctl in Hq. rewrite length_app, length_packet_header_bytes, parse_built in Hq;
      [by injection Hq as <-|done..|lia| |rewrite Hctl; unfold POTR_MAX_PAYLOAD; lia].
    by apply (plain_flags_facts POTR_FLAG_PING), list_elem_of_In; simpl; tauto.
  - intros <-%(inj Some). rewrite length_app, length_packet_header_bytes.
    change (Z.of_nat POTR_MAX_PATH) with (Z.of_nat (length idle_states)).
    rewrite parse_built; [|done..|lia|unfold POTR_FLAG_PING; lia|cbn; unfold POTR_MAX_PAYLOAD; lia].
    eexists. split; [done|]. split; [done|]. unfold thread_recv_authenticate_packet. by rewrite Hen.
Qed.

(** A PING round of a one-way sender. *)
Lemma ping_round_run g h first dests x t log asked :
  sending g h first dests x log asked -> udp_sender g ->
  exists x' t' es, health_ping_round (World x t) = Some (tt, World x' t', es) /\
    sent_datagrams es = match ping_image g h (first ⊕ Z.of_nat (length log)) with
                        | Some wire => datagrams 0 (x_n_path g) dests wire | None => [] end /\
    sending g h first dests x' log asked.
Proof.
  intros Hsd Hs. pose proof Hsd as [Hx Hcfg Hh Hd Hn Hk Ha]. unfold health_ping_round.
  rewrite get_cfg_bind. cbn [w_ctx]. rewrite Hcfg, (us_single _ Hs). unfold health_ping_service.
  rewrite get_ctx_bind. cbv zeta. cbn [w_ctx]. rewrite Hcfg. unfold type_eqb.
  rewrite bool_decide_false by apply Hs. fold idle_states. unfold build_ping. rewrite Hh, build_ping_built, Hn.
  change POTR_OK with 0. cbv beta iota. change (ping_wire _ _ _) with (ping_image g h (first ⊕ Z.of_nat (length log))).
  destruct (ping_image _ _ _) as [wire|]; [|by exists x, t, []].
  destruct (ping_sends_run x wire (x_n_path g) 0 (c_dest_addr (x_conn x)) false t Hx)
    as (b & t' & Hr); [rewrite <- Hcfg; apply (xo_cfg _ Hx)|apply (ok_dest _ _ (xo_conn _ Hx))|].
  rewrite (bind_run _ _ _ _ _ _ Hr), Hd. unfold when. destruct (_ && _).
  - eexists (set_x_last_ping_send_ms x _), _, _. split; [rewrite tick_bind, get_ctx_bind; cbn [w_ctx]; reflexivity|].
    rewrite app_nil_r. split; [apply sent_datagrams_all|]. destruct Hx. by split.
  - eexists x, _, _. split; [done|]. rewrite app_nil_r. split; [apply sent_datagrams_all|done].
Qed.
End PingImage.

(** ** The receiver of a PING *)

Section PingReceiver.
Context `{CplatByteorder} `{Platform} `{!PlatformLaws}.
Context (gs gr : service_config) (h : session_hdr) (first : Z) (pkts : list (list sq_msg)).
Context (st0 : list Z * bool) (ses : Z * timespec).
Hypothesis Hstream : stream_ok gs h first pkts.
Hypothesis Hsame : same_service gs gr.
Hypothesis Hkind : udp_receiver gr.
Hypothesis Honeway : service_type (x_service gr) <> POTR_TYPE_UNICAST_BIDIR.
Hypothesis Hcount : Z.of_nat (length pkts) + window_size_cfg (x_global gr) <= 4294967296.

#[local] Abbreviation ws := (window_width gr).
#[local] Abbreviation rx_ := (rx gr h first pkts st0).
#[local] Abbreviation rxo_ := (rxo gr h first pkts st0 ses).
#[local] Abbreviation nack_for_ := (nack_for gr first ses).

Lemma delivers_sync s :
  delivers (rx_ s false) (thread_recv_sync_path_state SlotCtx) [] (fun _ => rx_ s false).
Proof.
  intros w Hw. destruct (keeps_sync_path_state gr SlotCtx w (receiving_good _ _ _ _ _ _ _ _ Hw))
    as (a & w' & es & Hr & Hgood'). exists a, w', es. split; [done|]. revert Hr.
  destruct w as [x t]. pose proof (rx_ctx_ok _ _ _ _ _ _ _ _ Hw) as [Hx Hcfg]. cbn [w_ctx] in *.
  unfold thread_recv_sync_path_state. rewrite get_ctx_bind. cbv zeta. cbn [w_ctx].
  rewrite Hcfg, (ur_not_tcp _ Hkind). unfold type_eqb. rewrite bool_decide_false by done.
  pose proof (ok_health _ _ (xo_conn _ Hx)) as Hh.
  destruct (fill_states_total (fun k => s ← path_ping_state (c_health (x_conn x)) !! k; Some (path_state_is_normal s)))
    as (next & Hnext & _).
  { intros k Hkp. destruct (ping_states_total _ k Hh Hkp) as [[b Hb] _]. rewrite Hb. by eexists. }
  rewrite (lift_bind (potr_internal_copy_oneway_path_states (c_health (x_conn x))) next _ _ Hnext).
  destruct (sync_and_emit_run SlotCtx next (World x t) (x_conn x) eq_refl) as (id & h' & _ & -> & ->).
  intros [= <- <- <-]. split; [destruct (x_callback _); [apply path_events_no_data|done]|].
  split; [|done]. destruct Hw as [[] _]. split; try done. apply Hgood'.
Qed.

Lemma still_sync v : still v (thread_recv_sync_path_state SlotCtx).
Proof. pose proof (still_emit_changed v). stilled. Qed.

(** The packets from [a] to below [a + k] that have not arrived. *)
Definition missing (got : list nat) (a k : nat) : list nat :=
  List.filter (fun i => negb (bool_decide (i ∈ got))) (seq a k).

Lemma seq_offset a j : Z.of_nat j < 4294967296 -> (first ⊕ Z.of_nat (a + j)) ⊖ (first ⊕ Z.of_nat a) = Z.of_nat j.
Proof.
  intros Hj. rewrite u32_sub_l, u32_sub_r.
  replace (first + Z.of_nat (a + j) - (first + Z.of_nat a)) with (Z.of_nat j) by lia. rewrite u32_small; lia.
Qed.

Lemma scan_held s w j :
  rx_ s false w -> (j < ws)%nat ->
  window_recv_has_packet (c_recv_window (x_conn (w_ctx w))) (first ⊕ Z.of_nat (tr_next s + j))
  = Some (bool_decide (tr_next s + j ∈ tr_got s)%nat).
Proof.
  intros [Hrv _] Hj. pose proof Hrv as [Hx Hcfg _ _ Hb Hwin _ _ _ Hn _].
  pose proof (xo_cfg _ Hx) as Hg. rewrite Hcfg in Hg. pose proof (co_window _ Hg) as Hcw.
  rewrite (has_packet_spec _ _ _ Hwin), Hb. f_equal.
  rewrite seq_offset by (unfold window_width in Hj; lia).
  rewrite Nat2Z.id, stream_slots_lookup by done. unfold stream_slot. by case_bool_decide.
Qed.

(** A PING with the number [target] makes the receiver look at [m] packets. *)
Definition scans (s : transit) (target : Z) (m : nat) : Prop :=
  (m <= ws)%nat /\ forall w j, rx_ s false w -> (j <= m)%nat ->
    let W := c_recv_window (x_conn (w_ctx w)) in
    negb (first ⊕ Z.of_nat (tr_next s + j) =? target) &&
    potr_internal_seqnum_in_window (first ⊕ Z.of_nat (tr_next s + j)) (win_base_seq W) (win_window_size W)
    = (j <? m)%nat.

Lemma scans_window s w j :
  rx_ s false w -> (j <= ws)%nat ->
  let W := c_recv_window (x_conn (w_ctx w)) in
  potr_internal_seqnum_in_window (first ⊕ Z.of_nat (tr_next s + j)) (win_base_seq W) (win_window_size W)
  = (j <? ws)%nat.
Proof.
  intros [Hrv _] Hj W. pose proof Hrv as [Hx Hcfg _ _ Hb Hwin _ _ _ Hn _].
  pose proof (xo_cfg _ Hx) as Hg. rewrite Hcfg in Hg. pose proof (co_window _ Hg) as Hcw.
  pose proof (ok_recv _ _ (xo_conn _ Hx)) as ([Hd1 _] & _). rewrite Hcfg in Hd1.
  unfold window_width, POTR_MAX_WINDOW_SIZE in *.
  unfold potr_internal_seqnum_in_window, W. rewrite Hb, Hd1, seq_offset by lia.
  destruct (Z.ltb_spec (Z.of_nat j) (window_size_cfg (x_global gr))); symmetry; [apply Nat.ltb_lt|apply Nat.ltb_ge]; lia.
Qed.

(** Two packets of the stream do not have the same number. *)
Lemma seq_distinct a b : (a < b)%nat -> Z.of_nat b - Z.of_nat a < 4294967296 -> first ⊕ Z.of_nat a <> first ⊕ Z.of_nat b.
Proof.
  intros Hab Hlt He. pose proof (seq_offset a (b - a) ltac:(lia)) as Ho. replace (a + (b - a))%nat with b in Ho by lia.
  rewrite He, u32_sub_l, u32_sub_r, Z.sub_diag in Ho. change (u32 0) with 0 in Ho. lia.
Qed.

(** A PING that announces [sent] packets, and one older than the window. *)
Lemma scans_fresh s sent :
  cfg_ok gr -> (tr_next s <= sent <= length pkts)%nat -> scans s (first ⊕ Z.of_nat sent) ((sent - tr_next s) `min` ws).
Proof.
  intros Hg Hsent. pose proof (co_window _ Hg) as Hcw. split; [lia|]. intros w j Hw Hj. cbv zeta.
  rewrite (scans_window s w j Hw) by lia. destruct (decide (tr_next s + j = sent)%nat) as [He|Hne].
  - rewrite He, Z.eqb_refl. cbn [negb andb]. symmetry. apply Nat.ltb_ge. lia.
  - rewrite (proj2 (Z.eqb_neq _ _)) by (apply seq_distinct; lia). cbn [negb andb].
    destruct (Nat.ltb_spec j ws); symmetry; [apply Nat.ltb_lt|apply Nat.ltb_ge]; lia.
Qed.

Lemma scans_stale s m :
  cfg_ok gr -> (m < tr_next s <= length pkts)%nat -> scans s (first ⊕ Z.of_nat m) ws.
Proof.
  intros Hg Hm. pose proof (co_window _ Hg) as Hcw. split; [done|]. intros w j Hw Hj. cbv zeta.
  rewrite (scans_window s w j Hw) by lia. destruct (Nat.ltb_spec j ws); [|by rewrite andb_false_r].
  rewrite (proj2 (Z.eqb_neq _ _)); [done|]. intros He. symmetry in He. revert He. apply seq_distinct; unfold window_width in *; lia.
Qed.

Lemma missing_S got a k :
  missing got a (S k) = (if bool_decide (a ∈ got) then [] else [a]) ++ missing got (S a) k.
Proof. unfold missing. cbn [seq List.filter]. by case_bool_decide. Qed.

(** [l] asks for some of the packets [is_], on a prompt receiver for all. *)
Definition asks (is_ : list nat) (x : potr_context) (l : list effect) : Prop :=
  (forall wire, wire ∈ wires_in l -> exists i, i ∈ is_ /\
     nack_image gr (hdr_of (gr, ses)) (first ⊕ Z.of_nat i) = Some wire) /\
  (prompt gr -> sent_datagrams l = concat (map (nack_for_ x) is_)).

Lemma asks_none x l : sent_datagrams l = [] -> asks [] x l.
Proof. intros Hl. split; [|done]. rewrite wires_in_sent, Hl. by intros wire ?%not_elem_of_nil. Qed.

Lemma asks_app a b x l l' : asks a x l -> asks b x l' -> asks (a ++ b) x (l ++ l').
Proof.
  intros [Ha Hpa] [Hb Hpb]. split.
  - intros wire. unfold wires_in. rewrite omap_app, elem_of_app. intros [Hw|Hw].
    + destruct (Ha wire Hw) as (i & Hi & ?). exists i. rewrite elem_of_app. auto.
    + destruct (Hb wire Hw) as (i & Hi & ?). exists i. rewrite elem_of_app. auto.
  - intros Hp. by rewrite sent_datagrams_app, map_app, concat_app, Hpa, Hpb.
Qed.

Lemma asks_nack i x1 x l l0 :
  sent_datagrams l0 = [] -> l = nack_for_ x1 i -> (prompt gr -> x1 = x) -> asks [i] x (l0 ++ l).
Proof.
  intros H0s -> Hx. apply (asks_app [] [i]); [by apply asks_none|]. split.
  - intros wire Hw. exists i. split; [by left|]. unfold nack_for in Hw. destruct (nack_image _ _ _) as [w|] eqn:Hn.
    + f_equal. pose proof (wires_in_nacks x1 w 0 (x_n_path gr)) as Hall. rewrite List.Forall_forall in Hall. by apply Hall, list_elem_of_In.
    + by apply not_elem_of_nil in Hw.
  - intros Hp. rewrite nack_for_sent, (Hx Hp). cbn. by rewrite app_nil_r.
Qed.

(** One number of the scan that is missing. *)
Lemma scan_ask s i w :
  rxo_ s false w ->
  exists r w1 e1, reorder_gap_ready SlotCtx (first ⊕ Z.of_nat i) w = Some (r, w1, e1) /\
    if r then exists w2 e2, slot_send_nack SlotCtx (first ⊕ Z.of_nat i) w1 = Some (tt, w2, e2) /\
      data_events (e1 ++ e2) = [] /\ asks [i] (w_ctx w) (e1 ++ e2) /\ rxo_ s false w2 /\
      (prompt gr -> w_ctx w2 = w_ctx w)
    else data_events e1 = [] /\ sent_datagrams e1 = [] /\ rxo_ s false w1 /\ ~ prompt gr.
Proof.
  intros Hw.
  destruct (gap_ready_run gr h first pkts st0 ses s false w (first ⊕ Z.of_nat i) (u32_range _) Hw)
    as (r & [x1 t1] & e1 & Hr & Hd & Hs & Hw1 & Hp). exists r, (World x1 t1), e1. split; [exact Hr|].
  destruct r; [|split; [done|]; split; [done|]; split; [done|]; intros [? _]%Hp; done].
  destruct (rx_ctx_ok _ _ _ _ _ _ _ _ (proj1 Hw1)) as [Hx1 Hcfg1]. cbn [w_ctx] in *.
  destruct (send_nack_run x1 t1 (first ⊕ Z.of_nat i) Hx1) as [t2 Hn]; [by rewrite Hcfg1|].
  rewrite (proj2 Hw1 : own x1 = _), Hcfg1 in Hn. fold (nack_for_ x1 i) in Hn.
  exists (World x1 t2), (nack_for_ x1 i). split; [exact Hn|].
  split; [by rewrite data_events_app, Hd, nack_for_no_data|].
  split; [apply (asks_nack i x1); [done|done|]; intros [_ ?]%Hp; by subst w|]. split; [exact Hw1|].
  intros [_ ?]%Hp. by subst w.
Qed.

(** The scan from packet [tr_next s + j]. *)
Lemma scan_run s target m k : forall fuel j w,
  scans s target m -> (j + k = m)%nat -> (k < fuel)%nat -> rxo_ s false w ->
  exists stop w' es, scan_loop fuel SlotCtx target (first ⊕ Z.of_nat (tr_next s + j)) w = Some (stop, w', es) /\
    data_events es = [] /\ rxo_ s false w' /\ asks (missing (tr_got s) (tr_next s + j) k) (w_ctx w) es.
Proof.
  induction k as [|k IH]; intros fuel j w Hsc Hjk Hfuel Hw; (destruct fuel as [|fuel]; [lia|]);
    cbn [scan_loop]; pose proof Hw as [Hrx _];
    rewrite (bind_run_nil _ _ _ _ _ (get_conn_run SlotCtx w _ eq_refl)); cbv zeta;
    pose proof Hsc as [Hm Hcont]; rewrite (Hcont w j Hrx) by lia.
  - rewrite (proj2 (Nat.ltb_ge _ _)) by lia. exists (first ⊕ Z.of_nat (tr_next s + j)), w, [].
    split; [done|]. split; [done|]. split; [done|]. by apply asks_none.
  - rewrite (proj2 (Nat.ltb_lt _ _)) by lia.
    rewrite (lift_bind _ _ _ _ (scan_held s w j Hrx ltac:(lia))).
    assert ((first ⊕ Z.of_nat (tr_next s + j)) ⊕ 1 = first ⊕ Z.of_nat (tr_next s + S j)) as Hnext.
    { rewrite u32_add_l. f_equal. lia. }
    rewrite missing_S. case_bool_decide as Hheld; cbn [negb].
    + rewrite Hnext. destruct (IH fuel (S j) w Hsc ltac:(lia) ltac:(lia) Hw) as (stop & w' & es & Hr & Hd & Hw' & Ha).
      exists stop, w', es. rewrite <- Nat.add_succ_r. done.
    + destruct (scan_ask s (tr_next s + j) w Hw) as (r & w1 & e1 & Hr1 & Hres). rewrite (bind_run _ _ _ _ _ _ Hr1).
      destruct r.
      * destruct Hres as (w2 & e2 & Hr2 & Hd2 & Ha2 & Hw2 & Hctx). rewrite (bind_run _ _ _ _ _ _ Hr2), Hnext.
        destruct (IH fuel (S j) w2 Hsc ltac:(lia) ltac:(lia) Hw2) as (stop & w' & es & Hr & Hd & Hw' & Ha).
        rewrite Hr. exists stop, w', ((e1 ++ e2) ++ es). rewrite <- (app_assoc e1). split; [done|].
        rewrite app_assoc, data_events_app, Hd2, Hd. split; [done|]. split; [done|].
        apply asks_app; [done|]. rewrite <- Nat.add_succ_r. destruct Ha as [Ha1 Ha3]. split; [done|].
        intros Hp. by rewrite <- (Hctx Hp), Ha3.
      * destruct Hres as (Hd1 & Hs1 & Hw1 & Hnp). exists (first ⊕ Z.of_nat (tr_next s + j)), w1, e1.
        split; [unfold mret, M_ret; by rewrite app_nil_r|]. split; [done|]. split; [done|].
        split; [|done]. rewrite wires_in_sent, Hs1. by intros wire ?%not_elem_of_nil.
Qed.

(** The scan of a PING. *)
Lemma scan_ping_run s target m w :
  scans s target m -> rxo_ s false w ->
  exists w' es, thread_recv_window_scan_ping_gap SlotCtx (ping_packet h target) w = Some (tt, w', es) /\
    data_events es = [] /\ rxo_ s false w' /\ asks (missing (tr_got s) (tr_next s) m) (w_ctx w) es.
Proof.
  intros Hsc Hw. destruct (rx_ctx_ok _ _ _ _ _ _ _ _ (proj1 Hw)) as [Hx Hcfg].
  unfold thread_recv_window_scan_ping_gap. rewrite get_cfg_bind, Hcfg.
  rewrite (bind_run_nil _ _ _ _ _ (get_conn_run SlotCtx w _ eq_refl)). cbv zeta. cbn [slot_is_peer].
  rewrite (ur_not_raw _ Hkind). pose proof Hw as [[[_ _ _ _ Hb Hwin _ _ _ _ _] _] _].
  pose proof (ok_recv _ _ (xo_conn _ Hx)) as ([Hd1 _] & _). rewrite Hcfg in Hd1.
  rewrite (proj1 Hwin), Hb, Hd1. change (pkt_seq_num (ping_packet h target)) with target.
  destruct (scan_run s target m m (S ws) 0 w Hsc eq_refl (le_n_S _ _ (proj1 Hsc)) Hw)
    as (stop & w1 & e1 & Hr1 & Hd & Hw1 & Ha). rewrite Nat.add_0_r in Hr1, Ha. fold (window_width gr).
  rewrite (bind_run _ _ _ _ _ _ Hr1). unfold when. destruct (stop =? _).
  - destruct (still_delivers gr h first pkts st0 ses s false
      (modify_conn SlotCtx (fun c => set_reorder_pending c false)) [] (fun _ => rx_ s false) w1)
      as ([] & w' & es & Hr & Hd' & Hs & Hq & Ho'); [|stilled|done|].
    { apply delivers_hush; [apply keeps_modify_conn; intros c Hc; conn_solve|intros v; hushed]. }
    rewrite Hr. exists w', (e1 ++ es). split; [done|]. rewrite data_events_app, Hd, Hd'. split; [done|].
    split; [done|]. rewrite <- (app_nil_r (missing _ _ _)). apply asks_app; [done|]. by apply asks_none.
  - exists w1, e1. split; [unfold mret, M_ret; by rewrite app_nil_r|]. done.
Qed.

Lemma ping_packet_ok seq : cfg_ok gr -> session_hdr_ranges h -> 0 <= seq < 4294967296 -> pkt_ok gr (ping_packet h seq).
Proof.
  intros Hg Hh Hseq. pose proof (co_payload _ Hg). destruct Hh as [Hh1 Hh2 Hh3 Hh4]. split.
  - split; cbn [ping_packet pkt_service_id pkt_session_tv_sec pkt_session_id pkt_session_tv_nsec
      pkt_seq_num pkt_ack_num pkt_flags pkt_payload_len pkt_protocol_version]; try done;
      unfold POTR_FLAG_PING, POTR_PROTOCOL_VERSION, POTR_MAX_PATH; lia.
  - cbn [ping_packet pkt_payload_len]. unfold POTR_MAX_PATH. lia.
  - cbn [ping_packet pkt_payload pkt_payload_len]. split; [by apply forallb_is_byte|done].
Qed.

(** What precedes the scan leaves the stream and the ports alone. *)
Definition ping_health (path : nat) (pkt : packet) : M unit :=
  changed ← thread_recv_update_path_health SlotCtx path;
  apply_ping_payload SlotCtx pkt;;
  thread_recv_wake_udp_interrupt_ping changed;;
  thread_recv_sync_path_state SlotCtx.

Lemma ping_health_run s path pkt w :
  pkt_ok gr pkt -> (path < POTR_MAX_PATH)%nat -> rxo_ s false w ->
  exists w' es, ping_health path pkt w = Some (tt, w', es) /\ data_events es = [] /\ sent_datagrams es = [] /\
    rxo_ s false w' /\ x_peer_port (w_ctx w') = x_peer_port (w_ctx w).
Proof.
  intros Hp Hpath Hw.
  assert (delivers (rx_ s false) (ping_health path pkt) [] (fun _ => rx_ s false)) as Hdel.
  { apply (delivers_before _ _ (fun _ => rx_ s false)).
    { apply delivers_hush; [by apply keeps_update_path_health|intros v; hushed]. }
    intros ch. apply (delivers_before _ _ (fun _ => rx_ s false)).
    { apply delivers_hush; [by apply keeps_apply_ping_payload|intros v; hushed]. }
    intros _. apply (delivers_before _ _ (fun _ => rx_ s false)); [|intros _; apply delivers_sync].
    apply delivers_hush; [by apply keeps_wake_udp|intros v; hushed]. }
  destruct (still_delivers gr h first pkts st0 ses s false _ _ _ w Hdel) as ([] & w' & es & Hr & Hd & Hs & Hq & Ho).
  { pose proof (still_emit_changed (gr, ses)). stilled. }
  { done. }
  exists w', es. split; [done|]. split; [done|]. split; [done|]. split; [done|].
  assert (frame x_peer_port (x_peer_port (w_ctx w)) (ping_health path pkt)) as Hf.
  { assert (forall pid st ch, frame x_peer_port (x_peer_port (w_ctx w)) (emit_changed pid st ch)).
    { intros pid st ch. induction ch as [|[k e] ch IH]; cbn [emit_changed]; frames. }
    frames. }
  by eapply Hf.
Qed.

Lemma dispatch_ping_run pkt path w w1 e1 w2 e2 :
  x_cfg (w_ctx w) = gr -> ping_health path pkt w = Some (tt, w1, e1) ->
  thread_recv_window_scan_ping_gap SlotCtx pkt w1 = Some (tt, w2, e2) ->
  dispatch_ping SlotCtx pkt path w = Some (false, w2, e1 ++ e2).
Proof.
  intros Hcfg (ch & wa & ea & eb & Ha & Hb & ->)%bind_inv Hscan.
  apply bind_inv in Hb as (? & wb & ec & ed & Hb & Hc & ->).
  apply bind_inv in Hc as (? & wc & ee & ef & Hc & Hd & ->).
  unfold dispatch_ping. rewrite get_cfg_bind, Hcfg, (ur_not_raw _ Hkind).
  rewrite (bind_run _ _ _ _ _ _ Ha), (bind_run _ _ _ _ _ _ Hb). cbn [slot_is_peer negb when].
  rewrite (bind_run _ _ _ _ _ _ Hc), (bind_run _ _ _ _ _ _ Hd), (bind_run _ _ _ _ _ _ Hscan).
  unfold mret, M_ret. cbn [andb]. by rewrite app_nil_r, <- !app_assoc.
Qed.

(** The receiver takes a PING from the network. *)
Lemma ping_datagram_run s target m from path w wire :
  x_role gr = POTR_ROLE_RECEIVER -> thread_recv_check_src_addr gr from = true -> (path < POTR_MAX_PATH)%nat ->
  scans s target m -> 0 <= target < 4294967296 -> ping_image gs h target = Some wire -> rxo_ s false w ->
  exists w' es x1, recv_datagram wire from path w = Some (tt, w', es) /\ data_events es = [] /\ rxo_ s false w' /\
    x_peer_port x1 = <[path:=ep_port from]> (x_peer_port (w_ctx w)) /\ x_cfg x1 = gr /\
    asks (missing (tr_got s) (tr_next s) m) x1 es.
Proof.
  intros Hrole Hsrc Hpath Hsc Htgt Hwire Hw. destruct (rx_ctx_ok _ _ _ _ _ _ _ _ (proj1 Hw)) as [Hx Hcfg].
  assert (cfg_ok gr) as Hg by (rewrite <- Hcfg; apply xo_cfg, Hx). pose proof Hstream as [Hgs Hh Hsid Hf Hall].
  set (pkt := ping_packet h target).
  pose proof (ping_packet_ok target Hg Hh Htgt) as Hpk. fold pkt in Hpk.
  destruct (ping_image_accepted gs gr h _ wire Hg Hsame Hh Htgt Hwire) as (q & Hparse & Hq & Hauth). fold pkt in Hauth.
  unfold recv_datagram. rewrite get_cfg_bind, Hcfg, (lift_bind _ _ _ _ Hparse). cbn beta iota.
  rewrite Hq, Hsid, (same_id _ _ Hsame), !Z.eqb_refl, Hsrc, (ur_single _ Hkind). cbn [Z.eqb POTR_OK negb].
  rewrite (lift_bind _ _ _ _ Hauth). cbn beta iota. cbn [Z.eqb POTR_OK negb].
  unfold role_eqb. rewrite Hrole, bool_decide_false by done. rewrite ret_bind. unfold thread_recv_dispatch_packet.
  change (pkt_flags pkt) with POTR_FLAG_PING. cbv iota. change (POTR_FLAG_PING has POTR_FLAG_FIN) with false.
  change (POTR_FLAG_PING has POTR_FLAG_NACK) with false. change (POTR_FLAG_PING has POTR_FLAG_REJECT) with false.
  change (POTR_FLAG_PING has Z.lor POTR_FLAG_DATA POTR_FLAG_PING) with true.
  change (POTR_FLAG_PING has POTR_FLAG_PING) with true. cbv iota. cbn [negb].
  destruct w as [x t]. pose proof Hw as [[Hrv _] Ho]. cbn [w_ctx] in *.
  destruct (adopt_same x t SlotCtx (x_conn x) pkt Hx eq_refl (pk_ranges _ _ Hpk)) as [t' Hr];
    [by rewrite (rv_session _ _ _ _ _ _ _ Hrv : followed (x_conn x) = _)|].
  unfold thread_recv_slot_init_ctx. rewrite bind_assoc, (bind_run_nil _ _ _ _ _ Hr). cbn [negb].
  rewrite bind_assoc, (bind_run_nil _ _ _ _ _ (learn_ports gr Honeway x t' path from Hx Hcfg Hpath)).
  set (x1 := set_x_peer_port _ _).
  assert (rxo_ s false (World x1 t')) as Hw1.
  { split; [|exact Ho]. split; [|done]. eapply receiving_view; [| |exact Hrv]; [|reflexivity].
    destruct Hx. split; try done. unfold x1. cbn. by rewrite length_insert. }
  destruct (ping_health_run s path pkt (World x1 t') Hpk Hpath Hw1) as (w2 & e2 & Hr2 & Hd2 & Hs2 & Hw2 & Hport).
  destruct (scan_ping_run s target m w2 Hsc Hw2) as (w3 & e3 & Hr3 & Hd3 & Hw3 & Ha).
  exists w3, (e2 ++ e3), (w_ctx w2). rewrite (bind_run _ _ _ _ _ _ (dispatch_ping_run pkt path (World x1 t') w2 e2 w3 e3 Hcfg Hr2 Hr3)).
  split; [unfold mret, M_ret; by rewrite app_nil_r|]. split; [by rewrite data_events_app, Hd2, Hd3|].
  split; [done|]. split; [exact Hport|]. split; [apply (rx_ctx_ok _ _ _ _ _ _ _ _ (proj1 Hw2))|].
  apply (asks_app []); [by apply asks_none|done].
Qed.
End PingReceiver.

(** ** One round of repairs *)

(** The next packet is missing, and nothing beyond the window is there. *)
Definition settled (ws : nat) (s : transit) : Prop :=
  (tr_next s ∉ tr_got s) /\ forall j, j ∈ tr_got s -> (j < tr_next s + ws)%nat.

Lemma arrive_settled ws s i : settled ws s -> settled ws (arrive ws s i).
Proof.
  intros [Hn Hg]. unfold arrive. destruct (_ && _) eqn:Hr; [|done]. unfold settled. cbn [tr_next tr_got].
  pose proof (pass_over_ge ws (tr_next s) (i :: tr_got s)) as Hge.
  assert (forall j, j ∈ i :: tr_got s -> (j < tr_next s + ws)%nat) as Hg'.
  { intros j [->|Hj]%elem_of_cons; [lia|by apply Hg]. }
  split; [|intros j Hj%Hg'; lia]. intros Hin. pose proof (pass_over_stops _ _ _ Hin) as Hs.
  rewrite Hs in Hin. apply Hg' in Hin. lia.
Qed.

Lemma arrive_got ws s i j : j ∈ tr_got s -> j ∈ tr_got (arrive ws s i).
Proof. intros Hj. unfold arrive. destruct (_ && _); [by right|done]. Qed.

(** What has been passed over had arrived. *)
Lemma arrive_next_got ws s i j :
  (tr_next s <= j < tr_next (arrive ws s i))%nat -> j ∈ tr_got (arrive ws s i).
Proof.
  unfold arrive. destruct (_ && _); cbn [tr_next tr_got]; [|lia]. apply pass_over_got.
Qed.

(** The packets [l], all within the window of [n], arrive: those and the ones
    that were there leave no hole below [m]. *)
Lemma arrives_fill ws l : forall s n m,
  settled ws s -> (n <= tr_next s)%nat -> (m <= n + ws)%nat ->
  (forall j, (n <= j < tr_next s)%nat -> j ∈ tr_got s) ->
  (forall j, (n <= j < m)%nat -> j ∈ tr_got s \/ j ∈ l) ->
  (forall j, j ∈ tr_got s \/ j ∈ l -> (j < m)%nat) -> (tr_next s <= m)%nat ->
  tr_next (fold_left (arrive ws) l s) = m.
Proof.
  induction l as [|i l IH]; intros s n m Hset Hn Hm Hpast Hall Hlt Hle; cbn [fold_left].
  - destruct Hset as [Hnot _]. destruct (decide (tr_next s = m)) as [|Hne]; [done|].
    destruct (Hall (tr_next s)) as [Hin|Hin]; [lia|done|by apply not_elem_of_nil in Hin].
  - assert (i < m)%nat as Hi by (apply Hlt; right; by left).
    assert (forall j, (n <= j < tr_next (arrive ws s i))%nat -> j ∈ tr_got (arrive ws s i)) as Hpast'.
    { intros j Hj. destruct (decide (j < tr_next s)%nat); [apply arrive_got, Hpast; lia|apply arrive_next_got; lia]. }
    destruct (arrive_bound ws s i m) as (_ & Hb1 & Hb2); [intros j Hj; apply Hlt; by left|done|done|].
    apply (IH (arrive ws s i) n m); [by apply arrive_settled| |done|done| |intros j [Hj|Hj]; [by apply Hb1|]|done].
    + pose proof (arrive_ge ws s i). lia.
    + intros j Hj. destruct (Hall j Hj) as [Hg|[->|Hin]%elem_of_cons]; [left; by apply arrive_got| |by right].
      left. destruct (decide (i < tr_next s)%nat); [apply arrive_got, Hpast; lia|].
      unfold arrive. rewrite (proj2 (Nat.leb_le _ _)), (proj2 (Nat.ltb_lt _ _)) by lia. by left.
    + apply Hlt. right. by right.
Qed.

Section Round.
Context `{CplatByteorder} `{Platform} `{!PlatformLaws}.
Context (gs gr : service_config) (h : session_hdr) (first : Z) (pkts : list (list sq_msg)) (wires : list (list Z)).
Context (dests : list endpoint) (st0 : list Z * bool) (ses : Z * timespec).
Hypothesis Hlink : one_way_link gs gr h first pkts wires.
Hypothesis Hses : session_hdr_ranges (hdr_of (gr, ses)).

(** The sender gets the NACKs for the packets [l], each for the first time. *)
Lemma nacks_run nack from path l : forall x t log asked,
  sending gs h first dests x log asked -> Z.of_nat (length log) < 4294967296 -> List.NoDup l ->
  thread_recv_check_src_addr gs from = true ->
  (forall i, i ∈ l -> (i < length log <= i + window_width gs)%nat /\ (first ⊕ Z.of_nat i ∉ asked) /\
     nack_image gr (hdr_of (gr, ses)) (first ⊕ Z.of_nat i) = Some (nack i)) ->
  exists w' es, for_each (map nack l) (fun wire => recv_datagram wire from path) (World x t) = Some (tt, w', es) /\
    sent_datagrams es = concat (map (fun i => datagrams 0 (x_n_path gs) dests (default [] (log !! i))) l).
Proof.
  induction l as [|i l IH]; intros x t log asked Hsd Hlog Hnd Hsrc Hl; [by exists (World x t), []|].
  apply List.NoDup_cons_iff in Hnd as [Hnin Hnd]. destruct (Hl i) as (Hi & Hnew & Hw); [by left|]. cbn [map for_each].
  destruct (nack_datagram_run gs gr h first dests (ol_sender _ _ _ _ _ _ Hlink) (ol_same _ _ _ _ _ _ Hlink) x t
    log asked (hdr_of (gr, ses)) (first ⊕ Z.of_nat i) (nack i) from path Hsd) as (x' & t' & es & Hr & Hes & Hsd');
    try done; [apply u32_range|]. rewrite (bind_run _ _ _ _ _ _ Hr).
  destruct (IH x' t' log (first ⊕ Z.of_nat i :: asked) Hsd' Hlog Hnd Hsrc) as (w' & es' & Hr' & Hs').
  { intros j Hj. destruct (Hl j) as (Hj1 & Hj2 & Hj3); [by right|]. split; [done|]. split; [|done].
    intros [He|He]%elem_of_cons; [|done]. apply Hnin, list_elem_of_In. replace i with j; [done|].
    assert ((first ⊕ Z.of_nat j) ⊖ first = (first ⊕ Z.of_nat i) ⊖ first) as He' by by rewrite He.
    rewrite !u32_sub_l in He'. replace (first + Z.of_nat j - first) with (Z.of_nat j) in He' by lia.
    replace (first + Z.of_nat i - first) with (Z.of_nat i) in He' by lia. rewrite !u32_small in He' by lia. lia. }
  rewrite Hr'. exists w', (es ++ es'). split; [done|]. rewrite sent_datagrams_app, Hs'. cbn [map concat]. f_equal.
  destruct Hes as [-> |[_ ?]]; [|done]. unfold nack_answer.
  destruct (lookup_lt_is_Some_2 log i) as [wire Hwi]; [lia|]. rewrite Hwi.
  by rewrite (nack_reply_kept gs first log i wire) by (lia || done).
Qed.

(** The receiver gets copies of the packets [l]. *)
Lemma copies_run from path l : forall s w,
  thread_recv_check_src_addr gr from = true -> (path < POTR_MAX_PATH)%nat ->
  (forall i, i ∈ l -> (i < length pkts)%nat) -> rxo gr h first pkts st0 ses s false w ->
  let s' := fold_left (arrive (window_width gr)) l s in
  exists w' es, for_each (map (fun i => default [] (wires !! i)) l) (fun wire => recv_datagram wire from path) w
      = Some (tt, w', es) /\
    data_events es = delivered gr POTR_PEER_NA (completed gr pkts st0 (tr_next s) (tr_next s')) /\
    rxo gr h first pkts st0 ses s' false w'.
Proof.
  induction l as [|i l IH]; intros s w Hsrc Hpath Hl Hw; cbn [fold_left map for_each].
  { exists w, []. by rewrite completed_none. }
  destruct Hlink as [Hst _ Hwires Hsame _ Hrec Hrole Hone Hc].
  destruct (copy_run gs gr h first pkts st0 ses Hst Hsame Hrec Hone Hc wires Hwires Hrole s i from path w)
    as (w1 & e1 & Hr1 & Hd1 & _ & Hw1); [apply Hl; by left|done..|].
  rewrite (bind_run _ _ _ _ _ _ Hr1).
  destruct (IH (arrive (window_width gr) s i) w1 Hsrc Hpath) as (w2 & e2 & Hr2 & Hd2 & Hw2);
    [intros j Hj; apply Hl; by right|done|].
  rewrite Hr2. exists w2, (e1 ++ e2). split; [done|]. split; [|done].
  rewrite data_events_app, Hd1, Hd2, <- delivered_app. f_equal. symmetry.
  apply completed_trans; [apply arrive_ge|apply (arrives_mono gr pkts)].
Qed.
End Round.

Lemma elem_of_missing got a k i : i ∈ missing got a k <-> (a <= i < a + k)%nat /\ (i ∉ got).
Proof.
  unfold missing. rewrite list_elem_of_In, List.filter_In, in_seq, negb_true_iff, bool_decide_eq_false. done.
Qed.

Lemma missing_NoDup got a k : List.NoDup (missing got a k).
Proof. apply List.NoDup_filter, List.seq_NoDup. Qed.

(** When all that is missing arrives, everything is handed over. *)
Lemma missing_arrive ws s sent :
  (tr_next s ∉ tr_got s) -> (forall i, i ∈ tr_got s -> (i < sent)%nat) -> (tr_next s <= sent <= tr_next s + ws)%nat ->
  tr_next (fold_left (arrive ws) (missing (tr_got s) (tr_next s) (sent - tr_next s)) s) = sent.
Proof.
  intros Hmiss Hgot Hsent. apply (arrives_fill _ _ s (tr_next s) sent); try lia.
  - split; [done|]. intros j Hj%Hgot. lia.
  - intros j Hj. destruct (decide (j ∈ tr_got s)); [by left|right]. apply elem_of_missing. split; [lia|done].
  - intros j [Hj|[Hj _]%elem_of_missing]; [by apply Hgot|lia].
Qed.

Lemma nack_for_map `{CplatByteorder} `{Platform} gr first ses nack x l :
  (forall i, i ∈ l -> nack_image gr (hdr_of (gr, ses)) (first ⊕ Z.of_nat i) = Some (nack i)) ->
  map (nack_for gr first ses x) l = map (fun i => nack_datagrams x (nack i) 0 (x_n_path gr)) l.
Proof.
  intros Hl. apply List.map_ext_in. intros i Hi%list_elem_of_In. unfold nack_for. by rewrite (Hl i Hi).
Qed.

Lemma sent_map {A} (f : list Z -> A) (wires : list (list Z)) k l :
  (forall i, i ∈ l -> (i < k)%nat) ->
  map (fun i => f (default [] (take k wires !! i))) l = map (fun i => f (default [] (wires !! i))) l.
Proof.
  intros Hl. apply List.map_ext_in. intros i Hi%list_elem_of_In. by rewrite lookup_take_lt by auto.
Qed.

(** C6. One PING repairs everything that is outstanding, provided that it fits
    the windows: on a one-way UDP link with [reorder_timeout_ms] 0 the sender
    has sent [sent] packets, at most the window of either end more than the
    receiver has handed over, any of which the network may have lost, the last
    ones included, and none of the lost ones has been asked for before.  Its
    health thread sends a PING on all paths; the receiver that gets it (on
    [path]) asks for exactly the packets it misses, one NACK each on every path
    whose port it knows; the sender that gets these NACKs sends exactly those
    packets again; and when a copy of each arrives, the receiver has handed over
    everything that was sent, and nothing of it twice. *)
Theorem ping_repairs_all `{CplatByteorder} `{Platform} `{!PlatformLaws}
    gs gr h first pkts wires dests st0 xs ts sent asked xr tr s ping nack asender areceiver path path' :
  let n := tr_next s in
  let lost := missing (tr_got s) n (sent - n) in
  one_way_link gs gr h first pkts wires ->
  sending gs h first dests xs (take sent wires) asked -> receiving gr h first pkts st0 xr s ->
  session_hdr_ranges (hdr_of (own xr)) -> reorder_timeout_ms (x_global gr) = 0 ->
  (n ∉ tr_got s) -> (forall i, i ∈ tr_got s -> (i < sent)%nat) -> (n <= sent <= length pkts)%nat ->
  (sent <= n + window_width gr)%nat -> (sent <= n + window_width gs)%nat ->
  (forall i, i ∈ lost -> (first ⊕ Z.of_nat i ∉ asked) /\
     nack_image gr (hdr_of (own xr)) (first ⊕ Z.of_nat i) = Some (nack i)) ->
  ping_image gs h (first ⊕ Z.of_nat sent) = Some ping ->
  thread_recv_check_src_addr gr asender = true -> thread_recv_check_src_addr gs areceiver = true ->
  (path < POTR_MAX_PATH)%nat ->
  exists ws1 es1 wr1 es2 ws2 es3 wr2 es4 x1 got,
    health_ping_round (World xs ts) = Some (tt, ws1, es1) /\
    sent_datagrams es1 = datagrams 0 (x_n_path gs) dests ping /\
    recv_datagram ping asender path (World xr tr) = Some (tt, wr1, es2) /\
    x_cfg x1 = gr /\ x_peer_port x1 = <[path:=ep_port asender]> (x_peer_port xr) /\
    sent_datagrams es2 = concat (map (fun i => nack_datagrams x1 (nack i) 0 (x_n_path gr)) lost) /\
    for_each (map nack lost) (fun w => recv_datagram w areceiver path') ws1 = Some (tt, ws2, es3) /\
    sent_datagrams es3 = concat (map (fun i => datagrams 0 (x_n_path gs) dests (default [] (wires !! i))) lost) /\
    for_each (map (fun i => default [] (wires !! i)) lost) (fun w => recv_datagram w asender path) wr1
      = Some (tt, wr2, es4) /\
    data_events es2 = [] /\ data_events es4 = delivered gr POTR_PEER_NA (completed gr pkts st0 n sent) /\
    receiving gr h first pkts st0 (w_ctx wr2) (Transit sent got).
Proof.
  intros n lost Hlink Hsd Hrv Hh Hprompt Hmiss Hgot Hsent Hwr Hws Hnacks Hping Hsrc Hsrc' Hpath.
  pose proof Hlink as [Hst _ Hw Hsame Hs Hr Hrole Hone Hcount].
  pose proof Hrv as [Hx Hcfg _ _ _ _ _ _ _ _ _]. pose proof (xo_cfg _ Hx) as Hg. rewrite Hcfg in Hg.
  pose proof (co_window _ Hg) as Hcw. set (ses := own_session (x_conn xr)).
  assert (own xr = (gr, ses)) as Hown by (unfold own, ses; by rewrite Hcfg). rewrite Hown in Hh, Hnacks.
  assert (rxo gr h first pkts st0 ses s false (World xr tr)) as Hw0 by (split; [by split|done]).
  pose proof (data_wires_length _ _ _ _ _ Hw) as Hlen.
  assert (length (take sent wires) = sent) as Htake by (rewrite length_take; lia).
  destruct (ping_round_run gs h first dests xs ts (take sent wires) asked Hsd Hs) as (xs1 & ts1 & es1 & Hr1 & Hs1 & Hsd1).
  rewrite Htake, Hping in Hs1.
  destruct (ping_datagram_run gs gr h first pkts st0 ses Hst Hsame Hr Hone Hcount s (first ⊕ Z.of_nat sent)
    ((sent - tr_next s) `min` window_width gr) asender path (World xr tr) ping)
    as (wr1 & es2 & x1 & Hr2 & Hd2 & Hw1 & Hport & Hcfg1 & Ha); try done;
    [by apply scans_fresh|apply u32_range|].
  replace ((sent - tr_next s) `min` window_width gr)%nat with (sent - n)%nat in Ha by (unfold n; lia). fold n lost in Ha.
  assert (forall i, i ∈ lost -> (n <= i < sent)%nat) as Hlost by (intros i [Hi _]%elem_of_missing; lia).
  destruct (nacks_run gs gr h first pkts wires dests ses Hlink Hh nack areceiver path' lost xs1 ts1 (take sent wires) asked Hsd1)
    as (ws2 & es3 & Hr3 & Hs3); [lia|apply missing_NoDup|done| |].
  { intros i Hi. destruct (Hnacks i Hi) as [? ?]. specialize (Hlost i Hi). rewrite Htake. split; [lia|done]. }
  destruct (copies_run gs gr h first pkts wires st0 ses Hlink asender path lost s wr1 Hsrc Hpath) as (wr2 & es4 & Hr4 & Hd4 & Hw4);
    [intros i Hi%Hlost; lia|done|].
  pose proof (missing_arrive (window_width gr) s sent Hmiss Hgot ltac:(lia)) as Hend. fold n lost in Hend.
  rewrite Hend in Hd4. exists (World xs1 ts1), es1, wr1, es2, ws2, es3, wr2, es4, x1,
    (tr_got (fold_left (arrive (window_width gr)) lost s)).
  split; [exact Hr1|]. split; [exact Hs1|]. split; [exact Hr2|]. split; [done|]. split; [exact Hport|].
  split; [rewrite (proj2 Ha Hprompt); f_equal; apply nack_for_map; intros i Hi; by apply Hnacks|].
  split; [exact Hr3|]. split; [rewrite Hs3; f_equal; apply sent_map; intros i Hi%Hlost; lia|].
  split; [exact Hr4|]. split; [exact Hd2|]. split; [exact Hd4|]. rewrite <- Hend. destruct Hw4 as [[Hrv4 _] _].
  by destruct (fold_left _ _ _).
Qed.
