(* ===== verification/Network.v ===== *)
(** A sender and a receiver over a network that loses, repeats and reorders
    datagrams: the data packets, the PINGs, the NACKs that answer gaps and the
    packets sent again in answer to them; without the delivery of REJECTs and of
    PINGs that have become stale. *)

From stdpp Require Import base list numbers option relations.
From Stdlib Require Import ZArith Lia ZifyBool.
From S2P Require Import Prelude Types Packet Window SendQueue Context PathEvent Validate.
From S2P Require Import PeerTable RecvSlot Session Fin RecvWindow HealthThread Send.
From S2P Require Import SendTurn Dispatch RecvThread Delivery UdpDelivery Retransmit Repair PingRepair.
Local Open Scope Z_scope.
Local Open Scope porter_scope.

(** ** The network *)

(** The two ends; how many packets have been sent; every datagram that was put
    on the network in each direction, which stays there: it may be delivered
    never, late or many times; and the DATA callbacks made so far. *)
Record net := Net {
  nt_sender : world;
  nt_receiver : world;
  nt_sent : nat;
  nt_up : list (list Z);
  nt_down : list (list Z);
  nt_data : list effect
}.

Section Network.
Context `{CplatByteorder} `{Platform} `{!PlatformLaws}.
Context (gs gr : service_config) (h : session_hdr) (first : Z) (pkts : list (list sq_msg)) (wires : list (list Z)).
Context (dests : list endpoint).

Definition is_reject (wire : list Z) : Prop := exists n, 0 <= n < 4294967296 /\ reject_image gs h n = Some wire.

(** A PING is fresh while the receiver expects no packet beyond the number it
    announces. *)
Definition fresh (wr : world) (wire : list Z) : Prop :=
  forall m, (m <= length pkts)%nat -> ping_image gs h (first ⊕ Z.of_nat m) = Some wire ->
    (Z.to_nat (win_next_seq (c_recv_window (x_conn (w_ctx wr))) ⊖ first) <= m)%nat.

(** The sender packs the next messages or sends a round of PINGs, an end
    receives a datagram of the other end from the network, or one that it
    refuses.  The relation is narrower than a real network in one step,
    [net_deliver]: it delivers no REJECT and no PING that is not [fresh], since
    what the receiver does with those breaks the order of delivery
    ([StalePing.late_ping_loses_packet], [UdpSession.reject_joins_messages]). *)
Inductive net_step : net -> net -> Prop :=
  | net_flush ms ws ws' wr k up down data es :
      pkts !! k = Some ms -> flush_packed (packed_of ms) ws = Some (tt, ws', es) ->
      net_step (Net ws wr k up down data) (Net ws' wr (S k) (up ++ wires_in es) down data)
  | net_ping ws ws' wr k up down data es :
      health_ping_round ws = Some (tt, ws', es) ->
      net_step (Net ws wr k up down data) (Net ws' wr k (up ++ wires_in es) down data)
  | net_deliver wire from path ws wr wr' k up down data es :
      wire ∈ up -> ~ is_reject wire -> fresh wr wire -> thread_recv_check_src_addr gr from = true -> (path < POTR_MAX_PATH)%nat ->
      recv_datagram wire from path wr = Some (tt, wr', es) ->
      net_step (Net ws wr k up down data) (Net ws wr' k up (down ++ wires_in es) (data ++ data_events es))
  | net_nack wire from path ws ws' wr k up down data es :
      wire ∈ down -> thread_recv_check_src_addr gs from = true ->
      recv_datagram wire from path ws = Some (tt, ws', es) ->
      net_step (Net ws wr k up down data) (Net ws' wr k (up ++ wires_in es) down data)
  | net_noise_receiver buf from path ws wr wr' k up down data es :
      refused gr buf from = true -> recv_datagram buf from path wr = Some (tt, wr', es) ->
      net_step (Net ws wr k up down data) (Net ws wr' k up (down ++ wires_in es) (data ++ data_events es))
  | net_noise_sender buf from path ws ws' wr k up down data es :
      refused gs buf from = true -> recv_datagram buf from path ws = Some (tt, ws', es) ->
      net_step (Net ws wr k up down data) (Net ws' wr k (up ++ wires_in es) down data).

Hypothesis Hlink : one_way_link gs gr h first pkts wires.
Context (ses : Z * timespec).
Hypothesis Hses : session_hdr_ranges (hdr_of (gr, ses)).

#[local] Abbreviation st0 := (@nil Z, false).

(** A copy of one of the first [k] packets, a PING that announces one of them
    or the next, or a REJECT, which only a stream longer than the window of the
    sender provokes. *)
Definition up_ok (k : nat) (wire : list Z) : Prop :=
  (exists i, (i < k)%nat /\ wires !! i = Some wire) \/
  (exists m, (m <= k)%nat /\ ping_image gs h (first ⊕ Z.of_nat m) = Some wire) \/
  (is_reject wire /\ (window_width gs < length pkts)%nat).

(** A NACK for one of the first [k] packets. *)
Definition down_ok (k : nat) (wire : list Z) : Prop :=
  exists j, (j < k)%nat /\ nack_image gr (hdr_of (gr, ses)) (first ⊕ Z.of_nat j) = Some wire.

Record net_inv (n : net) : Prop := {
  ni_sent : (nt_sent n <= length pkts)%nat;
  ni_sender : exists asked, sending gs h first dests (w_ctx (nt_sender n)) (take (nt_sent n) wires) asked;
  ni_receiver : exists s, rxo gr h first pkts st0 ses s false (nt_receiver n) /\
    (forall i, i ∈ tr_got s -> (i < nt_sent n)%nat) /\ (tr_next s <= nt_sent n)%nat /\
    nt_data n = delivered gr POTR_PEER_NA (snd (reassembled gr pkts st0 (tr_next s)));
  ni_up : Forall (up_ok (nt_sent n)) (nt_up n);
  ni_down : Forall (down_ok (nt_sent n)) (nt_down n)
}.

(** A copy of a data packet is neither a REJECT nor a PING. *)
Lemma data_wire_plain i :
  cfg_ok gr -> (i < length pkts)%nat ->
  ~ is_reject (default [] (wires !! i)) /\ forall wr, fresh wr (default [] (wires !! i)).
Proof.
  intros Hg Hi. destruct Hlink as [Hst _ Hw Hsame _ _ _ _ _]. pose proof Hst as [Hgs Hh _ Hf Hall].
  destruct (lookup_lt_is_Some_2 pkts i Hi) as [ms Hms]. destruct (Forall_lookup_1 _ _ _ _ Hall Hms) as [_ Hl].
  destruct (data_image_accepted gs gr h (first ⊕ Z.of_nat i) (packed_of ms) _ blank_packet Hgs Hg Hsame Hh
    (u32_range _) Hl (data_wires_lookup _ _ _ _ _ _ _ Hf Hw Hms)) as (_ & q & Hparse & _ & Hauth). split.
  - intros (n & Hn & Hr). destruct (control_accepted gs gr h POTR_FLAG_REJECT n (default [] (wires !! i)) Hg)
      as (q' & body & Hparse' & _ & Hauth' & _); [apply Hsame|apply Hsame|done|done|by right|exact Hr|].
    rewrite Hparse in Hparse'. injection Hparse' as <-. by rewrite Hauth in Hauth'.
  - intros wr m _ Hp. destruct (ping_image_accepted gs gr h _ _ Hg Hsame Hh (u32_range _) Hp) as (q' & Hparse' & _ & Hauth').
    rewrite Hparse in Hparse'. injection Hparse' as <-. by rewrite Hauth in Hauth'.
Qed.

Lemma up_ok_mono k k' wire : (k <= k')%nat -> up_ok k wire -> up_ok k' wire.
Proof.
  intros Hk [(i & Hi & Hw)|[(m & Hm & Hw)|Hr]]; [left; exists i; split; [lia|done]| |by right; right].
  right; left; exists m; split; [lia|done].
Qed.

Lemma down_ok_mono k k' wire : (k <= k')%nat -> down_ok k wire -> down_ok k' wire.
Proof. intros Hk (j & Hj & Hw). exists j. split; [lia|done]. Qed.

(** The receiver asks only for packets that were sent. *)
Lemma reaction_down s r x k :
  (forall j, j ∈ tr_got s -> (j < k)%nat) -> Forall (down_ok k) (wires_in (reaction gr first ses s r x)).
Proof.
  intros Hg. unfold reaction. destruct (gap _ s) eqn:Hgap; cbn [andb]; [|constructor].
  destruct r; [|constructor]. apply gap_spec in Hgap as (_ & i & Hin%Hg & Hi). unfold nack_for.
  destruct (nack_image _ _ _) as [wire|] eqn:Hw; [|constructor].
  eapply Forall_eq_impl; [|apply wires_in_nacks]. exists (tr_next s). split; [lia|done].
Qed.

Lemma replies_down s i ports l k :
  replies gr first ses s i ports l -> (forall j, j ∈ tr_got s -> (j < k)%nat) -> (i < k)%nat ->
  (tr_next s <= k)%nat -> Forall (down_ok k) (wires_in l).
Proof.
  intros Hr Hg Hi Hn. destruct (arrive_bound (window_width gr) s i k Hg Hi Hn) as (Hg1 & Hg2 & _).
  unfold replies in Hr. destruct (in_reach gr s i); [|subst l; constructor].
  destruct Hr as (r1 & x1 & r2 & x2 & -> & _). unfold wires_in. rewrite omap_app. apply Forall_app.
  split; by apply reaction_down.
Qed.

(** The sender answers with packets it has sent. *)
Lemma answer_up k j :
  cfg_ok gr -> (k <= length pkts)%nat -> (j < k)%nat ->
  Forall (up_ok k) (wires_in (nack_answer gs h first dests (take k wires) (first ⊕ Z.of_nat j))).
Proof.
  intros Hg Hk Hj. pose proof (data_wires_length _ _ _ _ _ (ol_wires _ _ _ _ _ _ Hlink)) as Hlen.
  pose proof (ol_count _ _ _ _ _ _ Hlink) as Hc. unfold nack_answer.
  destruct (lookup_lt_is_Some_2 wires j) as [wire Hw]; [lia|].
  destruct (nack_reply _ _ _ _) as [w|] eqn:Hr.
  - eapply Forall_eq_impl; [|apply wires_in_datagrams]. left. unfold nack_reply in Hr. cbv zeta in Hr.
    destruct (_ <=? _)%nat; [|done]. exists (Z.to_nat ((first ⊕ Z.of_nat j) ⊖ first)).
    apply lookup_take_Some in Hr as [Hr ?]. done.
  - destruct (reject_image gs h _) as [w|] eqn:Hrj; [|constructor].
    eapply Forall_eq_impl; [|apply wires_in_datagrams]. right; right. split; [by eexists; split; [apply u32_range|]|].
    apply Nat.nle_gt. intros Hws. rewrite (nack_reply_kept gs first (take k wires) j wire) in Hr; [done| | |].
    + pose proof (co_window _ Hg). lia.
    + by rewrite lookup_take_lt.
    + rewrite length_take. lia.
Qed.

Lemma flush_inv ms ws ws' wr k up down data es :
  net_inv (Net ws wr k up down data) -> pkts !! k = Some ms ->
  flush_packed (packed_of ms) ws = Some (tt, ws', es) ->
  net_inv (Net ws' wr (S k) (up ++ wires_in es) down data).
Proof.
  intros [Hk (asked & Hsd) (s & Hrx & Hgot & Hn & Hdata) Hup Hdown] Hms Hr. cbn [nt_sent nt_sender nt_receiver
    nt_up nt_down nt_data] in *. destruct ws as [xs ts]. cbn [w_ctx] in Hsd.
  pose proof (lookup_lt_Some _ _ _ Hms) as Hlt. destruct Hlink as [Hst Hfull Hw _ Hs _ _ _ _].
  pose proof (data_wires_length _ _ _ _ _ Hw) as Hlen. destruct (lookup_lt_is_Some_2 wires k) as [wire Hwk]; [lia|].
  destruct (Forall_lookup_1 _ _ _ _ (so_pkts _ _ _ _ Hst) Hms) as [Hmo Hcap].
  destruct (flush_step gs h first dests (us_not_tcp _ Hs) xs ts (take k wires) asked ms Hsd)
    as (x' & t' & es' & Hr' & Hres); [split; [done|]; split; [exact (Forall_lookup_1 _ _ _ _ Hfull Hms)|done]|].
  rewrite Hr in Hr'. injection Hr' as -> ->. rewrite length_take in Hres.
  replace (k `min` length wires)%nat with k in Hres by lia.
  rewrite (data_wires_lookup _ _ _ _ _ _ _ (so_first _ _ _ _ Hst) Hw Hms), Hwk in Hres.
  cbn [default from_option id] in Hres. destruct Hres as [Hes Hsd']. rewrite <- (take_S_r _ _ _ Hwk) in Hsd'.
  split; cbn [nt_sent nt_sender nt_receiver nt_up nt_down nt_data]; [lia|by exists asked| | |].
  - exists s. split; [done|]. split; [intros i Hi; specialize (Hgot i Hi); lia|]. split; [lia|done].
  - apply Forall_app. split; [eapply Forall_impl; [exact Hup|]; intros w; apply up_ok_mono; lia|].
    rewrite wires_in_sent, Hes. eapply Forall_eq_impl; [|apply wires_in_datagrams]. left. exists k. split; [lia|done].
  - eapply Forall_impl; [exact Hdown|]. intros w. apply down_ok_mono. lia.
Qed.

Lemma ping_inv ws ws' wr k up down data es :
  net_inv (Net ws wr k up down data) -> health_ping_round ws = Some (tt, ws', es) ->
  net_inv (Net ws' wr k (up ++ wires_in es) down data).
Proof.
  intros [Hk (asked & Hsd) Hrx Hup Hdown] Hr. cbn [nt_sent nt_sender nt_receiver nt_up nt_down nt_data] in *.
  destruct ws as [xs ts]. cbn [w_ctx] in Hsd.
  destruct (ping_round_run gs h first dests xs ts (take k wires) asked Hsd (ol_sender _ _ _ _ _ _ Hlink))
    as (x' & t' & e' & Hr' & Hs & Hsd'). rewrite Hr in Hr'. injection Hr' as -> ->.
  pose proof (data_wires_length _ _ _ _ _ (ol_wires _ _ _ _ _ _ Hlink)) as Hlen. rewrite length_take in Hs.
  replace (k `min` length wires)%nat with k in Hs by lia.
  split; cbn [nt_sent nt_sender nt_receiver nt_up nt_down nt_data]; [done|by eexists|done| |done].
  apply Forall_app. split; [done|]. rewrite wires_in_sent, Hs.
  destruct (ping_image _ _ _) as [wire|] eqn:Hp; [|constructor].
  eapply Forall_eq_impl; [|apply wires_in_datagrams]. right; left. by exists k.
Qed.

Lemma fresh_bound s wr wire m :
  rxo gr h first pkts st0 ses s false wr -> fresh wr wire -> (m <= length pkts)%nat ->
  ping_image gs h (first ⊕ Z.of_nat m) = Some wire -> (tr_next s <= m)%nat.
Proof.
  intros [[Hrv _] _] Hf Hm Hp. specialize (Hf m Hm Hp). pose proof Hrv as [Hx Hcfg _ _ Hb Hwin _ _ _ Hn _].
  pose proof (xo_cfg _ Hx) as Hg. rewrite Hcfg in Hg. pose proof (co_window _ Hg). pose proof (ol_count _ _ _ _ _ _ Hlink).
  rewrite (proj1 Hwin), Hb, u32_sub_l in Hf. replace (first + Z.of_nat (tr_next s) - first) with (Z.of_nat (tr_next s)) in Hf by lia.
  rewrite u32_small in Hf by lia. lia.
Qed.

(** The receiver takes a copy of a packet or a fresh PING. *)
Lemma deliver_run s wire from path wr k :
  rxo gr h first pkts st0 ses s false wr -> (k <= length pkts)%nat ->
  (forall i, i ∈ tr_got s -> (i < k)%nat) -> (tr_next s <= k)%nat ->
  up_ok k wire -> ~ is_reject wire -> fresh wr wire ->
  thread_recv_check_src_addr gr from = true -> (path < POTR_MAX_PATH)%nat ->
  exists wr' es s', recv_datagram wire from path wr = Some (tt, wr', es) /\
    rxo gr h first pkts st0 ses s' false wr' /\ (forall i, i ∈ tr_got s' -> (i < k)%nat) /\ (tr_next s' <= k)%nat /\
    (tr_next s <= tr_next s')%nat /\
    data_events es = delivered gr POTR_PEER_NA (completed gr pkts st0 (tr_next s) (tr_next s')) /\
    Forall (down_ok k) (wires_in es).
Proof.
  intros Hrx Hk Hgot Hn Hup Hrej Hfresh Hsrc Hpath. pose proof Hlink as [Hst _ Hwires Hsame _ Hrec Hrole Hone Hc].
  destruct Hup as [(i & Hi & Hw)|[(m & Hm & Hw)|[? _]]]; [| |done].
  - destruct (copy_run gs gr h first pkts st0 ses Hst Hsame Hrec Hone Hc wires Hwires Hrole s i from path wr
      ltac:(lia) Hsrc Hpath Hrx) as (w2 & e2 & Hr2 & Hd & Hrep & Hrx').
    rewrite Hw in Hr2. cbn [default from_option id] in Hr2.
    destruct (arrive_bound (window_width gr) s i k Hgot Hi Hn) as (_ & Hg2 & Hn2).
    exists w2, e2, (arrive (window_width gr) s i). split_and!; try done; [apply arrive_ge|].
    rewrite wires_in_sent. by eapply replies_down.
  - pose proof (fresh_bound s wr wire m Hrx Hfresh ltac:(lia) Hw) as Hle.
    destruct (rx_ctx_ok _ _ _ _ _ _ _ _ (proj1 Hrx)) as [Hx Hcfg].
    assert (cfg_ok gr) as Hg by (rewrite <- Hcfg; apply xo_cfg, Hx).
    destruct (ping_datagram_run gs gr h first pkts st0 ses Hst Hsame Hrec Hone Hc s (first ⊕ Z.of_nat m)
      ((m - tr_next s) `min` window_width gr) from path wr wire Hrole Hsrc Hpath
      (scans_fresh gr h first pkts st0 Hc s m Hg ltac:(lia)) (u32_range _) Hw Hrx) as (w2 & e2 & x1 & Hr2 & Hd & Hrx' & _ & _ & [Ha _]).
    exists w2, e2, s. split_and!; try done; [by rewrite Hd, completed_none|]. apply Forall_forall.
    intros wire' (i & [Hi _]%elem_of_missing & Hn')%Ha. exists i. split; [lia|done].
Qed.

Lemma deliver_inv wire from path ws wr wr' k up down data es :
  net_inv (Net ws wr k up down data) -> wire ∈ up -> ~ is_reject wire -> fresh wr wire ->
  thread_recv_check_src_addr gr from = true -> (path < POTR_MAX_PATH)%nat ->
  recv_datagram wire from path wr = Some (tt, wr', es) ->
  net_inv (Net ws wr' k up (down ++ wires_in es) (data ++ data_events es)).
Proof.
  intros [Hk Hsd (s & Hrx & Hgot & Hn & Hdata) Hup Hdown] Hin Hrej Hfresh Hsrc Hpath Hr. cbn [nt_sent nt_sender nt_receiver
    nt_up nt_down nt_data] in *. pose proof Hup as Hup'. rewrite Forall_forall in Hup'.
  destruct (deliver_run s wire from path wr k Hrx Hk Hgot Hn (Hup' wire Hin) Hrej Hfresh Hsrc Hpath)
    as (w2 & e2 & s' & Hr2 & Hrx' & Hg2 & Hn2 & Hge & Hd & Hdn). rewrite Hr in Hr2. injection Hr2 as <- <-.
  split; cbn [nt_sent nt_sender nt_receiver nt_up nt_down nt_data]; [done|done| |done|by apply Forall_app].
  exists s'. split; [done|]. split; [done|]. split; [done|].
  rewrite Hdata, Hd, <- delivered_app. f_equal. symmetry. by apply reassembled_split.
Qed.

Lemma nack_inv wire from path ws ws' wr k up down data es :
  net_inv (Net ws wr k up down data) -> wire ∈ down -> thread_recv_check_src_addr gs from = true ->
  recv_datagram wire from path ws = Some (tt, ws', es) ->
  net_inv (Net ws' wr k (up ++ wires_in es) down data).
Proof.
  intros [Hk (asked & Hsd) Hrx Hup Hdown] Hin Hsrc Hr. cbn [nt_sent nt_sender nt_receiver
    nt_up nt_down nt_data] in *. pose proof Hdown as Hdown'. rewrite Forall_forall in Hdown'.
  destruct (Hdown' wire Hin) as (j & Hj & Hw). destruct ws as [xs ts]. cbn [w_ctx] in Hsd.
  assert (cfg_ok gr) as Hg.
  { destruct Hrx as (s & Hrx & _). destruct (rx_ctx_ok _ _ _ _ _ _ _ _ (proj1 Hrx)) as [Hx <-]. apply xo_cfg, Hx. }
  pose proof (co_window _ Hg) as Hcw. pose proof (ol_count _ _ _ _ _ _ Hlink) as Hc.
  destruct (nack_datagram_run gs gr h first dests (ol_sender _ _ _ _ _ _ Hlink) (ol_same _ _ _ _ _ _ Hlink) xs ts
    (take k wires) asked (hdr_of (gr, ses)) (first ⊕ Z.of_nat j) wire from path Hsd)
    as (x' & t' & e' & Hr' & Hes & Hsd'); try done;
    [rewrite length_take; lia|apply u32_range|].
  rewrite Hr in Hr'. injection Hr' as -> ->.
  split; cbn [nt_sent nt_sender nt_receiver nt_up nt_down nt_data]; [done|by eexists|done| |done].
  apply Forall_app. split; [done|]. rewrite wires_in_sent. destruct Hes as [-> |[-> _]]; [|constructor].
  by apply answer_up.
Qed.

Lemma net_step_inv n n' : net_inv n -> net_step n n' -> net_inv n'.
Proof.
  intros Hi Hs. destruct Hs as [ms ws ws' wr k up down data es Hms Hr|ws ws' wr k up down data es Hr
    |wire from path ws wr wr' k up down data es ? ? ? ? ? Hr
    |wire from path ws ws' wr k up down data es ? ? Hr|buf from path ws wr wr' k up down data es Hn Hr
    |buf from path ws ws' wr k up down data es Hn Hr].
  - by eapply flush_inv.
  - by eapply ping_inv.
  - by eapply deliver_inv.
  - by eapply nack_inv.
  - pose proof Hi as [_ _ (s & Hrx & _) _ _]. destruct wr as [x t].
    destruct (rx_ctx_ok _ _ _ _ _ _ _ _ (proj1 Hrx)) as [_ Hcfg]. cbn in Hcfg. rewrite recv_refused in Hr;
      [|rewrite Hcfg; apply (ur_single _ (ol_receiver _ _ _ _ _ _ Hlink))|by rewrite Hcfg].
    injection Hr as <- <-. cbn. by rewrite !app_nil_r.
  - pose proof Hi as [_ (asked & Hsd) _ _ _]. destruct ws as [x t]. pose proof (sd_cfg _ _ _ _ _ _ _ Hsd) as Hcfg.
    cbn in Hcfg. rewrite recv_refused in Hr;
      [|rewrite Hcfg; apply (us_single _ (ol_sender _ _ _ _ _ _ Hlink))|by rewrite Hcfg].
    injection Hr as <- <-. cbn. by rewrite app_nil_r.
Qed.

Lemma net_reachable_inv n n' : net_inv n -> rtc net_step n n' -> net_inv n'.
Proof. intros Hi Hr. induction Hr as [|n n1 n2 Hs _ IH]; [done|]. by apply IH, (net_step_inv n). Qed.

(** Whatever the network hands over, the ends take it. *)
Lemma net_progress n :
  net_inv n ->
  (forall wire from path, wire ∈ nt_up n -> ~ is_reject wire -> fresh (nt_receiver n) wire -> thread_recv_check_src_addr gr from = true ->
     (path < POTR_MAX_PATH)%nat -> exists w es, recv_datagram wire from path (nt_receiver n) = Some (tt, w, es)) /\
  (forall wire from path, wire ∈ nt_down n -> thread_recv_check_src_addr gs from = true ->
     exists w es, recv_datagram wire from path (nt_sender n) = Some (tt, w, es)) /\
  (exists w es, health_ping_round (nt_sender n) = Some (tt, w, es)) /\
  (forall ms, pkts !! nt_sent n = Some ms -> exists w es, flush_packed (packed_of ms) (nt_sender n) = Some (tt, w, es)).
Proof.
  destruct n as [[xs ts] wr k up down data].
  intros [Hk (asked & Hsd) (s & Hrx & Hgot & Hn & Hdata) Hup Hdown]. cbn [nt_sent nt_sender nt_receiver
    nt_up nt_down nt_data w_ctx] in *. rewrite Forall_forall in Hup, Hdown.
  destruct (rx_ctx_ok _ _ _ _ _ _ _ _ (proj1 Hrx)) as [Hx Hcfg]. pose proof (xo_cfg _ Hx) as Hg. rewrite Hcfg in Hg.
  pose proof (co_window _ Hg) as Hcw. pose proof Hlink as [Hst Hfull Hwires Hsame Hs Hrec Hrole Hone Hc]. split_and!.
  - intros wire from path Hin Hrej Hfresh Hsrc Hpath.
    destruct (deliver_run s wire from path wr k Hrx Hk Hgot Hn (Hup wire Hin) Hrej Hfresh Hsrc Hpath)
      as (w2 & e2 & s' & Hr2 & _). eauto.
  - intros wire from path (j & Hj & Hw)%Hdown Hsrc.
    destruct (nack_datagram_run gs gr h first dests Hs Hsame xs ts
      (take k wires) asked (hdr_of (gr, ses)) (first ⊕ Z.of_nat j) wire from path Hsd)
      as (x' & t' & e' & Hr' & _); try done; [rewrite length_take; lia|apply u32_range|]. eauto.
  - destruct (ping_round_run gs h first dests xs ts (take k wires) asked Hsd Hs) as (x' & t' & es' & Hr' & _). eauto.
  - intros ms Hms. destruct (Forall_lookup_1 _ _ _ _ (so_pkts _ _ _ _ Hst) Hms) as [Hmo Hcap].
    destruct (flush_step gs h first dests (us_not_tcp _ Hs) xs ts (take k wires) asked ms Hsd)
      as (x' & t' & es' & Hr' & _); [split; [done|]; split; [exact (Forall_lookup_1 _ _ _ _ Hfull Hms)|done]|]. eauto.
Qed.
End Network.

(** C7. A conversation over a bad network, as far as the step relation
    [net_step] goes.  The sender of a one-way UDP service packs its messages one
    packet after the other and sends PINGs in between; the data packets, the
    PINGs, the NACKs of the receiver and the packets sent again in answer cross
    a network that may lose, delay, repeat and reorder them, and that adds
    datagrams which the ends refuse.  Two kinds of datagrams do not reach the
    receiver in these runs: REJECTs, and PINGs that announce less than the
    receiver has handed over already; with them the claim is false (C37, C38).
    In every state that the two ends reach without such a delivery: the DATA
    callbacks made so far are those of a prefix of the messages, in order, each
    once and unchanged; every datagram of the sender is a copy of a packet it
    has sent, a PING or a REJECT, and the latter only when the stream is longer
    than the sender's window; every NACK is for a packet that was sent; and each
    end takes whatever may arrive without fault. *)
Theorem lossy_network_safe `{CplatByteorder} `{Platform} `{!PlatformLaws}
    gs gr h first pkts wires dests peer flags ms calls xs ts xr tr n :
  one_way_link gs gr h first pkts wires ->
  Forall (message_ok gs) ms -> Forall (fun m => Forall is_byte m.1) ms ->
  send_all gs peer flags ms = Some calls -> concat pkts = call_msgs calls ->
  max_message_size (x_global gs) <= max_message_size (x_global gr) ->
  sending gs h first dests xs [] [] -> receiving gr h first pkts ([], false) xr (Transit 0 []) ->
  session_hdr_ranges (hdr_of (own xr)) ->
  rtc (net_step gs gr h first pkts) (Net (World xs ts) (World xr tr) 0 [] [] []) n ->
  (exists msgs later, nt_data n = delivered gr POTR_PEER_NA msgs /\ map message_view ms = msgs ++ later) /\
  (forall wire, wire ∈ nt_up n -> (exists i, (i < nt_sent n)%nat /\ wires !! i = Some wire) \/
     (exists m, (m <= nt_sent n)%nat /\ ping_image gs h (first ⊕ Z.of_nat m) = Some wire) \/
     (is_reject gs h wire /\ (window_width gs < length pkts)%nat)) /\
  (forall wire, wire ∈ nt_down n -> exists j, (j < nt_sent n)%nat /\
     nack_image gr (hdr_of (own xr)) (first ⊕ Z.of_nat j) = Some wire) /\
  (forall wire from path, wire ∈ nt_up n -> ~ is_reject gs h wire -> fresh gs h first pkts (nt_receiver n) wire ->
     thread_recv_check_src_addr gr from = true ->
     (path < POTR_MAX_PATH)%nat -> exists w es, recv_datagram wire from path (nt_receiver n) = Some (tt, w, es)) /\
  (forall wire from path, wire ∈ nt_down n -> thread_recv_check_src_addr gs from = true ->
     exists w es, recv_datagram wire from path (nt_sender n) = Some (tt, w, es)) /\
  (exists w es, health_ping_round (nt_sender n) = Some (tt, w, es)) /\
  (forall p, pkts !! nt_sent n = Some p -> exists w es, flush_packed (packed_of p) (nt_sender n) = Some (tt, w, es)).
Proof.
  intros Hlink Hms Hb Hsend Hcat Hmax Hsd Hrv Hh Hr.
  pose proof Hlink as [Hst _ _ _ _ _ _ _ _].
  destruct (queued_msgs_ok gs peer flags ms _ (so_cfg _ _ _ _ Hst) Hms Hb Hmax) as (calls' & Hc & _ & Hre).
  rewrite Hsend in Hc. injection Hc as <-. rewrite <- Hcat in Hre.
  assert (own xr = (gr, own_session (x_conn xr))) as Hown by (unfold own; by rewrite (rv_cfg _ _ _ _ _ _ _ Hrv)).
  set (ses := own_session (x_conn xr)) in *. rewrite Hown in Hh |- *.
  assert (net_inv gs gr h first pkts wires dests ses n) as Hi.
  { eapply net_reachable_inv; [exact Hlink|exact Hh| |exact Hr]. split; cbn; [lia|by exists []| |constructor|constructor].
    exists (Transit 0 []). split; [split; [by split|done]|]. split; [by intros i Hi%not_elem_of_nil|]. done. }
  destruct (net_progress gs gr h first pkts wires dests Hlink ses Hh n Hi) as (Hp1 & Hp2 & Hp3 & Hp4).
  destruct Hi as [Hk _ (s & _ & _ & Hn & Hdata) Hup Hdown]. rewrite Forall_forall in Hup, Hdown.
  split; [|split; [exact Hup|split; [exact Hdown|done]]].
  exists (snd (reassembled gr pkts ([], false) (tr_next s))), (completed gr pkts ([], false) (tr_next s) (length pkts)).
  split; [exact Hdata|]. rewrite <- (proj2 (reassembled_split gr pkts ([], false) (tr_next s) (length pkts) ltac:(lia))).
  unfold reassembled, first_elems. by rewrite firstn_all, Hre.
Qed.

(** Two packets are sent; the second arrives first, its NACK brings the first
    one again. *)
Lemma repair_run `{CplatByteorder} `{Platform} gs gr h first pkts p0 p1 from path wire0 wire1 nack ws wr
    ws1 e1 ws2 e2 wr1 e3 ws3 e4 wr2 e5 :
  pkts !! 0%nat = Some p0 -> pkts !! 1%nat = Some p1 ->
  ~ is_reject gs h wire0 /\ (forall w, fresh gs h first pkts w wire0) ->
  ~ is_reject gs h wire1 /\ (forall w, fresh gs h first pkts w wire1) ->
  thread_recv_check_src_addr gr from = true -> thread_recv_check_src_addr gs from = true -> (path < POTR_MAX_PATH)%nat ->
  flush_packed (packed_of p0) ws = Some (tt, ws1, e1) -> flush_packed (packed_of p1) ws1 = Some (tt, ws2, e2) ->
  recv_datagram wire1 from path wr = Some (tt, wr1, e3) -> recv_datagram nack from path ws2 = Some (tt, ws3, e4) ->
  recv_datagram wire0 from path wr1 = Some (tt, wr2, e5) ->
  wires_in e1 = [wire0] -> wires_in e2 = [wire1] -> wires_in e3 = [nack; nack] -> wires_in e4 = [wire0] ->
  exists n, rtc (net_step gs gr h first pkts) (Net ws wr 0 [] [] []) n /\
    nt_data n = data_events e3 ++ data_events e5 /\ nt_up n = [wire0; wire1; wire0].
Proof.
  intros Hp0 Hp1 [Hj0 Hf0] [Hj1 Hf1] Hsrc Hsrc' Hpath Hr1 Hr2 Hr3 Hr4 Hr5 He1 He2 He3 He4. eexists. split.
  - eapply rtc_l; [by eapply net_flush|]. eapply rtc_l; [by eapply net_flush|]. rewrite He1, He2.
    eapply rtc_l; [eapply (net_deliver _ _ _ _ _ wire1); [|done..]; right; by left|]. rewrite He3.
    eapply rtc_l; [eapply (net_nack _ _ _ _ _ nack); [|done..]; by left|]. rewrite He4.
    eapply rtc_l; [eapply (net_deliver _ _ _ _ _ wire0); [|done..]; by left|]. apply rtc_refl.
  - done.
Qed.

(** ** Examples *)

Section LinkExample.
#[local] Existing Instances little_host toy_platform toy_laws.

(** The two ends of a service without reordering time. *)
Definition link_config (role : potr_role) : service_config :=
  ServiceConfig true (example_service POTR_TYPE_UNICAST true) (GlobalConfig 2 64 0 100 4 0 300 0 300 1000) 1000 300
    role 1 false 2 (replicate 4 0) (replicate 4 0) 200 80.
Definition link_sender : service_config := link_config POTR_ROLE_SENDER.
Definition link_receiver : service_config := link_config POTR_ROLE_RECEIVER.
Definition link_sender_ctx : potr_context :=
  set_x_conn (set_x_cfg (example_ctx POTR_TYPE_UNICAST true) link_sender) (set_session example_conn example_sender).
Definition link_receiver_ctx : potr_context := set_x_cfg (connected_ctx POTR_TYPE_UNICAST true) link_receiver.
Definition link_hdr : session_hdr := own_session_hdr link_sender example_sender.
Definition link_wires : list (list Z) :=
  default [] (data_wires link_sender link_hdr 0 example_packets).
Definition link_dests : list endpoint := replicate 4 endpoint_clear.
Definition link_nack : list Z :=
  default [] (nack_image link_receiver (hdr_of (own link_receiver_ctx)) 0).

Lemma link_cfg_ok role : cfg_ok (link_config role).
Proof. split; unfold POTR_MAX_WINDOW_SIZE, POTR_MAX_PAYLOAD, POTR_MAX_PATH; first [reflexivity | simpl; lia]. Qed.

Lemma link_conn_ok role c : conn_ok (example_config POTR_TYPE_UNICAST true) c -> conn_ok (link_config role) c.
Proof. intros [[[] ?] [[] ?] []]. split; try done; split; try done; by split. Qed.

Lemma set_cfg_ok x role :
  ctx_ok x -> x_cfg x = example_config POTR_TYPE_UNICAST true -> ctx_ok (set_x_cfg x (link_config role)).
Proof.
  intros [Hg Hc H3 H4 H5 H6 H7 Hp] Hcfg. rewrite Hcfg in *. split; try done.
  - apply link_cfg_ok.
  - by apply link_conn_ok.
  - cbn. destruct (x_peers x) as [ps|]; [|done]. destruct Hp. split; try done.
    intros i p Hi Ha. destruct (pt_ok i p Hi Ha). split; [by apply link_conn_ok|done].
Qed.

Lemma link_sending : sending link_sender link_hdr 0 link_dests link_sender_ctx [] [].
Proof.
  destruct (example_sending POTR_TYPE_UNICAST true) as [Hx _ _ _ _ Hk Ha].
  split; try done.
  apply (with_conn_ok (set_x_cfg (example_ctx POTR_TYPE_UNICAST true) link_sender) SlotCtx
    (set_session example_conn example_sender) example_conn); [by apply set_cfg_ok|reflexivity|].
  apply (link_conn_ok POTR_ROLE_SENDER). destruct (xo_conn _ Hx). by split.
Qed.

Lemma link_receiving :
  receiving link_receiver link_hdr 0 example_packets ([], false) link_receiver_ctx (Transit 0 []).
Proof.
  destruct (connected_receiving POTR_TYPE_UNICAST true example_packets). split; try done.
  by apply set_cfg_ok.
Qed.

Lemma link_ok : one_way_link link_sender link_receiver link_hdr 0 example_packets link_wires.
Proof.
  split.
  - split; [apply link_cfg_ok| |reflexivity|lia|].
    + split; (split; [vm_compute; discriminate|vm_compute; reflexivity]).
    + apply List.Forall_forall. intros p Hp.
      assert (forallb (fun p => (length (packed_of p) <=? 48)%nat && forallb (fun m =>
        (0 <=? m.1.2) && (m.1.2 <? 65536) && (0 <? length m.2)%nat && (length m.2 <=? 42)%nat && forallb is_byteb m.2) p)
        example_packets = true) as Hall by (vm_compute; reflexivity).
      pose proof (proj1 (List.forallb_forall _ _) Hall p Hp) as Hp'. apply andb_prop in Hp' as [Hl Hm].
      split; [|by apply Nat.leb_le]. apply List.Forall_forall. intros m Hin.
      pose proof (proj1 (List.forallb_forall _ _) Hm m Hin) as Hm'. destruct m as [[pe f] bs].
      repeat (apply andb_prop in Hm' as [Hm' ?]). cbn [fst snd] in *. split; [lia|].
      split; [apply Nat.ltb_lt in H1; apply Nat.leb_le in H0; split; assumption|by apply forallb_is_byte].
  - repeat (apply Forall_cons_2; [discriminate|]). apply Forall_nil_2.
  - vm_compute. reflexivity.
  - by split.
  - split; try reflexivity. discriminate.
  - split; try reflexivity. by left.
  - reflexivity.
  - discriminate.
  - vm_compute. discriminate.
Qed.

(** The sender has flushed the first [k] packets. *)
Lemma link_flushed k : (k <= 4)%nat ->
  exists xs, sending link_sender link_hdr 0 link_dests xs (take k link_wires) [].
Proof.
  induction k as [|k IH]; intros Hk; [exists link_sender_ctx; apply link_sending|].
  destruct IH as [xs Hsd]; [lia|]. destruct link_ok as [Hst Hfull Hw _ Hs _ _ _ _].
  assert (length example_packets = 4%nat) as Hl by (vm_compute; reflexivity).
  destruct (lookup_lt_is_Some_2 example_packets k) as [ms Hms]; [lia|].
  pose proof (data_wires_length _ _ _ _ _ Hw) as Hlen. destruct (lookup_lt_is_Some_2 link_wires k) as [wire Hwk]; [lia|].
  destruct (Forall_lookup_1 _ _ _ _ (so_pkts _ _ _ _ Hst) Hms) as [Hmo Hcap].
  destruct (flush_step link_sender link_hdr 0 link_dests (us_not_tcp _ Hs) xs 0 _ [] ms Hsd)
    as (x' & t' & es' & _ & Hres); [split; [done|]; split; [exact (Forall_lookup_1 _ _ _ _ Hfull Hms)|done]|].
  rewrite length_take in Hres. replace (k `min` length link_wires)%nat with k in Hres by lia.
  rewrite (data_wires_lookup _ _ _ _ _ _ _ (so_first _ _ _ _ Hst) Hw Hms), Hwk in Hres. destruct Hres as [_ Hres].
  cbn [default from_option id] in Hres. rewrite <- (take_S_r _ _ _ Hwk) in Hres. exists x'. exact Hres.
Qed.

Lemma loss_repaired_witness : exists xs wr1 es1 ep ws' es2 wr2 es3,
  recv_datagram (default [] (link_wires !! 1%nat)) example_sender_addr 0 (World link_receiver_ctx 0) = Some (tt, wr1, es1) /\
  EvSendto 0 link_nack ep ∈ es1 /\
  recv_datagram link_nack example_sender_addr 0 (World xs 0) = Some (tt, ws', es2) /\
  sent_datagrams es2 = [EvSendto 0 (default [] (link_wires !! 0%nat)) endpoint_clear] /\
  recv_datagram (default [] (link_wires !! 0%nat)) example_sender_addr 0 wr1 = Some (tt, wr2, es3) /\
  data_events es1 = [] /\ data_events es3 = [EvCallback POTR_PEER_NA POTR_EVENT_DATA (CbBytes [1; 2; 3])].
Proof.
  destruct (link_flushed 2 ltac:(lia)) as [xs Hsd]. exists xs.
  destruct (loss_repaired link_sender link_receiver link_hdr 0 example_packets link_wires link_dests ([], false) xs 0 2 []
    link_receiver_ctx 0 (Transit 0 []) 1 link_nack example_sender_addr example_sender_addr 0 0)
    as (wr1 & es1 & ep & ws' & es2 & wr2 & es3 & Hr1 & Hn & Hr2 & Hs2 & Hr3 & _ & _ & Hd1 & Hd3 & _).
  - exact link_ok.
  - exact Hsd.
  - exact link_receiving.
  - split; (split; [vm_compute; discriminate|vm_compute; reflexivity]).
  - reflexivity.
  - apply not_elem_of_nil.
  - cbn [tr_next]. change (window_width link_receiver) with 2%nat. lia.
  - assert (length example_packets = 4%nat) as -> by (vm_compute; reflexivity). lia.
  - change (window_width link_sender) with 2%nat. cbn [tr_next]. lia.
  - apply not_elem_of_nil.
  - vm_compute. reflexivity.
  - reflexivity.
  - reflexivity.
  - cbn. lia.
  - vm_compute. discriminate.
  - exists wr1, es1, ep, ws', es2, wr2, es3. split; [exact Hr1|]. split; [exact Hn|]. split; [exact Hr2|].
    split; [exact Hs2|]. split; [exact Hr3|]. split; [exact Hd1|]. rewrite Hd3. vm_compute. reflexivity.
Defined.

(** Both packets are lost; a PING brings them back. *)
Definition link_nack_for (i : nat) : list Z :=
  default [] (nack_image link_receiver (hdr_of (own link_receiver_ctx)) (0 ⊕ Z.of_nat i)).
Definition link_ping : list Z := default [] (ping_image link_sender link_hdr 2).

Lemma ping_repairs_all_witness : exists xs ws1 es1 wr1 es2 ws2 es3 wr2 es4,
  health_ping_round (World xs 0) = Some (tt, ws1, es1) /\ sent_datagrams es1 = [EvSendto 0 link_ping endpoint_clear] /\
  recv_datagram link_ping example_sender_addr 0 (World link_receiver_ctx 0) = Some (tt, wr1, es2) /\
  for_each [link_nack_for 0; link_nack_for 1] (fun w => recv_datagram w example_sender_addr 0) ws1 = Some (tt, ws2, es3) /\
  sent_datagrams es3 = [EvSendto 0 (default [] (link_wires !! 0%nat)) endpoint_clear;
                        EvSendto 0 (default [] (link_wires !! 1%nat)) endpoint_clear] /\
  for_each [default [] (link_wires !! 0%nat); default [] (link_wires !! 1%nat)]
    (fun w => recv_datagram w example_sender_addr 0) wr1 = Some (tt, wr2, es4) /\
  data_events es4 = [EvCallback POTR_PEER_NA POTR_EVENT_DATA (CbBytes [1; 2; 3])].
Proof.
  destruct (link_flushed 2 ltac:(lia)) as [xs Hsd]. exists xs.
  destruct (ping_repairs_all link_sender link_receiver link_hdr 0 example_packets link_wires link_dests ([], false) xs 0 2 []
    link_receiver_ctx 0 (Transit 0 []) link_ping link_nack_for example_sender_addr example_sender_addr 0 0)
    as (ws1 & es1 & wr1 & es2 & ws2 & es3 & wr2 & es4 & x1 & got & Hr1 & Hs1 & Hr2 & _ & _ & _ & Hr3 & Hs3 & Hr4 & _ & Hd4 & _).
  - exact link_ok.
  - exact Hsd.
  - exact link_receiving.
  - split; (split; [vm_compute; discriminate|vm_compute; reflexivity]).
  - reflexivity.
  - apply not_elem_of_nil.
  - intros i Hi. by apply not_elem_of_nil in Hi.
  - assert (length example_packets = 4%nat) as -> by (vm_compute; reflexivity). cbn [tr_next]. lia.
  - change (window_width link_receiver) with 2%nat. cbn [tr_next]. lia.
  - change (window_width link_sender) with 2%nat. cbn [tr_next]. lia.
  - intros i Hi. split; [apply not_elem_of_nil|]. apply list_elem_of_In in Hi. cbn in Hi.
    destruct Hi as [<-|[<-|[]]]; vm_compute; reflexivity.
  - vm_compute. reflexivity.
  - reflexivity.
  - reflexivity.
  - unfold POTR_MAX_PATH. lia.
  - exists ws1, es1, wr1, es2, ws2, es3, wr2, es4. split; [exact Hr1|]. split; [exact Hs1|]. split; [exact Hr2|].
    split; [exact Hr3|]. split; [exact Hs3|]. split; [exact Hr4|]. rewrite Hd4. vm_compute. reflexivity.
Defined.

(** The sender flushes two packets; the second arrives first, its NACK brings
    the first one again. *)
#[local] Abbreviation link_flush k := (flush_packed (packed_of (default [] (example_packets !! k%nat)))).
#[local] Abbreviation link_recv wire := (recv_datagram wire example_sender_addr 0).
Definition link_wire (k : nat) : list Z := default [] (link_wires !! k).
Definition link_ws1 : world := world_after (link_flush 0) (World link_sender_ctx 0).
Definition link_ws2 : world := world_after (link_flush 1) link_ws1.
Definition link_wr1 : world := world_after (link_recv (link_wire 1)) (World link_receiver_ctx 0).

Lemma link_run : exists ws1 e1 ws2 e2 wr1 e3 ws3 e4 wr2 e5,
  link_flush 0 (World link_sender_ctx 0) = Some (tt, ws1, e1) /\ link_flush 1 ws1 = Some (tt, ws2, e2) /\
  link_recv (link_wire 1) (World link_receiver_ctx 0) = Some (tt, wr1, e3) /\
  link_recv link_nack ws2 = Some (tt, ws3, e4) /\ link_recv (link_wire 0) wr1 = Some (tt, wr2, e5) /\
  wires_in e1 = [link_wire 0] /\ wires_in e2 = [link_wire 1] /\
  wires_in e3 = [link_nack; link_nack] /\ wires_in e4 = [link_wire 0] /\
  data_events e3 ++ data_events e5 = [EvCallback POTR_PEER_NA POTR_EVENT_DATA (CbBytes [1; 2; 3])].
Proof.
  exists link_ws1, (effects_of (link_flush 0) (World link_sender_ctx 0)),
    link_ws2, (effects_of (link_flush 1) link_ws1),
    link_wr1, (effects_of (link_recv (link_wire 1)) (World link_receiver_ctx 0)),
    (world_after (link_recv link_nack) link_ws2), (effects_of (link_recv link_nack) link_ws2),
    (world_after (link_recv (link_wire 0)) link_wr1), (effects_of (link_recv (link_wire 0)) link_wr1).
  repeat (split; [vm_compute; reflexivity|]). vm_compute. reflexivity.
Qed.

Lemma link_plain k : (k < 2)%nat ->
  ~ is_reject link_sender link_hdr (link_wire k) /\ forall w, fresh link_sender link_hdr 0 example_packets w (link_wire k).
Proof.
  intros Hk. apply (data_wire_plain link_sender link_receiver link_hdr 0 example_packets link_wires link_ok);
    [apply link_cfg_ok|]. assert (length example_packets = 4%nat) as -> by (vm_compute; reflexivity). lia.
Qed.

Lemma link_net_run : exists n,
  rtc (net_step link_sender link_receiver link_hdr 0 example_packets)
    (Net (World link_sender_ctx 0) (World link_receiver_ctx 0) 0 [] [] []) n /\
  nt_data n = [EvCallback POTR_PEER_NA POTR_EVENT_DATA (CbBytes [1; 2; 3])] /\
  nt_up n = [link_wire 0; link_wire 1; link_wire 0].
Proof.
  destruct link_run as (ws1 & e1 & ws2 & e2 & wr1 & e3 & ws3 & e4 & wr2 & e5 & Hr1 & Hr2 & Hr3 & Hr4 & Hr5
    & He1 & He2 & He3 & He4 & <-).
  eapply repair_run; [| | | | | | |exact Hr1|exact Hr2|exact Hr3|exact Hr4|exact Hr5
    |exact He1|exact He2|exact He3|exact He4].
  - vm_compute. reflexivity.
  - vm_compute. reflexivity.
  - apply link_plain. lia.
  - apply link_plain. lia.
  - vm_compute. reflexivity.
  - vm_compute. reflexivity.
  - unfold POTR_MAX_PATH. lia.
Qed.

Lemma lossy_network_safe_witness : exists n,
  nt_data n = [EvCallback POTR_PEER_NA POTR_EVENT_DATA (CbBytes [1; 2; 3])] /\
  nt_up n = [link_wire 0; link_wire 1; link_wire 0] /\
  exists msgs later, nt_data n = delivered link_receiver POTR_PEER_NA msgs /\
    map message_view example_messages = msgs ++ later.
Proof.
  destruct link_net_run as (n & Hrun & Hd & Hu). exists n. split; [exact Hd|]. split; [exact Hu|].
  apply (lossy_network_safe link_sender link_receiver link_hdr 0 example_packets link_wires link_dests 0 0
    example_messages example_calls link_sender_ctx 0 link_receiver_ctx 0 n).
  - exact link_ok.
  - repeat (apply Forall_cons_2; [split; [discriminate|split; [left; reflexivity|cbn; lia]]|]). apply Forall_nil_2.
  - repeat (apply Forall_cons_2; [apply forallb_is_byte; reflexivity|]). apply Forall_nil_2.
  - vm_compute. reflexivity.
  - vm_compute. reflexivity.
  - cbn. lia.
  - exact link_sending.
  - exact link_receiving.
  - split; (split; [vm_compute; discriminate|vm_compute; reflexivity]).
  - exact Hrun.
Defined.
End LinkExample.
