(* ===== verification/UdpSession.v ===== *)
(** Where one session of a UDP service ends and the next begins: what a
    receiver of a one-way service delivers from the first packet of a session
    it did not follow, after a FIN, and after a REJECT. *)

From stdpp Require Import base list numbers option.
From Stdlib Require Import ZArith Lia ZifyBool.
From S2P Require Import Prelude Types Packet Window SendQueue Context PathEvent Validate.
From S2P Require Import PeerTable RecvSlot Session Fin RecvWindow HealthThread Send.
From S2P Require Import SendTurn Dispatch RecvThread Delivery UdpDelivery Retransmit Repair.
Local Open Scope Z_scope.
Local Open Scope porter_scope.

(** The first packet of a window is handed over at once. *)
Lemma arrive_first gr : cfg_ok gr -> arrive (window_width gr) (Transit 0 []) 0 = Transit 1 [0%nat].
Proof.
  intros Hg. unfold arrive. pose proof (co_window _ Hg) as Hcw. unfold window_width. cbn [tr_next tr_got].
  destruct (Z.to_nat (window_size_cfg (x_global gr))) as [|[|n]] eqn:Hw; [lia|lia|]. done.
Qed.

Section Join.
Context `{CplatByteorder} `{Platform} `{!PlatformLaws}.
Context (gs gr : service_config) (h : session_hdr) (first : Z) (pkts : list (list sq_msg)) (st0 : list Z * bool).
Hypothesis Hstream : stream_ok gs h first pkts.
Hypothesis Hsame : same_service gs gr.
Hypothesis Hkind : udp_receiver gr.
Hypothesis Honeway : service_type (x_service gr) <> POTR_TYPE_UNICAST_BIDIR.
Hypothesis Hcount : Z.of_nat (length pkts) + window_size_cfg (x_global gr) <= 4294967296.
Hypothesis Hsome : (0 < length pkts)%nat.

(** The receiver does not follow the session of [h], or an older one, and has
    collected [st0] of a message. *)
Record joining (x : potr_context) : Prop := {
  jn_ok : ctx_ok x;
  jn_cfg : x_cfg x = gr;
  jn_sock : forall k, (k < x_n_path gr)%nat -> x_sock x !! k = Some true;
  jn_session : match followed (x_conn x) with
               | Some q => newer (pkt_session (data_packet h 0 [])) q = true | None => True end;
  jn_frag : frag_view (c_frag (x_conn x)) = st0
}.

#[local] Abbreviation packet_at := (stream_packet h first pkts).
#[local] Abbreviation rx := (rx gr h first pkts st0).

(** The first packet makes the receiver follow the session from there on. *)
Lemma join_adopts x t :
  joining x ->
  exists x' t', thread_recv_session_adopt SlotCtx (packet_at 0) (World x t) = Some (true, World x' t', []) /\
    rx (Transit 0 []) false (World x' t').
Proof.
  intros [Hx Hcfg Hso Hses Hfr]. pose proof (xo_cfg _ Hx) as Hg. rewrite Hcfg in Hg.
  destruct (packet_at_ok gs gr h first pkts Hstream Hsame 0 Hg Hsome) as (ms & _ & Hp & Hpk & _).
  destruct (session_adopt_run x t SlotCtx (x_conn x) (packet_at 0) Hx eq_refl (pk_ranges _ _ Hpk))
    as (b & c' & t' & Hr & Hok & Hfo & Hb & Hc').
  assert (newest (followed (x_conn x)) (pkt_session (packet_at 0)) = pkt_session (packet_at 0) /\
    (match followed (x_conn x) with Some q => newer (pkt_session (packet_at 0)) q | None => true end) = true) as [Hn Ht].
  { rewrite Hp. unfold newest. destruct (followed (x_conn x)) as [q|]; [|done].
    change (pkt_session (data_packet h (first ⊕ Z.of_nat 0) (packed_of ms))) with (pkt_session (data_packet h 0 [])).
    by rewrite Hses. }
  rewrite Hn, bool_decide_true in Hb by done. rewrite Ht in Hc'. subst b. rewrite Hn in Hfo.
  destruct Hc' as (Hnx & Hrep & Hpf & _ & Hf & _). exists (with_conn x SlotCtx c'), t'. split; [done|].
  split; [|done]. cbn [w_ctx with_conn]. rewrite Hcfg in Hrep. split; cbn [set_x_conn x_conn x_cfg x_sock]; try done.
  - by apply (with_conn_ok x SlotCtx c' (x_conn x)).
  - rewrite <- (proj1 Hrep), Hnx, Hp. done.
  - cbn [tr_next tr_got]. replace (stream_slots h first pkts (window_width gr) 0 []) with
      (replicate (window_width gr) (@None (potr_packet (list Z)))); [exact Hrep|].
    apply list_eq. intros j. destruct (decide (j < window_width gr)%nat) as [Hj|Hj].
    + by rewrite stream_slots_lookup, lookup_replicate_2 by done.
    + by rewrite !lookup_ge_None_2 by (rewrite ?length_stream_slots, ?length_replicate; lia).
  - by rewrite Hf, Hfr.
  - cbn. lia.
  - by intros i Hi%not_elem_of_nil.
Qed.

(** The messages of its first packet follow what was collected before. *)
Lemma join_delivers path sender :
  (path < POTR_MAX_PATH)%nat ->
  delivers (fun w => joining (w_ctx w))
    (thread_recv_dispatch_packet thread_recv_slot_init_ctx (packet_at 0) path sender)
    (delivered gr POTR_PEER_NA (completed gr pkts st0 0 1)) (fun _ => rx (Transit 1 [0%nat]) false).
Proof.
  intros Hpath [x t] Hj. pose proof (jn_cfg _ Hj) as Hcfg. cbn [w_ctx] in Hj, Hcfg.
  pose proof (xo_cfg _ (jn_ok _ Hj)) as Hg. rewrite Hcfg in Hg.
  destruct (packet_at_ok gs gr h first pkts Hstream Hsame 0 Hg Hsome) as (ms & _ & Hp & Hpk & _).
  destruct (join_adopts x t Hj) as (x1 & t1 & Had & Hrx).
  pose proof (delivers_adopted gs gr h first pkts st0 Hstream Hsame Hkind Hcount (Transit 0 []) 0 sender path
    Hg Hsome Hpath _ Hrx) as (a & w' & es & Hr & Hd & Hw').
  rewrite (arrive_first gr Hg) in Hd, Hw'. exists a, w', es. split; [|done].
  rewrite dispatch_data by by rewrite Hp. rewrite (bind_run_nil _ _ _ _ _ Had). exact Hr.
Qed.

Context (wires : list (list Z)).
Hypothesis Hwires : data_wires gs h first pkts = Some wires.

(** The datagram of a packet is dispatched, whatever the receiver follows. *)
Lemma recv_data w i sender path :
  cfg_ok gr -> x_cfg (w_ctx w) = gr -> (i < length pkts)%nat -> thread_recv_check_src_addr gr sender = true ->
  recv_datagram (default [] (wires !! i)) sender path w
  = (_ ← thread_recv_dispatch_packet thread_recv_slot_init_ctx (packet_at i) path sender; mret tt) w.
Proof.
  intros Hg Hcfg Hi Hsrc. destruct (packet_at_ok gs gr h first pkts Hstream Hsame i Hg Hi) as (ms & Hms & Hp & _).
  pose proof Hstream as [Hgs Hh Hsid Hf Hall]. destruct (Forall_lookup_1 _ _ _ _ Hall Hms) as [_ Hl].
  destruct (data_image_accepted gs gr h (first ⊕ Z.of_nat i) (packed_of ms) _ blank_packet Hgs Hg Hsame Hh
    (u32_range _) Hl (data_wires_lookup _ _ _ _ _ _ _ Hf Hwires Hms)) as (_ & q & Hparse & Hq & Hauth).
  unfold recv_datagram. rewrite get_cfg_bind, Hcfg, (lift_bind _ _ _ _ Hparse). cbn beta iota.
  rewrite Hq, Hsid, (same_id _ _ Hsame), !Z.eqb_refl, Hsrc, (ur_single _ Hkind). cbn [Z.eqb POTR_OK negb].
  rewrite (lift_bind _ _ _ _ Hauth). cbn beta iota. rewrite <- Hp. cbn [Z.eqb POTR_OK negb].
  destruct (ur_role _ Hkind) as [Hr|Ht]; [|done]. unfold role_eqb. rewrite Hr, bool_decide_false by done.
  by rewrite ret_bind.
Qed.
End Join.

(** ** After a FIN *)

Section AfterFin.
Context `{CplatByteorder} `{Platform} `{!PlatformLaws}.

Lemma clear_ping_states_run x t :
  ctx_ok x ->
  exists ch l, length l = POTR_MAX_PATH /\ clear_ping_states SlotCtx (World x t) = Some (ch,
    World (set_x_conn x (set_health (x_conn x) (set_remote_ping (set_ping (c_health (x_conn x)) l) zero_ping))) t, []).
Proof.
  intros Hx. pose proof (ok_health _ _ (xo_conn _ Hx)) as Hh. unfold clear_ping_states.
  destruct (set_all_spec (path_ping_state (c_health (x_conn x))) POTR_PING_STATE_UNDEFINED) as (ch & Hch & _).
  rewrite (ho_ping _ Hh) in Hch. exists ch, (replicate POTR_MAX_PATH POTR_PING_STATE_UNDEFINED). split; [done|].
  rewrite (get_conn_bind x SlotCtx (x_conn x) _ _ eq_refl), (lift_bind _ _ _ _ Hch). cbn beta iota.
  by rewrite (put_conn_bind x SlotCtx _ _ _ _ eq_refl).
Qed.

Lemma reinit_recv_window_any x t seq :
  exists rw t', reinit_recv_window SlotCtx seq (World x t)
    = Some (tt, World (set_x_conn x (set_recv_window (x_conn x) rw)) t', []).
Proof.
  unfold reinit_recv_window. rewrite (get_conn_bind x SlotCtx (x_conn x) _ _ eq_refl).
  destruct (init_window_any x t (c_recv_window (x_conn x)) seq) as (al & t' & Hi).
  rewrite (bind_run_nil _ _ _ _ _ Hi). destruct (window_init _ _ _ _ _) as [rc rw].
  exists rw, t'. by rewrite (put_conn_at x SlotCtx _ _ _ eq_refl).
Qed.

(** The connection follows no session any more, and makes no DATA callback;
    the fragments that were collected stay. *)
Lemma fin_fire_run x t seq :
  ctx_ok x -> is_tcp_type (service_type (x_service (x_cfg x))) = false ->
  exists x' t' es, thread_recv_fin_fire SlotCtx seq (World x t) = Some (tt, World x' t', es) /\
    ctx_ok x' /\ x_cfg x' = x_cfg x /\ x_sock x' = x_sock x /\ followed (x_conn x') = None /\
    c_frag (x_conn x') = c_frag (x_conn x) /\ data_events es = [] /\
    (holds x HRecvWindowMutex = false -> EvNullLock HRecvWindowMutex ∈ es).
Proof.
  intros Hx Htcp.
  destruct (keeps_fin_fire_ctx (x_cfg x) seq (World x t)) as (a & [x' t'] & es & Hr & [Hx' Hcfg'] & _).
  { split; [by split|by eexists]. }
  destruct a. exists x', t', es. split; [done|]. split; [done|]. split; [done|]. revert Hr.
  unfold thread_recv_fin_fire. rewrite get_cfg_bind. cbn [w_ctx].
  assert (type_eqb (service_type (x_service (x_cfg x))) POTR_TYPE_TCP ||
    type_eqb (service_type (x_service (x_cfg x))) POTR_TYPE_TCP_BIDIR = false) as ->
    by by destruct (service_type (x_service (x_cfg x))).
  cbn [when]. rewrite ret_bind. unfold reset_service_paths. rewrite bind_assoc.
  destruct (clear_ping_states_run x t Hx) as (ch & l & Hl & Hc). rewrite (bind_run_nil _ _ _ _ _ Hc).
  set (x1 := set_x_conn x _).
  destruct (sync_and_emit_run SlotCtx potr_internal_zero_path_states (World x1 t) (x_conn x1) eq_refl)
    as (id & h' & _ & Hh' & Hs). unfold thread_recv_disconnect_service_all_paths. rewrite (bind_run _ _ _ _ _ _ Hs).
  set (x2 := with_conn _ _ _).
  assert (forall w, modify_conn SlotCtx forget_session w =
    Some (tt, World (set_x_conn (w_ctx w) (forget_session (x_conn (w_ctx w)))) (w_tick w), [])) as Hm.
  { intros [x0 t0]. done. }
  rewrite (bind_run_nil _ _ _ _ _ (Hm _)). cbn [w_ctx w_tick].
  set (x3 := set_x_conn x2 _). rewrite (bind_run _ _ _ _ _ _ (lock_mutex_run x3 t HRecvWindowMutex)).
  destruct (reinit_recv_window_any x3 t 0) as (rw & t2 & ->). change (holds x3 _) with (holds x HRecvWindowMutex).
  intros [= <- <- <-]. split_and!; try done.
  - rewrite app_nil_r. unfold data_events. rewrite List.filter_app.
    replace (List.filter is_data (if holds x HRecvWindowMutex then [] else [EvNullLock HRecvWindowMutex])) with (@nil effect)
      by by destruct (holds x HRecvWindowMutex).
    rewrite app_nil_r. destruct (x_callback _); [apply path_events_no_data|done].
  - intros ->. apply elem_of_app. right. by left.
Qed.

(** The FIN of the followed session takes effect when its target is reached. *)
Lemma fin_dispatched x t pkt path sender :
  ctx_ok x -> is_tcp_type (service_type (x_service (x_cfg x))) = false -> packet_ranges pkt ->
  followed (x_conn x) = Some (pkt_session pkt) -> pkt_flags pkt has POTR_FLAG_FIN = true ->
  win_next_seq (c_recv_window (x_conn x)) = pkt_ack_num pkt ->
  exists x' t' es,
    thread_recv_dispatch_packet thread_recv_slot_init_ctx pkt path sender (World x t) = Some (false, World x' t', es) /\
    ctx_ok x' /\ x_cfg x' = x_cfg x /\ x_sock x' = x_sock x /\ followed (x_conn x') = None /\
    c_frag (x_conn x') = c_frag (x_conn x) /\ data_events es = [] /\
    (holds x HRecvWindowMutex = false -> EvNullLock HRecvWindowMutex ∈ es).
Proof.
  intros Hx Htcp Hp Hf Hfin Htgt. destruct (adopt_same x t SlotCtx (x_conn x) pkt Hx eq_refl Hp Hf) as [t1 Had].
  destruct (fin_fire_run x t1 (pkt_ack_num pkt) Hx Htcp) as (x' & t' & es & Hr & Hrest).
  exists x', t', es. split; [|done]. unfold thread_recv_dispatch_packet. rewrite Hfin.
  unfold dispatch_fin. cbn [slot_is_peer thread_recv_slot_init_ctx]. rewrite (bind_run_nil _ _ _ _ _ Had). cbn [negb].
  unfold thread_recv_fin_on_packet. rewrite Hfin. cbn [negb]. rewrite bind_assoc.
  rewrite (get_conn_bind x SlotCtx (x_conn x) _ _ eq_refl). unfold recv_window_reached_fin_target.
  rewrite Htgt, Z.eqb_refl, andb_false_r, ret_bind. cbn beta iota. rewrite (bind_run _ _ _ _ _ _ Hr).
  unfold mret, M_ret. by rewrite app_nil_r.
Qed.
End AfterFin.

(** ** What is delivered at the border of two sessions *)

(** A control packet of a session as the receiver reads it. *)
Definition control_of (h : session_hdr) (flags ack : Z) : packet :=
  control_packet h flags ack (Some []).

(** The FIN, with the number after the last data packet, and the REJECT of a
    packet that the sender does not have any more. *)
Definition fin_of (h : session_hdr) (target : Z) : packet :=
  control_of h (Z.lor POTR_FLAG_FIN POTR_FLAG_FIN_TARGET_VALID) target.
Definition reject_of (h : session_hdr) (seq : Z) : packet := control_of h POTR_FLAG_REJECT seq.

Section Border.
Context `{CplatByteorder} `{Platform} `{!PlatformLaws}.

Lemma control_of_ranges h flags ack body :
  session_hdr_ranges h -> 0 <= flags < 65536 -> 0 <= ack < 4294967296 ->
  packet_ranges (control_packet h flags ack body).
Proof. intros [] Hf Ha. split; cbn; try done; vm_compute; by split. Qed.

(** Packet [i] of a session is the first of the session's rest. *)
Lemma stream_packet_drop h first pkts i :
  stream_packet h (first ⊕ Z.of_nat i) (drop i pkts) 0 = stream_packet h first pkts i.
Proof.
  unfold stream_packet. rewrite lookup_drop, Nat.add_0_r, u32_add_l, Z.add_0_r. done.
Qed.

Lemma stream_ok_drop gs h first pkts i :
  stream_ok gs h first pkts -> stream_ok gs h (first ⊕ Z.of_nat i) (drop i pkts).
Proof. intros []. split; try done; [apply u32_range|by apply Forall_drop]. Qed.

Lemma completed_first gr pkts st0 ms :
  pkts !! 0%nat = Some ms ->
  completed gr pkts st0 0 1 = snd (reasm_all (Z.to_nat (max_message_size (x_global gr))) st0 (map msg_elem ms)).
Proof.
  intros Hms. unfold completed, reassembled, first_elems. rewrite take_0. cbn [concat map reasm_all fst].
  destruct pkts as [|p pkts]; [done|]. injection Hms as ->. cbn. by rewrite app_nil_r.
Qed.

(** The message of one element is glued to the fragments before it. *)
Lemma glued max acc comp peer flags bs :
  acc <> [] -> flags has POTR_FLAG_MORE_FRAG = false -> (length acc + length bs <= max)%nat ->
  snd (reasm_all max (acc, comp) (map msg_elem [(peer, flags, bs)])) = [(acc ++ bs, comp)].
Proof.
  intros Hacc Hfl Hlen. unfold msg_elem. cbn [map fst snd reasm_all]. unfold reasm.
  rewrite Hfl, (proj2 (Nat.leb_le _ _) Hlen). by destruct acc.
Qed.

(** Any packet of a session that the receiver does not follow is a start. *)
Lemma join_at gs gr h first pkts st0 wires x t i ms sender path :
  stream_ok gs h first pkts -> same_service gs gr -> udp_receiver gr ->
  service_type (x_service gr) <> POTR_TYPE_UNICAST_BIDIR ->
  Z.of_nat (length pkts) + window_size_cfg (x_global gr) <= 4294967296 ->
  data_wires gs h first pkts = Some wires -> joining gr h st0 x -> pkts !! i = Some ms ->
  thread_recv_check_src_addr gr sender = true -> (path < POTR_MAX_PATH)%nat ->
  exists x' t' es, recv_datagram (default [] (wires !! i)) sender path (World x t) = Some (tt, World x' t', es) /\
    data_events es = delivered gr POTR_PEER_NA
      (snd (reasm_all (Z.to_nat (max_message_size (x_global gr))) st0 (map msg_elem ms))).
Proof.
  intros Hst Hsame Hkind Hone Hcount Hw Hj Hms Hsrc Hpath.
  pose proof (lookup_lt_Some _ _ _ Hms) as Hi. pose proof (xo_cfg _ (jn_ok _ _ _ _ Hj)) as Hg.
  rewrite (jn_cfg _ _ _ _ Hj) in Hg. pose proof (stream_ok_drop _ _ _ _ i Hst) as Hst'.
  destruct (join_delivers gs gr h (first ⊕ Z.of_nat i) (drop i pkts) st0 Hst' Hsame Hkind Hone) with
    (path := path) (sender := sender) (w := World x t) as (a & [x' t'] & es & Hr & Hd & _);
    [rewrite length_drop; lia..|done|done|].
  exists x', t', es. rewrite (recv_data gs gr h first pkts Hst Hsame Hkind Hone wires Hw (World x t) i sender path Hg
    (jn_cfg _ _ _ _ Hj) Hi Hsrc). rewrite stream_packet_drop in Hr. rewrite (bind_run _ _ _ _ _ _ Hr).
  split; [unfold mret, M_ret; by rewrite app_nil_r|]. rewrite Hd. f_equal. apply completed_first.
  by rewrite lookup_drop, Nat.add_0_r.
Qed.

(** Nothing is ready in the window. *)
Lemma drain_empty x t sl :
  recv_repr (c_recv_window (x_conn x)) (None :: sl) -> pending_fin (c_fin (x_conn x)) = false ->
  slot_drain_recv_window SlotCtx (World x t) = Some (true, World x t, []).
Proof.
  intros Hr Hf. unfold slot_drain_recv_window. rewrite (get_conn_bind x SlotCtx (x_conn x) _ _ eq_refl).
  cbn [drain_loop]. rewrite bind_assoc, (get_conn_bind x SlotCtx (x_conn x) _ _ eq_refl), bind_assoc.
  rewrite (lift_bind _ _ _ _ (recv_pop_spec _ _ _ Hr)). cbn beta iota.
  rewrite bind_assoc, (put_conn_bind x SlotCtx _ _ _ _ eq_refl).
  change (POTR_ERR_EMPTY =? POTR_OK) with false. cbn beta iota.
  assert (with_conn x SlotCtx (set_recv_window (x_conn x) (c_recv_window (x_conn x))) = x) as ->.
  { cbn [with_conn]. replace (set_recv_window (x_conn x) (c_recv_window (x_conn x))) with (x_conn x)
      by by destruct (x_conn x). by destruct x. }
  rewrite ret_bind, (get_conn_bind x SlotCtx (x_conn x) _ _ eq_refl).
  unfold thread_recv_fin_pending_reached. by rewrite Hf.
Qed.

(** A window whose packets are all handed over. *)
Lemma empty_slots h first pkts next got ws :
  (forall i, i ∈ got -> (i < next)%nat) -> stream_slots h first pkts ws next got = replicate ws None.
Proof.
  intros Hgot. apply list_eq. intros j. destruct (decide (j < ws)%nat) as [Hj|Hj].
  - rewrite stream_slots_lookup, lookup_replicate_2 by done. unfold stream_slot. rewrite bool_decide_false; [done|].
    intros Hin%Hgot. lia.
  - by rewrite !lookup_ge_None_2 by (rewrite ?length_stream_slots, ?length_replicate; lia).
Qed.

Section Reject.
Context (gs gr : service_config) (h : session_hdr) (first : Z) (pkts : list (list sq_msg)).
Hypothesis Hstream : stream_ok gs h first pkts.
Hypothesis Hkind : udp_receiver gr.
Hypothesis Honeway : service_type (x_service gr) <> POTR_TYPE_UNICAST_BIDIR.

(** The state after the REJECT of the next packet, with nothing in the window. *)
Definition passed_over (x : potr_context) (next : nat) (st : list Z * bool) : Prop :=
  receiving gr h (first ⊕ Z.of_nat (S next)) (drop (S next) pkts) st x (Transit 0 []).

(** The part of the handler after the session check. *)
Lemma reject_tail x t s :
  receiving gr h first pkts ([], false) x s -> (tr_next s < length pkts)%nat ->
  (forall i, i ∈ tr_got s -> (i < tr_next s)%nat) ->
  exists x' es,
    (_ ← clear_ping_states SlotCtx;
     thread_recv_disconnect_service_all_paths;;
     modify_conn SlotCtx (fun c => set_reorder_pending c false);;
     slot_recv_skip SlotCtx (first ⊕ Z.of_nat (tr_next s));;
     _ ← slot_drain_recv_window SlotCtx;
     mret tt) (World x t) = Some (tt, World x' t, es) /\ data_events es = [] /\
    (ctx_ok x' -> passed_over x' (tr_next s) (fst (reassembled gr pkts ([], false) (tr_next s)))).
Proof.
  intros [Hx Hcfg Hso Hses Hbase Hwin _ Hf Hfr _ _] Hlt Hgot. pose proof (xo_cfg _ Hx) as Hg. rewrite Hcfg in Hg.
  rewrite (empty_slots _ _ _ _ _ _ Hgot) in Hwin. unfold window_width in Hwin. pose proof (co_window _ Hg) as Hcw.
  destruct (Z.to_nat (window_size_cfg (x_global gr))) as [|n] eqn:Hn; [lia|].
  destruct (clear_ping_states_run x t Hx) as (ch & l & _ & Hc). rewrite (bind_run_nil _ _ _ _ _ Hc). set (x1 := set_x_conn x _).
  destruct (sync_and_emit_run SlotCtx potr_internal_zero_path_states (World x1 t) (x_conn x1) eq_refl)
    as (id & h' & _ & _ & Hs). unfold thread_recv_disconnect_service_all_paths. rewrite (bind_run _ _ _ _ _ _ Hs).
  set (x2 := with_conn _ _ _). cbn [w_tick].
  assert (modify_conn SlotCtx (fun c => set_reorder_pending c false) (World x2 t)
    = Some (tt, World (set_x_conn x2 (set_reorder_pending (x_conn x2) false)) t, [])) as Hm by done.
  rewrite (bind_run_nil _ _ _ _ _ Hm). set (x3 := set_x_conn x2 _). cbn [replicate] in Hwin.
  destruct (recv_skip_spec _ _ _ (first ⊕ Z.of_nat (tr_next s)) Hwin) as (W & HW & _ & _ & Hcase).
  rewrite (proj1 Hwin), Hbase, Z.eqb_refl in Hcase. destruct Hcase as [HbW HrW].
  rewrite <- replicate_S_end in HrW.
  set (x4 := set_x_conn x3 (set_recv_window (x_conn x3) W)).
  assert (slot_recv_skip SlotCtx (first ⊕ Z.of_nat (tr_next s)) (World x3 t) = Some (tt, World x4 t, [])) as Hsk.
  { unfold slot_recv_skip. rewrite (get_conn_bind x3 SlotCtx (x_conn x3) _ _ eq_refl).
    change (c_recv_window (x_conn x3)) with (c_recv_window (x_conn x)). rewrite (lift_bind _ _ _ _ HW).
    by rewrite (put_conn_at x3 SlotCtx _ _ _ eq_refl). }
  rewrite (bind_run_nil _ _ _ _ _ Hsk), (bind_run_nil _ _ _ _ _ (drain_empty x4 t _ HrW Hf)).
  eexists x4, _. split; [reflexivity|]. rewrite app_nil_r.
  split; [destruct (x_callback _); [apply path_events_no_data|done]|]. intros Hx4. split; try done.
  - cbn [tr_next x4 x_conn set_x_conn c_recv_window set_recv_window]. rewrite HbW, !u32_add_l. f_equal. lia.
  - cbn [tr_next tr_got x4 x_conn set_x_conn c_recv_window set_recv_window].
    rewrite empty_slots by (by intros i Hi%not_elem_of_nil). unfold window_width. rewrite Hn. exact HrW.
  - cbn. lia.
  - by intros i Hi%not_elem_of_nil.
Qed.

Lemma reject_run x t s path sender body :
  (body = None \/ body = Some []) -> receiving gr h first pkts ([], false) x s -> (tr_next s < length pkts)%nat ->
  (forall i, i ∈ tr_got s -> (i < tr_next s)%nat) -> (path < POTR_MAX_PATH)%nat ->
  exists x' t' es,
    thread_recv_dispatch_packet thread_recv_slot_init_ctx
      (control_packet h POTR_FLAG_REJECT (first ⊕ Z.of_nat (tr_next s)) body) path sender
      (World x t) = Some (false, World x' t', es) /\ data_events es = [] /\
    passed_over x' (tr_next s) (fst (reassembled gr pkts ([], false) (tr_next s))).
Proof.
  intros Hbody Hrv Hlt Hgot Hpath. pose proof Hrv as [Hx Hcfg _ Hses _ _ _ _ _ _ _].
  pose proof (xo_cfg _ Hx) as Hg. rewrite Hcfg in Hg. set (pkt := control_packet h _ _ body).
  assert (pkt_ok gr pkt) as Hp.
  { split; [apply control_of_ranges; [apply Hstream|vm_compute; by split|apply u32_range]| |].
    - cbn. pose proof (co_payload _ Hg). lia.
    - cbn [pkt control_packet pkt_payload]. destruct Hbody as [-> | ->]; [done|]. split; [apply Forall_nil_2|cbn; lia]. }
  assert (good gr SlotCtx (World x t)) as Hgood by (split; [by split|by eexists]).
  destruct (adopt_same x t SlotCtx (x_conn x) pkt Hx eq_refl (pk_ranges _ _ Hp) Hses) as [t1 Had].
  destruct (keeps_learn_sender_path gr SlotCtx path sender Hpath (World x t1)) as ([] & [x2 t2] & e2 & Hle & Hgood2).
  { exact Hgood. }
  destruct (hush_learn (link_view x) path sender (World x t1) tt (World x2 t2) e2 eq_refl Hle) as [Hv He2].
  destruct (reject_tail x2 t2 s) as (x' & e3 & Hr3 & He3 & Hpass); [|done..|].
  { eapply receiving_view; [apply Hgood2|exact Hv|exact Hrv]. }
  assert (thread_recv_window_on_reject SlotCtx pkt path sender (World x t) = Some (tt, World x' t2, e2 ++ e3)) as Hr.
  { unfold thread_recv_window_on_reject. rewrite get_cfg_bind. cbn [w_ctx]. rewrite Hcfg, (ur_not_raw _ Hkind).
    rewrite (bind_run_nil _ _ _ _ _ Had). cbn [negb].
    rewrite (bind_run _ _ _ _ _ _ Hle). cbv beta iota. change (pkt_ack_num pkt) with (first ⊕ Z.of_nat (tr_next s)).
    by rewrite Hr3. }
  destruct (on_reject_ok gr SlotCtx pkt path sender Hp Hpath (World x t) Hgood) as (a' & w' & es' & Hr' & Hfine & _).
  rewrite Hr in Hr'. injection Hr' as <- <- <-.
  exists x', t2, (e2 ++ e3). split; [|by rewrite data_events_app, He2, He3; auto].
  unfold thread_recv_dispatch_packet. change (pkt_flags pkt) with POTR_FLAG_REJECT.
  change (POTR_FLAG_REJECT has POTR_FLAG_FIN) with false. change (POTR_FLAG_REJECT has POTR_FLAG_NACK) with false.
  change (POTR_FLAG_REJECT has POTR_FLAG_REJECT) with true. cbv iota. rewrite (bind_run _ _ _ _ _ _ Hr).
  unfold mret, M_ret. by rewrite app_nil_r.
Qed.
End Reject.


(** C39. A session that ends is forgotten at once.  A receiver of a one-way UDP
    service that has delivered the packets of a session up to the number of its
    FIN takes the FIN: it is disconnected and makes no DATA callback.  A copy
    of any packet that was delivered before, which arrives now (from a slower
    path, or repeated by the network), is taken for the start of a new session,
    and its messages are delivered a second time. *)
Theorem fin_then_copy gs h first pkts wires x t s i ms fin_path fin_sender path sender :
  let gr := x_cfg x in
  stream_ok gs h first pkts -> same_service gs gr -> udp_receiver gr ->
  service_type (x_service gr) <> POTR_TYPE_UNICAST_BIDIR ->
  Z.of_nat (length pkts) + window_size_cfg (x_global gr) <= 4294967296 ->
  data_wires gs h first pkts = Some wires ->
  receiving gr h first pkts ([], false) x s -> fst (reassembled gr pkts ([], false) (tr_next s)) = ([], false) ->
  (i < tr_next s)%nat -> pkts !! i = Some ms ->
  thread_recv_check_src_addr gr sender = true -> (path < POTR_MAX_PATH)%nat ->
  exists x1 t1 es1 x2 t2 es2,
    thread_recv_dispatch_packet thread_recv_slot_init_ctx (fin_of h (first ⊕ Z.of_nat (tr_next s))) fin_path fin_sender
      (World x t) = Some (false, World x1 t1, es1) /\
    data_events es1 = [] /\
    recv_datagram (default [] (wires !! i)) sender path (World x1 t1) = Some (tt, World x2 t2, es2) /\
    data_events es2 = delivered gr POTR_PEER_NA
      (snd (reasm_all (Z.to_nat (max_message_size (x_global gr))) ([], false) (map msg_elem ms))).
Proof.
  intros gr Hst Hsame Hkind Hone Hcount Hw Hrv Hclean _ Hms Hsrc Hpath.
  destruct Hrv as [Hx Hcfg Hso Hses Hbase Hwin _ _ Hfr _ _].
  destruct (fin_dispatched x t (fin_of h (first ⊕ Z.of_nat (tr_next s))) fin_path fin_sender Hx (ur_not_tcp _ Hkind))
    as (x1 & t1 & es1 & Hr1 & Hx1 & Hcfg1 & Hso1 & Hno & Hf1 & He1 & _).
  { apply control_of_ranges; [apply Hst|vm_compute; by split|apply u32_range]. }
  { exact Hses. }
  { done. }
  { by rewrite (proj1 Hwin), Hbase. }
  assert (joining gr h ([], false) x1) as Hj.
  { split; try done; [by rewrite Hso1|by rewrite Hno|]. by rewrite Hf1, Hfr. }
  destruct (join_at gs gr h first pkts _ wires x1 t1 i ms sender path Hst Hsame Hkind Hone Hcount Hw Hj Hms Hsrc Hpath)
    as (x2 & t2 & es2 & Hr2 & He2).
  by exists x1, t1, es1, x2, t2, es2.
Qed.

(** The fragments of one session are glued to the messages of the next.  A
    receiver of a one-way UDP service that has got [acc], the first fragments
    of a message whose sender then went away (or restarted), meets the first
    packet of a newer session, with the message [bs] of one element in it: the
    application gets one DATA callback, for [acc] followed by [bs], a message
    that nobody sent, and [bs] itself is never delivered. *)
Theorem session_switch_keeps_fragments gs h first peer flags bs wires x t acc comp sender path :
  let gr := x_cfg x in
  stream_ok gs h first [[(peer, flags, bs)]] -> same_service gs gr -> udp_receiver gr ->
  service_type (x_service gr) <> POTR_TYPE_UNICAST_BIDIR ->
  data_wires gs h first [[(peer, flags, bs)]] = Some wires ->
  joining gr h (acc, comp) x -> acc <> [] -> flags has POTR_FLAG_MORE_FRAG = false ->
  (length acc + length bs <= Z.to_nat (max_message_size (x_global gr)))%nat ->
  thread_recv_check_src_addr gr sender = true -> (path < POTR_MAX_PATH)%nat ->
  exists x' t' es, recv_datagram (default [] (wires !! 0%nat)) sender path (World x t) = Some (tt, World x' t', es) /\
    data_events es = delivered gr POTR_PEER_NA [(acc ++ bs, comp)].
Proof.
  intros gr Hst Hsame Hkind Hone Hw Hj Hacc Hfl Hlen Hsrc Hpath.
  pose proof (co_window _ (xo_cfg _ (jn_ok _ _ _ _ Hj))) as Hcw. unfold POTR_MAX_WINDOW_SIZE in Hcw.
  destruct (join_at gs gr h first [[(peer, flags, bs)]] (acc, comp) wires x t 0 [(peer, flags, bs)] sender path
    Hst Hsame Hkind Hone) as (x' & t' & es & Hr & He); try done.
  { cbn [length]. subst gr. lia. }
  exists x', t', es. split; [done|]. by rewrite He, glued.
Qed.

(** C38. A lost fragment joins two messages.  The receiver of a one-way UDP
    service has got [acc], the first fragments of a message.  The packet with
    the rest is lost, and the sender answers the request for it with a REJECT,
    since it does not hold the packet any more.  The receiver reports a
    disconnection and passes over the packet, but keeps [acc]; the next packet,
    with the message [bs] of one element, connects it again, and the application
    gets one DATA callback, for [acc] followed by [bs]. *)
Theorem reject_joins_messages gs h first pkts wires x t s acc comp peer flags bs rej_path rej_sender path sender :
  let gr := x_cfg x in
  let lost := first ⊕ Z.of_nat (tr_next s) in
  stream_ok gs h first pkts -> same_service gs gr -> udp_receiver gr ->
  service_type (x_service gr) <> POTR_TYPE_UNICAST_BIDIR ->
  Z.of_nat (length pkts) + window_size_cfg (x_global gr) <= 4294967296 ->
  data_wires gs h first pkts = Some wires ->
  receiving gr h first pkts ([], false) x s -> (forall i, i ∈ tr_got s -> (i < tr_next s)%nat) ->
  fst (reassembled gr pkts ([], false) (tr_next s)) = (acc, comp) -> acc <> [] ->
  pkts !! S (tr_next s) = Some [(peer, flags, bs)] -> flags has POTR_FLAG_MORE_FRAG = false ->
  (length acc + length bs <= Z.to_nat (max_message_size (x_global gr)))%nat ->
  (rej_path < POTR_MAX_PATH)%nat -> thread_recv_check_src_addr gr sender = true -> (path < POTR_MAX_PATH)%nat ->
  exists x1 t1 es1 x2 t2 es2,
    thread_recv_dispatch_packet thread_recv_slot_init_ctx (reject_of h lost) rej_path rej_sender (World x t)
      = Some (false, World x1 t1, es1) /\ data_events es1 = [] /\
    recv_datagram (default [] (wires !! S (tr_next s))) sender path (World x1 t1) = Some (tt, World x2 t2, es2) /\
    data_events es2 = delivered gr POTR_PEER_NA [(acc ++ bs, comp)].
Proof.
  intros gr lost Hst Hsame Hkind Hone Hcount Hw Hrv Hgot Hst0 Hacc Hms Hfl Hlen Hrp Hsrc Hpath. subst lost.
  assert (S (tr_next s) < length pkts)%nat as Hi by exact (lookup_lt_Some _ _ _ Hms). pose proof (xo_cfg _ (rv_ok _ _ _ _ _ _ _ Hrv)) as Hg. fold gr in Hg.
  destruct (reject_run gs gr h first pkts Hst Hkind Hone x t s rej_path rej_sender (Some []) (or_intror eq_refl) Hrv) as (x1 & t1 & es1 & Hr1 & He1 & Hp);
    [lia|done|done|]. rewrite Hst0 in Hp. pose proof (stream_ok_drop _ _ _ _ (S (tr_next s)) Hst) as Hst'.
  destruct (delivers_dispatch gs gr h (first ⊕ Z.of_nat (S (tr_next s))) (drop (S (tr_next s)) pkts) (acc, comp)
    Hst' Hsame Hkind) with (s := Transit 0 []) (i := 0%nat) (sender := sender) (path := path) (w := World x1 t1)
    as (a & [x2 t2] & es2 & Hr2 & He2 & _); [rewrite length_drop; lia|done|rewrite length_drop; lia|done|by split|].
  exists x1, t1, es1, x2, t2, es2. split; [done|]. split; [done|]. split.
  - rewrite (recv_data gs gr h first pkts Hst Hsame Hkind Hone wires Hw (World x1 t1) (S (tr_next s)) sender path Hg
      (rv_cfg _ _ _ _ _ _ _ Hp) Hi Hsrc). rewrite stream_packet_drop in Hr2. rewrite (bind_run _ _ _ _ _ _ Hr2).
    unfold mret, M_ret. by rewrite app_nil_r.
  - rewrite He2, (arrive_first gr Hg). cbn [tr_next].
    rewrite (completed_first _ _ _ [(peer, flags, bs)]) by by rewrite lookup_drop, Nat.add_0_r. by rewrite glued.
Qed.
End Border.

(** ** Examples *)

(** A sender of the example service whose packets hold one short element each. *)
Definition one_each (ms : list sq_msg) : list (list sq_msg) := map (fun m => [m]) ms.
Definition wires_of (h : session_hdr) (ms : list sq_msg) : list (list Z) :=
  default [] (@data_wires little_host toy_platform udp_config h 0 (one_each ms)).

Definition short_msg (m : sq_msg) : bool :=
  let '(_, flags, bs) := m in
  (0 <=? flags) && (flags <? 65536) && (0 <? length bs)%nat && (length bs <=? 8)%nat &&
  forallb is_byteb bs.

Lemma one_each_ok h ms :
  session_hdr_ranges h -> hdr_service_id h = service_id (x_service udp_config) -> forallb short_msg ms = true ->
  stream_ok udp_config h 0 (one_each ms).
Proof.
  intros Hh Hs Hms. split; try done; [apply example_cfg_ok|]. apply Forall_fmap, List.Forall_forall. intros m Hm.
  apply (proj1 (List.forallb_forall _ _) Hms) in Hm. destruct m as [[pid flags] bs]. unfold short_msg in Hm.
  rewrite !andb_true_iff in Hm. destruct Hm as [[[[H1 H2] H3] H4] H5].
  assert (Z.to_nat (max_chunk udp_config) = 42%nat) as Hc by (vm_compute; reflexivity).
  assert (pack_cap udp_config = 48%nat) as Hp by (vm_compute; reflexivity).
  split; [|rewrite Hp; unfold packed_of; cbn [map concat]; rewrite app_nil_r, length_elem_bytes;
    unfold POTR_PAYLOAD_ELEM_HDR_SIZE; cbn [msg_elem snd]; lia].
  apply Forall_cons_2; [|apply Forall_nil_2]. split; [lia|]. split; [rewrite Hc; lia|by apply forallb_is_byte].
Qed.

Definition short_hdr : session_hdr := own_session_hdr udp_config example_sender.
Definition later_hdr : session_hdr := own_session_hdr udp_config (SessionState 56 (Timespec 10 0) 0 false ts0).

Lemma short_stream_ok ms :
  forallb short_msg ms = true ->
  stream_ok udp_config short_hdr 0 (one_each ms) /\ stream_ok udp_config later_hdr 0 (one_each ms).
Proof.
  intros Hms. split; (apply one_each_ok; [|done..]); split; (split; [vm_compute; discriminate | vm_compute; reflexivity]).
Qed.

Lemma udp_config_same : same_service udp_config udp_config.
Proof. by split. Qed.
Lemma udp_config_receiver : udp_receiver udp_config.
Proof. split; try reflexivity. by left. Qed.

(** The first packet reaches the connected receiver. *)
Lemma first_received ms :
  forallb short_msg ms = true -> (0 < length ms <= 1000)%nat ->
  @data_wires little_host toy_platform udp_config short_hdr 0 (one_each ms) = Some (wires_of short_hdr ms) ->
  exists x t es,
    @recv_thread_run little_host toy_platform
      [[Datagram (default [] (wires_of short_hdr ms !! 0%nat)) example_sender_addr]]
      (World (connected_ctx POTR_TYPE_UNICAST true) 0) = Some (tt, World x t, es) /\
    data_events es = @delivered toy_platform udp_config POTR_PEER_NA (snd (reassembled udp_config (one_each ms) ([], false) 1)) /\
    @receiving little_host udp_config short_hdr 0 (one_each ms) ([], false) x (Transit 1 [0%nat]).
Proof.
  intros Hms Hl Hw. destruct (short_stream_ok ms Hms) as [Hst _].
  assert (length (one_each ms) = length ms) as Hlen by apply length_map.
  destruct (@run_delivers little_host toy_platform toy_laws udp_config udp_config short_hdr 0 (one_each ms) ([], false)
    Hst udp_config_same udp_config_receiver) with (wires := wires_of short_hdr ms)
    (x := connected_ctx POTR_TYPE_UNICAST true) (t := 0%nat) (turns := [[Copy 0 example_sender_addr]])
    as (x & t & es & Hr & Hd & _ & Hrv).
  { rewrite Hlen. cbn. lia. }
  { exact Hw. }
  { apply (@connected_receiving little_host toy_platform). }
  { apply Forall_cons_2; [|apply Forall_nil_2]. split; [exact (le_n 1)|]. split; [|by left].
    apply Forall_cons_2; [|apply Forall_nil_2]. split; [rewrite Hlen; lia|reflexivity]. }
  by exists x, t, es.
Qed.

Definition short_msgs : list sq_msg := [(0, 0, [1; 2; 3])].

Lemma fin_then_copy_witness :
  exists x t es x1 t1 es1 x2 t2 es2,
    @recv_thread_run little_host toy_platform
      [[Datagram (default [] (wires_of short_hdr short_msgs !! 0%nat)) example_sender_addr]]
      (World (connected_ctx POTR_TYPE_UNICAST true) 0) = Some (tt, World x t, es) /\
    data_events es = [EvCallback POTR_PEER_NA POTR_EVENT_DATA (CbBytes [1; 2; 3])] /\
    @thread_recv_dispatch_packet little_host toy_platform thread_recv_slot_init_ctx (fin_of short_hdr 1) 0
      example_sender_addr (World x t) = Some (false, World x1 t1, es1) /\
    @recv_datagram little_host toy_platform (default [] (wires_of short_hdr short_msgs !! 0%nat)) example_sender_addr 0
      (World x1 t1) = Some (tt, World x2 t2, es2) /\
    data_events es2 = [EvCallback POTR_PEER_NA POTR_EVENT_DATA (CbBytes [1; 2; 3])].
Proof.
  assert (@data_wires little_host toy_platform udp_config short_hdr 0 (one_each short_msgs)
    = Some (wires_of short_hdr short_msgs)) as Hw by (vm_compute; reflexivity).
  destruct (first_received short_msgs) as (x & t & es & Hr & Hd & Hrv); [reflexivity|cbn; lia|exact Hw|].
  pose proof (rv_cfg _ _ _ _ _ _ _ Hrv) as Hcfg.
  destruct (@fin_then_copy little_host toy_platform toy_laws udp_config short_hdr 0 (one_each short_msgs)
    (wires_of short_hdr short_msgs) x t (Transit 1 [0%nat]) 0 short_msgs 0 example_sender_addr 0 example_sender_addr)
    as (x1 & t1 & es1 & x2 & t2 & es2 & Hr1 & _ & Hr2 & He2); rewrite ?Hcfg;
    [by apply short_stream_ok|exact udp_config_same|exact udp_config_receiver|discriminate|vm_compute; discriminate|exact Hw
    |exact Hrv|reflexivity|exact (le_n 1)|reflexivity|reflexivity|unfold POTR_MAX_PATH; lia|].
  exists x, t, es, x1, t1, es1, x2, t2, es2. split; [exact Hr|]. split; [rewrite Hd; vm_compute; reflexivity|].
  split; [exact Hr1|]. split; [exact Hr2|]. rewrite He2, Hcfg. vm_compute. reflexivity.
Defined.

(** A message of two fragments, and one of one element. *)
Definition joined_msgs : list sq_msg := [(0, POTR_FLAG_MORE_FRAG, [4; 5]); (0, 0, [6]); (0, 0, [1; 2; 3])].

Lemma reject_joins_messages_witness :
  exists x t es x1 t1 es1 x2 t2 es2,
    @recv_thread_run little_host toy_platform
      [[Datagram (default [] (wires_of short_hdr joined_msgs !! 0%nat)) example_sender_addr]]
      (World (connected_ctx POTR_TYPE_UNICAST true) 0) = Some (tt, World x t, es) /\
    @thread_recv_dispatch_packet little_host toy_platform thread_recv_slot_init_ctx (reject_of short_hdr 1) 0
      example_sender_addr (World x t) = Some (false, World x1 t1, es1) /\
    @recv_datagram little_host toy_platform (default [] (wires_of short_hdr joined_msgs !! 2%nat)) example_sender_addr 0
      (World x1 t1) = Some (tt, World x2 t2, es2) /\
    data_events es2 = [EvCallback POTR_PEER_NA POTR_EVENT_DATA (CbBytes [4; 5; 1; 2; 3])].
Proof.
  assert (@data_wires little_host toy_platform udp_config short_hdr 0 (one_each joined_msgs)
    = Some (wires_of short_hdr joined_msgs)) as Hw by (vm_compute; reflexivity).
  destruct (first_received joined_msgs) as (x & t & es & Hr & _ & Hrv); [reflexivity|cbn; lia|exact Hw|].
  pose proof (rv_cfg _ _ _ _ _ _ _ Hrv) as Hcfg.
  destruct (@reject_joins_messages little_host toy_platform toy_laws udp_config short_hdr 0 (one_each joined_msgs)
    (wires_of short_hdr joined_msgs) x t (Transit 1 [0%nat]) [4; 5] false 0 0 [1; 2; 3] 0 example_sender_addr 0
    example_sender_addr) as (x1 & t1 & es1 & x2 & t2 & es2 & Hr1 & _ & Hr2 & He2); rewrite ?Hcfg;
    [by apply short_stream_ok|exact udp_config_same|exact udp_config_receiver|discriminate|vm_compute; discriminate|exact Hw
    |exact Hrv| |reflexivity|discriminate|reflexivity|reflexivity|cbn; lia|unfold POTR_MAX_PATH; lia|reflexivity
    |unfold POTR_MAX_PATH; lia|].
  { intros i Hi. apply list_elem_of_singleton in Hi as ->. exact (le_n 1). }
  exists x, t, es, x1, t1, es1, x2, t2, es2. split; [exact Hr|]. split; [exact Hr1|]. split; [exact Hr2|].
  rewrite He2, Hcfg. vm_compute. reflexivity.
Defined.

(** The receiver of the session 55 with two bytes of a message. *)
Definition fragment_ctx : potr_context :=
  set_x_conn (connected_ctx POTR_TYPE_UNICAST true)
    (set_frag connected_conn (FragState (Some ([9; 9] ++ replicate 98 0)) 2 false)).

Lemma fragment_joining : @joining little_host toy_platform udp_config later_hdr ([9; 9], false) fragment_ctx.
Proof.
  split; try done.
  - apply (with_conn_ok (connected_ctx POTR_TYPE_UNICAST true) SlotCtx _ connected_conn);
      [apply connected_ctx_ok|reflexivity|].
    pose proof (@connected_conn_ok little_host POTR_TYPE_UNICAST true) as Hc. conn_solve. split; [by eexists|cbn; lia].
  - intros [|k] Hk; [done|]. cbn in Hk. lia.
Qed.

Lemma session_switch_keeps_fragments_witness :
  exists x' t' es,
    @recv_datagram little_host toy_platform (default [] (wires_of later_hdr short_msgs !! 0%nat)) example_sender_addr 0
      (World fragment_ctx 0) = Some (tt, World x' t', es) /\
    data_events es = [EvCallback POTR_PEER_NA POTR_EVENT_DATA (CbBytes [9; 9; 1; 2; 3])].
Proof.
  destruct (@session_switch_keeps_fragments little_host toy_platform toy_laws udp_config later_hdr 0 0 0 [1; 2; 3]
    (wires_of later_hdr short_msgs) fragment_ctx 0 [9; 9] false example_sender_addr 0) as (x' & t' & es & Hr & He).
  - by apply (short_stream_ok short_msgs).
  - exact udp_config_same.
  - exact udp_config_receiver.
  - discriminate.
  - vm_compute. reflexivity.
  - exact fragment_joining.
  - discriminate.
  - reflexivity.
  - cbn. lia.
  - reflexivity.
  - unfold POTR_MAX_PATH. lia.
  - exists x', t', es. split; [exact Hr|]. rewrite He. vm_compute. reflexivity.
Defined.
