(* ===== verification/StalePing.v ===== *)
(** A PING that is late: the scan of the receive window has no check that the
    number in the PING is ahead, so a receiver that lacks nothing asks for
    packets that do not exist yet, and loses one of them. *)

From stdpp Require Import base list numbers option.
From Stdlib Require Import ZArith Lia ZifyBool.
From S2P Require Import Prelude Types Packet Window SendQueue Context PathEvent Validate.
From S2P Require Import PeerTable RecvSlot Session Fin RecvWindow HealthThread Send.
From S2P Require Import SendTurn Dispatch RecvThread Frame Delivery UdpDelivery Retransmit Repair.
From S2P Require Import PingRepair Network UdpSession.
Local Open Scope Z_scope.
Local Open Scope porter_scope.

Section Stale.
Context `{CplatByteorder} `{Platform} `{!PlatformLaws}.
Context (gs gr : service_config) (h : session_hdr) (first : Z) (pkts : list (list sq_msg)) (wires : list (list Z)).
Hypothesis Hlink : one_way_link gs gr h first pkts wires.

(** The receiver takes a REJECT of the next packet from the network. *)
Lemma reject_datagram_run x t s wire sender path :
  receiving gr h first pkts ([], false) x s -> (tr_next s < length pkts)%nat ->
  (forall i, i ∈ tr_got s -> (i < tr_next s)%nat) -> (path < POTR_MAX_PATH)%nat ->
  thread_recv_check_src_addr gr sender = true -> reject_image gs h (first ⊕ Z.of_nat (tr_next s)) = Some wire ->
  exists x' t' es, recv_datagram wire sender path (World x t) = Some (tt, World x' t', es) /\ data_events es = [] /\
    passed_over gr h first pkts x' (tr_next s) (fst (reassembled gr pkts ([], false) (tr_next s))).
Proof.
  intros Hrv Hlt Hgot Hpath Hsrc Hw. destruct Hlink as [Hst _ _ Hsame _ Hkind Hrole Hone _].
  pose proof Hrv as [Hx Hcfg _]. pose proof (xo_cfg _ Hx) as Hg. rewrite Hcfg in Hg. pose proof Hst as [_ Hh Hsid _ _].
  destruct (control_accepted gs gr h POTR_FLAG_REJECT (first ⊕ Z.of_nat (tr_next s)) wire Hg) as (q & body & Hparse & Hq & Hauth & Hbody);
    [apply Hsame|apply Hsame|done|apply u32_range|by right|exact Hw|].
  destruct (reject_run gs gr h first pkts Hst Hkind Hone x t s path sender body Hbody Hrv Hlt Hgot Hpath)
    as (x' & t' & es & Hr & Hd & Hp). exists x', t', es. split; [|done].
  unfold recv_datagram. rewrite get_cfg_bind. cbn [w_ctx]. rewrite Hcfg, (lift_bind _ _ _ _ Hparse). cbn beta iota.
  rewrite Hq, Hsid, (same_id _ _ Hsame), !Z.eqb_refl, Hsrc, (ur_single _ Hkind). cbn [Z.eqb POTR_OK negb].
  rewrite (lift_bind _ _ _ _ Hauth). cbn beta iota. cbn [Z.eqb POTR_OK negb].
  unfold role_eqb. rewrite Hrole, bool_decide_false by done. rewrite ret_bind, (bind_run _ _ _ _ _ _ Hr).
  unfold mret, M_ret. by rewrite app_nil_r.
Qed.

(** A packet that was passed over is out of the window. *)
Lemma passed_over_push x k st :
  passed_over gr h first pkts x k st -> (k < length pkts)%nat ->
  window_recv_push (c_recv_window (x_conn x)) (stream_packet h first pkts k)
  = Some (POTR_ERR_OUT_OF_WINDOW, c_recv_window (x_conn x)).
Proof.
  intros [Hx Hcfg _ _ Hbase Hwin _ _ _ _ _] Hk. pose proof (xo_cfg _ Hx) as Hg. rewrite Hcfg in Hg.
  destruct Hlink as [Hst _ _ Hsame _ _ _ _ _].
  destruct (packet_at_ok gs gr h first pkts Hst Hsame k Hg Hk) as (ms & _ & Hp & _ & Hsto & _).
  pose proof (ok_recv _ _ (xo_conn _ Hx)) as ([Hd1 Hd2] & _). rewrite Hcfg in Hd1, Hd2.
  destruct (recv_push_spec _ _ (stream_packet h first pkts k) Hwin) as (rc & W' & Hr & _ & Hres);
    [by rewrite Hd2|rewrite Hp; apply u32_range|]. rewrite Hr. revert Hres.
  replace (pkt_seq_num (stream_packet h first pkts k)) with (first ⊕ Z.of_nat k) by by rewrite Hp.
  rewrite Hbase, Hd1. cbn [tr_next]. pose proof (co_window _ Hg) as Hcw. unfold POTR_MAX_WINDOW_SIZE in Hcw.
  rewrite u32_add_l, u32_sub_l, u32_sub_r.
  replace (first + Z.of_nat k - (first + Z.of_nat (S k) + Z.of_nat 0)) with (-1) by lia.
  change (u32 (-1)) with 4294967295. rewrite (proj2 (Z.ltb_ge _ _)) by lia. by intros [-> ->].
Qed.

(** Its copies are thrown away. *)
Lemma passed_over_discards x t k st sender path :
  passed_over gr h first pkts x k st -> (k < length pkts)%nat ->
  thread_recv_check_src_addr gr sender = true -> (path < POTR_MAX_PATH)%nat ->
  exists x' t' es, recv_datagram (default [] (wires !! k)) sender path (World x t) = Some (tt, World x' t', es) /\
    data_events es = [] /\ passed_over gr h first pkts x' k st.
Proof.
  intros Hpo Hk Hsrc Hpath. pose proof Hpo as [Hx Hcfg _ Hses _]. pose proof (xo_cfg _ Hx) as Hg. rewrite Hcfg in Hg.
  destruct Hlink as [Hst _ Hw Hsame _ Hkind _ Hone _].
  destruct (packet_at_ok gs gr h first pkts Hst Hsame k Hg Hk) as (ms & _ & Hp & Hpk & _).
  rewrite (recv_data gs gr h first pkts Hst Hsame Hkind Hone wires Hw (World x t) k sender path Hg Hcfg Hk Hsrc).
  rewrite dispatch_data by by rewrite Hp. unfold thread_recv_slot_init_ctx.
  destruct (adopt_same x t SlotCtx (x_conn x) (stream_packet h first pkts k) Hx eq_refl (pk_ranges _ _ Hpk)) as [t1 Had];
    [by rewrite Hses, Hp|].
  rewrite bind_assoc, (bind_run_nil _ _ _ _ _ Had). cbn [negb].
  rewrite bind_assoc, (bind_run_nil _ _ _ _ _ (learn_ports gr Hone x t1 path sender Hx Hcfg Hpath)).
  set (x1 := set_x_peer_port _ _).
  assert (passed_over gr h first pkts x1 k st) as Hpo1.
  { unfold passed_over. eapply receiving_view; [| |exact Hpo]; [|reflexivity].
    destruct Hx. split; try done. unfold x1. cbn. by rewrite length_insert. }
  exists x1, t1, []. unfold thread_recv_window_accept_outer. rewrite !bind_assoc, get_cfg_bind. cbn [w_ctx].
  change (x_cfg x1) with (x_cfg x). rewrite Hcfg, (ur_not_raw _ Hkind). unfold slot_recv_push. rewrite !bind_assoc.
  rewrite (get_conn_bind x1 SlotCtx _ _ _ eq_refl), bind_assoc, (lift_bind _ _ _ _ (passed_over_push x1 k st Hpo1 Hk)).
  cbn beta iota. rewrite bind_assoc, (put_conn_bind x1 SlotCtx _ _ _ _ eq_refl), ret_bind.
  split; [|by split]. cbn. do 3 f_equal. by destruct x, x_conn.
Qed.

Lemma passed_over_copies copies k st sender path :
  (k < length pkts)%nat -> thread_recv_check_src_addr gr sender = true -> (path < POTR_MAX_PATH)%nat ->
  forall x t, passed_over gr h first pkts x k st ->
  exists w' es, for_each (replicate copies (default [] (wires !! k))) (fun w => recv_datagram w sender path) (World x t)
      = Some (tt, w', es) /\ data_events es = [].
Proof.
  intros Hk Hsrc Hpath. induction copies as [|n IH]; intros x t Hpo; [by exists (World x t), []|].
  destruct (passed_over_discards x t k st sender path Hpo Hk Hsrc Hpath) as (x1 & t1 & es & Hr & Hd & Hpo1).
  destruct (IH x1 t1 Hpo1) as (w' & es' & Hr' & Hd'). cbn [replicate for_each]. rewrite (bind_run _ _ _ _ _ _ Hr), Hr'.
  exists w', (es ++ es'). split; [done|]. by rewrite data_events_app, Hd, Hd'.
Qed.
End Stale.

(** Nothing beyond what was handed over has arrived. *)
Lemma missing_all got k ws : (forall i, i ∈ got -> (i < k)%nat) -> missing got k ws = seq k ws.
Proof.
  intros Hgot. unfold missing. rewrite List.forallb_filter_id; [done|]. apply List.forallb_forall.
  intros i Hi%in_seq. apply negb_true_iff, bool_decide_eq_false. intros Hin%Hgot. lia.
Qed.

(** The answer to a NACK for the packet that is sent next is a REJECT. *)
Lemma nack_answer_unsent `{CplatByteorder} `{Platform} gs h first dests log wire :
  Z.of_nat (length log) < 4294967296 -> reject_image gs h (first ⊕ Z.of_nat (length log)) = Some wire ->
  nack_answer gs h first dests log (first ⊕ Z.of_nat (length log)) = datagrams 0 (x_n_path gs) dests wire.
Proof.
  intros Hl Hrj. unfold nack_answer, nack_reply. cbv zeta. rewrite u32_sub_l.
  replace (u32 (first + Z.of_nat (length log) - first)) with (Z.of_nat (length log)) by (rewrite u32_small; lia).
  rewrite Nat2Z.id, (proj2 (Nat.leb_le _ _)), lookup_ge_None_2, Hrj by lia. done.
Qed.

(** The sender has sent [k] packets, and the receiver has handed over all of
    them. *)
Definition up_to_date `{CplatByteorder} `{Platform} (gs gr : service_config) (h : session_hdr) (first : Z)
    (pkts : list (list sq_msg)) (wires : list (list Z)) (dests : list endpoint) (k : nat) (asked : list Z)
    (xs xr : potr_context) : Prop :=
  sending gs h first dests xs (take k wires) asked /\
  exists got, receiving gr h first pkts ([], false) xr (Transit k got) /\ forall i, i ∈ got -> (i < k)%nat.

(** C37. A late PING costs a packet that the network did not lose.  The sender of
    a one-way UDP service has sent [k] packets and the receiver (no reordering
    time configured) has handed over all of them.  A PING that announced [m < k]
    arrives now, from a slower path or repeated: the receiver asks, on every
    path whose port it knows, for a whole window of packets, the first of which
    is packet [k], which is not sent yet.  The sender answers this NACK with a
    REJECT; the receiver that gets it passes over packet [k] and makes no DATA
    callback.  When the sender then sends packet [k], the receiver throws the
    copy away, and every further copy of it. *)
Theorem late_ping_loses_packet `{CplatByteorder} `{Platform} `{!PlatformLaws}
    gs gr h first pkts wires dests xs ts k asked xr tr m ms ping nack reject asender areceiver path path' :
  one_way_link gs gr h first pkts wires ->
  up_to_date gs gr h first pkts wires dests k asked xs xr -> (m < k)%nat -> pkts !! k = Some ms ->
  session_hdr_ranges (hdr_of (own xr)) -> reorder_timeout_ms (x_global gr) = 0 ->
  (first ⊕ Z.of_nat k ∉ asked) -> ping_image gs h (first ⊕ Z.of_nat m) = Some ping ->
  (forall i, (k <= i < k + window_width gr)%nat ->
     nack_image gr (hdr_of (own xr)) (first ⊕ Z.of_nat i) = Some (nack i)) ->
  reject_image gs h (first ⊕ Z.of_nat k) = Some reject ->
  thread_recv_check_src_addr gr asender = true -> thread_recv_check_src_addr gs areceiver = true ->
  (path < POTR_MAX_PATH)%nat ->
  exists wr1 es1 x1 ws1 es2 wr2 es3 ws2 es4,
    recv_datagram ping asender path (World xr tr) = Some (tt, wr1, es1) /\
    x_cfg x1 = gr /\ x_peer_port x1 = <[path:=ep_port asender]> (x_peer_port xr) /\
    sent_datagrams es1 = concat (map (fun i => nack_datagrams x1 (nack i) 0 (x_n_path gr)) (seq k (window_width gr))) /\
    recv_datagram (nack k) areceiver path' (World xs ts) = Some (tt, ws1, es2) /\
    sent_datagrams es2 = datagrams 0 (x_n_path gs) dests reject /\
    recv_datagram reject asender path wr1 = Some (tt, wr2, es3) /\
    flush_packed (packed_of ms) ws1 = Some (tt, ws2, es4) /\
    sent_datagrams es4 = datagrams 0 (x_n_path gs) dests (default [] (wires !! k)) /\
    data_events es1 = [] /\ data_events es3 = [] /\
    forall copies, exists wr3 es5,
      for_each (replicate copies (default [] (wires !! k))) (fun w => recv_datagram w asender path) wr2
        = Some (tt, wr3, es5) /\ data_events es5 = [].
Proof.
  intros Hlink [Hsd (got & Hrv & Hgot)] Hm Hms Hh Hprompt Hnew Hping Hnack Hrej Hsrc Hsrc' Hpath.
  pose proof Hlink as [Hst Hfull Hw Hsame Hs Hr Hrole Hone Hcount]. pose proof (lookup_lt_Some _ _ _ Hms) as Hk.
  pose proof Hrv as [Hx Hcfg _ _ _ _ _ _ _ _ _]. pose proof (xo_cfg _ Hx) as Hg. rewrite Hcfg in Hg.
  pose proof (co_window _ Hg) as Hcw. set (ses := own_session (x_conn xr)).
  assert (own xr = (gr, ses)) as Hown by (unfold own, ses; by rewrite Hcfg). rewrite Hown in Hh, Hnack.
  assert (rxo gr h first pkts ([], false) ses (Transit k got) false (World xr tr)) as Hw0 by (split; [by split|done]).
  pose proof (data_wires_length _ _ _ _ _ Hw) as Hlen.
  assert (length (take k wires) = k) as Htake by (rewrite length_take; lia).
  destruct (ping_datagram_run gs gr h first pkts ([], false) ses Hst Hsame Hr Hone Hcount (Transit k got)
    (first ⊕ Z.of_nat m) (window_width gr) asender path (World xr tr) ping Hrole Hsrc Hpath)
    as ([x2 t2] & es1 & x1 & Hr1 & Hd1 & [[Hrv1 _] _] & Hport & Hcfg1 & Ha);
    [apply scans_stale; [done..|cbn; lia]|apply u32_range|done|done|].
  cbn [tr_next tr_got] in Ha. rewrite (missing_all _ _ _ Hgot) in Ha. cbn [w_ctx] in Hrv1, Hport.
  destruct (nack_datagram_run gs gr h first dests Hs Hsame xs ts _ asked (hdr_of (gr, ses)) (first ⊕ Z.of_nat k) (nack k)
    areceiver path' Hsd) as (xs1 & ts1 & es2 & Hr2 & Hs2 & Hsd1); [lia|done|done|apply u32_range|apply Hnack; unfold window_width; lia|done|].
  destruct (reject_datagram_run gs gr h first pkts wires Hlink x2 t2 (Transit k got) reject asender path Hrv1)
    as (x3 & t3 & es3 & Hr3 & Hd3 & Hpo); [done..|].
  destruct (Forall_lookup_1 _ _ _ _ (so_pkts _ _ _ _ Hst) Hms) as [Hmo Hcap].
  destruct (flush_step gs h first dests (us_not_tcp _ Hs) xs1 ts1 _ _ ms Hsd1) as (xs2 & ts2 & es4 & Hr4 & Hres);
    [split; [done|]; split; [exact (Forall_lookup_1 _ _ _ _ Hfull Hms)|done]|].
  destruct (lookup_lt_is_Some_2 wires k) as [wire Hwk]; [lia|].
  rewrite Htake, (data_wires_lookup _ _ _ _ _ _ _ (so_first _ _ _ _ Hst) Hw Hms), Hwk in Hres.
  exists (World x2 t2), es1, x1, (World xs1 ts1), es2, (World x3 t3), es3, (World xs2 ts2), es4.
  split; [exact Hr1|]. split; [exact Hcfg1|]. split; [exact Hport|].
  split; [rewrite (proj2 Ha Hprompt); f_equal; apply nack_for_map; intros i Hi%list_elem_of_In%in_seq; apply Hnack; lia|].
  split; [exact Hr2|]. split; [destruct Hs2 as [-> |[_ ?]]; [|done]|].
  { rewrite <- Htake at 2. apply nack_answer_unsent; rewrite Htake; [lia|done]. }
  split; [exact Hr3|]. split; [exact Hr4|]. rewrite Hwk. split; [apply Hres|]. split; [exact Hd1|]. split; [exact Hd3|].
  intros copies. pose proof (passed_over_copies gs gr h first pkts wires Hlink copies k _ asender path Hk Hsrc Hpath x3 t3 Hpo)
    as Hcopies. by rewrite Hwk in Hcopies.
Qed.

(** ** Example *)

Section LateExample.
#[local] Existing Instances little_host toy_platform toy_laws.

(** The receiver of the example link has got the first packet. *)
Lemma link_received_one :
  exists xr, receiving link_receiver link_hdr 0 example_packets ([], false) xr (Transit 1 [0%nat]) /\
    own xr = own link_receiver_ctx.
Proof.
  pose proof link_ok as [Hst _ Hw Hsame _ Hr Hrole Hone Hc].
  assert (rxo link_receiver link_hdr 0 example_packets ([], false) (own_session (x_conn link_receiver_ctx)) (Transit 0 [])
    false (World link_receiver_ctx 0)) as Hw0 by (split; [split; [exact link_receiving|discriminate]|reflexivity]).
  destruct (copy_run link_sender link_receiver link_hdr 0 example_packets ([], false) (own_session (x_conn link_receiver_ctx))
    Hst Hsame Hr Hone Hc link_wires Hw
    Hrole (Transit 0 []) 0 example_sender_addr 0 (World link_receiver_ctx 0))
    as (w' & es & _ & _ & _ & [[Hrv _] Ho]); [vm_compute; lia|reflexivity|unfold POTR_MAX_PATH; lia|exact Hw0|].
  exists (w_ctx w'). split; [exact Hrv|]. rewrite Ho. reflexivity.
Qed.

Definition late_ping : list Z := default [] (ping_image link_sender link_hdr 0).
Definition early_reject : list Z := default [] (reject_image link_sender link_hdr 1).

(** A PING from before the first packet arrives after it; the second packet is
    never delivered. *)
Lemma late_ping_loses_packet_witness : exists xs xr wr1 es1 ws1 es2 wr2 es3 ws2 es4,
  recv_datagram late_ping example_sender_addr 0 (World xr 0) = Some (tt, wr1, es1) /\
  recv_datagram (link_nack_for 1) example_sender_addr 0 (World xs 0) = Some (tt, ws1, es2) /\
  sent_datagrams es2 = [EvSendto 0 early_reject endpoint_clear] /\
  recv_datagram early_reject example_sender_addr 0 wr1 = Some (tt, wr2, es3) /\
  flush_packed (packed_of (default [] (example_packets !! 1%nat))) ws1 = Some (tt, ws2, es4) /\
  sent_datagrams es4 = [EvSendto 0 (link_wire 1) endpoint_clear] /\
  exists wr3 es5,
    for_each [link_wire 1; link_wire 1] (fun w => recv_datagram w example_sender_addr 0) wr2 = Some (tt, wr3, es5) /\
    data_events es5 = [].
Proof.
  destruct (link_flushed 1 ltac:(lia)) as [xs Hsd]. destruct link_received_one as (xr & Hrv & Hown). exists xs, xr.
  destruct (late_ping_loses_packet link_sender link_receiver link_hdr 0 example_packets link_wires link_dests xs 0 1 []
    xr 0 0 (default [] (example_packets !! 1%nat)) late_ping link_nack_for early_reject example_sender_addr
    example_sender_addr 0 0)
    as (wr1 & es1 & x1 & ws1 & es2 & wr2 & es3 & ws2 & es4 & Hr1 & _ & _ & _ & Hr2 & Hs2 & Hr3 & Hr4 & Hs4 & _ & _ & Hc).
  - exact link_ok.
  - split; [exact Hsd|]. exists [0%nat]. split; [exact Hrv|]. intros i Hi. apply list_elem_of_singleton in Hi. lia.
  - lia.
  - vm_compute. reflexivity.
  - rewrite Hown. split; (split; [vm_compute; discriminate|vm_compute; reflexivity]).
  - reflexivity.
  - apply not_elem_of_nil.
  - vm_compute. reflexivity.
  - rewrite Hown. change (window_width link_receiver) with 2%nat. intros i Hi.
    assert (i = 1 \/ i = 2)%nat as [-> | ->] by lia; vm_compute; reflexivity.
  - vm_compute. reflexivity.
  - reflexivity.
  - reflexivity.
  - unfold POTR_MAX_PATH. lia.
  - exists wr1, es1, ws1, es2, wr2, es3, ws2, es4. split; [exact Hr1|]. split; [exact Hr2|]. split; [exact Hs2|].
    split; [exact Hr3|]. split; [exact Hr4|]. split; [exact Hs4|]. exact (Hc 2%nat).
Defined.
End LateExample.
