(* ===== verification/RawDelivery.v ===== *)
(** RAW services: no retransmission.  A receiver hands over every packet as it
    arrives; a packet that is not the next one restarts the window at its
    number. *)

From stdpp Require Import base list numbers option.
From Stdlib Require Import ZArith Lia ZifyBool.
From S2P Require Import Prelude Types Packet Window SendQueue Context PathEvent Validate.
From S2P Require Import PeerTable RecvSlot Session Fin RecvWindow HealthThread Send.
From S2P Require Import SendTurn Dispatch RecvThread Delivery UdpDelivery Retransmit Repair UdpSession.
Local Open Scope Z_scope.
Local Open Scope porter_scope.

(** The receiving end of a one-way RAW service that does not wait for packets
    out of order. *)
Record raw_receiver (gr : service_config) : Prop := {
  rr_single : x_is_multi_peer gr = false;
  rr_raw : is_raw_type (service_type (x_service gr)) = true;
  rr_role : x_role gr = POTR_ROLE_RECEIVER;
  rr_prompt : reorder_timeout_ms (x_global gr) = 0
}.

Lemma raw_not_others t : is_raw_type t = true -> is_tcp_type t = false /\ t <> POTR_TYPE_UNICAST_BIDIR.
Proof. by destruct t. Qed.

Section Raw.
Context `{CplatByteorder} `{Platform} `{!PlatformLaws}.
Context (gs gr : service_config) (h : session_hdr) (first : Z) (pkts : list (list sq_msg)).
Hypothesis Hstream : stream_ok gs h first pkts.
Hypothesis Hsame : same_service gs gr.
Hypothesis Hkind : raw_receiver gr.
Hypothesis Hcount : Z.of_nat (length pkts) + window_size_cfg (x_global gr) <= 4294967296.

#[local] Abbreviation packet_at := (stream_packet h first pkts).
#[local] Abbreviation max_len := (Z.to_nat (max_message_size (x_global gr))).
(** The stream from packet [n] on. *)
#[local] Abbreviation from n := (receiving gr h (first ⊕ Z.of_nat n) (drop n pkts)).
#[local] Abbreviation rx_from n := (rx gr h (first ⊕ Z.of_nat n) (drop n pkts)).

(** The receiver expects packet [n] and has collected [st] of a message. *)
Definition expecting (n : nat) (st : list Z * bool) (w : world) : Prop :=
  (n <= length pkts)%nat /\ from n st (w_ctx w) (Transit 0 []).

(** The receiver follows the session. *)
Definition following (x : potr_context) : Prop :=
  ctx_ok x /\ x_cfg x = gr /\ (forall k, (k < x_n_path gr)%nat -> x_sock x !! k = Some true) /\
  followed (x_conn x) = Some (pkt_session (data_packet h 0 [])).

Lemma from_following n st x s : from n st x s -> following x.
Proof. intros []. by split_and!. Qed.

(** The window restarts at packet [i], and what was collected is dropped. *)
Lemma restart_delivers i :
  (i <= length pkts)%nat ->
  delivers (fun w => following (w_ctx w))
    (raw_session_disconnect SlotCtx;; slot_recv_reset SlotCtx (first ⊕ Z.of_nat i)) []
    (fun _ => expecting i ([], false)).
Proof.
  intros Hi [x t] (Hx & Hcfg & Hso & Hses). cbn [w_ctx] in *. pose proof (xo_cfg _ Hx) as Hg. rewrite Hcfg in Hg.
  destruct (ok_recv _ _ (xo_conn _ Hx)) as ([Hd1 Hd2] & slots & Hr & _). rewrite Hcfg in Hd1, Hd2.
  destruct (recv_reset_spec _ _ (first ⊕ Z.of_nat i) Hr (u32_range _)) as (Hb & _ & _ & Hr').
  assert (good gr SlotCtx (World x t)) as Hgood by (split; [by split|by eexists]).
  assert (keeps (good gr SlotCtx) (raw_session_disconnect SlotCtx;; slot_recv_reset SlotCtx (first ⊕ Z.of_nat i))) as Hk.
  { apply keeps_bind; [apply keeps_raw_disconnect|intros _; apply keeps_slot_reset; apply u32_range]. }
  destruct (Hk _ Hgood) as ([] & w' & es & Hrun & Hgood'). exists tt, w', es. split; [done|]. revert Hrun.
  destruct (clear_ping_states_run x t Hx) as (ch & l & _ & Hc). unfold raw_session_disconnect.
  rewrite bind_assoc, (bind_run_nil _ _ _ _ _ Hc). set (x1 := set_x_conn x _).
  destruct (sync_and_emit_run SlotCtx potr_internal_zero_path_states (World x1 t) (x_conn x1) eq_refl)
    as (id & h' & _ & _ & Hs). unfold thread_recv_disconnect_service_all_paths.
  rewrite bind_assoc, (bind_run _ _ _ _ _ _ Hs). set (x2 := with_conn _ _ _). cbn [w_tick].
  rewrite (modify_conn_bind x2 SlotCtx (x_conn x2) _ _ _ eq_refl). unfold slot_recv_reset.
  set (x3 := with_conn x2 _ _). rewrite (modify_conn_run x3 SlotCtx (x_conn x3) _ _ eq_refl).
  intros [= <- <-]. rewrite app_nil_r. split; [destruct (x_callback _); [apply path_events_no_data|done]|].
  split; [done|]. cbn [w_ctx]. split; try done.
  - apply Hgood'.
  - cbn. rewrite Hb. by rewrite u32_add_l, Z.add_0_r.
  - cbn [tr_next tr_got]. rewrite empty_slots by (by intros j Hj%not_elem_of_nil).
    unfold window_width. rewrite Hd1 in Hr'. exact Hr'.
  - intros Ht. by destruct (raw_not_others _ (rr_raw _ Hkind)).
  - cbn. lia.
  - by intros j Hj%not_elem_of_nil.
Qed.

(** Packet [i] has been handed over. *)
Lemma from_next i st x :
  (i < length pkts)%nat -> from i st x (Transit 1 [0%nat]) ->
  from (S i) (fst (reassembled gr (drop i pkts) st 1)) x (Transit 0 []).
Proof.
  intros Hi [Hx Hcfg Hso Hses Hb Hw Hal Hf Hfr Hn Hg]. split; try done.
  - cbn [tr_next] in *. rewrite Hb, !u32_add_l. f_equal. lia.
  - cbn [tr_next tr_got] in *. rewrite empty_slots in Hw by (intros j Hj%list_elem_of_singleton; lia).
    by rewrite empty_slots by (by intros j Hj%not_elem_of_nil).
  - cbn. lia.
  - by intros j Hj%not_elem_of_nil.
Qed.

(** The reaction to what follows in the window: there is nothing to ask for. *)
Lemma delivers_raw_react i st s up :
  delivers (rx_from i st s up)
    (n ← slot_needs_nack SlotCtx;
     match n with
     | None => modify_conn SlotCtx (fun c => set_reorder_pending c false)
     | Some nack_num => mret tt
     end) [] (fun _ => rx_from i st s up).
Proof.
  intros w Hw. pose proof (fine_cfg_ok _ _ (good_fine _ _ _ (receiving_good _ _ _ _ _ _ _ _ Hw))) as Hg.
  revert w Hw. apply delivers_hush; [|intros v; hushed].
  eapply keeps_bind_yields; [by apply yields_needs_nack|]. intros [n|] Hn; [apply keeps_ret|].
  apply keeps_modify_conn. intros c Hc. conn_solve.
Qed.

(** What follows the reaction to a gap, with packet [i] at the head of the
    window. *)
Lemma delivers_raw_pushed P i st path :
  (i < length pkts)%nat -> (path < POTR_MAX_PATH)%nat -> (forall w, P w -> x_cfg (w_ctx w) = gr /\ ctx_ok (w_ctx w)) ->
  delivers P (outer_gap SlotCtx (packet_at i) true) []
    (fun go w => go = true /\ rx_from i st (Transit 0 [0%nat]) false w) ->
  delivers P (outer_pushed SlotCtx (packet_at i) path)
    (delivered gr POTR_PEER_NA (completed gr (drop i pkts) st 0 1))
    (fun _ => expecting (S i) (fst (reassembled gr (drop i pkts) st 1))).
Proof.
  intros Hi Hpath HP Hgap w0 Hw0. destruct (HP w0 Hw0) as [Hcfg Hx]. pose proof (xo_cfg _ Hx) as Hg. rewrite Hcfg in Hg.
  destruct (raw_not_others _ (rr_raw _ Hkind)) as [Htcp Hone].
  destruct (packet_at_ok gs gr h first pkts Hstream Hsame i Hg Hi) as (ms & _ & Hp & _).
  unfold outer_pushed. rewrite get_cfg_bind, Hcfg. cbv zeta. rewrite (rr_raw _ Hkind). revert w0 Hw0 Hcfg Hx.
  intros w0 Hw0 _ _. revert w0 Hw0.
  eapply delivers_before; [exact Hgap|]. intros go. apply delivers_fact. intros ->. cbn [negb].
  assert (pkt_flags (packet_at i) has POTR_FLAG_DATA = true) as -> by by rewrite Hp.
  unfold type_eqb. rewrite bool_decide_false by done. cbn [slot_is_peer negb andb when].
  eapply delivers_before; [by apply delivers_health|]. intros ?. cbv beta.
  pose proof (delivers_drain gs gr h (first ⊕ Z.of_nat i) (drop i pkts) st (stream_ok_drop _ _ _ _ i Hstream) Hsame
    (Transit 0 [0%nat])) as Hdr. cbn [tr_next tr_got] in Hdr.
  pose proof (arrive_first gr Hg) as Ha. unfold arrive in Ha. cbn [tr_next tr_got] in Ha.
  destruct (_ && _) in Ha; [|done]. injection Ha as Ha. rewrite Ha in Hdr.
  eapply delivers_after; [exact Hdr|]. intros live. apply delivers_fact. intros ->. cbn [negb].
  eapply delivers_conseq; [apply delivers_raw_react|done|]. intros _ w [Hrv _]. split; [lia|]. by apply from_next.
Qed.

(** Packet [i] is put at the head of a window that expects it. *)
Lemma delivers_raw_push i st :
  (i < length pkts)%nat ->
  delivers (expecting i st) (slot_recv_push SlotCtx (packet_at i)) []
    (fun rc w => rc = POTR_OK /\ rx_from i st (Transit 0 [0%nat]) false w).
Proof.
  intros Hi w [_ Hrv]. assert (rx_from i st (Transit 0 []) false w) as Hw by by split.
  pose proof (xo_cfg _ (rv_ok _ _ _ _ _ _ _ Hrv)) as Hg. rewrite (rv_cfg _ _ _ _ _ _ _ Hrv) in Hg.
  pose proof (delivers_push gs gr h (first ⊕ Z.of_nat i) (drop i pkts) st (stream_ok_drop _ _ _ _ i Hstream) Hsame) as Hpush.
  specialize (Hpush ltac:(rewrite length_drop; lia) (Transit 0 []) false 0%nat ltac:(rewrite length_drop; lia) w Hw).
  rewrite stream_packet_drop in Hpush. destruct Hpush as (rc & w' & es & Hr & Hd & Hq). exists rc, w', es. split; [done|].
  split; [done|]. unfold in_reach in Hq. pose proof (co_window _ Hg) as Hcw. cbn [tr_next] in Hq.
  rewrite (proj2 (Nat.ltb_lt _ _)) in Hq by (unfold window_width; lia). exact Hq.
Qed.

(** Nothing is missing before the head of the window. *)
Lemma delivers_raw_gap i st :
  delivers (rx_from i st (Transit 0 [0%nat]) false) (outer_gap SlotCtx (packet_at i) true) []
    (fun go w => go = true /\ rx_from i st (Transit 0 [0%nat]) false w).
Proof.
  intros w Hw. unfold outer_gap.
  rewrite (bind_run_nil _ _ _ _ _ (needs_nack_stream gr h _ _ st (Transit 0 [0%nat]) false w Hw)).
  revert w Hw.
  apply (delivers_before _ _ (fun _ => rx_from i st (Transit 0 [0%nat]) false)); [|intros _; by apply delivers_ret].
  apply delivers_hush; [apply keeps_modify_conn; intros c Hc; conn_solve|intros v; hushed].
Qed.

(** A window in which a later packet waits and the next one is missing. *)
Definition skips (w : world) : Prop :=
  following (w_ctx w) /\
  exists n, window_recv_needs_nack (c_recv_window (x_conn (w_ctx w))) = Some (Some n).

Lemma skips_needs_nack W ws k c :
  (0 < k < ws)%nat -> recv_repr W (spec_recv_push (replicate ws None) k c) -> window_recv_needs_nack W = Some (Some (win_next_seq W)).
Proof.
  intros Hk Hr. unfold spec_recv_push in Hr. rewrite lookup_replicate_2 in Hr by lia.
  destruct ws as [|ws]; [lia|]. destruct k as [|k]; [lia|]. cbn [replicate] in Hr.
  change (<[S k:=Some c]> (None :: replicate ws None)) with (None :: <[k:=Some c]> (replicate ws (@None (potr_packet (list Z))))) in Hr.
  rewrite (needs_nack_spec _ _ _ Hr). cbn [slot_full negb andb].
  replace (existsb slot_full (<[k:=Some c]> (replicate ws None))) with true; [done|]. symmetry. apply existsb_exists.
  exists (Some c). split; [|done]. apply list_elem_of_In, (list_elem_of_lookup_2 _ k), list_lookup_insert_eq.
  rewrite length_replicate. lia.
Qed.

(** A packet that is not the next one waits behind a gap or is out of the
    window. *)
Lemma delivers_raw_foreign n st i :
  i <> n -> (i < length pkts)%nat ->
  delivers (expecting n st) (slot_recv_push SlotCtx (packet_at i)) []
    (fun rc w => (rc = POTR_OK /\ skips w) \/ (rc = POTR_ERR_OUT_OF_WINDOW /\ following (w_ctx w))).
Proof.
  intros Hne Hi [x t] [Hn Hrv]. cbn [w_ctx] in Hrv. pose proof Hrv as [Hx Hcfg Hso Hses Hb Hwin _ _ _ _ _].
  pose proof (xo_cfg _ Hx) as Hg. rewrite Hcfg in Hg. pose proof (co_window _ Hg) as Hcw.
  destruct (packet_at_ok gs gr h first pkts Hstream Hsame i Hg Hi) as (ms & _ & Hp & Hpk & Hsto & _).
  pose proof (ok_recv _ _ (xo_conn _ Hx)) as ([Hd1 Hd2] & _). rewrite Hcfg in Hd1, Hd2.
  destruct (recv_push_spec _ _ (packet_at i) Hwin) as (rc & W' & Hr & _ & Hres);
    [by rewrite Hd2|rewrite Hp; apply u32_range|].
  assert (good gr SlotCtx (World x t)) as Hgood by (split; [by split|by eexists]).
  assert (keeps (good gr SlotCtx) (slot_recv_push SlotCtx (packet_at i))) as Hkeep by by apply keeps_slot_push.
  destruct (Hkeep _ Hgood) as (rc' & w' & es & Hrun & [[Hx' Hcfg'] _]).
  exists rc', w', es. split; [done|]. revert Hrun. unfold slot_recv_push.
  rewrite (get_conn_bind x SlotCtx _ _ _ eq_refl), (lift_bind _ _ _ _ Hr), (put_conn_bind x SlotCtx _ _ _ _ eq_refl).
  intros [= <- <- <-]. split; [done|]. cbn [with_conn w_ctx] in *.
  assert (following (set_x_conn x (set_recv_window (x_conn x) W'))) as Hfo by by split_and!.
  replace (pkt_seq_num (packet_at i)) with (first ⊕ Z.of_nat i) in Hres by by rewrite Hp.
  revert Hres. rewrite Hb, Hd1. cbn [tr_next tr_got]. rewrite empty_slots by (by intros j Hj%not_elem_of_nil).
  rewrite u32_add_l, u32_sub_l, u32_sub_r.
  replace (first + Z.of_nat i - (first + Z.of_nat n + Z.of_nat 0)) with (Z.of_nat i - Z.of_nat n) by lia.
  set (k := u32 (Z.of_nat i - Z.of_nat n)). pose proof (u32_range (Z.of_nat i - Z.of_nat n)) as Hk. fold k in Hk.
  destruct (Z.ltb_spec k (window_size_cfg (x_global gr))) as [Hlt|_]; [|intros [-> ->]; by right]. intros [-> Hr'].
  left. split; [done|]. split; [done|]. eexists. eapply (skips_needs_nack _ (window_width gr) (Z.to_nat k)); [|exact Hr'].
  assert (k <> 0); [|unfold window_width; lia]. unfold k. intros Hz.
  destruct (decide (n < i)%nat); [rewrite u32_small in Hz by lia; lia|].
  assert (u32 (Z.of_nat i - Z.of_nat n) = Z.of_nat i - Z.of_nat n + 4294967296) as He by zmod. lia.
Qed.

(** The receiver drops what it waits for and restarts at the packet. *)
Lemma delivers_raw_skip i :
  (i < length pkts)%nat ->
  delivers skips (outer_gap SlotCtx (packet_at i) true) []
    (fun go w => go = true /\ rx_from i ([], false) (Transit 0 [0%nat]) false w).
Proof.
  intros Hi w [Hfo (n & Hn)]. destruct w as [x t]. cbn [w_ctx] in *. pose proof Hfo as (Hx & Hcfg & _).
  pose proof (xo_cfg _ Hx) as Hg. rewrite Hcfg in Hg.
  destruct (packet_at_ok gs gr h first pkts Hstream Hsame i Hg Hi) as (ms & _ & Hp & _).
  unfold outer_gap, slot_needs_nack. rewrite bind_assoc, (get_conn_bind x SlotCtx _ _ _ eq_refl), (lift_bind _ _ _ _ Hn).
  cbn beta iota. unfold reorder_gap_ready. rewrite bind_assoc, get_cfg_bind. cbn [w_ctx]. rewrite Hcfg. cbv zeta.
  rewrite (rr_prompt _ Hkind). cbn [Z.eqb]. rewrite ret_bind.
  assert (following (w_ctx (World x t))) as Hw by done. revert Hw. generalize (World x t). clear Hfo Hn Hx Hcfg.
  match goal with |- forall w, _ -> exists a w' es, ?m w = _ /\ _ /\ _ =>
    change (delivers (fun w => following (w_ctx w)) m []
      (fun go w => go = true /\ rx_from i ([], false) (Transit 0 [0%nat]) false w)) end.
  replace (pkt_seq_num (packet_at i)) with (first ⊕ Z.of_nat i) by by rewrite Hp.
  intros w Hw. rewrite <- bind_assoc. revert w Hw.
  eapply delivers_before; [apply restart_delivers; lia|]. intros ?. cbv beta.
  eapply delivers_before; [by apply delivers_raw_push|]. intros rc. apply delivers_fact. intros ->. by apply delivers_ret.
Qed.

(** What a receiver that expects packet [n] with [st] collected makes of packet
    [i]: its elements continue what was collected only if it is the next. *)
Definition raw_reasm (n : nat) (st : list Z * bool) (i : nat) : (list Z * bool) * list (list Z * bool) :=
  reasm_all max_len (if (i =? n)%nat then st else ([], false)) (map msg_elem (default [] (pkts !! i))).

Lemma raw_completed i st :
  (i < length pkts)%nat ->
  reasm_all max_len st (map msg_elem (default [] (pkts !! i)))
  = (fst (reassembled gr (drop i pkts) st 1), completed gr (drop i pkts) st 0 1).
Proof.
  intros Hi. destruct (lookup_lt_is_Some_2 pkts i Hi) as [ms Hms]. rewrite Hms. cbn [default from_option id].
  rewrite (completed_first gr (drop i pkts) st ms) by by rewrite lookup_drop, Nat.add_0_r.
  unfold reassembled, first_elems. rewrite (drop_S _ _ _ Hms). cbn [take concat]. rewrite take_0, app_nil_r.
  by destruct (reasm_all _ _ _).
Qed.

Lemma delivers_raw_accept n st i path :
  (i < length pkts)%nat -> (path < POTR_MAX_PATH)%nat ->
  delivers (expecting n st) (thread_recv_window_accept_outer SlotCtx (packet_at i) path)
    (delivered gr POTR_PEER_NA (snd (raw_reasm n st i))) (fun _ => expecting (S i) (fst (raw_reasm n st i))).
Proof.
  intros Hi Hpath w Hw. pose proof (proj2 Hw) as Hrv. pose proof (rv_ok _ _ _ _ _ _ _ Hrv) as Hx.
  pose proof (rv_cfg _ _ _ _ _ _ _ Hrv) as Hcfg. pose proof (xo_cfg _ Hx) as Hg. rewrite Hcfg in Hg.
  destruct (packet_at_ok gs gr h first pkts Hstream Hsame i Hg Hi) as (ms & _ & Hp & _).
  unfold thread_recv_window_accept_outer. rewrite get_cfg_bind, Hcfg, (rr_raw _ Hkind). clear Hx Hcfg Hrv. revert w Hw.
  unfold raw_reasm. rewrite (raw_completed i _ Hi). cbn [fst snd]. destruct (Nat.eqb_spec i n) as [->|Hne].
  - eapply delivers_before; [by apply delivers_raw_push|]. intros rc. apply delivers_fact. intros ->. cbn [Z.eqb POTR_OK].
    apply delivers_raw_pushed; [done|done|intros w [[? ?] _]; done|apply delivers_raw_gap].
  - eapply delivers_before; [by apply delivers_raw_foreign|]. intros rc w [[-> Hs]|[-> Hfo]]; cbn [Z.eqb POTR_OK POTR_ERR_OUT_OF_WINDOW].
    + revert w Hs. apply delivers_raw_pushed; [done|done|by intros w [(? & ? & _) _]|by apply delivers_raw_skip].
    + replace (pkt_seq_num (packet_at i)) with (first ⊕ Z.of_nat i) by by rewrite Hp.
      rewrite <- bind_assoc. revert w Hfo. eapply delivers_before; [apply restart_delivers; lia|]. intros ?. cbv beta.
      eapply delivers_before; [by apply delivers_raw_push|]. intros rc. apply delivers_fact. intros ->. cbn [Z.eqb POTR_OK].
      apply delivers_raw_pushed; [done|done|intros w [[? ?] _]; done|apply delivers_raw_gap].
Qed.

(** *** Turns of the receive thread *)

(** The packets [l] arrive, in this order. *)
Fixpoint raw_all (n : nat) (st : list Z * bool) (l : list nat) : (nat * (list Z * bool)) * list (list Z * bool) :=
  match l with
  | [] => ((n, st), [])
  | i :: l =>
      let '(st1, msgs) := raw_reasm n st i in
      let '(c, rest) := raw_all (S i) st1 l in (c, msgs ++ rest)
  end.

Lemma raw_all_app n st l l' :
  raw_all n st (l ++ l') =
  let '((n1, st1), msgs) := raw_all n st l in let '(c, rest) := raw_all n1 st1 l' in (c, msgs ++ rest).
Proof.
  revert n st. induction l as [|i l IH]; intros n st; cbn [app raw_all].
  - by destruct (raw_all n st l').
  - destruct (raw_reasm n st i) as [st1 m1]. rewrite IH. destruct (raw_all (S i) st1 l) as [[n2 st2] m2].
    destruct (raw_all n2 st2 l') as [c m3]. by rewrite app_assoc.
Qed.

Definition raw_taken {A} (m : M A) (l : list nat) : Prop := forall n st,
  delivers (expecting n st) m (delivered gr POTR_PEER_NA (snd (raw_all n st l)))
    (fun _ => expecting (fst (raw_all n st l)).1 (fst (raw_all n st l)).2).

Lemma raw_taken_bind {A B} (m : M A) (k : A -> M B) l l' :
  raw_taken m l -> (forall a, raw_taken (k a) l') -> raw_taken (m ≫= k) (l ++ l').
Proof.
  intros Hm Hk n st. rewrite raw_all_app. specialize (Hm n st). destruct (raw_all n st l) as [[n1 st1] m1].
  cbn [fst snd] in Hm. destruct (raw_all n1 st1 l') as [c m2] eqn:Hl'. cbn [fst snd]. rewrite delivered_app.
  eapply delivers_bind; [exact Hm|]. intros a. specialize (Hk a n1 st1). by rewrite Hl' in Hk.
Qed.

Lemma raw_taken_ret {A} (a : A) : raw_taken (mret a) [].
Proof. intros n st. by apply delivers_ret. Qed.

Context (wires : list (list Z)).
Hypothesis Hwires : data_wires gs h first pkts = Some wires.

(** A copy of packet [i] is taken from the network. *)
Lemma raw_taken_copy i sender path :
  (i < length pkts)%nat -> thread_recv_check_src_addr gr sender = true -> (path < POTR_MAX_PATH)%nat ->
  raw_taken (recv_datagram (default [] (wires !! i)) sender path) [i].
Proof.
  intros Hi Hsrc Hpath n st w Hw. pose proof (proj2 Hw) as Hrv. pose proof (rv_ok _ _ _ _ _ _ _ Hrv) as Hx.
  pose proof (rv_cfg _ _ _ _ _ _ _ Hrv) as Hcfg. pose proof (xo_cfg _ Hx) as Hg. rewrite Hcfg in Hg.
  destruct (packet_at_ok gs gr h first pkts Hstream Hsame i Hg Hi) as (ms & Hms & Hp & Hpk & _).
  pose proof Hstream as [Hgs Hh Hsid Hf Hall]. destruct (Forall_lookup_1 _ _ _ _ Hall Hms) as [_ Hl].
  destruct (data_image_accepted gs gr h (first ⊕ Z.of_nat i) (packed_of ms) _ blank_packet Hgs Hg Hsame Hh
    (u32_range _) Hl (data_wires_lookup _ _ _ _ _ _ _ Hf Hwires Hms)) as (_ & q & Hparse & Hq & Hauth).
  unfold recv_datagram. rewrite get_cfg_bind, Hcfg, (lift_bind _ _ _ _ Hparse). cbn beta iota.
  rewrite Hq, Hsid, (same_id _ _ Hsame), !Z.eqb_refl, Hsrc, (rr_single _ Hkind). cbn [Z.eqb POTR_OK negb].
  rewrite (lift_bind _ _ _ _ Hauth). cbn beta iota. rewrite <- Hp. cbn [Z.eqb POTR_OK negb].
  unfold role_eqb. rewrite (rr_role _ Hkind), bool_decide_false by done. rewrite ret_bind.
  rewrite dispatch_data by by rewrite Hp. clear Hx Hcfg Hrv. revert w Hw. cbn [raw_all].
  destruct (raw_reasm n st i) as [st1 m1] eqn:Hre. cbn [fst snd]. rewrite app_nil_r.
  apply (delivers_after _ _ (fun _ => expecting (S i) st1)); [|intros ?; by apply delivers_ret].
  apply (delivers_before _ _ (fun b w => b = true /\ expecting n st w)).
  { intros [x t] [Hn Hrv]. cbn [w_ctx] in Hrv. pose proof Hrv as [Hx Hcfg _ Hses _].
    destruct (adopt_same x t SlotCtx (x_conn x) (packet_at i) Hx eq_refl (pk_ranges _ _ Hpk)) as [t' Hr];
      [by rewrite Hses, Hp|]. exists true, (World x t'), []. split; [done|]. split; [done|]. split; [done|]. by split. }
  intros b. apply delivers_fact. intros ->. cbn [negb]. unfold thread_recv_slot_init_ctx.
  apply (delivers_before _ _ (fun _ => expecting n st)).
  { intros w [Hn Hrv]. destruct (delivers_hush gr h (first ⊕ Z.of_nat n) (drop n pkts) st (Transit 0 []) false
      (thread_recv_learn_sender_path SlotCtx path sender)) with (w := w) as (a & w' & es & Hr & Hd & [Hrv' _]);
      [by apply keeps_learn_sender_path|intros v; apply hush_learn|by split|].
    exists a, w', es. split; [done|]. split; [done|]. by split. }
  intros _. pose proof (delivers_raw_accept n st i path Hi Hpath) as Hacc. rewrite Hre in Hacc. cbn [fst snd] in Hacc.
  eapply delivers_after; [exact Hacc|]. intros ?. by apply delivers_ret.
Qed.

Lemma raw_taken_path f path :
  fed_ok gr pkts f -> (path < POTR_MAX_PATH)%nat ->
  raw_taken (match fed_input wires f with Datagram buf sender => when true (recv_datagram buf sender path) | _ => mret tt end)
    (option_list (copy_of f)).
Proof.
  intros Hf Hpath. destruct f as [| |i sender|buf sender]; cbn [fed_input copy_of option_list fed_ok] in *;
    try apply raw_taken_ret.
  - destruct Hf as [Hi Hsrc]. by apply raw_taken_copy.
  - intros n st [x t] Hw. pose proof (rv_cfg _ _ _ _ _ _ _ (proj2 Hw)) as Hcfg. cbn [w_ctx] in Hcfg.
    exists tt, (World x t), []. split; [|done]. cbn [when]. apply recv_refused; rewrite Hcfg; [apply Hkind|done].
Qed.

Lemma raw_taken_paths turn n k :
  cfg_ok gr -> Forall (fed_ok gr pkts) turn -> (k + n <= x_n_path gr)%nat -> (x_n_path gr <= length turn)%nat ->
  raw_taken (for_range k n (fun k =>
      v ← sock_valid k;
      inp ← lift (map (fed_input wires) turn !! k);
      match inp with
      | Datagram buf sender => when v (recv_datagram buf sender k)
      | _ => mret tt
      end)) (omap copy_of (take n (drop k turn))).
Proof.
  intros Hg Hf. revert k. induction n as [|n IH]; intros k Hk Hl; [rewrite take_0; apply raw_taken_ret|].
  destruct (lookup_lt_is_Some_2 turn k) as [f Hfk]; [lia|]. cbn [for_range].
  assert (omap copy_of (take (S n) (drop k turn))
    = option_list (copy_of f) ++ omap copy_of (take n (drop (S k) turn))) as ->.
  { rewrite (drop_S _ _ _ Hfk). cbn [take omap list_omap]. by destruct (copy_of f). }
  apply raw_taken_bind; [|intros _; apply IH; lia]. pose proof (co_n_path _ Hg) as Hn.
  pose proof (raw_taken_path f k (Forall_lookup_1 _ _ _ _ Hf Hfk) ltac:(lia)) as Hpath.
  intros m st w Hw. pose proof (rv_sock _ _ _ _ _ _ _ (proj2 Hw) k ltac:(lia)) as Hso.
  destruct (Hpath m st w Hw) as (a & w' & es & Hr & Hrest). exists a, w', es. split; [|exact Hrest].
  unfold sock_valid. rewrite bind_assoc, get_ctx_bind, (lift_bind _ _ _ _ Hso).
  assert (map (fed_input wires) turn !! k = Some (fed_input wires f)) as Hin by by rewrite list_lookup_fmap, Hfk.
  rewrite (lift_bind _ _ _ _ Hin). exact Hr.
Qed.

Lemma raw_taken_idle : x_health_timeout_ms gr = 0 -> raw_taken recv_idle [].
Proof.
  intros Ht n st [x t] Hw. pose proof (rv_cfg _ _ _ _ _ _ _ (proj2 Hw)) as Hcfg. cbn [w_ctx] in Hcfg.
  exists tt, (World x t), []. split; [|done]. unfold recv_idle. rewrite get_cfg_bind. cbn [w_ctx].
  rewrite Hcfg, (rr_single _ Hkind). unfold role_eqb. rewrite (rr_role _ Hkind), bool_decide_true by done. cbn [orb].
  unfold thread_recv_health_check_service. rewrite bind_assoc, get_cfg_bind. cbn [w_ctx]. rewrite Hcfg, Ht. cbn [Z.eqb].
  rewrite ret_bind. by rewrite (rr_prompt _ Hkind).
Qed.

Lemma raw_taken_turn turn :
  cfg_ok gr -> turn_ok gr pkts wires turn -> raw_taken (recv_thread_turn (map (fed_input wires) turn)) (copies gr turn).
Proof.
  intros Hg (Hl & Hf & Hbusy) n st w Hw. pose proof (rv_cfg _ _ _ _ _ _ _ (proj2 Hw)) as Hcfg.
  unfold recv_thread_turn. rewrite get_cfg_bind, Hcfg. destruct (existsb _ _) eqn:Hex.
  - pose proof (raw_taken_paths turn (x_n_path gr) 0 Hg Hf ltac:(lia) Hl) as Hp. rewrite drop_0 in Hp. by apply Hp.
  - destruct Hbusy as [?|Ht]; [congruence|]. rewrite (idle_no_copies gr wires turn Hex). by apply raw_taken_idle.
Qed.

Lemma raw_taken_run turns :
  cfg_ok gr -> Forall (turn_ok gr pkts wires) turns ->
  raw_taken (recv_thread_run (map (map (fed_input wires)) turns)) (concat (map (copies gr) turns)).
Proof.
  intros Hg Ht. induction Ht as [|turn turns H1t _ IH]; cbn [map recv_thread_run concat]; [apply raw_taken_ret|].
  apply raw_taken_bind; [by apply raw_taken_turn|]. intros _. exact IH.
Qed.
End Raw.

(** The messages that the elements of a packet complete on their own. *)
Definition own_messages (gr : service_config) (p : list sq_msg) : list (list Z * bool) :=
  snd (reasm_all (Z.to_nat (max_message_size (x_global gr))) ([], false) (map msg_elem p)).

(** No message of the packet continues in the next one. *)
Definition whole_packet (gr : service_config) (p : list sq_msg) : Prop :=
  fst (reasm_all (Z.to_nat (max_message_size (x_global gr))) ([], false) (map msg_elem p)) = ([], false).

Lemma raw_all_whole gr pkts n l :
  Forall (whole_packet gr) pkts ->
  snd (raw_all gr pkts n ([], false) l) = concat (map (fun i => own_messages gr (default [] (pkts !! i))) l).
Proof.
  intros Hwhole. revert n. induction l as [|i l IH]; intros n; cbn [raw_all map concat]; [done|].
  unfold raw_reasm. replace (if (i =? n)%nat then ([], false) else ([], false)) with (@nil Z, false) by by destruct (i =? n)%nat.
  assert (whole_packet gr (default [] (pkts !! i))) as Hi.
  { destruct (pkts !! i) as [p|] eqn:Hp; [by apply (Forall_lookup_1 _ _ _ _ Hwhole Hp)|done]. }
  unfold whole_packet in Hi. unfold own_messages at 1. destruct (reasm_all _ _ _) as [st1 m1]. cbn [fst snd] in *. subst st1.
  specialize (IH (S i)). destruct (raw_all gr pkts (S i) _ l) as [c rest]. cbn [snd] in *. by rewrite IH.
Qed.

(** C8. A RAW receiver hands over what arrives, as it arrives.  The data packets
    of a sender reach the receiver of a one-way RAW service with
    [reorder_timeout_ms] 0 on any of its paths, in any order, each any number of
    times or never, mixed with datagrams that are refused and failed reads.  The
    receive thread makes exactly the DATA callbacks of [raw_all]: a packet that
    is not the one after the last to arrive drops the fragments collected and
    starts afresh.  When no message spans two packets, every arrival delivers
    the messages of its packet: in the order of arrival, not the order of
    sending, and once more for every copy that arrives. *)
Theorem raw_arrivals_delivered `{CplatByteorder} `{Platform} `{!PlatformLaws} gs h first pkts wires x t turns :
  let gr := x_cfg x in
  let arrivals := concat (map (copies gr) turns) in
  stream_ok gs h first pkts -> same_service gs gr -> raw_receiver gr ->
  Z.of_nat (length pkts) + window_size_cfg (x_global gr) <= 4294967296 ->
  data_wires gs h first pkts = Some wires ->
  receiving gr h first pkts ([], false) x (Transit 0 []) -> Forall (turn_ok gr pkts wires) turns ->
  exists x' t' es, recv_thread_run (map (map (fed_input wires)) turns) (World x t) = Some (tt, World x' t', es) /\
    data_events es = delivered gr POTR_PEER_NA (snd (raw_all gr pkts 0 ([], false) arrivals)) /\
    (Forall (whole_packet gr) pkts ->
     data_events es
     = delivered gr POTR_PEER_NA (concat (map (fun i => own_messages gr (default [] (pkts !! i))) arrivals))).
Proof.
  intros gr arrivals Hstream Hsame Hkind Hcount Hw Hrv Hturns.
  pose proof (rv_ok _ _ _ _ _ _ _ Hrv) as Hx. pose proof (xo_cfg _ Hx) as Hg. pose proof Hstream as [_ _ _ Hf _].
  destruct (raw_taken_run gs gr h first pkts Hstream Hsame Hkind Hcount wires Hw turns Hg Hturns 0%nat ([], false) (World x t))
    as (a & [x' t'] & es & Hr & Hd & _).
  { split; [lia|]. cbn [w_ctx]. rewrite Z.add_0_r, (u32_small first) by done. by rewrite drop_0. }
  destruct a. exists x', t', es. split; [done|]. split; [done|]. intros Hwhole.
  by rewrite Hd, (raw_all_whole gr pkts 0 _ Hwhole).
Qed.

(** ** Examples *)

Section RawExample.
#[local] Existing Instances little_host toy_platform toy_laws.

Definition raw_config : service_config :=
  ServiceConfig true (example_service POTR_TYPE_UNICAST_RAW true) (GlobalConfig 2 64 0 100 4 0 300 0 300 1000) 1000 300
    POTR_ROLE_RECEIVER 1 false 2 (replicate 4 0) (replicate 4 0) 200 80.
Definition raw_ctx : potr_context := set_x_cfg (connected_ctx POTR_TYPE_UNICAST_RAW true) raw_config.
Definition raw_hdr : session_hdr := own_session_hdr raw_config example_sender.
Definition raw_packets : list (list sq_msg) := one_each [(0, 0, [1; 2; 3]); (0, 0, [4; 5])].
Definition raw_wires : list (list Z) := default [] (data_wires raw_config raw_hdr 0 raw_packets).
(** The second packet overtakes the first, which comes twice. *)
Definition raw_feed : list (list fed) :=
  [[Copy 1 example_sender_addr]; [Copy 0 example_sender_addr]; [Copy 0 example_sender_addr]].

Lemma raw_cfg_ok : cfg_ok raw_config.
Proof. split; unfold POTR_MAX_WINDOW_SIZE, POTR_MAX_PAYLOAD, POTR_MAX_PATH; first [reflexivity | simpl; lia]. Qed.

Lemma raw_conn_ok c : conn_ok (example_config POTR_TYPE_UNICAST_RAW true) c -> conn_ok raw_config c.
Proof. intros [[[] ?] [[] ?] []]. split; try done; split; try done; by split. Qed.

Lemma raw_ctx_ok : ctx_ok raw_ctx.
Proof.
  destruct (connected_ctx_ok POTR_TYPE_UNICAST_RAW true) as [Hg Hc H3 H4 H5 H6 H7 Hp]. split; try done.
  - apply raw_cfg_ok.
  - by apply raw_conn_ok.
  - destruct Hp. split; try done. intros i p Hi Ha. destruct (pt_ok i p Hi Ha). split; [by apply raw_conn_ok|done].
Qed.

Lemma raw_receiving : receiving raw_config raw_hdr 0 raw_packets ([], false) raw_ctx (Transit 0 []).
Proof. destruct (connected_receiving POTR_TYPE_UNICAST_RAW true raw_packets). split; try done. apply raw_ctx_ok. Qed.

Lemma raw_stream_ok : stream_ok raw_config raw_hdr 0 raw_packets.
Proof.
  split; [apply raw_cfg_ok|split; (split; [vm_compute; discriminate | vm_compute; reflexivity])|reflexivity|lia|].
  assert (Z.to_nat (max_chunk raw_config) = 42%nat) as Hc by (vm_compute; reflexivity).
  assert (pack_cap raw_config = 48%nat) as Hp by (vm_compute; reflexivity).
  repeat (apply Forall_cons_2; [split; [|rewrite Hp; apply Nat.leb_le; vm_compute; reflexivity]|]); [..|apply Forall_nil_2];
    (apply Forall_cons_2; [|apply Forall_nil_2]); (split; [lia|]);
    (split; [rewrite Hc; cbn; lia|by apply forallb_is_byte]).
Qed.

Lemma raw_feed_ok : Forall (turn_ok raw_config raw_packets raw_wires) raw_feed.
Proof.
  assert (length raw_packets = 2%nat) as Hl by reflexivity.
  repeat (apply Forall_cons_2; [split; [exact (le_n 1)|split; [|by left]]|]); [..|apply Forall_nil_2];
    (apply Forall_cons_2; [|apply Forall_nil_2]); cbn [fed_ok]; rewrite Hl; (split; [lia|reflexivity]).
Qed.

Lemma raw_arrivals_delivered_witness :
  exists x' t' es, recv_thread_run (map (map (fed_input raw_wires)) raw_feed) (World raw_ctx 0)
      = Some (tt, World x' t', es) /\
    data_events es = [EvCallback POTR_PEER_NA POTR_EVENT_DATA (CbBytes [4; 5]);
                      EvCallback POTR_PEER_NA POTR_EVENT_DATA (CbBytes [1; 2; 3]);
                      EvCallback POTR_PEER_NA POTR_EVENT_DATA (CbBytes [1; 2; 3])].
Proof.
  destruct (raw_arrivals_delivered raw_config raw_hdr 0 raw_packets raw_wires raw_ctx 0 raw_feed)
    as (x' & t' & es & Hrun & _ & Hd).
  - exact raw_stream_ok.
  - by split.
  - by split.
  - vm_compute. discriminate.
  - vm_compute. reflexivity.
  - exact raw_receiving.
  - exact raw_feed_ok.
  - exists x', t', es. split; [exact Hrun|]. rewrite Hd by (repeat constructor). vm_compute. reflexivity.
Defined.
End RawExample.
