(* ===== verification/Connect.v ===== *)
(** TCP connections: [potr_connect_thread.c], [thread_connect_prepare.c] and
    [potr_connected_threads.c].  One connect thread per path opens or accepts
    connections; the threads share the counter of active paths, the accepted
    session and the connection state. *)

From stdpp Require Import base list numbers option relations.
From Stdlib Require Import ZArith Lia ZifyBool.
From S2P Require Import Prelude Types Packet Window Context PathEvent Validate PeerTable.
From S2P Require Import Threads RecvSlot Session Fin RecvWindow HealthThread Dispatch RecvThread Frame.
Local Open Scope Z_scope.
Local Open Scope porter_scope.

Inductive tcp_session := TCP_SESSION_NEW | TCP_SESSION_SAME | TCP_SESSION_OLD.

Definition set_active_paths (l : tcp_link_state) (n : Z) : tcp_link_state :=
  TcpLinkState n (close_requested l) (tcp_accepted_session_known l) (tcp_accepted_session_id l)
    (tcp_accepted_session_ts l).
Definition set_close_requested (l : tcp_link_state) (b : bool) : tcp_link_state :=
  TcpLinkState (tcp_active_paths l) b (tcp_accepted_session_known l) (tcp_accepted_session_id l)
    (tcp_accepted_session_ts l).
Definition set_accepted_known (l : tcp_link_state) (b : bool) : tcp_link_state :=
  TcpLinkState (tcp_active_paths l) (close_requested l) b (tcp_accepted_session_id l)
    (tcp_accepted_session_ts l).

Section Connect.
Context `{CplatByteorder} `{Platform} `{Host}.

(** ** Preparation of a connection *)

(** [cplat_socket_recv_all] of [n] bytes from what is left of the stream; a
    short stream is a failure, which never reports [CPLAT_OK]. *)
Definition recv_all (n : nat) (stream : list Z) : M (Z + list Z * list Z) :=
  match mem_read stream 0 n with
  | Some bs => mret (inr (bs, drop n stream))
  | None =>
      r ← tick socket_result;
      e ← tick error_cause;
      mret (inl (match r with
                 | CPLAT_OK | CPLAT_ERR_EOF => POTR_ERR_EOF
                 | r => potr_internal_result_from_socket_result r e
                 end))
  end.

(** The code of the failure, or the packet and what follows it in the
    stream. *)
Definition thread_connect_read_first_packet (poll : tcp_poll) (max_buf : nat) (stream : list Z)
    : M (Z + list Z * list Z) :=
  match poll with
  | TcpPollError => e ← tick error_cause; mret (inl (potr_internal_result_from_error e))
  | TcpPollIdle => mret (inl POTR_ERR_TIMEOUT)
  | TcpPollReadable =>
      h ← recv_all POTR_PACKET_HEADER_SIZE stream;
      match h with
      | inl rc => mret (inl rc)
      | inr (hdr, rest) =>
          wpl ← lift (mem_read hdr 34 2);
          let len := Z.to_nat (cplat_ntoh16 (mem_to host_endian wpl)) in
          if (max_buf <? POTR_PACKET_HEADER_SIZE + len)%nat then mret (inl POTR_ERR_PROTOCOL)
          else if (0 <? len)%nat then
            p ← recv_all len rest;
            match p with
            | inl rc => mret (inl rc)
            | inr (bs, rest) => mret (inr (hdr ++ bs, rest))
            end
          else mret (inr (hdr, rest))
      end
  end.

Definition thread_connect_session_compare (l : tcp_link_state) (pkt : packet) : tcp_session :=
  if negb (tcp_accepted_session_known l) then TCP_SESSION_NEW
  else
    let ts_cmp := cplat_timespec_cmp (pkt_session_ts pkt) (tcp_accepted_session_ts l) in
    if 0 <? ts_cmp then TCP_SESSION_NEW
    else if ts_cmp <? 0 then TCP_SESSION_OLD
    else if tcp_accepted_session_id l <? pkt_session_id pkt then TCP_SESSION_NEW
    else if pkt_session_id pkt <? tcp_accepted_session_id l then TCP_SESSION_OLD
    else TCP_SESSION_SAME.

Definition thread_connect_peer_allowed (g : service_config) (path_idx : nat) (peer_addr : endpoint)
    : option bool :=
  a ← x_src_addr_resolved g !! path_idx;
  let svc := x_service g in
  if negb (addr_is_empty (src_addr svc) path_idx) && negb (ep_address peer_addr =? a) then Some false
  else if negb (src_port svc =? 0) && negb (cplat_ntoh16 (ep_port peer_addr) =? src_port svc)
  then Some false
  else Some true.

(** The polling loop of [thread_connect_with_timeout]; [poll i] is what its
    [i]-th turn sees: the running flag, and whether the socket is writable
    ([None] when waiting fails).  [None] when the fuel runs out. *)
Fixpoint connect_poll_loop (fuel i : nat) (poll : nat -> bool * option bool)
    (timeout_ms elapsed_ms : Z) : option bool :=
  match fuel with
  | O => None
  | S fuel =>
      if negb ((elapsed_ms <? timeout_ms) && (poll i).1) then Some false
      else
        let rest := timeout_ms ⊖ elapsed_ms in
        let poll_ms := if 100 <? rest then 100 else rest in
        match (poll i).2 with
        | None => Some false
        | Some true => Some true
        | Some false => connect_poll_loop fuel (S i) poll timeout_ms (elapsed_ms ⊕ poll_ms)
        end
  end.

(** Whether a connected socket is returned, which is then still local.  Every
    turn of the loop waits at least one millisecond, so [timeout_ms + 1] turns
    are enough. *)
Definition thread_connect_with_timeout (path_idx : nat) (poll : nat -> bool * option bool) : M bool :=
  g ← get_cfg;
  let svc := x_service g in
  let failed := close_local path_idx;; mret false in
  ok ← open_local path_idx;
  if negb ok then mret false
  else
    bound ← (if negb (addr_is_empty (src_addr svc) path_idx) || negb (src_port svc =? 0)
             then tick socket_ok else mret true);
    if negb bound then failed
    else
      _ ← lift (x_dst_addr_resolved g !! path_idx);
      r ← tick socket_result;
      if connect_timeout_ms svc =? 0 then if cplat_ok r then mret true else failed
      else match r with
           | CPLAT_OK => mret true
           | CPLAT_ERR_IN_PROGRESS =>
               ready ← lift (connect_poll_loop (S (Z.to_nat (connect_timeout_ms svc))) 0 poll
                               (connect_timeout_ms svc) 0);
               if negb ready then failed
               else
                 ok ← tick socket_ok;
                 if negb ok then failed else mret true
           | _ => failed
           end.

(** ** Shared connection state *)

Definition close_tcp_conn (path_idx : nat) : M unit :=
  x ← get_ctx;
  fd ← lift (x_tcp_conn_fd x !! path_idx);
  if negb fd then mret tt
  else need (HTcpSendMutex path_idx);; set_tcp_conn_fd path_idx false.

(** A new connection is stored over an invalid socket; a valid one would be
    lost. *)
Definition publish_conn (path_idx : nat) : M unit :=
  x ← get_ctx;
  fd ← lift (x_tcp_conn_fd x !! path_idx);
  if fd : bool then fault else set_tcp_conn_fd path_idx true.

Definition sync_tcp_service_path_state_locked : M unit :=
  x ← get_ctx;
  next ← lift (potr_internal_copy_tcp_path_states x);
  prepared ← potr_internal_sync_service_path_state_locked next;
  potr_internal_emit_service_path_events_locked prepared.

Definition set_tcp_path_ping_state (path_idx : nat) (next_state : Z) : M unit :=
  c ← get_conn SlotCtx;
  s ← lift (path_ping_state (c_health c) !! path_idx);
  if s =? next_state then mret tt
  else
    put_conn SlotCtx
      (set_health c (set_ping (c_health c) (<[path_idx:=next_state]> (path_ping_state (c_health c)))));;
    potr_internal_tcp_health_thread_wake_all.

Definition join_recv_thread (path_idx : nat) : M unit :=
  x ← get_ctx;
  when (holds x (HRecvThread path_idx)) (_ ← join_thread (HRecvThread path_idx); mret tt).

Definition forget_peer_session (c : conn) : conn :=
  let ses := c_session c in
  set_fin (set_frag (set_session c (SessionState (session_id ses) (session_ts ses)
      (peer_session_id ses) false (peer_session_ts ses)))
    (FragState (frag_buf (c_frag c)) 0 false))
    (FinState false (fin_target_seq (c_fin c))).

Definition reset_connection_state : M unit := modify_conn SlotCtx forget_peer_session.

(** The send window restarts at 0, every entry invalid. *)
Definition restart_window (w : potr_internal_window) : potr_internal_window :=
  set_win_start (set_win_valid w ((fun _ => replicate (Z.to_nat (win_window_size w)) 0) <$> win_valid w)) 0.

Definition restart_conn (c : conn) : conn :=
  let c := forget_peer_session c in
  let h := c_health c in
  set_health (set_send_has_data (set_send_window c (restart_window (c_send_window c))) false)
    (HealthState false (replicate POTR_MAX_PATH false) (path_ping_state h)
       (replicate POTR_MAX_PATH 0) (last_recv_ts h) (path_last_recv_ts h)).

Definition reset_all_paths_disconnected : M unit :=
  x ← get_ctx;
  if negb (tcp_active_paths (x_tcp_link x) =? 0) then mret tt
  else
    modify_conn SlotCtx restart_conn;;
    x ← get_ctx;
    put_ctx (set_x_tcp_link x (set_accepted_known (x_tcp_link x) false)).

(** [cplat_atomic_fetch_add_i32] and [cplat_atomic_fetch_sub_i32] of 1; the
    new value. *)
Definition add_active_paths (d : Z) : M Z :=
  x ← get_ctx;
  let n := i32 (tcp_active_paths (x_tcp_link x) + d) in
  put_ctx (set_x_tcp_link x (set_active_paths (x_tcp_link x) n));;
  mret n.

Definition stamp_ping_recv (path_idx : nat) : M unit :=
  now ← tick clock_monotonic_ms;
  x ← get_ctx;
  l ← store (x_tcp_last_ping_recv_ms x) path_idx now;
  put_ctx (set_x_tcp_last_ping x l).

(** ** The threads of a connection ([potr_internal_start_connected_threads]) *)

Definition undo_start (path_idx : nat) (join started_send_thread : bool) : M unit :=
  when join (set_running path_idx false);;
  close_tcp_conn path_idx;;
  when join (join_recv_thread path_idx);;
  when started_send_thread potr_internal_send_thread_stop.

Definition start_connected_threads (path_idx : nat) : M Z :=
  x ← get_ctx;
  let g := x_cfg x in
  let sends := role_eqb (x_role g) POTR_ROLE_SENDER
               || type_eqb (service_type (x_service g)) POTR_TYPE_TCP_BIDIR in
  let starts := sends && (path_idx =? 0)%nat && negb (send_thread_running (x_rt x)) in
  result ← (if starts then potr_internal_send_thread_start else mret POTR_OK);
  if negb (result =? POTR_OK) then mret result
  else
    set_tcp_path_ping_state path_idx POTR_PING_STATE_UNDEFINED;;
    result ← potr_internal_tcp_recv_thread_start path_idx;
    if negb (result =? POTR_OK) then undo_start path_idx false starts;; mret result
    else
      result ← potr_internal_tcp_send_ping_now path_idx;
      if negb (result =? POTR_OK) then undo_start path_idx true starts;; mret result
      else
        result ← potr_internal_tcp_health_thread_start path_idx;
        if negb (result =? POTR_OK) then undo_start path_idx true starts;; mret result
        else mret POTR_OK.

Definition stop_connected_threads (path_idx : nat) : M unit :=
  close_tcp_conn path_idx;;
  _ ← potr_internal_tcp_health_thread_stop path_idx; mret tt.

(** ** The sender's loop *)

(** A connection has been made: it is counted and published. *)
Definition sender_publish (path_idx : nat) : M unit :=
  active_count ← add_active_paths 1;
  when (active_count =? 1) reset_connection_state;;
  publish_conn path_idx;;
  stamp_ping_recv path_idx.

(** The end of a connection, up to the counter. *)
Definition connection_ended (path_idx : nat) : M unit :=
  stop_connected_threads path_idx;;
  set_tcp_path_ping_state path_idx POTR_PING_STATE_UNDEFINED;;
  sync_tcp_service_path_state_locked.

(** The counter goes down; the last path resets the connection. *)
Definition leave_active_paths : M unit :=
  active_count ← add_active_paths (-1);
  when (active_count =? 0) reset_all_paths_disconnected.

(** One turn of [sender_connect_loop] up to the join of the receive thread:
    did the threads start? *)
Definition sender_connect (path_idx : nat) (poll : nat -> bool * option bool) : M bool :=
  ok ← thread_connect_with_timeout path_idx poll;
  if negb ok then mret false
  else
    sender_publish path_idx;;
    hand_over path_idx;;
    result ← start_connected_threads path_idx;
    if negb (result =? POTR_OK) then leave_active_paths;; mret false
    else mret true.

Definition sender_disconnect (path_idx : nat) : M unit :=
  join_recv_thread path_idx;; connection_ended path_idx;; leave_active_paths.

(** ** The receiver's loop *)

(** The other connections are told to end. *)
Definition drop_other_conns (path_idx : nat) : M unit :=
  g ← get_cfg;
  for_range 0 (x_n_path g) (fun k =>
    if (k =? path_idx)%nat then mret tt
    else
      x ← get_ctx;
      fd ← lift (x_tcp_conn_fd x !! k);
      when fd (set_running k false;; close_tcp_conn k)).

Definition follow_session (pkt : packet) : M unit :=
  x ← get_ctx;
  let l := x_tcp_link x in
  put_ctx (set_x_tcp_link x (TcpLinkState (tcp_active_paths l) (close_requested l) true
    (pkt_session_id pkt) (pkt_session_ts pkt))).

(** The critical section of [receiver_accept_loop]: the connection whose first
    packet is [pkt] is refused, or becomes part of the accepted session. *)
Definition admit_conn (path_idx : nat) (pkt : packet) (buf : list Z) : M bool :=
  x ← get_ctx;
  let g := x_cfg x in
  if negb (pkt_service_id pkt =? service_id (x_service g)) then mret false
  else
    '(rc, pkt) ← lift (thread_recv_authenticate_packet g pkt buf);
    if negb (rc =? POTR_OK) then mret false
    else
      let verdict := thread_connect_session_compare (x_tcp_link x) pkt in
      match verdict with
      | TCP_SESSION_OLD => mret false
      | _ =>
          match verdict with
          | TCP_SESSION_NEW =>
              drop_other_conns path_idx;; reset_connection_state;; follow_session pkt
          | _ => mret tt
          end;;
          _ ← add_active_paths 1;
          publish_conn path_idx;;
          stamp_ping_recv path_idx;;
          set_first_pkt path_idx buf;;
          mret true
      end.

(** What follows [accept], which has put the connection into a local variable:
    the filter, the first packet, the admission.  The stream behind the first
    packet when the connection is admitted; else the connection is closed. *)
Definition receiver_accept (path_idx : nat) (peer_addr : endpoint) (poll : tcp_poll)
    (stream : list Z) : M (option (list Z)) :=
  acquire (HLocalSock path_idx);;
  let refused := close_local path_idx;; mret None in
  g ← get_cfg;
  allowed ← lift (thread_connect_peer_allowed g path_idx peer_addr);
  if negb allowed then refused
  else
    r ← thread_connect_read_first_packet poll
          (POTR_PACKET_HEADER_SIZE + Z.to_nat (max_payload_cfg (x_global g))) stream;
    match r with
    | inl _ => refused
    | inr (buf, rest) =>
        '(rc, o) ← lift (potr_internal_packet_parse (Some blank_packet) (Some buf) (length buf));
        match rc =? POTR_OK, o with
        | true, Some pkt =>
            ok ← admit_conn path_idx pkt buf;
            if ok : bool then hand_over path_idx;; mret (Some rest) else refused
        | _, _ => refused
        end
    end.

(** The threads could not be started. *)
Definition receiver_abandon (path_idx : nat) : M unit :=
  leave_active_paths;;
  set_first_pkt path_idx [];;
  close_tcp_conn path_idx.

Definition receiver_ended (path_idx : nat) : M unit :=
  connection_ended path_idx;; set_first_pkt path_idx [].

Definition receiver_disconnect (path_idx : nat) : M unit :=
  join_recv_thread path_idx;; receiver_ended path_idx;; leave_active_paths.

(** ** Start and stop of the connect threads *)

Definition dispose_connect_resources : M unit :=
  for_range 0 POTR_MAX_PATH (fun k => set_first_pkt k [];; dispose (HTcpFirstPktBuf k));;
  dispose HSessionEstablishMutex.

(** A loop that ends at the first [false]. *)
Fixpoint for_while (k n : nat) (body : nat -> M bool) : M bool :=
  match n with
  | O => mret true
  | S n => ok ← body k; if ok : bool then for_while (S k) n body else mret false
  end.

Definition potr_internal_connect_thread_stop : M unit :=
  x ← get_ctx;
  let g := x_cfg x in
  let n := x_n_path g in
  let has_threads := existsb (fun k => holds x (HConnectThread k)) (seq 0 n) in
  for_range 0 n (fun k => set_connect_running k false);;
  joined ← (if negb has_threads then mret true
    else
      need HTcpStateMutex;; need HTcpStateCv;;
      when (role_eqb (x_role g) POTR_ROLE_RECEIVER)
        (for_range 0 n (fun k => dispose (HTcpListenSock k)));;
      for_range 0 n close_tcp_conn;;
      for_while 0 n (fun k =>
        x ← get_ctx;
        if holds x (HConnectThread k) then join_thread (HConnectThread k) else mret true));
  if negb joined then mret tt
  else
    stopped ← for_while 0 n (fun k =>
      r ← potr_internal_tcp_recv_thread_stop k;
      if negb (r =? POTR_OK) then mret false
      else r ← potr_internal_tcp_health_thread_stop k; mret (r =? POTR_OK));
    if negb stopped then mret tt
    else
      potr_internal_send_thread_stop;;
      x ← get_ctx;
      if holds x HSendThread then mret tt else dispose_connect_resources.

Definition potr_internal_connect_thread_start : M Z :=
  g ← get_cfg;
  let n := x_n_path g in
  prepared ← (if role_eqb (x_role g) POTR_ROLE_RECEIVER then
      ok ← create_lock HSessionEstablishMutex;
      if negb ok then mret POTR_ERR_UNKNOWN
      else
        ok ← for_while 0 n (fun k => set_first_pkt k [];; alloc_buf (HTcpFirstPktBuf k));
        if negb ok then dispose_connect_resources;; mret POTR_ERR_OUT_OF_MEMORY else mret POTR_OK
    else mret POTR_OK);
  if negb (prepared =? POTR_OK) then mret prepared
  else
    ok ← for_while 0 n (fun k =>
      set_connect_running k true;;
      ok ← create_thread (HConnectThread k);
      if negb ok then
        set_connect_running k false;; potr_internal_connect_thread_stop;; mret false
      else mret true);
    mret (if ok : bool then POTR_OK else POTR_ERR_UNKNOWN).
End Connect.

(** ** What the operations on one path do to the shared state *)

(** The configuration, the link and the connections of the other paths. *)
Definition others (k : nat) (x : potr_context) : service_config * tcp_link_state * list bool :=
  (x_cfg x, x_tcp_link x, <[k:=false]> (x_tcp_conn_fd x)).

Definition conn_at (k : nat) (x : potr_context) : option bool := x_tcp_conn_fd x !! k.

(** An invariant of a loop over the paths. *)
Lemma for_range_inv (P : nat -> world -> Prop) body n : forall a w w' es,
  (forall i w w' es, (a <= i < a + n)%nat -> P i w -> body i w = Some (tt, w', es) -> P (S i) w') ->
  P a w -> for_range a n body w = Some (tt, w', es) -> P (a + n)%nat w'.
Proof.
  induction n as [|n IH]; intros a w w' es Hb Hp.
  - intros [= <- <-]. by rewrite Nat.add_0_r.
  - cbn [for_range]. unfold mbind at 1, M_bind.
    destruct (body a w) as [[[[] w1] e1]|] eqn:H1; [|done].
    destruct (for_range (S a) n body w1) as [[[[] w2] e2]|] eqn:H2; [|done].
    intros [= <- <-]. rewrite <- Nat.add_succ_comm. eapply IH; [|eapply Hb; [|done|exact H1]|exact H2].
    + intros i w3 w4 e4 Hi. apply Hb. lia.
    + lia.
Qed.

Section Effects.
Context `{CplatByteorder} `{Platform} `{Host}.

Lemma frame_clear_fd k v : frame (others k) v (set_tcp_conn_fd k false).
Proof.
  intros [x t] a w' es Hv. unfold set_tcp_conn_fd, store. rewrite get_ctx_bind. cbn [w_ctx].
  destruct (_ <? _)%nat; [|done]. rewrite ret_bind. intros [= <- <- <-]. rewrite <- Hv.
  unfold others. cbn [w_ctx set_x_tcp_conn_fd x_cfg x_tcp_link x_tcp_conn_fd].
  by rewrite list_insert_insert_eq.
Qed.
#[local] Hint Resolve frame_clear_fd : frames.

Lemma frame_emit_changed_of {T} (f : potr_context -> T) v pid st ch : frame f v (emit_changed pid st ch).
Proof. induction ch as [|[k e] ch IH]; cbn [emit_changed]; frames. Qed.
#[local] Hint Resolve frame_emit_changed_of : frames.

Lemma frame_start_connected k v : frame (others k) v (start_connected_threads k).
Proof. frames. Qed.

Lemma frame_receiver_ended k v : frame (others k) v (join_recv_thread k;; receiver_ended k).
Proof. frames. Qed.

Lemma frame_close_conn k v : frame (others k) v (close_tcp_conn k).
Proof. frames. Qed.

Lemma close_conn_closed k w a w' es :
  close_tcp_conn k w = Some (a, w', es) -> conn_at k (w_ctx w') = Some false.
Proof.
  destruct w as [x t]. unfold close_tcp_conn, conn_at. rewrite get_ctx_bind. cbn [w_ctx].
  destruct (x_tcp_conn_fd x !! k) as [fd|] eqn:Hfd; [|done]. rewrite (lift_bind _ _ _ _ eq_refl).
  destruct fd; cbn [negb]; [|by intros [= <- <- <-]].
  unfold need. rewrite bind_assoc, get_ctx_bind. cbn [w_ctx].
  destruct (holds x _); [|done]. rewrite ret_bind. unfold set_tcp_conn_fd, store. rewrite get_ctx_bind.
  cbn [w_ctx]. pose proof (lookup_lt_Some _ _ _ Hfd) as Hl. rewrite (proj2 (Nat.ltb_lt _ _) Hl), ret_bind.
  intros [= <- <- <-]. cbn. by rewrite list_lookup_insert_eq.
Qed.

(** The rest of the end of a connection does not open it again. *)
Lemma frame_conn_at_ended k v :
  frame (conn_at k) v (set_tcp_path_ping_state k POTR_PING_STATE_UNDEFINED;;
    sync_tcp_service_path_state_locked).
Proof. frames. Qed.

Lemma receiver_ended_closed k w a w' es :
  (join_recv_thread k;; receiver_ended k) w = Some (a, w', es) -> conn_at k (w_ctx w') = Some false.
Proof.
  intros (? & w1 & e1 & e2 & _ & Hr & _)%bind_inv.
  unfold receiver_ended, connection_ended, stop_connected_threads in Hr.
  apply bind_inv in Hr as (? & w2 & e3 & e4 & Hr & Hp & _).
  apply bind_inv in Hr as (? & w3 & e5 & e6 & Hs & Hy & _).
  apply bind_inv in Hs as (? & w4 & e7 & e8 & Hc & Hh & _).
  apply close_conn_closed in Hc.
  assert (frame (conn_at k) (Some false) (set_first_pkt k [])) as Hf1 by frames.
  assert (frame (conn_at k) (Some false) (_ ← potr_internal_tcp_health_thread_stop k; mret tt)) as Hf2 by frames.
  eapply Hf1; [|exact Hp]. eapply frame_conn_at_ended; [|exact Hy]. by eapply Hf2.
Qed.
End Effects.

(** ** Admission *)

(** The session [(i, t)] is newer than [(i', t')]. *)
Definition session_newer `{Platform} (s s' : Z * timespec) : Prop :=
  0 < cplat_timespec_cmp (snd s) (snd s') \/ (snd s = snd s' /\ fst s' < fst s).

Definition accepted (l : tcp_link_state) : Z * timespec :=
  (tcp_accepted_session_id l, tcp_accepted_session_ts l).
Definition pkt_session (p : packet) : Z * timespec := (pkt_session_id p, pkt_session_ts p).

Section Admission.
Context `{CplatByteorder} `{Platform} `{!PlatformLaws} `{Host}.

Lemma session_compare_spec l p :
  match thread_connect_session_compare l p with
  | TCP_SESSION_NEW =>
      tcp_accepted_session_known l = true -> session_newer (pkt_session p) (accepted l)
  | TCP_SESSION_SAME => tcp_accepted_session_known l = true /\ pkt_session p = accepted l
  | TCP_SESSION_OLD =>
      tcp_accepted_session_known l = true /\ session_newer (accepted l) (pkt_session p)
  end.
Proof.
  unfold thread_connect_session_compare, session_newer, pkt_session, accepted. cbn [fst snd].
  destruct (tcp_accepted_session_known l); cbn [negb]; [|done].
  pose proof (timespec_cmp_eq (pkt_session_ts p) (tcp_accepted_session_ts l)) as He.
  pose proof (timespec_cmp_antisym (pkt_session_ts p) (tcp_accepted_session_ts l)) as Ha.
  destruct (Z.ltb_spec 0 (cplat_timespec_cmp (pkt_session_ts p) (tcp_accepted_session_ts l))); [by left|].
  destruct (Z.ltb_spec (cplat_timespec_cmp (pkt_session_ts p) (tcp_accepted_session_ts l)) 0);
    [split; [done|]; left; by apply Ha|].
  assert (pkt_session_ts p = tcp_accepted_session_ts l) as Hts by (apply He; lia).
  destruct (Z.ltb_spec (tcp_accepted_session_id l) (pkt_session_id p)); [by right|].
  destruct (Z.ltb_spec (pkt_session_id p) (tcp_accepted_session_id l)); [split; [done|]; by right|].
  split; [done|]. f_equal; [lia|done].
Qed.

(** After the turns below [i] of [drop_other_conns k], started in [x]. *)
Definition dropped (k i : nat) (x x' : potr_context) : Prop :=
  x_cfg x' = x_cfg x /\ x_tcp_link x' = x_tcp_link x /\
  forall j, x_tcp_conn_fd x' !! j =
    if (j <? i)%nat && negb (j =? k)%nat
    then (fun _ => false) <$> x_tcp_conn_fd x !! j else x_tcp_conn_fd x !! j.

(** One connection that is told to end. *)
Lemma drop_one_spec i x t w' es fd :
  x_tcp_conn_fd x !! i = Some fd ->
  when fd (set_running i false;; close_tcp_conn i) (World x t) = Some (tt, w', es) ->
  x_cfg (w_ctx w') = x_cfg x /\ x_tcp_link (w_ctx w') = x_tcp_link x /\
  forall j, x_tcp_conn_fd (w_ctx w') !! j = if (j =? i)%nat then Some false else x_tcp_conn_fd x !! j.
Proof.
  intros Hi. destruct fd; cbn [when]; intros Hb.
  - assert (others i (w_ctx w') = others i x) as Ho.
    { assert (frame (others i) (others i x) (set_running i false;; close_tcp_conn i)) as Hf.
      { apply frame_bind; [frames|]. intros ?. apply frame_close_conn. }
      by eapply (Hf (World x t)). }
    injection Ho as Hg Hl Hf. apply bind_inv in Hb as (? & w1 & e1 & e2 & _ & Hc%close_conn_closed & _).
    split_and!; [done..|]. intros j. destruct (Nat.eqb_spec j i) as [->|]; [done|].
    rewrite <- (list_lookup_insert_ne (x_tcp_conn_fd (w_ctx w')) i j false) by done.
    by rewrite Hf, list_lookup_insert_ne.
  - injection Hb as <- <-. split_and!; [done..|]. intros j. by destruct (Nat.eqb_spec j i) as [->|].
Qed.

Lemma drop_others_spec k w a w' es :
  drop_other_conns k w = Some (a, w', es) ->
  dropped k (x_n_path (x_cfg (w_ctx w))) (w_ctx w) (w_ctx w').
Proof.
  unfold drop_other_conns. rewrite get_cfg_bind. destruct a.
  apply (for_range_inv (fun i w1 => dropped k i (w_ctx w) (w_ctx w1))); [|by split_and!].
  intros i [x t] w2 e2 _ (Hg & Hl & Hfd) Hb. cbn [w_ctx] in *.
  destruct (Nat.eqb_spec i k) as [->|Hik].
  - injection Hb as <- <-. split_and!; [done..|]. intros j. rewrite Hfd.
    destruct (Nat.eqb_spec j k); [by rewrite !andb_false_r|].
    by destruct (Nat.ltb_spec j k), (Nat.ltb_spec j (S k)); try lia.
  - rewrite get_ctx_bind in Hb. cbn [w_ctx] in Hb.
    destruct (x_tcp_conn_fd x !! i) as [fd|] eqn:Hi; [|done]. rewrite (lift_bind _ _ _ _ eq_refl) in Hb.
    destruct (drop_one_spec _ _ _ _ _ _ Hi Hb) as (Hg2 & Hl2 & Hfd2).
    split_and!; [congruence..|]. intros j. rewrite Hfd2.
    destruct (Nat.eqb_spec j i) as [->|].
    + rewrite Hfd in Hi. destruct (Nat.ltb_spec i (S i)), (Nat.eqb_spec i k); try lia. cbn.
      rewrite (proj2 (Nat.ltb_ge i i)) in Hi by lia. cbn in Hi. by rewrite Hi.
    + rewrite Hfd. by destruct (Nat.ltb_spec j i), (Nat.ltb_spec j (S i)); try lia.
Qed.

(** What the end of the critical section does. *)
Lemma publish_spec k buf x t b w' es :
  (_ ← add_active_paths 1; publish_conn k;; stamp_ping_recv k;; set_first_pkt k buf;; mret true)
    (World x t) = Some (b, w', es) ->
  b = true /\ x_cfg (w_ctx w') = x_cfg x /\
  x_tcp_link (w_ctx w') = set_active_paths (x_tcp_link x) (i32 (tcp_active_paths (x_tcp_link x) + 1)) /\
  conn_at k x = Some false /\ x_tcp_conn_fd (w_ctx w') = <[k:=true]> (x_tcp_conn_fd x).
Proof.
  unfold add_active_paths. rewrite bind_assoc, get_ctx_bind. cbv zeta. rewrite bind_assoc, put_ctx_bind, ret_bind.
  cbn [w_ctx w_tick]. unfold publish_conn. rewrite bind_assoc, get_ctx_bind, bind_assoc.
  cbn [w_ctx set_x_tcp_link x_tcp_conn_fd]. unfold conn_at.
  destruct (x_tcp_conn_fd x !! k) as [[]|] eqn:Hk; [done| |done]. rewrite (lift_bind _ _ _ _ eq_refl).
  unfold set_tcp_conn_fd, store. rewrite bind_assoc, get_ctx_bind. cbn [w_ctx set_x_tcp_link x_tcp_conn_fd].
  rewrite (proj2 (Nat.ltb_lt _ _) (lookup_lt_Some _ _ _ Hk)), bind_assoc, ret_bind, put_ctx_bind.
  set (x1 := set_x_tcp_conn_fd _ _). intros Hr.
  apply bind_inv in Hr as (? & w1 & e1 & e2 & Hs & Hr & _).
  apply bind_inv in Hr as ([] & w2 & e3 & e4 & Hf & [= <- <- <-] & _).
  assert (forall v, frame (fun x => (x_cfg x, x_tcp_link x, x_tcp_conn_fd x)) v
    (stamp_ping_recv k;; set_first_pkt k buf)) as Hfr by (intros v; frames).
  assert ((stamp_ping_recv k;; set_first_pkt k buf) (World x1 t) = Some (tt, w2, e1 ++ e3)) as Hrun.
  { by rewrite (bind_run _ _ _ _ _ _ Hs), Hf. }
  pose proof (Hfr _ _ _ _ _ eq_refl Hrun) as Hv. cbn [w_ctx] in Hv. injection Hv as -> -> ->.
  by split_and!.
Qed.

Lemma admit_refused k pkt buf w w' es :
  admit_conn k pkt buf w = Some (false, w', es) -> w' = w.
Proof.
  destruct w as [x t]. unfold admit_conn. rewrite get_ctx_bind. cbv zeta. cbn [w_ctx].
  destruct (negb _); [by intros [= <- <-]|].
  destruct (thread_recv_authenticate_packet _ _ _) as [[rc p]|]; [|done].
  rewrite (lift_bind _ _ _ _ eq_refl). destruct (negb _); [by intros [= <- <-]|].
  destruct (thread_connect_session_compare _ _); [..|by intros [= <- <-]].
  all: intros (? & [x1 t1] & e1 & e2 & _ & Hp & _)%bind_inv; by apply publish_spec in Hp as [? _].
Qed.

Lemma authenticate_session g p buf rc p' :
  thread_recv_authenticate_packet g p buf = Some (rc, p') -> pkt_session p' = pkt_session p.
Proof.
  unfold thread_recv_authenticate_packet. cbv zeta.
  repeat match goal with
  | |- (if ?b then _ else _) = _ -> _ => destruct b
  | |- (match ?o with _ => _ end) = _ -> _ => destruct o
  | |- (?o ≫= _) = _ -> _ => destruct o; [|done]; cbn [mbind option_bind]
  end; by intros [= <- <-].
Qed.

(** The critical section that admits a connection: the connection is
    published, its session is the accepted one, and a connection of another
    path stays open only if it belongs to that session. *)
Record admitted (k : nat) (s : Z * timespec) (x x' : potr_context) : Prop := {
  ad_cfg : x_cfg x' = x_cfg x;
  ad_count : tcp_active_paths (x_tcp_link x') = i32 (tcp_active_paths (x_tcp_link x) + 1);
  ad_known : tcp_accepted_session_known (x_tcp_link x') = true;
  ad_session : accepted (x_tcp_link x') = s;
  ad_close : close_requested (x_tcp_link x') = close_requested (x_tcp_link x);
  ad_closed : conn_at k x = Some false;
  ad_open : conn_at k x' = Some true;
  ad_length : length (x_tcp_conn_fd x') = length (x_tcp_conn_fd x);
  ad_others j : j <> k -> conn_at j x' = Some true ->
    conn_at j x = Some true /\
    ((j < x_n_path (x_cfg x))%nat ->
     tcp_accepted_session_known (x_tcp_link x) = true /\ accepted (x_tcp_link x) = s);
  ad_newest : tcp_accepted_session_known (x_tcp_link x) = true ->
    accepted (x_tcp_link x) = s \/ session_newer s (accepted (x_tcp_link x))
}.

Lemma length_of_lookup {A B} (l : list A) (l' : list B) :
  (forall j, is_Some (l !! j) <-> is_Some (l' !! j)) -> length l = length l'.
Proof.
  intros Hl. assert (forall j, (j < length l)%nat <-> (j < length l')%nat) as Hj.
  { intros j. rewrite <- !lookup_lt_is_Some. apply Hl. }
  pose proof (Hj (length l)). pose proof (Hj (length l')). lia.
Qed.

Lemma admit_conn_spec k pkt buf w w' es :
  admit_conn k pkt buf w = Some (true, w', es) -> admitted k (pkt_session pkt) (w_ctx w) (w_ctx w').
Proof.
  destruct w as [x t]. unfold admit_conn. rewrite get_ctx_bind. cbv zeta. cbn [w_ctx].
  destruct (negb _); [done|].
  destruct (thread_recv_authenticate_packet _ _ _) as [[rc p]|] eqn:Ha; [|done].
  apply authenticate_session in Ha. rewrite <- Ha. rewrite (lift_bind _ _ _ _ eq_refl).
  destruct (negb _); [done|]. pose proof (session_compare_spec (x_tcp_link x) p) as Hcmp.
  destruct (thread_connect_session_compare _ _); [| |done].
  - intros (? & [x1 t1] & e1 & e2 & Hd & Hp & _)%bind_inv.
    apply bind_inv in Hd as (? & [x2 t2] & e3 & e4 & Hd%drop_others_spec & Hr & _).
    unfold reset_connection_state in Hr. rewrite (modify_conn_bind x2 SlotCtx _ t2 _ _ eq_refl) in Hr.
    unfold follow_session in Hr. rewrite get_ctx_bind in Hr. injection Hr as <- <- <- <-.
    apply publish_spec in Hp as (_ & Hg & Hl & Hc & Hfd). cbn in Hg, Hl, Hc, Hfd.
    destruct Hd as (Hg2 & Hl2 & Hfd2). cbn [w_ctx] in Hg2, Hl2, Hfd2.
    assert (conn_at k x = Some false) as Hk.
    { unfold conn_at in *. rewrite Hfd2 in Hc. by rewrite Nat.eqb_refl, andb_false_r in Hc. }
    split; rewrite ?Hg, ?Hl, ?Hl2; try done; cbn.
    + unfold conn_at. rewrite Hfd. apply list_lookup_insert_eq. by eapply lookup_lt_Some.
    + rewrite Hfd, length_insert. apply length_of_lookup. intros j. rewrite Hfd2.
      destruct (_ && _); [|done]. by rewrite fmap_is_Some.
    + intros j Hj. unfold conn_at. rewrite Hfd, list_lookup_insert_ne, Hfd2 by done.
      destruct (Nat.eqb_spec j k) as [|_]; [done|].
      destruct (Nat.ltb_spec j (x_n_path (x_cfg x))); cbn; [by destruct (_ !! j)|].
      intros Ht. split; [done|]. lia.
    + intros Hkn. right. by apply Hcmp.
  - rewrite ret_bind. intros (_ & Hg & Hl & Hc & Hfd)%publish_spec. destruct Hcmp as [Hkn Hs].
    split; rewrite ?Hg, ?Hl; try done; cbn.
    + unfold conn_at. rewrite Hfd. apply list_lookup_insert_eq. by eapply lookup_lt_Some.
    + by rewrite Hfd, length_insert.
    + intros j Hj. unfold conn_at. rewrite Hfd, list_lookup_insert_ne by done. done.
    + by left.
Qed.
End Admission.

(** ** The accept threads together

    One accept thread per path, interleaved with each other and with the
    threads that handle packets.  A step is a section of
    [receiver_accept_loop] that runs under a mutex or touches only its own
    path; [session_establish_mutex] is held from the admission to the start of
    the threads. *)

Inductive conn_phase :=
  | Accepting                 (* in [accept], or before the admission *)
  | Published                 (* published, the threads are being started *)
  | Failed                    (* the threads could not be started *)
  | FailLeft (last : bool)    (* ... and the path is no longer counted *)
  | Serving                   (* waiting for the receive thread to end *)
  | Ended                     (* closed, still counted *)
  | LeftActive (last : bool). (* no longer counted *)

(** Counted in [tcp_active_paths]. *)
Definition counted (p : conn_phase) : bool :=
  match p with Published | Failed | Serving | Ended => true | _ => false end.

(** Holds [session_establish_mutex]. *)
Definition establishing (p : conn_phase) : bool :=
  match p with Published | Failed | FailLeft _ => true | _ => false end.

Definition may_be_open (p : conn_phase) : bool :=
  match p with Published | Failed | FailLeft _ | Serving => true | _ => false end.

Definition in_session (p : conn_phase) : bool :=
  match p with Published | Serving => true | _ => false end.

(** The context, the phase of every path, and the session each path was
    admitted with. *)
Record tcp_sys := TcpSys {
  sys_w : world;
  sys_phase : list conn_phase;
  sys_session : list (Z * timespec)
}.

Section System.
Context `{CplatByteorder} `{Platform} `{Host}.

Inductive tcp_step : tcp_sys -> tcp_sys -> Prop :=
  | step_admit k pkt buf w w' es ph ss :
      ph !! k = Some Accepting -> Forall (fun p => establishing p = false) ph ->
      admit_conn k pkt buf w = Some (true, w', es) ->
      tcp_step (TcpSys w ph ss) (TcpSys w' (<[k:=Published]> ph) (<[k:=pkt_session pkt]> ss))
  | step_refuse k pkt buf w w' es ph ss :
      ph !! k = Some Accepting -> Forall (fun p => establishing p = false) ph ->
      admit_conn k pkt buf w = Some (false, w', es) ->
      tcp_step (TcpSys w ph ss) (TcpSys w' ph ss)
  | step_start k rc w w' es ph ss :
      ph !! k = Some Published ->
      start_connected_threads k w = Some (rc, w', es) ->
      tcp_step (TcpSys w ph ss)
        (TcpSys w' (<[k:=if rc =? POTR_OK then Serving else Failed]> ph) ss)
  | step_fail_leave k n w w' es ph ss :
      ph !! k = Some Failed -> add_active_paths (-1) w = Some (n, w', es) ->
      tcp_step (TcpSys w ph ss) (TcpSys w' (<[k:=FailLeft (n =? 0)]> ph) ss)
  | step_abandon k last w w' es ph ss :
      ph !! k = Some (FailLeft last) ->
      (when last reset_all_paths_disconnected;; set_first_pkt k [];; close_tcp_conn k) w
        = Some (tt, w', es) ->
      tcp_step (TcpSys w ph ss) (TcpSys w' (<[k:=Accepting]> ph) ss)
  | step_ended k w w' es ph ss :
      ph !! k = Some Serving -> (join_recv_thread k;; receiver_ended k) w = Some (tt, w', es) ->
      tcp_step (TcpSys w ph ss) (TcpSys w' (<[k:=Ended]> ph) ss)
  | step_leave k n w w' es ph ss :
      ph !! k = Some Ended -> add_active_paths (-1) w = Some (n, w', es) ->
      tcp_step (TcpSys w ph ss) (TcpSys w' (<[k:=LeftActive (n =? 0)]> ph) ss)
  | step_reset k last w w' es ph ss :
      ph !! k = Some (LeftActive last) ->
      when last reset_all_paths_disconnected w = Some (tt, w', es) ->
      tcp_step (TcpSys w ph ss) (TcpSys w' (<[k:=Accepting]> ph) ss)
  | step_packets w w' ph ss :
      core (w_ctx w') = core (w_ctx w) ->
      tcp_step (TcpSys w ph ss) (TcpSys w' ph ss)
  | step_close_requested w ph ss :
      tcp_step (TcpSys w ph ss)
        (TcpSys (World (set_x_tcp_link (w_ctx w)
           (set_close_requested (x_tcp_link (w_ctx w)) true)) (w_tick w)) ph ss)
  | step_shut k p w w' es ph ss :
      ph !! k = Some p -> close_tcp_conn k w = Some (tt, w', es) ->
      tcp_step (TcpSys w ph ss) (TcpSys w' ph ss).

(** Every path accepts, nothing is connected. *)
Definition tcp_start (s : tcp_sys) : Prop :=
  let x := w_ctx (sys_w s) in
  (x_n_path (x_cfg x) <= POTR_MAX_PATH)%nat /\
  sys_phase s = replicate (x_n_path (x_cfg x)) Accepting /\
  length (sys_session s) = x_n_path (x_cfg x) /\
  length (x_tcp_conn_fd x) = POTR_MAX_PATH /\
  (forall k, conn_at k x <> Some true) /\
  tcp_active_paths (x_tcp_link x) = 0.

Record sys_inv (s : tcp_sys) : Prop := {
  si_paths : (length (sys_phase s) <= POTR_MAX_PATH)%nat;
  si_n : length (sys_phase s) = x_n_path (x_cfg (w_ctx (sys_w s)));
  si_sessions : length (sys_session s) = length (sys_phase s);
  si_fds : length (x_tcp_conn_fd (w_ctx (sys_w s))) = POTR_MAX_PATH;
  si_count : tcp_active_paths (x_tcp_link (w_ctx (sys_w s)))
    = Z.of_nat (count_if counted (sys_phase s));
  si_open k : conn_at k (w_ctx (sys_w s)) = Some true ->
    exists p, sys_phase s !! k = Some p /\ may_be_open p = true;
  si_session k p : sys_phase s !! k = Some p -> in_session p = true ->
    conn_at k (w_ctx (sys_w s)) = Some true ->
    sys_session s !! k = Some (accepted (x_tcp_link (w_ctx (sys_w s))));
  si_known : 0 < tcp_active_paths (x_tcp_link (w_ctx (sys_w s))) ->
    tcp_accepted_session_known (x_tcp_link (w_ctx (sys_w s))) = true
}.

(** A step of path [k], from phase [p] to [p']. *)
Lemma sys_inv_update s k p p' w' ss' :
  let x := w_ctx (sys_w s) in
  let x' := w_ctx w' in
  sys_inv s -> sys_phase s !! k = Some p ->
  x_cfg x' = x_cfg x -> length (x_tcp_conn_fd x') = length (x_tcp_conn_fd x) ->
  length ss' = length (sys_session s) ->
  tcp_active_paths (x_tcp_link x') + (if counted p then 1 else 0)
    = tcp_active_paths (x_tcp_link x) + (if counted p' then 1 else 0) ->
  (forall j, j <> k -> conn_at j x' = Some true -> conn_at j x = Some true) ->
  (conn_at k x' = Some true -> may_be_open p' = true) ->
  (forall j q, <[k:=p']> (sys_phase s) !! j = Some q -> in_session q = true ->
     conn_at j x' = Some true -> ss' !! j = Some (accepted (x_tcp_link x'))) ->
  (0 < tcp_active_paths (x_tcp_link x') -> tcp_accepted_session_known (x_tcp_link x') = true) ->
  sys_inv (TcpSys w' (<[k:=p']> (sys_phase s)) ss').
Proof.
  intros x x' [] Hk Hg Hfd Hss Hact Hoth Hown Hses Hkn. fold x in si_n0, si_fds0, si_count0, si_open0.
  pose proof (count_if_insert counted _ _ _ p' Hk) as Hc.
  split; cbn [sys_w sys_phase sys_session]; fold x'; rewrite ?length_insert; try congruence; try done.
  - destruct (counted p), (counted p'); lia.
  - intros j Hj. destruct (decide (j = k)) as [->|Hne].
    + exists p'. split; [|by apply Hown]. apply list_lookup_insert_eq. by eapply lookup_lt_Some.
    + rewrite list_lookup_insert_ne by done. apply si_open0. by apply Hoth.
Qed.

(** The same for a step that leaves the accepted session and opens nothing. *)
Lemma sys_inv_keep s k p p' w' :
  let x := w_ctx (sys_w s) in
  let x' := w_ctx w' in
  sys_inv s -> sys_phase s !! k = Some p ->
  x_cfg x' = x_cfg x -> length (x_tcp_conn_fd x') = length (x_tcp_conn_fd x) ->
  tcp_active_paths (x_tcp_link x') + (if counted p then 1 else 0)
    = tcp_active_paths (x_tcp_link x) + (if counted p' then 1 else 0) ->
  accepted (x_tcp_link x') = accepted (x_tcp_link x) ->
  (0 < tcp_active_paths (x_tcp_link x') -> tcp_accepted_session_known (x_tcp_link x') = true) ->
  (forall j, conn_at j x' = Some true -> conn_at j x = Some true) ->
  (conn_at k x' = Some true -> may_be_open p' = true) -> (in_session p' = true -> in_session p = true) ->
  sys_inv (TcpSys w' (<[k:=p']> (sys_phase s)) (sys_session s)).
Proof.
  intros x x' Hi Hk Hg Hfd Hact Hacc Hkn Hopen Hown Hin.
  apply (sys_inv_update s k p p'); try done.
  - intros j _. apply Hopen.
  - intros j q Hq Hiq Hj. fold x'. rewrite Hacc. apply Hopen in Hj.
    apply list_lookup_insert_cases in Hq as [(-> & ->)|(_ & Hq)].
    + by eapply (si_session _ Hi); [exact Hk|apply Hin|].
    + by eapply (si_session _ Hi).
Qed.

Lemma active_bound s :
  sys_inv s -> 0 <= tcp_active_paths (x_tcp_link (w_ctx (sys_w s))) <= Z.of_nat POTR_MAX_PATH.
Proof.
  intros []. rewrite si_count0. split; [lia|].
  assert (forall l : list conn_phase, (count_if counted l <= length l)%nat) as Hle.
  { induction l as [|a l IH]; cbn; [lia|]. destruct (counted a); lia. }
  specialize (Hle (sys_phase s)). lia.
Qed.

Lemma others_step k x x' :
  others k x' = others k x ->
  x_cfg x' = x_cfg x /\ x_tcp_link x' = x_tcp_link x /\
  length (x_tcp_conn_fd x') = length (x_tcp_conn_fd x) /\
  forall j, j <> k -> conn_at j x' = conn_at j x.
Proof.
  intros [= Hg Hl Hf]. split_and!; [done..| |].
  - apply (f_equal length) in Hf. by rewrite !length_insert in Hf.
  - intros j Hj. unfold conn_at.
    rewrite <- (list_lookup_insert_ne (x_tcp_conn_fd x') k j false) by done.
    by rewrite Hf, list_lookup_insert_ne.
Qed.

Lemma add_active_run d w n w' es :
  add_active_paths d w = Some (n, w', es) ->
  n = i32 (tcp_active_paths (x_tcp_link (w_ctx w)) + d) /\ es = [] /\
  w_ctx w' = set_x_tcp_link (w_ctx w) (set_active_paths (x_tcp_link (w_ctx w)) n).
Proof. destruct w as [x t]. unfold add_active_paths. rewrite get_ctx_bind. by intros [= <- <- <-]. Qed.

(** Resetting touches the accepted session only when no path is active, and
    never the connections. *)
Lemma reset_all_run w a w' es :
  reset_all_paths_disconnected w = Some (a, w', es) ->
  es = [] /\ x_cfg (w_ctx w') = x_cfg (w_ctx w) /\ x_tcp_conn_fd (w_ctx w') = x_tcp_conn_fd (w_ctx w) /\
  x_tcp_link (w_ctx w') = (if tcp_active_paths (x_tcp_link (w_ctx w)) =? 0
    then set_accepted_known (x_tcp_link (w_ctx w)) false else x_tcp_link (w_ctx w)).
Proof.
  destruct w as [x t]. unfold reset_all_paths_disconnected. rewrite get_ctx_bind. cbn [w_ctx].
  destruct (_ =? 0); cbn [negb]; [|by intros [= <- <- <-]].
  rewrite (modify_conn_bind x SlotCtx _ t _ _ eq_refl), get_ctx_bind. by intros [= <- <- <-].
Qed.

Lemma when_reset_run last w a w' es :
  when last reset_all_paths_disconnected w = Some (a, w', es) ->
  x_cfg (w_ctx w') = x_cfg (w_ctx w) /\ x_tcp_conn_fd (w_ctx w') = x_tcp_conn_fd (w_ctx w) /\
  accepted (x_tcp_link (w_ctx w')) = accepted (x_tcp_link (w_ctx w)) /\
  tcp_active_paths (x_tcp_link (w_ctx w')) = tcp_active_paths (x_tcp_link (w_ctx w)) /\
  (0 < tcp_active_paths (x_tcp_link (w_ctx w)) -> x_tcp_link (w_ctx w') = x_tcp_link (w_ctx w)).
Proof.
  destruct last; cbn [when].
  - intros (_ & -> & -> & ->)%reset_all_run. destruct (Z.eqb_spec (tcp_active_paths (x_tcp_link (w_ctx w))) 0);
      split_and!; try done. lia.
  - intros [= <- <- <-]. done.
Qed.
End System.

Section SystemInvariant.
Context `{CplatByteorder} `{Platform} `{!PlatformLaws} `{Host}.

Lemma step_admit_inv k pkt buf w w' es ph ss :
  sys_inv (TcpSys w ph ss) -> ph !! k = Some Accepting ->
  admit_conn k pkt buf w = Some (true, w', es) ->
  sys_inv (TcpSys w' (<[k:=Published]> ph) (<[k:=pkt_session pkt]> ss)).
Proof.
  intros Hi Hk Ha. apply admit_conn_spec in Ha. destruct Ha.
  pose proof (active_bound _ Hi) as Hb. unfold POTR_MAX_PATH in Hb. cbn [sys_w] in Hb.
  pose proof (lookup_lt_Some _ _ _ Hk) as Hlt.
  apply (sys_inv_update (TcpSys w ph ss) k Accepting Published); try done; cbn [sys_w sys_phase sys_session].
  - by rewrite length_insert.
  - rewrite ad_count0. unfold i32, u32. cbn [counted]. rewrite Z.mod_small by lia.
    destruct (Z.ltb_spec (tcp_active_paths (x_tcp_link (w_ctx w)) + 1) 2147483648); lia.
  - intros j Hj Ho. by apply ad_others0.
  - intros j q Hq Hin Ho. rewrite ad_session0. apply list_lookup_insert_cases in Hq as [(<- & _)|(Hne & Hq)].
    + apply list_lookup_insert_eq. pose proof (si_sessions _ Hi) as Hs. cbn in Hs. lia.
    + destruct (ad_others0 j) as [Hj Hs]; [done|done|].
      pose proof (lookup_lt_Some _ _ _ Hq) as Hjl. pose proof (si_n _ Hi) as Hn. cbn in Hn.
      destruct Hs as [_ Hs]; [lia|]. rewrite list_lookup_insert_ne by done. rewrite <- Hs.
      by apply (si_session _ Hi j q).
Qed.

Lemma step_leave_inv k p p' n w w' es ph ss :
  sys_inv (TcpSys w ph ss) -> ph !! k = Some p ->
  counted p = true -> counted p' = false -> in_session p' = false ->
  (may_be_open p = true -> may_be_open p' = true) ->
  add_active_paths (-1) w = Some (n, w', es) ->
  sys_inv (TcpSys w' (<[k:=p']> ph) ss).
Proof.
  intros Hi Hk Hc Hc' Hin Hopen (Hn & _ & Hw)%add_active_run.
  pose proof (active_bound _ Hi) as Hb. unfold POTR_MAX_PATH in Hb. cbn [sys_w] in Hb.
  pose proof (si_count _ Hi) as Hcount. pose proof (count_if_insert counted _ _ _ p' Hk) as Hci.
  cbn [sys_w sys_phase] in Hcount. rewrite Hc, Hc' in Hci.
  assert (n = tcp_active_paths (x_tcp_link (w_ctx w)) - 1) as Hn1.
  { rewrite Hn. unfold i32, u32. rewrite Z.mod_small by lia.
    destruct (Z.ltb_spec (tcp_active_paths (x_tcp_link (w_ctx w)) + -1) 2147483648); lia. }
  apply (sys_inv_keep (TcpSys w ph ss) k p p'); try done; cbn [sys_w sys_phase sys_session]; rewrite ?Hw; try done.
  - cbn. rewrite Hc, Hc'. lia.
  - cbn. intros _. apply (si_known _ Hi). cbn. lia.
  - cbn. intros Ho. destruct (si_open _ Hi k Ho) as (q & Hq & Hqo). cbn in Hq. apply Hopen. congruence.
  - by rewrite Hin.
Qed.

(** A step that changes nothing shared but the connection of its own path. *)
Lemma step_own_inv k p p' w w' ph ss :
  sys_inv (TcpSys w ph ss) -> ph !! k = Some p -> counted p' = counted p ->
  others k (w_ctx w') = others k (w_ctx w) ->
  (conn_at k (w_ctx w') = Some true -> conn_at k (w_ctx w) = Some true /\ may_be_open p' = true) ->
  (in_session p' = true -> in_session p = true) ->
  sys_inv (TcpSys w' (<[k:=p']> ph) ss).
Proof.
  intros Hi Hk Hc (Hg & Hl & Hlen & Hoth)%others_step Hown Hin.
  apply (sys_inv_keep (TcpSys w ph ss) k p p'); try done; cbn [sys_w sys_phase sys_session];
    rewrite ?Hl; try done.
  - by rewrite Hc.
  - apply (si_known _ Hi).
  - intros j Hj. destruct (decide (j = k)) as [->|Hne]; [by apply Hown|]. by rewrite <- Hoth.
  - intros Ho. by apply Hown.
Qed.

Lemma frame_stay_closed k : frame (conn_at k) (Some false) (set_tcp_conn_fd k false).
Proof.
  intros [x t] a w' es Hv. unfold set_tcp_conn_fd, store. rewrite get_ctx_bind. cbn [w_ctx] in *.
  destruct (Nat.ltb_spec k (length (x_tcp_conn_fd x))); [|done]. rewrite ret_bind. intros [= <- <- <-].
  unfold conn_at. cbn. by rewrite list_lookup_insert_eq.
Qed.
#[local] Hint Resolve frame_stay_closed frame_emit_changed_of : frames.

Lemma frame_start_closed k : frame (conn_at k) (Some false) (start_connected_threads k).
Proof. frames. Qed.

Lemma conn_at_exists s k p :
  sys_inv s -> sys_phase s !! k = Some p -> exists b, conn_at k (w_ctx (sys_w s)) = Some b.
Proof.
  intros [] Hk%lookup_lt_Some. apply lookup_lt_is_Some_2. lia.
Qed.

(** The invariant depends on the configuration, the link and the connections. *)
Lemma sys_inv_same w w' ph ss :
  sys_inv (TcpSys w ph ss) -> x_cfg (w_ctx w') = x_cfg (w_ctx w) ->
  x_tcp_conn_fd (w_ctx w') = x_tcp_conn_fd (w_ctx w) ->
  (exists b, x_tcp_link (w_ctx w') = set_close_requested (x_tcp_link (w_ctx w)) b) ->
  sys_inv (TcpSys w' ph ss).
Proof.
  intros [] Hg Hf [b Hl]. cbn in *. split; cbn; unfold conn_at in *; rewrite ?Hg, ?Hf, ?Hl; done.
Qed.

Lemma step_abandon_inv k last w w' es ph ss :
  sys_inv (TcpSys w ph ss) -> ph !! k = Some (FailLeft last) ->
  (when last reset_all_paths_disconnected;; set_first_pkt k [];; close_tcp_conn k) w
    = Some (tt, w', es) ->
  sys_inv (TcpSys w' (<[k:=Accepting]> ph) ss).
Proof.
  intros Hi Hk Hr.
  apply bind_inv in Hr as (? & w1 & e1 & e2 & (Hg & Hf & Hacc & Hact & Hkn)%when_reset_run & Hr & _).
  apply bind_inv in Hr as (? & w2 & e3 & e4 & Hp & Hr & _).
  assert (others k (w_ctx w2) = others k (w_ctx w1)) as Ho.
  { assert (frame (others k) (others k (w_ctx w1)) (set_first_pkt k [])) as Hfr by frames. by eapply Hfr. }
  pose proof (frame_close_conn k _ _ _ _ _ Ho Hr) as (Hg2 & Hl2 & Hlen2 & Hoth)%others_step.
  apply close_conn_closed in Hr.
  apply (sys_inv_keep (TcpSys w ph ss) k (FailLeft last) Accepting); try done;
    cbn [sys_w sys_phase sys_session]; rewrite ?Hl2; try congruence.
  - cbn [counted]. lia.
  - intros Hpos. rewrite Hkn by lia. apply (si_known _ Hi). cbn. lia.
  - intros j Hj. destruct (decide (j = k)) as [->|Hne]; [congruence|]. rewrite Hoth in Hj by done.
    unfold conn_at in *. by rewrite <- Hf.
Qed.

Lemma step_reset_inv k last w w' es ph ss :
  sys_inv (TcpSys w ph ss) -> ph !! k = Some (LeftActive last) ->
  when last reset_all_paths_disconnected w = Some (tt, w', es) ->
  sys_inv (TcpSys w' (<[k:=Accepting]> ph) ss).
Proof.
  intros Hi Hk (Hg & Hf & Hacc & Hact & Hkn)%when_reset_run.
  apply (sys_inv_keep (TcpSys w ph ss) k (LeftActive last) Accepting); try done;
    cbn [sys_w sys_phase sys_session]; unfold conn_at; rewrite ?Hf; try done.
  - cbn [counted]. lia.
  - intros Hpos. rewrite Hkn by lia. apply (si_known _ Hi). cbn. lia.
  - intros Ho. destruct (si_open _ Hi k Ho) as (q & Hq & Hqo). cbn in Hq. rewrite Hk in Hq.
    by injection Hq as <-.
Qed.

Lemma tcp_step_inv s s' : sys_inv s -> tcp_step s s' -> sys_inv s'.
Proof.
  intros Hi Hstep. destruct Hstep as [k pkt buf w w' es ph ss Hk _ Ha | k pkt buf w w' es ph ss Hk _ Ha
    | k rc w w' es ph ss Hk Hr | k n w w' es ph ss Hk Hr | k last w w' es ph ss Hk Hr
    | k w w' es ph ss Hk Hr | k n w w' es ph ss Hk Hr | k last w w' es ph ss Hk Hr
    | w w' ph ss Hc | w ph ss | k p w w' es ph ss Hk Hr].
  - by eapply step_admit_inv.
  - by apply admit_refused in Ha as ->.
  - eapply step_own_inv; [done|exact Hk|by destruct (rc =? POTR_OK)| | |by destruct (rc =? POTR_OK)].
    { by eapply frame_start_connected. }
    intros Ho. split; [|by destruct (rc =? POTR_OK)].
    destruct (conn_at_exists _ _ _ Hi Hk) as [[] Hb]; [done|].
    pose proof (frame_start_closed k _ _ _ _ Hb Hr). congruence.
  - by eapply step_leave_inv.
  - by eapply step_abandon_inv.
  - pose proof (receiver_ended_closed _ _ _ _ _ Hr) as Hc.
    eapply step_own_inv; [done|exact Hk|done| | |done]; [by eapply frame_receiver_ended|]. congruence.
  - by eapply step_leave_inv.
  - by eapply step_reset_inv.
  - unfold core in Hc. injection Hc as Hg _ Hf _ Hl _. eapply sys_inv_same; [done..|].
    exists (close_requested (x_tcp_link (w_ctx w))). rewrite Hl. by destruct (x_tcp_link (w_ctx w)).
  - eapply sys_inv_same; [done..|]. by eexists.
  - pose proof (close_conn_closed _ _ _ _ _ Hr) as Hc.
    rewrite <- (list_insert_id ph k p Hk). eapply step_own_inv; [done|exact Hk|done| |congruence|done].
    by eapply frame_close_conn.
Qed.

Lemma tcp_start_inv s : tcp_start s -> sys_inv s.
Proof.
  intros (Hn & Hp & Hs & Hf & Ho & Ha). split; rewrite ?Hp, ?length_replicate; try done.
  - rewrite Ha. clear. induction (x_n_path _) as [|n IH]; [done|]. cbn. done.
  - intros k Hk. by apply Ho in Hk.
  - intros k p Hk. apply lookup_replicate in Hk as [-> _]. done.
  - lia.
Qed.

Lemma tcp_reachable_inv s s' : tcp_start s -> rtc tcp_step s s' -> sys_inv s'.
Proof.
  intros Hs%tcp_start_inv Hr. induction Hr as [|s s1 s2 Hst _ IH]; [done|].
  by apply IH, (tcp_step_inv s).
Qed.
End SystemInvariant.

(** C14. However the accept threads of the paths interleave with each other, with
    packet handling and with a close, [tcp_active_paths] counts exactly the
    paths that are connected (so it stays within 0 and the number of paths),
    and at any moment all connections in service belong to one session, the
    accepted one: a connection of an older or a newer session is never used
    beside it. *)
Theorem tcp_one_session `{CplatByteorder} `{Platform} `{!PlatformLaws} `{Host} s s' :
  tcp_start s -> rtc tcp_step s s' ->
  let l := x_tcp_link (w_ctx (sys_w s')) in
  tcp_active_paths l = Z.of_nat (count_if counted (sys_phase s')) /\
  (count_if counted (sys_phase s') <= POTR_MAX_PATH)%nat /\
  forall k p, sys_phase s' !! k = Some p -> in_session p = true ->
    conn_at k (w_ctx (sys_w s')) = Some true ->
    tcp_accepted_session_known l = true /\ sys_session s' !! k = Some (accepted l).
Proof.
  intros Hs Hr. pose proof (tcp_reachable_inv _ _ Hs Hr) as Hi.
  pose proof (active_bound _ Hi) as Hb. destruct Hi. cbv zeta. split; [done|]. split; [lia|].
  intros k p Hk Hin Ho. split; [|by eapply si_session0]. apply si_known0. rewrite si_count0.
  assert (counted p = true) as Hc by by destruct p.
  pose proof (count_if_insert counted _ _ _ Accepting Hk) as Hci. rewrite Hc in Hci. cbn in Hci. lia.
Qed.

(** Two paths; a connection of one session, then one of a newer session. *)
Definition two_paths_config : service_config :=
  ServiceConfig true (example_service POTR_TYPE_TCP_BIDIR false) example_global 1000 300
    POTR_ROLE_RECEIVER 2 false 0 (replicate 4 0) (replicate 4 0) 200 80.
Definition two_paths_ctx : potr_context :=
  PotrContext two_paths_config example_conn (replicate 4 false) (replicate 4 0) None 0 0
    (replicate 4 false) (TcpCloseState false false 0 0) (replicate 4 0) (replicate 4 false) 0 0
    (TcpLinkState 0 false false 0 (Timespec 0 0))
    (Runtime [HTcpSendMutex 0; HTcpSendMutex 1; HSendQueue] false (replicate 4 false) (replicate 4 true)
       (replicate 4 false) (replicate 4 [])).
Definition hello (sid sec : Z) : packet :=
  Packet 10 sec sid 0 0 0 POTR_FLAG_PING 4 POTR_PROTOCOL_VERSION (Some [0; 0; 0; 0]).

Section Example.
#[local] Existing Instances little_host toy_platform toy_host.
Definition two_paths_w1 : world := world_after (admit_conn 0 (hello 5 100) []) (World two_paths_ctx 0).
Definition two_paths_w2 : world := world_after (start_connected_threads 0) two_paths_w1.
Definition two_paths_w3 : world := world_after (admit_conn 1 (hello 6 200) []) two_paths_w2.
End Example.

Lemma two_paths_run : exists w1 w2 e2 w3,
  @admit_conn little_host toy_platform 0 (hello 5 100) [] (World two_paths_ctx 0) = Some (true, w1, []) /\
  @start_connected_threads little_host toy_platform toy_host 0 w1 = Some (POTR_OK, w2, e2) /\
  @admit_conn little_host toy_platform 1 (hello 6 200) [] w2 = Some (true, w3, []) /\
  conn_at 0 (w_ctx w2) = Some true /\ conn_at 0 (w_ctx w3) = Some false /\
  conn_at 1 (w_ctx w3) = Some true.
Proof.
  exists two_paths_w1, two_paths_w2,
    (effects_of (@start_connected_threads little_host toy_platform toy_host 0) two_paths_w1), two_paths_w3.
  split_and!; vm_compute; reflexivity.
Qed.

Lemma tcp_one_session_witness : exists w2 w3,
  conn_at 0 (w_ctx w2) = Some true /\ conn_at 0 (w_ctx w3) = Some false /\
  conn_at 1 (w_ctx w3) = Some true /\ tcp_active_paths (x_tcp_link (w_ctx w3)) = 2 /\
  accepted (x_tcp_link (w_ctx w3)) = (6, Timespec 200 0).
Proof.
  destruct two_paths_run as (w1 & w2 & e2 & w3 & Hr1 & Hr2 & Hr3 & Hc1 & Hc2 & Hc3).
  exists w2, w3. split; [exact Hc1|]. split; [exact Hc2|]. split; [exact Hc3|].
  destruct (@tcp_one_session little_host toy_platform toy_laws toy_host
    (TcpSys (World two_paths_ctx 0) [Accepting; Accepting] [(0, ts0); (0, ts0)])
    (TcpSys w3 [Serving; Published] [(5, Timespec 100 0); (6, Timespec 200 0)])) as (Hn & _ & Hs).
  - split; [cbn; unfold POTR_MAX_PATH; lia|]. split_and!; try reflexivity.
    intros k Hk. unfold conn_at in Hk. cbn in Hk. by destruct k as [|[|[|[|k]]]].
  - eapply rtc_l; [eapply step_admit; [| |exact Hr1]; [reflexivity|repeat constructor]|].
    eapply rtc_l; [eapply step_start; [|exact Hr2]; reflexivity|].
    eapply rtc_l; [eapply step_admit; [| |exact Hr3]; [reflexivity|repeat constructor]|].
    apply rtc_refl.
  - split; [exact Hn|]. destruct (Hs 1%nat Published eq_refl eq_refl Hc3) as [_ Ha].
    apply (f_equal (default (0, ts0))) in Ha. exact (eq_sym Ha).
Defined.

(** ** Closing *)

Section Closing.
Context `{CplatByteorder} `{Platform} `{!PlatformLaws} `{Host}.

Lemma ping_canceled k w rc w' es :
  close_requested (x_tcp_link (w_ctx w)) = true ->
  potr_internal_tcp_send_ping_now k w = Some (rc, w', es) -> rc <> POTR_OK.
Proof.
  intros Hc. unfold potr_internal_tcp_send_ping_now, tcp_send_ping_packet.
  destruct (_ <=? _)%nat; [by intros [= <- <- <-]|]. rewrite get_ctx_bind. cbv zeta. rewrite Hc.
  by intros [= <- <- <-].
Qed.

(** Once a close is requested, no connection gets its threads. *)
Lemma start_canceled k w rc w' es :
  close_requested (x_tcp_link (w_ctx w)) = true ->
  start_connected_threads k w = Some (rc, w', es) -> rc <> POTR_OK.
Proof.
  intros Hc. destruct w as [x t]. unfold start_connected_threads. rewrite get_ctx_bind. cbv zeta.
  intros (r1 & w1 & e1 & e2 & H1r & Hr & _)%bind_inv. cbn [w_ctx] in *.
  set (starts := _ && _) in *.
  assert (frame x_tcp_link (x_tcp_link x)
    (if starts then potr_internal_send_thread_start else mret POTR_OK)) as Hf1 by frames.
  pose proof (Hf1 (World x t) _ _ _ eq_refl H1r) as Hl1.
  destruct (Z.eqb_spec r1 POTR_OK); cbn [negb] in Hr; [|by injection Hr as <- <- <-].
  apply bind_inv in Hr as (? & w2 & e3 & e4 & H2r & Hr & _).
  assert (frame x_tcp_link (x_tcp_link x) (set_tcp_path_ping_state k POTR_PING_STATE_UNDEFINED)) as Hf2 by frames.
  pose proof (Hf2 _ _ _ _ Hl1 H2r) as Hl2.
  apply bind_inv in Hr as (r3 & w3 & e5 & e6 & H3r & Hr & _).
  assert (frame x_tcp_link (x_tcp_link x) (potr_internal_tcp_recv_thread_start k)) as Hf3 by frames.
  pose proof (Hf3 _ _ _ _ Hl2 H3r) as Hl3.
  destruct (Z.eqb_spec r3 POTR_OK); cbn [negb] in Hr.
  2: { apply bind_inv in Hr as (? & w4 & e7 & e8 & _ & Hr & _). by injection Hr as <- <- <-. }
  apply bind_inv in Hr as (r4 & w4 & e7 & e8 & H4r & Hr & _).
  apply ping_canceled in H4r; [|by rewrite Hl3].
  destruct (Z.eqb_spec r4 POTR_OK); [done|]. cbn [negb] in Hr.
  apply bind_inv in Hr as (? & w5 & e9 & e10 & _ & Hr & _). by injection Hr as <- <- <-.
Qed.

(** A close is requested and no connection in service is open. *)
Definition shutting (s : tcp_sys) : Prop :=
  close_requested (x_tcp_link (w_ctx (sys_w s))) = true /\
  forall k, sys_phase s !! k = Some Serving -> conn_at k (w_ctx (sys_w s)) <> Some true.

Lemma when_reset_keeps last w a w' es :
  when last reset_all_paths_disconnected w = Some (a, w', es) ->
  close_requested (x_tcp_link (w_ctx w')) = close_requested (x_tcp_link (w_ctx w)) /\
  x_tcp_conn_fd (w_ctx w') = x_tcp_conn_fd (w_ctx w).
Proof.
  destruct last; cbn [when]; [|by intros [= <- <- <-]]. intros (_ & _ & -> & ->)%reset_all_run.
  by destruct (_ =? 0).
Qed.

(** Steps that keep the link's flag and open nothing outside [Published]. *)
Lemma shutting_update k p' w w' ph ss ss' :
  shutting (TcpSys w ph ss) -> p' <> Serving ->
  close_requested (x_tcp_link (w_ctx w')) = close_requested (x_tcp_link (w_ctx w)) ->
  (forall j, j <> k -> conn_at j (w_ctx w') = Some true -> conn_at j (w_ctx w) = Some true) ->
  shutting (TcpSys w' (<[k:=p']> ph) ss').
Proof.
  intros [Hc Hs] Hp Hl Ho. cbn in *. split; cbn; [congruence|].
  intros j [(-> & Hx)|(Hne & Hj)]%list_lookup_insert_cases; [congruence|].
  intros Hopen. by apply (Hs j Hj), Ho.
Qed.

Lemma tcp_step_shutting s s' : shutting s -> tcp_step s s' -> shutting s'.
Proof.
  intros Hsh Hstep. destruct Hstep as [k pkt buf w w' es ph ss Hk _ Ha | k pkt buf w w' es ph ss Hk _ Ha
    | k rc w w' es ph ss Hk Hr | k n w w' es ph ss Hk Hr | k last w w' es ph ss Hk Hr
    | k w w' es ph ss Hk Hr | k n w w' es ph ss Hk Hr | k last w w' es ph ss Hk Hr
    | w w' ph ss Hc | w ph ss | k p w w' es ph ss Hk Hr].
  - apply admit_conn_spec in Ha. destruct Ha. eapply shutting_update; [done..|].
    intros j Hj Ho. by apply ad_others0.
  - by apply admit_refused in Ha as ->.
  - pose proof (start_canceled _ _ _ _ _ (proj1 Hsh) Hr) as Hrc.
    apply Z.eqb_neq in Hrc. rewrite Hrc.
    pose proof (frame_start_connected k _ _ _ _ _ eq_refl Hr) as (_ & Hl & _ & Hoth)%others_step.
    eapply shutting_update; [done|done|by rewrite Hl|]. intros j Hj. by rewrite Hoth.
  - apply add_active_run in Hr as (_ & _ & Hw). eapply shutting_update; [done|done|by rewrite Hw|].
    intros j Hj. by rewrite Hw.
  - apply bind_inv in Hr as (? & w1 & e1 & e2 & Hrst & Hr & _).
    assert (frame (others k) (others k (w_ctx w1)) (set_first_pkt k [];; close_tcp_conn k)) as Hfr.
    { apply frame_bind; [frames|]. intros ?. apply frame_close_conn. }
    pose proof (Hfr _ _ _ _ eq_refl Hr) as (_ & Hl & _ & Hoth)%others_step.
    pose proof (when_reset_keeps _ _ _ _ _ Hrst) as [Hcl Hf].
    eapply shutting_update; [done|done|by rewrite Hl|]. intros j Hj. rewrite Hoth by done.
    unfold conn_at. by rewrite Hf.
  - pose proof (frame_receiver_ended k _ _ _ _ _ eq_refl Hr) as (_ & Hl & _ & Hoth)%others_step.
    eapply shutting_update; [done|done|by rewrite Hl|]. intros j Hj. by rewrite Hoth.
  - apply add_active_run in Hr as (_ & _ & Hw). eapply shutting_update; [done|done|by rewrite Hw|].
    intros j Hj. by rewrite Hw.
  - pose proof (when_reset_keeps _ _ _ _ _ Hr) as [Hcl Hf].
    eapply shutting_update; [done|done|done|]. intros j Hj. unfold conn_at. by rewrite Hf.
  - unfold core in Hc. injection Hc as _ _ Hf _ Hl _. destruct Hsh as [Hcl Hs]. split; cbn in *; [congruence|].
    unfold conn_at in *. by rewrite Hf.
  - by destruct Hsh as [_ Hs].
  - pose proof (frame_close_conn k _ _ _ _ _ eq_refl Hr) as (_ & Hl & _ & Hoth)%others_step.
    apply close_conn_closed in Hr. destruct Hsh as [Hcl Hs]. split; cbn in *; [congruence|].
    intros j Hj Ho. destruct (decide (j = k)) as [->|Hne]; [congruence|]. rewrite Hoth in Ho by done. by apply (Hs j).
Qed.
End Closing.

(** C15. Closing a TCP service terminates its connections: once a close has been
    requested and the connections in service have been shut, no interleaving of
    the accept threads, of packet handling and of further accepts puts an open
    connection into service again.  The receive threads therefore all find
    their connection closed, which is what [potr_internal_connect_thread_stop]
    waits for. *)
Theorem close_stays_closed `{CplatByteorder} `{Platform} `{!PlatformLaws} `{Host} s s' :
  close_requested (x_tcp_link (w_ctx (sys_w s))) = true ->
  (forall k, sys_phase s !! k = Some Serving -> conn_at k (w_ctx (sys_w s)) <> Some true) ->
  rtc tcp_step s s' ->
  forall k, sys_phase s' !! k = Some Serving -> conn_at k (w_ctx (sys_w s')) <> Some true.
Proof.
  intros Hc Hs Hr. assert (shutting s) as Hsh by done. clear Hc Hs.
  induction Hr as [s|s s1 s2 Hst _ IH]; [apply Hsh|]. by apply IH, (tcp_step_shutting s).
Qed.

(** A close while the first path is in service and the second one connects. *)
Definition closing_ctx (x : potr_context) : potr_context :=
  set_x_tcp_link (set_x_tcp_conn_fd x (replicate 4 false))
    (set_close_requested (x_tcp_link x) true).

Section ClosingExample.
#[local] Existing Instances little_host toy_platform toy_host.
Definition closing_w0 : world := World (closing_ctx (w_ctx two_paths_w2)) 50.
Definition closing_w1 : world := world_after (admit_conn 1 (hello 5 100) []) closing_w0.
Definition closing_w2 : world := world_after (start_connected_threads 1) closing_w1.
End ClosingExample.

Lemma closing_run : exists w0 w1 w2 e2,
  close_requested (x_tcp_link (w_ctx w0)) = true /\ conn_at 0 (w_ctx w0) = Some false /\
  @admit_conn little_host toy_platform 1 (hello 5 100) [] w0 = Some (true, w1, []) /\
  @start_connected_threads little_host toy_platform toy_host 1 w1 = Some (POTR_ERR_CANCELED, w2, e2).
Proof.
  exists closing_w0, closing_w1, closing_w2,
    (effects_of (@start_connected_threads little_host toy_platform toy_host 1) closing_w1).
  split_and!; vm_compute; reflexivity.
Qed.

Lemma close_stays_closed_witness : exists w0 w2,
  rtc (@tcp_step little_host toy_platform toy_host)
    (TcpSys w0 [Serving; Accepting] [(5, ts0); (0, ts0)])
    (TcpSys w2 [Serving; Failed] [(5, ts0); (5, Timespec 100 0)]) /\
  conn_at 0 (w_ctx w2) <> Some true.
Proof.
  destruct closing_run as (w0 & w1 & w2 & e2 & Hc & H0c & Hr1 & Hr2). exists w0, w2.
  assert (rtc (@tcp_step little_host toy_platform toy_host)
    (TcpSys w0 [Serving; Accepting] [(5, ts0); (0, ts0)])
    (TcpSys w2 [Serving; Failed] [(5, ts0); (5, Timespec 100 0)])) as Hrun.
  { eapply rtc_l; [eapply step_admit; [| |exact Hr1]; [reflexivity|repeat constructor]|].
    eapply rtc_l; [eapply step_start; [|exact Hr2]; reflexivity|]. apply rtc_refl. }
  split; [exact Hrun|].
  refine (@close_stays_closed little_host toy_platform toy_laws toy_host
    (TcpSys w0 [Serving; Accepting] [(5, ts0); (0, ts0)]) _ Hc _ Hrun 0%nat _); [|reflexivity].
  intros [|[|k]] Hk; cbn in Hk; try discriminate.
  cbn [sys_w]. rewrite H0c. discriminate.
Defined.
