(* ===== verification/Reconnect.v ===== *)
(** Losing and remaking TCP connections: what survives when the last path goes
    down, and what the next connection of the same session starts from. *)

From stdpp Require Import base list numbers option relations.
From Stdlib Require Import ZArith Lia ZifyBool.
From S2P Require Import Prelude Types Packet Window SendQueue Context PathEvent Validate.
From S2P Require Import PeerTable Threads RecvSlot Session Fin RecvWindow HealthThread Send.
From S2P Require Import SendTurn Dispatch RecvThread Frame Connect.
Local Open Scope Z_scope.
Local Open Scope porter_scope.

Section Reset.
Context `{CplatByteorder} `{Platform}.

Lemma forget_peer_session_ok g c : conn_ok g c -> conn_ok g (forget_peer_session c).
Proof.
  intros []. split; try done. destruct ok_frag. split; [done|]. cbn. lia.
Qed.

(** On TCP the send window only numbers packets: restarting it is always
    possible. *)
Lemma restart_conn_ok g c :
  is_tcp_type (service_type (x_service g)) = true -> conn_ok g c -> conn_ok g (restart_conn c).
Proof.
  intros Ht Hc%forget_peer_session_ok. destruct Hc. destruct ok_health, ok_send as [Hd Hw]. split; try done.
  split; [done|]. rewrite Ht in *. destruct Hw as [slots Hr].
  exists (replicate (Z.to_nat (win_window_size (c_send_window c))) None).
    cbn [restart_conn c_send_window set_health set_send_has_data set_send_window].
    unfold restart_window. change (c_send_window (forget_peer_session c)) with (c_send_window c) in *.
    destruct (repr_shape _ _ _ Hr) as (ps & vs & pool & [] & _). rewrite ws_valid.
    cbn [fmap option_fmap option_map]. apply (reset_repr _ _ slots); [done|lia].
Qed.

Lemma reset_all_ok g :
  is_tcp_type (service_type (x_service g)) = true -> keeps (fine g) reset_all_paths_disconnected.
Proof.
  intros Ht [x t] [Hx Hg]. cbn [w_ctx] in *. unfold reset_all_paths_disconnected. rewrite get_ctx_bind.
  cbn [w_ctx]. destruct (negb _); [by eexists _, _, _|].
  rewrite (modify_conn_bind x SlotCtx _ t _ _ eq_refl), get_ctx_bind. eexists _, _, _. split; [done|].
  split; [|done]. cbn. pose proof (with_conn_ok x SlotCtx (restart_conn (x_conn x)) _ Hx eq_refl) as Hx1.
  destruct Hx1; [|by split]. apply restart_conn_ok; [by rewrite Hg|]. apply Hx.
Qed.
End Reset.

(** ** The nonces of a session *)

(** [wire] is [data] sealed under the key of the service with [nonce]. *)
Definition sealed_with `{Platform} (g : service_config) (nonce data wire : list Z) : Prop :=
  exists aad ct, cplat_crypto_encrypt (x_crypto_buf_size g) (encrypt_key (x_service g)) nonce aad data
    = Some ct /\ wire = aad ++ ct.

Section Nonces.
Context `{CplatByteorder} `{Platform} `{!PlatformLaws}.

Lemma data_image_nonce g h seq packed wire :
  encrypt_enabled (x_service g) = true -> data_image g h seq packed = Some wire ->
  sealed_with g (make_nonce (cplat_hton32 (hdr_session_id h))
    (cplat_hton16 (Z.lor POTR_FLAG_DATA POTR_FLAG_ENCRYPTED)) (cplat_hton32 seq)) packed wire.
Proof.
  intros Henc. unfold data_image. rewrite Henc. cbv zeta.
  destruct (cplat_crypto_encrypt _ _ _ _ _) as [ct|] eqn:Hct; [|done]. intros [= <-]. by eexists _, _.
Qed.

(** The nonce [flush_build] uses: the session and the next number. *)
Lemma flush_build_nonce x t packed wire w es :
  ctx_ok x -> encrypt_enabled (x_service (x_cfg x)) = true ->
  (0 < length packed <= pack_cap (x_cfg x))%nat ->
  flush_build SlotCtx packed (World x t) = Some (Some wire, w, es) ->
  sealed_with (x_cfg x) (make_nonce (cplat_hton32 (session_id (c_session (x_conn x))))
    (cplat_hton16 (Z.lor POTR_FLAG_DATA POTR_FLAG_ENCRYPTED))
    (cplat_hton32 (win_next_seq (c_send_window (x_conn x))))) packed wire.
Proof.
  intros Hx Henc Hlen Hf. pose proof (flush_build_run SlotCtx packed x t (x_conn x) Hx eq_refl Hlen) as Hr.
  destruct (data_image _ _ _ _) as [wire'|] eqn:Hd.
  - destruct Hr as (w' & Hr & _). rewrite Hf in Hr. injection Hr as -> -> ->.
    apply data_image_nonce in Hd; [|done]. unfold own_session_hdr in Hd.
    by destruct (session_ts_to_hdr _).
  - by rewrite Hf in Hr.
Qed.
End Nonces.

(** C40. After the last TCP path of a service goes down, [reset_all_paths_disconnected]
    restarts the numbering at 0 while the session identifier, fixed when the
    service was opened, stays: the packets sent after a reconnection repeat the
    nonces of the packets sent before it.  Whatever the two messages are, the
    first packet of the session and the first packet after the reset are sealed
    under the same key with the same nonce. *)
Theorem reconnect_repeats_nonces `{CplatByteorder} `{Platform} `{!PlatformLaws}
    x t p1 wire1 w1 es1 x2 t2 p2 wire2 w2 es2 :
  ctx_ok x -> ctx_ok x2 -> x_cfg x2 = x_cfg x ->
  session_id (c_session (x_conn x2)) = session_id (c_session (x_conn x)) ->
  is_tcp_type (service_type (x_service (x_cfg x))) = true ->
  encrypt_enabled (x_service (x_cfg x)) = true ->
  win_next_seq (c_send_window (x_conn x)) = 0 -> tcp_active_paths (x_tcp_link x2) = 0 ->
  (0 < length p1 <= pack_cap (x_cfg x))%nat -> (0 < length p2 <= pack_cap (x_cfg x))%nat ->
  flush_build SlotCtx p1 (World x t) = Some (Some wire1, w1, es1) ->
  (reset_all_paths_disconnected;; flush_build SlotCtx p2) (World x2 t2) = Some (Some wire2, w2, es2) ->
  exists nonce, sealed_with (x_cfg x) nonce p1 wire1 /\ sealed_with (x_cfg x) nonce p2 wire2.
Proof.
  intros Hx Hx2 Hg Hs Ht Henc Hn Ha Hl1 Hl2 Hf1 (? & [x3 t3] & e3 & e4 & Hr & Hf2 & _)%bind_inv.
  apply flush_build_nonce in Hf1; [|done..]. eexists. split; [exact Hf1|].
  destruct (reset_all_ok (x_cfg x) Ht (World x2 t2)) as (? & w4 & e5 & Hr' & Hx3 & Hg3); [done|].
  rewrite Hr in Hr'. injection Hr' as <- <- <-. cbn [w_ctx] in Hx3, Hg3.
  apply flush_build_nonce in Hf2; rewrite ?Hg3; try done. rewrite Hg3 in Hf2.
  unfold reset_all_paths_disconnected in Hr. rewrite get_ctx_bind in Hr. cbn [w_ctx] in Hr.
  rewrite Ha in Hr. cbn [Z.eqb negb] in Hr. rewrite (modify_conn_bind x2 SlotCtx _ t2 _ _ eq_refl) in Hr.
  rewrite get_ctx_bind in Hr. injection Hr as _ <- _ _. rewrite Hn. rewrite <- Hs. exact Hf2.
Qed.

Definition down_ctx : potr_context :=
  set_x_tcp_link (example_ctx POTR_TYPE_TCP true) (TcpLinkState 0 false false 0 ts0).

Lemma reconnect_run : exists wire1 w1 wire2 w2,
  @flush_build little_host toy_platform SlotCtx [1; 2] (World (example_ctx POTR_TYPE_TCP true) 0)
    = Some (Some wire1, w1, []) /\
  (reset_all_paths_disconnected;; @flush_build little_host toy_platform SlotCtx [3; 4; 5])
    (World down_ctx 9) = Some (Some wire2, w2, []) /\ wire1 <> wire2.
Proof. eexists _, _, _, _. split_and!; [vm_compute; reflexivity..|]. vm_compute. discriminate. Qed.

Lemma reconnect_repeats_nonces_witness : exists nonce wire1 wire2,
  @sealed_with toy_platform (example_config POTR_TYPE_TCP true) nonce [1; 2] wire1 /\
  @sealed_with toy_platform (example_config POTR_TYPE_TCP true) nonce [3; 4; 5] wire2 /\ wire1 <> wire2.
Proof.
  destruct reconnect_run as (wire1 & w1 & wire2 & w2 & Hr1 & Hr2 & Hne).
  destruct (@reconnect_repeats_nonces little_host toy_platform toy_laws
    (example_ctx POTR_TYPE_TCP true) 0 [1; 2] wire1 w1 [] down_ctx 9 [3; 4; 5] wire2 w2 [])
    as (nonce & Hs1 & Hs2); try reflexivity; try done.
  - apply example_ctx_ok.
  - pose proof (@example_ctx_ok little_host POTR_TYPE_TCP true) as Hx. destruct Hx. split; assumption.
  - split; [cbn; lia|apply Nat.leb_le; vm_compute; reflexivity].
  - split; [cbn; lia|apply Nat.leb_le; vm_compute; reflexivity].
  - exists nonce, wire1, wire2. split; [exact Hs1|]. split; [exact Hs2|exact Hne].
Defined.

(** ** A connection without threads *)

Section LostSocket.
Context `{CplatByteorder} `{Platform} `{Host}.

Lemma frame_conn_send_start k v : frame (conn_at k) v potr_internal_send_thread_start.
Proof. frames. Qed.

Lemma frame_conn_leave k v : frame (conn_at k) v leave_active_paths.
Proof. frames. Qed.

(** What [sender_connect] does with a published connection. *)
Definition start_or_leave (path_idx : nat) : M bool :=
  result ← start_connected_threads path_idx;
  if negb (result =? POTR_OK) then leave_active_paths;; mret false
  else mret true.

Lemma sender_connect_published path_idx poll : sender_connect path_idx poll =
  (ok ← thread_connect_with_timeout path_idx poll;
   if negb ok then mret false
   else sender_publish path_idx;; hand_over path_idx;; start_or_leave path_idx).
Proof. reflexivity. Qed.
End LostSocket.

(** When the send thread of a TCP sender cannot be started, the connection
    just made stays open although no thread uses it: neither
    [potr_internal_start_connected_threads] nor [sender_connect_loop] closes it
    on that path, and the next connection of the path is stored over it, so
    that the socket is lost. *)
Theorem sender_start_failure_loses_socket `{CplatByteorder} `{Platform} `{Host}
    x t rc w1 e1 :
  x_role (x_cfg x) = POTR_ROLE_SENDER -> send_thread_running (x_rt x) = false ->
  conn_at 0 x = Some true ->
  potr_internal_send_thread_start (World x t) = Some (rc, w1, e1) -> rc <> POTR_OK ->
  exists w2, start_or_leave 0 (World x t) = Some (false, w2, e1) /\
    conn_at 0 (w_ctx w2) = Some true /\ sender_publish 0 w2 = None.
Proof.
  intros Hrole Hrun Hc Hs Hrc.
  assert (start_connected_threads 0 (World x t) = Some (rc, w1, e1)) as Hst.
  { unfold start_connected_threads. rewrite get_ctx_bind. cbv zeta. cbn [w_ctx]. unfold role_eqb.
    rewrite Hrole, Hrun, bool_decide_true by done. cbn [orb andb Nat.eqb negb].
    rewrite (bind_run _ _ _ _ _ _ Hs), (proj2 (Z.eqb_neq _ _) Hrc). cbn. by rewrite app_nil_r. }
  assert (exists w2, leave_active_paths w1 = Some (tt, w2, [])) as [w2 Hl].
  { destruct w1 as [x1 t1]. unfold leave_active_paths, add_active_paths.
    rewrite bind_assoc, get_ctx_bind. cbv zeta. rewrite bind_assoc, put_ctx_bind, ret_bind.
    unfold when. destruct (_ =? 0); [|by eexists]. unfold reset_all_paths_disconnected.
    rewrite get_ctx_bind. destruct (negb _); [by eexists|].
    cbn [w_ctx]. rewrite (modify_conn_bind _ SlotCtx _ _ _ _ eq_refl), get_ctx_bind. by eexists. }
  assert (conn_at 0 (w_ctx w2) = Some true) as Hc2.
  { eapply frame_conn_leave; [|exact Hl]. by eapply (frame_conn_send_start 0 _ (World x t)). }
  exists w2. split; [|split; [done|]].
  - unfold start_or_leave. rewrite (bind_run _ _ _ _ _ _ Hst), (proj2 (Z.eqb_neq _ _) Hrc). cbn [negb].
    rewrite (bind_run_nil _ _ _ _ _ Hl). cbn. by rewrite app_nil_r.
  - destruct w2 as [x2 t2]. cbn [w_ctx] in Hc2. unfold sender_publish, add_active_paths.
    rewrite bind_assoc, get_ctx_bind. cbv zeta. rewrite bind_assoc, put_ctx_bind, ret_bind.
    cbn [w_ctx w_tick]. unfold when. unfold reset_connection_state, conn_at in *.
    destruct (_ =? 1).
    + rewrite (modify_conn_bind _ SlotCtx _ _ _ _ eq_refl). unfold publish_conn.
      rewrite bind_assoc, get_ctx_bind, bind_assoc. cbn. by rewrite Hc2.
    + rewrite ret_bind. unfold publish_conn. rewrite bind_assoc, get_ctx_bind, bind_assoc.
      cbn. by rewrite Hc2.
Qed.

(** No lock can be created. *)
Definition locks_fail_host : Host := {|
  lock_create_ok _ := false;
  thread_create_ok := @thread_create_ok toy_host;
  thread_join_ok := @thread_join_ok toy_host;
  socket_ok := @socket_ok toy_host;
  shutdown_closes := @shutdown_closes toy_host;
  socket_result := @socket_result toy_host;
  cond_wait := @cond_wait toy_host;
  compress_header_size := 4;
  cplat_ipv4_resolve := @cplat_ipv4_resolve toy_host;
  cplat_ipv4_parse := @cplat_ipv4_parse toy_host
|}.

Definition sender_ctx : potr_context :=
  let x := two_paths_ctx in
  let g := two_paths_config in
  set_x_tcp_link (set_x_tcp_conn_fd (set_x_cfg x
    (ServiceConfig true (x_service g) (x_global g) 1000 300 POTR_ROLE_SENDER 1 false 0
       (replicate 4 0) (replicate 4 0) 200 80)) [true; false; false; false])
    (TcpLinkState 1 false false 0 ts0).

Lemma sender_start_failure_loses_socket_witness : exists w2,
  @start_or_leave little_host toy_platform locks_fail_host 0 (World sender_ctx 0) = Some (false, w2, []) /\
  conn_at 0 (w_ctx w2) = Some true /\ @sender_publish toy_platform 0 w2 = None.
Proof.
  eapply (@sender_start_failure_loses_socket little_host toy_platform locks_fail_host sender_ctx 0 POTR_ERR_UNKNOWN).
  - reflexivity.
  - reflexivity.
  - reflexivity.
  - cbv. reflexivity.
  - discriminate.
Defined.
