(* ===== verification/HealthCheck.v ===== *)
(** What a time-out of a 1:1 UDP service does, and does not do: the effect of
    [thread_recv_health_check_service] on the session of the service. *)

From stdpp Require Import base list numbers option.
From Stdlib Require Import ZArith Lia ZifyBool.
From S2P Require Import Prelude Types Packet Window Context PathEvent Validate PeerTable.
From S2P Require Import RecvSlot Session Fin RecvWindow HealthThread Dispatch RecvThread Threads Frame Connect.
Local Open Scope Z_scope.
Local Open Scope porter_scope.

Definition ctx_health (x : potr_context) : health_state := c_health (x_conn x).

(** What the loop over the paths leaves alone. *)
Definition kept (x : potr_context) :=
  (x_cfg x, c_session (x_conn x), c_recv_window (x_conn x), c_fin (x_conn x), c_reorder (x_conn x),
   health_alive (ctx_health x), last_recv_ts (ctx_health x)).

(** The path [k] is over its time-out at [now_ts]. *)
Definition expired `{Platform} (now_ts : timespec) (x : potr_context) (k : nat) : Prop :=
  exists ts, path_last_recv_ts (ctx_health x) !! k = Some ts /\ tv_sec ts <> 0 /\
    elapsed now_ts ts (x_health_timeout_ms (x_cfg x)) = true.

Definition ping_at (x : potr_context) (k : nat) : option Z := path_ping_state (ctx_health x) !! k.

(** The time-outs of the paths and of the service belong together: a service
    that is alive has a normal path; a normal path has been heard of; and no
    path has been heard of later than the service. *)
Definition timeouts_aligned `{Platform} (x : potr_context) : Prop :=
  (health_alive (ctx_health x) = true -> exists k, ping_at x k = Some POTR_PING_STATE_NORMAL) /\
  (forall k, ping_at x k = Some POTR_PING_STATE_NORMAL -> (k < x_n_path (x_cfg x))%nat /\
     exists ts, path_last_recv_ts (ctx_health x) !! k = Some ts /\ tv_sec ts <> 0) /\
  (forall k ts now timeout, path_last_recv_ts (ctx_health x) !! k = Some ts -> tv_sec ts <> 0 ->
     elapsed now (last_recv_ts (ctx_health x)) timeout = true -> elapsed now ts timeout = true).

Section HealthCheck.
Context `{CplatByteorder} `{Platform}.

(** The state of a path after the loop over the paths [k .. k + n - 1]: that of
    an expired path is abnormal, and it counts as a change unless it already
    was. *)
Definition checked (now_ts : timespec) (k n : nat) (x : potr_context) (ch ch' : bool) (x' : potr_context) : Prop :=
  kept x' = kept x /\ (ch = true -> ch' = true) /\
  (forall j, ping_at x' j = ping_at x j \/ ping_at x' j = Some POTR_PING_STATE_ABNORMAL) /\
  (forall j, (k <= j < k + n)%nat -> expired now_ts x j ->
     ping_at x' j = Some POTR_PING_STATE_ABNORMAL /\
     (ping_at x j = Some POTR_PING_STATE_NORMAL -> ch' = true)).

Lemma lift_bind_inv {A B} (o : option A) (k : A -> M B) w r :
  (lift o ≫= k) w = Some r -> exists a, o = Some a /\ k a w = Some r.
Proof.
  destruct o as [a|]; [|done]. rewrite (lift_bind _ a) by done. by exists a.
Qed.

(** The body of the loop on an expired path. *)
Lemma expire_path_inv k w w' es :
  expire_path k w = Some (tt, w', es) ->
  kept (w_ctx w') = kept (w_ctx w) /\ (forall j, ping_at (w_ctx w') j = ping_at (w_ctx w) j) /\
  (forall j, j <> k -> path_last_recv_ts (ctx_health (w_ctx w')) !! j = path_last_recv_ts (ctx_health (w_ctx w)) !! j).
Proof.
  unfold expire_path. rewrite get_ctx_bind. cbv zeta. intros Hr.
  apply lift_bind_inv in Hr as (? & _ & Hr). apply lift_bind_inv in Hr as (ts & _ & Hr).
  apply lift_bind_inv in Hr as (d & _ & [= <- <-]). destruct w as [x0 t0]. cbn [w_ctx].
  split; [done|]. split; [done|]. intros j Hj. unfold ctx_health. cbn. by rewrite list_lookup_insert_ne.
Qed.

Lemma set_ping_inv states k next c l :
  thread_recv_set_path_ping_state states k next = Some (c, l) ->
  l !! k = Some next /\ (forall j, j <> k -> l !! j = states !! j) /\
  (forall st, states !! k = Some st -> st <> next -> c = true).
Proof.
  unfold thread_recv_set_path_ping_state. destruct (states !! k) as [st|] eqn:Hst; [|done]. cbn.
  destruct (Z.eqb_spec st next) as [<-|Hne]; intros [= <- <-].
  - split; [done|]. split; [done|]. congruence.
  - split; [apply list_lookup_insert_eq; by eapply lookup_lt_Some|]. split; [|done].
    intros j Hj. by rewrite list_lookup_insert_ne.
Qed.

Lemma expired_same now_ts x x' j :
  kept x' = kept x -> path_last_recv_ts (ctx_health x') !! j = path_last_recv_ts (ctx_health x) !! j ->
  expired now_ts x j -> expired now_ts x' j.
Proof. intros [= Hg _ _ _ _ _ _] Hl (ts & Hts & Hs & He). exists ts. by rewrite Hl, Hg. Qed.

(** One path, then the others. *)
Lemma checked_step now_ts k n x ch x1 ch1 ch' x' :
  kept x1 = kept x -> (ch = true -> ch1 = true) ->
  (forall j, j <> k -> ping_at x1 j = ping_at x j /\
     path_last_recv_ts (ctx_health x1) !! j = path_last_recv_ts (ctx_health x) !! j) ->
  (ping_at x1 k = ping_at x k \/ ping_at x1 k = Some POTR_PING_STATE_ABNORMAL) ->
  (expired now_ts x k -> ping_at x1 k = Some POTR_PING_STATE_ABNORMAL /\
     (ping_at x k = Some POTR_PING_STATE_NORMAL -> ch1 = true)) ->
  checked now_ts (S k) n x1 ch1 ch' x' -> checked now_ts k (S n) x ch ch' x'.
Proof.
  intros Hk Hc Hne Hp He (Hk' & Hc' & Hp' & He'). split; [congruence|]. split; [auto|]. split.
  - intros j. destruct (Hp' j) as [Hj|]; [|auto]. rewrite Hj.
    destruct (decide (j = k)) as [->|Hjk]; [done|]. left. apply (Hne j Hjk).
  - intros j Hj Hx. destruct (decide (j = k)) as [->|Hjk].
    + destruct (He Hx) as [Ha Hn]. split; [|auto]. destruct (Hp' k) as [Hj'|]; [congruence|done].
    + destruct (Hne j Hjk) as [Hpj Hlj]. rewrite <- Hpj. apply He'; [lia|]. by eapply expired_same.
Qed.

Lemma check_service_paths_inv now_ts n : forall k ch w ch' w' es,
  check_service_paths now_ts k n ch w = Some (ch', w', es) ->
  checked now_ts k n (w_ctx w) ch ch' (w_ctx w').
Proof.
  induction n as [|n IH]; intros k ch w ch' w' es Hr; cbn [check_service_paths] in Hr.
  { injection Hr as <- <- <-. split; [done|]. split; [done|]. split; [auto|]. intros j Hj. lia. }
  rewrite get_cfg_bind, (bind_run_nil _ _ _ _ _ (get_conn_run SlotCtx w _ eq_refl)) in Hr.
  cbv zeta in Hr. apply lift_bind_inv in Hr as (ts & Hts & Hr).
  assert (forall ch1, (ch = true -> ch1 = true) -> ~ expired now_ts (w_ctx w) k ->
    checked now_ts (S k) n (w_ctx w) ch1 ch' (w_ctx w') -> checked now_ts k (S n) (w_ctx w) ch ch' (w_ctx w')) as Hskip.
  { intros ch1 Hc Hx. apply checked_step; auto. by intros ?. }
  destruct (Z.eqb_spec (tv_sec ts) 0) as [Hz|Hz]; [|destruct (elapsed _ _ _) eqn:He].
  - apply (Hskip ch); [done| |by eapply IH]. intros (ts' & Hts' & Hn & _). unfold ctx_health in Hts'. congruence.
  - apply lift_bind_inv in Hr as ([c l] & Hl & Hr).
    apply bind_inv in Hr as ([] & w1 & ? & ? & Hput & Hr & _).
    apply bind_inv in Hr as ([] & w2 & ? & ? & Hex & Hr & _).
    injection Hput as <- <-. apply expire_path_inv in Hex as (Hk & Hp & Hlr). cbn [w_ctx] in *.
    apply set_ping_inv in Hl as (Hlk & Hlj & Hc). eapply checked_step; [..|by eapply IH].
    + exact Hk.
    + by intros ->.
    + intros j Hj. rewrite Hp, Hlr by done. split; [exact (Hlj j Hj)|done].
    + right. rewrite Hp. exact Hlk.
    + intros _. split; [rewrite Hp; exact Hlk|]. intros Hn. rewrite (Hc _ Hn); [apply orb_true_r|done].
  - apply (Hskip ch); [done| |by eapply IH]. intros (ts' & Hts' & _ & He'). unfold ctx_health in Hts'. congruence.
Qed.

Lemma fill_states_lookup f states j b :
  fill_states f = Some states -> states !! j = Some b -> f j = Some b.
Proof.
  intros Hf%mapM_Some Hj. destruct (Forall2_lookup_r _ _ _ _ _ Hf Hj) as (k & [-> _]%lookup_seq & Hk). done.
Qed.

(** The session side of a connection. *)
Definition session_side (x : potr_context) :=
  (c_session (x_conn x), c_recv_window (x_conn x), c_fin (x_conn x), last_recv_ts (ctx_health x)).

(** Without a normal path the service is not alive after a synchronisation,
    and nothing but the path states changes. *)
Lemma sync_inv w w' es :
  is_tcp_type (service_type (x_service (x_cfg (w_ctx w)))) = false ->
  thread_recv_sync_path_state SlotCtx w = Some (tt, w', es) ->
  session_side (w_ctx w') = session_side (w_ctx w) /\
  ((forall j, ping_at (w_ctx w) j <> Some POTR_PING_STATE_NORMAL) -> health_alive (ctx_health (w_ctx w')) = false).
Proof.
  intros Ht. unfold thread_recv_sync_path_state. rewrite get_ctx_bind. cbv zeta.
  rewrite Ht. intros Hr. apply lift_bind_inv in Hr as (next & Hnext & Hr).
  destruct (sync_and_emit_run SlotCtx next w _ eq_refl) as (id & h' & _ & -> & Hrun).
  rewrite Hrun in Hr. injection Hr as <- <-. split; [done|]. intros Hn. unfold ctx_health. cbn.
  unfold any_path_alive. apply not_true_is_false. intros (b & Hb & Hid)%existsb_exists.
  apply list_elem_of_In, elem_of_take in Hb as (j & Hj & _).
  assert (exists st, ping_at (w_ctx w) j = Some st /\ (path_state_is_normal st = false -> b = false)) as (st & Hst & Hf).
  { unfold ping_at, ctx_health. destruct (type_eqb _ _); apply (fill_states_lookup _ _ _ _ Hnext) in Hj;
      (destruct (path_ping_state _ !! j) as [st|]; [|done]); exists st; (split; [done|]); cbn in Hj;
      intros Hnn; rewrite Hnn in Hj; congruence. }
  rewrite Hf in Hid; [done|]. apply Z.eqb_neq. intros ->. exact (Hn _ Hst).
Qed.
(** When the service is over its time-out, no path stays normal. *)
Lemma all_paths_expire now_ts x ch' x' :
  timeouts_aligned x -> checked now_ts 0 (x_n_path (x_cfg x)) x false ch' x' ->
  elapsed now_ts (last_recv_ts (ctx_health x)) (x_health_timeout_ms (x_cfg x)) = true ->
  (forall j, ping_at x' j <> Some POTR_PING_STATE_NORMAL) /\
  (ch' = false -> health_alive (ctx_health x') = false).
Proof.
  intros (Ha & Hn & Hl) (Hk & _ & Hp & He) Hel.
  assert (forall j, ping_at x j = Some POTR_PING_STATE_NORMAL -> (0 <= j < 0 + x_n_path (x_cfg x))%nat /\ expired now_ts x j) as Hx.
  { intros j Hj. destruct (Hn j Hj) as (Hlt & ts & Hts & Hz). split; [lia|]. exists ts. eauto. }
  split.
  - intros j Hj. destruct (Hp j) as [Hj'|Hj']; rewrite Hj' in Hj; [|done].
    destruct (Hx j Hj) as [Hlt Hexp]. destruct (He j Hlt Hexp) as [Hab _]. rewrite Hj', Hj in Hab. done.
  - intros ->. injection Hk as _ _ _ _ _ Hal _. rewrite Hal. destruct (health_alive (ctx_health x)); [|done].
    destruct (Ha eq_refl) as [k Hkn]. destruct (Hx k Hkn) as [Hlt Hexp].
    destruct (He k Hlt Hexp) as [_ Hch]. by rewrite Hch.
Qed.

Lemma frame_wake x0 b : frame id x0 (thread_recv_wake_udp_interrupt_ping b).
Proof. frames. Qed.

Lemma kept_session x x' : kept x' = kept x -> session_side x' = session_side x /\ x_cfg x' = x_cfg x.
Proof. intros [= ? ? ? ? ? ? ?]. unfold session_side. split; congruence. Qed.

(** The part behind the loop. *)
Lemma check_rest_inv now_ts x ch w1 w2 es1 :
  timeouts_aligned x -> is_tcp_type (service_type (x_service (x_cfg x))) = false ->
  checked now_ts 0 (x_n_path (x_cfg x)) x false ch (w_ctx w1) ->
  when ch (thread_recv_sync_path_state SlotCtx) w1 = Some (tt, w2, es1) ->
  (elapsed now_ts (last_recv_ts (ctx_health x)) (x_health_timeout_ms (x_cfg x)) = true ->
     health_alive (ctx_health (w_ctx w2)) = false) /\ session_side (w_ctx w2) = session_side x.
Proof.
  intros Hx Ht Hch Hw. pose proof Hch as (Hk & _). destruct (kept_session _ _ Hk) as [Hs Hg].
  destruct ch; cbn [when] in Hw.
  - apply sync_inv in Hw as [Hs2 Hd]; [|by rewrite Hg]. split; [|congruence].
    intros He. apply Hd. by eapply all_paths_expire.
  - injection Hw as <- <-. split; [|done]. intros He. by eapply all_paths_expire.
Qed.
End HealthCheck.

(** C36. A time-out never resets the session of a 1:1 UDP service, although the
    code after the loop over the paths is there to do it.  When the service as
    a whole is over its time-out, so is every path; marking the paths abnormal
    synchronises the service to disconnected, and the test of [health_alive]
    that follows returns before the session, the receive window, a pending FIN
    and the time of the last packet are reset.  So whatever the clock says, the
    session, the receive window and the pending FIN are those of before, and a
    service that timed out is disconnected with its old session. *)
Theorem timeout_keeps_session `{CplatByteorder} `{Platform} `{!PlatformLaws} x t :
  ctx_ok x -> is_tcp_type (service_type (x_service (x_cfg x))) = false ->
  x_health_timeout_ms (x_cfg x) <> 0 -> timeouts_aligned x ->
  exists w' es, thread_recv_health_check_service (World x t) = Some (tt, w', es) /\
    c_session (x_conn (w_ctx w')) = c_session (x_conn x) /\
    c_recv_window (x_conn (w_ctx w')) = c_recv_window (x_conn x) /\
    c_fin (x_conn (w_ctx w')) = c_fin (x_conn x) /\
    (elapsed (clock_monotonic t) (last_recv_ts (ctx_health x)) (x_health_timeout_ms (x_cfg x)) = true ->
     health_alive (ctx_health (w_ctx w')) = false).
Proof.
  intros Hx Ht Hz Hal.
  destruct (health_check_service_ok (x_cfg x) (xo_cfg _ Hx) (World x t)) as ([] & w' & es & Hr & _);
    [split; [by split|by eexists]|].
  exists w', es. split; [done|]. unfold thread_recv_health_check_service in Hr.
  rewrite get_cfg_bind in Hr. cbn [w_ctx] in Hr. rewrite (proj2 (Z.eqb_neq _ _) Hz) in Hr.
  apply bind_inv in Hr as (now_ts & w0 & ? & ? & [= <- <- <-] & Hr & _).
  apply bind_inv in Hr as (ch & w1 & ? & ? & Hch & Hr & _). apply check_service_paths_inv in Hch.
  apply bind_inv in Hr as ([] & w2 & ? & ? & Hsync & Hr & _).
  destruct (check_rest_inv _ x ch w1 w2 _ Hal Ht Hch Hsync) as [Hdead Hside]. cbn [w_tick].
  rewrite (bind_run_nil _ _ _ _ _ (get_conn_run SlotCtx w2 _ eq_refl)) in Hr. cbv zeta in Hr.
  injection Hside as Hses Hwin Hfin Hlast. unfold ctx_health in *.
  destruct (negb (health_alive (c_health (x_conn (w_ctx w2))))) eqn:Ha; cbn [orb] in Hr.
  { injection Hr as <- <-. apply negb_true_iff in Ha. auto. }
  destruct (elapsed (clock_monotonic t) (last_recv_ts (c_health (x_conn x))) (x_health_timeout_ms (x_cfg x))) eqn:He.
  { apply negb_false_iff in Ha. rewrite Hdead in Ha; done. }
  rewrite Hlast, He in Hr. destruct (_ =? 0); [by injection Hr as <- <-|].
  pose proof (frame_wake (w_ctx w2) _ _ _ _ _ eq_refl Hr) as Hid. unfold id in Hid. by rewrite Hid.
Qed.

(** A service that followed a session on its only path. *)
Definition followed_ctx : potr_context :=
  let x := example_ctx POTR_TYPE_UNICAST false in
  let c := x_conn x in
  set_x_conn x (set_health (set_session c (SessionState 77 (Timespec 1 0) 42 true (Timespec 1 0)))
    (HealthState true [true; false; false; false] [POTR_PING_STATE_NORMAL; 0; 0; 0] (replicate 4 0)
       (Timespec 5 0) (Timespec 5 0 :: replicate 3 ts0))).

Lemma followed_ctx_ok `{CplatByteorder} : ctx_ok followed_ctx.
Proof.
  pose proof (example_ctx_ok POTR_TYPE_UNICAST false) as Hx.
  pose proof (xo_conn _ Hx) as Hc. destruct Hx. split; try assumption. unfold followed_ctx. cbn [x_conn set_x_conn x_cfg].
  conn_solve.
Qed.

Lemma followed_ctx_aligned : @timeouts_aligned toy_platform followed_ctx.
Proof.
  split; [by exists 0%nat|]. split.
  - intros [|[|[|[|k]]]] Hk; try discriminate Hk. split; [cbn; lia|]. by exists (Timespec 5 0).
  - intros [|[|[|[|k]]]] ts now timeout Hk Hz; try discriminate Hk; injection Hk as <-; try done.
Qed.

(** Two minutes later the session is still the old one. *)
Lemma timeout_keeps_session_witness :
  exists w' es, @thread_recv_health_check_service toy_platform (World followed_ctx 125) = Some (tt, w', es) /\
    peer_session_known (c_session (x_conn (w_ctx w'))) = true /\
    health_alive (ctx_health (w_ctx w')) = false.
Proof.
  destruct (@timeout_keeps_session little_host toy_platform toy_laws followed_ctx 125)
    as (w' & es & Hr & Hs & _ & _ & Ha);
    [exact followed_ctx_ok | reflexivity | discriminate | exact followed_ctx_aligned |].
  exists w', es. split; [exact Hr|]. split; [rewrite Hs; reflexivity|apply Ha; reflexivity].
Defined.
