(* ===== verification/OpenPaths.v ===== *)
(** Sockets and paths of a new service: [api_open_paths.c],
    [api_open_paths_common.c], [api_open_paths_udp.c] and
    [api_open_paths_tcp.c]. *)

From stdpp Require Import base list numbers option.
From Stdlib Require Import ZArith Lia ZifyBool.
From S2P Require Import Prelude Types Packet Window Context PathEvent Validate PeerTable Threads.
Local Open Scope Z_scope.
Local Open Scope porter_scope.

Definition CPLAT_IPV4_ADDR_ANY : Z := 0.

(** ** Assignments to members of the context while it is being opened *)

Definition set_n_path (g : service_config) (n : nat) : service_config :=
  ServiceConfig (x_callback g) (x_service g) (x_global g) (x_health_interval_ms g)
    (x_health_timeout_ms g) (x_role g) n (x_is_multi_peer g) (x_max_peers g)
    (x_src_addr_resolved g) (x_dst_addr_resolved g) (x_compress_buf_size g) (x_crypto_buf_size g).
Definition set_src_resolved (g : service_config) (l : list Z) : service_config :=
  ServiceConfig (x_callback g) (x_service g) (x_global g) (x_health_interval_ms g)
    (x_health_timeout_ms g) (x_role g) (x_n_path g) (x_is_multi_peer g) (x_max_peers g)
    l (x_dst_addr_resolved g) (x_compress_buf_size g) (x_crypto_buf_size g).
Definition set_dst_resolved (g : service_config) (l : list Z) : service_config :=
  ServiceConfig (x_callback g) (x_service g) (x_global g) (x_health_interval_ms g)
    (x_health_timeout_ms g) (x_role g) (x_n_path g) (x_is_multi_peer g) (x_max_peers g)
    (x_src_addr_resolved g) l (x_compress_buf_size g) (x_crypto_buf_size g).
Definition set_multi_peer (g : service_config) (b : bool) : service_config :=
  ServiceConfig (x_callback g) (x_service g) (x_global g) (x_health_interval_ms g)
    (x_health_timeout_ms g) (x_role g) (x_n_path g) b (x_max_peers g)
    (x_src_addr_resolved g) (x_dst_addr_resolved g) (x_compress_buf_size g) (x_crypto_buf_size g).
Definition set_max_peers (g : service_config) (n : Z) : service_config :=
  ServiceConfig (x_callback g) (x_service g) (x_global g) (x_health_interval_ms g)
    (x_health_timeout_ms g) (x_role g) (x_n_path g) (x_is_multi_peer g) n
    (x_src_addr_resolved g) (x_dst_addr_resolved g) (x_compress_buf_size g) (x_crypto_buf_size g).
Definition set_service (g : service_config) (s : potr_service_def) : service_config :=
  ServiceConfig (x_callback g) s (x_global g) (x_health_interval_ms g)
    (x_health_timeout_ms g) (x_role g) (x_n_path g) (x_is_multi_peer g) (x_max_peers g)
    (x_src_addr_resolved g) (x_dst_addr_resolved g) (x_compress_buf_size g) (x_crypto_buf_size g).

Definition modify_cfg (f : service_config -> service_config) : M unit :=
  x ← get_ctx; put_ctx (set_x_cfg x (f (x_cfg x))).

Definition set_broadcast_addr (s : potr_service_def) (a : list Z) : potr_service_def :=
  ServiceDef (service_id s) (service_type s) (dst_port s) (src_port s) (ttl s) (pack_wait_ms s)
    (multicast_group s) a (src_addr s) (dst_addr s) (encrypt_key s) (encrypt_enabled s)
    (max_peers_def s) (service_health_interval_ms s) (service_health_timeout_ms s)
    (reconnect_interval_ms s) (connect_timeout_ms s).

(** The address string [addr[i]]. *)
Definition addr_at (addrs : list (list Z)) (i : nat) : list Z := default [] (addrs !! i).

(** The outcome of one turn of a loop over the paths. *)
Inductive loop_turn := NextPath | LastPath | Stop (rc : Z).

Fixpoint path_loop (i n : nat) (body : nat -> M loop_turn) : M Z :=
  match n with
  | O => mret POTR_OK
  | S n =>
      turn ← body i;
      match turn with
      | NextPath => path_loop (S i) n body
      | LastPath => mret POTR_OK
      | Stop rc => mret rc
      end
  end.

Section OpenPaths.
Context `{CplatByteorder} `{Platform} `{Host}.

Definition result_from_ipv4_result (r : cplat_result) : Z :=
  match r with
  | CPLAT_OK => POTR_OK
  | CPLAT_ERR_INVALID_ARGUMENT => POTR_ERR_INVALID_ARGUMENT
  | _ => POTR_ERR_IO
  end.

Definition api_paths_resolve_ipv4 (host : list Z) : M (Z * Z) :=
  '(r, a) ← tick (fun n => cplat_ipv4_resolve n host);
  mret (result_from_ipv4_result r, a).

Definition api_paths_parse_ipv4 (text : list Z) : Z * Z :=
  let '(r, a) := cplat_ipv4_parse text in (result_from_ipv4_result r, a).

(** [api_paths_resolve_ipv4(service.src_addr[i], &src_addr_resolved[i])]. *)
Definition resolve_src (i : nat) : M Z :=
  g ← get_cfg;
  '(rc, a) ← api_paths_resolve_ipv4 (addr_at (src_addr (x_service g)) i);
  if negb (rc =? POTR_OK) then mret rc
  else
    l ← store (x_src_addr_resolved g) i a;
    modify_cfg (fun g => set_src_resolved g l);;
    mret POTR_OK.

Definition resolve_dst (i : nat) : M Z :=
  g ← get_cfg;
  '(rc, a) ← api_paths_resolve_ipv4 (addr_at (dst_addr (x_service g)) i);
  if negb (rc =? POTR_OK) then mret rc
  else
    l ← store (x_dst_addr_resolved g) i a;
    modify_cfg (fun g => set_dst_resolved g l);;
    mret POTR_OK.

(** ** Sockets *)

Definition bind_socket (path : nat) (addr port : Z) : M bool :=
  emit (EvBind path (Endpoint addr (cplat_hton16 port)));; tick socket_ok.

(** [true] for a valid socket, which is then still local; a socket that cannot
    be set up is closed again. *)
Definition open_socket_unicast (path : nat) (bind_addr port : Z) : M bool :=
  ok ← open_local path;
  if negb ok then mret false
  else
    ok ← bind_socket path bind_addr port;
    if negb ok then close_local path;; mret false else mret true.

Definition open_socket_multicast (path : nat) (def : potr_service_def) (src_if : Z)
    (is_receiver : bool) : M bool :=
  let bind_port := if is_receiver then dst_port def else src_port def in
  ok ← open_local path;
  if negb ok then mret false
  else
    ok ← bind_socket path CPLAT_IPV4_ADDR_ANY bind_port;
    if negb ok then close_local path;; mret false
    else if negb (fst (api_paths_parse_ipv4 (multicast_group def)) =? POTR_OK)
    then close_local path;; mret false
    else
      ok ← tick socket_ok;
      if negb ok then close_local path;; mret false else mret true.

Definition open_socket_broadcast (path : nat) (src_port dst_port src_if : Z)
    (is_receiver : bool) : M bool :=
  let bind_port := if is_receiver then dst_port else src_port in
  ok ← open_local path;
  if negb ok then mret false
  else
    ok ← tick socket_ok;
    if negb ok then close_local path;; mret false
    else
      ok ← bind_socket path (if negb is_receiver then src_if else CPLAT_IPV4_ADDR_ANY) bind_port;
      if negb ok then close_local path;; mret false else mret true.

(** [ctx->sock[i] = open_...]: a valid socket there would be lost. *)
Definition take_socket (i : nat) (open : M bool) : M bool :=
  v ← sock_valid i;
  if v : bool then fault
  else ok ← open; when ok (hand_over i);; set_sock i ok;; mret ok.

(** [ctx->n_path++]. *)
Definition count_path : M unit := modify_cfg (fun g => set_n_path g (S (x_n_path g))).

Definition socket_path (i : nat) (open : M bool) : M loop_turn :=
  ok ← take_socket i open;
  if negb ok then mret (Stop POTR_ERR_IO) else count_path;; mret NextPath.

Definition need_path : M Z :=
  g ← get_cfg;
  mret (if (x_n_path g =? 0)%nat then POTR_ERR_INVALID_ARGUMENT else POTR_OK).

(** [result = loop; if (result != POTR_OK) return result; ...]. *)
Definition and_then (m : M Z) (k : M Z) : M Z :=
  rc ← m; if negb (rc =? POTR_OK) then mret rc else k.

(** ** UDP *)

Definition api_open_paths_unicast (role : potr_role) : M Z :=
  g ← get_cfg;
  if dst_port (x_service g) =? 0 then mret POTR_ERR_INVALID_ARGUMENT
  else and_then (path_loop 0 POTR_MAX_PATH (fun i =>
    g ← get_cfg;
    let svc := x_service g in
    if addr_is_empty (src_addr svc) i || addr_is_empty (dst_addr svc) i then mret LastPath
    else
      rc ← resolve_src i;
      if negb (rc =? POTR_OK) then mret (Stop rc)
      else
        rc ← resolve_dst i;
        if negb (rc =? POTR_OK) then mret (Stop rc)
        else
          g ← get_cfg;
          s ← lift (x_src_addr_resolved g !! i);
          d ← lift (x_dst_addr_resolved g !! i);
          socket_path i (match role with
            | POTR_ROLE_RECEIVER => open_socket_unicast i d (dst_port svc)
            | POTR_ROLE_SENDER => open_socket_unicast i s (src_port svc)
            end))) need_path.

Definition api_open_paths_multicast (role : potr_role) : M Z :=
  g ← get_cfg;
  if (dst_port (x_service g) =? 0) || (length (multicast_group (x_service g)) =? 0)%nat
  then mret POTR_ERR_INVALID_ARGUMENT
  else and_then (path_loop 0 POTR_MAX_PATH (fun i =>
    g ← get_cfg;
    let svc := x_service g in
    if addr_is_empty (src_addr svc) i then mret LastPath
    else
      rc ← resolve_src i;
      if negb (rc =? POTR_OK) then mret (Stop rc)
      else
        g ← get_cfg;
        s ← lift (x_src_addr_resolved g !! i);
        socket_path i (open_socket_multicast i svc s (role_eqb role POTR_ROLE_RECEIVER)))) need_path.

(** The string 255.255.255.255. *)
Definition limited_broadcast : list Z :=
  [50; 53; 53; 46; 50; 53; 53; 46; 50; 53; 53; 46; 50; 53; 53].

Definition api_open_paths_broadcast (role : potr_role) : M Z :=
  g ← get_cfg;
  if dst_port (x_service g) =? 0 then mret POTR_ERR_INVALID_ARGUMENT
  else
    when (length (broadcast_addr (x_service g)) =? 0)%nat
      (modify_cfg (fun g => set_service g (set_broadcast_addr (x_service g) limited_broadcast)));;
    and_then (path_loop 0 POTR_MAX_PATH (fun i =>
      g ← get_cfg;
      let svc := x_service g in
      if addr_is_empty (src_addr svc) i then mret LastPath
      else
        rc ← resolve_src i;
        if negb (rc =? POTR_OK) then mret (Stop rc)
        else
          g ← get_cfg;
          s ← lift (x_src_addr_resolved g !! i);
          socket_path i (open_socket_broadcast i (src_port svc) (dst_port svc) s
                           (role_eqb role POTR_ROLE_RECEIVER)))) need_path.

(** A receiver without source addresses: one socket, the sender is learned. *)
Definition open_dynamic_receiver : M Z :=
  g ← get_cfg;
  let svc := x_service g in
  rc ← (if addr_is_empty (dst_addr svc) 0 then mret POTR_OK else resolve_dst 0);
  if negb (rc =? POTR_OK) then mret rc
  else
    g ← get_cfg;
    d ← lift (x_dst_addr_resolved g !! 0%nat);
    ok ← take_socket 0 (open_socket_unicast 0
           (if addr_is_empty (dst_addr svc) 0 then CPLAT_IPV4_ADDR_ANY else d) (dst_port svc));
    if negb ok then mret POTR_ERR_IO
    else modify_cfg (fun g => set_n_path g 1);; mret POTR_OK.

Definition api_open_paths_unicast_bidir (role : potr_role) : M Z :=
  modify_cfg (fun g => set_multi_peer g false);;
  g ← get_cfg;
  if dst_port (x_service g) =? 0 then mret POTR_ERR_INVALID_ARGUMENT
  else if role_eqb role POTR_ROLE_RECEIVER && addr_is_empty (src_addr (x_service g)) 0
  then open_dynamic_receiver
  else and_then (path_loop 0 POTR_MAX_PATH (fun i =>
    g ← get_cfg;
    let svc := x_service g in
    if addr_is_empty (dst_addr svc) i then mret LastPath
    else if role_eqb role POTR_ROLE_RECEIVER && addr_is_empty (src_addr svc) i then mret LastPath
    else
      rc ← (if addr_is_empty (src_addr svc) i then mret POTR_OK else resolve_src i);
      if negb (rc =? POTR_OK) then mret (Stop rc)
      else
        rc ← resolve_dst i;
        if negb (rc =? POTR_OK) then mret (Stop rc)
        else
          g ← get_cfg;
          s ← lift (x_src_addr_resolved g !! i);
          d ← lift (x_dst_addr_resolved g !! i);
          socket_path i (match role with
            | POTR_ROLE_SENDER =>
                open_socket_unicast i (if addr_is_empty (src_addr svc) i then CPLAT_IPV4_ADDR_ANY else s)
                  (src_port svc)
            | POTR_ROLE_RECEIVER => open_socket_unicast i d (dst_port svc)
            end))) need_path.

(** [ctx->max_peers = (int)ctx->service.max_peers], or the default. *)
Definition effective_max_peers (max_peers : Z) : Z :=
  if i32 max_peers <=? 0 then 1024 else i32 max_peers.

Definition api_open_paths_unicast_bidir_n1 : M Z :=
  modify_cfg (fun g => set_multi_peer g true);;
  g ← get_cfg;
  let svc := x_service g in
  if dst_port svc =? 0 then mret POTR_ERR_INVALID_ARGUMENT
  else
    and_then
      (if addr_is_empty (dst_addr svc) 0 then
         ok ← take_socket 0 (open_socket_unicast 0 CPLAT_IPV4_ADDR_ANY (dst_port svc));
         if negb ok then mret POTR_ERR_IO
         else modify_cfg (fun g => set_n_path g 1);; mret POTR_OK
       else path_loop 0 POTR_MAX_PATH (fun i =>
         if addr_is_empty (dst_addr svc) i then mret LastPath
         else
           rc ← resolve_dst i;
           if negb (rc =? POTR_OK) then mret (Stop rc)
           else
             g ← get_cfg;
             d ← lift (x_dst_addr_resolved g !! i);
             ok ← take_socket i (open_socket_unicast i d (dst_port svc));
             if negb ok then mret (Stop POTR_ERR_IO)
             else modify_cfg (fun g => set_n_path g (S i));; mret NextPath))
      (modify_cfg (fun g => set_max_peers g (effective_max_peers (max_peers_def svc)));;
       potr_internal_peer_table_init (effective_max_peers (max_peers_def svc))).

(** ** TCP *)

Definition open_socket_tcp_receiver (path_idx : nat) : M Z :=
  g ← get_cfg;
  let svc := x_service g in
  rc ← (if addr_is_empty (dst_addr svc) path_idx then mret POTR_OK else resolve_dst path_idx);
  if negb (rc =? POTR_OK) then mret rc
  else
    rc ← (if addr_is_empty (src_addr svc) path_idx then mret POTR_OK else resolve_src path_idx);
    if negb (rc =? POTR_OK) then mret rc
    else
      g ← get_cfg;
      d ← lift (x_dst_addr_resolved g !! path_idx);
      let failed := e ← tick error_cause; mret (potr_internal_result_from_error e) in
      ok ← open_local path_idx;
      if negb ok then failed
      else
        ok ← bind_socket path_idx
               (if addr_is_empty (dst_addr svc) path_idx then CPLAT_IPV4_ADDR_ANY else d) (dst_port svc);
        if negb ok then close_local path_idx;; failed
        else
          ok ← tick socket_ok;
          if negb ok then close_local path_idx;; failed
          else hand_over path_idx;; acquire (HTcpListenSock path_idx);; mret POTR_OK.

Definition open_socket_tcp_sender (path_idx : nat) : M Z :=
  g ← get_cfg;
  let svc := x_service g in
  if addr_is_empty (dst_addr svc) path_idx then mret POTR_ERR_INVALID_ARGUMENT
  else
    and_then (resolve_dst path_idx)
      (if addr_is_empty (src_addr svc) path_idx then mret POTR_OK else resolve_src path_idx).

Definition api_open_paths_tcp (role : potr_role) : M Z :=
  g ← get_cfg;
  if dst_port (x_service g) =? 0 then mret POTR_ERR_INVALID_ARGUMENT
  else and_then (path_loop 0 POTR_MAX_PATH (fun i =>
    g ← get_cfg;
    if addr_is_empty (dst_addr (x_service g)) i then mret LastPath
    else
      rc ← (match role with
            | POTR_ROLE_RECEIVER => open_socket_tcp_receiver i
            | POTR_ROLE_SENDER => open_socket_tcp_sender i
            end);
      if negb (rc =? POTR_OK) then mret (Stop rc)
      else modify_cfg (fun g => set_n_path g (S i));; mret NextPath)) need_path.

(** ** By type *)

Definition api_open_paths_by_type (role : potr_role) : M Z :=
  g ← get_cfg;
  match raw_base_type (service_type (x_service g)) with
  | POTR_TYPE_UNICAST => api_open_paths_unicast role
  | POTR_TYPE_MULTICAST => api_open_paths_multicast role
  | POTR_TYPE_BROADCAST => api_open_paths_broadcast role
  | POTR_TYPE_UNICAST_BIDIR => api_open_paths_unicast_bidir role
  | POTR_TYPE_UNICAST_BIDIR_N1 => api_open_paths_unicast_bidir_n1
  | POTR_TYPE_TCP | POTR_TYPE_TCP_BIDIR => api_open_paths_tcp role
  | _ => mret POTR_ERR_UNSUPPORTED
  end.

(** The destination of path [i]. *)
Definition set_dest (i : nat) (d : endpoint) : M unit :=
  c ← get_conn SlotCtx;
  l ← store (c_dest_addr c) i d;
  put_conn SlotCtx (set_dest_addr c l).

Definition api_setup_dest_addr (role : potr_role) : M Z :=
  g ← get_cfg;
  let svc := x_service g in
  let all (f : nat -> option Z) (port : Z) :=
    for_range 0 (x_n_path g) (fun i =>
      a ← lift (f i); set_dest i (Endpoint a (cplat_hton16 port)));;
    mret POTR_OK in
  if negb (role_eqb role POTR_ROLE_SENDER) && negb (type_eqb (service_type svc) POTR_TYPE_UNICAST_BIDIR)
  then mret POTR_OK
  else
    match raw_base_type (service_type svc) with
    | POTR_TYPE_UNICAST_BIDIR | POTR_TYPE_UNICAST_BIDIR_N1 =>
        match role with
        | POTR_ROLE_SENDER => all (fun i => x_dst_addr_resolved g !! i) (dst_port svc)
        | POTR_ROLE_RECEIVER => all (fun i => x_src_addr_resolved g !! i) (src_port svc)
        end
    | POTR_TYPE_UNICAST => all (fun i => x_dst_addr_resolved g !! i) (dst_port svc)
    | POTR_TYPE_MULTICAST =>
        let '(rc, ip) := api_paths_parse_ipv4 (multicast_group svc) in
        if negb (rc =? POTR_OK) then mret POTR_ERR_INVALID_ARGUMENT
        else all (fun _ => Some ip) (dst_port svc)
    | POTR_TYPE_BROADCAST =>
        let '(rc, ip) := api_paths_parse_ipv4 (broadcast_addr svc) in
        if negb (rc =? POTR_OK) then mret POTR_ERR_INVALID_ARGUMENT
        else all (fun _ => Some ip) (dst_port svc)
    | _ => mret POTR_OK
    end.
End OpenPaths.
