(* ===== verification/Open.v ===== *)
(** Opening a service: [potr_service_open.c]. *)

From stdpp Require Import base list numbers option.
From Stdlib Require Import ZArith Lia ZifyBool.
From S2P Require Import Prelude Types Packet Window SendQueue Context PathEvent Validate PeerTable.
From S2P Require Import Threads Connect OpenPaths.
Local Open Scope Z_scope.
Local Open Scope porter_scope.

(** ** Validation *)

Definition open_validate_callback (svc : potr_service_def) (role : potr_role) (callback : bool) : Z :=
  let bidir := type_eqb (service_type svc) POTR_TYPE_UNICAST_BIDIR
               || type_eqb (service_type svc) POTR_TYPE_TCP_BIDIR in
  if role_eqb role POTR_ROLE_SENDER && callback && negb bidir then POTR_ERR_INVALID_ARGUMENT
  else if role_eqb role POTR_ROLE_SENDER && negb callback && bidir then POTR_ERR_INVALID_ARGUMENT
  else POTR_OK.

Definition valid_global (c : potr_global_config) : bool :=
  negb ((max_payload_cfg c <? 64) || (POTR_MAX_PAYLOAD <? max_payload_cfg c))
  && negb ((window_size_cfg c <? 2) || (POTR_MAX_WINDOW_SIZE <? window_size_cfg c))
  && negb (max_message_size c <? max_payload_cfg c)
  && negb (send_queue_depth c <? 2).

(** The effective health check interval and time-out: the service's own
    values, where they are not 0, replace the defaults of its transport. *)
Definition resolve_health (g : service_config) : service_config :=
  let c := x_global g in
  let svc := x_service g in
  let '(interval, timeout) :=
    if is_tcp_type (service_type svc) then (tcp_health_interval_ms c, tcp_health_timeout_ms c)
    else (udp_health_interval_ms c, udp_health_timeout_ms c) in
  let interval := if negb (service_health_interval_ms svc =? 0)
                  then service_health_interval_ms svc else interval in
  let timeout := if negb (service_health_timeout_ms svc =? 0)
                 then service_health_timeout_ms svc else timeout in
  ServiceConfig (x_callback g) svc c interval timeout (x_role g) (x_n_path g) (x_is_multi_peer g)
    (x_max_peers g) (x_src_addr_resolved g) (x_dst_addr_resolved g) (x_compress_buf_size g)
    (x_crypto_buf_size g).

Definition open_validate_config : M Z :=
  g ← get_cfg;
  if negb (valid_global (x_global g)) then mret POTR_ERR_INVALID_ARGUMENT
  else modify_cfg resolve_health;; mret POTR_OK.

(** ** Assignments *)

Definition set_callback (g : service_config) (callback : bool) (role : potr_role) : service_config :=
  ServiceConfig callback (x_service g) (x_global g) (x_health_interval_ms g)
    (x_health_timeout_ms g) role (x_n_path g) (x_is_multi_peer g) (x_max_peers g)
    (x_src_addr_resolved g) (x_dst_addr_resolved g) (x_compress_buf_size g) (x_crypto_buf_size g).
Definition set_compress_size (g : service_config) (n : nat) : service_config :=
  ServiceConfig (x_callback g) (x_service g) (x_global g) (x_health_interval_ms g)
    (x_health_timeout_ms g) (x_role g) (x_n_path g) (x_is_multi_peer g) (x_max_peers g)
    (x_src_addr_resolved g) (x_dst_addr_resolved g) n (x_crypto_buf_size g).
Definition set_crypto_size (g : service_config) (n : nat) : service_config :=
  ServiceConfig (x_callback g) (x_service g) (x_global g) (x_health_interval_ms g)
    (x_health_timeout_ms g) (x_role g) (x_n_path g) (x_is_multi_peer g) (x_max_peers g)
    (x_src_addr_resolved g) (x_dst_addr_resolved g) (x_compress_buf_size g) n.

Definition copy_config (g : service_config) (c : potr_global_config) (svc : potr_service_def)
    : service_config :=
  ServiceConfig (x_callback g) svc c (x_health_interval_ms g)
    (x_health_timeout_ms g) (x_role g) (x_n_path g) (x_is_multi_peer g) (x_max_peers g)
    (x_src_addr_resolved g) (x_dst_addr_resolved g) (x_compress_buf_size g) (x_crypto_buf_size g).

(** The context after [memset] and the invalidation of its sockets.  The role,
    whose zero is no enumerator, is not read before it is stored. *)
Definition zero_global : potr_global_config := GlobalConfig 0 0 0 0 0 0 0 0 0 0.
Definition zero_service : potr_service_def :=
  ServiceDef 0 POTR_TYPE_OTHER 0 0 0 0 [] [] (replicate POTR_MAX_PATH []) (replicate POTR_MAX_PATH [])
    (replicate POTR_CRYPTO_KEY_SIZE 0) false 0 0 0 0 0.
Definition zero_config (role : potr_role) : service_config :=
  ServiceConfig false zero_service zero_global 0 0 role 0 false 0 (replicate POTR_MAX_PATH 0)
    (replicate POTR_MAX_PATH 0) 0 0.
Definition blank_ctx (role : potr_role) : potr_context :=
  PotrContext (zero_config role) zero_conn (replicate POTR_MAX_PATH false) (replicate POTR_MAX_PATH 0) None 0 0
    (replicate POTR_MAX_PATH false) (TcpCloseState false false 0 0) (replicate POTR_MAX_PATH 0)
    (replicate POTR_MAX_PATH false) 0 0 (TcpLinkState 0 false false 0 (Timespec 0 0))
    (Runtime [] false (replicate POTR_MAX_PATH false) (replicate POTR_MAX_PATH false)
       (replicate POTR_MAX_PATH false) (replicate POTR_MAX_PATH [])).

Section Open.
Context `{CplatByteorder} `{Platform} `{Host}.

Definition generate_session : M bool :=
  r ← tick random_u32;
  match r with
  | None => mret false
  | Some sid =>
      now ← tick clock_realtime;
      modify_conn SlotCtx (fun c => set_session c
        (SessionState sid now (peer_session_id (c_session c)) (peer_session_known (c_session c))
           (peer_session_ts (c_session c))));;
      x ← get_ctx;
      put_ctx (set_x_last_valid_data_send_ms (set_x_last_ping_send_ms x 0) 0);;
      mret true
  end.

(** ** Buffers *)

(** [ctx->send_window] and [ctx->send_has_data]. *)
Definition init_send_window : M Z :=
  c ← get_conn SlotCtx;
  '(rc, w) ← init_window (c_send_window c) 0;
  put_conn SlotCtx (set_send_window c w);;
  if negb (rc =? POTR_OK) then mret rc
  else modify_conn SlotCtx (fun c => set_send_has_data c false);; mret POTR_OK.

Definition init_recv_window : M Z :=
  c ← get_conn SlotCtx;
  '(rc, w) ← init_window (c_recv_window c) 0;
  put_conn SlotCtx (set_recv_window c w);;
  mret rc.

(** [ctx->frag_buf]; what a fresh buffer holds does not matter. *)
Definition alloc_frag : M bool :=
  g ← get_cfg;
  ok ← tick alloc_ok;
  when ok (modify_conn SlotCtx (fun c => set_frag c
    (FragState (Some (replicate (Z.to_nat (max_message_size (x_global g))) 0))
       (frag_buf_len (c_frag c)) (frag_compressed (c_frag c)))));;
  mret ok.

(** A buffer without which the service cannot be opened. *)
Definition or_no_memory (alloc : M bool) (k : M Z) : M Z :=
  ok ← alloc; if negb ok then mret POTR_ERR_OUT_OF_MEMORY else k.

Definition alloc_context_buffers : M Z :=
  g ← get_cfg;
  let c := x_global g in
  and_then init_send_window
  (and_then init_recv_window
  (or_no_memory alloc_frag
  (modify_cfg (fun g => set_compress_size g
     (compress_header_size + Z.to_nat (max_message_size c) + 64)%nat);;
   or_no_memory (alloc_buf HCompressBuf)
  (or_no_memory (alloc_buf HRecvBuf)
  (or_no_memory (alloc_buf HSendWireBuf)
  (modify_cfg (fun g => set_crypto_size g (Z.to_nat (max_payload_cfg c) + POTR_CRYPTO_TAG_SIZE)%nat);;
   or_no_memory (alloc_buf HCryptoBuf)
  (a ← alloc_buf HRecvCompressBuf;
   b ← alloc_buf HRecvCryptoBuf;
   if negb a || negb b then mret POTR_ERR_OUT_OF_MEMORY
   else if is_tcp_type (service_type (x_service g)) then
     or_no_memory (for_while 0 (x_n_path g) (fun i => alloc_buf (HTcpRecvBuf i))) (mret POTR_OK)
   else mret POTR_OK))))))).

(** ** Threads *)

(** Locks and condition variables, up to the first that cannot be created. *)
Fixpoint create_locks (hs : list handle) : M bool :=
  match hs with
  | [] => mret true
  | h :: hs => ok ← create_lock h; if ok : bool then create_locks hs else mret false
  end.

Definition open_send_queue : M Z :=
  g ← get_cfg;
  a ← tick alloc_ok;
  b ← tick alloc_ok;
  sync ← tick lock_create_ok;
  let '(rc, q) := potr_internal_send_queue_init (a, b) sync
    (Z.to_nat (send_queue_depth (x_global g))) (max_payload_cfg (x_global g)) in
  when (sq_sync q) (acquire HSendQueue);;
  mret rc.

Definition close_send_queue : M unit := dispose HSendQueue.

(** The three groups of locks of a TCP service. *)
Definition tcp_global_locks : list handle :=
  [HTcpRecvMutex; HTcpStateMutex; HTcpStateCv; HTcpCloseMutex; HTcpCloseCv].
Definition tcp_path_locks (k : nat) : list handle :=
  [HTcpSendMutex k; HHealthMutex k; HHealthWakeup k].

Definition start_threads_tcp (role : potr_role) : M Z :=
  let failed := api_context_dispose_tcp_sync;; mret POTR_ERR_UNKNOWN in
  ok ← create_locks tcp_global_locks;
  if negb ok then failed
  else
    ok ← for_while 0 POTR_MAX_PATH (fun k => create_locks (tcp_path_locks k));
    if negb ok then failed
    else
      ok ← create_lock HRecvWindowMutex;
      if negb ok then failed
      else
        g ← get_cfg;
        let sends := role_eqb role POTR_ROLE_SENDER
                     || type_eqb (service_type (x_service g)) POTR_TYPE_TCP_BIDIR in
        result ← (if sends then open_send_queue else mret POTR_OK);
        if negb (result =? POTR_OK) then api_context_dispose_tcp_sync;; mret result
        else
          result ← potr_internal_connect_thread_start;
          if negb (result =? POTR_OK) then
            x ← get_ctx;
            if api_context_has_threads x then mret result
            else when sends close_send_queue;; api_context_dispose_tcp_sync;; mret result
          else mret result.

(** The end of a failed start: the send thread is stopped, and the queue is
    disposed of unless a thread is still running. *)
Definition undo_send_thread (result : Z) : M Z :=
  potr_internal_send_thread_stop;;
  x ← get_ctx;
  if api_context_has_threads x then mret result else close_send_queue;; mret result.

(** The threads of a service that sends. *)
Definition start_sending_threads : M Z :=
  g ← get_cfg;
  and_then open_send_queue
  (result ← potr_internal_send_thread_start;
   if negb (result =? POTR_OK) then close_send_queue;; mret result
   else
     set_health_immediate 0 false;;
     when (type_uses_immediate_health_ping (service_type (x_service g))) (set_health_immediate 0 true);;
     result ← potr_internal_health_thread_start;
     if negb (result =? POTR_OK) then undo_send_thread result
     else
       result ← potr_internal_comm_recv_thread_start;
       if negb (result =? POTR_OK) then
         stopped ← potr_internal_health_thread_stop;
         if negb (stopped =? POTR_OK) then mret result else undo_send_thread result
       else mret POTR_OK).

Definition start_threads_udp (role : potr_role) : M Z :=
  g ← get_cfg;
  let t := service_type (x_service g) in
  let two_way := type_eqb t POTR_TYPE_UNICAST_BIDIR || type_eqb t POTR_TYPE_UNICAST_BIDIR_N1 in
  and_then (if role_eqb role POTR_ROLE_RECEIVER && negb two_way
            then potr_internal_comm_recv_thread_start else mret POTR_OK)
  (if role_eqb role POTR_ROLE_SENDER || two_way then start_sending_threads else mret POTR_OK).

(** ** The service *)

(** Does the context survive?  It does when a thread could not be joined. *)
Definition ctx_cleanup : M bool :=
  x ← get_ctx;
  if api_context_has_threads x then mret true
  else api_context_dispose_resources;; mret false.

Definition open_failed (rc : Z) : M (Z * bool) := live ← ctx_cleanup; mret (rc, live).

(** One stage of [potr_service_open]. *)
Definition stage (m : M Z) (k : M (Z * bool)) : M (Z * bool) :=
  rc ← m; if negb (rc =? POTR_OK) then open_failed rc else k.

(** What follows once the settings have been copied. *)
Definition open_context (svc : potr_service_def) (role : potr_role) (callback : bool) : M (Z * bool) :=
  stage (let rc := open_validate_callback svc role callback in
         if negb (rc =? POTR_OK) then mret rc else open_validate_config)
  (stage (api_open_paths_by_type role)
  (modify_cfg (fun g => set_callback g callback role);;
   stage (api_setup_dest_addr role)
  (stage (ok ← generate_session; mret (if ok : bool then POTR_OK else POTR_ERR_UNKNOWN))
  (stage alloc_context_buffers
  (stage (if is_tcp_type (service_type svc) then start_threads_tcp role
          else start_threads_udp role)
  (mret (POTR_OK, true))))))).

(** The result code, and whether the context is still allocated; after
    success it is what [*handle] points to. *)
Definition potr_service_open (global : option potr_global_config) (service : option potr_service_def)
    (role : potr_role) (callback handle : bool) : M (Z * bool) :=
  match global, service, handle with
  | Some c, Some svc, true =>
      if role_eqb role POTR_ROLE_RECEIVER && negb callback
      then mret (POTR_ERR_INVALID_ARGUMENT, false)
      else
        ok ← tick alloc_ok;
        if negb ok then mret (POTR_ERR_OUT_OF_MEMORY, false)
        else
          put_ctx (blank_ctx role);;
          ok ← create_lock HCallbackMutex;
          if negb ok then mret (POTR_ERR_UNKNOWN, false)
          else
            modify_cfg (fun g => copy_config g c svc);;
            open_context svc role callback
  | _, _, _ => mret (POTR_ERR_INVALID_ARGUMENT, false)
  end.
End Open.
