(* ===== verification/Resources.v ===== *)
(** The discipline of handles: which locks, threads, buffers and listening
    sockets each function of [Threads.v] and [Connect.v] needs, creates and
    gives back. *)

From stdpp Require Import base list numbers option sets.
From Stdlib Require Import ZArith Lia ZifyBool.
From S2P Require Import Prelude Types Packet Window SendQueue Context PathEvent Validate PeerTable.
From S2P Require Import HealthThread Threads Frame Connect OpenPaths Open.
Local Open Scope Z_scope.
Local Open Scope porter_scope.

(** ** Assertions *)

(** A context of configuration [g] that holds exactly the handles [l], whose
    send thread is told to run when [s] is set, and whose per-path arrays have
    their length. *)
Record owns (g : service_config) (l : list handle) (s : bool) (x : potr_context) : Prop := {
  ow_cfg : x_cfg x = g;
  ow_rt : runtime_ok (x_rt x);
  ow_health : length (x_health_running x) = POTR_MAX_PATH;
  ow_sock : length (x_sock x) = POTR_MAX_PATH;
  ow_fd : length (x_tcp_conn_fd x) = POTR_MAX_PATH;
  ow_send : send_thread_running (x_rt x) = s;
  ow_holds : forall h, h ∈ rt_handles (x_rt x) <-> h ∈ l
}.

Definition R (g : service_config) (l : list handle) (s : bool) (w : world) : Prop :=
  owns g l s (w_ctx w).

(** [l] without [ks]. *)
Definition without (l ks : list handle) : list handle := list_difference l ks.

Lemma elem_of_without h l ks : h ∈ without l ks <-> h ∈ l /\ h ∉ ks.
Proof. apply list_elem_of_difference. Qed.

(** Membership in lists of handles. *)
Ltac handles :=
  rewrite ?elem_of_without, ?list_elem_of_singleton, ?elem_of_cons, ?elem_of_nil;
  first [tauto | clear; solve [intuition congruence] | intuition congruence].

Lemma R_equiv g l l' s w : (forall h, h ∈ l <-> h ∈ l') -> R g l s w -> R g l' s w.
Proof. intros Hl []. split; try done. intros h. rewrite <- Hl. auto. Qed.

Lemma R_without_nil g l s w : R g l s w -> R g (without l []) s w.
Proof. apply R_equiv. intros h. handles. Qed.

Lemma holds_owned g l s x h : owns g l s x -> holds x h = bool_decide (h ∈ l).
Proof. intros []. unfold holds. apply bool_decide_ext. auto. Qed.

(** ** Primitives *)

Lemma R_get_ctx {B} g l s (k : potr_context -> M B) Q :
  (forall x, owns g l s x -> triple (R g l s) (k x) Q) -> triple (R g l s) (get_ctx ≫= k) Q.
Proof. intros Hk w Hw. rewrite get_ctx_bind. by apply Hk. Qed.

Lemma R_get_cfg {B} g l s (k : service_config -> M B) Q :
  triple (R g l s) (k g) Q -> triple (R g l s) (get_cfg ≫= k) Q.
Proof. intros Hk w Hw. rewrite get_cfg_bind. rewrite (ow_cfg _ _ _ _ Hw). by apply Hk. Qed.

Lemma R_ret {A} g l s (a : A) (Q : A -> world -> Prop) :
  (forall w, R g l s w -> Q a w) -> triple (R g l s) (mret a) (fun a w _ => Q a w).
Proof. intros HQ. apply triple_ret. exact HQ. Qed.

Lemma R_tick {A} g l s (f : nat -> A) : triple (R g l s) (tick f) (fun _ w _ => R g l s w).
Proof. intros [x t] Hw. eexists _, _, _. split; [done|]. done. Qed.

Lemma R_emit g l s e : triple (R g l s) (emit e) (fun _ w _ => R g l s w).
Proof. intros [x t] Hw. eexists _, _, _. split; [done|]. done. Qed.

(** Replacing the runtime part by one with other flags. *)
Lemma R_put_rt g l s s' x r :
  owns g l s x -> runtime_ok r -> send_thread_running r = s' -> rt_handles r = rt_handles (x_rt x) ->
  owns g l s' (set_x_rt x r).
Proof. intros [] Hr Hs Hh. split; try done. cbn [x_rt set_x_rt]. intros h. rewrite Hh. auto. Qed.

Lemma R_acquire g l s h : h ∉ l -> triple (R g l s) (acquire h) (fun _ w _ => R g (h :: l) s w).
Proof.
  intros Hh [x t] Hw. unfold acquire. rewrite get_ctx_bind. cbn [w_ctx].
  rewrite (holds_owned g l s x h Hw), bool_decide_false by done.
  eexists _, _, _. split; [done|]. destruct Hw as [Hg [] ? ? ? ? Hl]. split; try done.
  cbn. intros h'. rewrite !elem_of_cons, Hl. done.
Qed.

Lemma R_release g l s h :
  h ∈ l -> triple (R g l s) (release h) (fun _ w _ => R g (without l [h]) s w).
Proof.
  intros Hh [x t] Hw. unfold release. rewrite get_ctx_bind. cbn [w_ctx].
  rewrite (holds_owned g l s x h Hw), bool_decide_true by done.
  eexists _, _, _. split; [done|]. destruct Hw as [Hg [] ? ? ? ? Hl]. split; try done.
  cbn. intros h'. rewrite list_elem_of_filter, elem_of_without, list_elem_of_singleton, Hl. tauto.
Qed.

Lemma R_need g l s h : h ∈ l -> triple (R g l s) (need h) (fun _ w _ => R g l s w).
Proof.
  intros Hh [x t] Hw. unfold need. rewrite get_ctx_bind. cbn [w_ctx].
  rewrite (holds_owned g l s x h Hw), bool_decide_true by done.
  eexists _, _, _. split; [done|]. done.
Qed.

Lemma R_dispose g l s ks h :
  triple (R g (without l ks) s) (dispose h) (fun _ w _ => R g (without l (h :: ks)) s w).
Proof.
  unfold dispose. apply R_get_ctx. intros x Hx. rewrite (holds_owned _ _ _ _ h Hx).
  unfold when. case_bool_decide as Hh.
  - eapply triple_conseq; [by apply R_release|done|]. intros [] w _. apply R_equiv.
    intros h'. handles.
  - apply R_ret. intros w. apply R_equiv. intros h'. rewrite elem_of_without in Hh.
    destruct (decide (h' = h)) as [->|]; handles.
Qed.

Lemma R_when g l s b m (Q : world -> Prop) :
  (b = true -> triple (R g l s) m (fun _ w _ => Q w)) -> (b = false -> forall w, R g l s w -> Q w) ->
  triple (R g l s) (when b m) (fun _ w _ => Q w).
Proof. intros Ht Hf. destruct b; [by apply Ht|]. apply (R_ret _ _ _ tt (fun _ => Q)). by apply Hf. Qed.

(** Flags. *)
Lemma R_set_send g l s b : triple (R g l s) (set_send_running b) (fun _ w _ => R g l b w).
Proof.
  intros [x t] Hw. eexists _, _, _. split; [done|].
  eapply R_put_rt; [exact Hw|..]; try done. destruct Hw as [_ [] _ _ _ _ _]. by split.
Qed.

Ltac flag_set Hw :=
  unfold R in Hw; cbn [w_ctx] in Hw; unfold store; rewrite get_ctx_bind; cbn [w_ctx];
  rewrite (proj2 (Nat.ltb_lt _ _)) by (destruct Hw as [_ [] ? ? ? _ _]; lia);
  rewrite ret_bind; eexists _, _, _; split; [done|].
Ltac flag_keep Hw :=
  pose proof (ow_send _ _ _ _ Hw); eapply R_put_rt; [exact Hw|..]; try done;
  destruct Hw as [_ [] _ _ _ _ _]; split; cbn; rewrite ?length_insert; done.

Lemma R_set_running g l s k b :
  (k < POTR_MAX_PATH)%nat -> triple (R g l s) (set_running k b) (fun _ w _ => R g l s w).
Proof. intros Hk [x t] Hw. unfold set_running. flag_set Hw. flag_keep Hw. Qed.

Lemma R_set_connect g l s k b :
  (k < POTR_MAX_PATH)%nat -> triple (R g l s) (set_connect_running k b) (fun _ w _ => R g l s w).
Proof. intros Hk [x t] Hw. unfold set_connect_running. flag_set Hw. flag_keep Hw. Qed.

Lemma R_set_immediate g l s k b :
  (k < POTR_MAX_PATH)%nat -> triple (R g l s) (set_health_immediate k b) (fun _ w _ => R g l s w).
Proof. intros Hk [x t] Hw. unfold set_health_immediate. flag_set Hw. flag_keep Hw. Qed.

Lemma R_set_first_pkt g l s k b :
  (k < POTR_MAX_PATH)%nat -> triple (R g l s) (set_first_pkt k b) (fun _ w _ => R g l s w).
Proof. intros Hk [x t] Hw. unfold set_first_pkt. flag_set Hw. flag_keep Hw. Qed.

Lemma R_set_health_running g l s k b :
  (k < POTR_MAX_PATH)%nat -> triple (R g l s) (set_health_running k b) (fun _ w _ => R g l s w).
Proof.
  intros Hk [x t] Hw. unfold set_health_running. flag_set Hw. destruct Hw; split; try done.
  cbn. by rewrite length_insert.
Qed.

Lemma R_set_sock g l s k b :
  (k < POTR_MAX_PATH)%nat -> triple (R g l s) (set_sock k b) (fun _ w _ => R g l s w).
Proof.
  intros Hk [x t] Hw. unfold set_sock. flag_set Hw. destruct Hw; split; try done.
  cbn. by rewrite length_insert.
Qed.

Lemma R_set_fd g l s k b :
  (k < POTR_MAX_PATH)%nat -> triple (R g l s) (set_tcp_conn_fd k b) (fun _ w _ => R g l s w).
Proof.
  intros Hk [x t] Hw. unfold set_tcp_conn_fd. flag_set Hw. destruct Hw; split; try done.
  cbn. by rewrite length_insert.
Qed.

Lemma R_sock_valid g l s k :
  (k < POTR_MAX_PATH)%nat -> triple (R g l s) (sock_valid k) (fun _ w _ => R g l s w).
Proof.
  intros Hk [x t] Hw. destruct (lookup_lt_is_Some_2 (x_sock x) k) as [v Hv];
    [by rewrite (ow_sock g l s x Hw)|].
  unfold sock_valid. rewrite get_ctx_bind. cbn [w_ctx]. unfold lift. rewrite Hv.
  eexists _, _, _. split; [done|]. done.
Qed.

(** ** Rules for loops and choices *)

Lemma triple_for_range (I : nat -> world -> Prop) body n : forall a,
  (forall k, (a <= k < a + n)%nat -> triple (I k) (body k) (fun _ w _ => I (S k) w)) ->
  triple (I a) (for_range a n body) (fun _ w _ => I (a + n)%nat w).
Proof.
  induction n as [|n IH]; intros a Hb.
  - rewrite Nat.add_0_r. by apply triple_ret.
  - cbn [for_range]. eapply triple_seq; [apply Hb; lia|]. intros []. rewrite <- Nat.add_succ_comm.
    apply IH. intros k Hk. apply Hb. lia.
Qed.

Lemma triple_for_while (I : nat -> world -> Prop) (F : world -> Prop) body n : forall a,
  (forall k, (a <= k < a + n)%nat ->
     triple (I k) (body k) (fun (ok : bool) w _ => if ok then I (S k) w else F w)) ->
  triple (I a) (for_while a n body) (fun (ok : bool) w _ => if ok then I (a + n)%nat w else F w).
Proof.
  induction n as [|n IH]; intros a Hb.
  - rewrite Nat.add_0_r. by apply triple_ret.
  - cbn [for_while]. eapply triple_seq; [apply Hb; lia|]. intros [|].
    + rewrite <- Nat.add_succ_comm. apply IH. intros k Hk. apply Hb. lia.
    + by apply triple_ret.
Qed.

Lemma triple_from {A} (P P' : world -> Prop) (m : M A) Q :
  (forall w, P' w -> P w) -> triple P m Q -> triple P' m Q.
Proof. intros HP Hm w Hw. by apply Hm, HP. Qed.

Lemma triple_or {A} (P P' : world -> Prop) (m : M A) Q :
  triple P m Q -> triple P' m Q -> triple (fun w => P w \/ P' w) m Q.
Proof. intros Ht Ht' w [Hw|Hw]; [by apply Ht|by apply Ht']. Qed.

Lemma triple_and {A} (P : world -> Prop) (C : Prop) (m : M A) Q :
  (C -> triple P m Q) -> triple (fun w => C /\ P w) m Q.
Proof. intros Ht w [Hc Hw]. by apply Ht. Qed.

Lemma triple_ex {A B} (P : B -> world -> Prop) (m : M A) Q :
  (forall b, triple (P b) m Q) -> triple (fun w => exists b, P b w) m Q.
Proof. intros Ht w [b Hw]. by apply (Ht b). Qed.

(** The code after a call that returned [rc]: on to [k] after success. *)
Lemma triple_checked {A} (P P' : world -> Prop) (m : M A) k (rc : Z) Q :
  (rc = POTR_OK -> triple P k Q) -> (rc <> POTR_OK -> triple P' m Q) ->
  triple (fun w => if rc =? POTR_OK then P w else P' w) (if negb (rc =? POTR_OK) then m else k) Q.
Proof.
  intros Hk Hm. destruct (Z.eqb_spec rc POTR_OK) as [He|Hn]; cbn [negb]; [by apply Hk|by apply Hm].
Qed.

(** ** Creation *)

Section Start.
Context `{CplatByteorder} `{Platform} `{Host}.

Lemma R_create {ok : nat -> bool} g l s h :
  h ∉ l -> triple (R g l s) (ok ← tick ok; if ok : bool then acquire h;; mret true else mret false)
    (fun (ok : bool) w _ => if ok then R g (h :: l) s w else R g l s w).
Proof.
  intros Hh. eapply triple_seq; [apply R_tick|]. intros [|]; [|by apply R_ret].
  eapply triple_seq; [by apply R_acquire|]. intros []. by apply R_ret.
Qed.

Lemma R_create_lock g l s h :
  h ∉ l -> triple (R g l s) (create_lock h)
    (fun (ok : bool) w _ => if ok then R g (h :: l) s w else R g l s w).
Proof. apply R_create. Qed.

Lemma R_create_thread g l s h :
  h ∉ l -> triple (R g l s) (create_thread h)
    (fun (ok : bool) w _ => if ok then R g (h :: l) s w else R g l s w).
Proof. apply R_create. Qed.

Lemma R_alloc_buf g l s h :
  h ∉ l -> triple (R g l s) (alloc_buf h)
    (fun (ok : bool) w _ => if ok then R g (h :: l) s w else R g l s w).
Proof. apply R_create. Qed.

(** A thread did not end. *)
Definition join_failed : Prop := exists n, thread_join_ok n = false.

Lemma R_join g l s h :
  h ∈ l -> triple (R g l s) (join_thread h)
    (fun (ok : bool) w _ => if ok then R g (without l [h]) s w else join_failed /\ R g l s w).
Proof.
  intros Hh. eapply triple_seq; [by apply R_need|]. intros [].
  eapply triple_seq with (R := fun (ok : bool) w => R g l s w /\ (ok = false -> join_failed)).
  - intros [x t] Hw. eexists _, _, _. split; [done|]. split; [done|]. intros Hf. by exists t.
  - intros [|].
    + eapply triple_seq with (R := fun _ w => R g (without l [h]) s w).
      * eapply triple_conseq; [by apply R_release|by intros w [? _]|done].
      * intros []. by apply R_ret.
    + apply triple_ret. intros w [Hw Hj]. split; [by apply Hj|done].
Qed.

(** The result code of a start, and what is held then. *)
Definition started (g : service_config) (l l' : list handle) (s' : bool) (rc : Z) (w : world) : Prop :=
  if rc =? POTR_OK then R g l' s' w else R g l false w.

(** A handle that has just been acquired on top of [l] is given back. *)
Lemma R_back g l s h w : h ∉ l -> R g (without (h :: l) [h]) s w -> R g l s w.
Proof. intros Hh. apply R_equiv. intros h'. destruct (decide (h' = h)) as [->|]; handles. Qed.

Lemma send_thread_start_R g l s :
  HSendWindowMutex ∉ l -> HSendThread ∉ l ->
  triple (R g l s) potr_internal_send_thread_start
    (fun rc w _ => started g l (HSendThread :: HSendWindowMutex :: l) true rc w).
Proof.
  intros Hm Ht. eapply triple_seq; [apply R_set_send|]. intros [].
  eapply triple_seq; [by apply R_create_lock|]. intros [|]; cbn [negb].
  - eapply triple_seq; [apply R_create_thread; handles|]. intros [|]; cbn [negb].
    + by apply R_ret.
    + eapply triple_seq; [apply R_set_send|]. intros [].
      eapply triple_seq; [apply R_release; handles|]. intros []. apply R_ret.
      intros w. by apply R_back.
  - eapply triple_seq; [apply R_set_send|]. intros []. by apply R_ret.
Qed.

Lemma path_0 : (0 < POTR_MAX_PATH)%nat.
Proof. unfold POTR_MAX_PATH. lia. Qed.

Lemma comm_recv_thread_start_R g l s :
  HRecvThread 0 ∉ l ->
  triple (R g l s) potr_internal_comm_recv_thread_start
    (fun rc w _ => if rc =? POTR_OK then R g (HRecvThread 0 :: l) s w else R g l s w).
Proof.
  intros Ht. eapply triple_seq; [apply R_set_running, path_0|]. intros [].
  eapply triple_seq; [by apply R_create_thread|]. intros [|]; cbn [negb]; [by apply R_ret|].
  eapply triple_seq; [apply R_set_running, path_0|]. intros []. by apply R_ret.
Qed.

(** The handles of a health thread with locks of its own. *)
Definition health_handles (k : nat) : list handle :=
  [HHealthThread k; HHealthWakeup k; HHealthMutex k].

Lemma health_thread_start_R g l s :
  (forall h, h ∈ health_handles 0 -> h ∉ l) ->
  triple (R g l s) potr_internal_health_thread_start
    (fun rc w _ => if rc =? POTR_OK
       then R g ((if x_health_interval_ms g =? 0 then [] else health_handles 0) ++ l) s w
       else R g l s w).
Proof.
  intros Hn. assert ((HHealthThread 0 ∉ l) /\ (HHealthWakeup 0 ∉ l) /\ (HHealthMutex 0 ∉ l)) as (Ht & Hw & Hm).
  { split_and!; apply Hn; unfold health_handles; handles. }
  apply R_get_cfg. destruct (_ =? 0); [by apply R_ret|]. cbn [app health_handles].
  eapply triple_seq; [by apply R_create_lock|]. intros [|]; cbn [negb]; [|by apply R_ret].
  eapply triple_seq; [apply R_create_lock; handles|]. intros [|]; cbn [negb].
  - eapply triple_seq; [apply R_set_health_running, path_0|]. intros [].
    eapply triple_seq; [apply R_create_thread; handles|]. intros [|]; cbn [negb]; [by apply R_ret|].
    eapply triple_seq; [apply R_set_health_running, path_0|]. intros [].
    eapply triple_seq; [apply R_release; handles|]. intros [].
    eapply triple_seq; [apply R_release; handles|]. intros []. apply R_ret.
    intros w. apply R_equiv. intros h.
    destruct (decide (h = HHealthWakeup 0)) as [->|]; [handles|].
    destruct (decide (h = HHealthMutex 0)) as [->|]; handles.
  - eapply triple_seq; [apply R_release; handles|]. intros []. apply R_ret. intros w. by apply R_back.
Qed.

(** ** Stopping *)

Definition is_thread (h : handle) : bool :=
  match h with HSendThread => true | _ => is_path_thread h end.

(** A thread could not be joined: it is still held. *)
Definition stuck (g : service_config) (w : world) : Prop :=
  exists l s, R g l s w /\ join_failed /\ exists h, h ∈ l /\ is_thread h = true.

Lemma stuck_intro g l s h w : h ∈ l -> is_thread h = true -> join_failed /\ R g l s w -> stuck g w.
Proof. intros Hl Ht [Hj Hw]. exists l, s. eauto. Qed.

Lemma has_threads_owned g l s x :
  owns g l s x -> api_context_has_threads x = existsb is_thread l.
Proof.
  intros Hx. apply eq_bool_prop_intro. unfold api_context_has_threads, holds.
  rewrite !Is_true_true, orb_true_iff, !existsb_exists, bool_decide_eq_true.
  setoid_rewrite <- list_elem_of_In. setoid_rewrite (ow_holds _ _ _ _ Hx). split.
  - intros [Hs|(h & Hh & Hp)]; [by exists HSendThread|]. exists h. split; [done|]. by destruct h.
  - intros (h & Hh & Hp). destruct h; auto; right; eexists; by split.
Qed.

(** What remains after a stop that succeeded, or stuck. *)
Definition stopped (g : service_config) (l' : list handle) (s : bool) (rc : Z) (w : world) : Prop :=
  if rc =? POTR_OK then R g l' s w else stuck g w.

(** Stop a thread if there is one. *)
Lemma stop_thread_R g l s h :
  is_thread h = true ->
  triple (R g l s)
    (x ← get_ctx;
     if holds x h then ok ← join_thread h; if negb ok then mret POTR_ERR_UNKNOWN else mret POTR_OK
     else mret POTR_OK)
    (fun rc w _ => stopped g (without l [h]) s rc w).
Proof.
  intros Hh. apply R_get_ctx. intros x Hx. rewrite (holds_owned _ _ _ _ _ Hx). case_bool_decide as Hl.
  - eapply triple_seq; [by apply R_join|]. intros [|]; cbn [negb]; [by apply R_ret|].
    apply triple_ret. intros w. by apply (stuck_intro g l s h).
  - apply R_ret. intros w. apply R_equiv. intros h'. destruct (decide (h' = h)) as [->|]; handles.
Qed.

Lemma comm_recv_thread_stop_R g l s :
  (x_n_path g <= POTR_MAX_PATH)%nat ->
  triple (R g l s) potr_internal_comm_recv_thread_stop
    (fun rc w _ => stopped g (without l [HRecvThread 0]) s rc w).
Proof.
  intros Hn. eapply triple_seq; [apply R_set_running, path_0|]. intros []. apply R_get_cfg.
  eapply triple_seq with (R := fun _ => R g l s).
  - eapply triple_conseq; [apply (triple_for_range (fun _ => R g l s))|done|done].
    intros k Hk. eapply triple_seq; [apply R_sock_valid; lia|]. intros v.
    apply R_when; [|done]. intros _. eapply triple_seq; [apply R_tick|]. intros c.
    apply R_when; [|done]. intros _. apply R_set_sock. lia.
  - intros []. by apply stop_thread_R.
Qed.

Lemma tcp_recv_thread_stop_R g l s k :
  (k < POTR_MAX_PATH)%nat ->
  triple (R g l s) (potr_internal_tcp_recv_thread_stop k)
    (fun rc w _ => stopped g (without l [HRecvThread k]) s rc w).
Proof.
  intros Hk. unfold potr_internal_tcp_recv_thread_stop.
  rewrite (proj2 (Nat.leb_gt _ _)) by done.
  eapply triple_seq; [by apply R_set_running|]. intros []. apply stop_thread_R.
  by apply Nat.ltb_lt.
Qed.

Lemma signal_health_stop_R g l s k :
  (k < POTR_MAX_PATH)%nat -> HHealthMutex k ∈ l -> HHealthWakeup k ∈ l ->
  triple (R g l s) (signal_health_stop k) (fun _ w _ => R g l s w).
Proof.
  intros Hk Hm Hw. eapply triple_seq; [by apply R_set_health_running|]. intros [].
  eapply triple_seq; [by apply R_need|]. intros [].
  eapply triple_seq; [by apply R_need|]. intros []. apply R_emit.
Qed.

(** The thread [h] has ended, or is still held. *)
Definition stopped_at (g : service_config) (l : list handle) (h : handle) (s : bool) (rc : Z) (w : world)
    : Prop :=
  if rc =? POTR_OK then R g (without l [h]) s w else h ∈ l /\ join_failed /\ R g l s w.

Lemma tcp_health_thread_stop_at g l s k :
  (k < POTR_MAX_PATH)%nat ->
  (HHealthThread k ∈ l -> HHealthMutex k ∈ l /\ HHealthWakeup k ∈ l) ->
  triple (R g l s) (potr_internal_tcp_health_thread_stop k)
    (fun rc w _ => stopped_at g l (HHealthThread k) s rc w).
Proof.
  intros Hk Hl. unfold potr_internal_tcp_health_thread_stop.
  rewrite (proj2 (Nat.leb_gt _ _)) by done. apply R_get_ctx. intros x Hx.
  rewrite (holds_owned _ _ _ _ _ Hx). case_bool_decide as Hh; cbn [negb].
  - destruct (Hl Hh). eapply triple_seq; [by apply signal_health_stop_R|]. intros [].
    eapply triple_seq; [by apply R_join|]. intros [|]; cbn [negb]; [by apply R_ret|].
    apply triple_ret. intros w. by split.
  - apply R_ret. intros w. apply R_equiv. intros h'.
    destruct (decide (h' = HHealthThread k)) as [->|]; handles.
Qed.

Lemma tcp_health_thread_stop_R g l s k :
  (k < POTR_MAX_PATH)%nat ->
  (HHealthThread k ∈ l -> HHealthMutex k ∈ l /\ HHealthWakeup k ∈ l) ->
  triple (R g l s) (potr_internal_tcp_health_thread_stop k)
    (fun rc w _ => stopped g (without l [HHealthThread k]) s rc w).
Proof.
  intros Hk Hl. eapply triple_conseq; [by apply tcp_health_thread_stop_at|done|]. intros rc w es.
  unfold stopped_at, stopped. destruct (rc =? POTR_OK); [done|]. intros [Hh Hw].
  apply (stuck_intro g l s (HHealthThread k)); [done|by apply Nat.ltb_lt|done].
Qed.

(** The thread of a UDP service has its own locks: either all three exist or
    none. *)
Lemma health_thread_stop_R g l s :
  (forall h, h ∈ health_handles 0 -> (h ∈ l <-> HHealthThread 0 ∈ l)) ->
  triple (R g l s) potr_internal_health_thread_stop
    (fun rc w _ => stopped g (without l (health_handles 0)) s rc w).
Proof.
  intros Hl. assert ((HHealthWakeup 0 ∈ l <-> HHealthThread 0 ∈ l) /\
    (HHealthMutex 0 ∈ l <-> HHealthThread 0 ∈ l)) as [Hw Hm].
  { split; apply Hl; unfold health_handles; handles. }
  apply R_get_ctx. intros x Hx. rewrite (holds_owned _ _ _ _ _ Hx).
  case_bool_decide as Hh; cbn [negb].
  - eapply triple_seq; [apply signal_health_stop_R; [apply path_0|tauto..]|]. intros [].
    eapply triple_seq; [by apply R_join|]. intros [|]; cbn [negb].
    + eapply triple_seq; [apply R_release; handles|]. intros [].
      eapply triple_seq; [apply R_release; handles|]. intros []. apply R_ret.
      intros w. apply R_equiv. intros h. unfold health_handles. handles.
    + apply triple_ret. intros w. by apply (stuck_intro g l s (HHealthThread 0)).
  - apply R_ret. intros w. apply R_equiv. intros h. rewrite elem_of_without. split; [|tauto].
    intros Hi. split; [done|]. intros Hd. apply Hh. by apply (Hl h Hd).
Qed.

(** The send thread, its lock and its queue. *)
Record send_handles (l : list handle) (s : bool) : Prop := {
  sh_mutex : HSendWindowMutex ∈ l <-> HSendThread ∈ l;
  sh_queue : HSendThread ∈ l -> HSendQueue ∈ l;
  sh_flag : s = true -> HSendThread ∈ l
}.

Lemma send_thread_stop_keeps g l s :
  send_handles l s ->
  triple (R g l s) potr_internal_send_thread_stop
    (fun _ w _ => R g (without l [HSendWindowMutex; HSendThread]) false w \/
       R g l false w /\ join_failed /\ HSendThread ∈ l).
Proof.
  intros [Hm Hq Hf]. apply R_get_ctx. intros x Hx. rewrite (holds_owned _ _ _ _ _ Hx).
  case_bool_decide as Hh; cbn [negb].
  - eapply triple_seq; [apply R_set_send|]. intros [].
    eapply triple_seq; [apply R_need; tauto|]. intros [].
    eapply triple_seq; [by apply R_join|]. intros [|]; unfold when.
    + assert (HSendWindowMutex ∈ without l [HSendThread]) by (apply elem_of_without; split; [tauto|handles]).
      eapply triple_conseq; [by apply R_release|done|]. intros [] w es Hw. left.
      revert Hw. apply R_equiv. intros h. handles.
    + apply triple_ret. intros w [Hj Hw]. by right.
  - destruct s; [exfalso; tauto|]. apply R_ret. intros w Hw. left. revert Hw. apply R_equiv. intros h.
    destruct (decide (h = HSendThread)) as [->|]; [handles|].
    destruct (decide (h = HSendWindowMutex)) as [->|]; handles.
Qed.

Lemma send_thread_stop_R g l s :
  send_handles l s ->
  triple (R g l s) potr_internal_send_thread_stop
    (fun _ w _ => R g (without l [HSendWindowMutex; HSendThread]) false w \/
       exists l', R g l' false w /\ join_failed /\ HSendThread ∈ l').
Proof.
  intros Hl. eapply triple_conseq; [by apply send_thread_stop_keeps|done|].
  intros [] w es [?|?]; [by left|right; eauto].
Qed.

(** ** Disposal *)

(** Lists of handles without variables are compared by computation. *)
Definition sublistb (a b : list handle) : bool := forallb (fun h => bool_decide (h ∈ b)) a.

Lemma sublistb_spec a b h : sublistb a b = true -> h ∈ a -> h ∈ b.
Proof.
  unfold sublistb. rewrite forallb_forall. intros Hs Hh. apply list_elem_of_In in Hh.
  by apply (bool_decide_eq_true_1 _ (Hs h Hh)).
Qed.

Lemma R_without_same g l ks ks' s w :
  sublistb ks ks' = true -> sublistb ks' ks = true -> R g (without l ks) s w -> R g (without l ks') s w.
Proof.
  intros Hs Hs'. apply R_equiv. intros h. rewrite !elem_of_without.
  split; intros [Hl Hn]; (split; [done|]); contradict Hn; by eapply sublistb_spec.
Qed.

Definition tcp_sync_handles : list handle :=
  tcp_global_locks ++ HRecvWindowMutex :: concat (tcp_path_locks <$> seq 0 POTR_MAX_PATH).

Lemma triple_then {A} (m : M unit) (k : M A) P R (Q : A -> world -> Prop) :
  triple P m (fun _ w _ => R w) -> triple R k (fun a w _ => Q a w) ->
  triple P (m;; k) (fun a w _ => Q a w).
Proof. intros Hm Hk. eapply triple_seq; [exact Hm|]. intros []. exact Hk. Qed.

Lemma triple_done P : triple P (mret tt) (fun _ w _ => P w).
Proof. by apply triple_ret. Qed.

Ltac disposes := repeat (eapply triple_then; [apply R_dispose|]).

Lemma dispose_tcp_path_R g l s k ks :
  triple (R g (without l ks) s)
    (dispose (HTcpSendMutex k);; dispose (HHealthMutex k);; dispose (HHealthWakeup k))
    (fun _ w _ => R g (without l (HHealthWakeup k :: HHealthMutex k :: HTcpSendMutex k :: ks)) s w).
Proof. disposes. apply R_dispose. Qed.

Lemma dispose_tcp_sync_R g l s :
  triple (R g l s) api_context_dispose_tcp_sync (fun _ w _ => R g (without l tcp_sync_handles) s w).
Proof.
  eapply triple_conseq with (P := R g (without l []) s); [|by apply R_without_nil|].
  - unfold api_context_dispose_tcp_sync. disposes.
    eapply triple_then.
    + cbn [for_range POTR_MAX_PATH].
      repeat (eapply triple_then; [apply dispose_tcp_path_R|]). apply triple_done.
    + disposes. apply R_dispose.
  - intros [] w es. by apply R_without_same; vm_compute.
Qed.

Definition connect_bufs : list handle := HTcpFirstPktBuf <$> seq 0 POTR_MAX_PATH.

Lemma dispose_connect_resources_R g l s :
  triple (R g l s) dispose_connect_resources
    (fun _ w _ => R g (without l (HSessionEstablishMutex :: connect_bufs)) s w).
Proof.
  eapply triple_conseq with (P := R g (without l []) s); [|by apply R_without_nil|].
  - unfold dispose_connect_resources. eapply triple_then.
    + cbn [for_range POTR_MAX_PATH].
      do 4 (eapply triple_then; [eapply triple_then;
        [apply R_set_first_pkt; unfold POTR_MAX_PATH; lia|apply R_dispose]|]). apply triple_done.
    + apply R_dispose.
  - intros [] w es. by apply R_without_same; vm_compute.
Qed.

(** ** Stopping the connect threads *)

(** What the stop relies on: connect threads use the state lock and the send
    locks, health threads their wake-up, the send thread its queue. *)
Record conn_handles (g : service_config) (l : list handle) (s : bool) : Prop := {
  ch_paths : (x_n_path g <= POTR_MAX_PATH)%nat;
  ch_connect : forall k, HConnectThread k ∈ l ->
    HTcpStateMutex ∈ l /\ HTcpStateCv ∈ l /\ forall j, (j < x_n_path g)%nat -> HTcpSendMutex j ∈ l;
  ch_health : forall k, HHealthThread k ∈ l -> HHealthMutex k ∈ l /\ HHealthWakeup k ∈ l;
  ch_send : send_handles l s
}.

(** The handles given up on the way: threads of the paths, listening sockets. *)
Definition droppable (h : handle) : bool :=
  match h with
  | HTcpListenSock _ | HConnectThread _ | HRecvThread _ | HHealthThread _ => true
  | _ => false
  end.

(** Some droppable handles of [l] are gone, those of [req] in any case. *)
Definition shed (g : service_config) (l : list handle) (s : bool) (req : list handle) (w : world)
    : Prop :=
  exists ks, (forall h, h ∈ ks -> droppable h = true) /\ (forall h, h ∈ req -> h ∈ ks) /\
    R g (without l ks) s w.

Lemma shed_intro g l s w : R g l s w -> shed g l s [] w.
Proof.
  intros Hw. exists []. split; [by intros h ?%elem_of_nil|]. split; [done|]. by apply R_without_nil.
Qed.

Lemma shed_sub g l s req req' w :
  (forall h, h ∈ req' -> h ∈ req) -> shed g l s req w -> shed g l s req' w.
Proof. intros Hs (ks & Hd & Hr & Hw). exists ks. auto. Qed.

Lemma shed_absent g l s req h w :
  droppable h = true -> h ∉ l -> shed g l s req w -> shed g l s (h :: req) w.
Proof.
  intros Hh Hn (ks & Hd & Hr & Hw). exists (h :: ks).
  split; [by intros h' [-> |?]%elem_of_cons; auto|]. split; [intros h' [->|?]%elem_of_cons; apply elem_of_cons; auto|].
  revert Hw. apply R_equiv. intros h'. destruct (decide (h' = h)) as [->|]; handles.
Qed.

Lemma shed_more g l s req h ks w :
  droppable h = true -> (forall h, h ∈ ks -> droppable h = true) -> (forall h, h ∈ req -> h ∈ ks) ->
  R g (without (without l ks) [h]) s w -> shed g l s (h :: req) w.
Proof.
  intros Hh Hd Hr Hw. exists (h :: ks).
  split; [by intros h' [-> |?]%elem_of_cons; auto|].
  split; [intros h' [->|?]%elem_of_cons; apply elem_of_cons; auto|].
  revert Hw. apply R_equiv. intros h'. clear. handles.
Qed.

Lemma shed_stop g l s req h (m : M Z) :
  droppable h = true ->
  (forall ks, (forall h, h ∈ ks -> droppable h = true) -> triple (R g (without l ks) s) m
     (fun rc w _ => stopped g (without (without l ks) [h]) s rc w)) ->
  triple (shed g l s req) m
    (fun rc w _ => if rc =? POTR_OK then shed g l s (h :: req) w else stuck g w).
Proof.
  intros Hh Hm. apply triple_ex. intros ks w (Hd & Hr & Hw).
  destruct (Hm ks Hd w Hw) as (rc & w' & es & Hrun & Hpost). exists rc, w', es. split; [done|].
  unfold stopped in Hpost. destruct (rc =? POTR_OK); [|done]. by eapply shed_more.
Qed.

(** A call that leaves the handles alone. *)
Lemma shed_keep {A} g l s req (m : M A) :
  (forall ks, (forall h, h ∈ ks -> droppable h = true) ->
     triple (R g (without l ks) s) m (fun _ w _ => R g (without l ks) s w)) ->
  triple (shed g l s req) m (fun _ w _ => shed g l s req w).
Proof.
  intros Hm. apply triple_ex. intros ks w (Hd & Hr & Hw).
  destruct (Hm ks Hd w Hw) as (a & w' & es & Hrun & Hpost). exists a, w', es. split; [done|].
  exists ks. auto.
Qed.

(** What is not droppable is still there. *)
Lemma not_shed l ks h :
  (forall h, h ∈ ks -> droppable h = true) -> droppable h = false -> h ∈ l -> h ∈ without l ks.
Proof. intros Hd Hh Hl. apply elem_of_without. split; [done|]. intros Hk%Hd. congruence. Qed.

Lemma close_tcp_conn_R g l s k :
  (k < POTR_MAX_PATH)%nat -> HTcpSendMutex k ∈ l ->
  triple (R g l s) (close_tcp_conn k) (fun _ w _ => R g l s w).
Proof.
  intros Hk Hl. apply R_get_ctx. intros x Hx.
  destruct (lookup_lt_is_Some_2 (x_tcp_conn_fd x) k) as [fd Hfd]; [by rewrite (ow_fd _ _ _ _ Hx)|].
  intros w Hw. rewrite (lift_bind _ fd _ _ Hfd). revert w Hw.
  change (triple (R g l s) (if negb fd then mret tt else need (HTcpSendMutex k);; set_tcp_conn_fd k false)
    (fun _ w _ => R g l s w)).
  destruct fd; cbn [negb]; [|apply triple_done].
  eapply triple_then; [by apply R_need|]. by apply R_set_fd.
Qed.

Lemma dispose_listen_R g l s n :
  (n <= POTR_MAX_PATH)%nat ->
  triple (shed g l s []) (for_range 0 n (fun k => dispose (HTcpListenSock k)))
    (fun _ w _ => shed g l s [] w).
Proof.
  intros Hn. eapply triple_conseq; [apply (triple_for_range (fun _ => shed g l s []))|done|done].
  intros k Hk. apply triple_ex. intros ks w (Hd & _ & Hw).
  destruct (R_dispose g l s ks (HTcpListenSock k) w Hw) as (a & w' & es & Hrun & Hpost).
  exists a, w', es. split; [done|]. exists (HTcpListenSock k :: ks).
  split; [by intros h [-> |?]%elem_of_cons; auto|]. split; [by intros h ?%elem_of_nil|done].
Qed.

Lemma shed_join g l s req k :
  (k < POTR_MAX_PATH)%nat ->
  triple (shed g l s req)
    (x ← get_ctx; if holds x (HConnectThread k) then join_thread (HConnectThread k) else mret true)
    (fun (ok : bool) w _ => if ok then shed g l s (HConnectThread k :: req) w else stuck g w).
Proof.
  intros Hk. apply triple_ex. intros ks w (Hd & Hr & Hw). revert w Hw.
  apply R_get_ctx. intros x Hx. rewrite (holds_owned _ _ _ _ _ Hx). case_bool_decide as Hh.
  - eapply triple_conseq; [by apply R_join|done|]. intros [|] w es Hw.
    + by eapply shed_more.
    + eapply stuck_intro; [exact Hh|by apply Nat.ltb_lt|exact Hw].
  - apply triple_ret. intros w Hw. apply shed_more with (ks := ks); [done..|].
    revert Hw. apply R_equiv. intros h. rewrite elem_of_without in Hh.
    destruct (decide (h = HConnectThread k)) as [->|]; handles.
Qed.

(** The requests made by a loop over the paths. *)
Definition upto (f : nat -> list handle) (n : nat) : list handle := concat (f <$> seq 0 n).

Lemma elem_of_upto f n h : h ∈ upto f n <-> exists k, (k < n)%nat /\ h ∈ f k.
Proof.
  unfold upto. rewrite list_elem_of_In, in_concat. setoid_rewrite <- list_elem_of_In.
  setoid_rewrite list_elem_of_fmap. split.
  - intros (? & (k & -> & Hk%elem_of_seq) & Hh). exists k. split; [lia|done].
  - intros (k & Hk & Hh). exists (f k). split; [|done]. exists k. split; [done|].
    apply elem_of_seq. lia.
Qed.

Lemma upto_S f n h : h ∈ upto f (S n) <-> h ∈ f n \/ h ∈ upto f n.
Proof.
  rewrite !elem_of_upto. split.
  - intros (k & Hk & Hh). destruct (decide (k = n)) as [->|]; [by left|]. right. exists k.
    split; [lia|done].
  - intros [Hh|(k & Hk & Hh)]; eexists; (split; [|exact Hh]); lia.
Qed.

(** The connect threads are stopped. *)
Lemma join_connect_R g l s n :
  (n <= POTR_MAX_PATH)%nat ->
  triple (shed g l s [])
    (for_while 0 n (fun k =>
       x ← get_ctx; if holds x (HConnectThread k) then join_thread (HConnectThread k) else mret true))
    (fun (ok : bool) w _ =>
       if ok then shed g l s (upto (fun k => [HConnectThread k]) n) w else stuck g w).
Proof.
  intros Hn. eapply triple_conseq;
    [apply (triple_for_while (fun k => shed g l s (upto (fun k => [HConnectThread k]) k)) (stuck g))
    |done|done].
  intros k Hk. eapply triple_conseq; [apply shed_join; lia|done|]. intros [|] w es; [|done].
  apply shed_sub. intros h. rewrite upto_S, !elem_of_cons, elem_of_nil. tauto.
Qed.

(** The threads that a connection had are stopped. *)
Lemma stop_path_threads_R g l s req n :
  conn_handles g l s -> (n <= POTR_MAX_PATH)%nat ->
  triple (shed g l s req)
    (for_while 0 n (fun k =>
      r ← potr_internal_tcp_recv_thread_stop k;
      if negb (r =? POTR_OK) then mret false
      else r ← potr_internal_tcp_health_thread_stop k; mret (r =? POTR_OK)))
    (fun (ok : bool) w _ =>
       if ok then shed g l s (upto (fun k => [HRecvThread k; HHealthThread k]) n ++ req) w
       else stuck g w).
Proof.
  intros Hc Hn. eapply triple_conseq;
    [apply (triple_for_while (fun k => shed g l s
       (upto (fun k => [HRecvThread k; HHealthThread k]) k ++ req)) (stuck g))|done|done].
  intros k Hk. eapply triple_seq.
  { apply (shed_stop g l s _ (HRecvThread k)); [done|]. intros ks _. apply tcp_recv_thread_stop_R. lia. }
  intros r. apply triple_checked; [intros _|intros _; by apply triple_ret].
  eapply triple_seq.
  { apply (shed_stop g l s _ (HHealthThread k)); [done|]. intros ks Hd. apply tcp_health_thread_stop_R;
      [lia|]. intros [Hl _]%elem_of_without. destruct (ch_health _ _ _ Hc k Hl).
    split; by apply not_shed. }
  intros r'. apply triple_ret. intros w. destruct (r' =? POTR_OK); [|done].
  apply shed_sub. intros h. rewrite !elem_of_app, upto_S, !elem_of_cons, elem_of_nil, elem_of_app. tauto.
Qed.

(** Everything the connect threads of [n] paths stand for. *)
Definition conn_set (n : nat) : list handle :=
  upto (fun k => [HRecvThread k; HHealthThread k]) n ++ upto (fun k => [HConnectThread k]) n
  ++ HSendWindowMutex :: HSendThread :: HSessionEstablishMutex :: connect_bufs.

(** At most [l] is held, without [ks]. *)
Definition within (g : service_config) (l ks : list handle) (w : world) : Prop :=
  exists l', R g l' false w /\ forall h, h ∈ l' -> h ∈ l /\ h ∉ ks.

Lemma shed_send_handles l s ks :
  (forall h, h ∈ ks -> droppable h = true) -> send_handles l s -> send_handles (without l ks) s.
Proof.
  intros Hd [Hm Hq Hf].
  assert (forall h, droppable h = false -> h ∈ without l ks <-> h ∈ l) as Hw.
  { intros h Hh. split; [by intros [? _]%elem_of_without|by apply not_shed]. }
  split; rewrite ?Hw by done; auto.
Qed.

Lemma stop_send_R g l s req :
  send_handles l s ->
  triple (shed g l s req)
    (potr_internal_send_thread_stop;;
     x ← get_ctx; if holds x HSendThread then mret tt else dispose_connect_resources)
    (fun _ w _ => within g l (req ++ HSendWindowMutex :: HSendThread :: HSessionEstablishMutex
                                :: connect_bufs) w \/ stuck g w).
Proof.
  intros Hs. apply triple_ex. intros ks w (Hd & Hr & Hw). revert w Hw.
  eapply triple_then; [by apply send_thread_stop_R, shed_send_handles|]. apply triple_or.
  - apply R_get_ctx. intros x Hx. rewrite (holds_owned _ _ _ _ _ Hx), bool_decide_false by handles.
    eapply triple_conseq; [apply dispose_connect_resources_R|done|]. intros [] w es Hw. left.
    eexists. split; [exact Hw|]. intros h [[[Hl Hk]%elem_of_without Hk2]%elem_of_without Hk3]%elem_of_without.
    split; [done|]. specialize (Hr h). rewrite elem_of_app, !elem_of_cons in *. tauto.
  - apply triple_ex. intros l' w (Hw & Hj & Hl). rewrite get_ctx_bind.
    rewrite (holds_owned _ _ _ _ _ Hw), bool_decide_true by done. eexists _, _, _. split; [done|].
    right. by eapply (stuck_intro g l' false HSendThread).
Qed.

Lemma connect_thread_stop_R g l s :
  conn_handles g l s ->
  triple (R g l s) potr_internal_connect_thread_stop
    (fun _ w _ => within g l (conn_set (x_n_path g)) w \/ stuck g w).
Proof.
  intros Hc. pose proof (ch_paths _ _ _ Hc) as Hn. apply R_get_ctx. intros x Hx. cbv zeta.
  rewrite (ow_cfg _ _ _ _ Hx).
  apply (triple_then _ _ _ (R g l s)).
  { eapply triple_conseq; [apply (triple_for_range (fun _ => R g l s))|done|done]. intros k Hk.
    apply R_set_connect. lia. }
  eapply triple_seq with (R := fun (ok : bool) w =>
    if ok then shed g l s (upto (fun k => [HConnectThread k]) (x_n_path g)) w else stuck g w).
  - destruct (existsb _ _) eqn:He; cbn [negb].
    + apply existsb_exists in He as (k & _ & Hk). rewrite (holds_owned _ _ _ _ _ Hx) in Hk.
      apply bool_decide_eq_true_1 in Hk. destruct (ch_connect _ _ _ Hc k Hk) as (Hm & Hv & Hsm).
      eapply triple_then; [by apply R_need|]. eapply triple_then; [by apply R_need|].
      eapply triple_then with (R := shed g l s []).
      { apply (triple_from (shed g l s [])); [apply shed_intro|].
        unfold when. destruct (role_eqb _ _); [by apply dispose_listen_R|apply triple_done]. }
      apply (triple_then _ _ _ (shed g l s [])); [|by apply join_connect_R].
      eapply triple_conseq; [apply (triple_for_range (fun _ => shed g l s []))|done|done].
      intros j Hj. apply shed_keep. intros ks Hd. apply close_tcp_conn_R; [lia|].
      apply not_shed; [done..|]. apply Hsm. lia.
    + apply triple_ret. intros w Hw. exists (upto (fun k => [HConnectThread k]) (x_n_path g)).
      split; [|split; [done|]].
      * intros h (k & _ & ->%list_elem_of_singleton)%elem_of_upto. done.
      * revert Hw. apply R_equiv. intros h. rewrite elem_of_without. split; [|by intros [? _]].
        intros Hl. split; [done|]. intros (k & Hk & ->%list_elem_of_singleton)%elem_of_upto.
        apply not_true_iff_false in He. apply He, existsb_exists. exists k.
        rewrite (holds_owned _ _ _ _ _ Hx), bool_decide_true by done. split; [|done].
        apply list_elem_of_In, elem_of_seq. lia.
  - intros [|]; cbn [negb]; [|by apply triple_ret; right].
    eapply triple_seq; [by apply stop_path_threads_R|]. intros [|]; cbn [negb]; [|by apply triple_ret; right].
    eapply triple_conseq; [apply stop_send_R; by destruct Hc|done|]. intros [] w es [(l' & Hw & Hl)|?]; [|by right].
    left. exists l'. split; [done|]. intros h Hh. destruct (Hl h Hh) as [? Hk]. split; [done|].
    unfold conn_set. rewrite app_assoc. exact Hk.
Qed.
End Start.
