(* ===== verification/OpenThreads.v ===== *)
(** The threads of a new service: starting them either succeeds with a known
    set of handles, or gives back what it took, unless a thread cannot be
    joined. *)

From stdpp Require Import base list numbers option.
From Stdlib Require Import ZArith Lia ZifyBool.
From S2P Require Import Prelude Types Packet Window SendQueue Context PathEvent Validate PeerTable.
From S2P Require Import HealthThread Threads Frame Connect OpenPaths Open Resources.
Local Open Scope Z_scope.
Local Open Scope porter_scope.

(** Handles that appear when threads are started. *)
Definition thread_class (h : handle) : bool :=
  match h with
  | HConnectThread _ | HRecvThread _ | HHealthThread _ | HSendThread | HSendWindowMutex
  | HSessionEstablishMutex | HTcpFirstPktBuf _ => true
  | _ => false
  end.

Definition idle (l : list handle) : Prop := forall h, h ∈ l -> thread_class h = false.

Lemma idle_absent l h : idle l -> thread_class h = true -> h ∉ l.
Proof. intros Hi Ht Hl. rewrite (Hi h Hl) in Ht. done. Qed.

Section Start.
Context `{CplatByteorder} `{Platform} `{Host}.

(** ** Connect threads *)

Definition connect_threads (n : nat) : list handle := upto (fun k => [HConnectThread k]) n.

(** What the receiver prepares. *)
Definition accept_handles (g : service_config) : list handle :=
  if role_eqb (x_role g) POTR_ROLE_RECEIVER
  then upto (fun k => [HTcpFirstPktBuf k]) (x_n_path g) ++ [HSessionEstablishMutex] else [].

Lemma accept_handles_class g h : h ∈ accept_handles g ->
  h = HSessionEstablishMutex \/ exists k, (k < x_n_path g)%nat /\ h = HTcpFirstPktBuf k.
Proof.
  unfold accept_handles. destruct (role_eqb _ _); [|by intros ?%elem_of_nil].
  rewrite elem_of_app, elem_of_upto, list_elem_of_singleton.
  intros [(k & Hk & ->%list_elem_of_singleton)| ->]; eauto.
Qed.

(** Creating one handle per path. *)
Lemma create_each_R {ok : nat -> bool} (f : nat -> handle) (pre : nat -> M unit) g l n :
  (forall i j, f i = f j -> i = j) -> (forall k, f k ∉ l) ->
  (forall k l', (k < n)%nat -> triple (R g l' false) (pre k) (fun _ w _ => R g l' false w)) ->
  triple (R g l false)
    (for_while 0 n (fun k => pre k;;
       (ok ← tick ok; if ok : bool then acquire (f k);; mret true else mret false)))
    (fun (ok : bool) w _ => if ok then R g (upto (fun k => [f k]) n ++ l) false w
       else exists k, (k < n)%nat /\ R g (upto (fun k => [f k]) k ++ l) false w).
Proof.
  intros Hf Hl Hp. eapply triple_conseq; [apply (triple_for_while
    (fun k => R g (upto (fun k => [f k]) k ++ l) false)
    (fun w => exists k, (k < n)%nat /\ R g (upto (fun k => [f k]) k ++ l) false w))|done|done].
  intros k Hk. eapply triple_then; [apply Hp; lia|].
  eapply triple_conseq; [apply R_create|done|].
  - rewrite elem_of_app, elem_of_upto. intros [(j & Hj & He%list_elem_of_singleton%Hf)|?]; [lia|].
    by eapply Hl.
  - intros [|] w es Hw; [|exists k; split; [lia|done]]. revert Hw. apply R_equiv. intros h.
    rewrite elem_of_cons, !elem_of_app, upto_S, list_elem_of_singleton. tauto.
Qed.

Lemma prepare_accept_R g l :
  (x_n_path g <= POTR_MAX_PATH)%nat -> idle l ->
  triple (R g l false)
    (if role_eqb (x_role g) POTR_ROLE_RECEIVER then
      ok ← create_lock HSessionEstablishMutex;
      if negb ok then mret POTR_ERR_UNKNOWN
      else
        ok ← for_while 0 (x_n_path g) (fun k => set_first_pkt k [];; alloc_buf (HTcpFirstPktBuf k));
        if negb ok then dispose_connect_resources;; mret POTR_ERR_OUT_OF_MEMORY else mret POTR_OK
     else mret POTR_OK)
    (fun rc w _ => if rc =? POTR_OK then R g (accept_handles g ++ l) false w else within g l [] w).
Proof.
  intros Hn Hi. unfold accept_handles. destruct (role_eqb _ _); [|by apply R_ret].
  eapply triple_seq; [by apply R_create_lock, idle_absent|]. intros [|]; cbn [negb].
  - eapply triple_seq; [apply (create_each_R (ok := alloc_ok) HTcpFirstPktBuf (fun k => set_first_pkt k []));
      [by intros i j [= ->]|..]|intros [|]; cbn [negb]].
    + intros k. rewrite elem_of_cons. intros [?|?]; [done|]. by apply (idle_absent l (HTcpFirstPktBuf k)).
    + intros k l' Hk. apply R_set_first_pkt. lia.
    + apply triple_ret. intros w. rewrite <- app_assoc. done.
    + apply triple_ex. intros k. apply triple_and. intros Hk.
      eapply triple_then; [apply dispose_connect_resources_R|]. apply R_ret. intros w Hw.
      eexists. split; [exact Hw|]. intros h [Hh Hd]%elem_of_without. split; [|by apply not_elem_of_nil].
      rewrite elem_of_app, elem_of_cons, elem_of_upto in *.
      destruct Hh as [(j & Hj & ->%list_elem_of_singleton)|Hh]; [|tauto]. exfalso. apply Hd. right.
      apply list_elem_of_fmap. exists j. split; [done|]. apply elem_of_seq. lia.
  - apply R_ret. intros w Hw. exists l. split; [done|]. intros h Hh. split; [done|].
    by apply not_elem_of_nil.
Qed.

(** The locks that connect threads use. *)
Definition state_locks (l : list handle) : Prop :=
  HTcpStateMutex ∈ l /\ HTcpStateCv ∈ l /\ forall j, (j < POTR_MAX_PATH)%nat -> HTcpSendMutex j ∈ l.

Lemma starting_conn_handles g l k :
  (x_n_path g <= POTR_MAX_PATH)%nat -> idle l -> state_locks l ->
  conn_handles g (connect_threads k ++ accept_handles g ++ l) false.
Proof.
  intros Hn Hi (Hm & Hv & Hs).
  assert (forall h, h ∈ connect_threads k ++ accept_handles g ++ l ->
    thread_class h = false \/ h = HSessionEstablishMutex \/ (exists j, h = HTcpFirstPktBuf j) \/
    exists j, h = HConnectThread j) as Hc.
  { intros h. rewrite !elem_of_app. intros [(j & _ & ->%list_elem_of_singleton)%elem_of_upto|[Ha|Hl]].
    - eauto.
    - apply accept_handles_class in Ha as [->|(j & _ & ->)]; eauto 10.
    - left. by apply Hi. }
  split; [done|..].
  - intros j _. rewrite !elem_of_app. split; [tauto|]. split; [tauto|]. intros i Hj.
    rewrite !elem_of_app. right. right. apply Hs. lia.
  - intros j Hj. destruct (Hc _ Hj) as [?|[?|[[? ?]|[? ?]]]]; done.
  - split; [|intros Hj; destruct (Hc _ Hj) as [?|[?|[[? ?]|[? ?]]]]; done|done].
    split; intros Hj; destruct (Hc _ Hj) as [?|[?|[[? ?]|[? ?]]]]; done.
Qed.

Lemma starting_back g l k w :
  (x_n_path g <= POTR_MAX_PATH)%nat -> (k < x_n_path g)%nat ->
  within g (connect_threads k ++ accept_handles g ++ l) (conn_set (x_n_path g)) w -> within g l [] w.
Proof.
  intros Hn Hk (l' & Hw & Hl). exists l'. split; [done|]. intros h Hh. split; [|by apply not_elem_of_nil].
  destruct (Hl h Hh) as [Hin Hout]. unfold conn_set in Hout.
  rewrite !elem_of_app, !elem_of_cons in Hout. rewrite !elem_of_app in Hin.
  destruct Hin as [(j & Hj & ->%list_elem_of_singleton)%elem_of_upto|[Ha|?]]; [..|done]; exfalso; apply Hout.
  - right. left. apply elem_of_upto. exists j. split; [lia|]. by apply list_elem_of_singleton.
  - apply accept_handles_class in Ha as [->|(j & Hj & ->)]; [tauto|]. do 5 right.
    apply list_elem_of_fmap. exists j. split; [done|]. apply elem_of_seq. lia.
Qed.

Lemma connect_thread_start_R g l :
  (x_n_path g <= POTR_MAX_PATH)%nat -> idle l -> state_locks l ->
  triple (R g l false) potr_internal_connect_thread_start
    (fun rc w _ => if rc =? POTR_OK then R g (connect_threads (x_n_path g) ++ accept_handles g ++ l) false w
       else within g l [] w \/ stuck g w).
Proof.
  intros Hn Hi Hs. apply R_get_cfg. cbv zeta.
  eapply triple_seq; [by apply prepare_accept_R|]. intros rc.
  apply triple_checked; [intros _|]; last first.
  { intros Hr. apply triple_ret. intros w Hw. rewrite (proj2 (Z.eqb_neq _ _) Hr). by left. }
  eapply triple_seq.
  - apply (triple_for_while (fun k => R g (connect_threads k ++ accept_handles g ++ l) false)
      (fun w => within g l [] w \/ stuck g w) _ (x_n_path g) 0%nat).
    intros k Hk. eapply triple_then; [apply R_set_connect; lia|].
    eapply triple_seq; [apply R_create_thread|intros [|]; cbn [negb]].
    + rewrite !elem_of_app. intros [(j & Hj & [= <-]%list_elem_of_singleton)%elem_of_upto|[Ha|Hl]]; [lia|..].
      * apply accept_handles_class in Ha as [?|(? & ? & ?)]; done.
      * by apply (idle_absent l (HConnectThread k)) in Hl.
    + apply R_ret. intros w. apply R_equiv. intros h. unfold connect_threads.
      rewrite elem_of_cons, !elem_of_app, upto_S, list_elem_of_singleton. tauto.
    + eapply triple_then; [apply R_set_connect; lia|].
      eapply triple_then; [by apply connect_thread_stop_R, starting_conn_handles|].
      apply triple_ret. intros w [Hw|Hw]; [left|by right]. eapply starting_back; [done| |done]. lia.
  - intros [|]; by apply triple_ret.
Qed.

(** ** Locks and the send queue *)

Lemma create_locks_R g s hs : forall l,
  NoDup hs -> (forall h, h ∈ hs -> h ∉ l) ->
  triple (R g l s) (create_locks hs)
    (fun (ok : bool) w _ => if ok then R g (hs ++ l) s w
       else exists l', R g l' s w /\ forall h, h ∈ l' -> h ∈ l \/ h ∈ hs).
Proof.
  induction hs as [|h hs IH]; intros l Hd Hn; [by apply R_ret|]. cbn [create_locks].
  inversion_clear Hd as [|? ? Hh Hd0]. assert (h ∉ l) as Hl by (apply Hn, elem_of_cons; auto).
  eapply triple_seq; [by apply R_create_lock|]. intros [|].
  - eapply triple_conseq; [apply IH; [done|]|done|].
    + intros h' Hh'. rewrite elem_of_cons. intros [->|?]; [done|].
      apply (Hn h'); [apply elem_of_cons; auto|done].
    + intros [|] w es.
      * apply R_equiv. intros h'. cbn [app]. rewrite elem_of_cons, !elem_of_app, elem_of_cons. tauto.
      * intros (l' & Hw & Hs). exists l'. split; [done|]. intros h' Hh'.
        specialize (Hs h' Hh'). rewrite !elem_of_cons in *. tauto.
  - apply triple_ret. intros w Hw. exists l. split; [done|]. auto.
Qed.

(** A queue is held exactly after success. *)
Lemma open_send_queue_R g l s :
  HSendQueue ∉ l ->
  triple (R g l s) open_send_queue
    (fun rc w _ => if rc =? POTR_OK then R g (HSendQueue :: l) s w else R g l s w).
Proof.
  intros Hn. apply R_get_cfg. do 3 (eapply triple_seq; [apply R_tick|intros ?]).
  unfold potr_internal_send_queue_init.
  destruct a as [|], a0 as [|]; cbn [sq_sync when]; try (eapply triple_then; [apply triple_done|by apply R_ret]).
  destruct a1; cbn [sq_sync when potr_internal_send_queue_dispose].
  - eapply triple_then; [by apply R_acquire|by apply R_ret].
  - eapply triple_then; [apply triple_done|by apply R_ret].
Qed.

(** ** TCP *)

(** Handles that [api_context_dispose_resources] gives back. *)
Definition base_handle (h : handle) : bool :=
  match h with
  | HCallbackMutex | HCompressBuf | HCryptoBuf | HRecvBuf | HRecvCompressBuf | HRecvCryptoBuf
  | HSendWireBuf => true
  | HTcpRecvBuf k | HTcpListenSock k => (k <? POTR_MAX_PATH)%nat
  | _ => false
  end.

Definition based (l : list handle) : Prop := forall h, h ∈ l -> base_handle h = true.

Lemma based_absent l h : based l -> base_handle h = false -> h ∉ l.
Proof. intros Hb Hh Hl. rewrite (Hb h Hl) in Hh. done. Qed.

Lemma tcp_sync_not_base h : h ∈ tcp_sync_handles -> base_handle h = false /\ thread_class h = false.
Proof.
  intros Hh. assert (forallb (fun h => negb (base_handle h) && negb (thread_class h)) tcp_sync_handles
    = true) as Hf by reflexivity.
  rewrite forallb_forall in Hf. apply list_elem_of_In, Hf in Hh.
  by destruct (base_handle h), (thread_class h).
Qed.

(** Part of the locks may have been created. *)
Definition locking (g : service_config) (l : list handle) (w : world) : Prop :=
  exists l', R g l' false w /\ forall h, h ∈ l' -> h ∈ l \/ h ∈ tcp_sync_handles.

Lemma dispose_locking_R g l :
  triple (locking g l) api_context_dispose_tcp_sync (fun _ w _ => within g l [] w).
Proof.
  apply triple_ex. intros l' w [Hw Hl]. destruct (dispose_tcp_sync_R g l' false w Hw)
    as ([] & w' & es & Hrun & Hw'). exists tt, w', es. split; [done|]. eexists. split; [exact Hw'|].
  intros h [Hh Hn]%elem_of_without. split; [|by apply not_elem_of_nil]. destruct (Hl h Hh); tauto.
Qed.

Definition sends (g : service_config) (role : potr_role) : bool :=
  role_eqb role POTR_ROLE_SENDER || type_eqb (service_type (x_service g)) POTR_TYPE_TCP_BIDIR.

Definition queue_handles (b : bool) : list handle := if b then [HSendQueue] else [].

Lemma create_path_locks_R g l :
  (forall h, h ∈ upto tcp_path_locks POTR_MAX_PATH -> h ∉ l) ->
  triple (R g l false) (for_while 0 POTR_MAX_PATH (fun k => create_locks (tcp_path_locks k)))
    (fun (ok : bool) w _ => if ok then R g (upto tcp_path_locks POTR_MAX_PATH ++ l) false w
       else exists l', R g l' false w /\
         forall h, h ∈ l' -> h ∈ l \/ h ∈ upto tcp_path_locks POTR_MAX_PATH).
Proof.
  intros Hn. eapply triple_conseq; [apply (triple_for_while
    (fun k => R g (upto tcp_path_locks k ++ l) false)
    (fun w => exists l', R g l' false w /\
       forall h, h ∈ l' -> h ∈ l \/ h ∈ upto tcp_path_locks POTR_MAX_PATH) _ POTR_MAX_PATH 0%nat)|done|done].
  intros k Hk. assert (forall h, h ∈ tcp_path_locks k -> h ∈ upto tcp_path_locks POTR_MAX_PATH) as Hin.
  { intros h Hh. apply elem_of_upto. exists k. split; [lia|done]. }
  eapply triple_conseq; [apply create_locks_R|done|].
  - repeat constructor; unfold tcp_path_locks; handles.
  - intros h Hh. rewrite elem_of_app. intros [(j & Hj & Hh')%elem_of_upto|Hl]; [|by apply (Hn h); auto].
    unfold tcp_path_locks in *. rewrite !elem_of_cons, elem_of_nil in *.
    assert (j = k); [|lia]. destruct Hh as [->|[->|[->|[]]]], Hh' as [?|[?|[?|[]]]]; congruence.
  - intros [|] w es.
    + apply R_equiv. intros h. rewrite !elem_of_app, upto_S. tauto.
    + intros (l' & Hw & Hl). exists l'. split; [done|]. intros h Hh.
      destruct (Hl h Hh) as [Hh'|Hh']; [|right; by apply Hin].
      apply elem_of_app in Hh' as [(j & Hj & ?)%elem_of_upto|?]; [|by left]. right.
      apply elem_of_upto. exists j. split; [lia|done].
Qed.

Lemma within_refl g l w : R g l false w -> within g l [] w.
Proof. intros Hw. exists l. split; [done|]. intros h Hh. split; [done|]. by apply not_elem_of_nil. Qed.

Lemma tcp_failed_R {A} g l (a : A) P :
  (forall w, P w -> locking g l w) ->
  triple P (api_context_dispose_tcp_sync;; mret a) (fun b w _ => b = a /\ within g l [] w).
Proof.
  intros HP. apply (triple_from (locking g l)); [exact HP|].
  eapply triple_then; [apply dispose_locking_R|]. apply triple_ret. auto.
Qed.

(** The end of a start that failed on the connect threads. *)
Lemma tcp_undo_R g l b (result : Z) :
  based l ->
  triple (fun w => within g (queue_handles b ++ tcp_sync_handles ++ l) [] w \/ stuck g w)
    (x ← get_ctx;
     if api_context_has_threads x then mret result
     else when b close_send_queue;; api_context_dispose_tcp_sync;; mret result)
    (fun rc w _ => rc = result /\ (within g l [] w \/ stuck g w)).
Proof.
  intros Hb. apply triple_or.
  - apply triple_ex. intros l' w [Hw Hl]. revert w Hw. apply R_get_ctx. intros x Hx.
    rewrite (has_threads_owned _ _ _ _ Hx). destruct (existsb _ _) eqn:He.
    { exfalso. apply existsb_exists in He as (h & Hh%list_elem_of_In & Ht).
      destruct (Hl h Hh) as [Hi _]. rewrite !elem_of_app in Hi. destruct Hi as [Hq|[Hs|Hh']].
      - destruct b; [|by apply elem_of_nil in Hq]. by apply list_elem_of_singleton in Hq as ->.
      - apply tcp_sync_not_base in Hs as [_ Hs]. by destruct h.
      - apply Hb in Hh'. by destruct h. }
    eapply triple_then with (R := locking g l).
    + destruct b; unfold when, close_send_queue.
      * eapply (triple_conseq _ (R g (without l' []) false)); [apply R_dispose|apply R_without_nil|].
        intros [] w es Hw. eexists. split; [exact Hw|]. intros h [Hh Hn]%elem_of_without.
        destruct (Hl h Hh) as [Hi _]. cbn [queue_handles app] in Hi.
        rewrite elem_of_cons, elem_of_app in *. tauto.
      * apply triple_ret. intros w Hw. exists l'. split; [done|]. intros h Hh.
        destruct (Hl h Hh) as [Hi _]. cbn [queue_handles app] in Hi. rewrite elem_of_app in Hi. tauto.
    + eapply triple_conseq; [by apply (tcp_failed_R g l result (locking g l))|done|].
      intros rc w es [? ?]. auto.
  - intros w Hw. pose proof Hw as (l' & s & Hl' & _ & h & Hh & Ht). rewrite get_ctx_bind.
    rewrite (has_threads_owned _ _ _ _ Hl'), (proj2 (existsb_exists _ _)).
    + eexists _, _, _. split; [done|]. auto.
    + exists h. split; [by apply list_elem_of_In|done].
Qed.

(** What a TCP service holds. *)
Definition tcp_handles (g : service_config) (role : potr_role) : list handle :=
  connect_threads (x_n_path g) ++ accept_handles g ++ queue_handles (sends g role) ++ tcp_sync_handles.

(** A failed start leaves at most [l], or a thread that cannot be joined. *)
Definition start_outcome (g : service_config) (l l' : list handle) (s : bool) (rc : Z) (w : world) : Prop :=
  if rc =? POTR_OK then R g l' s w else within g l [] w \/ stuck g w.

Lemma start_failed g l l' s rc w :
  rc <> POTR_OK -> within g l [] w \/ stuck g w -> start_outcome g l l' s rc w.
Proof. intros Hr Hw. unfold start_outcome. by rewrite (proj2 (Z.eqb_neq _ _) Hr). Qed.

Lemma locks_idle b l : based l -> idle (queue_handles b ++ tcp_sync_handles ++ l).
Proof.
  intros Hb h. rewrite !elem_of_app. intros [Hq|[Hs|Hl]].
  - destruct b; [|by apply elem_of_nil in Hq]. by apply list_elem_of_singleton in Hq as ->.
  - by apply tcp_sync_not_base in Hs as [_ ?].
  - apply Hb in Hl. by destruct h.
Qed.

Lemma locks_state b l : state_locks (queue_handles b ++ tcp_sync_handles ++ l).
Proof.
  unfold state_locks. rewrite !elem_of_app. split_and!.
  1,2: right; left; by apply (bool_decide_eq_true_1 _).
  intros j Hj. rewrite !elem_of_app. right. left. unfold POTR_MAX_PATH in Hj.
  do 4 (destruct j as [|j]; [by apply (bool_decide_eq_true_1 _)|]). lia.
Qed.

(** The connect threads, once locks and queue exist. *)
Lemma tcp_connect_R g l role :
  based l -> (x_n_path g <= POTR_MAX_PATH)%nat ->
  triple (R g (queue_handles (sends g role) ++ tcp_sync_handles ++ l) false)
    (result ← potr_internal_connect_thread_start;
     if negb (result =? POTR_OK) then
       x ← get_ctx;
       if api_context_has_threads x then mret result
       else when (sends g role) close_send_queue;; api_context_dispose_tcp_sync;; mret result
     else mret result)
    (fun rc w _ => start_outcome g l (tcp_handles g role ++ l) false rc w).
Proof.
  intros Hb Hn.
  eapply triple_seq; [apply connect_thread_start_R; [done|by apply locks_idle|apply locks_state]|].
  intros rc. apply triple_checked.
  - intros ->. apply R_ret. intros w. unfold start_outcome, tcp_handles. cbn [Z.eqb POTR_OK].
    rewrite <- !app_assoc. done.
  - intros Hr. eapply triple_conseq; [by apply (tcp_undo_R g l (sends g role))|done|]. intros rc' w es [-> Hw].
    by apply start_failed.
Qed.

Lemma path_locks_distinct h :
  h ∈ upto tcp_path_locks POTR_MAX_PATH -> h ∈ tcp_global_locks -> False.
Proof.
  intros (k & _ & Hh)%elem_of_upto. unfold tcp_path_locks, tcp_global_locks in *.
  rewrite !elem_of_cons, elem_of_nil in *. destruct Hh as [->|[->|[->|[]]]]; intuition congruence.
Qed.

Lemma tcp_queue_R g l role :
  based l -> (x_n_path g <= POTR_MAX_PATH)%nat ->
  triple (R g (tcp_sync_handles ++ l) false)
    (result ← (if sends g role then open_send_queue else mret POTR_OK);
     if negb (result =? POTR_OK) then api_context_dispose_tcp_sync;; mret result
     else
       result ← potr_internal_connect_thread_start;
       if negb (result =? POTR_OK) then
         x ← get_ctx;
         if api_context_has_threads x then mret result
         else when (sends g role) close_send_queue;; api_context_dispose_tcp_sync;; mret result
       else mret result)
    (fun rc w _ => start_outcome g l (tcp_handles g role ++ l) false rc w).
Proof.
  intros Hb Hn. eapply triple_seq with (R := fun rc w =>
    if rc =? POTR_OK then R g (queue_handles (sends g role) ++ tcp_sync_handles ++ l) false w
    else R g (tcp_sync_handles ++ l) false w).
  - destruct (sends g role); [|by apply R_ret]. apply open_send_queue_R. rewrite elem_of_app.
    intros [Hq|?]; [|by apply (based_absent l HSendQueue)]. by apply (bool_decide_eq_true_2 _) in Hq.
  - intros rc. apply triple_checked; [intros _; by apply tcp_connect_R|]. intros Hr.
    eapply triple_conseq; [apply (tcp_failed_R g l)|done|].
    + intros w Hw. eexists. split; [exact Hw|]. intros h. rewrite elem_of_app. tauto.
    + intros rc' w es [-> Hw]. by apply start_failed; [|left].
Qed.

Lemma start_threads_tcp_R g l role :
  based l -> (x_n_path g <= POTR_MAX_PATH)%nat ->
  triple (R g l false) (start_threads_tcp role)
    (fun rc w _ => start_outcome g l (tcp_handles g role ++ l) false rc w).
Proof.
  intros Hb Hn. unfold start_threads_tcp. cbv zeta.
  assert (forall h, h ∈ tcp_sync_handles -> h ∉ l) as Hs.
  { intros h Hh. apply based_absent; [done|]. by apply tcp_sync_not_base. }
  assert (forall P, (forall w, P w -> exists l', R g l' false w /\
      forall h, h ∈ l' -> h ∈ l \/ h ∈ HRecvWindowMutex :: upto tcp_path_locks POTR_MAX_PATH ++ tcp_global_locks) ->
    triple P (api_context_dispose_tcp_sync;; mret POTR_ERR_UNKNOWN)
      (fun rc w _ => start_outcome g l (tcp_handles g role ++ l) false rc w)) as Hf.
  { intros P HP. eapply triple_conseq; [apply (tcp_failed_R g l)|done|].
    - intros w (l' & Hw & Hl)%HP. exists l'. split; [done|]. intros h Hh.
      destruct (Hl h Hh) as [?|Hi]; [by left|right]. revert Hi. by apply sublistb_spec.
    - intros rc w es [-> Hw]. by apply start_failed; [|left]. }
  eapply triple_seq; [apply create_locks_R|intros [|]; cbn [negb]].
  - repeat constructor; unfold tcp_global_locks; handles.
  - intros h Hh. apply Hs, elem_of_app. by left.
  - eapply triple_seq; [apply create_path_locks_R|intros [|]; cbn [negb]].
    + intros h Hh. rewrite elem_of_app. intros [Hg|Hl].
      * revert Hh Hg. apply path_locks_distinct.
      * apply (Hs h); [|done]. revert Hh. by apply sublistb_spec.
    + eapply triple_seq; [apply R_create_lock|intros [|]; cbn [negb]].
      * rewrite !elem_of_app. intros [Hh|[Hh|Hl]]; [..|by apply (based_absent l HRecvWindowMutex)].
        all: revert Hh; by apply (bool_decide_eq_false_1 _).
      * apply R_get_cfg. apply (triple_from (R g (tcp_sync_handles ++ l) false)); [|by apply tcp_queue_R].
        intros w. apply R_equiv. intros h. unfold tcp_sync_handles.
        change (concat (tcp_path_locks <$> seq 0 POTR_MAX_PATH)) with (upto tcp_path_locks POTR_MAX_PATH).
        rewrite elem_of_cons, !elem_of_app, elem_of_cons. tauto.
      * apply Hf. intros w Hw. eexists. split; [exact Hw|]. intros h.
        rewrite elem_of_cons, !elem_of_app. tauto.
    + apply Hf. intros w (l' & Hw & Hl). exists l'. split; [done|]. intros h Hh%Hl.
      rewrite elem_of_cons, !elem_of_app in *. tauto.
  - apply Hf. intros w (l' & Hw & Hl). exists l'. split; [done|]. intros h Hh%Hl.
    rewrite elem_of_cons, !elem_of_app. tauto.
Qed.

(** ** UDP *)

Definition send_list : list handle := [HSendThread; HSendWindowMutex; HSendQueue].

Definition health_list (g : service_config) : list handle :=
  if x_health_interval_ms g =? 0 then [] else health_handles 0.

Lemma based_udp l h :
  based l -> h ∈ HRecvThread 0 :: health_handles 0 ++ send_list -> h ∉ l.
Proof.
  intros Hb Hh. apply based_absent; [done|].
  assert (forallb (fun h => negb (base_handle h)) (HRecvThread 0 :: health_handles 0 ++ send_list) = true)
    as Hf by reflexivity.
  rewrite forallb_forall in Hf. apply negb_true_iff, Hf. by apply list_elem_of_In.
Qed.

Lemma dispose_queue_R g (l l' : list handle) s (result : Z) :
  (forall h, h ∈ l' -> h ∈ l \/ h = HSendQueue) ->
  triple (R g l' s) (close_send_queue;; mret result)
    (fun rc w _ => rc = result /\ exists l'', R g l'' s w /\ forall h, h ∈ l'' -> h ∈ l).
Proof.
  intros Hl. apply (triple_from (R g (without l' []) s)); [apply R_without_nil|].
  eapply triple_then; [apply R_dispose|]. apply triple_ret. intros w Hw. split; [done|].
  eexists. split; [exact Hw|]. intros h [Hh Hn]%elem_of_without. rewrite elem_of_cons in Hn.
  destruct (Hl h Hh); tauto.
Qed.

Lemma within_sub g (l l' : list handle) w :
  R g l' false w -> (forall h, h ∈ l' -> h ∈ l) -> within g l [] w.
Proof. intros Hw Hl. exists l'. split; [done|]. intros h Hh. split; [by apply Hl|by apply not_elem_of_nil]. Qed.

Lemma undo_send_thread_R g l result :
  based l ->
  triple (R g (send_list ++ l) true) (undo_send_thread result)
    (fun rc w _ => rc = result /\ (within g l [] w \/ stuck g w)).
Proof.
  intros Hb. eapply triple_then.
  { apply send_thread_stop_R. split; intros; cbn [send_list app]; rewrite ?elem_of_cons; tauto. }
  apply triple_or.
  - apply R_get_ctx. intros x Hx. rewrite (has_threads_owned _ _ _ _ Hx).
    destruct (existsb _ _) eqn:He.
    { exfalso. apply existsb_exists in He as (h & [Hh Hn]%list_elem_of_In%elem_of_without & Ht).
      cbn [send_list app] in *. rewrite !elem_of_cons in *. destruct Hh as [->|[->|[->|Hl]]]; try done.
      - tauto.
      - apply Hb in Hl. by destruct h. }
    eapply triple_conseq; [apply (dispose_queue_R g l)|done|].
    + intros h [Hh Hn]%elem_of_without. cbn [send_list app] in *. rewrite !elem_of_cons in *. tauto.
    + intros rc w es (-> & l' & Hw & Hl). split; [done|]. left. by eapply within_sub.
  - apply triple_ex. intros l' w (Hw & Hj & Hl). rewrite get_ctx_bind.
    rewrite (has_threads_owned _ _ _ _ Hw), (proj2 (existsb_exists _ _)).
    + eexists _, _, _. split; [done|]. split; [done|]. right. by eapply (stuck_intro g l' false HSendThread).
    + exists HSendThread. split; [by apply list_elem_of_In|done].
Qed.

(** The receive thread could not be started. *)
Lemma undo_health_R g l (result : Z) :
  based l ->
  triple (R g (health_list g ++ send_list ++ l) true)
    (stopped ← potr_internal_health_thread_stop;
     if negb (stopped =? POTR_OK) then mret result else undo_send_thread result)
    (fun rc w _ => rc = result /\ (within g l [] w \/ stuck g w)).
Proof.
  intros Hb. assert (forall h, h ∈ health_handles 0 -> h ∉ send_list ++ l) as Hd.
  { intros h Hh. rewrite elem_of_app. intros [Hs|Hl].
    - unfold health_handles, send_list in *. rewrite !elem_of_cons, elem_of_nil in *.
      destruct Hh as [->|[->|[->|[]]]]; intuition congruence.
    - apply (based_udp l h); [done| |done]. rewrite elem_of_cons, elem_of_app. tauto. }
  assert (forall h, h ∈ health_list g -> h ∈ health_handles 0) as Hsub.
  { unfold health_list. destruct (_ =? 0); [by intros h ?%elem_of_nil|done]. }
  eapply triple_seq; [apply health_thread_stop_R|].
  - intros h Hh. rewrite !elem_of_app in *. specialize (Hd h Hh) as Hdh.
    assert (HHealthThread 0 ∉ send_list ++ l) as Hdt by (apply Hd; unfold health_handles; handles).
    rewrite elem_of_app in *. unfold health_list. destruct (_ =? 0); [rewrite !elem_of_nil; tauto|].
    split; intros _; left; [unfold health_handles; handles|exact Hh].
  - intros r. apply triple_checked; intros _.
    + apply (triple_from (R g (send_list ++ l) true)); [|by apply undo_send_thread_R].
      intros w. apply R_equiv. intros h. specialize (Hd h). specialize (Hsub h).
      rewrite elem_of_without, elem_of_app. tauto.
    + apply triple_ret. auto.
Qed.

Lemma start_sending_threads_R g l :
  based l ->
  triple (R g l false) start_sending_threads
    (fun rc w _ => start_outcome g l (HRecvThread 0 :: health_list g ++ send_list ++ l) true rc w).
Proof.
  intros Hb. assert (forall h, h ∈ HRecvThread 0 :: health_handles 0 ++ send_list -> h ∉ l) as Hn
    by (intros h; by apply based_udp).
  assert (forall h, h ∈ HRecvThread 0 :: health_handles 0 -> h ∉ send_list ++ l) as Hn2.
  { intros h Hh. rewrite elem_of_app. intros [Hs|Hl].
    - unfold health_handles, send_list in *. rewrite !elem_of_cons, elem_of_nil in *.
      destruct Hh as [->|[->|[->|[->|[]]]]]; intuition congruence.
    - apply (Hn h); [|done]. rewrite elem_of_cons, elem_of_app in *. tauto. }
  apply R_get_cfg. eapply triple_seq; [by apply open_send_queue_R, based_absent|]. intros rc.
  apply triple_checked; [intros _|]; last first.
  { intros Hr. apply triple_ret. intros w Hw. apply start_failed; [done|]. left. by apply within_refl. }
  eapply triple_seq.
  { apply send_thread_start_R; rewrite elem_of_cons; (intros [?|Hl]; [done|]); revert Hl;
      by apply based_absent. }
  intros rc1. unfold started. apply triple_checked; last first.
  { intros Hr. eapply triple_conseq; [apply (dispose_queue_R g l)|done|].
    - intros h ?%elem_of_cons. tauto.
    - intros rc' w es (-> & l' & Hw & Hl). apply start_failed; [done|]. left. by eapply within_sub. }
  intros _. eapply triple_then; [apply R_set_immediate, path_0|].
  eapply (triple_then _ _ _ (R g (send_list ++ l) true)).
  { apply R_when; [|done]. intros _. apply R_set_immediate, path_0. }
  eapply triple_seq; [apply health_thread_start_R|].
  { intros h Hh. apply Hn2, elem_of_cons. by right. }
  intros rc2. apply triple_checked; [intros _|]; last first.
  { intros Hr. eapply triple_conseq; [by apply undo_send_thread_R|done|]. intros rc' w es [-> Hw].
    by apply start_failed. }
  fold (health_list g). eapply triple_seq; [apply comm_recv_thread_start_R|].
  { rewrite elem_of_app. intros [Hh|Hh]; [|by apply (Hn2 (HRecvThread 0)); [apply elem_of_cons; left|]].
    unfold health_list in Hh. destruct (_ =? 0); [by apply elem_of_nil in Hh|].
    revert Hh. by apply (bool_decide_eq_false_1 _). }
  intros rc3. apply triple_checked; [by intros _; apply R_ret|]. intros Hr.
  eapply triple_conseq; [by apply undo_health_R|done|]. intros rc' w es [-> Hw]. by apply start_failed.
Qed.

Definition two_way (g : service_config) : bool :=
  let t := service_type (x_service g) in
  type_eqb t POTR_TYPE_UNICAST_BIDIR || type_eqb t POTR_TYPE_UNICAST_BIDIR_N1.

(** What a UDP service holds: a pure receiver only its receive thread. *)
Definition udp_sends (g : service_config) (role : potr_role) : bool :=
  role_eqb role POTR_ROLE_SENDER || two_way g.
Definition udp_handles (g : service_config) (role : potr_role) : list handle :=
  HRecvThread 0 :: if udp_sends g role then health_list g ++ send_list else [].

Lemma start_threads_udp_R g l role :
  based l ->
  triple (R g l false) (start_threads_udp role)
    (fun rc w _ => start_outcome g l (udp_handles g role ++ l) (udp_sends g role) rc w).
Proof.
  intros Hb. apply R_get_cfg. cbv zeta.
  change (type_eqb (service_type (x_service g)) POTR_TYPE_UNICAST_BIDIR
    || type_eqb (service_type (x_service g)) POTR_TYPE_UNICAST_BIDIR_N1) with (two_way g).
  change (role_eqb role POTR_ROLE_SENDER || two_way g) with (udp_sends g role). unfold udp_handles.
  destruct (udp_sends g role) eqn:Hu.
  - assert (role_eqb role POTR_ROLE_RECEIVER && negb (two_way g) = false) as ->.
    { unfold udp_sends in Hu. destruct role, (two_way g); done. }
    eapply triple_seq with (R := fun rc w => rc = POTR_OK /\ R g l false w); [apply triple_ret; auto|].
    intros rc. apply triple_and. intros ->. cbn [negb Z.eqb POTR_OK app]. rewrite <- app_assoc.
    by apply start_sending_threads_R.
  - assert (role_eqb role POTR_ROLE_RECEIVER && negb (two_way g) = true) as ->.
    { unfold udp_sends in Hu. destruct role, (two_way g); done. }
    eapply triple_seq; [by apply comm_recv_thread_start_R, based_absent|]. intros rc.
    apply triple_checked; [by intros _; apply R_ret|]. intros Hr. apply triple_ret. intros w Hw.
    apply start_failed; [done|]. left. by apply within_refl.
Qed.
End Start.
