(* ===== verification/OpenState.v ===== *)
(** What the sockets and paths of a new service look like: the proofs about
    [OpenPaths.v]. *)

From stdpp Require Import base list numbers option.
From Stdlib Require Import ZArith Lia ZifyBool.
From S2P Require Import Prelude Types Packet Window SendQueue Context PathEvent Validate PeerTable.
From S2P Require Import Threads Frame Connect OpenPaths Open Resources OpenThreads.
Local Open Scope Z_scope.
Local Open Scope porter_scope.

(** ** Contexts being opened *)

(** Everything that opening does not touch before the threads start is zero. *)
Definition octx (g : service_config) (co : conn) (so : list bool)
    (ps : option (list potr_internal_peer_context)) (nid : Z) (hs : list handle) : potr_context :=
  PotrContext g co so (replicate POTR_MAX_PATH 0) ps 0 nid
    (replicate POTR_MAX_PATH false) (TcpCloseState false false 0 0) (replicate POTR_MAX_PATH 0)
    (replicate POTR_MAX_PATH false) 0 0 (TcpLinkState 0 false false 0 (Timespec 0 0))
    (Runtime hs false (replicate POTR_MAX_PATH false) (replicate POTR_MAX_PATH false)
       (replicate POTR_MAX_PATH false) (replicate POTR_MAX_PATH [])).

(** What can be cleaned up. *)
Definition dirty (w : world) : Prop := exists g l s, R g l s w /\ based l.

Lemma octx_dirty g co so ps nid hs t :
  length so = POTR_MAX_PATH -> based hs -> dirty (World (octx g co so ps nid hs) t).
Proof. intros Hs Hb. exists g, hs, false. split; [|done]. by split. Qed.

(** The configuration [g] has come from [g0] by resolving addresses and
    counting [n] paths. *)
Record staged (g0 g : service_config) (n : nat) : Prop := {
  sg_global : x_global g = x_global g0;
  sg_service : x_service g = x_service g0;
  sg_multi : x_is_multi_peer g = x_is_multi_peer g0;
  sg_peers : x_max_peers g = x_max_peers g0;
  sg_crypto : x_crypto_buf_size g = x_crypto_buf_size g0;
  sg_role : x_role g = x_role g0;
  sg_callback : x_callback g = x_callback g0;
  sg_interval : x_health_interval_ms g = x_health_interval_ms g0;
  sg_n : x_n_path g = n;
  sg_src : length (x_src_addr_resolved g) = POTR_MAX_PATH;
  sg_dst : length (x_dst_addr_resolved g) = POTR_MAX_PATH
}.

(** The first [k] sockets are open when [udp] is set; the first [k] listening
    sockets exist when [lst] is. *)
Definition path_socks (udp : bool) (k : nat) : list bool :=
  replicate k udp ++ replicate (POTR_MAX_PATH - k) false.

Definition path_handles (lst : bool) (k : nat) : list handle :=
  HCallbackMutex :: if lst then upto (fun k => [HTcpListenSock k]) k else [].

Definition paths_ctx (g0 : service_config) (udp lst : bool) (k : nat) (x : potr_context) : Prop :=
  exists g hs, x = octx g zero_conn (path_socks udp k) None 0 hs /\ staged g0 g k /\
    forall h, h ∈ hs <-> h ∈ path_handles lst k.

Definition Paths (g0 : service_config) (udp lst : bool) (k : nat) (w : world) : Prop :=
  paths_ctx g0 udp lst k (w_ctx w) /\ (k <= POTR_MAX_PATH)%nat.

Lemma path_socks_length udp k : (k <= POTR_MAX_PATH)%nat -> length (path_socks udp k) = POTR_MAX_PATH.
Proof. intros Hk. unfold path_socks. rewrite length_app, !length_replicate. lia. Qed.

Lemma path_handles_based lst k : (k <= POTR_MAX_PATH)%nat -> based (path_handles lst k).
Proof.
  intros Hk h [->|Hh]%elem_of_cons; [done|]. destruct lst; [|by apply elem_of_nil in Hh].
  apply elem_of_upto in Hh as (j & Hj & ->%list_elem_of_singleton). apply Nat.ltb_lt. lia.
Qed.

Lemma Paths_dirty g0 udp lst k w : Paths g0 udp lst k w -> dirty w.
Proof.
  destruct w as [x t]. intros [(g & hs & Hx & _ & Hh) Hk]. cbn [w_ctx] in Hx. subst x.
  apply octx_dirty; [by apply path_socks_length|]. intros h Hi%Hh. by eapply path_handles_based.
Qed.

(** ** Rules *)

Lemma triple_lift {A B} (o : option A) (k : A -> M B) P Q :
  is_Some o -> (forall a, o = Some a -> triple P (k a) Q) -> triple P (lift o ≫= k) Q.
Proof. intros [a Ho] Hk w Hw. rewrite (lift_bind _ a _ _ Ho). by apply Hk. Qed.

Lemma triple_quiet {A} (m : M A) (P : potr_context -> Prop) :
  (forall x, quiet x m) -> triple (fun w => P (w_ctx w)) m (fun _ w _ => P (w_ctx w)).
Proof. intros Hq [x t] Hw. destruct (Hq x t) as (a & t' & es & Hr). by eexists a, _, es. Qed.

Lemma triple_path_loop (I L : nat -> world -> Prop) (F : world -> Prop) body n : forall i,
  (forall k, (i <= k < i + n)%nat -> triple (I k) (body k) (fun turn w _ =>
     match turn with NextPath => I (S k) w | LastPath => L k w | Stop rc => rc <> POTR_OK /\ F w end)) ->
  triple (I i) (path_loop i n body) (fun rc w _ =>
    if rc =? POTR_OK then I (i + n)%nat w \/ exists k, (i <= k < i + n)%nat /\ L k w else F w).
Proof.
  induction n as [|n IH]; intros i Hb.
  - rewrite Nat.add_0_r. apply triple_ret. intros w Hw. by left.
  - cbn [path_loop]. eapply triple_seq; [apply Hb; lia|]. intros [| |rc].
    + eapply triple_conseq; [apply IH|done|].
      * intros k Hk. apply Hb. lia.
      * intros rc w es. cbv beta. destruct (rc =? POTR_OK); [|done]. rewrite Nat.add_succ_comm.
        intros [?|(k & Hk & ?)]; [by left|]. right. exists k. split; [lia|done].
    + apply triple_ret. intros w Hw. cbn. right. exists i. split; [lia|done].
    + apply triple_and. intros Hr. apply triple_ret. intros w Hw.
      by rewrite (proj2 (Z.eqb_neq _ _) Hr).
Qed.

Lemma Paths_get_cfg {B} g0 udp lst k (m : service_config -> M B) Q :
  (forall g, staged g0 g k -> triple (Paths g0 udp lst k) (m g) Q) ->
  triple (Paths g0 udp lst k) (get_cfg ≫= m) Q.
Proof.
  intros Hm w Hw. rewrite get_cfg_bind. apply Hm; [|done].
  destruct Hw as [(g & hs & -> & Hs & _) _]. done.
Qed.

Lemma Paths_quiet {A} g0 udp lst k (m : M A) :
  (forall x, quiet x m) -> triple (Paths g0 udp lst k) m (fun _ w _ => Paths g0 udp lst k w).
Proof.
  intros Hq. apply (triple_quiet m (fun x => paths_ctx g0 udp lst k x /\ (k <= POTR_MAX_PATH)%nat) Hq).
Qed.

(** A failed socket call reports its cause. *)
Class ErrorLaws `{Platform} := { error_has_cause n : error_cause n <> CPLAT_CAUSE_NONE }.

Section Paths.
Context `{CplatByteorder} `{Platform} `{Host}.

(** Replacing the configuration. *)
Lemma Paths_modify_cfg g0 g1 udp lst k f :
  (forall g, staged g0 g k -> staged g1 (f g) k) ->
  triple (Paths g0 udp lst k) (modify_cfg f) (fun _ w _ => Paths g1 udp lst k w).
Proof.
  intros Hf [x t] [(g & hs & Hx & Hs & Hh) Hk]. cbn [w_ctx] in Hx. subst x.
  eexists _, _, _. split; [done|]. split; [|done]. exists (f g), hs. auto.
Qed.

Lemma quiet_resolve x host : quiet x (api_paths_resolve_ipv4 host).
Proof. intros t. unfold api_paths_resolve_ipv4. rewrite tick_bind. destruct (cplat_ipv4_resolve _ _). by eexists _, _, _. Qed.

Lemma Paths_resolve_src g0 udp lst k i :
  (i < POTR_MAX_PATH)%nat ->
  triple (Paths g0 udp lst k) (resolve_src i) (fun _ w _ => Paths g0 udp lst k w).
Proof.
  intros Hi. apply Paths_get_cfg. intros g Hs.
  eapply triple_seq; [apply Paths_quiet; intros x; apply quiet_resolve|]. intros [rc a].
  destruct (negb (rc =? POTR_OK)); [by apply triple_ret|].
  unfold store. rewrite (proj2 (Nat.ltb_lt _ _)) by (destruct Hs; lia).
  intros w Hw. rewrite ret_bind. revert w Hw. apply (triple_then _ _ _ (Paths g0 udp lst k)); [|by apply triple_ret].
  apply Paths_modify_cfg. intros g' Hg. destruct Hg, Hs. split; try done. cbn. by rewrite length_insert.
Qed.

Lemma Paths_resolve_dst g0 udp lst k i :
  (i < POTR_MAX_PATH)%nat ->
  triple (Paths g0 udp lst k) (resolve_dst i) (fun _ w _ => Paths g0 udp lst k w).
Proof.
  intros Hi. apply Paths_get_cfg. intros g Hs.
  eapply triple_seq; [apply Paths_quiet; intros x; apply quiet_resolve|]. intros [rc a].
  destruct (negb (rc =? POTR_OK)); [by apply triple_ret|].
  unfold store. rewrite (proj2 (Nat.ltb_lt _ _)) by (destruct Hs; lia).
  intros w Hw. rewrite ret_bind. revert w Hw. apply (triple_then _ _ _ (Paths g0 udp lst k)); [|by apply triple_ret].
  apply Paths_modify_cfg. intros g' Hg. destruct Hg, Hs. split; try done. cbn. by rewrite length_insert.
Qed.

(** ** Sockets *)

Lemma quiet_bind_socket x k a p : quiet x (bind_socket k a p).
Proof. apply quiet_bind; [apply quiet_emit|]. intros _. apply quiet_tick. Qed.

(** Path [k] is being set up, its socket open in a local variable. *)
Definition Local (g0 : service_config) (udp lst : bool) (k : nat) (w : world) : Prop :=
  exists g hs, w_ctx w = octx g zero_conn (path_socks udp k) None 0 hs /\ staged g0 g k /\
    (k <= POTR_MAX_PATH)%nat /\ forall h, h ∈ hs <-> h ∈ HLocalSock k :: path_handles lst k.

(** A function that returns a valid socket in a local variable, or none. *)
Definition opens (k : nat) (open : M bool) : Prop := forall g0 udp lst,
  triple (Paths g0 udp lst k) open
    (fun (ok : bool) w _ => if ok then Local g0 udp lst k w else Paths g0 udp lst k w).

Lemma local_absent k lst n : HLocalSock k ∉ path_handles lst n.
Proof.
  unfold path_handles. destruct lst; rewrite elem_of_cons, ?elem_of_upto, ?elem_of_nil.
  - intros [?|(j & _ & ?%list_elem_of_singleton)]; congruence.
  - intros [?|?]; congruence.
Qed.

Lemma opens_local k : opens k (open_local k).
Proof.
  intros g0 udp lst. eapply triple_seq; [apply Paths_quiet; intros x; apply quiet_tick|].
  intros [|]; [|by apply triple_ret]. intros [x t] [(g & hs & Hx & Hs & Hh) Hk]. cbn [w_ctx] in Hx. subst x.
  unfold acquire. rewrite bind_assoc, get_ctx_bind. cbn [w_ctx]. unfold holds.
  rewrite bool_decide_false by (cbn; rewrite Hh; apply local_absent).
  eexists _, _, _. split; [done|]. exists g, (HLocalSock k :: hs). split_and!; [done..|].
  intros h. by rewrite !elem_of_cons, Hh.
Qed.

Lemma Local_quiet {A} g0 udp lst k (m : M A) :
  (forall x, quiet x m) -> triple (Local g0 udp lst k) m (fun _ w _ => Local g0 udp lst k w).
Proof.
  intros Hq. apply (triple_quiet m (fun x => exists g hs, x = octx g zero_conn (path_socks udp k) None 0 hs /\
    staged g0 g k /\ (k <= POTR_MAX_PATH)%nat /\ forall h, h ∈ hs <-> h ∈ HLocalSock k :: path_handles lst k) Hq).
Qed.

(** The local variable gives the socket up. *)
Lemma Local_release g0 udp lst k :
  triple (Local g0 udp lst k) (release (HLocalSock k)) (fun _ w _ => Paths g0 udp lst k w).
Proof.
  intros [x t] (g & hs & Hx & Hs & Hk & Hh). cbn [w_ctx] in Hx. subst x.
  unfold release. rewrite get_ctx_bind. cbn [w_ctx]. unfold holds.
  rewrite bool_decide_true by (cbn; rewrite Hh; by left).
  eexists _, _, _. split; [done|]. split; [|done]. eexists g, _. split; [done|]. split; [done|].
  intros h. rewrite list_elem_of_filter, Hh, elem_of_cons. pose proof (local_absent k lst k).
  destruct (decide (h = HLocalSock k)) as [->|]; tauto.
Qed.

(** A step of setting up the socket: it is closed when the step fails. *)
Lemma Local_step g0 udp lst k (m : M bool) (body : M bool) :
  (forall x, quiet x m) ->
  triple (Local g0 udp lst k) body
    (fun (ok : bool) w _ => if ok then Local g0 udp lst k w else Paths g0 udp lst k w) ->
  triple (Local g0 udp lst k) (ok ← m; if negb ok then close_local k;; mret false else body)
    (fun (ok : bool) w _ => if ok then Local g0 udp lst k w else Paths g0 udp lst k w).
Proof.
  intros Hm Hb. eapply triple_seq; [by apply Local_quiet|]. intros [|]; cbn [negb]; [done|].
  eapply triple_then; [apply Local_release|]. by apply triple_ret.
Qed.

Lemma opens_seq k (body : M bool) :
  (forall g0 udp lst, triple (Local g0 udp lst k) body
    (fun (ok : bool) w _ => if ok then Local g0 udp lst k w else Paths g0 udp lst k w)) ->
  opens k (ok ← open_local k; if negb ok then mret false else body).
Proof.
  intros Hb g0 udp lst. eapply triple_seq; [apply opens_local|]. intros [|]; cbn [negb]; [done|]. by apply triple_ret.
Qed.

Lemma opens_unicast k a p : opens k (open_socket_unicast k a p).
Proof.
  apply opens_seq. intros g0 udp lst. apply Local_step; [intros x; apply quiet_bind_socket|by apply triple_ret].
Qed.

Lemma opens_multicast k svc a r : opens k (open_socket_multicast k svc a r).
Proof.
  apply opens_seq. intros g0 udp lst. apply Local_step; [intros x; apply quiet_bind_socket|].
  destruct (negb _); [eapply triple_then; [apply Local_release|by apply triple_ret]|].
  apply Local_step; [intros x; apply quiet_tick|by apply triple_ret].
Qed.

Lemma opens_broadcast k p q a r : opens k (open_socket_broadcast k p q a r).
Proof.
  apply opens_seq. intros g0 udp lst. apply Local_step; [intros x; apply quiet_tick|].
  apply Local_step; [intros x; apply quiet_bind_socket|by apply triple_ret].
Qed.

Lemma path_socks_next k : (k < POTR_MAX_PATH)%nat -> <[k:=true]> (path_socks true k) = path_socks true (S k).
Proof. unfold POTR_MAX_PATH. intros Hk. by do 4 (destruct k as [|k]; [done|]); lia. Qed.

Lemma path_socks_free k : (k < POTR_MAX_PATH)%nat -> path_socks true k !! k = Some false.
Proof. unfold POTR_MAX_PATH. intros Hk. by do 4 (destruct k as [|k]; [done|]); lia. Qed.

(** The socket of path [k] is open, the path not yet counted. *)
Definition Socket (g0 : service_config) (k : nat) (w : world) : Prop :=
  exists g hs, w_ctx w = octx g zero_conn (path_socks true (S k)) None 0 hs /\ staged g0 g k /\
    forall h, h ∈ hs <-> h ∈ path_handles false k.

Lemma take_socket_ok g0 k open :
  (k < POTR_MAX_PATH)%nat -> opens k open ->
  triple (Paths g0 true false k) (take_socket k open)
    (fun (ok : bool) w _ => if ok then Socket g0 k w else dirty w).
Proof.
  intros Hk Ho. unfold take_socket. eapply triple_seq with (R := fun v w => v = false /\ Paths g0 true false k w).
  { intros [x t] Hw. pose proof Hw as [(g & hs & Hx & _) _]. cbn [w_ctx] in Hx. subst x.
    exists false, (World (octx g zero_conn (path_socks true k) None 0 hs) t), []. split; [|by split].
    unfold sock_valid. rewrite get_ctx_bind. unfold lift. cbn [w_ctx octx x_sock]. by rewrite path_socks_free. }
  intros v. apply triple_and. intros ->. eapply triple_seq; [apply Ho|]. intros ok.
  apply (triple_then _ _ _ (Paths g0 true false k)).
  { destruct ok; [apply Local_release|by apply triple_ret]. }
  intros [x t] [(g & hs & Hx & Hs & Hh) _]. cbn [w_ctx] in Hx. subst x.
  unfold set_sock, store. rewrite bind_assoc, get_ctx_bind. cbn [w_ctx octx x_sock].
  rewrite path_socks_length by lia. rewrite (proj2 (Nat.ltb_lt _ _)) by done.
  eexists _, _, _. split; [done|]. destruct ok.
  - exists g, hs. by rewrite path_socks_next.
  - apply octx_dirty.
    + rewrite length_insert. apply path_socks_length. lia.
    + intros h Hi%Hh. apply (path_handles_based false k); [lia|done].
Qed.

Lemma count_socket_ok g0 k (f : service_config -> service_config) :
  (k < POTR_MAX_PATH)%nat -> (forall g, staged g0 g k -> staged g0 (f g) (S k)) ->
  triple (Socket g0 k) (modify_cfg f) (fun _ w _ => Paths g0 true false (S k) w).
Proof.
  intros Hk Hf [x t] (g & hs & Hx & Hs & Hh). cbn [w_ctx] in Hx. subst x.
  eexists _, _, _. split; [done|]. split; [|lia]. exists (f g), hs. auto.
Qed.

Lemma staged_count g0 g k n : staged g0 g k -> staged g0 (set_n_path g n) n.
Proof. intros []. by split. Qed.

(** ** The loops *)

(** The outcome of one turn, and of the whole loop. *)
Definition turn_ok g0 udp lst k (turn : loop_turn) (w : world) : Prop :=
  match turn with
  | NextPath => Paths g0 udp lst (S k) w
  | LastPath => Paths g0 udp lst k w
  | Stop rc => rc <> POTR_OK /\ dirty w
  end.

Definition paths_outcome g0 udp lst (rc : Z) (w : world) : Prop :=
  if rc =? POTR_OK then exists k, (1 <= k <= POTR_MAX_PATH)%nat /\ Paths g0 udp lst k w else dirty w.

Lemma paths_failed g0 udp lst rc w : rc <> POTR_OK -> dirty w -> paths_outcome g0 udp lst rc w.
Proof. intros Hr Hw. unfold paths_outcome. by rewrite (proj2 (Z.eqb_neq _ _) Hr). Qed.

Lemma turn_checked g0 udp lst k (m : M Z) (body : M loop_turn) :
  triple (Paths g0 udp lst k) m (fun _ w _ => Paths g0 udp lst k w) ->
  triple (Paths g0 udp lst k) body (fun turn w _ => turn_ok g0 udp lst k turn w) ->
  triple (Paths g0 udp lst k) (rc ← m; if negb (rc =? POTR_OK) then mret (Stop rc) else body)
    (fun turn w _ => turn_ok g0 udp lst k turn w).
Proof.
  intros Hm Hb. eapply triple_seq; [exact Hm|]. intros rc.
  destruct (Z.eqb_spec rc POTR_OK) as [He|Hn]; cbn [negb]; [done|].
  apply triple_ret. intros w Hw. split; [done|]. by eapply Paths_dirty.
Qed.

Lemma turn_last g0 udp lst k :
  triple (Paths g0 udp lst k) (mret LastPath) (fun turn w _ => turn_ok g0 udp lst k turn w).
Proof. by apply triple_ret. Qed.

Lemma turn_socket g0 k open :
  (k < POTR_MAX_PATH)%nat -> opens k open ->
  triple (Paths g0 true false k) (socket_path k open) (fun turn w _ => turn_ok g0 true false k turn w).
Proof.
  intros Hk Hq. eapply triple_seq; [by apply take_socket_ok|]. intros [|]; cbn [negb].
  - eapply triple_then; [apply count_socket_ok; [done|]|by apply triple_ret].
    intros g Hg. rewrite (sg_n _ _ _ Hg). by eapply staged_count.
  - by apply triple_ret.
Qed.

(** [need_path] after a loop that ended normally. *)
Lemma need_path_ok g0 udp lst k :
  triple (Paths g0 udp lst k) need_path (fun rc w _ => paths_outcome g0 udp lst rc w).
Proof.
  apply Paths_get_cfg. intros g Hs. rewrite (sg_n _ _ _ Hs). apply triple_ret. intros w Hw.
  destruct (Nat.eqb_spec k 0) as [->|Hk].
  - apply paths_failed; [done|]. by eapply Paths_dirty.
  - exists k. destruct Hw. split; [lia|done].
Qed.

Lemma loop_ok g0 udp lst body :
  (forall k, (k < POTR_MAX_PATH)%nat ->
     triple (Paths g0 udp lst k) (body k) (fun turn w _ => turn_ok g0 udp lst k turn w)) ->
  triple (Paths g0 udp lst 0) (and_then (path_loop 0 POTR_MAX_PATH body) need_path)
    (fun rc w _ => paths_outcome g0 udp lst rc w).
Proof.
  intros Hb. eapply triple_seq.
  { apply (triple_path_loop (Paths g0 udp lst) (Paths g0 udp lst) dirty). intros k Hk.
    eapply triple_conseq; [apply Hb; lia|done|]. by intros [| |rc] w es. }
  intros rc. cbv beta. apply (triple_checked (fun w => Paths g0 udp lst (0 + POTR_MAX_PATH) w \/
    exists k, (0 <= k < 0 + POTR_MAX_PATH)%nat /\ Paths g0 udp lst k w) dirty).
  - intros _. apply triple_or; [apply need_path_ok|]. apply triple_ex. intros k.
    apply triple_and. intros _. apply need_path_ok.
  - intros Hr. apply triple_ret. intros w. by apply paths_failed.
Qed.

Lemma refused g0 udp lst k rc :
  rc <> POTR_OK -> triple (Paths g0 udp lst k) (mret rc) (fun rc w _ => paths_outcome g0 udp lst rc w).
Proof. intros Hr. apply triple_ret. intros w Hw. apply paths_failed; [done|]. by eapply Paths_dirty. Qed.

Lemma open_unicast_ok g0 role :
  triple (Paths g0 true false 0) (api_open_paths_unicast role)
    (fun rc w _ => paths_outcome g0 true false rc w).
Proof.
  apply Paths_get_cfg. intros g _. destruct (_ =? 0); [by apply refused|].
  apply loop_ok. intros k Hk. apply Paths_get_cfg. intros g1 _. cbv zeta.
  destruct (_ || _); [apply turn_last|].
  apply turn_checked; [by apply Paths_resolve_src|].
  apply turn_checked; [by apply Paths_resolve_dst|].
  apply Paths_get_cfg. intros g2 Hs. apply triple_lift; [apply lookup_lt_is_Some_2; destruct Hs; lia|].
  intros s _. apply triple_lift; [apply lookup_lt_is_Some_2; destruct Hs; lia|]. intros d _.
  apply turn_socket; [done|]. destruct role; apply opens_unicast.
Qed.

Lemma open_multicast_ok g0 role :
  triple (Paths g0 true false 0) (api_open_paths_multicast role)
    (fun rc w _ => paths_outcome g0 true false rc w).
Proof.
  apply Paths_get_cfg. intros g _. destruct (_ || _); [by apply refused|].
  apply loop_ok. intros k Hk. apply Paths_get_cfg. intros g1 _. cbv zeta.
  destruct (addr_is_empty _ _); [apply turn_last|].
  apply turn_checked; [by apply Paths_resolve_src|].
  apply Paths_get_cfg. intros g2 Hs. apply triple_lift; [apply lookup_lt_is_Some_2; destruct Hs; lia|].
  intros s _. apply turn_socket; [done|]. apply opens_multicast.
Qed.

(** The service after the default broadcast address has been filled in. *)
Definition default_broadcast (g : service_config) : service_config :=
  if (length (broadcast_addr (x_service g)) =? 0)%nat
  then set_service g (set_broadcast_addr (x_service g) limited_broadcast) else g.

Lemma open_broadcast_ok g0 role :
  triple (Paths g0 true false 0) (api_open_paths_broadcast role)
    (fun rc w _ => paths_outcome (default_broadcast g0) true false rc w).
Proof.
  apply Paths_get_cfg. intros g Hg. destruct (_ =? 0).
  { apply triple_ret. intros w Hw. apply paths_failed; [done|]. by eapply Paths_dirty. }
  apply (triple_then _ _ _ (Paths (default_broadcast g0) true false 0)).
  { unfold default_broadcast. rewrite (sg_service _ _ _ Hg). destruct (_ =? 0)%nat; unfold when; [|apply triple_done].
    apply Paths_modify_cfg. intros g1 []. split; try done. cbn. congruence. }
  apply loop_ok. intros k Hk. apply Paths_get_cfg. intros g1 _. cbv zeta.
  destruct (addr_is_empty _ _); [apply turn_last|].
  apply turn_checked; [by apply Paths_resolve_src|].
  apply Paths_get_cfg. intros g2 Hs. apply triple_lift; [apply lookup_lt_is_Some_2; destruct Hs; lia|].
  intros s _. apply turn_socket; [done|]. apply opens_broadcast.
Qed.

(** One socket for all senders. *)
Lemma single_socket_ok g0 open :
  opens 0 open ->
  triple (Paths g0 true false 0)
    (ok ← take_socket 0 open;
     if negb ok then mret POTR_ERR_IO else modify_cfg (fun g => set_n_path g 1);; mret POTR_OK)
    (fun rc w _ => paths_outcome g0 true false rc w).
Proof.
  intros Hq. eapply triple_seq; [apply take_socket_ok; [apply path_0|done]|]. intros [|]; cbn [negb].
  - eapply triple_then; [apply count_socket_ok; [apply path_0|]|].
    + intros g. apply staged_count.
    + apply triple_ret. intros w Hw. exists 1%nat. split; [unfold POTR_MAX_PATH; lia|done].
  - by apply triple_ret.
Qed.

Lemma maybe_ok g0 udp lst k b (m : M Z) :
  triple (Paths g0 udp lst k) m (fun _ w _ => Paths g0 udp lst k w) ->
  triple (Paths g0 udp lst k) (if b : bool then mret POTR_OK else m) (fun _ w _ => Paths g0 udp lst k w).
Proof. intros Hm. destruct b; [by apply triple_ret|done]. Qed.

Lemma open_dynamic_ok g0 :
  triple (Paths g0 true false 0) open_dynamic_receiver (fun rc w _ => paths_outcome g0 true false rc w).
Proof.
  apply Paths_get_cfg. intros g _. cbv zeta.
  eapply triple_seq; [apply maybe_ok, Paths_resolve_dst, path_0|]. intros rc.
  destruct (Z.eqb_spec rc POTR_OK) as [_|Hr]; cbn [negb]; [|by apply refused].
  apply Paths_get_cfg. intros g2 Hs. apply triple_lift; [apply lookup_lt_is_Some_2; destruct Hs; unfold POTR_MAX_PATH in *; lia|].
  intros d _. apply single_socket_ok, opens_unicast.
Qed.

Lemma open_bidir_ok g0 role :
  triple (Paths g0 true false 0) (api_open_paths_unicast_bidir role)
    (fun rc w _ => paths_outcome (set_multi_peer g0 false) true false rc w).
Proof.
  apply (triple_then _ _ _ (Paths (set_multi_peer g0 false) true false 0)).
  { apply Paths_modify_cfg. intros g []. by split. }
  apply Paths_get_cfg. intros g _. destruct (_ =? 0); [by apply refused|].
  destruct (_ && _); [apply open_dynamic_ok|].
  apply loop_ok. intros k Hk. apply Paths_get_cfg. intros g1 _. cbv zeta.
  destruct (addr_is_empty (dst_addr _) _); [apply turn_last|].
  destruct (_ && _); [apply turn_last|].
  apply turn_checked; [by apply maybe_ok, Paths_resolve_src|].
  apply turn_checked; [by apply Paths_resolve_dst|].
  apply Paths_get_cfg. intros g2 Hs. apply triple_lift; [apply lookup_lt_is_Some_2; destruct Hs; lia|].
  intros s _. apply triple_lift; [apply lookup_lt_is_Some_2; destruct Hs; lia|]. intros d _.
  apply turn_socket; [done|]. destruct role; apply opens_unicast.
Qed.

(** ** N:1 *)

(** The table of peers of configuration [g], and the next identifier. *)
Definition fresh_table (g : service_config) : option (list potr_internal_peer_context) * Z :=
  if x_is_multi_peer g
  then (Some (replicate (Z.to_nat (x_max_peers g)) (Peer 0 false zero_conn 0 false)), 1) else (None, 0).

(** Sockets, paths and peers are ready. *)
Definition Ready (g0 : service_config) (udp lst : bool) (w : world) : Prop :=
  exists k g hs, (1 <= k <= POTR_MAX_PATH)%nat /\
    w_ctx w = octx g zero_conn (path_socks udp k) (fst (fresh_table g)) (snd (fresh_table g)) hs /\
    staged g0 g k /\ forall h, h ∈ hs <-> h ∈ path_handles lst k.

Lemma Paths_ready g0 udp lst k w :
  x_is_multi_peer g0 = false -> (1 <= k)%nat -> Paths g0 udp lst k w -> Ready g0 udp lst w.
Proof.
  intros Hm Hk [(g & hs & Hx & Hs & Hh) Hle]. exists k, g, hs. split; [lia|]. split; [|done].
  unfold fresh_table. rewrite (sg_multi _ _ _ Hs), Hm. done.
Qed.

Lemma effective_max_peers_range n : 1 <= effective_max_peers n < 2147483648.
Proof.
  unfold effective_max_peers. destruct (Z.leb_spec (i32 n) 0) as [|Hn]; [lia|].
  pose proof (i32_range n). lia.
Qed.

Lemma table_init_ready g0 k :
  (1 <= k)%nat -> x_is_multi_peer g0 = true ->
  triple (Paths g0 true false k) (potr_internal_peer_table_init (x_max_peers g0))
    (fun rc w _ => if rc =? POTR_OK then Ready g0 true false w else dirty w).
Proof.
  intros Hk Hm [x t] Hw. pose proof (Paths_dirty _ _ _ _ _ Hw) as Hd.
  destruct Hw as [(g & hs & Hx & Hs & Hh) Hle]. cbn [w_ctx] in Hx. subst x.
  unfold potr_internal_peer_table_init. rewrite tick_bind. destruct (alloc_ok _); cbn [negb].
  - rewrite get_ctx_bind, tick_bind. destruct (alloc_ok _); cbn [negb]; rewrite put_ctx_bind;
      eexists _, _, _; (split; [done|]); cbn [Z.eqb POTR_OK POTR_ERR_UNKNOWN].
    + exists k, g, hs. split; [lia|]. split; [|done]. cbn [w_ctx]. unfold fresh_table.
      rewrite (sg_multi _ _ _ Hs), Hm, (sg_peers _ _ _ Hs). done.
    + exact Hd.
  - eexists _, _, _. split; [done|]. exact Hd.
Qed.

Definition ready_outcome g0 udp lst (rc : Z) (w : world) : Prop :=
  if rc =? POTR_OK then Ready g0 udp lst w else dirty w.

Lemma open_n1_ok g0 :
  triple (Paths g0 true false 0) api_open_paths_unicast_bidir_n1
    (fun rc w _ => ready_outcome (set_max_peers (set_multi_peer g0 true)
       (effective_max_peers (max_peers_def (x_service g0)))) true false rc w).
Proof.
  apply (triple_then _ _ _ (Paths (set_multi_peer g0 true) true false 0)).
  { apply Paths_modify_cfg. intros g []. by split. }
  apply Paths_get_cfg. intros g Hg. cbv zeta. rewrite (sg_service _ _ _ Hg). cbn [x_service set_multi_peer].
  destruct (_ =? 0). { apply triple_ret. intros w Hw. by eapply Paths_dirty. }
  eapply triple_seq with (R := fun rc w => paths_outcome (set_multi_peer g0 true) true false rc w).
  - destruct (addr_is_empty (dst_addr (x_service g0)) 0) eqn:He.
    { apply single_socket_ok, opens_unicast. }
    eapply triple_conseq; [apply (triple_path_loop (Paths (set_multi_peer g0 true) true false)
      (fun k w => (0 < k)%nat /\ Paths (set_multi_peer g0 true) true false k w) dirty)|done|].
    + intros k Hk. destruct (addr_is_empty _ k) eqn:Hek.
      { apply triple_ret. intros w Hw. split; [|done]. destruct k; [congruence|lia]. }
      eapply triple_seq; [apply Paths_resolve_dst; lia|]. intros rc.
      destruct (Z.eqb_spec rc POTR_OK) as [_|Hr]; cbn [negb].
      * apply Paths_get_cfg. intros g2 Hs. apply triple_lift; [apply lookup_lt_is_Some_2; destruct Hs; lia|].
        intros d _. eapply triple_seq; [apply take_socket_ok; [lia|apply opens_unicast]|].
        intros [|]; cbn [negb]; [|by apply triple_ret].
        eapply triple_then; [apply count_socket_ok; [lia|]|by apply triple_ret]. intros g3. apply staged_count.
      * apply triple_ret. intros w Hw. split; [done|]. by eapply Paths_dirty.
    + intros rc w es. unfold paths_outcome. destruct (rc =? POTR_OK); [|done].
      intros [Hw|(k & Hk & Hk0 & Hw)]; eexists; (split; [|exact Hw]); unfold POTR_MAX_PATH in *; lia.
  - intros rc. apply triple_checked; [intros _|].
    + apply triple_ex. intros k. apply triple_and. intros Hk.
      apply (triple_then _ _ _ (Paths (set_max_peers (set_multi_peer g0 true)
        (effective_max_peers (max_peers_def (x_service g0)))) true false k)).
      * apply Paths_modify_cfg. intros g1 []. by split.
      * refine (table_init_ready (set_max_peers (set_multi_peer g0 true)
          (effective_max_peers (max_peers_def (x_service g0)))) k _ eq_refl). lia.
    + intros Hr. apply triple_ret. intros w Hw. unfold ready_outcome.
      by rewrite (proj2 (Z.eqb_neq _ _) Hr).
Qed.

(** ** TCP *)

Context `{!ErrorLaws}.

(** The listening socket of path [k] exists when [lst] is set, the path is
    not yet counted. *)
Definition Listen (g0 : service_config) (lst : bool) (k : nat) (w : world) : Prop :=
  exists g hs, w_ctx w = octx g zero_conn (path_socks false k) None 0 hs /\ staged g0 g k /\
    forall h, h ∈ hs <-> h ∈ path_handles lst (S k).

Lemma count_listen_ok g0 lst k :
  (k < POTR_MAX_PATH)%nat ->
  triple (Listen g0 lst k) (modify_cfg (fun g => set_n_path g (S k)))
    (fun _ w _ => Paths g0 false lst (S k) w).
Proof.
  intros Hk [x t] (g & hs & Hx & Hs & Hh). cbn [w_ctx] in Hx. subst x.
  eexists _, _, _. split; [done|]. split; [|lia]. exists (set_n_path g (S k)), hs.
  split; [|by eauto using staged_count]. unfold path_socks. rewrite <- !replicate_add.
  by replace (k + (POTR_MAX_PATH - k))%nat with (S k + (POTR_MAX_PATH - S k))%nat by lia.
Qed.

Lemma Paths_listen g0 k w : Paths g0 false false k w -> Listen g0 false k w.
Proof. intros [(g & hs & Hx & Hs & Hh) _]. by exists g, hs. Qed.

Lemma acquire_listen_ok g0 k :
  triple (Paths g0 false true k) (acquire (HTcpListenSock k);; mret POTR_OK)
    (fun rc w _ => rc = POTR_OK /\ Listen g0 true k w).
Proof.
  intros [x t] [(g & hs & Hx & Hs & Hh) Hk]. cbn [w_ctx] in Hx. subst x.
  unfold acquire. rewrite bind_assoc, get_ctx_bind. cbn [w_ctx]. unfold holds.
  rewrite bool_decide_false.
  - eexists _, _, _. split; [done|]. split; [done|]. exists g, (HTcpListenSock k :: hs).
    split; [done|]. split; [done|]. intros h. unfold path_handles.
    rewrite !elem_of_cons, Hh, upto_S, list_elem_of_singleton. unfold path_handles. rewrite elem_of_cons. tauto.
  - rewrite Hh. unfold path_handles.
    intros [?|(j & Hj & [= <-]%list_elem_of_singleton)%elem_of_upto]%elem_of_cons; [done|lia].
Qed.

(** The result of opening one TCP path. *)
Definition listen_outcome g0 lst k (rc : Z) (w : world) : Prop :=
  if rc =? POTR_OK then Listen g0 lst k w else dirty w.

Lemma result_from_error_fails e : e <> CPLAT_CAUSE_NONE -> potr_internal_result_from_error e <> POTR_OK.
Proof. by destruct e. Qed.

Lemma listen_error_ok g0 lst k :
  triple (Paths g0 false lst k) (e ← tick error_cause; mret (potr_internal_result_from_error e))
    (fun rc w _ => listen_outcome g0 lst k rc w).
Proof.
  intros w Hw. rewrite tick_bind. eexists _, _, _. split; [done|]. unfold listen_outcome.
  rewrite (proj2 (Z.eqb_neq _ _) (result_from_error_fails _ (error_has_cause _))).
  apply (Paths_dirty g0 false lst k). exact Hw.
Qed.

Lemma listen_checked g0 lst k (m : M Z) (body : M Z) :
  triple (Paths g0 false lst k) m (fun _ w _ => Paths g0 false lst k w) ->
  triple (Paths g0 false lst k) body (fun rc w _ => listen_outcome g0 lst k rc w) ->
  triple (Paths g0 false lst k) (rc ← m; if negb (rc =? POTR_OK) then mret rc else body)
    (fun rc w _ => listen_outcome g0 lst k rc w).
Proof.
  intros Hm Hb. eapply triple_seq; [exact Hm|]. intros rc.
  destruct (Z.eqb_spec rc POTR_OK) as [He|Hn]; cbn [negb]; [done|].
  apply triple_ret. intros w Hw. unfold listen_outcome. rewrite (proj2 (Z.eqb_neq _ _) Hn).
  by eapply Paths_dirty.
Qed.

Lemma tcp_receiver_ok g0 k :
  (k < POTR_MAX_PATH)%nat ->
  triple (Paths g0 false true k) (open_socket_tcp_receiver k)
    (fun rc w _ => listen_outcome g0 true k rc w).
Proof.
  intros Hk. apply Paths_get_cfg. intros g _. cbv zeta.
  apply listen_checked; [by apply maybe_ok, Paths_resolve_dst|].
  apply listen_checked; [by apply maybe_ok, Paths_resolve_src|].
  apply Paths_get_cfg. intros g2 Hs. apply triple_lift; [apply lookup_lt_is_Some_2; destruct Hs; lia|].
  intros d _. cbv zeta.
  assert (triple (Local g0 false true k) (close_local k;; e ← tick error_cause;
      mret (potr_internal_result_from_error e)) (fun rc w _ => listen_outcome g0 true k rc w)) as Hfail.
  { eapply triple_then; [apply Local_release|apply listen_error_ok]. }
  eapply triple_seq; [apply opens_local|]. intros [|]; cbn [negb]; [|apply listen_error_ok].
  eapply triple_seq; [apply Local_quiet; intros; apply quiet_bind_socket|].
  intros [|]; cbn [negb]; [|exact Hfail].
  eapply triple_seq; [apply Local_quiet; intros; apply quiet_tick|].
  intros [|]; cbn [negb]; [|exact Hfail].
  eapply triple_then; [apply Local_release|].
  eapply triple_conseq; [apply acquire_listen_ok|done|]. by intros rc w es [-> ?].
Qed.

Lemma tcp_sender_ok g0 k :
  (k < POTR_MAX_PATH)%nat ->
  triple (Paths g0 false false k) (open_socket_tcp_sender k)
    (fun rc w _ => listen_outcome g0 false k rc w).
Proof.
  intros Hk. apply Paths_get_cfg. intros g _. cbv zeta. destruct (addr_is_empty _ _).
  { apply triple_ret. intros w Hw. by eapply Paths_dirty. }
  apply listen_checked; [by apply Paths_resolve_dst|].
  eapply triple_conseq; [apply maybe_ok, Paths_resolve_src; done|done|].
  intros rc w es Hw. unfold listen_outcome. destruct (rc =? POTR_OK); [by apply Paths_listen|].
  apply (Paths_dirty g0 false false k). exact Hw.
Qed.

Lemma open_tcp_ok g0 role :
  triple (Paths g0 false (role_eqb role POTR_ROLE_RECEIVER) 0) (api_open_paths_tcp role)
    (fun rc w _ => paths_outcome g0 false (role_eqb role POTR_ROLE_RECEIVER) rc w).
Proof.
  apply Paths_get_cfg. intros g _. destruct (_ =? 0); [by apply refused|].
  apply loop_ok. intros k Hk. apply Paths_get_cfg. intros g1 _.
  destruct (addr_is_empty _ _); [apply turn_last|].
  eapply triple_seq with (R := fun rc w => listen_outcome g0 (role_eqb role POTR_ROLE_RECEIVER) k rc w).
  { destruct role; [by apply tcp_sender_ok|by apply tcp_receiver_ok]. }
  intros rc. apply triple_checked; [intros _|by intros Hr; apply triple_ret].
  eapply triple_then; [by apply count_listen_ok|]. by apply triple_ret.
Qed.

(** ** All types *)

(** The configuration that the paths of type [service_type] start from. *)
Definition open_base (g : service_config) : service_config :=
  match raw_base_type (service_type (x_service g)) with
  | POTR_TYPE_BROADCAST => default_broadcast g
  | POTR_TYPE_UNICAST_BIDIR_N1 =>
      set_max_peers (set_multi_peer g true) (effective_max_peers (max_peers_def (x_service g)))
  | _ => g
  end.

Definition is_tcp (g : service_config) : bool := is_tcp_type (service_type (x_service g)).

(** Opening the paths ends with the paths of a service of that type, or with
    what can be cleaned up. *)
Lemma open_by_type_ok g role :
  x_is_multi_peer g = false ->
  triple (Paths g (negb (is_tcp g)) (is_tcp g && role_eqb role POTR_ROLE_RECEIVER) 0)
    (api_open_paths_by_type role)
    (fun rc w _ => ready_outcome (open_base g) (negb (is_tcp g))
       (is_tcp g && role_eqb role POTR_ROLE_RECEIVER) rc w).
Proof.
  intros Hm. apply Paths_get_cfg. intros g1 Hg. rewrite (sg_service _ _ _ Hg).
  assert (forall g2 udp lst m, x_is_multi_peer g2 = false ->
    triple (Paths g udp lst 0) m (fun rc w _ => paths_outcome g2 udp lst rc w) ->
    triple (Paths g udp lst 0) m (fun rc w _ => ready_outcome g2 udp lst rc w)) as Hc.
  { intros g2 udp lst m Hg2 Ht. eapply triple_conseq; [exact Ht|done|]. intros rc w es.
    unfold paths_outcome, ready_outcome. destruct (rc =? POTR_OK); [|done].
    intros (k & Hk & Hw). eapply Paths_ready; [done| |done]. lia. }
  assert (set_multi_peer g false = g) as Hb by (destruct g; cbn in *; by subst).
  pose proof (open_bidir_ok g role) as Hbi. rewrite Hb in Hbi.
  unfold is_tcp, open_base. destruct (service_type (x_service g)); cbn [raw_base_type is_tcp_type negb andb].
  all: first [ apply triple_ret; intros w Hw; by eapply Paths_dirty
             | apply open_n1_ok
             | apply Hc; [first [done | unfold default_broadcast; by destruct (_ =? _)%nat]|] ].
  all: first [ apply open_unicast_ok | apply open_multicast_ok | apply open_broadcast_ok
             | apply open_tcp_ok | exact Hbi ].
Qed.
End Paths.
