(* ===== verification/Opened.v ===== *)
(** Opening a service establishes the invariants on which the other theorems
    rely, and a failed attempt leaves nothing behind: the proofs about
    [Open.v]. *)

From stdpp Require Import base list numbers option.
From Stdlib Require Import ZArith Lia ZifyBool.
From S2P Require Import Prelude Types Packet Window SendQueue Context PathEvent Validate PeerTable.
From S2P Require Import Threads Frame Connect OpenPaths Open Resources OpenThreads OpenState.
Local Open Scope Z_scope.
Local Open Scope porter_scope.

(** ** Connections being set up *)

Section Setup.
Context `{CplatByteorder} `{Platform} `{Host}.

(** The windows and the reassembly buffer exist where the flags say so; the
    other parts are well formed from the start. *)
Record conn_parts (sw rw fb : bool) (g : service_config) (c : conn) : Prop := {
  cp_send : if sw then send_window_ok g (c_send_window c) else win_packets (c_send_window c) = None;
  cp_recv : if rw then recv_window_ok g (c_recv_window c) else win_packets (c_recv_window c) = None;
  cp_frag : if fb then frag_ok g (c_frag c) else c_frag c = FragState None 0 false;
  cp_health : health_ok (c_health c);
  cp_dedup : dedup_ok (c_dedup c);
  cp_reorder : 0 <= reorder_nack_num (c_reorder c) < 4294967296;
  cp_dest : length (c_dest_addr c) = POTR_MAX_PATH
}.

Lemma zero_conn_parts g : conn_parts false false false g zero_conn.
Proof. by split. Qed.

Lemma conn_parts_all g c : conn_parts true true true g c -> conn_ok g c.
Proof. intros []. by split. Qed.

(** The parts depend on the configuration only through sizes and type. *)
Lemma conn_parts_cfg sw rw fb g g' c :
  x_global g' = x_global g -> x_service g' = x_service g ->
  conn_parts sw rw fb g c -> conn_parts sw rw fb g' c.
Proof.
  intros Hg Hs []. split; try done.
  - destruct sw; [|done]. unfold send_window_ok, win_dims in *. by rewrite Hg, Hs.
  - destruct rw; [|done]. unfold recv_window_ok, win_dims in *. by rewrite Hg.
  - destruct fb; [|done]. destruct cp_frag0. split; by rewrite Hg.
Qed.

(** The service is being opened with configuration [g0], [k] paths and the
    handles [hs]. *)
Definition Stage (g0 : service_config) (udp : bool) (k : nat) (sw rw fb : bool) (hs : list handle)
    (w : world) : Prop :=
  exists g co l, w_ctx w = octx g co (path_socks udp k) (fst (fresh_table g)) (snd (fresh_table g)) l /\
    staged g0 g k /\ conn_parts sw rw fb g co /\ forall h, h ∈ l <-> h ∈ hs.

Lemma Stage_dirty g0 udp k sw rw fb hs w :
  (k <= POTR_MAX_PATH)%nat -> based hs -> Stage g0 udp k sw rw fb hs w -> dirty w.
Proof.
  intros Hk Hb. destruct w as [x t]. intros (g & co & l & Hx & _ & _ & Hl). cbn [w_ctx] in Hx. subst x.
  apply octx_dirty; [by apply path_socks_length|]. intros h Hh. apply Hb. by apply Hl.
Qed.

Lemma Ready_stage g0 udp lst w :
  Ready g0 udp lst w -> exists k, (1 <= k <= POTR_MAX_PATH)%nat /\
    Stage g0 udp k false false false (path_handles lst k) w.
Proof.
  intros (k & g & hs & Hk & Hx & Hs & Hh). exists k. split; [done|].
  exists g, zero_conn, hs. eauto using zero_conn_parts.
Qed.

Lemma Stage_get_cfg {B} g0 udp k sw rw fb hs (m : service_config -> M B) Q :
  (forall g, staged g0 g k -> triple (Stage g0 udp k sw rw fb hs) (m g) Q) ->
  triple (Stage g0 udp k sw rw fb hs) (get_cfg ≫= m) Q.
Proof.
  intros Hm w Hw. rewrite get_cfg_bind. apply Hm; [|done].
  destruct Hw as (g & co & l & -> & Hs & _). done.
Qed.

Lemma Stage_tick {A} g0 udp k sw rw fb hs (f : nat -> A) :
  triple (Stage g0 udp k sw rw fb hs) (tick f) (fun _ w _ => Stage g0 udp k sw rw fb hs w).
Proof. intros [x t] Hw. eexists _, _, _. split; [done|]. exact Hw. Qed.

Lemma Stage_modify_cfg g0 g1 udp k sw rw fb hs f :
  (forall g, staged g0 g k -> staged g1 (f g) k /\ x_global (f g) = x_global g /\
     x_service (f g) = x_service g /\ fresh_table (f g) = fresh_table g) ->
  triple (Stage g0 udp k sw rw fb hs) (modify_cfg f) (fun _ w _ => Stage g1 udp k sw rw fb hs w).
Proof.
  intros Hf [x t] (g & co & l & Hx & Hs & Hc & Hl). cbn [w_ctx] in Hx. subst x.
  destruct (Hf g Hs) as (Hs1 & Hg & Hv & Ht). eexists _, _, _. split; [done|].
  exists (f g), co, l. rewrite Ht. eauto using conn_parts_cfg.
Qed.

Lemma Stage_modify_conn g0 udp k sw rw fb sw' rw' fb' hs f :
  (forall g co, staged g0 g k -> conn_parts sw rw fb g co -> conn_parts sw' rw' fb' g (f co)) ->
  triple (Stage g0 udp k sw rw fb hs) (modify_conn SlotCtx f)
    (fun _ w _ => Stage g0 udp k sw' rw' fb' hs w).
Proof.
  intros Hf [x t] (g & co & l & Hx & Hs & Hc & Hl). cbn [w_ctx] in Hx. subst x.
  rewrite (modify_conn_run _ SlotCtx co) by done. eexists _, _, _. split; [done|].
  exists g, (f co), l. eauto.
Qed.

(** ** Destinations and session *)

Lemma set_dest_ok g0 udp k sw rw fb hs i d :
  (i < POTR_MAX_PATH)%nat ->
  triple (Stage g0 udp k sw rw fb hs) (set_dest i d) (fun _ w _ => Stage g0 udp k sw rw fb hs w).
Proof.
  intros Hi [x t] (g & co & l & Hx & Hs & Hc & Hl). cbn [w_ctx] in Hx. subst x. unfold set_dest.
  rewrite (get_conn_bind _ SlotCtx co) by done. unfold store.
  rewrite (proj2 (Nat.ltb_lt _ _)) by (destruct Hc; lia). rewrite ret_bind.
  rewrite (put_conn_at _ SlotCtx _ co) by done. eexists _, _, _. split; [done|].
  exists g, (set_dest_addr co (<[i:=d]> (c_dest_addr co))), l. split; [done|]. split; [done|]. split; [|done].
  destruct Hc. split; try done. cbn. by rewrite length_insert.
Qed.

Definition stage_outcome g0 udp k sw rw fb hs (rc : Z) (w : world) : Prop :=
  if rc =? POTR_OK then Stage g0 udp k sw rw fb hs w else dirty w.

Lemma set_all_dest_ok g0 udp k sw rw fb hs (f : nat -> option Z) port n :
  (n <= POTR_MAX_PATH)%nat -> (forall i, (i < n)%nat -> is_Some (f i)) ->
  triple (Stage g0 udp k sw rw fb hs)
    (for_range 0 n (fun i => a ← lift (f i); set_dest i (Endpoint a (cplat_hton16 port)));; mret POTR_OK)
    (fun rc w _ => stage_outcome g0 udp k sw rw fb hs rc w).
Proof.
  intros Hn Hf. eapply triple_then; [|by apply triple_ret].
  apply (triple_for_range (fun _ => Stage g0 udp k sw rw fb hs)). intros i Hi.
  apply triple_lift; [apply Hf; lia|]. intros a _. apply set_dest_ok. lia.
Qed.

Lemma setup_dest_ok g0 udp k hs role :
  (k <= POTR_MAX_PATH)%nat -> based hs ->
  triple (Stage g0 udp k false false false hs) (api_setup_dest_addr role)
    (fun rc w _ => stage_outcome g0 udp k false false false hs rc w).
Proof.
  intros Hk Hb. apply Stage_get_cfg. intros g Hs. cbv zeta. rewrite (sg_n _ _ _ Hs).
  assert (forall i, (i < k)%nat -> is_Some (x_dst_addr_resolved g !! i)) as Hd.
  { intros i Hi. apply lookup_lt_is_Some_2. destruct Hs. lia. }
  assert (forall i, (i < k)%nat -> is_Some (x_src_addr_resolved g !! i)) as Hc.
  { intros i Hi. apply lookup_lt_is_Some_2. destruct Hs. lia. }
  assert (triple (Stage g0 udp k false false false hs) (mret POTR_ERR_INVALID_ARGUMENT)
    (fun rc w _ => stage_outcome g0 udp k false false false hs rc w)) as Hbad.
  { apply triple_ret. intros w. by apply Stage_dirty. }
  destruct (_ && _); [by apply triple_ret|].
  destruct (raw_base_type _); try (by apply triple_ret); try (by apply set_all_dest_ok).
  - destruct (api_paths_parse_ipv4 _) as [rc ip]. destruct (negb _); [done|]. apply set_all_dest_ok; eauto.
  - destruct (api_paths_parse_ipv4 _) as [rc ip]. destruct (negb _); [done|]. apply set_all_dest_ok; eauto.
  - destruct role; by apply set_all_dest_ok.
  - destruct role; by apply set_all_dest_ok.
Qed.

Lemma generate_session_ok g0 udp k hs :
  triple (Stage g0 udp k false false false hs) generate_session
    (fun _ w _ => Stage g0 udp k false false false hs w).
Proof.
  eapply triple_seq; [apply Stage_tick|]. intros [sid|]; [|by apply triple_ret].
  eapply triple_seq; [apply Stage_tick|]. intros now.
  eapply triple_then; [apply (Stage_modify_conn _ _ _ _ _ _ false false false); by intros g co _ []|].
  intros [x t] (g & co & l & Hx & Hs & Hc & Hl). cbn [w_ctx] in Hx. subst x.
  eexists _, _, _. split; [done|]. by exists g, co, l.
Qed.

(** ** Buffers *)

(** The configuration that is reached once the sizes are stored. *)
Definition sized (g : service_config) : service_config :=
  set_crypto_size g (Z.to_nat (max_payload_cfg (x_global g)) + POTR_CRYPTO_TAG_SIZE)%nat.

(** What makes [g0] the base of a well-formed configuration. *)
Record base_ok (g0 : service_config) : Prop := {
  bo_valid : valid_global (x_global g0) = true;
  bo_reorder : 0 <= reorder_timeout_ms (x_global g0) < 4294967296;
  bo_peers : 0 <= x_max_peers g0 < 2147483648
}.

Lemma sized_ok g0 g k : base_ok g0 -> (k <= POTR_MAX_PATH)%nat -> staged g0 g k -> cfg_ok (sized g).
Proof.
  intros [Hv Hr Hp] Hk [Hg Hsv Hm Hmp _ _ _ _ Hn Hsl Hdl]. unfold valid_global in Hv. rewrite <- Hg in *.
  bool_hyps. unfold sized. split; cbn; try lia.
Qed.

Lemma init_send_window_stage g0 udp k hs :
  base_ok g0 -> (k <= POTR_MAX_PATH)%nat -> based hs ->
  triple (Stage g0 udp k false false false hs) init_send_window
    (fun rc w _ => stage_outcome g0 udp k true false false hs rc w).
Proof.
  intros Hg0 Hk Hb [x t] (g & co & l & Hx & Hs & Hc & Hl). cbn [w_ctx] in Hx. subst x.
  unfold init_send_window. rewrite (get_conn_bind _ SlotCtx co) by done.
  destruct (init_window_run (c_send_window co) 0 (World (octx g co (path_socks udp k)
    (fst (fresh_table g)) (snd (fresh_table g)) l) t)) as [al Hi].
  rewrite (bind_run_nil _ _ _ _ _ Hi). cbn [w_ctx octx x_cfg].
  destruct (window_init al _ 0 _ _) as [rc w] eqn:Hw.
  rewrite (put_conn_bind _ SlotCtx _ co) by done.
  destruct (init_send_window_ok (sized g) al (c_send_window co) 0 rc w) as [[-> Hok]| ->];
    [by eapply sized_ok|lia|by destruct Hc|exact Hw|..]; cbn [negb Z.eqb POTR_OK POTR_ERR_OUT_OF_MEMORY].
  - rewrite (modify_conn_bind _ SlotCtx (set_send_window co w)) by done.
    eexists _, _, _. split; [done|]. eexists g, _, l. split; [done|]. split; [done|]. split; [|done].
    destruct Hc. by split.
  - eexists _, _, _. split; [done|]. apply octx_dirty; [by apply path_socks_length|].
    intros h Hh. apply Hb. by apply Hl.
Qed.

Lemma init_recv_window_stage g0 udp k hs :
  base_ok g0 -> (k <= POTR_MAX_PATH)%nat -> based hs ->
  triple (Stage g0 udp k true false false hs) init_recv_window
    (fun rc w _ => stage_outcome g0 udp k true true false hs rc w).
Proof.
  intros Hg0 Hk Hb [x t] (g & co & l & Hx & Hs & Hc & Hl). cbn [w_ctx] in Hx. subst x.
  unfold init_recv_window. rewrite (get_conn_bind _ SlotCtx co) by done.
  destruct (init_window_run (c_recv_window co) 0 (World (octx g co (path_socks udp k)
    (fst (fresh_table g)) (snd (fresh_table g)) l) t)) as [al Hi].
  rewrite (bind_run_nil _ _ _ _ _ Hi). cbn [w_ctx octx x_cfg].
  destruct (window_init al _ 0 _ _) as [rc w] eqn:Hw.
  rewrite (put_conn_bind _ SlotCtx _ co) by done. eexists _, _, _. split; [done|].
  destruct (init_recv_window_ok (sized g) al (c_recv_window co) 0 rc w) as [(-> & Hok & _)|(-> & _)];
    [by eapply sized_ok|lia|left; by destruct Hc|exact Hw|..].
  - eexists g, _, l. split; [done|]. split; [done|]. split; [|done].
    destruct Hc. by split.
  - apply octx_dirty; [by apply path_socks_length|]. intros h Hh. apply Hb. by apply Hl.
Qed.

Lemma alloc_frag_stage g0 udp k hs :
  base_ok g0 ->
  triple (Stage g0 udp k true true false hs) alloc_frag
    (fun (ok : bool) w _ => Stage g0 udp k true true ok hs w).
Proof.
  intros [Hv _ _]. apply Stage_get_cfg. intros g Hs. eapply triple_seq; [apply Stage_tick|].
  intros [|]; unfold when; (eapply triple_then; [|by apply triple_ret]); [|apply triple_done].
  apply Stage_modify_conn. intros g' co Hs' []. split; try done. cbn in cp_frag0. rewrite cp_frag0.
  assert (x_global g = x_global g') as -> by (destruct Hs, Hs'; congruence). split.
  - eexists. split; [done|]. by rewrite length_replicate.
  - cbn. lia.
Qed.

Lemma staged_cfg_ok g0 g k :
  base_ok g0 -> (k <= POTR_MAX_PATH)%nat -> staged (sized g0) g k -> cfg_ok g.
Proof.
  intros Hb Hk Hs. assert (sized g = g) as <-; [|by eapply (sized_ok (sized g0)); [destruct Hb|..]].
  destruct Hs. destruct g. unfold sized, set_crypto_size in *. cbn in *. by subst.
Qed.

Lemma Stage_alloc_buf g0 udp k sw rw fb hs h :
  h ∉ hs ->
  triple (Stage g0 udp k sw rw fb hs) (alloc_buf h)
    (fun (ok : bool) w _ => Stage g0 udp k sw rw fb (if ok then h :: hs else hs) w).
Proof.
  intros Hh. eapply triple_seq; [apply Stage_tick|]. intros [|]; [|by apply triple_ret].
  intros [x t] (g & co & l & Hx & Hs & Hc & Hl). cbn [w_ctx] in Hx. subst x.
  unfold acquire. rewrite bind_assoc, get_ctx_bind. cbn [w_ctx]. unfold holds.
  rewrite bool_decide_false by by rewrite Hl. eexists _, _, _. split; [done|].
  exists g, co, (h :: l). split; [done|]. split; [done|]. split; [done|].
  intros h'. rewrite !elem_of_cons, Hl. done.
Qed.

(** One allocation of [alloc_context_buffers]. *)
Lemma or_no_memory_ok (P P' : world -> Prop) (alloc : M bool) (k : M Z) (Q : Z -> world -> Prop) :
  triple P alloc (fun (ok : bool) w _ => if ok then P' w else dirty w) ->
  (forall w, dirty w -> Q POTR_ERR_OUT_OF_MEMORY w) -> triple P' k (fun rc w _ => Q rc w) ->
  triple P (or_no_memory alloc k) (fun rc w _ => Q rc w).
Proof.
  intros Ha Hq Hk. eapply triple_seq; [exact Ha|]. intros [|]; cbn [negb]; [done|]. by apply triple_ret.
Qed.

Lemma alloc_or_dirty g0 udp k sw rw fb hs h :
  (k <= POTR_MAX_PATH)%nat -> based hs -> h ∉ hs ->
  triple (Stage g0 udp k sw rw fb hs) (alloc_buf h)
    (fun (ok : bool) w _ => if ok then Stage g0 udp k sw rw fb (h :: hs) w else dirty w).
Proof.
  intros Hk Hb Hh. eapply triple_conseq; [by apply Stage_alloc_buf|done|]. intros [|] w es; [done|].
  by apply Stage_dirty.
Qed.

Definition common_bufs : list handle :=
  [HRecvCryptoBuf; HRecvCompressBuf; HCryptoBuf; HSendWireBuf; HRecvBuf; HCompressBuf].

Lemma based_cons h hs : base_handle h = true -> based hs -> based (h :: hs).
Proof. intros Hh Hb h' [->|?]%elem_of_cons; auto. Qed.

Lemma and_then_ok (P : world -> Prop) (R : world -> Prop) (m k : M Z) (Q : Z -> world -> Prop) :
  triple P m (fun rc w _ => if rc =? POTR_OK then R w else dirty w) ->
  (forall rc w, rc <> POTR_OK -> dirty w -> Q rc w) -> triple R k (fun rc w _ => Q rc w) ->
  triple P (and_then m k) (fun rc w _ => Q rc w).
Proof.
  intros Hm Hq Hk. eapply triple_seq; [exact Hm|]. intros rc. apply triple_checked; [by intros _|].
  intros Hr. apply triple_ret. intros w Hw. by apply Hq.
Qed.

(** The receive buffers of the TCP paths. *)
Lemma tcp_bufs_ok g0 udp k hs n :
  (k <= POTR_MAX_PATH)%nat -> (n <= POTR_MAX_PATH)%nat -> based hs -> (forall j, HTcpRecvBuf j ∉ hs) ->
  triple (Stage g0 udp k true true true hs) (for_while 0 n (fun i => alloc_buf (HTcpRecvBuf i)))
    (fun (ok : bool) w _ =>
       if ok then Stage g0 udp k true true true (upto (fun i => [HTcpRecvBuf i]) n ++ hs) w else dirty w).
Proof.
  intros Hk Hn Hb Hh. eapply triple_conseq; [apply (triple_for_while
    (fun i => Stage g0 udp k true true true (upto (fun i => [HTcpRecvBuf i]) i ++ hs)) dirty _ n 0%nat)|done|done].
  intros i Hi. eapply triple_conseq;
    [apply (alloc_or_dirty g0 udp k true true true (upto (fun i => [HTcpRecvBuf i]) i ++ hs)); [done|..]|done|].
  - intros h [(j & Hj & ->%list_elem_of_singleton)%elem_of_upto|?]%elem_of_app; [|by apply Hb].
    apply Nat.ltb_lt. lia.
  - intros [(j & Hj & [= <-]%list_elem_of_singleton)%elem_of_upto|?]%elem_of_app; [lia|by eapply Hh].
  - intros [|] w es; [|done]. intros (g & co & l & Hx & Hs & Hc & Hl). exists g, co, l.
    split; [done|]. split; [done|]. split; [done|]. intros h.
    rewrite Hl, elem_of_cons, !elem_of_app, upto_S, list_elem_of_singleton. tauto.
Qed.

(** The handles of a service before its threads start. *)
Definition open_bufs (g0 : service_config) (lst : bool) (k : nat) : list handle :=
  (if is_tcp g0 then upto (fun i => [HTcpRecvBuf i]) k else []) ++ common_bufs ++ path_handles lst k.

Lemma not_path_handle lst k h :
  h <> HCallbackMutex -> (forall j, h <> HTcpListenSock j) -> h ∉ path_handles lst k.
Proof.
  intros Hc Hl [?|Hh]%elem_of_cons; [done|]. destruct lst; [|by apply elem_of_nil in Hh].
  apply elem_of_upto in Hh as (j & _ & ->%list_elem_of_singleton). by eapply Hl.
Qed.

Lemma common_bufs_fresh lst k h : h ∈ common_bufs -> h ∉ path_handles lst k.
Proof.
  intros Hh. unfold common_bufs in Hh. rewrite !elem_of_cons, elem_of_nil in Hh.
  apply not_path_handle; [|intros j]; intuition congruence.
Qed.

(** The two buffers that are allocated before either is checked, and the
    buffers of the paths. *)
Lemma alloc_last_ok g0 udp k hs :
  (k <= POTR_MAX_PATH)%nat -> based hs -> HRecvCryptoBuf ∉ hs -> HRecvCompressBuf ∉ hs ->
  (forall j, HTcpRecvBuf j ∉ hs) ->
  triple (Stage g0 udp k true true true hs)
    (a ← alloc_buf HRecvCompressBuf;
     b ← alloc_buf HRecvCryptoBuf;
     if negb a || negb b then mret POTR_ERR_OUT_OF_MEMORY
     else if is_tcp g0 then
       or_no_memory (for_while 0 k (fun i => alloc_buf (HTcpRecvBuf i))) (mret POTR_OK)
     else mret POTR_OK)
    (fun rc w _ => stage_outcome g0 udp k true true true
       ((if is_tcp g0 then upto (fun i => [HTcpRecvBuf i]) k else [])
        ++ HRecvCryptoBuf :: HRecvCompressBuf :: hs) rc w).
Proof.
  intros Hk Hb Hc Hd Ht.
  eapply triple_seq; [by apply Stage_alloc_buf|]. intros a.
  eapply triple_seq; [apply Stage_alloc_buf; destruct a; handles|]. intros b.
  assert (based (HRecvCryptoBuf :: HRecvCompressBuf :: hs)) as Hb2 by by apply based_cons, based_cons.
  destruct (negb a || negb b) eqn:He.
  - apply triple_ret. intros w Hw. apply Stage_dirty in Hw; [done..|].
    intros h Hh. apply Hb2. rewrite !elem_of_cons. destruct a, b; rewrite ?elem_of_cons in Hh; tauto.
  - destruct a, b; try done. destruct (is_tcp g0); [|by apply triple_ret].
    eapply or_no_memory_ok; [apply tcp_bufs_ok; [done..|]| |].
    + intros j. rewrite !elem_of_cons. intros [?|[?|?]]; [done..|]. by eapply Ht.
    + intros w Hw. exact Hw.
    + apply triple_ret. intros w Hw. exact Hw.
Qed.

Lemma alloc_context_buffers_ok g0 udp k lst :
  base_ok g0 -> (k <= POTR_MAX_PATH)%nat ->
  triple (Stage g0 udp k false false false (path_handles lst k)) alloc_context_buffers
    (fun rc w _ => stage_outcome (sized g0) udp k true true true (open_bufs g0 lst k) rc w).
Proof.
  intros Hg0 Hk. pose proof (path_handles_based lst k Hk) as Hb.
  pose proof (common_bufs_fresh lst k) as Hn'. unfold common_bufs in Hn'.
  assert (forall j, HTcpRecvBuf j ∉ path_handles lst k) as Ht by (intros j; by apply not_path_handle).
  apply Stage_get_cfg. intros g Hs. cbv zeta. rewrite (sg_global _ _ _ Hs), (sg_n _ _ _ Hs), (sg_service _ _ _ Hs).
  assert (forall rc w, rc <> POTR_OK -> dirty w ->
    stage_outcome (sized g0) udp k true true true (open_bufs g0 lst k) rc w) as Hf.
  { intros rc w Hr Hw. unfold stage_outcome. by rewrite (proj2 (Z.eqb_neq _ _) Hr). }
  assert (forall w, dirty w -> stage_outcome (sized g0) udp k true true true (open_bufs g0 lst k)
    POTR_ERR_OUT_OF_MEMORY w) as Hom by by intros w; apply Hf.
  eapply and_then_ok; [by apply init_send_window_stage|done|].
  eapply and_then_ok; [by apply init_recv_window_stage|done|].
  eapply or_no_memory_ok with (P' := Stage g0 udp k true true true (path_handles lst k));
    [|done|].
  { eapply triple_conseq; [by apply alloc_frag_stage|done|]. intros [|] w es; [done|]. by apply Stage_dirty. }
  eapply triple_then; [apply (Stage_modify_cfg _ g0)|].
  { intros g1 []. split; [by split|done]. }
  eapply or_no_memory_ok; [apply alloc_or_dirty; [done..|]|done|]. { apply Hn'. handles. }
  eapply or_no_memory_ok; [apply alloc_or_dirty; [done|by apply based_cons|]|done|].
  { rewrite elem_of_cons. intros [?|Hx]; [done|]. revert Hx. apply Hn'. handles. }
  eapply or_no_memory_ok; [apply alloc_or_dirty; [done|by do 2 (apply based_cons; [done|])|]|done|].
  { rewrite !elem_of_cons. intros [?|[?|Hx]]; [done..|]. revert Hx. apply Hn'. handles. }
  eapply triple_then; [apply (Stage_modify_cfg _ (sized g0))|].
  { intros g1 []. split; [by split|done]. }
  eapply or_no_memory_ok; [apply alloc_or_dirty; [done|by do 3 (apply based_cons; [done|])|]|done|].
  { rewrite !elem_of_cons. intros [?|[?|[?|Hx]]]; [done..|]. revert Hx. apply Hn'. handles. }
  apply (alloc_last_ok (sized g0) udp k); [done|by do 4 (apply based_cons; [done|])|..].
  - rewrite !elem_of_cons. intros [?|[?|[?|[?|Hx]]]]; [done..|]. revert Hx. apply Hn'. handles.
  - rewrite !elem_of_cons. intros [?|[?|[?|[?|Hx]]]]; [done..|]. revert Hx. apply Hn'. handles.
  - intros j. rewrite !elem_of_cons. intros [?|[?|[?|[?|Hx]]]]; [done..|]. by eapply Ht.
Qed.

(** ** Cleaning up *)

(** Nothing is held any more. *)
Record released (x : potr_context) : Prop := {
  rl_handles : rt_handles (x_rt x) = [];
  rl_sock : x_sock x = replicate POTR_MAX_PATH false;
  rl_fd : x_tcp_conn_fd x = replicate POTR_MAX_PATH false;
  rl_peers : x_peers x = None;
  rl_send : win_packets (c_send_window (x_conn x)) = None;
  rl_recv : win_packets (c_recv_window (x_conn x)) = None;
  rl_frag : frag_buf (c_frag (x_conn x)) = None;
  rl_key : Forall (fun b => b = 0) (encrypt_key (x_service (x_cfg x)))
}.

(** Sockets and connections of the first [i] paths are closed. *)
Definition closed_upto (i : nat) (x : potr_context) : Prop :=
  forall k, (k < i)%nat -> x_sock x !! k = Some false /\ x_tcp_conn_fd x !! k = Some false.

Lemma triple_frame {A T} (f : potr_context -> T) (m : M A) P (Q : A -> world -> Prop) :
  triple P m (fun a w _ => Q a w) -> (forall v, frame f v m) ->
  forall C : T -> Prop, triple (fun w => P w /\ C (f (w_ctx w))) m
    (fun a w _ => Q a w /\ C (f (w_ctx w))).
Proof.
  intros Hm Hf C w [Hw Hc]. destruct (Hm w Hw) as (a & w' & es & Hr & HQ).
  exists a, w', es. split; [done|]. split; [done|]. by rewrite (Hf _ w a w' es eq_refl Hr).
Qed.

Definition path_view (x : potr_context) : list bool * list bool := (x_sock x, x_tcp_conn_fd x).
Definition closed (i : nat) (v : list bool * list bool) : Prop :=
  forall k, (k < i)%nat -> v.1 !! k = Some false /\ v.2 !! k = Some false.

Lemma frame_dispose_view h v : frame path_view v (dispose h).
Proof. frames. Qed.

Lemma R_dispose_closed g l s ks h i :
  triple (fun w => R g (without l ks) s w /\ closed i (path_view (w_ctx w))) (dispose h)
    (fun _ w _ => R g (without l (h :: ks)) s w /\ closed i (path_view (w_ctx w))).
Proof. apply (triple_frame path_view); [apply R_dispose|intros v; apply frame_dispose_view]. Qed.

Lemma clear_fd_run x t i b :
  x_tcp_conn_fd x !! i = Some b ->
  when b (set_tcp_conn_fd i false) (World x t)
  = Some (tt, World (set_x_tcp_conn_fd x (<[i:=false]> (x_tcp_conn_fd x))) t, []).
Proof.
  intros Hb. destruct b; unfold when.
  - unfold set_tcp_conn_fd, store. rewrite get_ctx_bind. cbn [w_ctx].
    by rewrite (proj2 (Nat.ltb_lt _ _)) by by eapply lookup_lt_Some.
  - rewrite list_insert_id by done. by destruct x.
Qed.

Lemma clear_sock_run x t i b :
  x_sock x !! i = Some b ->
  when b (set_sock i false) (World x t)
  = Some (tt, World (set_x_sock x (<[i:=false]> (x_sock x))) t, []).
Proof.
  intros Hb. destruct b; unfold when.
  - unfold set_sock, store. rewrite get_ctx_bind. cbn [w_ctx].
    by rewrite (proj2 (Nat.ltb_lt _ _)) by by eapply lookup_lt_Some.
  - rewrite list_insert_id by done. by destruct x.
Qed.

Lemma closed_insert i (a b : list bool) :
  (i < length a)%nat -> (i < length b)%nat ->
  closed i (a, b) -> closed (S i) (<[i:=false]> a, <[i:=false]> b).
Proof.
  intros Ha Hb Hc k Hk. cbn. destruct (decide (k = i)) as [->|].
  - by rewrite !list_lookup_insert_eq.
  - rewrite !list_lookup_insert_ne by done. apply Hc. lia.
Qed.

(** Closing the connection and the socket of path [i]. *)
Lemma close_path_ok g l s i :
  (i < POTR_MAX_PATH)%nat ->
  triple (fun w => R g l s w /\ closed i (path_view (w_ctx w)))
    (x ← get_ctx;
     fd ← lift (x_tcp_conn_fd x !! i);
     when fd (set_tcp_conn_fd i false);;
     v ← sock_valid i;
     when v (set_sock i false))
    (fun _ w _ => R g l s w /\ closed (S i) (path_view (w_ctx w))).
Proof.
  intros Hi [x t] [Hw Hc]. pose proof (ow_fd _ _ _ _ Hw) as Hlf. pose proof (ow_sock _ _ _ _ Hw) as Hls.
  cbn [w_ctx] in *. destruct (lookup_lt_is_Some_2 (x_tcp_conn_fd x) i) as [b Hb]; [lia|].
  destruct (lookup_lt_is_Some_2 (x_sock x) i) as [v Hv]; [lia|].
  rewrite get_ctx_bind, (lift_bind _ b) by done. rewrite (bind_run_nil _ _ _ _ _ (clear_fd_run x t i b Hb)).
  rewrite (bind_run_nil _ _ _ v (World (set_x_tcp_conn_fd x (<[i:=false]> (x_tcp_conn_fd x))) t)).
  2: { unfold sock_valid. rewrite get_ctx_bind. unfold lift. cbn. by rewrite Hv. }
  rewrite (clear_sock_run _ t i v) by done. eexists _, _, _. split; [done|]. split.
  - destruct Hw. split; try done; cbn; by rewrite length_insert.
  - apply (closed_insert i (x_sock x) (x_tcp_conn_fd x)); [lia..|done].
Qed.

Lemma dispose_path_ok g l s ks i :
  (i < POTR_MAX_PATH)%nat ->
  triple (fun w => R g (without l ks) s w /\ closed i (path_view (w_ctx w))) (dispose_path i)
    (fun _ w _ => R g (without l (HTcpListenSock i :: HTcpRecvBuf i :: ks)) s w /\
       closed (S i) (path_view (w_ctx w))).
Proof.
  intros Hi. eapply triple_then; [apply R_dispose_closed|]. eapply triple_then; [apply R_dispose_closed|].
  by apply close_path_ok.
Qed.

(** The part of [api_context_dispose_resources] behind windows and peers. *)
Definition dispose_rest : M unit :=
  dispose HCompressBuf;; dispose HCryptoBuf;; dispose HRecvBuf;;
  dispose HRecvCompressBuf;; dispose HRecvCryptoBuf;;
  for_range 0 POTR_MAX_PATH dispose_path;;
  dispose HSendWireBuf;;
  x ← get_ctx;
  put_ctx (set_x_cfg x (clear_key (x_cfg x)));;
  dispose HCallbackMutex.

Definition base_list : list handle :=
  common_bufs ++ HCallbackMutex :: upto (fun i => [HTcpRecvBuf i; HTcpListenSock i]) POTR_MAX_PATH.

Lemma based_base_list l h : based l -> h ∈ l -> h ∈ base_list.
Proof.
  intros Hb Hh%Hb. unfold POTR_MAX_PATH in Hh.
  destruct h; try done; try (apply (bool_decide_eq_true_1 _); done).
  all: do 4 (destruct k as [|k]; [by apply (bool_decide_eq_true_1 _)|]); done.
Qed.

Lemma dispose_rest_ok g l s :
  triple (R g l s) dispose_rest (fun _ w _ =>
    R (clear_key g) (without l base_list) s w /\ closed POTR_MAX_PATH (path_view (w_ctx w))).
Proof.
  apply (triple_from (fun w => R g (without l []) s w /\ closed 0 (path_view (w_ctx w)))).
  { intros w Hw. split; [by apply R_without_nil|]. intros k Hk. lia. }
  unfold dispose_rest. do 5 (eapply triple_then; [apply R_dispose_closed|]). eapply triple_then.
  { cbn [for_range POTR_MAX_PATH].
    do 4 (eapply triple_then; [apply dispose_path_ok; unfold POTR_MAX_PATH; lia|]). apply triple_done. }
  eapply triple_then; [apply R_dispose_closed|].
  intros [x t] [Hw Hc]. rewrite get_ctx_bind, put_ctx_bind. cbn [w_ctx w_tick].
  match type of Hw with R _ (without _ ?ks) _ _ =>
    destruct (R_dispose_closed (clear_key g) l s ks HCallbackMutex 4
      (World (set_x_cfg x (clear_key (x_cfg x))) t)) as (a & w' & es & Hr & Hw' & Hc') end.
  { split; [|exact Hc]. destruct Hw as [<- ? ? ? ? ? ?]. by split. }
  eexists a, w', es. split; [exact Hr|]. split; [|exact Hc']. revert Hw'. by apply R_without_same; vm_compute.
Qed.

Definition conn_view (x : potr_context) : conn * option (list potr_internal_peer_context) :=
  (x_conn x, x_peers x).

Lemma frame_dispose_rest v : frame conn_view v dispose_rest.
Proof. frames. Qed.

Lemma all_false (l : list bool) :
  length l = POTR_MAX_PATH -> (forall k, (k < POTR_MAX_PATH)%nat -> l !! k = Some false) ->
  l = replicate POTR_MAX_PATH false.
Proof.
  intros Hl Hf. apply list_eq. intros k. destruct (decide (k < POTR_MAX_PATH)%nat) as [Hk|Hk].
  - rewrite Hf by done. symmetry. by apply lookup_replicate_2.
  - rewrite lookup_ge_None_2 by lia. symmetry. apply lookup_ge_None_2. rewrite length_replicate. lia.
Qed.

Lemma handles_nil l ks : (forall h, h ∈ l <-> h ∈ without ks base_list) -> based ks -> l = [].
Proof.
  intros Hl Hb. destruct l as [|h l]; [done|]. exfalso.
  assert (h ∈ h :: l) as [Hk Hn]%Hl%elem_of_without by by left. by apply Hn, (based_base_list ks).
Qed.

Lemma clear_key_zero g : Forall (fun b => b = 0) (encrypt_key (x_service (clear_key g))).
Proof. cbn. induction (encrypt_key (x_service g)); by constructor. Qed.

(** From any context without threads whose handles are of the base kind,
    everything is released. *)
Lemma dispose_resources_ok :
  triple dirty api_context_dispose_resources (fun _ w _ => released (w_ctx w)).
Proof.
  intros [x t] (g & l & s & Hw & Hb). unfold api_context_dispose_resources.
  rewrite (modify_conn_bind _ SlotCtx (x_conn x)) by done. cbn [with_conn].
  assert (exists x2, potr_internal_peer_table_dispose (World (set_x_conn x (dispose_conn (x_conn x))) t)
    = Some (tt, World x2 t, []) /\ conn_view x2 = (dispose_conn (x_conn x), None) /\ owns g l s x2)
    as (x2 & Ht & Hc & Ho).
  { unfold potr_internal_peer_table_dispose. rewrite get_ctx_bind. cbn [w_ctx x_peers set_x_conn].
    destruct (x_peers x) eqn:Hps; eexists; (split; [done|]); (split; [unfold conn_view; cbn; by rewrite ?Hps|]);
      destruct Hw; by split. }
  rewrite (bind_run_nil _ _ _ _ _ Ht).
  destruct (dispose_rest_ok g l s (World x2 t) Ho) as (a & [x3 t3] & es & Hr & Hw3 & Hcl).
  pose proof (frame_dispose_rest _ (World x2 t) _ _ _ Hc Hr) as Hv. injection Hv as Hco Hps.
  exists a, (World x3 t3), es. split; [exact Hr|]. destruct Hw3 as [Hg _ _ Hs Hf _ Hl]. cbn [w_ctx] in *.
  split; rewrite ?Hco; try done.
  - by eapply handles_nil.
  - apply all_false; [done|]. intros k Hk. by apply Hcl.
  - apply all_false; [done|]. intros k Hk. by apply Hcl.
  - rewrite Hg. apply clear_key_zero.
Qed.

(** ** The end of a failed attempt *)

Definition failed (rc : Z) (res : Z * bool) (w : world) : Prop :=
  res.1 = rc /\
  (res.2 = false /\ released (w_ctx w) \/
   res.2 = true /\ join_failed /\ api_context_has_threads (w_ctx w) = true).

Lemma based_no_threads l : based l -> existsb is_thread l = false.
Proof.
  intros Hb. apply not_true_iff_false. intros (h & Hh%list_elem_of_In%Hb & Ht)%existsb_exists.
  by destruct h.
Qed.

Lemma open_failed_dirty rc :
  triple dirty (open_failed rc) (fun res w _ => res = (rc, false) /\ released (w_ctx w)).
Proof.
  intros w Hd. pose proof Hd as (g & l & s & Hw & Hb). unfold open_failed, ctx_cleanup.
  rewrite bind_assoc, get_ctx_bind, (has_threads_owned _ _ _ _ Hw), (based_no_threads l Hb).
  destruct (dispose_resources_ok w Hd) as ([] & w' & es & Hr & Hrel).
  rewrite bind_assoc, (bind_run _ _ _ _ _ _ Hr). by eexists _, _, _.
Qed.

Lemma open_failed_ok rc :
  triple (fun w => dirty w \/ exists g, stuck g w) (open_failed rc) (fun res w _ => failed rc res w).
Proof.
  apply triple_or.
  - eapply triple_conseq; [apply open_failed_dirty|done|]. intros res w es [-> Hw]. split; [done|]. by left.
  - apply triple_ex. intros g w (l & s & Hw & Hj & h & Hh & Ht). unfold open_failed, ctx_cleanup.
    assert (api_context_has_threads (w_ctx w) = true) as Hht.
    { rewrite (has_threads_owned _ _ _ _ Hw). apply existsb_exists. exists h.
      split; [by apply list_elem_of_In|done]. }
    rewrite bind_assoc, get_ctx_bind, Hht. eexists _, _, _. split; [done|]. split; [done|]. by right.
Qed.
End Setup.

(** ** The whole function *)

Section Frames.
Context `{CplatByteorder} `{Platform} `{Host}.

Lemma frame_for_while {T} (f : potr_context -> T) v body n : forall a,
  (forall k, frame f v (body k)) -> frame f v (for_while a n body).
Proof.
  induction n as [|n IH]; intros a Hb; [apply frame_ret|]. cbn [for_while].
  apply frame_bind; [apply Hb|]. intros [|]; [by apply IH|apply frame_ret].
Qed.

(** What starting threads leaves alone. *)
Definition settled (x : potr_context) :=
  (x_cfg x, x_conn x, x_sock x, x_peer_port x, x_peers x, x_n_peers x, x_next_peer_id x,
   x_tcp_last_ping_recv_ms x).

Lemma frame_settled_locks v hs : frame settled v (create_locks hs).
Proof. induction hs as [|h hs IH]; frames. Qed.

#[local] Hint Resolve frame_settled_locks : frames.
#[local] Hint Extern 1 (frame _ _ (for_while _ _ _)) => (apply frame_for_while; intros ?; frames) : frames.

Lemma frame_settled_tcp v role : frame settled v (start_threads_tcp role).
Proof. frames. Qed.

Lemma frame_settled_udp v role : frame settled v (start_threads_udp role).
Proof. frames. Qed.
End Frames.

Section Outcome.
Context `{CplatByteorder} `{Platform} `{Host}.

(** Exactly the handles of a service of configuration [g]. *)
Definition service_handles (g : service_config) : list handle :=
  (if is_tcp g then tcp_handles g (x_role g) else udp_handles g (x_role g))
  ++ open_bufs g (is_tcp g && role_eqb (x_role g) POTR_ROLE_RECEIVER) (x_n_path g).

(** A context that is ready for the threads, the callers and [close]. *)
Record opened (c : potr_global_config) (t : potr_type) (role : potr_role) (callback : bool)
    (x : potr_context) : Prop := {
  od_ok : ctx_ok x;
  od_global : x_global (x_cfg x) = c;
  od_type : service_type (x_service (x_cfg x)) = t;
  od_role : x_role (x_cfg x) = role;
  od_callback : x_callback (x_cfg x) = callback;
  od_paths : (1 <= x_n_path (x_cfg x) <= POTR_MAX_PATH)%nat;
  od_socks : forall k, (k < POTR_MAX_PATH)%nat ->
    x_sock x !! k = Some (negb (is_tcp_type t) && (k <? x_n_path (x_cfg x))%nat);
  od_peers : is_Some (x_peers x) <-> t = POTR_TYPE_UNICAST_BIDIR_N1;
  od_handles : forall h, h ∈ rt_handles (x_rt x) <-> h ∈ service_handles (x_cfg x);
  od_send : send_thread_running (x_rt x) = negb (is_tcp_type t) && udp_sends (x_cfg x) role
}.

Lemma path_socks_lookup udp n k :
  (n <= POTR_MAX_PATH)%nat -> (k < POTR_MAX_PATH)%nat -> path_socks udp n !! k = Some (udp && (k <? n)%nat).
Proof.
  intros Hn Hk. unfold path_socks. destruct (Nat.ltb_spec k n) as [Hlt|Hge].
  - rewrite lookup_app_l by (rewrite length_replicate; lia). rewrite andb_true_r. by apply lookup_replicate_2.
  - rewrite lookup_app_r, length_replicate by (rewrite length_replicate; lia). rewrite andb_false_r.
    apply lookup_replicate_2. lia.
Qed.

(** The state before the threads start is the one they are started in. *)
Lemma stage_owns g0 udp k sw rw fb hs w :
  (k <= POTR_MAX_PATH)%nat -> Stage g0 udp k sw rw fb hs w ->
  exists g, staged g0 g k /\ R g hs false w.
Proof.
  intros Hk (g & co & l & Hx & Hs & _ & Hl). exists g. split; [done|]. unfold R. rewrite Hx.
  split; try done; by apply path_socks_length || split.
Qed.

(** The invariant of a context whose threads have just been started. *)
Lemma started_ok g0 k w w' l l' s :
  base_ok g0 -> (k <= POTR_MAX_PATH)%nat ->
  Stage (sized g0) (negb (is_tcp g0)) k true true true l w -> settled (w_ctx w') = settled (w_ctx w) ->
  owns (x_cfg (w_ctx w)) l' s (w_ctx w') -> ctx_ok (w_ctx w').
Proof.
  intros Hb Hk (g & co & hs & Hx & Hs & Hc & Hl) Hv Ho. rewrite Hx in *. cbn [octx x_cfg] in *.
  pose proof (staged_cfg_ok g0 g k Hb Hk Hs) as Hg. unfold settled in Hv. cbn in Hv.
  injection Hv as Hcfg Hconn Hsock Hport Hpeers Hnp Hid Hping.
  assert (runtime_ok (x_rt (w_ctx w')) /\ length (x_health_running (w_ctx w')) = POTR_MAX_PATH /\
    length (x_tcp_conn_fd (w_ctx w')) = POTR_MAX_PATH) as (Hrt & Hh & Hfd).
  { by destruct Ho. }
  split; rewrite ?Hcfg, ?Hconn, ?Hsock, ?Hport, ?Hping, ?Hid; try done.
  - by apply conn_parts_all.
  - by apply path_socks_length.
  - rewrite Hpeers, Hnp. unfold fresh_table. destruct (x_is_multi_peer g); [|done].
    apply fresh_peers_ok. destruct Hg. lia.
  - unfold fresh_table. destruct (x_is_multi_peer g); cbn; lia.
Qed.

Lemma open_bufs_based g0 lst k : (k <= POTR_MAX_PATH)%nat -> based (open_bufs g0 lst k).
Proof.
  intros Hk h. unfold open_bufs. rewrite !elem_of_app. intros [Hh|[Hh|Hh]].
  - destruct (is_tcp g0); [|by apply elem_of_nil in Hh].
    apply elem_of_upto in Hh as (j & Hj & ->%list_elem_of_singleton). apply Nat.ltb_lt. lia.
  - unfold common_bufs in Hh. rewrite !elem_of_cons, elem_of_nil in Hh.
    by destruct Hh as [->|[->|[->|[->|[->|[->|[]]]]]]].
  - by apply (path_handles_based lst k).
Qed.

(** Starting the threads of either transport. *)
Lemma start_threads_R g l role :
  based l -> (x_n_path g <= POTR_MAX_PATH)%nat ->
  triple (R g l false) (if is_tcp g then start_threads_tcp role else start_threads_udp role)
    (fun rc w _ => start_outcome g l
       ((if is_tcp g then tcp_handles g role else udp_handles g role) ++ l)
       (negb (is_tcp g) && udp_sends g role) rc w).
Proof.
  intros Hb Hn. destruct (is_tcp g); [by apply start_threads_tcp_R|by apply start_threads_udp_R].
Qed.

Lemma frame_settled_start v g role :
  frame settled v (if is_tcp g then start_threads_tcp role else start_threads_udp role).
Proof. destruct (is_tcp g); [apply frame_settled_tcp|apply frame_settled_udp]. Qed.

(** The peer table exists in N:1 mode only. *)
Definition table_base (g0 : service_config) : Prop :=
  x_is_multi_peer g0 = bool_decide (service_type (x_service g0) = POTR_TYPE_UNICAST_BIDIR_N1).

Lemma start_stage_ok g0 k role :
  base_ok g0 -> table_base g0 -> (1 <= k <= POTR_MAX_PATH)%nat -> x_role g0 = role ->
  triple (Stage (sized g0) (negb (is_tcp g0)) k true true true
            (open_bufs g0 (is_tcp g0 && role_eqb role POTR_ROLE_RECEIVER) k))
    (if is_tcp g0 then start_threads_tcp role else start_threads_udp role)
    (fun rc w _ => if rc =? POTR_OK
       then opened (x_global g0) (service_type (x_service g0)) role (x_callback g0) (w_ctx w)
       else dirty w \/ exists g, stuck g w).
Proof.
  intros Hb Htb Hk Hrole w Hst. assert (k <= POTR_MAX_PATH)%nat as Hk' by lia.
  destruct (stage_owns _ _ _ _ _ _ _ _ Hk' Hst) as (g & Hs & Hw).
  pose proof (open_bufs_based g0 (is_tcp g0 && role_eqb role POTR_ROLE_RECEIVER) k Hk') as Hbase.
  assert (is_tcp g = is_tcp g0) as Htcp by (unfold is_tcp; by rewrite (sg_service _ _ _ Hs)).
  destruct (start_threads_R g _ role Hbase) with (w := w) as (rc & w' & es & Hr & Ho);
    [by rewrite (sg_n _ _ _ Hs)|done|]. rewrite Htcp in Hr, Ho.
  exists rc, w', es. split; [done|]. unfold start_outcome in Ho. destruct (rc =? POTR_OK).
  - pose proof (frame_settled_start _ g0 role _ _ _ _ eq_refl Hr) as Hv.
    assert (x_cfg (w_ctx w) = g) as Hcw by by destruct Hw.
    assert (ctx_ok (w_ctx w')) as Hok by (eapply started_ok; [done..| |rewrite Hcw; exact Ho]; done).
    destruct Ho as [Hcfg' _ _ _ _ Hsend Hh]. destruct Hst as (g2 & co & hs & Hx & Hs2 & _ & _).
    rewrite Hx in Hcw, Hv. cbn in Hcw. subst g2. injection Hv as _ _ Hsock _ Hpeers _ _ _.
    split; rewrite ?Hcfg'; try (by destruct Hs).
    + by rewrite (sg_service _ _ _ Hs).
    + by rewrite (sg_role _ _ _ Hs).
    + by rewrite (sg_n _ _ _ Hs).
    + intros j Hj. rewrite Hsock, path_socks_lookup by done. by rewrite (sg_n _ _ _ Hs).
    + rewrite Hpeers. unfold fresh_table. rewrite (sg_multi _ _ _ Hs). cbn [x_is_multi_peer sized set_crypto_size].
      rewrite Htb. case_bool_decide; cbn; (split; [by intros []|]); [by eexists|done].
    + intros h. rewrite Hh. unfold service_handles. rewrite Htcp, (sg_role _ _ _ Hs), (sg_n _ _ _ Hs).
      cbn [x_role sized set_crypto_size]. rewrite Hrole. unfold open_bufs. by rewrite Htcp.
  - destruct Ho as [(l' & Hl' & Hsub)|Hstuck]; [left|right; by exists g].
    exists g, l', false. split; [done|]. intros h [Hh _]%Hsub. by apply Hbase.
Qed.

Context `{!ErrorLaws}.

(** The result of [potr_service_open] once the context exists. *)
Definition open_outcome (c : potr_global_config) (t : potr_type) (role : potr_role) (callback : bool)
    (res : Z * bool) (w : world) : Prop :=
  if res.1 =? POTR_OK then res.2 = true /\ opened c t role callback (w_ctx w)
  else failed res.1 res w.

Lemma stage_ok (P P' : world -> Prop) (m : M Z) (k : M (Z * bool)) c t role callback :
  triple P m (fun rc w _ => if rc =? POTR_OK then P' w else dirty w \/ exists g, stuck g w) ->
  triple P' k (fun res w _ => open_outcome c t role callback res w) ->
  triple P (stage m k) (fun res w _ => open_outcome c t role callback res w).
Proof.
  intros Hm Hk. eapply triple_seq; [exact Hm|]. intros rc. apply triple_checked; [by intros _|].
  intros Hr. eapply triple_conseq; [apply open_failed_ok|done|]. intros [rc' live] w es Hw.
  pose proof Hw as [He _]. cbn in He. subst rc'. unfold open_outcome. cbn [fst].
  by rewrite (proj2 (Z.eqb_neq _ _) Hr).
Qed.

(** The configuration once the settings are copied and resolved. *)
Definition start_config (c : potr_global_config) (svc : potr_service_def) (role : potr_role)
    : service_config := resolve_health (copy_config (zero_config role) c svc).

Lemma resolve_health_same g :
  x_global (resolve_health g) = x_global g /\ x_service (resolve_health g) = x_service g /\
  x_is_multi_peer (resolve_health g) = x_is_multi_peer g.
Proof. unfold resolve_health. by destruct (is_tcp_type _). Qed.

(** Validation: rejected before anything is opened, or the settings are in
    their ranges. *)
Lemma validate_ok c svc role callback udp lst :
  triple (Paths (copy_config (zero_config role) c svc) udp lst 0)
    (let rc := open_validate_callback svc role callback in
     if negb (rc =? POTR_OK) then mret rc else open_validate_config)
    (fun rc w _ => if rc =? POTR_OK
       then valid_global c = true /\ Paths (start_config c svc role) udp lst 0 w
       else dirty w \/ exists g, stuck g w).
Proof.
  cbv zeta. destruct (Z.eqb_spec (open_validate_callback svc role callback) POTR_OK) as [_|Hr]; cbn [negb].
  - apply Paths_get_cfg. intros g Hg. rewrite (sg_global _ _ _ Hg). cbn [x_global copy_config].
    destruct (valid_global c); cbn [negb].
    + apply (triple_then _ _ _ (Paths (start_config c svc role) udp lst 0));
        [|by apply triple_ret].
      apply Paths_modify_cfg. intros g1 [Hg1 Hs1 Hm1 Hp1 Hc1 Hr1 Hb1 Hi1 Hn1 ? ?].
      unfold start_config, resolve_health. rewrite Hs1, Hg1.
      destruct (is_tcp_type _); split; cbn; done.
    + apply triple_ret. intros w Hw. left. by eapply Paths_dirty.
  - apply triple_ret. intros w Hw. rewrite (proj2 (Z.eqb_neq _ _) Hr). left. by eapply Paths_dirty.
Qed.

(** What the paths are opened from satisfies what the rest needs. *)
Definition open_config (c : potr_global_config) (svc : potr_service_def) (role : potr_role)
    (callback : bool) : service_config := set_callback (open_base (start_config c svc role)) callback role.

Lemma open_config_base c svc role callback :
  valid_global c = true -> 0 <= reorder_timeout_ms c < 4294967296 ->
  base_ok (open_config c svc role callback) /\ table_base (open_config c svc role callback) /\
  x_global (open_config c svc role callback) = c /\
  service_type (x_service (open_config c svc role callback)) = service_type svc.
Proof.
  intros Hv Hr. pose proof (resolve_health_same (copy_config (zero_config role) c svc)) as (Hg & Hs & Hm).
  pose proof (effective_max_peers_range (max_peers_def svc)).
  assert (x_max_peers (start_config c svc role) = 0) as Hp
    by (unfold start_config, resolve_health; by destruct (is_tcp_type _)).
  unfold open_config, open_base, start_config in *. rewrite Hs. cbn [x_service copy_config] in *.
  unfold table_base. destruct (service_type svc) eqn:He; cbn [raw_base_type]; unfold default_broadcast;
    try destruct (_ =? 0)%nat; cbn [x_global x_service x_is_multi_peer set_callback set_service set_max_peers
      set_multi_peer service_type set_broadcast_addr]; rewrite ?Hg, ?Hs, ?Hm; cbn [x_service copy_config x_global];
    rewrite ?He; (split; [split; cbn; rewrite ?Hg, ?Hp; cbn; try done; lia|]); done.
Qed.

Lemma is_tcp_open_config c svc role callback :
  is_tcp (start_config c svc role) = is_tcp_type (service_type svc) /\
  (valid_global c = true -> 0 <= reorder_timeout_ms c < 4294967296 ->
   is_tcp (open_config c svc role callback) = is_tcp_type (service_type svc)).
Proof.
  split.
  - unfold is_tcp, start_config. by rewrite (proj1 (proj2 (resolve_health_same _))).
  - intros Hv Hr. unfold is_tcp. by rewrite (proj2 (proj2 (proj2 (open_config_base c svc role callback Hv Hr)))).
Qed.

(** From the created callback lock on. *)
Lemma open_stages_ok c svc role callback :
  0 <= reorder_timeout_ms c < 4294967296 ->
  triple (Paths (copy_config (zero_config role) c svc) (negb (is_tcp_type (service_type svc)))
            (is_tcp_type (service_type svc) && role_eqb role POTR_ROLE_RECEIVER) 0)
    (open_context svc role callback)
    (fun res w _ => open_outcome c (service_type svc) role callback res w).
Proof.
  intros Hr. set (tcp := is_tcp_type (service_type svc)). set (lst := tcp && role_eqb role POTR_ROLE_RECEIVER).
  destruct (is_tcp_open_config c svc role callback) as [Ht Ht']. fold tcp in Ht, Ht'.
  eapply stage_ok; [apply validate_ok|]. apply triple_and. intros Hv. specialize (Ht' Hv Hr).
  destruct (open_config_base c svc role callback Hv Hr) as (Hb & Htb & Hg & Hty).
  set (g0 := open_config c svc role callback) in *.
  eapply stage_ok.
  { pose proof (open_by_type_ok (start_config c svc role) role) as Ho. rewrite Ht in Ho. fold lst in Ho.
    eapply triple_conseq; [apply Ho; by apply resolve_health_same|done|]. intros rc w es. unfold ready_outcome.
    intros Hw. destruct (rc =? POTR_OK); [exact Hw|by left]. }
  apply (triple_from (fun w => exists k, (1 <= k <= POTR_MAX_PATH)%nat /\
    Stage (open_base (start_config c svc role)) (negb tcp) k false false false (path_handles lst k) w));
    [apply Ready_stage|]. apply triple_ex. intros k. apply triple_and. intros Hk.
  assert (based (path_handles lst k)) as Hbase by (apply path_handles_based; lia).
  apply (triple_then _ _ _ (Stage g0 (negb tcp) k false false false (path_handles lst k))).
  { apply Stage_modify_cfg. intros g []. split; [by split|]. by split. }
  eapply stage_ok.
  { eapply triple_conseq; [apply (setup_dest_ok g0 (negb tcp) k (path_handles lst k)); [lia|done]|done|]. intros rc w es. unfold stage_outcome.
    intros Hw. destruct (rc =? POTR_OK); [exact Hw|by left]. }
  eapply stage_ok.
  { eapply triple_seq; [apply (generate_session_ok g0 (negb tcp) k (path_handles lst k))|].
    intros ok. apply triple_ret. intros w Hw.
    destruct ok; cbn; [exact Hw|left].
    apply (Stage_dirty g0 (negb tcp) k false false false (path_handles lst k)); [lia|done|exact Hw]. }
  eapply stage_ok.
  { eapply triple_conseq; [apply (alloc_context_buffers_ok g0 (negb tcp) k lst); [done|lia]|done|]. intros rc w es. unfold stage_outcome.
    intros Hw. destruct (rc =? POTR_OK); [exact Hw|by left]. }
  eapply stage_ok.
  { pose proof (start_stage_ok g0 k role Hb Htb Hk eq_refl) as Hs. rewrite Ht' in Hs. exact Hs. }
  apply triple_ret. intros w Hw. unfold open_outcome. cbn. split; [done|]. revert Hw.
  by rewrite Hg, Hty.
Qed.

(** The context is allocated and its first lock created, or the attempt ends
    there. *)
Lemma open_begin c svc role callback w :
  role_eqb role POTR_ROLE_RECEIVER && negb callback = false ->
  (exists w2, potr_service_open (Some c) (Some svc) role callback true w = open_context svc role callback w2 /\
     forall udp lst, Paths (copy_config (zero_config role) c svc) udp lst 0 w2) \/
  (exists rc w', potr_service_open (Some c) (Some svc) role callback true w = Some ((rc, false), w', []) /\
     rc <> POTR_OK /\ (w_ctx w' = w_ctx w \/ released (w_ctx w')) /\
     (alloc_ok (w_tick w) = false \/ lock_create_ok (S (w_tick w)) = false)).
Proof.
  intros Hc. unfold potr_service_open. rewrite Hc, tick_bind. destruct (alloc_ok _); cbn [negb].
  2: { right. eexists _, _. split; [done|]. split; [done|]. auto. }
  rewrite put_ctx_bind. unfold create_lock. rewrite bind_assoc, tick_bind. cbn [w_ctx w_tick].
  destruct (lock_create_ok _).
  2: { right. eexists _, _. split; [done|]. split; [done|]. split; [|by right]. right. by repeat constructor. }
  left. rewrite bind_assoc. unfold acquire. rewrite bind_assoc, get_ctx_bind. cbn [w_ctx].
  change (holds (blank_ctx role) HCallbackMutex) with false. cbv iota.
  rewrite put_ctx_bind, ret_bind. cbn [negb w_tick].
  match goal with |- exists w2, (modify_cfg ?f ≫= _) ?w1 = _ /\ _ =>
    rewrite (bind_run_nil (modify_cfg f) _ w1 tt _ eq_refl) end.
  eexists. split; [reflexivity|]. intros udp lst. split; [|unfold POTR_MAX_PATH; lia].
  eexists _, [HCallbackMutex]. split; [reflexivity|].
  split; [by split|]. intros h. unfold path_handles. by destruct lst.
Qed.

Lemma service_open_outcome c svc role callback w :
  0 <= reorder_timeout_ms c < 4294967296 ->
  exists rc live w' es,
    potr_service_open (Some c) (Some svc) role callback true w = Some ((rc, live), w', es) /\
    if rc =? POTR_OK then live = true /\ opened c (service_type svc) role callback (w_ctx w')
    else live = false /\ (w_ctx w' = w_ctx w \/ released (w_ctx w')) \/
         live = true /\ join_failed /\ api_context_has_threads (w_ctx w') = true.
Proof.
  intros Hr. destruct (role_eqb role POTR_ROLE_RECEIVER && negb callback) eqn:Hc.
  { unfold potr_service_open. rewrite Hc. eexists _, _, _, _. split; [done|]. left. auto. }
  destruct (open_begin c svc role callback w Hc) as [(w2 & Hrun & Hw)|(rc & w' & Hrun & Hn & Hw & _)].
  - destruct (open_stages_ok c svc role callback Hr w2 (Hw _ _)) as ([rc live] & w' & es & Hs & Ho).
    exists rc, live, w', es. rewrite Hrun. split; [exact Hs|]. unfold open_outcome in Ho. cbn [fst snd] in Ho.
    destruct (rc =? POTR_OK); [done|].
    destruct Ho as [_ [[Hl Hx]|Hx]]; cbn in *; [left; auto|right; done].
  - exists rc, false, w', []. split; [done|]. rewrite (proj2 (Z.eqb_neq _ _) Hn). left. auto.
Qed.
End Outcome.

(** C12. Opening a service is all or nothing, for every configuration, role and
    behaviour of the system: [potr_service_open] returns; after success the
    context satisfies the invariant that every handler relies on, has between
    one and four paths, each with its socket or listener, a peer table exactly
    in N:1 mode, and exactly the locks, threads and buffers its type and role
    call for; after a failure every lock, thread, buffer, socket and window is
    released and the key erased, unless a thread could not be joined, in which
    case the context is kept with that thread.  This includes the sockets that
    are still in a local variable of the path set-up when an option, a bind, a
    join or a listen fails: each is closed or handed over to the context.  No
    handle is overwritten, released twice or used before it exists on any path
    through the function. *)
Theorem open_all_or_nothing `{CplatByteorder} `{Platform} `{!ErrorLaws} `{Host}
    c svc role callback w :
  0 <= reorder_timeout_ms c < 4294967296 ->
  exists rc live w' es,
    potr_service_open (Some c) (Some svc) role callback true w = Some ((rc, live), w', es) /\
    (rc = POTR_OK -> live = true /\ opened c (service_type svc) role callback (w_ctx w')) /\
    (rc <> POTR_OK ->
       live = false /\ (w_ctx w' = w_ctx w \/ released (w_ctx w')) \/
       live = true /\ join_failed /\ api_context_has_threads (w_ctx w') = true).
Proof.
  intros Hr. destruct (service_open_outcome c svc role callback w Hr) as (rc & live & w' & es & Hrun & Ho).
  exists rc, live, w', es. split; [done|]. destruct (Z.eqb_spec rc POTR_OK); by split.
Qed.

(** A service of the given type with one path. *)
Definition open_service (t : potr_type) : potr_service_def :=
  ServiceDef 10 t 5000 0 1 0 [49] [49] [[49]; []; []; []] [[50]; []; []; []] (replicate 32 7) true 2 0 0 0 0.

Definition run_open (h : Host) (t : potr_type) (role : potr_role) (callback : bool)
    : option (Z * bool * world * list effect) :=
  @potr_service_open little_host toy_platform h (Some example_global) (Some (open_service t)) role
    callback true (World (example_ctx t false) 0).

(** Every type can be opened in either role, given the callback it needs. *)
Definition opens (t : potr_type) (role : potr_role) (callback : bool) : bool :=
  match run_open toy_host t role callback with Some (rc, live, _, _) => (rc =? POTR_OK) && live | None => false end.

Example every_type_opens :
  forallb (fun t => opens t POTR_ROLE_RECEIVER true
             && opens t POTR_ROLE_SENDER (type_eqb t POTR_TYPE_UNICAST_BIDIR || type_eqb t POTR_TYPE_TCP_BIDIR))
    [POTR_TYPE_UNICAST_RAW; POTR_TYPE_MULTICAST_RAW; POTR_TYPE_BROADCAST_RAW; POTR_TYPE_UNICAST;
     POTR_TYPE_MULTICAST; POTR_TYPE_BROADCAST; POTR_TYPE_UNICAST_BIDIR; POTR_TYPE_UNICAST_BIDIR_N1;
     POTR_TYPE_TCP; POTR_TYPE_TCP_BIDIR] = true.
Proof. vm_compute. reflexivity. Qed.

(** A system on which no thread can be created. *)
Definition no_thread_host : Host := {|
  lock_create_ok _ := true;
  thread_create_ok _ := false;
  thread_join_ok _ := true;
  socket_ok _ := true;
  shutdown_closes _ := false;
  socket_result _ := CPLAT_OK;
  cond_wait _ := CPLAT_OK;
  compress_header_size := 4;
  cplat_ipv4_resolve _ _ := (CPLAT_OK, 16777343);
  cplat_ipv4_parse _ := (CPLAT_OK, 16777343)
|}.

Lemma toy_errors : @ErrorLaws toy_platform.
Proof. by split. Qed.

#[local] Abbreviation tcp_open h :=
  (@potr_service_open little_host toy_platform h (Some example_global)
     (Some (open_service POTR_TYPE_TCP_BIDIR)) POTR_ROLE_RECEIVER true true
     (World (example_ctx POTR_TYPE_TCP_BIDIR false) 0)).

Lemma open_runs :
  (exists w es, tcp_open toy_host = Some (POTR_OK, true, w, es)) /\
  (exists x t es, tcp_open no_thread_host = Some (POTR_ERR_UNKNOWN, false, World x t, es) /\
     x_sock x = replicate 4 false).
Proof.
  split.
  - destruct (tcp_open toy_host) as [[[[rc live] w] es]|] eqn:Hr; [|by vm_compute in Hr].
    exists w, es. vm_compute in Hr. by injection Hr as <- <- _ _.
  - destruct (tcp_open no_thread_host) as [[[[rc live] [x t]] es]|] eqn:Hr; [|by vm_compute in Hr].
    exists x, t, es. vm_compute in Hr. by injection Hr as <- <- <- <- <-.
Qed.

Lemma open_all_or_nothing_witness :
  (exists w es, tcp_open toy_host = Some (POTR_OK, true, w, es) /\
     @opened little_host example_global POTR_TYPE_TCP_BIDIR POTR_ROLE_RECEIVER true (w_ctx w)) /\
  (exists w es, tcp_open no_thread_host = Some (POTR_ERR_UNKNOWN, false, w, es) /\ released (w_ctx w)).
Proof.
  destruct open_runs as [(w1 & es1 & H1) (x2 & t2 & es2 & H2 & Hn)]. split.
  - destruct (@open_all_or_nothing little_host toy_platform toy_errors toy_host example_global
      (open_service POTR_TYPE_TCP_BIDIR) POTR_ROLE_RECEIVER true
      (World (example_ctx POTR_TYPE_TCP_BIDIR false) 0)) as (rc & live & w & es & Hr & Ho & _); [cbn; lia|].
    rewrite H1 in Hr. injection Hr as <- <- <- <-.
    exists w1, es1. split; [exact H1|]. apply Ho. reflexivity.
  - destruct (@open_all_or_nothing little_host toy_platform toy_errors no_thread_host example_global
      (open_service POTR_TYPE_TCP_BIDIR) POTR_ROLE_RECEIVER true
      (World (example_ctx POTR_TYPE_TCP_BIDIR false) 0)) as (rc & live & w & es & Hr & _ & Hf); [cbn; lia|].
    rewrite H2 in Hr. injection Hr as <- <- <- <-.
    exists (World x2 t2), es2. split; [exact H2|].
    destruct (Hf ltac:(discriminate)) as [(_ & [Hx|Hx])|(Hl & _)]; [|exact Hx|discriminate Hl].
    exfalso. cbn [w_ctx] in Hx. rewrite Hx in Hn. discriminate Hn.
Defined.

(** ** Settings that are refused *)

(** The documented ranges, and who may (and must) give a callback. *)
Definition open_valid (c : potr_global_config) (svc : potr_service_def) (role : potr_role)
    (callback : bool) : Prop :=
  64 <= max_payload_cfg c <= 65507 /\ 2 <= window_size_cfg c <= 256 /\
  max_payload_cfg c <= max_message_size c /\ 2 <= send_queue_depth c /\
  (callback = true <-> role = POTR_ROLE_RECEIVER \/ service_type svc = POTR_TYPE_UNICAST_BIDIR \/
                       service_type svc = POTR_TYPE_TCP_BIDIR).

Lemma valid_global_spec c :
  valid_global c = true <->
  64 <= max_payload_cfg c <= 65507 /\ 2 <= window_size_cfg c <= 256 /\
  max_payload_cfg c <= max_message_size c /\ 2 <= send_queue_depth c.
Proof.
  unfold valid_global, POTR_MAX_PAYLOAD, POTR_MAX_WINDOW_SIZE.
  rewrite !andb_true_iff, !negb_true_iff, !orb_false_iff. lia.
Qed.

Lemma callback_spec svc role callback :
  role_eqb role POTR_ROLE_RECEIVER && negb callback = false /\
  open_validate_callback svc role callback = POTR_OK <->
  (callback = true <-> role = POTR_ROLE_RECEIVER \/ service_type svc = POTR_TYPE_UNICAST_BIDIR \/
                       service_type svc = POTR_TYPE_TCP_BIDIR).
Proof.
  unfold open_validate_callback, type_eqb, role_eqb.
  destruct role, callback, (service_type svc); cbn; intuition (congruence || discriminate).
Qed.

Lemma role_checked svc role callback :
  open_validate_callback svc role callback = POTR_OK \/
  open_validate_callback svc role callback = POTR_ERR_INVALID_ARGUMENT.
Proof. unfold open_validate_callback. destruct role, callback, (service_type svc); cbn; auto. Qed.

(** Functions without effects outside the context. *)
Definition silent {A} (m : M A) : Prop := forall w a w' es, m w = Some (a, w', es) -> es = [].

Lemma silent_prim {A} (m : M A) :
  (forall w, m w = None \/ exists a w', m w = Some (a, w', [])) -> silent m.
Proof. intros Hm w a w' es Hr. destruct (Hm w) as [Hn|(b & w2 & Hs)]; [by rewrite Hn in Hr|]. by rewrite Hs in Hr; injection Hr. Qed.

Lemma silent_bind {A B} (m : M A) (k : A -> M B) : silent m -> (forall a, silent (k a)) -> silent (m ≫= k).
Proof.
  intros Hm Hk w b w' es (a & w1 & e1 & e2 & H1 & H2 & ->)%bind_inv.
  by rewrite (Hm _ _ _ _ H1), (Hk _ _ _ _ _ H2).
Qed.

Lemma silent_for body n : forall a, (forall k, silent (body k)) -> silent (for_range a n body).
Proof.
  induction n as [|n IH]; intros a Hb; cbn [for_range].
  - apply silent_prim. right. by eexists _, _.
  - apply silent_bind; [apply Hb|]. intros _. by apply IH.
Qed.

Lemma silent_lift {A} (o : option A) : silent (lift o).
Proof. apply silent_prim. intros w. destruct o; [right; by eexists _, _|by left]. Qed.

Ltac silents := repeat first
  [ apply silent_lift
  | apply silent_for; intros ?
  | apply silent_bind; [|intros ?]
  | match goal with |- silent (if ?b then _ else _) => destruct b end
  | match goal with |- silent (match ?o with _ => _ end) => destruct o end
  | solve [apply silent_prim; intros ?; (by left) || (right; by eexists _, _)]
  | match goal with |- silent ?m => let h := head_of m in unfold h end ].

Lemma silent_cleanup rc : silent (open_failed rc).
Proof. silents. Qed.

(** C30. Settings out of range are refused before anything is opened: when the
    payload, window, message or queue size is outside its range, or the
    callback is missing or not allowed for the role and type,
    [potr_service_open] returns an error, keeps no context and touches no
    socket; the error is [POTR_ERR_INVALID_ARGUMENT] whenever the context and
    its first lock could be allocated. *)
Theorem open_refuses `{CplatByteorder} `{Platform} `{Host} c svc role callback w :
  ~ open_valid c svc role callback ->
  exists rc w', potr_service_open (Some c) (Some svc) role callback true w = Some ((rc, false), w', []) /\
    rc <> POTR_OK /\
    (alloc_ok (w_tick w) = true -> lock_create_ok (S (w_tick w)) = true -> rc = POTR_ERR_INVALID_ARGUMENT).
Proof.
  intros Hv. destruct (role_eqb role POTR_ROLE_RECEIVER && negb callback) eqn:Hc.
  { unfold potr_service_open. rewrite Hc. by eexists _, _. }
  destruct (open_begin c svc role callback w Hc) as [(w2 & Hrun & Hw)|(rc & w' & Hrun & Hn & _ & Hf)].
  2: { exists rc, w'. split; [done|]. split; [done|]. intros Ha Hl. destruct Hf; congruence. }
  specialize (Hw true false). rewrite Hrun.
  destruct (open_failed_dirty POTR_ERR_INVALID_ARGUMENT w2) as (res & w' & es & Hfail & -> & _);
    [by eapply Paths_dirty|].
  pose proof (silent_cleanup _ _ _ _ _ Hfail). subst es.
  exists POTR_ERR_INVALID_ARGUMENT, w'. split; [|done]. unfold open_context, stage. cbv zeta.
  destruct (role_checked svc role callback) as [He|He]; rewrite He; cbn [negb Z.eqb POTR_OK POTR_ERR_INVALID_ARGUMENT];
    [|by rewrite ret_bind].
  unfold open_validate_config. rewrite bind_assoc, get_cfg_bind.
  assert (x_global (x_cfg (w_ctx w2)) = c) as Hg.
  { destruct Hw as [(g & hs & -> & Hs & _) _]. exact (sg_global _ _ _ Hs). }
  rewrite Hg. destruct (valid_global c) eqn:Hvg; cbn [negb]; [|by rewrite ret_bind].
  exfalso. apply Hv. apply valid_global_spec in Hvg as (? & ? & ? & ?).
  do 4 (split; [done|]). by apply callback_spec.
Qed.

Lemma open_refuses_witness :
  exists w', @potr_service_open little_host toy_platform toy_host (Some zero_global)
    (Some (open_service POTR_TYPE_UNICAST)) POTR_ROLE_SENDER false true (World (example_ctx POTR_TYPE_TCP false) 0)
    = Some ((POTR_ERR_INVALID_ARGUMENT, false), w', []).
Proof.
  destruct (@open_refuses little_host toy_platform toy_host zero_global (open_service POTR_TYPE_UNICAST)
    POTR_ROLE_SENDER false (World (example_ctx POTR_TYPE_TCP false) 0)) as (rc & w' & Hr & _ & Hrc).
  - intros (Hp & _). cbn in Hp. lia.
  - exists w'. rewrite Hr, Hrc; reflexivity.
Defined.
