(* ===== verification/Close.v ===== *)
(** Closing a service: [potr_service_close.c].

    The closing thread waits twice for other threads: until the send queue is
    drained, and, on TCP, until the peer has acknowledged the FIN.  What the
    other threads do meanwhile is an argument. *)

From stdpp Require Import base list numbers option.
From Stdlib Require Import ZArith Lia ZifyBool.
From S2P Require Import Prelude Types Packet Window SendQueue Context PathEvent Validate PeerTable.
From S2P Require Import RecvSlot Fin HealthThread Threads Connect OpenPaths Open.
Local Open Scope Z_scope.
Local Open Scope porter_scope.

Definition set_tcp_close (t : tcp_close_state) : M unit :=
  x ← get_ctx; put_ctx (set_x_tcp_close x t).

Section Close.
Context `{CplatByteorder} `{Platform} `{Host}.

(** ** FIN *)

(** The FIN of the single connection of a UDP service, to all paths. *)
Definition send_fin : M unit :=
  x ← get_ctx;
  let g := x_cfg x in
  match build_session_fin g (x_conn x) with
  | None => mret tt
  | Some fin_pkt =>
      need HSendWindowMutex;;
      match build_ctrl_pkt_wire_nonce g fin_pkt 0 with
      | None => mret tt
      | Some wire =>
          for_range 0 (x_n_path g) (fun i =>
            v ← sock_valid i;
            when v (d ← lift (c_dest_addr (x_conn x) !! i); _ ← socket_sendto i wire d; mret tt))
      end
  end.

(** The lock may be gone: a connect thread that undoes its start stops the send
    thread while [close] drains the queue. *)
Definition get_fin_target_seq : M Z :=
  lock_mutex HSendWindowMutex;;
  c ← get_conn SlotCtx;
  mret (win_next_seq (c_send_window c)).

Definition send_tcp_fin (fin_target_seq : Z) : M Z :=
  x ← get_ctx;
  match potr_internal_packet_build_fin (Some blank_packet)
          (Some (own_session_hdr (x_cfg x) (c_session (x_conn x)))) with
  | (rc, Some p) =>
      if negb (rc =? POTR_OK) then mret rc
      else potr_internal_tcp_send_control_packet
             (set_pkt_ack_num
                (set_pkt_flags p (Z.lor (pkt_flags p) (cplat_hton16 POTR_FLAG_FIN_TARGET_VALID)))
                (cplat_hton32 fin_target_seq)) 0
  | (rc, None) => mret rc
  end.

(** ** The acknowledgement of a TCP FIN *)

Definition reset_tcp_close_wait : M unit :=
  need HTcpCloseMutex;; set_tcp_close (TcpCloseState false false 0 0).

Definition begin_tcp_close_wait (fin_target_seq : Z) : M unit :=
  need HTcpCloseMutex;; set_tcp_close (TcpCloseState true false fin_target_seq 0).

Definition close_pending (t : tcp_close_state) : bool :=
  tcp_close_waiting_ack t && negb (tcp_close_ack_received t).

(** The wait loop.  [wakeups] lists the waits that end before their time-out:
    what the other threads have done by then, and the result of the wait; the
    wait after the last one times out. *)
Fixpoint close_wait_loop (wakeups : list (M unit * cplat_result)) : M Z :=
  x ← get_ctx;
  if negb (close_pending (x_tcp_close x)) then mret POTR_OK
  else
    need HTcpCloseCv;;
    match wakeups with
    | [] => mret POTR_ERR_TIMEOUT
    | (others, r) :: wakeups =>
        others;;
        match r with
        | CPLAT_OK => close_wait_loop wakeups
        | CPLAT_ERR_TIMEOUT => mret POTR_ERR_TIMEOUT
        | _ => mret POTR_ERR_UNKNOWN
        end
    end.

Definition wait_for_tcp_close_ack (timeout_ms : Z) (wakeups : list (M unit * cplat_result)) : M Z :=
  if timeout_ms =? 0 then reset_tcp_close_wait;; mret POTR_OK
  else
    need HTcpCloseMutex;;
    result ← close_wait_loop wakeups;
    x ← get_ctx;
    let result := if close_pending (x_tcp_close x) then POTR_ERR_TIMEOUT else result in
    set_tcp_close (TcpCloseState false false 0 0);;
    mret result.

Definition stop_tcp_health_threads : M unit :=
  g ← get_cfg;
  for_range 0 (x_n_path g) (fun i =>
    x ← get_ctx;
    when (holds x (HHealthThread i)) (_ ← potr_internal_tcp_health_thread_stop i; mret tt)).

(** ** TCP *)

(** The FIN handshake of a service whose send thread runs. *)
Definition close_tcp_handshake (drain : M unit) (wakeups : list (M unit * cplat_result)) : M Z :=
  stop_tcp_health_threads;;
  need HSendQueue;; drain;;
  fin_target_seq ← get_fin_target_seq;
  x ← get_ctx;
  if 0 <? tcp_active_paths (x_tcp_link x) then
    begin_tcp_close_wait fin_target_seq;;
    close_result ← send_tcp_fin fin_target_seq;
    if negb (close_result =? POTR_OK) then reset_tcp_close_wait;; mret close_result
    else wait_for_tcp_close_ack (i32 (tcp_close_timeout_ms (x_global (x_cfg x)))) wakeups
  else if c_send_has_data (x_conn x) then mret POTR_ERR_DISCONNECTED
  else reset_tcp_close_wait;; mret POTR_OK.

Definition close_tcp (drain : M unit) (wakeups : list (M unit * cplat_result)) : M (Z * bool) :=
  x ← get_ctx;
  ret ← (if send_thread_running (x_rt x) then close_tcp_handshake drain wakeups else mret POTR_OK);
  potr_internal_connect_thread_stop;;
  x ← get_ctx;
  if api_context_has_threads x then mret (POTR_ERR_UNKNOWN, true)
  else
    let g := x_cfg x in
    when (role_eqb (x_role g) POTR_ROLE_SENDER
          || type_eqb (service_type (x_service g)) POTR_TYPE_TCP_BIDIR) close_send_queue;;
    api_context_dispose_tcp_sync;;
    api_context_dispose_resources;;
    mret (ret, false).

(** ** UDP *)

(** The receive thread, when there is one; [false] when it did not end. *)
Definition close_recv_thread : M bool :=
  x ← get_ctx;
  if holds x (HRecvThread 0) then rc ← potr_internal_comm_recv_thread_stop; mret (rc =? POTR_OK)
  else mret true.

Definition close_sockets : M unit :=
  g ← get_cfg;
  for_range 0 (x_n_path g) (fun i =>
    v ← sock_valid i;
    when v
      (when (type_eqb (raw_base_type (service_type (x_service g))) POTR_TYPE_MULTICAST)
         (match fst (cplat_ipv4_parse (multicast_group (x_service g))) with
          | CPLAT_OK => _ ← tick socket_ok; mret tt
          | _ => mret tt
          end);;
       set_sock i false)).

(** The send thread: its queue is drained, the peers are told, the threads end
    in the order receive, send; [false] when one did not end. *)
Definition close_send_thread (drain : M unit) : M bool :=
  x ← get_ctx;
  if negb (holds x HSendThread) then mret true
  else
    need HSendQueue;; drain;;
    g ← get_cfg;
    (if x_is_multi_peer g then potr_internal_peer_table_send_fin else send_fin);;
    ok ← close_recv_thread;
    if negb ok then mret false
    else
      potr_internal_send_thread_stop;;
      x ← get_ctx;
      if holds x HSendThread then mret false else close_send_queue;; mret true.

Definition close_udp (drain : M unit) : M (Z * bool) :=
  x ← get_ctx;
  rc ← (if holds x (HHealthThread 0) then potr_internal_health_thread_stop else mret POTR_OK);
  if negb (rc =? POTR_OK) then mret (POTR_ERR_UNKNOWN, true)
  else
    x ← get_ctx;
    put_ctx (set_x_last_valid_data_send_ms (set_x_last_ping_send_ms x 0) 0);;
    ok ← close_send_thread drain;
    if negb ok then mret (POTR_ERR_UNKNOWN, true)
    else
      ok ← close_recv_thread;
      if negb ok then mret (POTR_ERR_UNKNOWN, true)
      else close_sockets;; api_context_dispose_resources;; mret (POTR_OK, false).

(** The result code, and whether the context survives. *)
Definition potr_service_close (drain : M unit) (wakeups : list (M unit * cplat_result)) : M (Z * bool) :=
  x ← get_ctx;
  put_ctx (set_x_tcp_link x (set_close_requested (x_tcp_link x) true));;
  if is_tcp_type (service_type (x_service (x_cfg x))) then close_tcp drain wakeups else close_udp drain.
End Close.
