(* ===== verification/Closed.v ===== *)
(** Closing gives back what opening and running took: the proofs about
    [Close.v]. *)

From stdpp Require Import base list numbers option.
From Stdlib Require Import ZArith Lia ZifyBool.
From S2P Require Import Prelude Types Packet Window SendQueue Context PathEvent Validate PeerTable.
From S2P Require Import RecvSlot Fin HealthThread Threads Frame Connect OpenPaths Open Resources.
From S2P Require Import OpenThreads OpenState Opened Close.
Local Open Scope Z_scope.
Local Open Scope porter_scope.

(** ** Services that can be closed *)

(** A TCP service: what its threads use exists, and nothing else is held than
    what some part of [close] gives back. *)
Record closable_tcp (g : service_config) (l : list handle) (s : bool) : Prop := {
  ct_conn : conn_handles g l s;
  ct_sync : forall h, h ∈ tcp_sync_handles -> h ∈ l;
  ct_known : forall h, h ∈ l ->
    base_handle h = true \/ h ∈ tcp_sync_handles \/ h ∈ conn_set (x_n_path g) \/ h = HSendQueue;
  ct_queue : HSendQueue ∈ l -> sends g (x_role g) = true
}.

Section Tcp.
Context `{CplatByteorder} `{Platform} `{Host}.

(** A TCP service in a well-formed state, whose send thread runs if [s]. *)
Definition Tcp (g : service_config) (s : bool) (w : world) : Prop :=
  exists l, R g l s w /\ closable_tcp g l s /\ ctx_ok (w_ctx w).

(** The same, whether or not the send thread runs. *)
Definition Tcp_any (g : service_config) (w : world) : Prop := exists s, Tcp g s w.

(** Changes that keep the rest of the context keep its invariant. *)
Lemma ctx_ok_settled g l s x x' :
  ctx_ok x -> settled x' = settled x -> owns g l s x' -> ctx_ok x'.
Proof.
  intros [] Hs []. injection Hs as Hcfg Hconn Hsock Hport Hpeers Hnp Hid Hping.
  split; rewrite ?Hcfg, ?Hconn, ?Hsock, ?Hport, ?Hping, ?Hid, ?Hpeers, ?Hnp; done.
Qed.

(** What holds in either case holds of both. *)
Lemma Tcp_any_intro {A} g (m : M A) :
  (forall s, triple (Tcp g s) m (fun _ w _ => Tcp g s w)) -> triple (Tcp_any g) m (fun _ w _ => Tcp_any g w).
Proof.
  intros Hm w [s Hw]. destruct (Hm s w Hw) as (a & w' & es & Hr & Hw'). exists a, w', es. split; [done|].
  by exists s.
Qed.

(** From handles to whole states. *)
Lemma Tcp_step {A} g s (m : M A) (Q : A -> world -> Prop) :
  (forall v, frame settled v m) ->
  (forall l, closable_tcp g l s ->
     triple (R g l s) m (fun a w _ => Q a w /\ exists l', R g l' s w /\ closable_tcp g l' s)) ->
  triple (Tcp g s) m (fun a w _ => Q a w /\ Tcp g s w).
Proof.
  intros Hf Hm w (l & Hw & Hl & Hx). destruct (Hm l Hl w Hw) as (a & w' & es & Hr & Hq & l' & Hw' & Hl').
  exists a, w', es. split; [done|]. split; [done|]. exists l'. split; [done|]. split; [done|].
  eapply ctx_ok_settled; [done| |exact Hw']. exact (Hf _ _ _ _ _ eq_refl Hr).
Qed.

Lemma sync_handles_are (P : handle -> bool) :
  forallb P tcp_sync_handles = true -> forall h, h ∈ tcp_sync_handles -> P h = true.
Proof. rewrite forallb_forall. intros Hp h Hh. by apply Hp, list_elem_of_In. Qed.

(** The locks of the paths are among those of the service. *)
Lemma sync_path_locks k :
  (k < POTR_MAX_PATH)%nat ->
  HTcpSendMutex k ∈ tcp_sync_handles /\ HHealthMutex k ∈ tcp_sync_handles /\ HHealthWakeup k ∈ tcp_sync_handles.
Proof.
  unfold POTR_MAX_PATH. intros Hk. assert (k = 0 \/ k = 1 \/ k = 2 \/ k = 3)%nat as Hc by lia.
  destruct Hc as [->|[->|[->| ->]]]; split_and!; by apply (bool_decide_eq_true_1 _).
Qed.

Lemma conn_set_health k n : HHealthThread k ∈ conn_set n -> (k < n)%nat.
Proof.
  unfold conn_set. rewrite !elem_of_app, !elem_of_upto, !elem_of_cons.
  intros [(j & Hj & Hi)|[(j & Hj & Hi)|[Hi|[Hi|[Hi|Hi]]]]]; try done.
  - rewrite !elem_of_cons, elem_of_nil in Hi. by destruct Hi as [?|[[= ->]|[]]].
  - by apply list_elem_of_singleton in Hi.
  - by apply list_elem_of_fmap in Hi as (? & ? & _).
Qed.

(** Fewer handles, but all locks: the service can still be closed. *)
Lemma closable_shrink g l l' s s' :
  (forall h, h ∈ l' -> h ∈ l) -> (forall h, h ∈ tcp_sync_handles -> h ∈ l') -> send_handles l' s' ->
  closable_tcp g l s -> closable_tcp g l' s'.
Proof.
  intros Hsub Hsync Hsend [[Hn Hc Hh _] _ Hk Hq]. split; [split|..]; try done.
  - intros k _. split_and!; try (apply Hsync; by apply (bool_decide_eq_true_1 _)).
    intros j Hj. apply Hsync, sync_path_locks. lia.
  - intros k Hi%Hsub%Hk. enough (k < POTR_MAX_PATH)%nat by (split; apply Hsync; by apply sync_path_locks).
    destruct Hi as [Hi|[Hi|[Hi|Hi]]]; [done|by apply tcp_sync_not_base in Hi as [_ Hi]| |done].
    by apply Nat.lt_le_trans with (2 := Hn), conn_set_health.
  - intros h Hi%Hsub. by apply Hk.
  - intros Hi%Hsub. by apply Hq.
Qed.

Lemma closable_without_thread g l s h :
  droppable h = true -> closable_tcp g l s -> closable_tcp g (without l [h]) s.
Proof.
  intros Hd Hl. apply (closable_shrink g l _ s); [by intros ? [? _]%elem_of_without| | |done].
  - intros h' Hh'. apply elem_of_without. split; [by apply (ct_sync _ _ _ Hl)|].
    intros ->%list_elem_of_singleton. apply (sync_handles_are (fun h => negb (droppable h)) eq_refl) in Hh'.
    by rewrite Hd in Hh'.
  - apply shed_send_handles; [by intros ? ->%list_elem_of_singleton|apply Hl].
Qed.

Lemma closable_without_send g l s :
  closable_tcp g l s -> closable_tcp g (without l [HSendWindowMutex; HSendThread]) false.
Proof.
  intros Hl. apply (closable_shrink g l _ s); [by intros ? [? _]%elem_of_without| | |done].
  - intros h Hh. apply elem_of_without. split; [by apply (ct_sync _ _ _ Hl)|].
    apply tcp_sync_not_base in Hh as [_ Ht]. rewrite !elem_of_cons, elem_of_nil. by destruct h; intuition.
  - split; [handles|handles|done].
Qed.

Lemma stop_tcp_health_threads_ok g s :
  triple (Tcp g s) stop_tcp_health_threads (fun _ w _ => Tcp g s w).
Proof.
  intros w Hw. assert (x_cfg (w_ctx w) = g /\ (x_n_path g <= POTR_MAX_PATH)%nat) as [Hg Hn].
  { destruct Hw as (l & [<-] & [[]] & _). done. }
  unfold stop_tcp_health_threads. rewrite get_cfg_bind, Hg. revert w Hw Hg. 
  cut (triple (Tcp g s) (for_range 0 (x_n_path g) (fun i =>
    x ← get_ctx;
    when (holds x (HHealthThread i)) (_ ← potr_internal_tcp_health_thread_stop i; mret tt)))
    (fun _ w _ => Tcp g s w)).
  { intros Hc w Hw _. by apply Hc. }
  apply (triple_for_range (fun _ => Tcp g s)). intros i Hi.
  eapply triple_conseq; [apply (Tcp_step g s _ (fun _ _ => True))|done|by intros a w es [_ ?]].
  - intros v. frames.
  - intros l Hl. apply R_get_ctx. intros x Hx. rewrite (holds_owned _ _ _ _ _ Hx).
    case_bool_decide; unfold when; [|apply triple_ret; eauto].
    eapply triple_seq; [apply tcp_health_thread_stop_at; [lia|apply (ct_conn _ _ _ Hl)]|].
    intros rc. apply triple_ret. intros w. unfold stopped_at. destruct (rc =? POTR_OK).
    + intros Hw. split; [done|]. eexists. split; [exact Hw|]. by apply closable_without_thread.
    + intros (_ & _ & Hw). eauto.
Qed.

Lemma Tcp_need g s h :
  (forall l, closable_tcp g l s -> h ∈ l) -> triple (Tcp g s) (need h) (fun _ w _ => Tcp g s w).
Proof.
  intros Hh w (l & Hw & Hl & Hx). destruct (R_need g l s h (Hh l Hl) w Hw) as (a & w' & es & Hr & Hw').
  exists a, w', es. split; [done|]. exists l. split; [done|]. split; [done|].
  unfold need in Hr. rewrite get_ctx_bind in Hr. destruct (holds _ _); [|done]. by injection Hr as _ <- _.
Qed.

Lemma Tcp_sync g s h : h ∈ tcp_sync_handles -> triple (Tcp g s) (need h) (fun _ w _ => Tcp g s w).
Proof. intros Hh. apply Tcp_need. intros l Hl. by apply (ct_sync _ _ _ Hl). Qed.

Lemma Tcp_quiet {A} g s (m : M A) :
  (forall x, ctx_ok x -> quiet x m) -> triple (Tcp g s) m (fun _ w _ => Tcp g s w).
Proof.
  intros Hq [x t] (l & Hw & Hl & Hx). destruct (Hq x Hx t) as (a & t' & es & Hr).
  exists a, (World x t'), es. split; [done|]. by exists l.
Qed.

Lemma Tcp_set_close g s c : triple (Tcp g s) (set_tcp_close c) (fun _ w _ => Tcp g s w).
Proof.
  eapply triple_conseq; [apply (Tcp_step g s _ (fun _ _ => True))|done|by intros a w es [_ ?]].
  - intros v. frames.
  - intros l Hl w Hw. eexists _, _, _. split; [done|]. split; [done|]. exists l. split; [|done].
    destruct Hw. by split.
Qed.

(** The same steps when it is not known whether the send thread runs. *)
Lemma any_sync g h : h ∈ tcp_sync_handles -> triple (Tcp_any g) (need h) (fun _ w _ => Tcp_any g w).
Proof. intros Hh. apply Tcp_any_intro. intros s. by apply Tcp_sync. Qed.

Lemma any_quiet {A} g (m : M A) :
  (forall x, ctx_ok x -> quiet x m) -> triple (Tcp_any g) m (fun _ w _ => Tcp_any g w).
Proof. intros Hm. apply Tcp_any_intro. intros s. by apply Tcp_quiet. Qed.

Lemma any_set_close g c : triple (Tcp_any g) (set_tcp_close c) (fun _ w _ => Tcp_any g w).
Proof. apply Tcp_any_intro. intros s. apply Tcp_set_close. Qed.

Lemma reset_close_ok g : triple (Tcp_any g) reset_tcp_close_wait (fun _ w _ => Tcp_any g w).
Proof. eapply triple_then; [apply any_sync; by apply (bool_decide_eq_true_1 _)|]. apply any_set_close. Qed.

Lemma close_wait_loop_ok g wakeups :
  Forall (fun wk => triple (Tcp_any g) wk.1 (fun _ w _ => Tcp_any g w)) wakeups ->
  triple (Tcp_any g) (close_wait_loop wakeups) (fun _ w _ => Tcp_any g w).
Proof.
  induction wakeups as [|[others r] wakeups IH]; intros Hk w Hw; cbn [close_wait_loop]; rewrite get_ctx_bind;
    destruct (negb _); try (by eexists _, _, _); revert w Hw.
  - change (triple (Tcp_any g) (need HTcpCloseCv;; mret POTR_ERR_TIMEOUT) (fun _ w _ => Tcp_any g w)).
    eapply triple_then; [apply any_sync; by apply (bool_decide_eq_true_1 _)|]. by apply triple_ret.
  - apply Forall_cons_1 in Hk as [Ho Hk].
    eapply (triple_then (need HTcpCloseCv)); [apply any_sync; by apply (bool_decide_eq_true_1 _)|].
    eapply triple_then; [exact Ho|]. destruct r; try (by apply triple_ret). by apply IH.
Qed.

Lemma quiet_send_tcp_fin x seq : ctx_ok x -> quiet x (send_tcp_fin seq).
Proof.
  intros Hx. apply quiet_get_ctx_bind.
  destruct (potr_internal_packet_build_fin _ _) as [rc [p|]]; [|apply quiet_ret].
  destruct (negb _); [apply quiet_ret|]. by apply quiet_tcp_send_control.
Qed.

Lemma quiet_get_fin_target x : quiet x get_fin_target_seq.
Proof.
  unfold get_fin_target_seq. apply quiet_bind; [apply quiet_lock_mutex|]. intros [] t. by eexists _, _, _.
Qed.

Lemma closable_queue g l : closable_tcp g l true -> HSendQueue ∈ l.
Proof. intros [[_ _ _ [Hm Hq Hf]] _ _ _]. by apply Hq, Hf. Qed.

Lemma wait_ack_ok g timeout wakeups :
  Forall (fun wk => triple (Tcp_any g) wk.1 (fun _ w _ => Tcp_any g w)) wakeups ->
  triple (Tcp_any g) (wait_for_tcp_close_ack timeout wakeups) (fun _ w _ => Tcp_any g w).
Proof.
  intros Hk. unfold wait_for_tcp_close_ack. destruct (_ =? 0).
  { eapply triple_then; [apply reset_close_ok|]. by apply triple_ret. }
  eapply triple_then; [apply any_sync; by apply (bool_decide_eq_true_1 _)|].
  eapply triple_seq; [by apply close_wait_loop_ok|]. intros rc w Hw. rewrite get_ctx_bind. cbv zeta.
  revert w Hw. intros w Hw. destruct (any_set_close g (TcpCloseState false false 0 0) w Hw)
    as ([] & w' & es & Hr & Hw'). rewrite (bind_run _ _ _ _ _ _ Hr). by eexists _, _, _.
Qed.

Lemma close_tcp_handshake_ok g drain wakeups :
  triple (Tcp_any g) drain (fun _ w _ => Tcp_any g w) ->
  Forall (fun wk => triple (Tcp_any g) wk.1 (fun _ w _ => Tcp_any g w)) wakeups ->
  triple (Tcp g true) (close_tcp_handshake drain wakeups) (fun _ w _ => Tcp_any g w).
Proof.
  intros Hd Hk. eapply triple_then; [apply stop_tcp_health_threads_ok|].
  eapply triple_then; [apply Tcp_need, closable_queue|].
  apply (triple_from (Tcp_any g)); [by exists true|].
  eapply triple_then; [exact Hd|].
  eapply triple_seq; [apply any_quiet; intros x _; apply quiet_get_fin_target|].
  intros seq w Hw. rewrite get_ctx_bind. destruct (0 <? _).
  - revert w Hw. intros w0 Hw0. generalize (i32 (tcp_close_timeout_ms (x_global (x_cfg (w_ctx w0))))).
    intros timeout. revert w0 Hw0. eapply (triple_then (begin_tcp_close_wait seq)).
    { eapply triple_then; [apply any_sync; by apply (bool_decide_eq_true_1 _)|]. apply any_set_close. }
    eapply triple_seq; [apply any_quiet; intros x; apply quiet_send_tcp_fin|]. intros rc.
    destruct (negb _); [|by apply wait_ack_ok].
    eapply triple_then; [apply reset_close_ok|]. by apply triple_ret.
  - destruct (c_send_has_data _); [by eexists _, _, _|]. revert w Hw.
    eapply (triple_then reset_tcp_close_wait); [apply reset_close_ok|]. by apply triple_ret.
Qed.

(** ** What other threads may do meanwhile *)

Lemma tcp_any_step g (m : M unit) :
  (forall v, frame settled v m) ->
  (forall s l, closable_tcp g l s ->
     triple (R g l s) m (fun _ w _ => exists s' l', R g l' s' w /\ closable_tcp g l' s')) ->
  triple (Tcp_any g) m (fun _ w _ => Tcp_any g w).
Proof.
  intros Hf Hm w (s & l & Hw & Hl & Hx). destruct (Hm s l Hl w Hw) as ([] & w' & es & Hr & s' & l' & Hw' & Hl').
  exists tt, w', es. split; [done|]. exists s', l'. split; [done|]. split; [done|].
  eapply ctx_ok_settled; [done| |exact Hw']. exact (Hf _ _ _ _ _ eq_refl Hr).
Qed.

Lemma any_when g b (m : M unit) :
  triple (Tcp_any g) m (fun _ w _ => Tcp_any g w) -> triple (Tcp_any g) (when b m) (fun _ w _ => Tcp_any g w).
Proof. destruct b; [done|]. intros _. apply triple_done. Qed.

Lemma any_join_recv g k :
  (k < POTR_MAX_PATH)%nat -> triple (Tcp_any g) (join_recv_thread k) (fun _ w _ => Tcp_any g w).
Proof.
  intros Hk. apply tcp_any_step; [intros v; frames|]. intros s l Hl.
  apply R_get_ctx. intros x Hx. rewrite (holds_owned _ _ _ _ _ Hx). case_bool_decide; unfold when;
    [|apply triple_ret; eauto].
  eapply triple_seq; [by apply R_join|]. intros ok. apply triple_ret. intros w. destruct ok.
  - intros Hw. eexists s, _. split; [exact Hw|]. by apply closable_without_thread.
  - intros [_ Hw]. eauto.
Qed.

Lemma any_send_stop g : triple (Tcp_any g) potr_internal_send_thread_stop (fun _ w _ => Tcp_any g w).
Proof.
  apply tcp_any_step; [intros v; frames|]. intros s l Hl.
  eapply triple_conseq; [apply send_thread_stop_keeps, Hl|done|]. intros [] w es [Hw|(Hw & _ & Hi)].
  - eexists false, _. split; [exact Hw|]. by eapply closable_without_send.
  - exists false, l. split; [done|]. apply (closable_shrink g l l s); [done|apply Hl| |done].
    destruct (ch_send _ _ _ (ct_conn _ _ _ Hl)). by split.
Qed.

(** A connect thread that undoes its start. *)
Lemma undo_start_ok g k join started :
  (k < x_n_path g)%nat -> (x_n_path g <= POTR_MAX_PATH)%nat ->
  triple (Tcp_any g) (undo_start k join started) (fun _ w _ => Tcp_any g w).
Proof.
  intros Hk Hn. assert (k < POTR_MAX_PATH)%nat as Hp by lia. unfold undo_start.
  eapply triple_then; [apply any_when, tcp_any_step; [intros v; frames|]|].
  { intros s l Hl. eapply triple_conseq; [by apply R_set_running|done|].
    intros [] w es Hw. by exists s, l. }
  eapply triple_then; [apply tcp_any_step; [intros v; frames|]|].
  { intros s l Hl. eapply triple_conseq; [apply close_tcp_conn_R; [done|]|done|].
    - by apply (ct_sync _ _ _ Hl), sync_path_locks.
    - intros [] w es Hw. by exists s, l. }
  eapply triple_then; [by apply any_when, any_join_recv|]. apply any_when, any_send_stop.
Qed.

(** The send thread is started: by the connect thread of path 0. *)
Definition unstarted (g : service_config) (w : world) : Prop :=
  exists l, (R g l false w /\ ctx_ok (w_ctx w)) /\ closable_tcp g l false /\ (HSendThread ∉ l) /\ HSendQueue ∈ l.

Lemma send_start_ok g :
  triple (unstarted g) potr_internal_send_thread_start
    (fun rc w _ => if rc =? POTR_OK then Tcp g true w else Tcp g false w).
Proof.
  intros w (l & [Hw Hx] & Hl & Ht & Hq). destruct (ch_send _ _ _ (ct_conn _ _ _ Hl)) as [Hm _ _].
  destruct (send_thread_start_R g l false ltac:(tauto) Ht w Hw) as (rc & w' & es & Hr & Hs).
  exists rc, w', es. split; [done|]. unfold started in Hs.
  assert (frame settled (settled (w_ctx w)) potr_internal_send_thread_start) as Hf by frames.
  pose proof (Hf _ _ _ _ eq_refl Hr) as Hset. destruct (rc =? POTR_OK).
  - eexists. split; [exact Hs|]. split; [|by eapply ctx_ok_settled].
    destruct Hl as [[Hn Hc Hh _] Hsy Hk Hsq]. split; [split|..]; try done.
    + intros k. rewrite !elem_of_cons. intros [?|[?|Hi]]; [done..|]. destruct (Hc k Hi) as (? & ? & Hj).
      split_and!; [auto..|]. intros j ?%Hj. rewrite !elem_of_cons. auto.
    + intros k. rewrite !elem_of_cons. intros [?|[?|Hi]]; [done..|]. destruct (Hh k Hi). auto.
    + split; rewrite !elem_of_cons; tauto.
    + intros h ?%Hsy. rewrite !elem_of_cons. auto.
    + intros h. rewrite !elem_of_cons. intros [->|[->|?]]; [| |by apply Hk];
        right; right; left; unfold conn_set; rewrite !elem_of_app, !elem_of_cons; tauto.
    + intros _. by apply Hsq.
  - exists l. split; [done|]. split; [done|]. by eapply ctx_ok_settled.
Qed.

(** ** Stopping the threads and releasing the rest *)

(** The result of [close]: the context is gone and with it everything, or a
    thread did not end. *)
Definition close_outcome (res : Z * bool) (w : world) : Prop :=
  res.2 = false /\ released (w_ctx w) \/
  res.2 = true /\ res.1 = POTR_ERR_UNKNOWN /\ join_failed /\ api_context_has_threads (w_ctx w) = true.

Lemma stuck_has_threads g w : stuck g w -> join_failed /\ api_context_has_threads (w_ctx w) = true.
Proof.
  intros (l & s & Hw & Hj & h & Hh & Ht). split; [done|]. rewrite (has_threads_owned _ _ _ _ Hw).
  apply existsb_exists. exists h. split; [by apply list_elem_of_In|done].
Qed.

(** Locks and queue of a TCP service without threads. *)
Definition threadless (g : service_config) (l : list handle) : Prop :=
  forall h, h ∈ l -> base_handle h = true \/ h ∈ tcp_sync_handles \/
    (h = HSendQueue /\ sends g (x_role g) = true).

Lemma threadless_no_threads g l : threadless g l -> existsb is_thread l = false.
Proof.
  intros Hl. apply not_true_iff_false. intros (h & Hh%list_elem_of_In%Hl & Ht)%existsb_exists.
  destruct Hh as [Hb|[Hs|[-> _]]]; [by destruct h| |done].
  apply tcp_sync_not_base in Hs as [_ Hs]. by destruct h.
Qed.

Lemma dispose_tcp_ok g l s (ret : Z) :
  threadless g l ->
  triple (R g l s)
    (when (sends g (x_role g)) close_send_queue;;
     api_context_dispose_tcp_sync;; api_context_dispose_resources;; mret (ret, false))
    (fun res w _ => res = (ret, false) /\ released (w_ctx w)).
Proof.
  intros Hl. eapply (triple_then _ _ _ (fun w => exists l', R g l' s w /\
    forall h, h ∈ l' -> base_handle h = true \/ h ∈ tcp_sync_handles)).
  - apply R_when.
    + intros _. apply (triple_from (R g (without l []) s)); [apply R_without_nil|].
      eapply triple_conseq; [apply R_dispose|done|]. intros [] w es Hw. eexists. split; [exact Hw|].
      intros h [Hh Hn]%elem_of_without. rewrite elem_of_cons in Hn. destruct (Hl h Hh) as [?|[?|[-> _]]]; tauto.
    + intros Hs w Hw. exists l. split; [done|]. intros h Hh.
      destruct (Hl h Hh) as [?|[?|[_ ?]]]; [tauto..|congruence].
  - apply triple_ex. intros l' w [Hw Hl']. revert w Hw.
    apply (triple_then _ _ _ dirty).
    + eapply triple_conseq; [apply dispose_tcp_sync_R|done|]. intros [] w es Hw.
      exists g, (without l' tcp_sync_handles), s. split; [done|]. intros h [Hh Hn]%elem_of_without.
      destruct (Hl' h Hh); tauto.
    + eapply triple_then; [apply dispose_resources_ok|]. apply triple_ret. auto.
Qed.

Lemma close_tcp_end_ok g l s (ret : Z) :
  closable_tcp g l s ->
  triple (R g l s)
    (potr_internal_connect_thread_stop;;
     x ← get_ctx;
     if api_context_has_threads x then mret (POTR_ERR_UNKNOWN, true)
     else
       let g := x_cfg x in
       when (role_eqb (x_role g) POTR_ROLE_SENDER
             || type_eqb (service_type (x_service g)) POTR_TYPE_TCP_BIDIR) close_send_queue;;
       api_context_dispose_tcp_sync;; api_context_dispose_resources;; mret (ret, false))
    (fun res w _ => close_outcome res w /\ (res.2 = false -> res.1 = ret)).
Proof.
  intros Hl. eapply triple_then; [apply connect_thread_stop_R, Hl|]. apply triple_or.
  - apply triple_ex. intros l' w [Hw Hsub]. rewrite get_ctx_bind.
    assert (threadless g l') as Ht.
    { intros h Hh. destruct (Hsub h Hh) as [Hi Hn].
      destruct (ct_known _ _ _ Hl h Hi) as [?|[?|[?| ->]]]; [by left|by right; left|done|].
      right. right. split; [done|]. by apply (ct_queue _ _ _ Hl). }
    rewrite (has_threads_owned _ _ _ _ Hw), (threadless_no_threads _ _ Ht). cbv zeta.
    rewrite (ow_cfg _ _ _ _ Hw).
    destruct (dispose_tcp_ok g l' false ret Ht w Hw) as (res & w' & es & Hr & -> & Hrel).
    exists (ret, false), w', es. split; [exact Hr|]. split; [by left|done].
  - intros w Hst. rewrite get_ctx_bind. destruct (stuck_has_threads _ _ Hst) as [Hj Hth]. rewrite Hth.
    eexists _, _, _. split; [done|]. split; [|done]. by right.
Qed.

Lemma close_tcp_ok g s drain wakeups :
  triple (Tcp_any g) drain (fun _ w _ => Tcp_any g w) ->
  Forall (fun wk => triple (Tcp_any g) wk.1 (fun _ w _ => Tcp_any g w)) wakeups ->
  triple (Tcp g s) (close_tcp drain wakeups) (fun res w _ => close_outcome res w).
Proof.
  intros Hd Hk w Hw. unfold close_tcp. rewrite get_ctx_bind.
  assert (send_thread_running (x_rt (w_ctx w)) = s) as -> by by destruct Hw as (l & [] & _). revert w Hw.
  eapply (triple_seq (if s then close_tcp_handshake drain wakeups else mret POTR_OK) _ _ (fun _ => Tcp_any g)).
  { destruct s; [by apply close_tcp_handshake_ok|apply triple_ret; by exists false]. }
  intros ret w (s' & l & Hw & Hl & _). destruct (close_tcp_end_ok g l s' ret Hl w Hw) as (res & w' & es & Hr & Ho & _).
  exists res, w', es. split; [exact Hr|done].
Qed.
End Tcp.

(** ** UDP *)

(** A UDP service: the health thread has all of its handles or none, the send
    thread its lock and its queue. *)
Record closable_udp (g : service_config) (l : list handle) (s : bool) : Prop := {
  cu_paths : (x_n_path g <= POTR_MAX_PATH)%nat;
  cu_health : forall h, h ∈ health_handles 0 -> (h ∈ l <-> HHealthThread 0 ∈ l);
  cu_send : send_handles l s;
  cu_queue : HSendQueue ∈ l -> HSendThread ∈ l;
  cu_known : forall h, h ∈ l -> base_handle h = true \/ h ∈ HRecvThread 0 :: health_handles 0 ++ send_list
}.

Section Udp.
Context `{CplatByteorder} `{Platform} `{Host}.

Definition Udp (g : service_config) (s : bool) (w : world) : Prop :=
  exists l, R g l s w /\ closable_udp g l s /\ ctx_ok (w_ctx w).

Lemma quiet_need x h : holds x h = true -> quiet x (need h).
Proof. intros Hh. apply quiet_get_ctx_bind. rewrite Hh. apply quiet_ret. Qed.

Lemma quiet_send_fin x : ctx_ok x -> holds x HSendWindowMutex = true -> quiet x send_fin.
Proof.
  intros Hx Hh. apply quiet_get_ctx_bind. cbv zeta. destruct (build_session_fin _ _); [|apply quiet_ret].
  apply quiet_bind; [by apply quiet_need|]. intros _.
  destruct (build_ctrl_pkt_wire_nonce _ _ _) as [wire|]; [|apply quiet_ret].
  pose proof (co_n_path _ (xo_cfg _ Hx)) as Hn. apply quiet_for. intros k Hk.
  apply quiet_bind; [apply quiet_sock_valid; rewrite (xo_sock _ Hx); lia|]. intros v.
  apply quiet_when. intros _. destruct (lookup_lt_is_Some_2 (c_dest_addr (x_conn x)) k) as [d Hd].
  { rewrite (ok_dest _ _ (xo_conn _ Hx)). lia. }
  eapply quiet_lift_bind; [exact Hd|]. apply quiet_bind; [apply quiet_sendto|]. intros _. apply quiet_ret.
Qed.

Lemma quiet_table_send_fin x :
  ctx_ok x -> x_is_multi_peer (x_cfg x) = true -> quiet x potr_internal_peer_table_send_fin.
Proof.
  intros Hx Hm. apply quiet_get_cfg_bind. pose proof (xo_peers _ Hx) as Hp.
  destruct (x_peers x) as [ps|] eqn:Hps; [|congruence]. apply quiet_for. intros i Hi.
  destruct (lookup_lt_is_Some_2 ps i) as [p Hpi]; [destruct Hp; lia|].
  assert (forall t, get_peer i (World x t) = Some (p, World x t, [])) as Hg
    by (intros t; by eapply get_peer_run).
  intros t. rewrite (bind_run_nil _ _ _ _ _ (Hg t)). revert t.
  change (quiet x (when (p_active p) (potr_internal_peer_send_fin i))).
  apply quiet_when. intros Ha. by eapply peer_send_fin_quiet.
Qed.

Lemma closable_after_health g l s :
  closable_udp g l s -> closable_udp g (without l (health_handles 0)) s.
Proof.
  intros [Hn Hh [Hm Hq Hf] Hsq Hk].
  assert (forall h, h ∉ health_handles 0 -> h ∈ without l (health_handles 0) <-> h ∈ l) as Hw.
  { intros h Hne. rewrite elem_of_without. tauto. }
  assert (forall h, h ∈ send_list -> h ∉ health_handles 0) as Hs.
  { intros h Hi. unfold send_list, health_handles in *. rewrite !elem_of_cons, elem_of_nil in *.
    destruct Hi as [->|[->|[->|[]]]]; intuition congruence. }
  split; [done| |split|..].
  - intros h Hi. rewrite !elem_of_without. split; [tauto|]. intros [_ Hx]. exfalso. apply Hx.
    unfold health_handles. handles.
  - rewrite !Hw; [done|apply Hs; unfold send_list; handles..].
  - rewrite !Hw; [done|apply Hs; unfold send_list; handles..].
  - rewrite !Hw; [done|apply Hs; unfold send_list; handles..].
  - rewrite !Hw; [done|apply Hs; unfold send_list; handles..].
  - intros h [Hl _]%elem_of_without. by apply Hk.
Qed.

(** Only the receive thread may still run. *)
Definition receiving (g : service_config) (w : world) : Prop :=
  exists l s, R g l s w /\ (x_n_path g <= POTR_MAX_PATH)%nat /\
    forall h, h ∈ l -> base_handle h = true \/ h = HRecvThread 0.

Lemma close_recv_thread_R g l s :
  (x_n_path g <= POTR_MAX_PATH)%nat ->
  triple (R g l s) close_recv_thread
    (fun (ok : bool) w _ => if ok then R g (without l [HRecvThread 0]) s w else stuck g w).
Proof.
  intros Hn. apply R_get_ctx. intros x Hx. rewrite (holds_owned _ _ _ _ _ Hx). case_bool_decide as Hh.
  - eapply triple_seq; [by apply comm_recv_thread_stop_R|]. intros rc. apply triple_ret. intros w.
    unfold stopped. by destruct (rc =? POTR_OK).
  - apply R_ret. intros w. apply R_equiv. intros h. destruct (decide (h = HRecvThread 0)) as [->|]; handles.
Qed.

Lemma udp_send_fin_ok g l s :
  closable_udp g l s -> HSendThread ∈ l ->
  triple (fun w => R g l s w /\ ctx_ok (w_ctx w))
    (if x_is_multi_peer g then potr_internal_peer_table_send_fin else send_fin)
    (fun _ w _ => R g l s w).
Proof.
  intros Hl Hh [x t] (Hw & Hx). cbn [w_ctx] in Hx.
  assert (quiet x (if x_is_multi_peer g then potr_internal_peer_table_send_fin else send_fin)) as Hq.
  { rewrite <- (ow_cfg _ _ _ _ Hw). destruct (x_is_multi_peer (x_cfg x)) eqn:Hm; cbn [w_ctx]; rewrite Hm.
    - by apply quiet_table_send_fin.
    - apply quiet_send_fin; [done|]. rewrite (holds_owned g l s x _ Hw). apply bool_decide_true.
      by apply (cu_send _ _ _ Hl). }
  destruct (Hq t) as (a & t' & es & Hr). by exists a, (World x t'), es.
Qed.

(** What is left when the send and receive threads have ended. *)
Lemma closing_send_R g l s :
  closable_udp g l s ->
  triple (R g l s)
    (ok ← close_recv_thread;
     if negb ok then mret false
     else
       potr_internal_send_thread_stop;;
       x ← get_ctx;
       if holds x HSendThread then mret false else close_send_queue;; mret true)
    (fun (ok : bool) w _ => if ok then exists l', R g l' false w /\
       forall h, h ∈ l' -> h ∈ l /\ h ∉ HRecvThread 0 :: send_list else stuck g w).
Proof.
  intros [Hn Hh [Hm Hq Hf] Hsq Hk].
  assert (forall h, h <> HRecvThread 0 -> h ∈ without l [HRecvThread 0] <-> h ∈ l) as Hw.
  { intros h Hne. rewrite elem_of_without, list_elem_of_singleton. tauto. }
  eapply triple_seq; [by apply close_recv_thread_R|]. intros [|]; cbn [negb]; [|by apply triple_ret].
  eapply triple_then; [apply send_thread_stop_R; split; rewrite ?Hw by done; done|]. apply triple_or.
  - apply R_get_ctx. intros x Hx. rewrite (holds_owned _ _ _ _ _ Hx), bool_decide_false by handles.
    apply (triple_from (R g (without (without (without l [HRecvThread 0]) [HSendWindowMutex; HSendThread]) []) false));
      [apply R_without_nil|].
    eapply triple_then; [apply R_dispose|]. apply triple_ret. intros w Hw'. eexists. split; [exact Hw'|].
    intros h. unfold send_list. rewrite !elem_of_without, !elem_of_cons, !elem_of_nil. tauto.
  - apply triple_ex. intros l' w (Hl' & Hj & Ht). rewrite get_ctx_bind.
    rewrite (holds_owned _ _ _ _ _ Hl'), bool_decide_true by done. eexists _, _, _. split; [done|].
    by eapply (stuck_intro g l' false HSendThread).
Qed.

(** The health thread is gone. *)
Definition healthless (g : service_config) (s : bool) (w : world) : Prop :=
  exists l, R g l s w /\ closable_udp g l s /\ ctx_ok (w_ctx w) /\ HHealthThread 0 ∉ l.

Lemma healthless_known g l s h :
  closable_udp g l s -> HHealthThread 0 ∉ l -> h ∈ l ->
  base_handle h = true \/ h ∈ HRecvThread 0 :: send_list.
Proof.
  intros Hl Hn Hh. destruct (cu_known _ _ _ Hl h Hh) as [?|Hi]; [by left|].
  rewrite elem_of_cons, elem_of_app in *. destruct Hi as [?|[Hi|?]]; [tauto| |tauto].
  apply (cu_health _ _ _ Hl h Hi) in Hh. done.
Qed.

(** The other threads of a UDP service leave its handles alone. *)
Definition leaves_handles (g : service_config) (m : M unit) : Prop :=
  forall l s, triple (fun w => R g l s w /\ ctx_ok (w_ctx w)) m (fun _ w _ => R g l s w /\ ctx_ok (w_ctx w)).

Lemma not_sending g l s :
  closable_udp g l s -> HHealthThread 0 ∉ l -> HSendThread ∉ l ->
  forall h, h ∈ l -> base_handle h = true \/ h = HRecvThread 0.
Proof.
  intros Hl Hn Hs h Hh. destruct (healthless_known _ _ _ _ Hl Hn Hh) as [?|Hi]; [by left|]. right.
  unfold send_list in Hi. rewrite !elem_of_cons, elem_of_nil in Hi.
  destruct Hi as [?|[->|[->|[->|[]]]]]; [done|done|exfalso..].
  - by apply Hs, (cu_send _ _ _ Hl).
  - by apply Hs, (cu_queue _ _ _ Hl).
Qed.

Lemma close_send_thread_ok g s drain :
  leaves_handles g drain ->
  triple (healthless g s) (close_send_thread drain)
    (fun (ok : bool) w _ => if ok then receiving g w else stuck g w).
Proof.
  intros Hd w (l & Hw & Hl & Hx & Hn). unfold close_send_thread. rewrite get_ctx_bind.
  rewrite (holds_owned _ _ _ _ _ Hw). case_bool_decide as Hs; cbn [negb].
  - assert (holds (w_ctx w) HSendQueue = true) as Hq.
    { rewrite (holds_owned _ _ _ _ _ Hw). apply bool_decide_true. by apply (cu_send _ _ _ Hl). }
    unfold need. rewrite bind_assoc, get_ctx_bind, Hq, ret_bind. generalize (conj Hw Hx). generalize w.
    eapply (triple_then drain); [apply Hd|]. intros w1 Hw1. rewrite get_cfg_bind, (ow_cfg _ _ _ _ (proj1 Hw1)).
    revert w1 Hw1. eapply (triple_then _ _ _ (R g l s)); [by apply udp_send_fin_ok|].
    eapply triple_conseq; [by apply closing_send_R|done|]. intros [|] w1 es; [|done]. intros (l' & Hw' & Hsub).
    exists l', false. split; [done|]. split; [apply Hl|]. intros h [Hh Hnot]%Hsub.
    destruct (healthless_known _ _ _ _ Hl Hn Hh) as [?|?]; [by left|done].
  - eexists _, _, _. split; [done|]. exists l, s. split; [done|]. split; [apply Hl|]. by eapply not_sending.
Qed.

Lemma close_sockets_R g l s :
  (x_n_path g <= POTR_MAX_PATH)%nat -> triple (R g l s) close_sockets (fun _ w _ => R g l s w).
Proof.
  intros Hn. apply R_get_cfg. apply (triple_for_range (fun _ => R g l s)). intros i Hi.
  eapply triple_seq; [apply R_sock_valid; lia|]. intros v. apply R_when; [|done]. intros _.
  eapply (triple_then _ _ _ (R g l s)); [|apply R_set_sock; lia]. apply R_when; [|done]. intros _.
  destruct (fst _); try apply triple_done. eapply triple_seq; [apply R_tick|]. intros b. by apply R_ret.
Qed.

Lemma frame_settled_health v : frame settled v potr_internal_health_thread_stop.
Proof. frames. Qed.

Lemma bind_assoc_ctx {A B} (f : potr_context -> M A) (k : A -> M B) w :
  ((get_ctx ≫= f) ≫= k) w = (get_ctx ≫= (fun x => f x ≫= k)) w.
Proof. apply bind_assoc. Qed.

Lemma close_udp_ok g s drain :
  leaves_handles g drain ->
  triple (Udp g s) (close_udp drain)
    (fun res w _ => close_outcome res w /\ (res.2 = false -> res.1 = POTR_OK)).
Proof.
  intros Hd. assert (triple (stuck g) (mret (POTR_ERR_UNKNOWN, true))
    (fun res w _ => close_outcome res w /\ (res.2 = false -> res.1 = POTR_OK))) as Hst.
  { apply triple_ret. intros w [? ?]%stuck_has_threads. split; [by right|done]. }
  assert (triple (Udp g s)
    (x ← get_ctx; if holds x (HHealthThread 0) then potr_internal_health_thread_stop else mret POTR_OK)
    (fun rc w _ => if rc =? POTR_OK then healthless g s w else stuck g w)) as Hh.
  { intros w (l & Hw & Hl & Hx). rewrite get_ctx_bind, (holds_owned _ _ _ _ _ Hw). case_bool_decide as Hi.
    - destruct (health_thread_stop_R g l s (cu_health _ _ _ Hl) w Hw) as (rc & w' & es & Hr & Hst').
      exists rc, w', es. split; [done|]. unfold stopped in Hst'. destruct (rc =? POTR_OK); [|done].
      exists (without l (health_handles 0)). split; [done|]. split; [by apply closable_after_health|].
      split; [|unfold health_handles; handles].
      eapply ctx_ok_settled; [done| |exact Hst']. eapply frame_settled_health; [reflexivity|exact Hr].
    - eexists _, _, _. split; [done|]. by exists l. }
  intros w Hw. unfold close_udp. rewrite <- bind_assoc_ctx. revert w Hw.
  eapply triple_seq; [exact Hh|]. intros rc. apply triple_checked; [intros _|by intros _].
  apply (triple_from (healthless g s)); [done|]. intros w Hw. rewrite get_ctx_bind, put_ctx_bind.
  assert (healthless g s (World (set_x_last_valid_data_send_ms (set_x_last_ping_send_ms (w_ctx w) 0) 0) (w_tick w))) as Hw'.
  { destruct Hw as (l & [] & Hl & [] & Hn). exists l. split; [by split|]. split; [done|]. split; [by split|done]. }
  revert Hw'. generalize (World (set_x_last_valid_data_send_ms (set_x_last_ping_send_ms (w_ctx w) 0) 0) (w_tick w)).
  eapply triple_seq; [by apply close_send_thread_ok|]. intros [|]; cbn [negb]; [|exact Hst].
  apply triple_ex. intros l. apply triple_ex. intros s' w1 (Hw1 & Hn & Hk). revert w1 Hw1.
  eapply triple_seq; [by apply close_recv_thread_R|]. intros [|]; cbn [negb]; [|exact Hst].
  eapply triple_then; [by apply close_sockets_R|].
  apply (triple_from dirty).
  { intros w1 Hw1. eexists g, _, s'. split; [exact Hw1|]. intros h [Hh' Hne]%elem_of_without.
    rewrite list_elem_of_singleton in Hne. destruct (Hk h Hh'); [done|tauto]. }
  eapply triple_then; [apply dispose_resources_ok|]. apply triple_ret. intros w1 Hw1. split; [by left|done].
Qed.
End Udp.

(** ** Both transports *)

Section Service.
Context `{CplatByteorder} `{Platform} `{Host}.

(** A service of configuration [g] in a state in which [close] may be called. *)
Definition closable (g : service_config) (w : world) : Prop :=
  exists s, if is_tcp g then Tcp g s w else Udp g s w.

(** What other threads may do at the points where [close] waits for them: on
    UDP anything that leaves the handles alone; on TCP, where connect threads
    start and stop others, anything that keeps the locks of the service and the
    order between its handles, whether or not the send thread survives it. *)
Definition bystander (g : service_config) (m : M unit) : Prop :=
  if is_tcp g then triple (Tcp_any g) m (fun _ w _ => Tcp_any g w) else leaves_handles g m.

(** A connect thread that fails to set up its connection undoes its start, and
    stops the send thread under the closing thread. *)
Lemma undo_bystander g k join started :
  is_tcp g = true -> (k < x_n_path g <= POTR_MAX_PATH)%nat -> bystander g (undo_start k join started).
Proof. intros Ht [Hk Hn]. unfold bystander. rewrite Ht. by apply undo_start_ok. Qed.

Lemma idle_bystander g : bystander g (mret tt).
Proof. unfold bystander. destruct (is_tcp g); [apply triple_done|intros l s; apply triple_done]. Qed.

Lemma requested_closable g w :
  closable g w ->
  closable g (World (set_x_tcp_link (w_ctx w) (set_close_requested (x_tcp_link (w_ctx w)) true)) (w_tick w)).
Proof.
  intros [s Hw]. exists s. destruct (is_tcp g); destruct Hw as (l & [] & Hl & []); exists l;
    (split; [by split|]); (split; [done|]); by split.
Qed.

Lemma closable_cfg g w : closable g w -> x_cfg (w_ctx w) = g.
Proof. intros [s Hw]. by destruct (is_tcp g); destruct Hw as (l & [] & _). Qed.

Lemma service_close_ok g drain wakeups :
  bystander g drain -> Forall (fun wk => bystander g wk.1) wakeups ->
  triple (closable g) (potr_service_close drain wakeups)
    (fun res w _ => close_outcome res w /\ (is_tcp g = false -> res.2 = false -> res.1 = POTR_OK)).
Proof.
  intros Hd Hk w Hw. unfold potr_service_close. rewrite get_ctx_bind, put_ctx_bind, (closable_cfg g w Hw).
  apply requested_closable in Hw. revert Hw. fold (is_tcp g). unfold closable, bystander in *.
  destruct (is_tcp g) eqn:Ht; intros [s Hw]; revert Hw.
  - intros Hw. destruct (close_tcp_ok g s drain wakeups Hd Hk _ Hw) as (res & w' & es & Hr & Ho).
    by exists res, w', es.
  - intros Hw. destruct (close_udp_ok g s drain Hd _ Hw) as (res & w' & es & Hr & Ho & Hz).
    by exists res, w', es.
Qed.
End Service.

(** C13. Closing gives everything back.  The service may be in any state with
    the invariant [closable], which opening establishes; at the two points where
    [close] waits, for the queue to drain and for the peer's acknowledgement,
    the other threads may take any step that keeps it ([bystander]), a connect
    thread that undoes its start and stops the send thread included.  Then
    [potr_service_close] returns; it disposes of no lock, thread or queue that
    does not exist and of none twice, and waits on none that does not exist; and
    either every lock, thread, buffer, socket, window and peer is released and
    the key erased, or a thread could not be joined, the result is an error and
    the context is kept with that thread.  What other threads do between two
    waits is outside, and so is the lock of the send window, which [close] takes
    without looking whether it is still there (the witness shows a null lock). *)
Theorem close_releases_everything `{CplatByteorder} `{Platform} `{Host} g drain wakeups w :
  closable g w -> bystander g drain -> Forall (fun wk => bystander g wk.1) wakeups ->
  exists rc live w' es, potr_service_close drain wakeups w = Some ((rc, live), w', es) /\
    (live = false -> released (w_ctx w')) /\
    (live = true -> rc = POTR_ERR_UNKNOWN /\ join_failed /\ api_context_has_threads (w_ctx w') = true).
Proof.
  intros Hw Hd Hk. destruct (service_close_ok g drain wakeups Hd Hk w Hw) as ([rc live] & w' & es & Hr & Ho & _).
  exists rc, live, w', es. split; [done|]. destruct Ho as [[Hl Hx]|(Hl & Hrest)]; cbn in *; subst live; by split.
Qed.

(** ** A service that was just opened can be closed *)

Section OpenClose.
Context `{CplatByteorder} `{Platform} `{Host}.

Lemma opened_owns c t role callback x :
  opened c t role callback x ->
  owns (x_cfg x) (service_handles (x_cfg x)) (negb (is_tcp_type t) && udp_sends (x_cfg x) role) x.
Proof. intros [[]]. by split. Qed.

Lemma tcp_handles_closable g :
  (x_n_path g <= POTR_MAX_PATH)%nat -> is_tcp g = true -> closable_tcp g (service_handles g) false.
Proof.
  intros Hn Ht. unfold service_handles. rewrite Ht. cbn [andb].
  set (bufs := open_bufs g (role_eqb (x_role g) POTR_ROLE_RECEIVER) (x_n_path g)).
  assert (based bufs) as Hb by by apply open_bufs_based.
  unfold tcp_handles. rewrite <- !app_assoc. split.
  - apply starting_conn_handles; [done|by apply locks_idle|apply locks_state].
  - intros h Hh. rewrite !elem_of_app. tauto.
  - intros h. rewrite !elem_of_app. intros [Hh|[Hh|[Hh|[Hh|Hh]]]].
    + right. right. left. unfold conn_set. rewrite !elem_of_app. auto.
    + right. right. left. unfold conn_set. rewrite !elem_of_app, !elem_of_cons.
      apply accept_handles_class in Hh as [->|(k & Hk & ->)]; [tauto|]. do 5 right.
      apply list_elem_of_fmap. exists k. split; [done|]. apply elem_of_seq. lia.
    + do 3 right. destruct (sends _ _); [|by apply elem_of_nil in Hh]. by apply list_elem_of_singleton in Hh.
    + auto.
    + left. by apply Hb.
  - rewrite !elem_of_app. intros [Hh|[Hh|[Hh|[Hh|Hh]]]].
    + by apply elem_of_upto in Hh as (k & _ & ?%list_elem_of_singleton).
    + by apply accept_handles_class in Hh as [?|(k & _ & ?)].
    + destruct (sends _ _); [done|]. by apply elem_of_nil in Hh.
    + by apply (bool_decide_eq_true_2 _) in Hh.
    + by apply (based_absent bufs HSendQueue) in Hh.
Qed.

Lemma udp_handles_closable g :
  (x_n_path g <= POTR_MAX_PATH)%nat -> is_tcp g = false ->
  closable_udp g (service_handles g) (udp_sends g (x_role g)).
Proof.
  intros Hn Ht. unfold service_handles. rewrite Ht. cbn [andb].
  set (bufs := open_bufs g false (x_n_path g)).
  assert (forall h, h ∈ HRecvThread 0 :: health_handles 0 ++ send_list -> h ∉ bufs) as Hb.
  { intros h. apply based_udp. by apply open_bufs_based. }
  assert (forall L h, h ∈ HRecvThread 0 :: health_handles 0 ++ send_list ->
    (h ∈ L ++ bufs <-> bool_decide (h ∈ L) = true)) as Hm.
  { intros L h Hh. rewrite elem_of_app, bool_decide_eq_true. specialize (Hb h Hh). tauto. }
  assert (forall h, sublistb [h] (HRecvThread 0 :: health_handles 0 ++ send_list) = true ->
    h ∈ HRecvThread 0 :: health_handles 0 ++ send_list) as Hu.
  { intros h Hh. eapply sublistb_spec; [exact Hh|]. handles. }
  unfold udp_handles, health_list. destruct (udp_sends g (x_role g)), (x_health_interval_ms g =? 0).
  all: split; [done| |split|..]; rewrite ?Hm by (by apply Hu); try (by vm_compute).
  all: try (intros h Hh; rewrite !Hm by (by apply Hu) || (rewrite elem_of_cons, elem_of_app; tauto);
    unfold health_handles in Hh; rewrite !elem_of_cons, elem_of_nil in Hh;
    destruct Hh as [->|[->|[->|[]]]]; by vm_compute).
  all: intros h [Hh|Hh]%elem_of_app; [right|left; by apply (open_bufs_based g false (x_n_path g))].
  all: revert Hh; by apply sublistb_spec.
Qed.

Lemma opened_closable c t role callback x tick :
  opened c t role callback x -> closable (x_cfg x) (World x tick).
Proof.
  intros Hx. pose proof (opened_owns _ _ _ _ _ Hx) as Ho. destruct Hx as [Hok Hg Ht Hr Hcb Hn Hs Hp Hh Hsend].
  rewrite <- Ht in Ho. rewrite <- Hr in Ho. fold (is_tcp (x_cfg x)) in Ho.
  unfold closable. destruct (is_tcp (x_cfg x)) eqn:Htcp; eexists; (eexists; split; [exact Ho|]; split; [|done]).
  - apply tcp_handles_closable; [lia|done].
  - apply udp_handles_closable; [lia|done].
Qed.

(** Opening a TCP service does not start its send thread: the first connection
    does. *)
Lemma opened_unstarted c t role callback x tick :
  opened c t role callback x -> is_tcp (x_cfg x) = true -> sends (x_cfg x) (x_role (x_cfg x)) = true ->
  unstarted (x_cfg x) (World x tick).
Proof.
  intros Hx Htcp Hs. pose proof (opened_owns _ _ _ _ _ Hx) as Ho. destruct Hx as [Hok Hg Ht _ _ Hn _ _ _ _].
  rewrite <- Ht in Ho. fold (is_tcp (x_cfg x)) in Ho. rewrite Htcp in Ho. exists (service_handles (x_cfg x)).
  split; [done|]. split; [apply tcp_handles_closable; [lia|done]|].
  unfold service_handles, tcp_handles. rewrite Htcp, Hs. cbn [andb]. rewrite !elem_of_app. split.
  - intros [[Hh|[Hh|[Hh|Hh]]]|Hh].
    + by apply elem_of_upto in Hh as (k & _ & ?%list_elem_of_singleton).
    + by apply accept_handles_class in Hh as [?|(k & _ & ?)].
    + by apply list_elem_of_singleton in Hh.
    + by apply tcp_sync_not_base in Hh as [_ ?].
    + revert Hh. apply based_absent; [apply open_bufs_based; lia|done].
  - left. right. right. left. by apply list_elem_of_singleton.
Qed.
End OpenClose.

(** A service that has been opened can be closed: after a successful
    [potr_service_open] of any type and role, [potr_service_close] does not
    fault, provided that the other threads keep the invariant at the points
    where it waits for them, frees the context and
    releases everything unless a thread cannot be joined. *)
Corollary opened_service_closes `{CplatByteorder} `{Platform} `{Host} c t role callback x tick drain wakeups :
  opened c t role callback x -> bystander (x_cfg x) drain ->
  Forall (fun wk => bystander (x_cfg x) wk.1) wakeups -> ~ join_failed ->
  exists rc w' es, potr_service_close drain wakeups (World x tick) = Some ((rc, false), w', es) /\
    released (w_ctx w').
Proof.
  intros Hx Hd Hk Hj.
  destruct (service_close_ok _ drain wakeups Hd Hk _ (opened_closable _ _ _ _ x tick Hx))
    as ([rc live] & w' & es & Hr & [[Hl Hrel]|(_ & _ & Hf & _)] & _); [|done].
  cbn in Hl. subst live. eauto.
Qed.
