(* ===== verification/Lifecycle.v ===== *)
(** The life of a service: opened, fed with arbitrary datagrams, closed.  The
    theorems of [Opened.v], [RecvThread.v] and [Closed.v] put together, and
    what [close] can and cannot rely on. *)

From stdpp Require Import base list numbers option.
From Stdlib Require Import ZArith Lia ZifyBool.
From S2P Require Import Prelude Types Packet Window SendQueue Context PathEvent Validate PeerTable.
From S2P Require Import RecvSlot Fin HealthThread RecvThread Threads Frame Connect OpenPaths Open Resources.
From S2P Require Import OpenThreads OpenState Opened Close Closed.
Local Open Scope Z_scope.
Local Open Scope porter_scope.

Section Lifecycle.
Context `{CplatByteorder} `{Platform} `{!PlatformLaws} `{Host}.

(** Handlers that keep the invariant and the core are bystanders. *)
Lemma owns_core g l s x x' : core x' = core x -> owns g l s x -> owns g l s x'.
Proof.
  intros Hc []. injection Hc as Hcfg Hsock Hfd Hh Hlink Hrt. split; rewrite ?Hcfg, ?Hsock, ?Hfd, ?Hh, ?Hrt; done.
Qed.

Lemma handlers_leave_handles g m :
  keeps (fine g) m -> (forall v, frame core v m) -> leaves_handles g m.
Proof.
  intros Hk Hf l s w [Hw Hx]. destruct (Hk w) as ([] & w' & es & Hr & Hx' & _).
  { split; [done|]. apply Hw. }
  exists tt, w', es. split; [done|]. split; [|done]. unfold R in *.
  eapply owns_core; [|exact Hw]. exact (Hf _ _ _ _ _ eq_refl Hr).
Qed.

Lemma frame_recv_run v turns : frame core v (recv_thread_run turns).
Proof.
  induction turns as [|t ts IH]; [apply frame_ret|]. cbn [recv_thread_run].
  apply frame_bind; [apply frame_recv_turn|done].
Qed.

Lemma recv_run_leaves_handles g turns :
  cfg_ok g -> is_tcp g = false -> Forall (inputs_ok g) turns -> leaves_handles g (recv_thread_run turns).
Proof.
  intros Hg Ht Hi. apply handlers_leave_handles; [by apply recv_thread_run_ok|].
  intros v. apply frame_recv_run.
Qed.

Lemma leaves_closable g m :
  is_tcp g = false -> leaves_handles g m -> triple (closable g) m (fun _ w _ => closable g w).
Proof.
  intros Ht Hm w [s Hw]. rewrite Ht in Hw. destruct Hw as (l & Hw & Hl & Hx).
  destruct (Hm l s w (conj Hw Hx)) as ([] & w' & es & Hr & Hw' & Hx').
  exists tt, w', es. split; [done|]. exists s. rewrite Ht. by exists l.
Qed.

(** The receive thread takes [turns], then the service is closed, the thread
    still taking [draining] while [close] waits for the send queue; a service
    without a send thread has no queue to drain, and [close] does not wait. *)
Definition serve_and_close (turns draining : list (list path_input)) : M (Z * bool) :=
  recv_thread_run turns;; potr_service_close (recv_thread_run draining) [].
End Lifecycle.

(** C11. The whole life of a UDP service is safe: opened successfully with any
    settings, fed with arbitrary bytes from arbitrary senders on its paths in
    any number of turns, and closed (where the service has a send thread, while
    its receive thread handles more of them until the send queue is drained),
    the service accesses no buffer out of range and disposes of no handle that
    does not exist; [potr_service_close] returns [POTR_OK] and every lock,
    thread, buffer, socket, window and peer is released, provided that its
    threads can be joined.  Locking is not part of the claim: a FIN that the
    single connection of a UDP service accepts takes [recv_window_mutex], which
    only TCP creates, and is recorded as [EvNullLock]. *)
Theorem udp_service_lifecycle `{CplatByteorder} `{Platform} `{!PlatformLaws} `{!ErrorLaws} `{Host}
    c svc role callback w w1 live es1 turns draining :
  0 <= reorder_timeout_ms c < 4294967296 -> is_tcp_type (service_type svc) = false -> ~ join_failed ->
  potr_service_open (Some c) (Some svc) role callback true w = Some ((POTR_OK, live), w1, es1) ->
  Forall (inputs_ok (x_cfg (w_ctx w1))) turns -> Forall (inputs_ok (x_cfg (w_ctx w1))) draining ->
  exists w2 es2, serve_and_close turns draining w1 = Some ((POTR_OK, false), w2, es2) /\
    released (w_ctx w2).
Proof.
  intros Hr Ht Hj Ho Hi Hdr.
  destruct (service_open_outcome c svc role callback w Hr) as (rc & live' & w' & es' & Hrun & Hout).
  rewrite Ho in Hrun. injection Hrun as <- <- <- <-. destruct Hout as [_ Hop].
  assert (is_tcp (x_cfg (w_ctx w1)) = false) as Htcp by (unfold is_tcp; by rewrite (od_type _ _ _ _ _ Hop)).
  pose proof (xo_cfg _ (od_ok _ _ _ _ _ Hop)) as Hg.
  assert (closable (x_cfg (w_ctx w1)) w1) as Hc by (destruct w1; by eapply opened_closable).
  destruct (leaves_closable _ _ Htcp (recv_run_leaves_handles _ turns Hg Htcp Hi) w1 Hc)
    as ([] & w2 & es2 & Hr2 & Hc2).
  assert (bystander (x_cfg (w_ctx w1)) (recv_thread_run draining)) as Hby
    by (unfold bystander; rewrite Htcp; by apply recv_run_leaves_handles).
  destruct (service_close_ok _ _ [] Hby (Forall_nil _) w2 Hc2)
    as ([rc live2] & w3 & es3 & Hr3 & [[Hl Hrel]|(_ & _ & Hf & _)] & Hz); [|done].
  cbn in Hl, Hz. subst live2. rewrite (Hz Htcp eq_refl) in Hr3. exists w3. eexists. split; [|done].
  unfold serve_and_close. rewrite (bind_run _ _ _ _ _ _ Hr2), Hr3. reflexivity.
Qed.

(** ** Examples *)

#[local] Abbreviation udp_open :=
  (@potr_service_open little_host toy_platform toy_host (Some example_global)
     (Some (open_service POTR_TYPE_UNICAST_BIDIR)) POTR_ROLE_RECEIVER true true
     (World (example_ctx POTR_TYPE_TCP false) 0)).

(** A service with a send thread. *)
Lemma udp_open_run : exists w es, udp_open = Some ((POTR_OK, true), w, es) /\
  x_n_path (x_cfg (w_ctx w)) = 1%nat /\ max_payload_cfg (x_global (x_cfg (w_ctx w))) = 64 /\
  holds (w_ctx w) HSendThread = true.
Proof.
  destruct udp_open as [[[[rc live] w] es]|] eqn:Hr; [|by vm_compute in Hr].
  exists w, es. vm_compute in Hr. by injection Hr as <- <- <- _.
Qed.

Lemma example_turns_ok g :
  x_n_path g = 1%nat -> 64 <= max_payload_cfg (x_global g) -> Forall (inputs_ok g) example_turns.
Proof.
  intros Hn Hm. apply Forall_cons_2; [|apply Forall_cons_2; [|apply Forall_cons_2; [|apply Forall_nil_2]]];
    (split; [rewrite Hn; cbn; lia|]); (apply Forall_cons_2; [|apply Forall_nil_2]); cbn [input_ok];
    try exact I; (split; [apply forallb_is_byte; reflexivity | cbn; lia]).
Qed.

Lemma toy_joins : ~ @join_failed toy_host.
Proof. by intros [n ?]. Qed.

Lemma udp_service_lifecycle_witness :
  exists w1 es1 w2 es2, udp_open = Some ((POTR_OK, true), w1, es1) /\
    holds (w_ctx w1) HSendThread = true /\
    @serve_and_close little_host toy_platform toy_host example_turns example_turns w1
      = Some ((POTR_OK, false), w2, es2) /\
    released (w_ctx w2).
Proof.
  destruct udp_open_run as (w1 & es1 & Hr & Hn & Hm & Hs).
  assert (Forall (inputs_ok (x_cfg (w_ctx w1))) example_turns) as Hi
    by (apply example_turns_ok; [exact Hn|rewrite Hm; lia]).
  destruct (@udp_service_lifecycle little_host toy_platform toy_laws toy_errors toy_host example_global
    (open_service POTR_TYPE_UNICAST_BIDIR) POTR_ROLE_RECEIVER true (World (example_ctx POTR_TYPE_TCP false) 0)
    w1 true es1 example_turns example_turns)
    as (w2 & es2 & H2 & H3); [cbn; lia|reflexivity|exact toy_joins|exact Hr|exact Hi|exact Hi|].
  exists w1, es1, w2, es2. split; [exact Hr|]. split; [exact Hs|]. split; [exact H2|exact H3].
Defined.

(** A two-way TCP service whose send thread has been started. *)
#[local] Abbreviation tcp_open :=
  (@potr_service_open little_host toy_platform toy_host (Some example_global)
     (Some (open_service POTR_TYPE_TCP_BIDIR)) POTR_ROLE_RECEIVER true true
     (World (example_ctx POTR_TYPE_TCP_BIDIR false) 0)).

#[local] Abbreviation start := (@potr_internal_send_thread_start toy_host).

Lemma tcp_opened : exists w es, tcp_open = Some ((POTR_OK, true), w, es) /\
  @opened little_host example_global POTR_TYPE_TCP_BIDIR POTR_ROLE_RECEIVER true (w_ctx w) /\
  is_tcp (x_cfg (w_ctx w)) = true /\ sends (x_cfg (w_ctx w)) (x_role (x_cfg (w_ctx w))) = true /\
  x_n_path (x_cfg (w_ctx w)) = 1%nat.
Proof.
  destruct (@service_open_outcome little_host toy_platform toy_host toy_errors example_global
    (open_service POTR_TYPE_TCP_BIDIR) POTR_ROLE_RECEIVER true (World (example_ctx POTR_TYPE_TCP_BIDIR false) 0))
    as (rc & live & w & es & Hr & Ho); [cbn; lia|].
  assert (rc = POTR_OK /\ x_n_path (x_cfg (w_ctx w)) = 1%nat) as [-> Hn].
  { vm_compute in Hr. by injection Hr as <- _ <- _. }
  destruct Ho as [-> Ho]. exists w, es. split; [exact Hr|]. split; [exact Ho|].
  clear Hr. destruct Ho as [_ _ Ht Hrole _ _ _ _ _ _]. unfold is_tcp, sends. rewrite Ht, Hrole.
  split; [reflexivity|]. split; [reflexivity|exact Hn].
Qed.

(** The send thread runs, and the connect thread that started it undoes the
    start while [close] drains the queue: everything is released, but the lock
    of the send window is taken after it is gone. *)
Example close_during_undo :
  (match tcp_open with
   | Some (_, w, _) =>
       match start w with
       | Some (_, w, _) => option_map (fun r => (r.1.1, r.2))
           (@potr_service_close little_host toy_platform toy_host
              (@undo_start toy_host 0 true true) [] w)
       | None => None
       end
   | None => None
   end) = Some ((POTR_OK, false), [EvNullLock HSendWindowMutex]).
Proof. vm_compute. reflexivity. Qed.

Lemma started_service : exists w0 w es rc es', tcp_open = Some ((POTR_OK, true), w0, es) /\
  start w0 = Some (rc, w, es') /\
  x_n_path (x_cfg (w_ctx w0)) = 1%nat /\ is_tcp (x_cfg (w_ctx w0)) = true /\
  @Tcp little_host (x_cfg (w_ctx w0)) (rc =? POTR_OK) w.
Proof.
  destruct tcp_opened as ([x t] & es & Hr & Ho & Ht & Hs & Hn).
  destruct (@send_start_ok little_host toy_host (x_cfg x) (World x t)) as (rc & w & es' & Hst & Hw).
  { exact (opened_unstarted _ _ _ _ x t Ho Ht Hs). }
  exists (World x t), w, es, rc, es'. split; [exact Hr|]. split; [exact Hst|]. split; [exact Hn|].
  split; [exact Ht|]. revert Hw. by destruct (rc =? POTR_OK).
Qed.

Lemma close_releases_everything_witness :
  exists w rc w' es,
    @potr_service_close little_host toy_platform toy_host (@undo_start toy_host 0 true true) [] w
      = Some ((rc, false), w', es) /\
    released (w_ctx w') /\ es = [EvNullLock HSendWindowMutex].
Proof.
  destruct started_service as (w0 & w & es0 & rc0 & es1 & Ho & Hst & Hn & Ht & Hw).
  destruct (@close_releases_everything little_host toy_platform toy_host (x_cfg (w_ctx w0))
    (@undo_start toy_host 0 true true) [] w) as (rc & live & w' & es & Hr & Hf & Hl);
    [unfold closable; rewrite Ht; exists (rc0 =? POTR_OK); exact Hw
    |apply undo_bystander; [exact Ht|rewrite Hn; split; [apply le_n|apply path_0]] | apply Forall_nil_2 |].
  pose proof close_during_undo as He. rewrite Ho in He. cbv beta iota in He. rewrite Hst in He.
  cbv beta iota in He. rewrite Hr in He. cbn [option_map fst snd] in He. injection He as -> -> ->.
  exists w, POTR_OK, w', [EvNullLock HSendWindowMutex]. split; [exact Hr|]. split; [exact (Hf eq_refl)|reflexivity].
Defined.
