(* ===== verification/Waits.v ===== *)
(** How long the TCP side waits, and what it waits for: the FIN_ACK of a
    closing service, the completion of a connect, and two threads that stop the
    same health thread. *)

From stdpp Require Import base list numbers option.
From Stdlib Require Import ZArith Lia ZifyBool.
From S2P Require Import Prelude Types Packet Window SendQueue Context PathEvent Validate PeerTable.
From S2P Require Import RecvSlot Fin HealthThread Threads Frame Connect OpenPaths Open Resources Close.
Local Open Scope Z_scope.
Local Open Scope porter_scope.

(** ** Waiting for the FIN_ACK *)

(** The FIN_ACK packets the receive threads handle during one wait. *)
Fixpoint receive_acks (acks : list Z) : M unit :=
  match acks with [] => mret tt | a :: acks => thread_recv_fin_on_ack a;; receive_acks acks end.

Definition ack_wakeup (wk : list Z * cplat_result) : M unit * cplat_result := (receive_acks wk.1, wk.2).

(** What closing reports: success when the FIN_ACK of the target arrives
    before a wait fails or times out, a time-out otherwise. *)
Fixpoint ack_outcome (target : Z) (wakeups : list (list Z * cplat_result)) : Z :=
  match wakeups with
  | [] => POTR_ERR_TIMEOUT
  | (acks, r) :: wakeups =>
      let acked := bool_decide (target ∈ acks) in
      match r with
      | CPLAT_OK => if acked then POTR_OK else ack_outcome target wakeups
      | CPLAT_ERR_TIMEOUT => POTR_ERR_TIMEOUT
      | _ => if acked then POTR_ERR_UNKNOWN else POTR_ERR_TIMEOUT
      end
  end.

(** Success means that the FIN_ACK arrived. *)
Lemma ack_outcome_ok target wakeups :
  ack_outcome target wakeups = POTR_OK <->
  exists before acks after, wakeups = before ++ (acks, CPLAT_OK) :: after /\ target ∈ acks /\
    Forall (fun wk => wk.2 = CPLAT_OK) before.
Proof.
  split.
  - induction wakeups as [|[acks r] wakeups IH]; [done|]. cbn [ack_outcome]. cbv zeta.
    case_bool_decide as Ha; destruct r; try done.
    + intros _. by exists [], acks, wakeups.
    + intros (before & acks' & after & -> & Hin & Hall)%IH.
      exists ((acks, CPLAT_OK) :: before), acks', after. split; [done|]. split; [done|]. by apply Forall_cons.
  - intros (before & acks & after & -> & Hin & Hall).
    induction Hall as [|[acks' r] before Hr Hall IH]; cbn [ack_outcome app]; cbv zeta.
    + by rewrite bool_decide_eq_true_2.
    + cbn in Hr. subst r. by case_bool_decide.
Qed.

Section CloseWait.
Context `{CplatByteorder} `{Platform} `{Host}.

Lemma receive_acks_run target acks : forall x t received seq,
  x_tcp_close x = TcpCloseState true received target seq ->
  exists seq' es, receive_acks acks (World x t) =
    Some (tt, World (set_x_tcp_close x
      (TcpCloseState true (received || bool_decide (target ∈ acks)) target seq')) t, es).
Proof.
  induction acks as [|a acks IH]; intros x t received seq Hx; cbn [receive_acks].
  - exists seq, []. rewrite bool_decide_eq_false_2 by apply not_elem_of_nil. rewrite orb_false_r.
    destruct x; cbn in *; by subst.
  - unfold thread_recv_fin_on_ack. rewrite bind_assoc, get_ctx_bind. cbn [w_ctx]. rewrite Hx. cbn -[elem_of].
    destruct (Z.eqb_spec target a) as [<-|Hne].
    + destruct received; cbn -[elem_of].
      * destruct (IH x t true seq Hx) as (seq' & es & Hr). exists seq', es. unfold when. by rewrite ret_bind, Hr.
      * destruct (IH (set_x_tcp_close x (TcpCloseState true true target target)) t true target) as (seq' & es & Hr);
          [by destruct x|].
        exists seq', ([EvTcpCloseSignal] ++ es). unfold when. rewrite bind_assoc, put_ctx_bind. cbn [w_tick].
        erewrite bind_run by reflexivity. rewrite Hr. cbn -[elem_of].
        rewrite bool_decide_eq_true_2 by left. by destruct x.
    + rewrite andb_false_l. unfold when. rewrite ret_bind. destruct (IH x t received seq Hx) as (seq' & es & Hr).
      exists seq', es. rewrite Hr. rewrite (bool_decide_ext (target ∈ a :: acks) (target ∈ acks)); [done|].
      rewrite elem_of_cons. split; [by intros [?|?]|by right].
Qed.

(** The loop, from a state that waits: its result corrected as the caller
    does, and the context apart from the state of the wait. *)
Lemma close_wait_loop_run target wakeups : forall x t received seq,
  x_tcp_close x = TcpCloseState true received target seq -> holds x HTcpCloseCv = true ->
  exists rc st es, close_wait_loop (map ack_wakeup wakeups) (World x t) =
    Some (rc, World (set_x_tcp_close x st) t, es) /\
    (if close_pending st then POTR_ERR_TIMEOUT else rc) =
    (if received then POTR_OK else ack_outcome target wakeups).
Proof.
  induction wakeups as [|[acks r] wakeups IH]; intros x t received seq Hx Hcv.
  - exists (if received then POTR_OK else POTR_ERR_TIMEOUT), (x_tcp_close x), [].
    cbn [close_wait_loop map]. rewrite get_ctx_bind. cbn [w_ctx]. rewrite Hx.
    destruct received; cbn -[holds]; [by destruct x; cbn in *; subst|].
    unfold need. rewrite bind_assoc, get_ctx_bind. cbn [w_ctx]. rewrite Hcv, ret_bind.
    destruct x; cbn in *; by subst.
  - cbn [close_wait_loop map ack_wakeup fst snd]. rewrite get_ctx_bind. cbn [w_ctx]. rewrite Hx.
    destruct received; cbn -[holds ack_outcome].
    { exists POTR_OK, (x_tcp_close x), []. rewrite Hx. by destruct x; cbn in *; subst. }
    unfold need. rewrite bind_assoc, get_ctx_bind. cbn [w_ctx]. rewrite Hcv, ret_bind.
    destruct (receive_acks_run target acks x t false seq Hx) as (seq' & es & Hr).
    rewrite (bind_run _ _ _ _ _ _ Hr). cbn [orb].
    set (acked := bool_decide (target ∈ acks)) in *.
    destruct r; cbn -[holds ack_outcome].
    1: { destruct (IH (set_x_tcp_close x (TcpCloseState true acked target seq')) t acked seq')
           as (rc & st & es2 & Hr2 & Hrc); [by destruct x|by destruct x|].
         exists rc, st, (es ++ es2). rewrite Hr2. split; [by destruct x|].
         rewrite Hrc. cbn [ack_outcome]. fold acked. by destruct acked. }
    all: eexists _, (TcpCloseState true acked target seq'), _; (split; [reflexivity|]);
      unfold close_pending; cbn [ack_outcome tcp_close_waiting_ack tcp_close_ack_received]; fold acked;
      by destruct acked.
Qed.
End CloseWait.

(** C23. A closing TCP service reports success exactly when its FIN was
    acknowledged.  With a time-out configured, for every sequence of wake-ups,
    each with any FIN_ACK packets handled meanwhile, waiting ends and returns
    [ack_outcome]: [POTR_OK] if and only if a FIN_ACK for the target sequence
    number arrives before a wait fails or times out (FIN_ACKs for other numbers
    do not count), and the state of the wait is cleared for the next close;
    nothing else of the context changes. *)
Theorem close_waits_for_ack `{CplatByteorder} `{Platform} `{Host} target timeout_ms wakeups x t :
  timeout_ms <> 0 -> holds x HTcpCloseMutex = true -> holds x HTcpCloseCv = true ->
  exists es, (begin_tcp_close_wait target;;
      wait_for_tcp_close_ack timeout_ms (map ack_wakeup wakeups)) (World x t) =
    Some (ack_outcome target wakeups,
          World (set_x_tcp_close x (TcpCloseState false false 0 0)) t, es) /\
    (ack_outcome target wakeups = POTR_OK <->
     exists before acks after, wakeups = before ++ (acks, CPLAT_OK) :: after /\ target ∈ acks /\
       Forall (fun wk => wk.2 = CPLAT_OK) before).
Proof.
  intros Ht Hm Hcv. set (x1 := set_x_tcp_close x (TcpCloseState true false target 0)).
  assert (holds x1 HTcpCloseMutex = true) as Hm1 by (by destruct x).
  destruct (close_wait_loop_run target wakeups x1 t false 0) as (rc & st & es & Hr & Hrc);
    [by destruct x|by destruct x|].
  exists es. split; [|apply ack_outcome_ok].
  unfold begin_tcp_close_wait, need, set_tcp_close. rewrite !bind_assoc, get_ctx_bind. cbn [w_ctx].
  rewrite Hm, ret_bind, bind_assoc, get_ctx_bind, put_ctx_bind. cbn [w_ctx w_tick]. fold x1.
  unfold wait_for_tcp_close_ack, need, set_tcp_close. destruct (Z.eqb_spec timeout_ms 0); [done|].
  rewrite bind_assoc, get_ctx_bind. cbn [w_ctx]. rewrite Hm1, ret_bind, (bind_run _ _ _ _ _ _ Hr), get_ctx_bind.
  cbv zeta. rewrite bind_assoc, get_ctx_bind, put_ctx_bind. cbn [w_ctx w_tick mret M_ret].
  replace (x_tcp_close (set_x_tcp_close x1 st)) with st by (by destruct x). rewrite Hrc, app_nil_r.
  unfold x1. by destruct x.
Qed.

(** A context with its locks, and a FIN_ACK that comes third. *)
Definition waiting_ctx : potr_context :=
  let x := example_ctx POTR_TYPE_TCP false in
  set_x_rt x (set_handles (x_rt x) [HTcpCloseMutex; HTcpCloseCv]).

Lemma close_waits_for_ack_witness :
  exists x' t' es, (@begin_tcp_close_wait 7;;
      @wait_for_tcp_close_ack 500 (map (@ack_wakeup) [([5], CPLAT_OK); ([6; 7], CPLAT_OK)]))
      (World waiting_ctx 0) = Some (POTR_OK, World x' t', es).
Proof.
  destruct (@close_waits_for_ack little_host toy_platform toy_host 7 500 [([5], CPLAT_OK); ([6; 7], CPLAT_OK)]
    waiting_ctx 0) as (es & Hr & _); [discriminate|reflexivity|reflexivity|].
  eexists _, _, es. exact Hr.
Defined.

(** ** Waiting for a connection *)

(** From turn [i] on, the socket becomes writable in time, and every turn
    before that finds the thread running and the socket not yet writable. *)
Definition becomes_writable (poll : nat -> bool * option bool) (timeout_ms : Z) (i : nat) : Prop :=
  exists j, (i <= j)%nat /\ 100 * Z.of_nat j < timeout_ms /\ poll j = (true, Some true) /\
    forall k, (i <= k < j)%nat -> poll k = (true, Some false).

Lemma becomes_writable_step poll timeout_ms i :
  100 * Z.of_nat i < timeout_ms ->
  becomes_writable poll timeout_ms i <->
  poll i = (true, Some true) \/ (poll i = (true, Some false) /\ becomes_writable poll timeout_ms (S i)).
Proof.
  intros Hi. split.
  - intros (j & Hij & Hj & Hp & Hk). destruct (decide (i = j)) as [->|]; [by left|right].
    split; [apply Hk; lia|]. exists j. repeat split; try done; [lia|]. intros k ?. apply Hk. lia.
  - intros [Hp|(Hp & j & Hij & Hj & Hpj & Hk)]; [exists i|exists j].
    + repeat split; try done. intros k ?. lia.
    + repeat split; try done; [lia|]. intros k ?. destruct (decide (i = k)) as [<-|]; [done|]. apply Hk. lia.
Qed.

(** One turn of the loop. *)
Lemma connect_poll_loop_S fuel i poll timeout_ms elapsed_ms :
  connect_poll_loop (S fuel) i poll timeout_ms elapsed_ms =
  if negb ((elapsed_ms <? timeout_ms) && (poll i).1) then Some false
  else match (poll i).2 with
       | None => Some false
       | Some true => Some true
       | Some false => connect_poll_loop fuel (S i) poll timeout_ms
           (elapsed_ms ⊕ (if 100 <? timeout_ms ⊖ elapsed_ms then 100 else timeout_ms ⊖ elapsed_ms))
       end.
Proof. done. Qed.

(** After [i] polls of at most 100 ms the counter stands at [100 * i] or at the
    time-out. *)
Lemma connect_poll_loop_run poll timeout_ms : 0 <= timeout_ms < 4294967296 -> forall fuel i,
  timeout_ms <= 100 * (Z.of_nat i + Z.of_nat fuel) ->
  exists b, connect_poll_loop (S fuel) i poll timeout_ms (Z.min (100 * Z.of_nat i) timeout_ms) = Some b /\
    (b = true <-> becomes_writable poll timeout_ms i).
Proof.
  intros Ht fuel. induction fuel as [|fuel IH]; intros i Hf;
    (destruct (Z.ltb_spec (Z.min (100 * Z.of_nat i) timeout_ms) timeout_ms) as [Hlt|Hge];
     [|exists false; rewrite connect_poll_loop_S, (proj2 (Z.ltb_ge _ _) Hge);
       split; [done|]; split; [done|]; intros (j & ? & ? & _); lia]); [lia|].
  pose proof (becomes_writable_step poll timeout_ms i ltac:(lia)) as Hw. rewrite connect_poll_loop_S, (proj2 (Z.ltb_lt _ _) Hlt).
  destruct (poll i) as [[] [[]|]] eqn:Hp; cbn [fst snd andb negb];
    try (eexists; split; [reflexivity|]; rewrite Hw, ?Hp; split; [by first [left|intros ?]|by intros [?|[? _]]]).
  rewrite (u32_small (timeout_ms - Z.min (100 * Z.of_nat i) timeout_ms)) by lia.
  replace (Z.min (100 * Z.of_nat i) timeout_ms ⊕
    (if 100 <? timeout_ms - Z.min (100 * Z.of_nat i) timeout_ms then 100
     else timeout_ms - Z.min (100 * Z.of_nat i) timeout_ms))
    with (Z.min (100 * Z.of_nat (S i)) timeout_ms)
    by (destruct (Z.ltb_spec 100 (timeout_ms - Z.min (100 * Z.of_nat i) timeout_ms)); rewrite u32_small; lia).
  destruct (IH (S i)) as (b & Hr & Hb); [lia|]. exists b. split; [exact Hr|]. rewrite Hb, Hw, ?Hp.
  split; [auto|]. by intros [|[_ ?]].
Qed.

(** C24. A connection attempt with a time-out always ends: for every behaviour
    of the socket and of the running flag, the polling loop of
    [thread_connect_with_timeout] ends within one turn per started 100 ms of
    the time-out (its 32-bit counter of elapsed milliseconds never wraps), and
    it reports a connection exactly when the socket becomes writable in time,
    while no earlier turn failed or found the thread stopped. *)
Theorem connect_wait_ends poll timeout_ms fuel :
  0 <= timeout_ms < 4294967296 -> (timeout_ms + 99) / 100 < Z.of_nat fuel ->
  exists b, connect_poll_loop fuel 0 poll timeout_ms 0 = Some b /\
    (b = true <-> becomes_writable poll timeout_ms 0).
Proof.
  intros Ht Hf. destruct fuel as [|fuel]; [pose proof (Z.div_pos (timeout_ms + 99) 100); lia|].
  destruct (connect_poll_loop_run poll timeout_ms Ht fuel 0) as (b & Hr & Hb).
  { pose proof (Z.mul_succ_div_gt (timeout_ms + 99) 100). lia. }
  exists b. split; [|done]. rewrite <- Hr. f_equal. lia.
Qed.

(** The fuel the model gives the loop is enough. *)
Lemma connect_wait_ends_witness :
  connect_poll_loop (S (Z.to_nat 250)) 0 (fun i => (true, Some (i =? 2)%nat)) 250 0 = Some true /\
  exists b, connect_poll_loop 4 0 (fun _ => (true, Some false)) 250 0 = Some b /\ b <> true.
Proof.
  split.
  - destruct (connect_wait_ends (fun i => (true, Some (i =? 2)%nat)) 250 (S (Z.to_nat 250)))
      as (b & Hr & Hb); [lia|reflexivity|]. rewrite Hr. f_equal. apply Hb.
    exists 2%nat. repeat split; try lia. intros [|[|k]] ?; [reflexivity..|lia].
  - destruct (connect_wait_ends (fun _ => (true, Some false)) 250 4) as (b & Hr & Hb); [lia|reflexivity|].
    exists b. split; [exact Hr|]. intros Ht. apply Hb in Ht as (j & _ & _ & Hj & _). discriminate Hj.
Defined.

(** The whole of [thread_connect_with_timeout] returns, with a connected socket
    in the caller's hands or with every socket it opened closed again. *)
Lemma connect_with_timeout_R `{CplatByteorder} `{Platform} `{Host} g l s k poll :
  is_Some (x_dst_addr_resolved g !! k) -> 0 <= connect_timeout_ms (x_service g) < 4294967296 -> HLocalSock k ∉ l ->
  triple (R g l s) (thread_connect_with_timeout k poll)
    (fun (ok : bool) w _ => R g (if ok then HLocalSock k :: l else l) s w).
Proof.
  intros [d Hd] Ht Hl. apply R_get_cfg. cbv zeta.
  set (Q := fun (ok : bool) w (_ : list effect) => R g (if ok then HLocalSock k :: l else l) s w).
  eapply triple_seq; [apply (R_create g l s _ Hl)|]. intros [|]; cbn [negb]; [|by apply R_ret].
  assert (triple (R g (HLocalSock k :: l) s) (close_local k;; mret false) Q) as Hfail.
  { eapply triple_seq; [apply R_release; handles|]. intros []. apply R_ret. intros w. by apply R_back. }
  assert (triple (R g (HLocalSock k :: l) s) (mret true) Q) as Hok by by apply R_ret.
  eapply triple_seq; [|intros bound].
  { destruct (negb _ || negb _); [apply R_tick|by apply (R_ret _ _ _ true (fun _ => R g (HLocalSock k :: l) s))]. }
  destruct bound; cbn [negb]; [|exact Hfail].
  intros w Hw. rewrite (lift_bind _ _ _ _ Hd). revert w Hw. eapply triple_seq; [apply R_tick|]. intros r.
  destruct (_ =? 0); [by destruct (cplat_ok r)|]. destruct r; try done.
  destruct (connect_poll_loop_run poll _ Ht (Z.to_nat (connect_timeout_ms (x_service g))) 0) as (b & Hr & _); [lia|].
  rewrite Z.min_l in Hr by lia. intros w Hw. rewrite (lift_bind _ _ _ _ Hr). revert w Hw.
  destruct b; cbn [negb]; [|exact Hfail]. eapply triple_seq; [apply R_tick|]. by intros [|].
Qed.

(** ** Two threads that stop the same health thread *)

Section HealthStop.
Context `{CplatByteorder} `{Platform} `{Host}.

(** What [potr_internal_tcp_health_thread_stop] does once it has found the
    handle of the health thread. *)
Definition health_stop_rest (path_idx : nat) : M Z :=
  signal_health_stop path_idx;;
  ok ← join_thread (HHealthThread path_idx);
  if negb ok then mret POTR_ERR_UNKNOWN else mret POTR_OK.

Lemma health_stop_split k w :
  (k < POTR_MAX_PATH)%nat -> holds (w_ctx w) (HHealthThread k) = true ->
  potr_internal_tcp_health_thread_stop k w = health_stop_rest k w.
Proof.
  intros Hk Hh. unfold potr_internal_tcp_health_thread_stop. rewrite (proj2 (Nat.leb_gt _ _)) by lia.
  rewrite get_ctx_bind, Hh. done.
Qed.

(** Without the handle, the rest of the function faults. *)
Lemma health_stop_rest_faults k w :
  holds (w_ctx w) (HHealthThread k) = false -> health_stop_rest k w = None.
Proof.
  intros Hh. destruct (health_stop_rest k w) as [[[rc w'] es]|] eqn:Hr; [|done]. exfalso.
  apply bind_inv in Hr as ([] & w1 & e1 & e2 & Hs & Hj & _).
  assert (frame (fun x => holds x (HHealthThread k)) false (signal_health_stop k)) as Hf by frames.
  specialize (Hf _ _ _ _ Hh Hs). apply bind_inv in Hj as (ok & w2 & e3 & e4 & Hj & _).
  unfold join_thread, need in Hj. by rewrite bind_assoc, get_ctx_bind, Hf in Hj.
Qed.
End HealthStop.

(** Stopping a TCP health thread is not safe against another thread that
    stops it.  [potr_internal_tcp_health_thread_stop] tests the handle and then
    joins it without holding a lock.  Once a thread has found the handle, a
    complete stop by another thread (the connect thread of a path that loses
    its connection while [potr_service_close] runs) joins and clears it, and
    the rest of the first call joins a thread handle that no longer exists. *)
Theorem health_stop_race `{CplatByteorder} `{Platform} `{Host} g l s k w :
  (k < POTR_MAX_PATH)%nat -> R g l s w -> HHealthThread k ∈ l -> HHealthMutex k ∈ l -> HHealthWakeup k ∈ l ->
  (forall n, thread_join_ok n = true) ->
  potr_internal_tcp_health_thread_stop k w = health_stop_rest k w /\
  exists w' es, potr_internal_tcp_health_thread_stop k w = Some (POTR_OK, w', es) /\
    health_stop_rest k w' = None.
Proof.
  intros Hk Hw Ht Hm Hu Hj. split; [apply health_stop_split; [done|]; by apply bool_decide_eq_true, (ow_holds _ _ _ _ Hw)|].
  destruct (tcp_health_thread_stop_at g l s k Hk ltac:(by split) w Hw) as (rc & w' & es & Hr & Hst).
  unfold stopped_at in Hst. destruct (Z.eqb_spec rc POTR_OK) as [->|].
  - exists w', es. split; [done|]. apply health_stop_rest_faults, bool_decide_eq_false.
    rewrite (ow_holds _ _ _ _ Hst). handles.
  - destruct Hst as (_ & [m Hf] & _). by rewrite Hj in Hf.
Qed.

(** The health thread of path 0 with its locks. *)
Definition health_ctx : potr_context :=
  let x := example_ctx POTR_TYPE_TCP false in
  set_x_rt x (set_handles (x_rt x) [HHealthThread 0; HHealthMutex 0; HHealthWakeup 0]).

Lemma health_ctx_owns : owns (x_cfg health_ctx) [HHealthThread 0; HHealthMutex 0; HHealthWakeup 0] true health_ctx.
Proof. by split. Qed.

Lemma health_stop_race_witness :
  exists w' es, @potr_internal_tcp_health_thread_stop toy_host 0 (World health_ctx 0) = Some (POTR_OK, w', es) /\
    @health_stop_rest toy_host 0 w' = None.
Proof.
  destruct (@health_stop_race little_host toy_platform toy_host (x_cfg health_ctx)
    [HHealthThread 0; HHealthMutex 0; HHealthWakeup 0] true 0 (World health_ctx 0)) as [_ Hr];
    [unfold POTR_MAX_PATH; lia | exact health_ctx_owns | left | right; left | right; right; left | reflexivity |].
  exact Hr.
Defined.
