(* ===== verification/HealthSleep.v ===== *)
(** The sleep of a health thread and the calls that wake or stop it:
    [health_sleep], the loops of [health_thread_func] and
    [tcp_health_thread_func], [signal_health_thread] and the stop functions of
    [potr_health_thread.c].  The threads are interleaved between their atomic
    actions: loads and stores of the flags, lock, unlock, wait and signal. *)

From stdpp Require Import base list numbers option.
From Stdlib Require Import Lia.
From S2P Require Import Prelude.

(** ** States *)

(** Positions in [health_sleep]. *)
Inductive sleep_pc := SExchange | SLock | SCheck | SWait | SRelock | SUnlock.

(** Positions in the loop of the thread: the test of the loop, the test of
    [wait_oneway_udp_ping_due], the sleep, the test behind it, and the PING
    round, which copies the path states and then sends them. *)
Inductive health_pc := PTest | PDue | PSleep (s : sleep_pc) | PRecheck | PRound | PSend | PExit.

(** A receive thread changes a path state and calls [signal_health_thread];
    another thread stops the health thread. *)
Inductive call :=
  | WChange | WTest | WLock | WSignal | WUnlock | WDone
  | TStore | TLock | TSignal | TUnlock | TJoin | TDone.

(** Who acts: the health thread, the clock that ends a wait, caller [i]. *)
Inductive actor := Health | Clock | Caller (i : nat).

#[export] Instance sleep_pc_eq_dec : EqDecision sleep_pc.
Proof. solve_decision. Defined.
#[export] Instance health_pc_eq_dec : EqDecision health_pc.
Proof. solve_decision. Defined.
#[export] Instance call_eq_dec : EqDecision call.
Proof. solve_decision. Defined.
#[export] Instance actor_eq_dec : EqDecision actor.
Proof. solve_decision. Defined.

(** [health_running], [health_send_immediate], the holder of [health_mutex],
    the position of the thread, a count of the changes of the path states, the
    count at the last round, and the calls. *)
Record hstate := HState {
  h_running : bool;
  h_immediate : bool;
  h_mutex : option actor;
  h_pc : health_pc;
  h_version : nat;
  h_sent : nat;
  h_calls : list call
}.

Definition set_pc (st : hstate) (p : health_pc) : hstate :=
  HState (h_running st) (h_immediate st) (h_mutex st) p (h_version st) (h_sent st) (h_calls st).
Definition set_mutex (st : hstate) (m : option actor) : hstate :=
  HState (h_running st) (h_immediate st) m (h_pc st) (h_version st) (h_sent st) (h_calls st).

(** Take the mutex when it is free. *)
Definition acquire (a : actor) (st : hstate) : option hstate :=
  match h_mutex st with None => Some (set_mutex st (Some a)) | Some _ => None end.

(** ** Actions *)

(** [health_sleep]; [back] is where it returns to.  [cplat_condvar_wait]
    releases the mutex, waits, and takes it again. *)
Definition health_sleep (back : health_pc) (s : sleep_pc) (st : hstate) : option hstate :=
  match s with
  | SExchange =>
      let st' := HState (h_running st) false (h_mutex st) (h_pc st) (h_version st) (h_sent st) (h_calls st) in
      Some (set_pc st' (if h_immediate st then back else PSleep SLock))
  | SLock => st ← acquire Health st; Some (set_pc st (PSleep SCheck))
  | SCheck => Some (if h_running st then set_pc (set_mutex st None) (PSleep SWait) else set_pc st (PSleep SUnlock))
  | SWait => None
  | SRelock => st ← acquire Health st; Some (set_pc st (PSleep SUnlock))
  | SUnlock => Some (set_pc (set_mutex st None) back)
  end.

(** The health thread of a one-way UDP service ([oneway]) or of another one;
    [due] is the decision of [wait_oneway_udp_ping_due]. *)
Definition health_thread_func (oneway due : bool) (st : hstate) : option hstate :=
  match h_pc st with
  | PTest => Some (set_pc st (if h_running st then if oneway then PDue else PSleep SExchange else PExit))
  | PDue => Some (set_pc st (if h_running st then if due then PRecheck else PSleep SExchange else PExit))
  | PSleep s => health_sleep (if oneway then PDue else PRecheck) s st
  | PRecheck => Some (set_pc st (if h_running st then PRound else PExit))
  | PRound => Some (HState (h_running st) (h_immediate st) (h_mutex st) PSend (h_version st) (h_version st) (h_calls st))
  | PSend => Some (set_pc st PTest)
  | PExit => None
  end.

(** [cplat_condvar_signal]: a thread that waits is woken, otherwise nothing
    is remembered. *)
Definition condvar_signal (st : hstate) : hstate :=
  match h_pc st with PSleep SWait => set_pc st (PSleep SRelock) | _ => st end.

Definition set_call (st : hstate) (i : nat) (c : call) : hstate :=
  HState (h_running st) (h_immediate st) (h_mutex st) (h_pc st) (h_version st) (h_sent st) (<[i:=c]> (h_calls st)).

(** A change of the path states followed by [signal_health_thread]. *)
Definition wake_call (i : nat) (c : call) (st : hstate) : option hstate :=
  match c with
  | WChange => Some (set_call (HState (h_running st) (h_immediate st) (h_mutex st) (h_pc st) (S (h_version st))
                                 (h_sent st) (h_calls st)) i WTest)
  | WTest => Some (set_call st i (if h_running st then WLock else WDone))
  | WLock => st ← acquire (Caller i) st; Some (set_call st i WSignal)
  | WSignal => Some (set_call (if h_running st then condvar_signal st else st) i WUnlock)
  | WUnlock => Some (set_call (set_mutex st None) i WDone)
  | _ => None
  end.

(** [potr_internal_health_thread_stop]. *)
Definition stop_call (i : nat) (c : call) (st : hstate) : option hstate :=
  match c with
  | TStore => Some (set_call (HState false (h_immediate st) (h_mutex st) (h_pc st) (h_version st) (h_sent st)
                                (h_calls st)) i TLock)
  | TLock => st ← acquire (Caller i) st; Some (set_call st i TSignal)
  | TSignal => Some (set_call (condvar_signal st) i TUnlock)
  | TUnlock => Some (set_call (set_mutex st None) i TJoin)
  | TJoin => if decide (h_pc st = PExit) then Some (set_call st i TDone) else None
  | _ => None
  end.

(** One action. *)
Inductive act (oneway : bool) : actor -> hstate -> hstate -> Prop :=
  | act_health due st st' : health_thread_func oneway due st = Some st' -> act oneway Health st st'
  | act_clock st : h_pc st = PSleep SWait -> act oneway Clock st (set_pc st (PSleep SRelock))
  | act_wake i c st st' : h_calls st !! i = Some c -> wake_call i c st = Some st' -> act oneway (Caller i) st st'
  | act_stop i c st st' : h_calls st !! i = Some c -> stop_call i c st = Some st' -> act oneway (Caller i) st st'.

Inductive run (oneway : bool) : list actor -> hstate -> hstate -> Prop :=
  | run_nil st : run oneway [] st st
  | run_cons a l st st1 st2 : act oneway a st st1 -> run oneway l st1 st2 -> run oneway (a :: l) st st2.

(** A thread that has just been started, and the calls that are made. *)
Definition started (immediate : bool) (calls : list call) : hstate :=
  HState true immediate None PTest 0 0 calls.

Definition is_start (c : call) : bool := match c with WChange | TStore => true | _ => false end.

(** ** The invariant *)

Definition holds (c : call) : bool := match c with WSignal | WUnlock | TSignal | TUnlock => true | _ => false end.
Definition stored (c : call) : bool := match c with TLock | TSignal | TUnlock | TJoin | TDone => true | _ => false end.
Definition signalled (c : call) : bool := match c with TUnlock | TJoin | TDone => true | _ => false end.
Definition holding (p : health_pc) : bool :=
  match p with PSleep SCheck | PSleep SUnlock => true | _ => false end.

Record inv (st : hstate) : Prop := {
  i_clock : h_mutex st <> Some Clock;
  i_health : h_mutex st = Some Health <-> holding (h_pc st) = true;
  i_caller : forall i, h_mutex st = Some (Caller i) <-> exists c, h_calls st !! i = Some c /\ holds c = true;
  i_stored : forall i c, h_calls st !! i = Some c -> stored c = true -> h_running st = false;
  i_signalled : forall i c, h_calls st !! i = Some c -> signalled c = true -> h_pc st <> PSleep SWait
}.

Lemma stored_signalled c : signalled c = true -> stored c = true.
Proof. by destruct c. Qed.

Lemma inv_started immediate calls : Forall (fun c => is_start c = true) calls -> inv (started immediate calls).
Proof.
  intros Hc. assert (forall i c, calls !! i = Some c -> is_start c = true) as Hs.
  { intros i c Hi. by apply (Forall_lookup_1 _ _ _ _ Hc Hi). }
  split; cbn; [done|done|..].
  - intros i. split; [done|]. intros (c & Hi & Hh). apply Hs in Hi. by destruct c.
  - intros i c Hi Hst. apply Hs in Hi. by destruct c.
  - intros i c Hi Hst. apply Hs in Hi. by destruct c.
Qed.

(** The health thread leaves the calls and [health_running] alone. *)
Lemma health_frame oneway due st st' :
  health_thread_func oneway due st = Some st' -> h_calls st' = h_calls st /\ h_running st' = h_running st.
Proof.
  unfold health_thread_func, health_sleep, acquire. destruct (h_pc st) as [| |[]| | | |];
    try (destruct (h_mutex st); cbn [mbind option_bind]); intros [= <-]; try done;
    destruct (h_running st) eqn:Hrun; cbn; by rewrite ?Hrun.
Qed.

(** It enters the wait only while it has not been stopped. *)
Lemma health_waits oneway due st st' :
  health_thread_func oneway due st = Some st' -> h_pc st' = PSleep SWait -> h_running st = true.
Proof.
  unfold health_thread_func, health_sleep, acquire.
  destruct (h_pc st) as [| |[]| | | |]; try (destruct (h_mutex st); cbn [mbind option_bind]); try done;
    intros [= <-]; cbn; try done; destruct (h_running st), oneway, due; try done; by destruct (h_immediate st).
Qed.

(** It takes and releases the mutex only as it should. *)
Lemma health_mutex oneway due st st' :
  health_thread_func oneway due st = Some st' ->
  (h_mutex st = Some Health <-> holding (h_pc st) = true) ->
  (h_mutex st' = Some Health <-> holding (h_pc st') = true) /\
  (forall i, h_mutex st' = Some (Caller i) <-> h_mutex st = Some (Caller i)) /\
  (h_mutex st' = Some Clock -> h_mutex st = Some Clock).
Proof.
  intros Hr Hi. unfold health_thread_func, health_sleep, acquire in Hr.
  destruct (h_pc st) as [| |[]| | | |] eqn:Hp; cbn [holding] in Hi;
    try (destruct (h_mutex st) as [a|] eqn:Hm; cbn [mbind option_bind] in Hr; try done);
    injection Hr as <-; cbn [set_pc set_mutex h_mutex h_pc holding];
    try (destruct (h_running st), oneway, due); try destruct (h_immediate st);
    cbn [set_pc set_mutex h_mutex h_pc holding]; rewrite ?Hm;
    try (pose proof (proj2 Hi eq_refl)); (split; [|split; [intros j|]]); intuition congruence.
Qed.

(** A caller moves from [c] to [c']: it keeps the mutex as it is, takes it, or
    releases it. *)
Lemma inv_call i c c' st st' :
  inv st -> h_calls st !! i = Some c -> h_calls st' = <[i:=c']> (h_calls st) ->
  (h_pc st' = h_pc st \/ (h_pc st = PSleep SWait /\ h_pc st' = PSleep SRelock)) ->
  (h_running st = false -> h_running st' = false) -> (stored c' = true -> h_running st' = false) ->
  (signalled c' = true -> h_pc st' <> PSleep SWait) ->
  ((h_mutex st' = h_mutex st /\ holds c' = holds c) \/
   (h_mutex st = None /\ h_mutex st' = Some (Caller i) /\ holds c' = true) \/
   (h_mutex st' = None /\ holds c = true /\ holds c' = false)) -> inv st'.
Proof.
  intros [Hk Hh Hc Hs Hg] Hi Hcalls Hpc Hrun Hst Hsig Hm.
  assert (holding (h_pc st') = holding (h_pc st)) as Hhold by (destruct Hpc as [->|[-> ->]]; done).
  assert (forall j d, h_calls st' !! j = Some d -> (j = i /\ d = c') \/ (j <> i /\ h_calls st !! j = Some d)) as Hl.
  { intros j d Hj. rewrite Hcalls in Hj. apply list_lookup_insert_Some in Hj as [(-> & -> & _)|[? ?]]; auto. }
  assert (h_calls st' !! i = Some c') as Hi' by (rewrite Hcalls; apply list_lookup_insert_eq; by eapply lookup_lt_Some).
  assert (forall j, j <> i -> h_calls st' !! j = h_calls st !! j) as Hne.
  { intros j Hj. rewrite Hcalls. by apply list_lookup_insert_ne. }
  split.
  - destruct Hm as [[-> _]|[(_ & -> & _)|(-> & _)]]; done.
  - rewrite Hhold. destruct Hm as [[-> _]|[(Hm & -> & _)|(-> & Hci & _)]]; [done|..].
    + rewrite <- Hh, Hm. done.
    + rewrite <- Hh, (proj2 (Hc i)) by eauto. done.
  - intros j. destruct (decide (j = i)) as [->|Hj].
    + destruct Hm as [[-> Heq]|[(Hm & -> & Ht)|(-> & _ & Hf)]].
      * rewrite Hc. split; intros (d & Hd & Hhd); [exists c'; split; [done|congruence]|exists c; split; congruence].
      * split; [by exists c'|done].
      * split; [done|]. intros (d & Hd & Hhd). congruence.
    + rewrite (Hne j Hj), <- Hc. destruct Hm as [[-> _]|[(-> & -> & _)|(-> & Hci & _)]]; [done|..].
      * split; congruence.
      * rewrite (proj2 (Hc i)) by eauto. split; congruence.
  - intros j d Hj Hd. destruct (Hl j d Hj) as [[-> ->]|[_ Hj']]; [by apply Hst|]. apply Hrun. by apply (Hs j d).
  - intros j d Hj Hd. destruct (Hl j d Hj) as [[-> ->]|[_ Hj']]; [by apply Hsig|].
    destruct Hpc as [->|[_ ->]]; [by apply (Hg j d)|done].
Qed.

Lemma signal_calls st : h_calls (condvar_signal st) = h_calls st.
Proof. unfold condvar_signal. by destruct (h_pc st) as [| |[]| | | |]. Qed.
Lemma signal_running st : h_running (condvar_signal st) = h_running st.
Proof. unfold condvar_signal. by destruct (h_pc st) as [| |[]| | | |]. Qed.
Lemma signal_mutex st : h_mutex (condvar_signal st) = h_mutex st.
Proof. unfold condvar_signal. by destruct (h_pc st) as [| |[]| | | |]. Qed.

Lemma signal_pc st :
  (h_pc (condvar_signal st) = h_pc st \/ (h_pc st = PSleep SWait /\ h_pc (condvar_signal st) = PSleep SRelock)) /\
  h_pc (condvar_signal st) <> PSleep SWait.
Proof.
  unfold condvar_signal. destruct (h_pc st) as [| |[]| | | |] eqn:Hp; cbn; rewrite ?Hp; (split; [|done]); auto.
Qed.

(** The cases of [inv_call] for one action of caller [i] of [st]. *)
Ltac call_step st i c c' :=
  apply (inv_call i c c' st); cbn; rewrite ?signal_calls, ?signal_mutex, ?signal_running;
  lazymatch goal with
  | |- inv _ => assumption
  | |- _ \/ _ => first [left; reflexivity | left; split; reflexivity | assumption
      | right; left; split_and!; (reflexivity || assumption) | right; right; split_and!; reflexivity]
  | |- _ => first [assumption | reflexivity | intros; congruence | intros; assumption]
  end.

Lemma inv_wake i c st st' :
  inv st -> h_calls st !! i = Some c -> wake_call i c st = Some st' -> inv st'.
Proof.
  intros Hinv Hi Hr. pose proof (signal_pc st) as (Hp & _).
  destruct c; cbn [wake_call] in Hr; try done.
  - injection Hr as <-. call_step st i WChange WTest.
  - injection Hr as <-. destruct (h_running st) eqn:Hrun.
    + call_step st i WTest WLock.
    + call_step st i WTest WDone.
  - unfold acquire in Hr. destruct (h_mutex st) eqn:Hm; [done|]. injection Hr as <-.
    call_step st i WLock WSignal.
  - injection Hr as <-. destruct (h_running st) eqn:Hrun; call_step st i WSignal WUnlock.
  - injection Hr as <-. call_step st i WUnlock WDone.
Qed.

Lemma inv_stop i c st st' :
  inv st -> h_calls st !! i = Some c -> stop_call i c st = Some st' -> inv st'.
Proof.
  intros Hinv Hi Hr. pose proof (signal_pc st) as (Hp & Hnw). pose proof (i_stored _ Hinv i c Hi) as Hs.
  pose proof (i_signalled _ Hinv i c Hi) as Hg. destruct c; cbn [stop_call stored signalled] in *; try done.
  - injection Hr as <-. call_step st i TStore TLock.
  - unfold acquire in Hr. destruct (h_mutex st) eqn:Hm; [done|]. injection Hr as <-.
    call_step st i TLock TSignal.
  - injection Hr as <-. call_step st i TSignal TUnlock.
  - injection Hr as <-. call_step st i TUnlock TJoin.
  - destruct (decide (h_pc st = PExit)); [|done]. injection Hr as <-.
    call_step st i TJoin TDone.
Qed.

Lemma inv_act oneway a st st' : inv st -> act oneway a st st' -> inv st'.
Proof.
  intros Hinv Ha. destruct Ha as [due s1 s2 Hr|s1 Hw|i c s1 s2 Hi Hr|i c s1 s2 Hi Hr];
    [| |exact (inv_wake i c _ _ Hinv Hi Hr)|exact (inv_stop i c _ _ Hinv Hi Hr)].
  - destruct Hinv as [Hk Hh Hc Hs Hg]. destruct (health_frame _ _ _ _ Hr) as [Hcalls Hrun].
    destruct (health_mutex _ _ _ _ Hr Hh) as (Hh' & Hc' & Hk').
    split; [by intros ?%Hk'|done|..]; rewrite ?Hcalls, ?Hrun; try done.
    + intros i. rewrite Hc'. apply Hc.
    + intros i c Hi Hsg Hw. apply (health_waits _ _ _ _ Hr) in Hw.
      rewrite (Hs i c Hi (stored_signalled c Hsg)) in Hw. done.
  - destruct Hinv as [Hk Hh Hc Hs Hg]. rewrite Hw in Hh. split; try done.
Qed.

Lemma inv_run oneway l st st' : inv st -> run oneway l st st' -> inv st'.
Proof. intros Hinv Hr. induction Hr as [|a l st st1 st2 Ha _ IH]; [done|]. by apply IH; eapply inv_act. Qed.

(** ** A stop is never lost *)

(** A stop has been signalled. *)
Definition stopping (st : hstate) : Prop := exists i c, h_calls st !! i = Some c /\ signalled c = true.

(** The actions the thread has left once it has been stopped. *)
Definition steps_left (p : health_pc) : nat :=
  match p with
  | PExit => 0
  | PTest | PDue | PRecheck => 1
  | PSend | PSleep SUnlock => 2
  | PRound | PSleep SRelock | PSleep SCheck => 3
  | PSleep SLock => 4
  | PSleep SExchange => 5
  | PSleep SWait => 6
  end.

Lemma steps_left_bound p : p <> PSleep SWait -> (steps_left p <= 5)%nat.
Proof. destruct p as [| |[]| | | |]; cbn; intros; (lia || done). Qed.

Lemma health_steps oneway due st st' :
  health_thread_func oneway due st = Some st' -> h_running st = false ->
  (steps_left (h_pc st') < steps_left (h_pc st))%nat.
Proof.
  unfold health_thread_func, health_sleep, acquire. intros Hr Hrun. rewrite Hrun in Hr.
  destruct (h_pc st) as [| |[]| | | |]; try (destruct (h_mutex st); cbn [mbind option_bind] in Hr);
    try done; injection Hr as <-; destruct oneway; try destruct (h_immediate st); cbn; lia.
Qed.

Lemma stopping_inv st : inv st -> stopping st -> h_running st = false /\ h_pc st <> PSleep SWait.
Proof.
  intros Hinv (i & c & Hi & Hs). split; [by apply (i_stored _ Hinv i c Hi), stored_signalled|].
  by apply (i_signalled _ Hinv i c).
Qed.

Lemma stopping_call i c c' st st' :
  stopping st -> h_calls st !! i = Some c -> h_calls st' = <[i:=c']> (h_calls st) ->
  (signalled c = true -> signalled c' = true) -> stopping st'.
Proof.
  intros (j & d & Hj & Hd) Hi Hc Hs. destruct (decide (j = i)) as [->|Hne].
  - exists i, c'. rewrite Hc. split; [apply list_lookup_insert_eq; by eapply lookup_lt_Some|].
    apply Hs. congruence.
  - exists j, d. rewrite Hc. by rewrite list_lookup_insert_ne.
Qed.

Lemma signal_awake st : h_pc st <> PSleep SWait -> h_pc (condvar_signal st) = h_pc st.
Proof. intros Hp. unfold condvar_signal. destruct (h_pc st) as [| |[]| | | |] eqn:He; rewrite ?He; done. Qed.

(** The calls do not touch a thread that is not waiting. *)
Lemma call_awake i c st st' :
  h_pc st <> PSleep SWait -> wake_call i c st = Some st' \/ stop_call i c st = Some st' ->
  h_pc st' = h_pc st /\ exists c', h_calls st' = <[i:=c']> (h_calls st) /\ (signalled c = true -> signalled c' = true).
Proof.
  intros Hp Hr. pose proof (signal_awake st Hp) as Ha.
  destruct Hr as [Hr|Hr]; destruct c; cbn [wake_call stop_call] in Hr; try done; unfold acquire in Hr;
    try (destruct (h_mutex st); cbn [mbind option_bind] in Hr; [done|]);
    try (destruct (decide (h_pc st = PExit)); [|done]);
    injection Hr as <-; cbn; try destruct (h_running st); rewrite ?Ha, ?signal_calls; eauto.
Qed.

Lemma stopping_act oneway a st st' :
  inv st -> stopping st -> act oneway a st st' ->
  stopping st' /\ (steps_left (h_pc st') + (if decide (a = Health) then 1 else 0) <= steps_left (h_pc st))%nat.
Proof.
  intros Hinv Hst Ha. destruct (stopping_inv st Hinv Hst) as [Hrun Hp].
  destruct Ha as [due s1 s2 Hr|s1 Hw|i c s1 s2 Hi Hr|i c s1 s2 Hi Hr]; [|done|..].
  - rewrite decide_True by done. pose proof (health_steps _ _ _ _ Hr Hrun). split; [|lia].
    destruct Hst as (i & c & Hi & Hs). exists i, c. by rewrite (proj1 (health_frame _ _ _ _ Hr)).
  - rewrite decide_False by done. destruct (call_awake i c s1 s2 Hp (or_introl Hr)) as (-> & c' & Hc & Hs).
    split; [by eapply stopping_call|lia].
  - rewrite decide_False by done. destruct (call_awake i c s1 s2 Hp (or_intror Hr)) as (-> & c' & Hc & Hs).
    split; [by eapply stopping_call|lia].
Qed.

(** Someone can act: the thread, or the holder of the mutex it waits for. *)
Lemma stopping_progress oneway st :
  inv st -> stopping st ->
  h_pc st = PExit \/ exists a st', act oneway a st st' /\ (a = Health \/ h_mutex st = Some a).
Proof.
  intros Hinv Hst. destruct (stopping_inv st Hinv Hst) as [Hrun Hp].
  destruct (health_thread_func oneway true st) as [st'|] eqn:Hr.
  { right. exists Health, st'. split; [by eapply act_health|by left]. }
  destruct (h_mutex st) as [[| |i]|] eqn:Hm.
  - pose proof (proj1 (i_health _ Hinv) Hm) as Hh. unfold health_thread_func, health_sleep in Hr.
    by destruct (h_pc st) as [| |[]| | | |].
  - by destruct (i_clock _ Hinv).
  - right. destruct (proj1 (i_caller _ Hinv i) Hm) as (c & Hi & Hc).
    destruct c; try done; [..|]; eexists (Caller i), _; (split; [|by right]);
      first [by apply (act_wake _ i _ _ _ Hi) | by apply (act_stop _ i _ _ _ Hi)].
  - left. unfold health_thread_func, health_sleep, acquire in Hr. rewrite Hm in Hr.
    by destruct (h_pc st) as [| |[]| | | |].
Qed.

Definition health_actions (l : list actor) : nat := length (filter (fun a => a = Health) l).

Lemma stopping_run oneway l st st' :
  inv st -> stopping st -> run oneway l st st' ->
  inv st' /\ stopping st' /\ (health_actions l + steps_left (h_pc st') <= steps_left (h_pc st))%nat.
Proof.
  intros Hinv Hst Hr. induction Hr as [st|a l st st1 st2 Ha _ IH]; [done|].
  destruct (stopping_act oneway a st st1 Hinv Hst Ha) as [Hst1 Hle].
  destruct (IH (inv_act _ _ _ _ Hinv Ha) Hst1) as (Hinv2 & Hst2 & Hle2). split; [done|]. split; [done|].
  unfold health_actions in *. rewrite filter_cons. destruct (decide (a = Health)); cbn [length]; lia.
Qed.

(** C22. A stop of a health thread is never lost.  However the thread, any number
    of wake-up calls, the ends of its waits and any number of stops interleave:
    once a stop has signalled, the thread is not and will not be waiting; it
    performs at most five more actions; and until it has ended, it can act, or
    the call that holds the mutex can, so that the join of the stop returns. *)
Theorem health_stop_not_lost oneway immediate calls before st after st' :
  Forall (fun c => is_start c = true) calls ->
  run oneway before (started immediate calls) st -> stopping st -> run oneway after st st' ->
  h_pc st' <> PSleep SWait /\ (health_actions after <= 5)%nat /\
  (h_pc st' = PExit \/ exists a st'', act oneway a st' st'' /\ (a = Health \/ h_mutex st' = Some a)).
Proof.
  intros Hc Hb Hst Ha. pose proof (inv_run _ _ _ _ (inv_started immediate calls Hc) Hb) as Hinv.
  destruct (stopping_run oneway after st st' Hinv Hst Ha) as (Hinv' & Hst' & Hle).
  pose proof (steps_left_bound _ (proj2 (stopping_inv _ Hinv Hst))) as Hbd.
  split; [by apply stopping_inv|]. split; [lia|]. by apply stopping_progress.
Qed.

(** The actions of a schedule, executed; the flag of a health action is the
    decision of [wait_oneway_udp_ping_due]. *)
Fixpoint play (oneway : bool) (l : list (actor * bool)) (st : hstate) : option hstate :=
  match l with
  | [] => Some st
  | (a, due) :: l =>
      st ← match a with
           | Health => health_thread_func oneway due st
           | Clock => if decide (h_pc st = PSleep SWait) then Some (set_pc st (PSleep SRelock)) else None
           | Caller i => c ← h_calls st !! i;
                         match wake_call i c st with Some st' => Some st' | None => stop_call i c st end
           end;
      play oneway l st
  end.

Lemma play_run oneway l st st' : play oneway l st = Some st' -> run oneway (map fst l) st st'.
Proof.
  revert st. induction l as [|[a due] l IH]; intros st; cbn [play map fst]; [intros [= <-]; constructor|].
  destruct a as [| |i].
  - destruct (health_thread_func oneway due st) as [s1|] eqn:Hr; [|done]. intros Hp.
    econstructor; [by eapply act_health|by apply IH].
  - destruct (decide _); [|done]. intros Hp. econstructor; [by apply act_clock|by apply IH].
  - destruct (h_calls st !! i) as [c|] eqn:Hi; [|done]. cbn [mbind option_bind].
    destruct (wake_call i c st) as [s1|] eqn:Hw.
    + intros Hp. econstructor; [by eapply act_wake|by apply IH].
    + destruct (stop_call i c st) as [s1|] eqn:Hs; [|done]. intros Hp. econstructor; [by eapply act_stop|by apply IH].
Qed.

Definition steps (n : nat) (a : actor) : list (actor * bool) := replicate n (a, false).

(** A round is under way when the path state changes and the health thread is
    woken; the thread goes to sleep afterwards. *)
Definition lost_schedule : list (actor * bool) :=
  steps 4 Health ++ steps 1 Clock ++ steps 4 Health ++ steps 5 (Caller 0) ++ steps 5 Health.

(** A wake-up can be lost.  [signal_health_thread] sets no flag that
    [health_sleep] would look at, so a wake-up that arrives while the thread is
    sending the PINGs of a round has no effect: there is a run after which the
    change of the path states has not been sent, the call that reported it has
    returned, and nothing but the end of the interval will wake the thread. *)
Theorem health_wake_lost :
  exists l st, run false l (started false [WChange]) st /\ h_calls st = [WDone] /\
    (h_sent st < h_version st)%nat /\ h_running st = true /\ h_pc st = PSleep SWait /\
    forall a st', act false a st st' -> a = Clock.
Proof.
  destruct (play false lost_schedule (started false [WChange])) as [st|] eqn:Hp; [|by vm_compute in Hp].
  exists (map fst lost_schedule), st. split; [by apply play_run|]. vm_compute in Hp. injection Hp as <-.
  cbn. split_and!; try done; [lia|].
  intros a st' Ha. inversion Ha as [due s1 s2 Hr|s1 Hw|i c s1 s2 Hi Hr|i c s1 s2 Hi Hr]; subst; [done|done|..];
    destruct i as [|i]; cbn in Hi; try done; injection Hi as <-; done.
Qed.

Lemma health_stop_not_lost_witness :
  (health_actions (map fst (steps 1 (Caller 0) ++ steps 3 Health)) <= 5)%nat.
Proof.
  destruct (play false (steps 4 Health ++ steps 3 (Caller 0)) (started false [TStore])) as [st|] eqn:Hp1;
    [|by vm_compute in Hp1].
  destruct (play false (steps 1 (Caller 0) ++ steps 3 Health) st) as [st'|] eqn:Hp2;
    [|by vm_compute in Hp1; injection Hp1 as <-; vm_compute in Hp2].
  apply (health_stop_not_lost false false [TStore] (map fst (steps 4 Health ++ steps 3 (Caller 0))) st
    (map fst (steps 1 (Caller 0) ++ steps 3 Health)) st').
  - by repeat constructor.
  - by apply play_run.
  - vm_compute in Hp1. injection Hp1 as <-. by exists 0%nat, TUnlock.
  - by apply play_run.
Defined.
