(* ===== verification/Config.v ===== *)
(** Configuration files: [config_parse_common.h], [config_load_global.c],
    [config_load_service.c], [config_list_service_ids.c],
    [potr_service_get_type.c] and [potr_service_open_from_config.c].

    The JSON parser, the number parsers and the hash are libraries; they are
    the class [ConfigLib], with what their documentation promises in
    [ConfigLaws].  Strings are their bytes without the terminating NUL. *)

From stdpp Require Import base list numbers option strings pretty.
From Stdlib Require Import ZArith Lia ZifyBool Ascii.
From S2P Require Import Prelude Types Packet Window Context PathEvent Validate PeerTable.
From S2P Require Import Threads OpenPaths Open.
Local Open Scope Z_scope.
Local Open Scope porter_scope.

(** A string constant, and the text of [%PRId64]. *)
Definition cstr (s : string) : list Z := map (fun a => Z.of_N (N_of_ascii a)) (String.list_ascii_of_string s).
Definition decimal (z : Z) : list Z := cstr (pretty z).

Class ConfigLib := {
  json : Type;
  (** the strings [fgets] stores until the end of the file; [None] when the
      file cannot be opened *)
  file_lines : list Z -> option (list (list Z));
  cJSON_ParseJSONC : list Z -> option json;
  cJSON_IsObject : json -> bool;
  (** the chain [cJSON_ArrayForEach] follows, with the keys of the items *)
  json_children : json -> list (list Z * json);
  cJSON_GetObjectItem : json -> list Z -> option json;
  cJSON_GetStringValue : json -> option (list Z);
  cJSON_GetInt64Value : json -> option Z;
  (** [cplat_parse_uint8], [cplat_parse_uint16], [cplat_parse_uint32] in base
      10; [None] is a failure, which leaves the destination alone *)
  cplat_parse_uint : Z -> list Z -> option Z;
  (** [cplat_parse_int64] in the given base *)
  cplat_parse_int64 : Z -> list Z -> option Z;
  cplat_passphrase_to_key : list Z -> option (list Z)
}.

(** ** Defaults *)

Definition POTR_MAX_ADDR_LEN : nat := 64.
Definition POTR_MAX_SERVICES : Z := 64.

Definition config_set_global_defaults : potr_global_config :=
  GlobalConfig 16 1400 0 65535 1024 3000 10000 10000 31000 5000.

Definition service_defaults (service_id : Z) : potr_service_def :=
  ServiceDef service_id POTR_TYPE_OTHER 0 0 1 0 [] [] (replicate POTR_MAX_PATH []) (replicate POTR_MAX_PATH [])
    (replicate POTR_CRYPTO_KEY_SIZE 0) false 1024 0 0 5000 10000.

(** ** Assignments to fields *)

Definition set_window_size (g : potr_global_config) (v : Z) : potr_global_config :=
  GlobalConfig v (max_payload_cfg g) (reorder_timeout_ms g) (max_message_size g) (send_queue_depth g)
    (udp_health_interval_ms g) (udp_health_timeout_ms g) (tcp_health_interval_ms g) (tcp_health_timeout_ms g)
    (tcp_close_timeout_ms g).
Definition set_max_payload (g : potr_global_config) (v : Z) : potr_global_config :=
  GlobalConfig (window_size_cfg g) v (reorder_timeout_ms g) (max_message_size g) (send_queue_depth g)
    (udp_health_interval_ms g) (udp_health_timeout_ms g) (tcp_health_interval_ms g) (tcp_health_timeout_ms g)
    (tcp_close_timeout_ms g).
Definition set_reorder_timeout (g : potr_global_config) (v : Z) : potr_global_config :=
  GlobalConfig (window_size_cfg g) (max_payload_cfg g) v (max_message_size g) (send_queue_depth g)
    (udp_health_interval_ms g) (udp_health_timeout_ms g) (tcp_health_interval_ms g) (tcp_health_timeout_ms g)
    (tcp_close_timeout_ms g).
Definition set_max_message (g : potr_global_config) (v : Z) : potr_global_config :=
  GlobalConfig (window_size_cfg g) (max_payload_cfg g) (reorder_timeout_ms g) v (send_queue_depth g)
    (udp_health_interval_ms g) (udp_health_timeout_ms g) (tcp_health_interval_ms g) (tcp_health_timeout_ms g)
    (tcp_close_timeout_ms g).
Definition set_queue_depth (g : potr_global_config) (v : Z) : potr_global_config :=
  GlobalConfig (window_size_cfg g) (max_payload_cfg g) (reorder_timeout_ms g) (max_message_size g) v
    (udp_health_interval_ms g) (udp_health_timeout_ms g) (tcp_health_interval_ms g) (tcp_health_timeout_ms g)
    (tcp_close_timeout_ms g).
Definition set_udp_interval (g : potr_global_config) (v : Z) : potr_global_config :=
  GlobalConfig (window_size_cfg g) (max_payload_cfg g) (reorder_timeout_ms g) (max_message_size g)
    (send_queue_depth g) v (udp_health_timeout_ms g) (tcp_health_interval_ms g) (tcp_health_timeout_ms g)
    (tcp_close_timeout_ms g).
Definition set_udp_timeout (g : potr_global_config) (v : Z) : potr_global_config :=
  GlobalConfig (window_size_cfg g) (max_payload_cfg g) (reorder_timeout_ms g) (max_message_size g)
    (send_queue_depth g) (udp_health_interval_ms g) v (tcp_health_interval_ms g) (tcp_health_timeout_ms g)
    (tcp_close_timeout_ms g).
Definition set_tcp_interval (g : potr_global_config) (v : Z) : potr_global_config :=
  GlobalConfig (window_size_cfg g) (max_payload_cfg g) (reorder_timeout_ms g) (max_message_size g)
    (send_queue_depth g) (udp_health_interval_ms g) (udp_health_timeout_ms g) v (tcp_health_timeout_ms g)
    (tcp_close_timeout_ms g).
Definition set_tcp_timeout (g : potr_global_config) (v : Z) : potr_global_config :=
  GlobalConfig (window_size_cfg g) (max_payload_cfg g) (reorder_timeout_ms g) (max_message_size g)
    (send_queue_depth g) (udp_health_interval_ms g) (udp_health_timeout_ms g) (tcp_health_interval_ms g) v
    (tcp_close_timeout_ms g).
Definition set_tcp_close_timeout (g : potr_global_config) (v : Z) : potr_global_config :=
  GlobalConfig (window_size_cfg g) (max_payload_cfg g) (reorder_timeout_ms g) (max_message_size g)
    (send_queue_depth g) (udp_health_interval_ms g) (udp_health_timeout_ms g) (tcp_health_interval_ms g)
    (tcp_health_timeout_ms g) v.

Definition set_type (s : potr_service_def) (v : potr_type) : potr_service_def :=
  ServiceDef (service_id s) v (dst_port s) (src_port s) (ttl s) (pack_wait_ms s) (multicast_group s)
    (broadcast_addr s) (src_addr s) (dst_addr s) (encrypt_key s) (encrypt_enabled s)
    (max_peers_def s) (service_health_interval_ms s) (service_health_timeout_ms s)
    (reconnect_interval_ms s) (connect_timeout_ms s).
Definition set_dst_port (s : potr_service_def) (v : Z) : potr_service_def :=
  ServiceDef (service_id s) (service_type s) v (src_port s) (ttl s) (pack_wait_ms s)
    (multicast_group s) (broadcast_addr s) (src_addr s) (dst_addr s) (encrypt_key s)
    (encrypt_enabled s) (max_peers_def s) (service_health_interval_ms s)
    (service_health_timeout_ms s) (reconnect_interval_ms s) (connect_timeout_ms s).
Definition set_src_port (s : potr_service_def) (v : Z) : potr_service_def :=
  ServiceDef (service_id s) (service_type s) (dst_port s) v (ttl s) (pack_wait_ms s)
    (multicast_group s) (broadcast_addr s) (src_addr s) (dst_addr s) (encrypt_key s)
    (encrypt_enabled s) (max_peers_def s) (service_health_interval_ms s)
    (service_health_timeout_ms s) (reconnect_interval_ms s) (connect_timeout_ms s).
Definition set_ttl (s : potr_service_def) (v : Z) : potr_service_def :=
  ServiceDef (service_id s) (service_type s) (dst_port s) (src_port s) v (pack_wait_ms s)
    (multicast_group s) (broadcast_addr s) (src_addr s) (dst_addr s) (encrypt_key s)
    (encrypt_enabled s) (max_peers_def s) (service_health_interval_ms s)
    (service_health_timeout_ms s) (reconnect_interval_ms s) (connect_timeout_ms s).
Definition set_pack_wait (s : potr_service_def) (v : Z) : potr_service_def :=
  ServiceDef (service_id s) (service_type s) (dst_port s) (src_port s) (ttl s) v (multicast_group s)
    (broadcast_addr s) (src_addr s) (dst_addr s) (encrypt_key s) (encrypt_enabled s)
    (max_peers_def s) (service_health_interval_ms s) (service_health_timeout_ms s)
    (reconnect_interval_ms s) (connect_timeout_ms s).
Definition set_multicast_group (s : potr_service_def) (v : list Z) : potr_service_def :=
  ServiceDef (service_id s) (service_type s) (dst_port s) (src_port s) (ttl s) (pack_wait_ms s) v
    (broadcast_addr s) (src_addr s) (dst_addr s) (encrypt_key s) (encrypt_enabled s)
    (max_peers_def s) (service_health_interval_ms s) (service_health_timeout_ms s)
    (reconnect_interval_ms s) (connect_timeout_ms s).
Definition set_src_addrs (s : potr_service_def) (v : list (list Z)) : potr_service_def :=
  ServiceDef (service_id s) (service_type s) (dst_port s) (src_port s) (ttl s) (pack_wait_ms s)
    (multicast_group s) (broadcast_addr s) v (dst_addr s) (encrypt_key s) (encrypt_enabled s)
    (max_peers_def s) (service_health_interval_ms s) (service_health_timeout_ms s)
    (reconnect_interval_ms s) (connect_timeout_ms s).
Definition set_dst_addrs (s : potr_service_def) (v : list (list Z)) : potr_service_def :=
  ServiceDef (service_id s) (service_type s) (dst_port s) (src_port s) (ttl s) (pack_wait_ms s)
    (multicast_group s) (broadcast_addr s) (src_addr s) v (encrypt_key s) (encrypt_enabled s)
    (max_peers_def s) (service_health_interval_ms s) (service_health_timeout_ms s)
    (reconnect_interval_ms s) (connect_timeout_ms s).
Definition set_max_peers_def (s : potr_service_def) (v : Z) : potr_service_def :=
  ServiceDef (service_id s) (service_type s) (dst_port s) (src_port s) (ttl s) (pack_wait_ms s)
    (multicast_group s) (broadcast_addr s) (src_addr s) (dst_addr s) (encrypt_key s)
    (encrypt_enabled s) v (service_health_interval_ms s) (service_health_timeout_ms s)
    (reconnect_interval_ms s) (connect_timeout_ms s).
Definition set_health_interval (s : potr_service_def) (v : Z) : potr_service_def :=
  ServiceDef (service_id s) (service_type s) (dst_port s) (src_port s) (ttl s) (pack_wait_ms s)
    (multicast_group s) (broadcast_addr s) (src_addr s) (dst_addr s) (encrypt_key s)
    (encrypt_enabled s) (max_peers_def s) v (service_health_timeout_ms s) (reconnect_interval_ms s)
    (connect_timeout_ms s).
Definition set_health_timeout (s : potr_service_def) (v : Z) : potr_service_def :=
  ServiceDef (service_id s) (service_type s) (dst_port s) (src_port s) (ttl s) (pack_wait_ms s)
    (multicast_group s) (broadcast_addr s) (src_addr s) (dst_addr s) (encrypt_key s)
    (encrypt_enabled s) (max_peers_def s) (service_health_interval_ms s) v (reconnect_interval_ms s)
    (connect_timeout_ms s).
Definition set_reconnect_interval (s : potr_service_def) (v : Z) : potr_service_def :=
  ServiceDef (service_id s) (service_type s) (dst_port s) (src_port s) (ttl s) (pack_wait_ms s)
    (multicast_group s) (broadcast_addr s) (src_addr s) (dst_addr s) (encrypt_key s)
    (encrypt_enabled s) (max_peers_def s) (service_health_interval_ms s)
    (service_health_timeout_ms s) v (connect_timeout_ms s).
Definition set_connect_timeout (s : potr_service_def) (v : Z) : potr_service_def :=
  ServiceDef (service_id s) (service_type s) (dst_port s) (src_port s) (ttl s) (pack_wait_ms s)
    (multicast_group s) (broadcast_addr s) (src_addr s) (dst_addr s) (encrypt_key s)
    (encrypt_enabled s) (max_peers_def s) (service_health_interval_ms s)
    (service_health_timeout_ms s) (reconnect_interval_ms s) v.
Definition set_key (s : potr_service_def) (key : list Z) (enabled : bool) : potr_service_def :=
  ServiceDef (service_id s) (service_type s) (dst_port s) (src_port s) (ttl s) (pack_wait_ms s)
    (multicast_group s) (broadcast_addr s) (src_addr s) (dst_addr s) key enabled (max_peers_def s)
    (service_health_interval_ms s) (service_health_timeout_ms s) (reconnect_interval_ms s)
    (connect_timeout_ms s).

Section Config.
Context `{CplatByteorder} `{Platform} `{Host} `{ConfigLib}.

(** ** Reading the file *)

(** [SIZE_MAX] of a 64-bit system. *)
Definition SIZE_MAX : Z := 18446744073709551615.

(** The loop that doubles [new_capacity]; the inner [None] is a capacity that
    cannot be doubled, the outer one missing fuel. *)
Fixpoint grow_capacity (fuel : nat) (new_capacity need : Z) : option (option Z) :=
  match fuel with
  | O => None
  | S fuel =>
      if negb (new_capacity <? need) then Some (Some new_capacity)
      else if SIZE_MAX / 2 <? new_capacity then Some None
      else grow_capacity fuel (new_capacity * 2) need
  end.

(** [memcpy(text + length, chunk, size)] into a buffer of [capacity] bytes. *)
Definition append_chunk (text chunk : list Z) (capacity : Z) : M (list Z) :=
  if capacity <? Z.of_nat (length text + length chunk) then fault else mret (text ++ chunk).

(** The loop over the lines, and the NUL behind the text; [None] when the
    memory is exhausted.  64 doublings are more than a capacity of at least
    1024 allows. *)
Fixpoint read_lines (lines : list (list Z)) (text : list Z) (capacity : Z) : M (option (list Z)) :=
  match lines with
  | [] => if Z.of_nat (length text) <? capacity then mret (Some text) else fault
  | chunk :: lines =>
      let need := Z.of_nat (length text) + Z.of_nat (length chunk) + 1 in
      if SIZE_MAX - Z.of_nat (length text) - 1 <? Z.of_nat (length chunk) then mret None
      else if capacity <? need then
        grown ← lift (grow_capacity 64 capacity need);
        match grown with
        | None => mret None
        | Some capacity =>
            ok ← tick alloc_ok;
            if negb ok then mret None
            else text ← append_chunk text chunk capacity; read_lines lines text capacity
        end
      else text ← append_chunk text chunk capacity; read_lines lines text capacity
  end.

Definition config_read_jsonc (path : list Z) : M (Z + json) :=
  match file_lines path with
  | None => mret (inl POTR_ERR_IO)
  | Some lines =>
      ok ← tick alloc_ok;
      if negb ok then mret (inl POTR_ERR_OUT_OF_MEMORY)
      else
        text ← read_lines lines [] 1024;
        match text with
        | None => mret (inl POTR_ERR_OUT_OF_MEMORY)
        | Some text =>
            match cJSON_ParseJSONC text with
            | Some root => mret (if cJSON_IsObject root then inr root else inl POTR_ERR_INVALID_ARGUMENT)
            | None => mret (inl POTR_ERR_INVALID_ARGUMENT)
            end
        end
  end.

(** The text of a string or of an exact integer. *)
Definition config_value_text (item : json) : option (list Z) :=
  match cJSON_GetStringValue item with
  | Some s => Some s
  | None => decimal <$> cJSON_GetInt64Value item
  end.

(** [cplat_parse_uintN(&field, val, 10)] whose result is ignored. *)
Definition parse_into (bits : Z) (val : list Z) (old : Z) : Z := default old (cplat_parse_uint bits val).

(** ** The section [global] *)

Definition is_key (key : list Z) (name : string) : bool := bool_decide (key = cstr name).

Definition apply_global_kv (key val : list Z) (g : potr_global_config) : potr_global_config :=
  if is_key key "window_size" then set_window_size g (parse_into 16 val (window_size_cfg g))
  else if is_key key "max_payload" then set_max_payload g (parse_into 16 val (max_payload_cfg g))
  else if is_key key "udp_health_interval_ms" then set_udp_interval g (parse_into 32 val (udp_health_interval_ms g))
  else if is_key key "udp_health_timeout_ms" then set_udp_timeout g (parse_into 32 val (udp_health_timeout_ms g))
  else if is_key key "tcp_health_interval_ms" then set_tcp_interval g (parse_into 32 val (tcp_health_interval_ms g))
  else if is_key key "tcp_health_timeout_ms" then set_tcp_timeout g (parse_into 32 val (tcp_health_timeout_ms g))
  else if is_key key "tcp_close_timeout_ms" then set_tcp_close_timeout g (parse_into 32 val (tcp_close_timeout_ms g))
  else if is_key key "reorder_timeout_ms" then set_reorder_timeout g (parse_into 32 val (reorder_timeout_ms g))
  else if is_key key "max_message_size" then set_max_message g (parse_into 32 val (max_message_size g))
  else if is_key key "send_queue_depth" then set_queue_depth g (parse_into 32 val (send_queue_depth g))
  else g.

(** One item of an object, when it has a text. *)
Definition apply_item {A} (apply : list Z -> list Z -> A -> A) (a : A) (item : list Z * json) : A :=
  match config_value_text item.2 with
  | Some val => apply item.1 val a
  | None => a
  end.

(** The items of an object that may be missing. *)
Definition items_of (o : option json) : list (list Z * json) := from_option json_children [] o.

(** A member that, if it is there, is an object. *)
Definition object_or_missing (o : option json) : bool := from_option cJSON_IsObject true o.

(** The code, and what [*global] holds. *)
Definition potr_internal_config_load_global (config_path : option (list Z)) (global : option potr_global_config)
    : M (Z * option potr_global_config) :=
  match config_path, global with
  | Some path, Some _ =>
      r ← config_read_jsonc path;
      match r with
      | inl rc => mret (rc, Some config_set_global_defaults)
      | inr root =>
          let global_object := cJSON_GetObjectItem root (cstr "global") in
          if negb (object_or_missing global_object)
          then mret (POTR_ERR_INVALID_ARGUMENT, Some config_set_global_defaults)
          else mret (POTR_OK, Some (foldl (apply_item apply_global_kv) config_set_global_defaults
                                      (items_of global_object)))
      end
  | _, _ => mret (POTR_ERR_INVALID_ARGUMENT, global)
  end.
(** ** A section of [services] *)

Definition copy_cstr_trunc (dst_size : nat) (src : list Z) : list Z := take (dst_size - 1) src.

Definition service_type_names : list (string * potr_type) :=
  [("unicast_raw"%string, POTR_TYPE_UNICAST_RAW); ("multicast_raw"%string, POTR_TYPE_MULTICAST_RAW);
   ("broadcast_raw"%string, POTR_TYPE_BROADCAST_RAW); ("unicast"%string, POTR_TYPE_UNICAST);
   ("multicast"%string, POTR_TYPE_MULTICAST); ("broadcast"%string, POTR_TYPE_BROADCAST);
   ("unicast_bidir"%string, POTR_TYPE_UNICAST_BIDIR); ("unicast_bidir_n1"%string, POTR_TYPE_UNICAST_BIDIR_N1);
   ("tcp"%string, POTR_TYPE_TCP); ("tcp_bidir"%string, POTR_TYPE_TCP_BIDIR)].

(** The chain of comparisons with the names of the types. *)
Fixpoint parse_type (names : list (string * potr_type)) (val : list Z) (old : potr_type) : potr_type :=
  match names with
  | [] => old
  | (name, t) :: names => if is_key val name then t else parse_type names val old
  end.

(** [src_addr1] to [src_addr4]: the characters behind the eight of the name. *)
Definition set_path_addr (addrs : list (list Z)) (suffix val : list Z) : list (list Z) :=
  match suffix with
  | [d] => if (d <? 49) || (52 <? d) then addrs
           else <[Z.to_nat (d - 49) := copy_cstr_trunc POTR_MAX_ADDR_LEN val]> addrs
  | _ => addrs
  end.

(** [strncmp(key, name, 8) == 0]. *)
Definition has_prefix (key : list Z) (name : string) : bool := bool_decide (take 8 key = cstr name).

Definition isxdigit (c : Z) : bool :=
  ((48 <=? c) && (c <=? 57)) || ((65 <=? c) && (c <=? 70)) || ((97 <=? c) && (c <=? 102)).

(** The loop over the bytes of a hexadecimal key. *)
Fixpoint hex_key (val key : list Z) : list Z :=
  match val, key with
  | a :: b :: val, k :: key => from_option u8 k (cplat_parse_int64 16 [a; b]) :: hex_key val key
  | _, _ => key
  end.

Definition apply_encrypt_key (val : list Z) (s : potr_service_def) : potr_service_def :=
  let zero := map (fun _ => 0) (encrypt_key s) in
  if (length val =? POTR_CRYPTO_KEY_SIZE * 2)%nat && forallb isxdigit val
  then set_key s (hex_key val (encrypt_key s)) true
  else if (0 <? length val)%nat then
    match cplat_passphrase_to_key val with
    | Some key => set_key s key true
    | None => set_key s zero false
    end
  else set_key s zero false.

Definition apply_service_kv (key val : list Z) (s : potr_service_def) : potr_service_def :=
  if is_key key "type" then set_type s (parse_type service_type_names val (service_type s))
  else if is_key key "dst_port" then set_dst_port s (parse_into 16 val (dst_port s))
  else if is_key key "src_port" then set_src_port s (parse_into 16 val (src_port s))
  else if is_key key "multicast_group" then set_multicast_group s (copy_cstr_trunc POTR_MAX_ADDR_LEN val)
  else if is_key key "ttl" then set_ttl s (parse_into 8 val (ttl s))
  else if is_key key "broadcast_addr" then set_broadcast_addr s (copy_cstr_trunc POTR_MAX_ADDR_LEN val)
  else if has_prefix key "src_addr" then set_src_addrs s (set_path_addr (src_addr s) (drop 8 key) val)
  else if has_prefix key "dst_addr" then set_dst_addrs s (set_path_addr (dst_addr s) (drop 8 key) val)
  else if is_key key "pack_wait_ms" then set_pack_wait s (parse_into 32 val (pack_wait_ms s))
  else if is_key key "max_peers" then
    match cplat_parse_uint 32 val with
    | Some n => if 0 <? n then set_max_peers_def s n else s
    | None => s
    end
  else if is_key key "health_interval_ms" then set_health_interval s (parse_into 32 val (service_health_interval_ms s))
  else if is_key key "health_timeout_ms" then set_health_timeout s (parse_into 32 val (service_health_timeout_ms s))
  else if is_key key "reconnect_interval_ms" then set_reconnect_interval s (parse_into 32 val (reconnect_interval_ms s))
  else if is_key key "connect_timeout_ms" then set_connect_timeout s (parse_into 32 val (connect_timeout_ms s))
  else if is_key key "encrypt_key" then apply_encrypt_key val s
  else s.

(** The code, and what [*def] holds. *)
Definition potr_internal_config_load_service (config_path : option (list Z)) (service_id : Z)
    (def : option potr_service_def) : M (Z * option potr_service_def) :=
  match config_path, def with
  | Some path, Some _ =>
      r ← config_read_jsonc path;
      match r with
      | inl rc => mret (rc, def)
      | inr root =>
          let services := cJSON_GetObjectItem root (cstr "services") in
          if negb (object_or_missing services) then mret (POTR_ERR_INVALID_ARGUMENT, def)
          else
            match services ≫= (fun j => cJSON_GetObjectItem j (decimal service_id)) with
            | None => mret (POTR_ERR_NOT_FOUND, def)
            | Some service =>
                if negb (cJSON_IsObject service) then mret (POTR_ERR_INVALID_ARGUMENT, def)
                else mret (POTR_OK, Some (foldl (apply_item apply_service_kv) (service_defaults service_id)
                                            (json_children service)))
            end
      end
  | _, _ => mret (POTR_ERR_INVALID_ARGUMENT, def)
  end.

(** ** The list of services *)

(** The identifier of a section of [services]. *)
Definition section_id (section : list Z * json) : option Z :=
  match cplat_parse_int64 10 section.1 with
  | Some id => if cJSON_IsObject section.2 then Some id else None
  | None => None
  end.

(** The loop; [ids] is what has been stored in an array of [capacity] entries
    whose size is doubled when it is full. *)
Fixpoint list_ids (sections : list (list Z * json)) (ids : list Z) (capacity : Z) : M (option (list Z)) :=
  match sections with
  | [] => mret (Some ids)
  | section :: sections =>
      match section_id section with
      | None => list_ids sections ids capacity
      | Some id =>
          let store_id capacity :=
            if Z.of_nat (length ids) <? capacity then list_ids sections (ids ++ [id]) capacity else fault in
          if capacity <=? Z.of_nat (length ids) then
            (** a signed overflow is undefined *)
            if 2147483647 <? capacity * 2 then fault
            else
              ok ← tick alloc_ok;
              if negb ok then mret None else store_id (capacity * 2)
          else store_id capacity
      end
  end.

(** The code of a failure, or the identifiers. *)
Definition potr_internal_config_list_service_ids (config_path : option (list Z)) (outputs : bool)
    : M (Z + list Z) :=
  match config_path, outputs with
  | Some path, true =>
      r ← config_read_jsonc path;
      match r with
      | inl rc => mret (inl rc)
      | inr root =>
          let services := cJSON_GetObjectItem root (cstr "services") in
          if negb (object_or_missing services) then mret (inl POTR_ERR_INVALID_ARGUMENT)
          else
            ok ← tick alloc_ok;
            if negb ok then mret (inl POTR_ERR_OUT_OF_MEMORY)
            else
              ids ← list_ids (items_of services) [] POTR_MAX_SERVICES;
              mret (match ids with Some ids => inr ids | None => inl POTR_ERR_OUT_OF_MEMORY end)
      end
  | _, _ => mret (inl POTR_ERR_INVALID_ARGUMENT)
  end.

(** ** Services by configuration file *)

(** The code, and the type it stores. *)
Definition potr_service_get_type (config_path : option (list Z)) (service_id : Z) (type : bool)
    : M (Z * option potr_type) :=
  match config_path, type with
  | Some path, true =>
      '(result, def) ← potr_internal_config_load_service (Some path) service_id (Some zero_service);
      if negb (result =? POTR_OK) then mret (result, None) else mret (POTR_OK, service_type <$> def)
  | _, _ => mret (POTR_ERR_INVALID_ARGUMENT, None)
  end.

Definition potr_service_open_from_config (config_path : option (list Z)) (service_id : Z) (role : potr_role)
    (callback handle : bool) : M (Z * bool) :=
  match config_path, handle with
  | Some path, true =>
      '(result, global) ← potr_internal_config_load_global (Some path) (Some zero_global);
      if negb (result =? POTR_OK) then mret (result, false)
      else
        '(result, service) ← potr_internal_config_load_service (Some path) service_id (Some zero_service);
        if negb (result =? POTR_OK) then mret (result, false)
        else potr_service_open global service role callback true
  | _, _ => mret (POTR_ERR_INVALID_ARGUMENT, false)
  end.
End Config.
