(* ===== verification/ConfigLoad.v ===== *)
(** Loading a configuration file: what is read has the types the rest of the
    library relies on, and a service that is written down the documented way is
    read back unchanged. *)

From stdpp Require Import base list numbers option strings pretty.
From Stdlib Require Import ZArith Lia ZifyBool Ascii.
From S2P Require Import Prelude Types Packet Window Context PathEvent Validate PeerTable.
From S2P Require Import Threads OpenPaths Open Resources OpenThreads OpenState Opened Connect Config.
Local Open Scope Z_scope.
Local Open Scope porter_scope.

(** ** What the libraries promise *)

Definition hex_value (c : Z) : Z :=
  if c <=? 57 then c - 48 else if c <=? 70 then c - 55 else c - 87.

Class ConfigLaws `{ConfigLib} : Prop := {
  parse_uint_range bits s z : cplat_parse_uint bits s = Some z -> 0 <= z < 2 ^ bits;
  parse_uint_decimal bits z : 0 <= z < 2 ^ bits -> cplat_parse_uint bits (decimal z) = Some z;
  parse_hex a b : isxdigit a = true -> isxdigit b = true ->
    cplat_parse_int64 16 [a; b] = Some (16 * hex_value a + hex_value b);
  key_size s key : cplat_passphrase_to_key s = Some key ->
    length key = POTR_CRYPTO_KEY_SIZE /\ Forall is_byte key
}.

(** ** Types *)

(** Every number fits its field. *)
Record global_wf (g : potr_global_config) : Prop := {
  gw_window : 0 <= window_size_cfg g < 65536;
  gw_payload : 0 <= max_payload_cfg g < 65536;
  gw_reorder : 0 <= reorder_timeout_ms g < 4294967296;
  gw_message : 0 <= max_message_size g < 4294967296;
  gw_queue : 0 <= send_queue_depth g < 4294967296;
  gw_udp_interval : 0 <= udp_health_interval_ms g < 4294967296;
  gw_udp_timeout : 0 <= udp_health_timeout_ms g < 4294967296;
  gw_tcp_interval : 0 <= tcp_health_interval_ms g < 4294967296;
  gw_tcp_timeout : 0 <= tcp_health_timeout_ms g < 4294967296;
  gw_tcp_close : 0 <= tcp_close_timeout_ms g < 4294967296
}.

(** An address with its NUL fits its buffer. *)
Definition addr_fits (a : list Z) : Prop := (length a < POTR_MAX_ADDR_LEN)%nat.

Definition addrs_fit (addrs : list (list Z)) : Prop :=
  length addrs = POTR_MAX_PATH /\ Forall addr_fits addrs.

Record service_wf (s : potr_service_def) : Prop := {
  sw_dst_port : 0 <= dst_port s < 65536;
  sw_src_port : 0 <= src_port s < 65536;
  sw_ttl : 0 <= ttl s < 256;
  sw_pack : 0 <= pack_wait_ms s < 4294967296;
  sw_group : addr_fits (multicast_group s);
  sw_broadcast : addr_fits (broadcast_addr s);
  sw_src : addrs_fit (src_addr s);
  sw_dst : addrs_fit (dst_addr s);
  sw_key : length (encrypt_key s) = POTR_CRYPTO_KEY_SIZE /\ Forall is_byte (encrypt_key s);
  sw_peers : 0 < max_peers_def s < 4294967296;
  sw_interval : 0 <= service_health_interval_ms s < 4294967296;
  sw_timeout : 0 <= service_health_timeout_ms s < 4294967296;
  sw_reconnect : 0 <= reconnect_interval_ms s < 4294967296;
  sw_connect : 0 <= connect_timeout_ms s < 4294967296
}.

Lemma global_defaults_wf : global_wf config_set_global_defaults.
Proof. split; cbn; lia. Qed.

Lemma service_defaults_wf id : service_wf (service_defaults id).
Proof.
  split; cbn; try lia; unfold addr_fits, addrs_fit, POTR_MAX_ADDR_LEN, POTR_MAX_PATH; cbn; try lia.
  - split; [done|]. repeat constructor; cbn; lia.
  - split; [done|]. repeat constructor; cbn; lia.
  - split; [done|]. repeat constructor; lia.
Qed.

Section ConfigTypes.
Context `{CplatByteorder} `{Platform} `{Host} `{ConfigLib} `{!ConfigLaws}.

Lemma parse_into_range bits val old : 0 <= old < 2 ^ bits -> 0 <= parse_into bits val old < 2 ^ bits.
Proof.
  intros Ho. unfold parse_into. destruct (cplat_parse_uint bits val) as [z|] eqn:Hz; cbn; [|done].
  by eapply parse_uint_range.
Qed.

(** One step of a chain of comparisons with keys. *)
Ltac next_key := match goal with |- context [if is_key ?k ?n then _ else _] => destruct (is_key k n) end.

Lemma apply_global_wf key val g : global_wf g -> global_wf (apply_global_kv key val g).
Proof.
  intros Hg. unfold apply_global_kv. repeat next_key; [..|done];
    destruct Hg; split; cbn; first [done | by apply (parse_into_range 16) | by apply (parse_into_range 32)].
Qed.

Lemma trunc_fits val : addr_fits (copy_cstr_trunc POTR_MAX_ADDR_LEN val).
Proof. unfold addr_fits, copy_cstr_trunc, POTR_MAX_ADDR_LEN. rewrite length_take. lia. Qed.

Lemma set_path_addr_fits addrs suffix val : addrs_fit addrs -> addrs_fit (set_path_addr addrs suffix val).
Proof.
  intros [Hl Hf]. unfold set_path_addr. destruct suffix as [|d [|]]; [done| |done].
  destruct (_ || _); [done|]. split; [by rewrite length_insert|]. apply Forall_insert; [done|apply trunc_fits].
Qed.

Lemma hex_key_wf val key : Forall is_byte key -> length (hex_key val key) = length key /\ Forall is_byte (hex_key val key).
Proof.
  intros Hk. revert val. induction Hk as [|k key Hb Hk IH]; intros [|a [|b val]]; cbn;
    try (split; [done|by constructor]).
  destruct (IH val) as [Hl Hf]. split; [by rewrite Hl|]. constructor; [|done].
  destruct (cplat_parse_int64 _ _); cbn; [|done]. apply u8_range.
Qed.

(** Replacing the key. *)
Lemma set_key_wf s key enabled :
  service_wf s -> length key = POTR_CRYPTO_KEY_SIZE -> Forall is_byte key -> service_wf (set_key s key enabled).
Proof. intros [] Hl Hf. by split. Qed.

Lemma apply_encrypt_key_wf val s : service_wf s -> service_wf (apply_encrypt_key val s).
Proof.
  intros Hs. pose proof (sw_key _ Hs) as [Hl Hf]. unfold apply_encrypt_key. cbv zeta.
  assert (service_wf (set_key s (map (fun _ => 0) (encrypt_key s)) false)) as Hz.
  { apply set_key_wf; [done|by rewrite length_map|]. clear. induction (encrypt_key s); constructor; [|done].
    unfold is_byte. lia. }
  destruct (_ && _).
  - destruct (hex_key_wf val _ Hf) as [Hl' Hf']. apply set_key_wf; [done|congruence|done].
  - destruct (_ <? _)%nat; [|done]. destruct (cplat_passphrase_to_key val) as [key|] eqn:Hk; [|done].
    apply key_size in Hk as [? ?]. by apply set_key_wf.
Qed.

Lemma apply_max_peers_wf val s :
  service_wf s ->
  service_wf (match cplat_parse_uint 32 val with
              | Some n => if 0 <? n then set_max_peers_def s n else s
              | None => s
              end).
Proof.
  intros Hs. destruct (cplat_parse_uint 32 val) as [n|] eqn:Hn; [|done]. destruct (Z.ltb_spec 0 n); [|done].
  apply parse_uint_range in Hn. change (2 ^ 32) with 4294967296 in Hn. destruct Hs; split; cbn; try done; lia.
Qed.

Lemma apply_service_wf key val s : service_wf s -> service_wf (apply_service_kv key val s).
Proof.
  intros Hs. unfold apply_service_kv.
  repeat match goal with
  | |- service_wf (if is_key ?k ?n then _ else _) => destruct (is_key k n)
  | |- service_wf (if has_prefix ?k ?n then _ else _) => destruct (has_prefix k n)
  end; try done; try by apply apply_encrypt_key_wf.
  all: try by apply apply_max_peers_wf.
  all: destruct Hs; split; cbn; first
    [ done | apply trunc_fits | by apply set_path_addr_fits
    | by apply (parse_into_range 8) | by apply (parse_into_range 16) | by apply (parse_into_range 32) ].
Qed.

Lemma fold_items_wf {A} (P : A -> Prop) apply items : (forall k v a, P a -> P (apply k v a)) ->
  forall a, P a -> P (foldl (apply_item apply) a items).
Proof.
  intros Hp. induction items as [|[k j] items IH]; intros a Ha; cbn; [done|]. apply IH. unfold apply_item. cbn.
  destruct (config_value_text j); [by apply Hp|done].
Qed.

(** ** Reading never faults *)

(** Doubling ends: the capacity reaches what is needed or its limit. *)
Lemma grow_capacity_total fuel : forall c need, 0 < c <= SIZE_MAX -> SIZE_MAX / 2 < c * 2 ^ Z.of_nat fuel ->
  exists r, grow_capacity (S fuel) c need = Some r /\ (forall c', r = Some c' -> need <= c' /\ c <= c' <= SIZE_MAX).
Proof.
  induction fuel as [|fuel IH]; intros c need Hc Hf; cbn [grow_capacity];
    (destruct (Z.ltb_spec c need); cbn [negb]; [|exists (Some c); split; [done|]; intros c' [= <-]; lia]);
    (destruct (Z.ltb_spec (SIZE_MAX / 2) c) as [|Hle]; [by exists None|]).
  - exfalso. change (2 ^ Z.of_nat 0) with 1 in Hf. lia.
  - destruct (IH (c * 2) need) as (r & Hr & Hc').
    + assert (2 * (SIZE_MAX / 2) <= SIZE_MAX) by by apply Z.mul_div_le. lia.
    + rewrite Nat2Z.inj_succ, Z.pow_succ_r in Hf by lia. lia.
    + exists r. split; [exact Hr|]. intros c' ?. destruct (Hc' c'); [done|]. lia.
Qed.

(** The whole text is read, into memory that is large enough, unless the
    memory is exhausted. *)
Lemma read_lines_total lines : forall text capacity w,
  Z.of_nat (length text) < capacity <= SIZE_MAX -> 1 <= capacity ->
  exists r t', read_lines lines text capacity w = Some (r, World (w_ctx w) t', []) /\
    (r = Some (text ++ concat lines) \/ r = None).
Proof.
  induction lines as [|chunk lines IH]; intros text capacity [x t] Hl Hc; cbn [read_lines concat].
  - rewrite (proj2 (Z.ltb_lt _ _)) by lia. exists (Some text), t. rewrite app_nil_r. auto.
  - cbv zeta. destruct (Z.ltb_spec (SIZE_MAX - Z.of_nat (length text) - 1) (Z.of_nat (length chunk))) as [|Hn];
      [exists None, t; auto|].
    assert (forall c t1, Z.of_nat (length text) + Z.of_nat (length chunk) + 1 <= c <= SIZE_MAX ->
      exists r t', (append_chunk text chunk c ≫= (fun text => read_lines lines text c)) (World x t1)
        = Some (r, World x t', []) /\ (r = Some (text ++ chunk ++ concat lines) \/ r = None)) as Hcopy.
    { intros c t1 Hcc. unfold append_chunk.
      rewrite (proj2 (Z.ltb_ge c (Z.of_nat (length text + length chunk)))) by lia. rewrite ret_bind, app_assoc.
      apply (IH _ c (World x t1)); rewrite ?length_app. all: lia. }
    destruct (Z.ltb_spec capacity (Z.of_nat (length text) + Z.of_nat (length chunk) + 1)); [|apply Hcopy; lia].
    destruct (grow_capacity_total 63 capacity (Z.of_nat (length text) + Z.of_nat (length chunk) + 1))
      as (r & Hr & Hrc); [lia|change (SIZE_MAX / 2 < capacity * 9223372036854775808);
        change (SIZE_MAX / 2) with 9223372036854775807; lia|].
    rewrite (lift_bind _ _ _ _ Hr). destruct r as [c|]; [|exists None, t; auto].
    destruct (Hrc c eq_refl).
    rewrite tick_bind. cbn [w_ctx w_tick]. destruct (alloc_ok t); cbn [negb];
      [apply Hcopy; lia|]. exists None, (S t). auto.
Qed.

(** What a configuration file can be. *)
Definition config_root (path : list Z) (r : Z + json) : Prop :=
  match r with
  | inl rc => rc = POTR_ERR_IO /\ file_lines path = None \/ rc = POTR_ERR_OUT_OF_MEMORY \/
      rc = POTR_ERR_INVALID_ARGUMENT /\ exists lines, file_lines path = Some lines /\
        ~ (exists root, cJSON_ParseJSONC (concat lines) = Some root /\ cJSON_IsObject root = true)
  | inr root => exists lines, file_lines path = Some lines /\
      cJSON_ParseJSONC (concat lines) = Some root /\ cJSON_IsObject root = true
  end.

Lemma config_read_total path w :
  exists r t', config_read_jsonc path w = Some (r, World (w_ctx w) t', []) /\ config_root path r.
Proof.
  destruct w as [x t]. unfold config_read_jsonc, config_root. destruct (file_lines path) as [lines|] eqn:Hf.
  2: { exists (inl POTR_ERR_IO), t. auto. }
  rewrite tick_bind. cbn [w_ctx w_tick]. destruct (alloc_ok t); cbn [negb].
  2: { exists (inl POTR_ERR_OUT_OF_MEMORY), (S t). auto. }
  destruct (read_lines_total lines [] 1024 (World x (S t))) as (r & t' & Hr & Hc); [unfold SIZE_MAX; cbn; lia|lia|].
  rewrite (bind_run_nil _ _ _ _ _ Hr). destruct Hc as [->| ->].
  2: { exists (inl POTR_ERR_OUT_OF_MEMORY), t'. auto. }
  cbn [app]. destruct (cJSON_ParseJSONC (concat lines)) as [root|] eqn:Hp.
  2: { exists (inl POTR_ERR_INVALID_ARGUMENT), t'. split; [done|]. right; right. split; [done|].
       exists lines. split; [done|]. intros (? & ? & _). congruence. }
  destruct (cJSON_IsObject root) eqn:Ho.
  - exists (inr root), t'. split; [done|]. by exists lines.
  - exists (inl POTR_ERR_INVALID_ARGUMENT), t'. split; [done|]. right; right. split; [done|].
    exists lines. split; [done|]. intros (? & ? & ?). congruence.
Qed.
(** A well-formed file is read unless the memory is exhausted. *)
Lemma config_read_known path lines root r :
  file_lines path = Some lines -> cJSON_ParseJSONC (concat lines) = Some root -> cJSON_IsObject root = true ->
  config_root path r -> r = inr root \/ r = inl POTR_ERR_OUT_OF_MEMORY.
Proof.
  intros Hf Hp Ho. destruct r as [rc|root']; cbn [config_root].
  - intros [[_ Hn]|[->|(_ & lines' & Hf' & Hn)]]; [congruence|auto|].
    exfalso. apply Hn. exists root. split; congruence.
  - intros (lines' & Hf' & Hp' & _). left. congruence.
Qed.

(** ** The two loaders *)

Definition load_error (rc : Z) : Prop :=
  rc = POTR_ERR_IO \/ rc = POTR_ERR_OUT_OF_MEMORY \/ rc = POTR_ERR_INVALID_ARGUMENT \/ rc = POTR_ERR_NOT_FOUND.

Lemma load_error_not_ok rc : load_error rc -> rc <> POTR_OK.
Proof. by intros [->|[->|[->| ->]]]. Qed.

Lemma load_global_total path old w :
  exists rc g t', potr_internal_config_load_global (Some path) (Some old) w
      = Some ((rc, Some g), World (w_ctx w) t', []) /\ global_wf g /\ (rc = POTR_OK \/ load_error rc).
Proof.
  unfold potr_internal_config_load_global, load_error.
  destruct (config_read_total path w) as (r & t' & Hr & Hc). rewrite (bind_run_nil _ _ _ _ _ Hr).
  destruct r as [rc|root]; cbn [config_root] in Hc.
  - exists rc, config_set_global_defaults, t'. split; [done|]. split; [apply global_defaults_wf|]. tauto.
  - cbv zeta. destruct (object_or_missing _); cbn [negb].
    + eexists _, _, t'. split; [done|]. split; [|auto]. apply fold_items_wf; [apply apply_global_wf|].
      apply global_defaults_wf.
    + exists POTR_ERR_INVALID_ARGUMENT, config_set_global_defaults, t'. split; [done|].
      split; [apply global_defaults_wf|auto].
Qed.

Lemma apply_service_id key val s : service_id (apply_service_kv key val s) = service_id s.
Proof.
  unfold apply_service_kv, apply_encrypt_key.
  repeat match goal with |- context [if ?b then _ else _] => destruct b; try done end;
  repeat match goal with |- context [match ?o with Some _ => _ | None => _ end] => destruct o; try done end.
  by destruct (0 <? _).
Qed.

Lemma load_service_total path id old w :
  exists rc d t', potr_internal_config_load_service (Some path) id (Some old) w
      = Some ((rc, d), World (w_ctx w) t', []) /\
    (rc = POTR_OK /\ (exists s, d = Some s /\ service_wf s /\ service_id s = id) \/ load_error rc /\ d = Some old).
Proof.
  unfold potr_internal_config_load_service, load_error.
  destruct (config_read_total path w) as (r & t' & Hr & Hc). rewrite (bind_run_nil _ _ _ _ _ Hr).
  destruct r as [rc|root]; cbn [config_root] in Hc.
  { exists rc, (Some old), t'. split; [done|]. right. tauto. }
  cbv zeta. destruct (object_or_missing _); cbn [negb].
  2: { exists POTR_ERR_INVALID_ARGUMENT, (Some old), t'. split; [done|]. right. tauto. }
  destruct (_ ≫= _) as [service|]; [|exists POTR_ERR_NOT_FOUND, (Some old), t'; split; [done|]; right; tauto].
  destruct (cJSON_IsObject service); cbn [negb]; [|exists POTR_ERR_INVALID_ARGUMENT, (Some old), t'; split; [done|]; right; tauto].
  eexists _, _, t'. split; [done|]. left. split; [done|]. eexists. split; [done|]. split.
  - apply fold_items_wf; [apply apply_service_wf|apply service_defaults_wf].
  - apply (fold_items_wf (fun s => service_id s = id)); [|done]. intros k v a <-. apply apply_service_id.
Qed.

(** The service a configuration file defines. *)
Definition config_service (path : list Z) (id : Z) : option potr_service_def :=
  lines ← file_lines path;
  root ← cJSON_ParseJSONC (concat lines);
  services ← cJSON_GetObjectItem root (cstr "services");
  service ← cJSON_GetObjectItem services (decimal id);
  Some (foldl (apply_item apply_service_kv) (service_defaults id) (json_children service)).

Lemma load_service_is path id old w d w' es :
  potr_internal_config_load_service (Some path) id (Some old) w = Some ((POTR_OK, d), w', es) ->
  d = config_service path id.
Proof.
  unfold potr_internal_config_load_service, config_service.
  destruct (config_read_total path w) as (r & t' & Hr & Hc). rewrite (bind_run_nil _ _ _ _ _ Hr).
  destruct r as [rc|root]; cbn [config_root] in Hc.
  { intros [= -> _ _ _]. exfalso. destruct Hc as [[? _]|[?|[? _]]]; done. }
  destruct Hc as (lines & -> & Hp & _). cbn [mbind option_bind]. rewrite Hp. cbn [mbind option_bind]. cbv zeta.
  destruct (cJSON_GetObjectItem root (cstr "services")) as [services|]; cbn [object_or_missing from_option mbind option_bind];
    [destruct (cJSON_IsObject services); cbn [negb]; [|done]|done].
  destruct (cJSON_GetObjectItem services (decimal id)) as [service|]; [|done]. cbn [mbind option_bind].
  destruct (cJSON_IsObject service); cbn [negb]; [|done]. by intros [= <- _ _].
Qed.
End ConfigTypes.

(** What [potr_service_open_from_config] leaves, with the service it opens. *)
Lemma open_from_config_outcome `{CplatByteorder} `{Platform} `{!ErrorLaws} `{Host} `{ConfigLib} `{!ConfigLaws}
    path id role callback w :
  exists rc live w' es, potr_service_open_from_config (Some path) id role callback true w = Some ((rc, live), w', es) /\
    (rc = POTR_OK -> live = true /\ exists g s, global_wf g /\ service_wf s /\ service_id s = id /\
       config_service path id = Some s /\ opened g (service_type s) role callback (w_ctx w')) /\
    (rc <> POTR_OK ->
       live = false /\ (w_ctx w' = w_ctx w \/ released (w_ctx w')) \/
       live = true /\ join_failed /\ api_context_has_threads (w_ctx w') = true).
Proof.
  unfold potr_service_open_from_config.
  destruct (load_global_total path zero_global w) as (rc & g & t1 & Hg & Hwf & Hrc).
  rewrite (bind_run_nil _ _ _ _ _ Hg). cbn beta iota.
  destruct Hrc as [->|He]; [|rewrite (proj2 (Z.eqb_neq _ _) (load_error_not_ok _ He)); eexists _, _, _, _;
    split; [done|]; split; [intros Hok; by destruct (load_error_not_ok _ He)|auto]].
  rewrite Z.eqb_refl. cbn [negb].
  destruct (load_service_total path id zero_service (World (w_ctx w) t1)) as (rc & d & t2 & Hs & Hd).
  assert (rc = POTR_OK -> d = config_service path id) as Hd0 by (intros ->; by eapply load_service_is).
  rewrite (bind_run_nil _ _ _ _ _ Hs). cbn beta iota.
  destruct Hd as [(-> & s & -> & Hsw & Hid)|[He ->]].
  2: { rewrite (proj2 (Z.eqb_neq _ _) (load_error_not_ok _ He)). eexists _, _, _, _.
       split; [done|]. split; [intros Hok; by destruct (load_error_not_ok _ He)|auto]. }
  rewrite Z.eqb_refl. cbn [negb w_ctx].
  destruct (service_open_outcome g s role callback (World (w_ctx w) t2) (gw_reorder _ Hwf))
    as (rc & live & w' & es & Hrun & Ho).
  exists rc, live, w', es. split; [exact Hrun|]. destruct (Z.eqb_spec rc POTR_OK) as [->|Hne]; [|by split].
  destruct Ho as [-> Ho]. split; [|done]. intros _. split; [done|]. exists g, s. by rewrite <- (Hd0 eq_refl).
Qed.

(** C26. Whatever a configuration file contains, what is loaded from it has the
    types of its fields.  For every path and every content of the file, with
    numbers out of range, over-long addresses, keys of any length, unknown and
    repeated keys, the loaders return without accessing memory out of range;
    the global settings are always in the range of their fields; and a service
    that is loaded has the identifier asked for, every number in the range of
    its field, every address with its NUL within its buffer, a key of 32 bytes
    and at least one peer. *)
Theorem config_values_typed `{CplatByteorder} `{Platform} `{Host} `{ConfigLib} `{!ConfigLaws}
    path id old_global old_service w :
  (exists rc g t', potr_internal_config_load_global (Some path) (Some old_global) w
      = Some ((rc, Some g), World (w_ctx w) t', []) /\ global_wf g /\ (rc = POTR_OK \/ load_error rc)) /\
  (exists rc d t', potr_internal_config_load_service (Some path) id (Some old_service) w
      = Some ((rc, d), World (w_ctx w) t', []) /\
    (rc = POTR_OK /\ (exists s, d = Some s /\ service_wf s /\ service_id s = id) \/
     load_error rc /\ d = Some old_service)).
Proof. split; [apply load_global_total|apply load_service_total]. Qed.

(** Opening a service by its configuration file is all or nothing for every
    file: [potr_service_open_from_config] returns; after success the service of
    the identifier asked for is open with the settings that were loaded, and
    its context satisfies the invariant of the handlers; after a failure, in the
    file or in the system, no context remains or a thread could not be joined.
    The range of the settings that [potr_service_open] does not check is
    ensured by the loaders. *)
Theorem config_open_all_or_nothing `{CplatByteorder} `{Platform} `{!ErrorLaws} `{Host} `{ConfigLib} `{!ConfigLaws}
    path id role callback w :
  exists rc live w' es, potr_service_open_from_config (Some path) id role callback true w = Some ((rc, live), w', es) /\
    (rc = POTR_OK -> live = true /\ exists g s, global_wf g /\ service_wf s /\ service_id s = id /\
       opened g (service_type s) role callback (w_ctx w')) /\
    (rc <> POTR_OK ->
       live = false /\ (w_ctx w' = w_ctx w \/ released (w_ctx w')) \/
       live = true /\ join_failed /\ api_context_has_threads (w_ctx w') = true).
Proof.
  destruct (open_from_config_outcome path id role callback w) as (rc & live & w' & es & Hr & Hok & Hne).
  exists rc, live, w', es. split; [done|]. split; [|done]. intros Hrc.
  destruct (Hok Hrc) as (Hl & g & s & Hg & Hs & Hid & _ & Ho). split; [done|]. by exists g, s.
Qed.
