(* ===== verification/ConfigRoundtrip.v ===== *)
(** A service definition written down with the documented keys is loaded
    unchanged, in whatever order the keys are. *)

From stdpp Require Import base list numbers option strings pretty sorting.
From Stdlib Require Import ZArith Lia ZifyBool Ascii.
From S2P Require Import Prelude Types Packet Window Context PathEvent Validate PeerTable.
From S2P Require Import Threads OpenPaths Open Resources OpenThreads OpenState Opened Connect Config ConfigLoad.
Local Open Scope Z_scope.
Local Open Scope porter_scope.

(** ** The keys as fields *)

Inductive service_field :=
  | FType | FDstPort | FSrcPort | FGroup | FTtl | FBroadcast
  | FSrcAddr (suffix : list Z) | FDstAddr (suffix : list Z)
  | FPack | FPeers | FInterval | FTimeout | FReconnect | FConnect | FKey.

#[export] Instance service_field_eq_dec : EqDecision service_field.
Proof. solve_decision. Defined.

Definition key_field (key : list Z) : option service_field :=
  if is_key key "type" then Some FType
  else if is_key key "dst_port" then Some FDstPort
  else if is_key key "src_port" then Some FSrcPort
  else if is_key key "multicast_group" then Some FGroup
  else if is_key key "ttl" then Some FTtl
  else if is_key key "broadcast_addr" then Some FBroadcast
  else if has_prefix key "src_addr" then Some (FSrcAddr (drop 8 key))
  else if has_prefix key "dst_addr" then Some (FDstAddr (drop 8 key))
  else if is_key key "pack_wait_ms" then Some FPack
  else if is_key key "max_peers" then Some FPeers
  else if is_key key "health_interval_ms" then Some FInterval
  else if is_key key "health_timeout_ms" then Some FTimeout
  else if is_key key "reconnect_interval_ms" then Some FReconnect
  else if is_key key "connect_timeout_ms" then Some FConnect
  else if is_key key "encrypt_key" then Some FKey
  else None.

Section Fields.
Context `{ConfigLib}.

(** The new key and whether it is used. *)
Definition new_key (val old : list Z) : list Z * bool :=
  if (length val =? POTR_CRYPTO_KEY_SIZE * 2)%nat && forallb isxdigit val then (hex_key val old, true)
  else if (0 <? length val)%nat then
    match cplat_passphrase_to_key val with
    | Some key => (key, true)
    | None => (map (fun _ => 0) old, false)
    end
  else (map (fun _ => 0) old, false).

Definition new_peers (val : list Z) (old : Z) : Z :=
  match cplat_parse_uint 32 val with Some n => if 0 <? n then n else old | None => old end.

(** The assignment to a field depends on no other field. *)
Definition apply_field (f : service_field) (val : list Z) (s : potr_service_def) : potr_service_def :=
  match f with
  | FType => set_type s (parse_type service_type_names val (service_type s))
  | FDstPort => set_dst_port s (parse_into 16 val (dst_port s))
  | FSrcPort => set_src_port s (parse_into 16 val (src_port s))
  | FGroup => set_multicast_group s (copy_cstr_trunc POTR_MAX_ADDR_LEN val)
  | FTtl => set_ttl s (parse_into 8 val (ttl s))
  | FBroadcast => set_broadcast_addr s (copy_cstr_trunc POTR_MAX_ADDR_LEN val)
  | FSrcAddr suffix => set_src_addrs s (set_path_addr (src_addr s) suffix val)
  | FDstAddr suffix => set_dst_addrs s (set_path_addr (dst_addr s) suffix val)
  | FPack => set_pack_wait s (parse_into 32 val (pack_wait_ms s))
  | FPeers => set_max_peers_def s (new_peers val (max_peers_def s))
  | FInterval => set_health_interval s (parse_into 32 val (service_health_interval_ms s))
  | FTimeout => set_health_timeout s (parse_into 32 val (service_health_timeout_ms s))
  | FReconnect => set_reconnect_interval s (parse_into 32 val (reconnect_interval_ms s))
  | FConnect => set_connect_timeout s (parse_into 32 val (connect_timeout_ms s))
  | FKey => set_key s (new_key val (encrypt_key s)).1 (new_key val (encrypt_key s)).2
  end.

Lemma apply_by_field key val s :
  apply_service_kv key val s = from_option (fun f => apply_field f val s) s (key_field key).
Proof.
  unfold apply_service_kv, key_field.
  repeat match goal with
  | |- (if is_key ?k ?n then _ else _) = _ => destruct (is_key k n); [cbn [from_option apply_field]|]
  | |- (if has_prefix ?k ?n then _ else _) = _ => destruct (has_prefix k n); [cbn [from_option apply_field]|]
  end; try done.
  - unfold new_peers. destruct (cplat_parse_uint 32 val) as [n|]; [destruct (0 <? n); [done|]|]; by destruct s.
  - unfold apply_encrypt_key, new_key. cbv zeta. destruct (_ && _); [done|]. destruct (_ <? _)%nat; [|done].
    by destruct (cplat_passphrase_to_key val).
Qed.

Lemma set_path_addr_comm addrs s1 s2 v1 v2 :
  s1 <> s2 -> set_path_addr (set_path_addr addrs s2 v2) s1 v1 = set_path_addr (set_path_addr addrs s1 v1) s2 v2.
Proof.
  intros Hne. unfold set_path_addr. destruct s1 as [|d1 [|]], s2 as [|d2 [|]]; try done.
  destruct ((d1 <? 49) || (52 <? d1)) eqn:Hd1, ((d2 <? 49) || (52 <? d2)) eqn:Hd2; try done. apply list_insert_insert_ne.
  intros Heq. apply Hne. f_equal. lia.
Qed.

Lemma apply_field_comm f1 f2 v1 v2 s :
  f1 <> f2 -> apply_field f1 v1 (apply_field f2 v2 s) = apply_field f2 v2 (apply_field f1 v1 s).
Proof.
  intros Hne. destruct f1, f2; try done; destruct s; cbn; unfold set_src_addrs, set_dst_addrs; cbn; f_equal;
    apply set_path_addr_comm; congruence.
Qed.

(** ** Loading as a fold over keys and texts *)

Definition texts (items : list (list Z * json)) : list (list Z * list Z) :=
  omap (fun it => pair it.1 <$> config_value_text it.2) items.

Definition apply_entry (s : potr_service_def) (kv : list Z * list Z) : potr_service_def :=
  apply_service_kv kv.1 kv.2 s.

Lemma fold_items_texts items : forall s,
  foldl (apply_item apply_service_kv) s items = foldl apply_entry s (texts items).
Proof.
  induction items as [|[k j] items IH]; intros s; [done|]. cbn. rewrite IH. unfold apply_item. cbn.
  by destruct (config_value_text j).
Qed.

Lemma fold_fields l : forall fields s, map (fun kv => key_field kv.1) l = map Some fields ->
  foldl apply_entry s l = foldl (fun s fv => apply_field fv.1 fv.2 s) s (zip fields l.*2).
Proof.
  induction l as [|[k v] l IH]; intros [|f fields] s Hf; try done. cbn in Hf. injection Hf as Hk Hf.
  cbn. rewrite <- (IH _ _ Hf). f_equal. unfold apply_entry. cbn. by rewrite apply_by_field, Hk.
Qed.

Lemma apply_entry_comm s e1 e2 :
  key_field e1.1 <> key_field e2.1 -> apply_entry (apply_entry s e1) e2 = apply_entry (apply_entry s e2) e1.
Proof.
  unfold apply_entry. rewrite !apply_by_field. intros Hne.
  destruct (key_field e1.1) as [f1|], (key_field e2.1) as [f2|]; cbn; try done.
  apply apply_field_comm. congruence.
Qed.

(** The order of entries for different fields does not matter. *)
Lemma fold_entries_permutation l1 l2 : l1 ≡ₚ l2 -> forall s,
  NoDup (map (fun kv => key_field kv.1) l1) -> foldl apply_entry s l1 = foldl apply_entry s l2.
Proof.
  induction 1 as [|e l1 l2 _ IH|e1 e2 l|l1 l2 l3 Hp IH1 _ IH2]; intros s Hnd.
  - done.
  - cbn. apply IH. by apply NoDup_cons in Hnd as [_ ?].
  - cbn. f_equal. cbn in Hnd. apply NoDup_cons in Hnd as [Hn _]. apply apply_entry_comm.
    intros Heq. apply Hn. rewrite Heq. left.
  - rewrite IH1 by done. apply IH2. by rewrite <- Hp.
Qed.
End Fields.

(** ** Writing a service down *)

Definition type_name (t : potr_type) : string :=
  match t with
  | POTR_TYPE_UNICAST_RAW => "unicast_raw" | POTR_TYPE_MULTICAST_RAW => "multicast_raw"
  | POTR_TYPE_BROADCAST_RAW => "broadcast_raw" | POTR_TYPE_UNICAST => "unicast"
  | POTR_TYPE_MULTICAST => "multicast" | POTR_TYPE_BROADCAST => "broadcast"
  | POTR_TYPE_UNICAST_BIDIR => "unicast_bidir" | POTR_TYPE_UNICAST_BIDIR_N1 => "unicast_bidir_n1"
  | POTR_TYPE_TCP => "tcp" | POTR_TYPE_TCP_BIDIR => "tcp_bidir" | POTR_TYPE_OTHER => ""
  end.

Definition hex_digit (n : Z) : Z := if n <? 10 then 48 + n else 87 + n.
Definition hex_text (key : list Z) : list Z := concat (map (fun b => [hex_digit (b / 16); hex_digit (b mod 16)]) key).

(** [src_addr1], [src_addr2], ... *)
Definition path_entries (name : string) (addrs : list (list Z)) : list (list Z * list Z) :=
  imap (fun i a => (cstr name ++ [49 + Z.of_nat i], a)) addrs.

(** The documented keys and their texts; the key only for a service that
    encrypts. *)
Definition service_entries (s : potr_service_def) : list (list Z * list Z) :=
  [(cstr "type", cstr (type_name (service_type s))); (cstr "dst_port", decimal (dst_port s));
   (cstr "src_port", decimal (src_port s)); (cstr "multicast_group", multicast_group s);
   (cstr "ttl", decimal (ttl s)); (cstr "broadcast_addr", broadcast_addr s);
   (cstr "pack_wait_ms", decimal (pack_wait_ms s)); (cstr "max_peers", decimal (max_peers_def s));
   (cstr "health_interval_ms", decimal (service_health_interval_ms s));
   (cstr "health_timeout_ms", decimal (service_health_timeout_ms s));
   (cstr "reconnect_interval_ms", decimal (reconnect_interval_ms s));
   (cstr "connect_timeout_ms", decimal (connect_timeout_ms s))]
  ++ path_entries "src_addr" (src_addr s) ++ path_entries "dst_addr" (dst_addr s)
  ++ (if encrypt_enabled s then [(cstr "encrypt_key", hex_text (encrypt_key s))] else []).

(** A service of a known type; the key of one that does not encrypt is empty. *)
Record writable (s : potr_service_def) : Prop := {
  wr_wf : service_wf s;
  wr_type : service_type s <> POTR_TYPE_OTHER;
  wr_key : encrypt_enabled s = false -> encrypt_key s = replicate POTR_CRYPTO_KEY_SIZE 0
}.

Definition entry_fields (enabled : bool) : list service_field :=
  [FType; FDstPort; FSrcPort; FGroup; FTtl; FBroadcast; FPack; FPeers; FInterval; FTimeout; FReconnect; FConnect;
   FSrcAddr [49]; FSrcAddr [50]; FSrcAddr [51]; FSrcAddr [52];
   FDstAddr [49]; FDstAddr [50]; FDstAddr [51]; FDstAddr [52]] ++ (if enabled then [FKey] else []).

Lemma four_addrs (addrs : list (list Z)) : length addrs = POTR_MAX_PATH -> exists a b c d, addrs = [a; b; c; d].
Proof. destruct addrs as [|a [|b [|c [|d [|]]]]]; try done. by exists a, b, c, d. Qed.

Lemma entries_keys s :
  length (src_addr s) = POTR_MAX_PATH -> length (dst_addr s) = POTR_MAX_PATH ->
  map (fun kv => key_field kv.1) (service_entries s) = map Some (entry_fields (encrypt_enabled s)).
Proof.
  intros (a & b & c & d & Hs)%four_addrs (a' & b' & c' & d' & Hd)%four_addrs.
  unfold service_entries. rewrite Hs, Hd. destruct (encrypt_enabled s); vm_compute; reflexivity.
Qed.

Lemma entries_nodup s :
  length (src_addr s) = POTR_MAX_PATH -> length (dst_addr s) = POTR_MAX_PATH ->
  NoDup (map (fun kv => key_field kv.1) (service_entries s)).
Proof.
  intros Hs Hd. rewrite entries_keys by done.
  destruct (encrypt_enabled s); apply (bool_decide_eq_true_1 _); vm_compute; reflexivity.
Qed.

Lemma hex_digit_spec n : 0 <= n < 16 -> isxdigit (hex_digit n) = true /\ hex_value (hex_digit n) = n.
Proof.
  intros Hn. unfold isxdigit, hex_digit, hex_value. destruct (Z.ltb_spec n 10); split.
  - lia.
  - destruct (Z.leb_spec (48 + n) 57); lia.
  - lia.
  - destruct (Z.leb_spec (87 + n) 57); [lia|]. destruct (Z.leb_spec (87 + n) 70); lia.
Qed.

Lemma byte_digits b : is_byte b -> 0 <= b / 16 < 16 /\ 0 <= b mod 16 < 16 /\ 16 * (b / 16) + b mod 16 = b.
Proof. unfold is_byte. intros Hb. Z.div_mod_to_equations. lia. Qed.

Lemma hex_text_digits key : Forall is_byte key ->
  length (hex_text key) = (2 * length key)%nat /\ forallb isxdigit (hex_text key) = true.
Proof.
  induction 1 as [|b key Hb _ [Hl Hf]]; [done|]. unfold hex_text in *. cbn [map concat app length forallb].
  destruct (byte_digits b Hb) as (H1 & H2 & _). rewrite (proj1 (hex_digit_spec _ H1)), (proj1 (hex_digit_spec _ H2)).
  split; [lia|done].
Qed.

Section Roundtrip.
Context `{ConfigLib} `{!ConfigLaws}.

Lemma hex_key_text key : Forall is_byte key -> forall old, length old = length key -> hex_key (hex_text key) old = key.
Proof.
  induction 1 as [|b key Hb _ IH]; intros [|o old] Hl; try done. cbn in Hl. unfold hex_text in *.
  destruct (byte_digits b Hb) as (H1 & H2 & Hsum). cbn [map concat app hex_key].
  rewrite parse_hex, (proj2 (hex_digit_spec _ H1)), (proj2 (hex_digit_spec _ H2)), Hsum
    by (apply hex_digit_spec; assumption).
  cbn [from_option]. rewrite IH by lia. f_equal. unfold u8. by apply Z.mod_small.
Qed.

Lemma parse_into_decimal bits z old : 0 <= z < 2 ^ bits -> parse_into bits (decimal z) old = z.
Proof. intros Hz. unfold parse_into. by rewrite parse_uint_decimal. Qed.

Lemma new_peers_decimal z old : 0 < z < 4294967296 -> new_peers (decimal z) old = z.
Proof.
  intros Hz. unfold new_peers. rewrite parse_uint_decimal by (change (2 ^ 32) with 4294967296; lia).
  by rewrite (proj2 (Z.ltb_lt _ _)) by lia.
Qed.

Lemma new_key_text key old :
  Forall is_byte key -> length key = POTR_CRYPTO_KEY_SIZE -> length old = POTR_CRYPTO_KEY_SIZE ->
  new_key (hex_text key) old = (key, true).
Proof.
  intros Hb Hl Ho. unfold new_key. destruct (hex_text_digits key Hb) as [Hlen Hx].
  rewrite Hx, Hlen, Hl. cbn [Nat.eqb Nat.mul POTR_CRYPTO_KEY_SIZE]. rewrite hex_key_text by congruence. done.
Qed.

Lemma trunc_fit a : addr_fits a -> copy_cstr_trunc POTR_MAX_ADDR_LEN a = a.
Proof. unfold addr_fits, copy_cstr_trunc, POTR_MAX_ADDR_LEN. intros Ha. apply take_ge. lia. Qed.

Lemma parse_type_name t old : t <> POTR_TYPE_OTHER -> parse_type service_type_names (cstr (type_name t)) old = t.
Proof. by destruct t. Qed.

Lemma fold_entries_canonical s : writable s ->
  foldl apply_entry (service_defaults (service_id s)) (service_entries s) = s.
Proof.
  intros [Hwf Ht Hkey]. destruct (sw_src _ Hwf) as [Hsl Hsf], (sw_dst _ Hwf) as [Hdl Hdf].
  rewrite (fold_fields _ (entry_fields (encrypt_enabled s))) by by apply entries_keys.
  apply four_addrs in Hsl as (a & b & c & d & Hs), Hdl as (a' & b' & c' & d' & Hd).
  destruct s as [id t dp sp tl pw mg ba sa da key en mp hi hto rc ct]. cbn in Hs, Hd. subst sa da.
  cbn [src_addr dst_addr] in Hsf, Hdf.
  repeat match goal with Hf : Forall addr_fits (_ :: _) |- _ => apply Forall_cons_1 in Hf as [? ?] end.
  destruct Hwf as [Hdp Hsp Htl Hpw Hmg Hba _ _ [Hkl Hkb] Hmp Hhi Hhto Hrc Hct].
  cbn [dst_port src_port ttl pack_wait_ms multicast_group broadcast_addr encrypt_key max_peers_def
    service_health_interval_ms service_health_timeout_ms reconnect_interval_ms connect_timeout_ms service_type
    encrypt_enabled] in *.
  destruct en;
    cbv -[decimal copy_cstr_trunc parse_into new_peers new_key parse_type cstr type_name hex_text POTR_MAX_ADDR_LEN
      service_type_names];
    rewrite !trunc_fit, parse_type_name, new_peers_decimal by assumption;
    rewrite ?new_key_text by first [assumption | reflexivity];
    rewrite !parse_into_decimal by assumption; cbn [fst snd].
  - done.
  - by rewrite Hkey.
Qed.
End Roundtrip.

(** C25. A service written down with the documented keys is loaded unchanged:
    whatever the order of the keys and whatever other items without a text are
    among them, [potr_internal_config_load_service] returns the definition whose
    numbers were printed in decimal, whose type was given by its name, whose
    addresses fit their buffers and whose encryption key was printed in
    hexadecimal; only exhausted memory can prevent it. *)
Theorem config_roundtrip `{CplatByteorder} `{Platform} `{Host} `{ConfigLib} `{!ConfigLaws}
    path lines root services section s old w :
  file_lines path = Some lines -> cJSON_ParseJSONC (concat lines) = Some root -> cJSON_IsObject root = true ->
  cJSON_GetObjectItem root (cstr "services") = Some services -> cJSON_IsObject services = true ->
  cJSON_GetObjectItem services (decimal (service_id s)) = Some section -> cJSON_IsObject section = true ->
  texts (json_children section) ≡ₚ service_entries s -> writable s ->
  exists rc d t', potr_internal_config_load_service (Some path) (service_id s) (Some old) w
      = Some ((rc, d), World (w_ctx w) t', []) /\
    (rc = POTR_OK /\ d = Some s \/ rc = POTR_ERR_OUT_OF_MEMORY /\ d = Some old).
Proof.
  intros Hf Hp Hr Hs Hso Hi Hio Hperm Hw. unfold potr_internal_config_load_service.
  destruct (config_read_total path w) as (r & t' & Hread & Hc). rewrite (bind_run_nil _ _ _ _ _ Hread).
  destruct (config_read_known _ _ _ _ Hf Hp Hr Hc) as [->| ->]; [|eexists _, _, t'; split; [done|]; by right].
  cbv zeta. rewrite Hs. cbn [object_or_missing from_option mbind option_bind].
  rewrite Hso, Hi, Hio. cbn [negb]. eexists _, _, t'. split; [done|]. left. split; [done|]. f_equal.
  rewrite fold_items_texts, (fold_entries_permutation _ _ Hperm), fold_entries_canonical; [done|done|].
  rewrite Hperm. apply entries_nodup; apply (wr_wf _ Hw).
Qed.

(** ** The list of services *)

(** All sections with a number as key and an object as value, in the order of
    the file; the array grows before it overflows. *)
Lemma list_ids_total `{ConfigLib} `{Platform} sections : forall ids capacity x t,
  0 < capacity -> Z.of_nat (length ids) + Z.of_nat (length sections) < 1073741824 ->
  Z.of_nat (length ids) <= capacity ->
  exists r t', list_ids sections ids capacity (World x t) = Some (r, World x t', []) /\
    (r = Some (ids ++ omap section_id sections) \/ r = None).
Proof.
  induction sections as [|section sections IH]; intros ids capacity x t Hc Hn Hl; cbn [list_ids].
  { exists (Some ids), t. rewrite app_nil_r. auto. }
  cbn [length] in Hn. cbn [omap list_omap]. fold (omap section_id sections).
  destruct (section_id section) as [id|]; [|apply IH; lia].
  assert (forall c t1, 0 < c -> Z.of_nat (length ids) < c -> exists r t', (if Z.of_nat (length ids) <? c
      then list_ids sections (ids ++ [id]) c else fault) (World x t1) = Some (r, World x t', []) /\
    (r = Some (ids ++ id :: omap section_id sections) \/ r = None)) as Hstore.
  { intros c t1 Hc1 Hlt. rewrite (proj2 (Z.ltb_lt _ _)) by lia.
    destruct (IH (ids ++ [id]) c x t1) as (r & t' & Hr & Hres); [lia|rewrite length_app; cbn; lia..|].
    exists r, t'. by rewrite <- app_assoc in Hres. }
  cbv zeta. destruct (Z.leb_spec capacity (Z.of_nat (length ids))); [|apply Hstore; lia].
  rewrite (proj2 (Z.ltb_ge 2147483647 (capacity * 2))) by lia. rewrite tick_bind. cbn [w_ctx w_tick].
  destruct (alloc_ok t); cbn [negb]; [apply Hstore; lia|]. exists None, (S t). auto.
Qed.

(** ** A toy library *)

Inductive toy_json := JStr (s : list Z) | JInt (z : Z) | JObj (items : list (list Z * toy_json)).

Definition toy_children (j : toy_json) : list (list Z * toy_json) :=
  match j with JObj items => items | _ => [] end.

Fixpoint parse_digits (s : list Z) (acc : Z) : option Z :=
  match s with
  | [] => Some acc
  | c :: s => if (48 <=? c) && (c <=? 57) then parse_digits s (acc * 10 + (c - 48)) else None
  end.

Definition toy_parse_uint (bits : Z) (s : list Z) : option Z :=
  match s with
  | [] => None
  | _ => z ← parse_digits s 0; if z <? 2 ^ bits then Some z else None
  end.

Definition toy_parse_int64 (base : Z) (s : list Z) : option Z :=
  match s with
  | [] => None
  | [a; b] => if base =? 16 then Some (16 * hex_value a + hex_value b) else parse_digits s 0
  | _ => parse_digits s 0
  end.

(** The service that the file describes, with its items back to front. *)
Definition toy_service : potr_service_def := open_service POTR_TYPE_UNICAST.

Definition toy_section : toy_json :=
  JObj ((cstr "comment", JObj []) :: reverse (map (fun kv => (kv.1, JStr kv.2)) (service_entries toy_service))).
Definition toy_services : toy_json := JObj [(decimal 10, toy_section)].
Definition toy_root : toy_json :=
  JObj [(cstr "global", JObj [(cstr "window_size", JInt 2); (cstr "max_payload", JInt 64);
          (cstr "max_message_size", JInt 100); (cstr "send_queue_depth", JInt 4);
          (cstr "reorder_timeout_ms", JStr (cstr "9999999999"))]);
        (cstr "services", toy_services)].

Definition toy_config : ConfigLib := {|
  json := toy_json;
  file_lines _ := Some [cstr "{ }"];
  cJSON_ParseJSONC _ := Some toy_root;
  cJSON_IsObject j := match j with JObj _ => true | _ => false end;
  json_children := toy_children;
  cJSON_GetObjectItem j key := list_find (fun it => it.1 = key) (toy_children j) ≫= (fun p => Some p.2.2);
  cJSON_GetStringValue j := match j with JStr s => Some s | _ => None end;
  cJSON_GetInt64Value j := match j with JInt z => Some z | _ => None end;
  cplat_parse_uint := toy_parse_uint;
  cplat_parse_int64 := toy_parse_int64;
  cplat_passphrase_to_key s := Some (replicate POTR_CRYPTO_KEY_SIZE (u8 (Z.of_nat (length s))))
|}.

Lemma cstr_cons c s : cstr (String c s) = Z.of_N (N_of_ascii c) :: cstr s.
Proof. done. Qed.

Lemma digit_char n : (n < 10)%N -> Z.of_N (N_of_ascii (pretty_N_char n)) = 48 + Z.of_N n.
Proof.
  intros Hn. destruct n as [|p]; [reflexivity|].
  do 4 (destruct p as [p|p|]; try reflexivity; try lia).
Qed.

Lemma parse_digits_nonneg s : forall acc z, 0 <= acc -> parse_digits s acc = Some z -> 0 <= z.
Proof.
  induction s as [|c s IH]; intros acc z Ha; cbn; [by intros [= <-]|].
  destruct (_ && _) eqn:Hc; [|done]. apply IH. lia.
Qed.

Lemma parse_digits_pretty n : forall s, parse_digits (cstr (pretty_N_go n s)) 0 = parse_digits (cstr s) (Z.of_N n).
Proof.
  induction (N.lt_wf_0 n) as [n _ IH]; intros s. destruct (decide (0 < n)%N) as [Hp|Hz].
  - rewrite pretty_N_go_step, IH by (done || by apply N.div_lt). rewrite cstr_cons. cbn [parse_digits].
    pose proof (N.mod_lt n 10 ltac:(done)) as Hm. rewrite (digit_char _ Hm).
    assert ((48 <=? 48 + Z.of_N (n mod 10)) && (48 + Z.of_N (n mod 10) <=? 57) = true) as ->
      by (revert Hm; generalize (n mod 10)%N; lia).
    f_equal. pose proof (N.div_mod' n 10) as Hdm. revert Hdm. generalize (n / 10)%N (n mod 10)%N. lia.
  - assert (n = 0)%N as -> by lia. done.
Qed.

Lemma toy_parse_decimal bits z : 0 <= z < 2 ^ bits -> toy_parse_uint bits (decimal z) = Some z.
Proof.
  intros Hz. assert (parse_digits (decimal z) 0 = Some z /\ decimal z <> []) as [Hd Hne].
  { unfold decimal. destruct z as [|p|p]; [done| |lia].
    change (pretty (Z.pos p)) with (pretty (Npos p)). unfold pretty, pretty_N. rewrite decide_False by done.
    pose proof (parse_digits_pretty (Npos p) "") as Hp. split; [exact Hp|].
    intros He. rewrite He in Hp. cbn in Hp. injection Hp. done. }
  unfold toy_parse_uint. destruct (decimal z); [done|]. rewrite Hd. cbn [mbind option_bind].
  by rewrite (proj2 (Z.ltb_lt _ _)) by lia.
Qed.

#[export] Instance toy_config_laws : @ConfigLaws toy_config.
Proof.
  split; cbn.
  - intros bits s z Hz. unfold toy_parse_uint in Hz. destruct s as [|c s]; [done|].
    destruct (parse_digits (c :: s) 0) as [z'|] eqn:Hp; [|done]. cbn in Hz.
    destruct (Z.ltb_spec z' (2 ^ bits)) as [Hlt|]; [|done]. injection Hz as <-. split; [|done].
    by eapply parse_digits_nonneg.
  - apply toy_parse_decimal.
  - done.
  - intros s key [= <-]. split; [done|].
    change (Forall is_byte (replicate 32 (u8 (Z.of_nat (length s))))). apply Forall_replicate, u8_range.
Qed.

Lemma toy_service_writable : writable toy_service.
Proof.
  split; [|done|done]. split; cbn; unfold addr_fits, addrs_fit, POTR_MAX_ADDR_LEN; cbn; try lia.
  - split; [done|]. by apply (bool_decide_eq_true_1 _).
  - split; [done|]. by apply (bool_decide_eq_true_1 _).
  - split; [done|]. change (Forall is_byte (replicate 32 7)). apply Forall_replicate. unfold is_byte. lia.
Qed.

Lemma toy_section_texts :
  @texts toy_config (@json_children toy_config toy_section) ≡ₚ service_entries toy_service.
Proof.
  assert (@texts toy_config (@json_children toy_config toy_section) = reverse (service_entries toy_service)) as ->
    by (vm_compute; reflexivity).
  apply reverse_Permutation.
Qed.

Lemma config_roundtrip_witness :
  exists rc d t', @potr_internal_config_load_service toy_platform toy_config (Some (cstr "porter.jsonc")) 10
      (Some zero_service) (World (example_ctx POTR_TYPE_TCP false) 0)
      = Some ((rc, d), World (example_ctx POTR_TYPE_TCP false) t', []) /\
    (rc = POTR_OK /\ d = Some toy_service \/ rc = POTR_ERR_OUT_OF_MEMORY /\ d = Some zero_service).
Proof.
  apply (@config_roundtrip little_host toy_platform toy_host toy_config toy_config_laws (cstr "porter.jsonc")
    [cstr "{ }"] toy_root toy_services toy_section toy_service);
    [reflexivity | reflexivity | reflexivity | vm_compute; reflexivity | reflexivity | vm_compute; reflexivity
    | reflexivity | exact toy_section_texts | exact toy_service_writable].
Defined.

Lemma config_values_typed_witness :
  exists rc g t', @potr_internal_config_load_global toy_platform toy_config (Some (cstr "porter.jsonc"))
      (Some zero_global) (World (example_ctx POTR_TYPE_TCP false) 0)
      = Some ((rc, Some g), World (example_ctx POTR_TYPE_TCP false) t', []) /\
    global_wf g /\ (rc = POTR_OK \/ load_error rc).
Proof.
  exact (proj1 (@config_values_typed little_host toy_platform toy_host toy_config toy_config_laws
    (cstr "porter.jsonc") 10 zero_global zero_service (World (example_ctx POTR_TYPE_TCP false) 0))).
Defined.

(** The settings out of range keep their defaults. *)
Example toy_global_loaded :
  option_map (fun r => fst (fst r)) (@potr_internal_config_load_global toy_platform toy_config
    (Some (cstr "porter.jsonc")) (Some zero_global) (World (example_ctx POTR_TYPE_TCP false) 0))
  = Some (POTR_OK, Some (GlobalConfig 2 64 0 100 4 3000 10000 10000 31000 5000)).
Proof. vm_compute. reflexivity. Qed.

#[local] Abbreviation config_open :=
  (@potr_service_open_from_config little_host toy_platform toy_host toy_config (Some (cstr "porter.jsonc")) 10
     POTR_ROLE_RECEIVER true true (World (example_ctx POTR_TYPE_TCP false) 0)).

Lemma config_open_run : exists w es, config_open = Some ((POTR_OK, true), w, es).
Proof.
  destruct config_open as [[[[rc live] w] es]|] eqn:Hr; [|by vm_compute in Hr].
  exists w, es. vm_compute in Hr. by injection Hr as <- <- _ _.
Qed.

Lemma config_open_all_or_nothing_witness :
  exists w es g s, config_open = Some ((POTR_OK, true), w, es) /\ service_id s = 10 /\
    @opened little_host g (service_type s) POTR_ROLE_RECEIVER true (w_ctx w).
Proof.
  destruct config_open_run as (w & es & Hr).
  destruct (@config_open_all_or_nothing little_host toy_platform toy_errors toy_host toy_config toy_config_laws
    (cstr "porter.jsonc") 10 POTR_ROLE_RECEIVER true (World (example_ctx POTR_TYPE_TCP false) 0))
    as (rc & live & w' & es' & Hr' & Hok & _).
  rewrite Hr in Hr'. injection Hr' as <- <- <- <-.
  destruct (Hok eq_refl) as (_ & g & s & _ & _ & Hid & Hop).
  exists w, es, g, s. split; [exact Hr|]. split; [exact Hid|exact Hop].
Defined.
