(* ===== verification/Trace.v ===== *)
(** The tracer of the library: potr_trace.c.  It is created on first use,
    through [cplat_call_once]. *)

From stdpp Require Import base list numbers option strings.
From Stdlib Require Import ZArith Lia ZifyBool Ascii.
From S2P Require Import Prelude Types Config.
Local Open Scope Z_scope.
Local Open Scope porter_scope.

(** The tracing library: what the [n]-th call of [cplat_tracer_create] returns
    ([None] is a null pointer), and the text of an error. *)
Class TraceLib := {
  tracer : Type;
  cplat_tracer_create : nat -> option tracer;
  error_detail : Type;
  cplat_error_message : error_detail -> list Z;
  cplat_path_basename : list Z -> list Z
}.

Section Trace.
Context `{TraceLib}.

(** [s_trace], the flag of [cplat_call_once], and the calls of the library. *)
Record trace_state := TraceState {
  s_trace : option tracer;
  s_trace_once : bool;
  tr_creates : nat;
  tr_named : nat
}.

Definition trace_start : trace_state := TraceState None false 0 0.

Definition create_trace (s : trace_state) : trace_state :=
  let t := cplat_tracer_create (tr_creates s) in
  TraceState t (s_trace_once s) (S (tr_creates s)) (match t with Some _ => S (tr_named s) | None => tr_named s end).

(** [cplat_call_once] runs the function unless it has run; callers that arrive
    meanwhile wait for it, so that the calls of all threads are in sequence. *)
Definition trace_call_once (s : trace_state) : trace_state :=
  if s_trace_once s then s
  else let s := create_trace s in TraceState (s_trace s) true (tr_creates s) (tr_named s).

Definition potr_internal_trace_get (s : trace_state) : option tracer * trace_state :=
  let s := trace_call_once s in (s_trace s, s).

Definition potr_tracer_get (s : trace_state) : option tracer * trace_state := potr_internal_trace_get s.

(** [cplat_vsnprintf] and [cplat_error_message] into a buffer of 256 bytes. *)
Definition trace_buffer (text : list Z) : list Z := take 255 text.

(** A line written to the tracer: the place, the context and the error. *)
Record trace_line := TraceLine {
  tl_tracer : option tracer;
  tl_file : list Z;
  tl_line : Z;
  tl_context : list Z;
  tl_message : list Z
}.

Definition potr_internal_trace_socket_failure_at (file : option (list Z)) (line : Z)
    (detail : option error_detail) (format : option (list Z)) (s : trace_state)
    : option trace_line * trace_state :=
  match file, detail, format with
  | Some file, Some detail, Some text =>
      let context := trace_buffer text in
      let message := trace_buffer (cplat_error_message detail) in
      let '(t, s) := potr_internal_trace_get s in
      (Some (TraceLine t (cplat_path_basename file) line context message), s)
  | _, _, _ => (None, s)
  end.

(** The calls of any number of threads, in the order [cplat_call_once] gives
    them. *)
Fixpoint trace_gets (n : nat) (s : trace_state) : list (option tracer) * trace_state :=
  match n with
  | O => ([], s)
  | S n => let '(t, s) := potr_internal_trace_get s in let '(ts, s) := trace_gets n s in (t :: ts, s)
  end.

Lemma get_again s : s_trace_once s = true -> potr_internal_trace_get s = (s_trace s, s).
Proof. intros Hs. unfold potr_internal_trace_get, trace_call_once. by rewrite Hs. Qed.

(** The tracer is created once, named once if it could be created, and every
    caller gets that tracer. *)
Theorem tracer_created_once n : let '(ts, s) := trace_gets (S n) trace_start in
  ts = replicate (S n) (cplat_tracer_create 0) /\ tr_creates s = 1%nat /\
  tr_named s = (if cplat_tracer_create 0 is Some _ then 1 else 0)%nat.
Proof.
  assert (forall m s, s_trace_once s = true -> trace_gets m s = (replicate m (s_trace s), s)) as Hm.
  { induction m as [|m IH]; intros s Hs; [done|]. cbn [trace_gets]. by rewrite get_again, IH. }
  cbn [trace_gets]. unfold potr_internal_trace_get, trace_call_once. cbn [trace_start s_trace_once].
  rewrite Hm by done. cbn [s_trace create_trace tr_creates tr_named replicate]. done.
Qed.
End Trace.
