(* ===== verification/Text.v ===== *)
(** C strings in a buffer: the string routines of porter-test.c.

    A buffer is its bytes, a pointer into it an index ([None] is the null
    pointer), and an access outside the buffer is a fault ([None] as a result).
    The routines scan for the terminating NUL and cut the line into pieces by
    writing NULs into it.  Each comes with the function on strings it computes. *)

From stdpp Require Import base list numbers option strings.
From Stdlib Require Import ZArith Lia ZifyBool Ascii.
From S2P Require Import Prelude Types Config.
Local Open Scope Z_scope.
Local Open Scope porter_scope.

(** ** The routines *)

(** The characters that separate words. *)
Definition is_blank (c : Z) : bool := (c =? 32) || (c =? 9).

Definition store_char (buf : list Z) (p : nat) (c : Z) : option (list Z) :=
  if (p <? length buf)%nat then Some (<[p:=c]> buf) else None.

(** The loops get one turn per byte of the buffer and one more. *)
Fixpoint skip_loop (fuel : nat) (buf : list Z) (p : nat) : option nat :=
  match fuel with
  | O => None
  | S fuel => c ← buf !! p; if is_blank c then skip_loop fuel buf (S p) else Some p
  end.

Definition skip_spaces (buf : list Z) (p : option nat) : option (option nat) :=
  match p with
  | None => Some None
  | Some p => q ← skip_loop (S (length buf)) buf p; Some (Some q)
  end.

Fixpoint strlen_loop (fuel : nat) (buf : list Z) (p : nat) : option nat :=
  match fuel with
  | O => None
  | S fuel => c ← buf !! p; if c =? 0 then Some O else n ← strlen_loop fuel buf (S p); Some (S n)
  end.

Definition strlen (buf : list Z) (p : nat) : option nat := strlen_loop (S (length buf)) buf p.

Fixpoint trim_loop (buf : list Z) (s len : nat) : option nat :=
  match len with
  | O => Some O
  | S l => c ← buf !! (s + l)%nat; if is_blank c then trim_loop buf s l else Some len
  end.

Definition trim_right (buf : list Z) (s : option nat) : option (list Z) :=
  match s with
  | None => Some buf
  | Some s =>
      len ← strlen buf s;
      len ← trim_loop buf s len;
      store_char buf (s + len) 0
  end.

Fixpoint word_loop (fuel : nat) (buf : list Z) (p : nat) : option nat :=
  match fuel with
  | O => None
  | S fuel => c ← buf !! p; if negb (c =? 0) && negb (is_blank c) then word_loop fuel buf (S p) else Some p
  end.

(** The token, the new [*cursor] and the buffer. *)
Definition next_token (buf : list Z) (cursor : option nat) : option (option nat * option nat * list Z) :=
  match cursor with
  | None => Some (None, None, buf)
  | Some _ =>
      p ← skip_spaces buf cursor;
      p ← p;
      c ← buf !! p;
      if c =? 0 then Some (None, Some p, buf)
      else
        q ← word_loop (S (length buf)) buf p;
        c ← buf !! q;
        if negb (c =? 0) then buf ← store_char buf q 0; Some (Some p, Some (S q), buf)
        else Some (Some p, Some q, buf)
  end.

(** The first and the last character of a string of [len] at [value] are [quote]. *)
Definition quoted_by (quote : Z) (buf : list Z) (value len : nat) : option bool :=
  first ← buf !! value;
  if negb (first =? quote) then Some false
  else last ← buf !! (value + len - 1)%nat; Some (last =? quote).

Definition strip_matching_quotes (buf : list Z) (value : option nat) : option (nat * list Z) :=
  value ← skip_spaces buf value;
  buf ← trim_right buf value;
  value ← value;
  len ← strlen buf value;
  if (2 <=? len)%nat then
    d ← quoted_by 34 buf value len;
    q ← (if d : bool then Some true else quoted_by 39 buf value len);
    if q : bool then buf ← store_char buf (value + len - 1) 0; Some (S value, buf)
    else Some (value, buf)
  else Some (value, buf).

(** The comparison loop of [strcmp] and [strncmp]: do the bytes at [p] start
    with [lit]?  It stops at the first difference. *)
Fixpoint match_at (buf : list Z) (p : nat) (lit : list Z) : option bool :=
  match lit with
  | [] => Some true
  | c :: lit => b ← buf !! p; if b =? c then match_at buf (S p) lit else Some false
  end.

Definition strcmp_eq (buf : list Z) (p : nat) (s : string) : option bool := match_at buf p (cstr s ++ [0]).
Definition strncmp_eq (buf : list Z) (p : nat) (s : string) : option bool := match_at buf p (cstr s).

(** The string at [p], as [printf] reads it for [%s]. *)
Definition string_at (buf : list Z) (p : nat) : option (list Z) :=
  n ← strlen buf p; Some (take n (drop p buf)).

(** ** The same on strings *)

Fixpoint drop_blanks (s : list Z) : list Z :=
  match s with c :: s' => if is_blank c then drop_blanks s' else s | [] => [] end.

Definition rtrim (s : list Z) : list Z := reverse (drop_blanks (reverse s)).

(** The first word of a string that does not start with a blank, and what
    follows the blank behind it. *)
Fixpoint word (s : list Z) : list Z :=
  match s with c :: s => if is_blank c then [] else c :: word s | [] => [] end.
Fixpoint after_word (s : list Z) : list Z :=
  match s with c :: s => if is_blank c then s else after_word s | [] => [] end.

Definition split_word (s : list Z) : option (list Z) * list Z :=
  match drop_blanks s with [] => (None, []) | s => (Some (word s), after_word s) end.

Definition unquote (s : list Z) : list Z :=
  let s := rtrim (drop_blanks s) in
  if (2 <=? length s)%nat &&
     (bool_decide (head s = Some 34 /\ last s = Some 34) || bool_decide (head s = Some 39 /\ last s = Some 39))
  then take (length s - 2) (drop 1 s) else s.

(** ** Strings in a buffer *)

Definition nonul (s : list Z) : Prop := Forall (fun c => c <> 0) s.

(** [buf] holds the string [s] at [p]. *)
Definition holds_str (buf : list Z) (p : nat) (s : list Z) : Prop :=
  nonul s /\ exists pre post, buf = pre ++ s ++ 0 :: post /\ p = length pre.

Lemma lookup_mid {A} (pre : list A) x post : (pre ++ x :: post) !! length pre = Some x.
Proof. by rewrite lookup_app_r, Nat.sub_diag by lia. Qed.

Lemma insert_mid {A} (pre : list A) x y post : <[length pre:=y]> (pre ++ x :: post) = pre ++ y :: post.
Proof. by rewrite <- (Nat.add_0_r (length pre)), insert_app_r. Qed.

Lemma store_mid pre x y post : store_char (pre ++ x :: post) (length pre) y = Some (pre ++ y :: post).
Proof.
  unfold store_char. rewrite length_app. cbn [length]. rewrite (proj2 (Nat.ltb_lt _ _)) by lia.
  by rewrite insert_mid.
Qed.

Lemma not_blank_nul : is_blank 0 = false.
Proof. done. Qed.

(** What a loop may assume of its fuel. *)
Lemma holds_fuel buf p s : holds_str buf p s -> (length s + p < length buf)%nat.
Proof. intros (_ & pre & post & -> & ->). rewrite !length_app. cbn [length]. lia. Qed.

(** A scan sees the first character of the string, or the NUL. *)
Lemma holds_head buf p s : holds_str buf p s -> buf !! p = Some (default 0 (head s)).
Proof. intros (_ & pre & post & -> & ->). destruct s; apply lookup_mid. Qed.

Lemma holds_tail buf p c s : holds_str buf p (c :: s) -> holds_str buf (S p) s.
Proof.
  intros (Hn & pre & post & -> & ->). apply Forall_cons_1 in Hn as [_ Hn]. split; [done|].
  exists (pre ++ [c]), post. rewrite <- app_assoc, length_app. cbn [length]. split; [done|lia].
Qed.

Lemma holds_char buf p c s : holds_str buf p (c :: s) -> (c =? 0) = false.
Proof. intros (Hn & _). apply Forall_cons_1 in Hn as [? _]. lia. Qed.

Lemma skip_loop_spec fuel s : forall buf p, holds_str buf p s -> (length s < fuel)%nat ->
  exists q, skip_loop fuel buf p = Some q /\ holds_str buf q (drop_blanks s) /\ (p <= q)%nat.
Proof.
  revert s. induction fuel as [|fuel IH]; intros s buf p Hs Hf; [lia|]. cbn [skip_loop].
  rewrite (holds_head _ _ _ Hs). cbn [mbind option_bind]. destruct s as [|c s]; cbn [head default drop_blanks].
  { by exists p. }
  cbn [from_option id]. destruct (is_blank c); [|by exists p].
  destruct (IH s buf (S p)) as (q & Hq & Hh & Hle); [by eapply holds_tail|cbn [length] in Hf; lia|].
  exists q. split; [done|]. split; [done|lia].
Qed.

Lemma skip_spaces_spec buf p s : holds_str buf p s ->
  exists q, skip_spaces buf (Some p) = Some (Some q) /\ holds_str buf q (drop_blanks s) /\ (p <= q)%nat.
Proof.
  intros Hs. pose proof (holds_fuel _ _ _ Hs). unfold skip_spaces.
  destruct (skip_loop_spec (S (length buf)) s buf p Hs) as (q & -> & Hq & Hle); [lia|]. by exists q.
Qed.

Lemma strlen_loop_spec fuel s : forall buf p, holds_str buf p s -> (length s < fuel)%nat ->
  strlen_loop fuel buf p = Some (length s).
Proof.
  revert s. induction fuel as [|fuel IH]; intros s buf p Hs Hf; [lia|]. cbn [strlen_loop].
  rewrite (holds_head _ _ _ Hs). cbn [mbind option_bind]. destruct s as [|c s]; [done|].
  cbn [head default from_option id]. unfold id. rewrite (holds_char _ _ _ _ Hs).
  rewrite (IH s); [done|by eapply holds_tail|cbn [length] in Hf; lia].
Qed.

Lemma strlen_spec buf p s : holds_str buf p s -> strlen buf p = Some (length s).
Proof. intros Hs. apply strlen_loop_spec; [done|]. pose proof (holds_fuel _ _ _ Hs). lia. Qed.

Lemma string_at_spec buf p s : holds_str buf p s -> string_at buf p = Some s.
Proof.
  intros Hs. unfold string_at. rewrite (strlen_spec _ _ _ Hs). cbn [mbind option_bind].
  destruct Hs as (_ & pre & post & -> & ->). by rewrite drop_app_length, take_app_length.
Qed.

Lemma rtrim_snoc s c : rtrim (s ++ [c]) = if is_blank c then rtrim s else s ++ [c].
Proof.
  unfold rtrim. rewrite reverse_app.
  change (reverse [c]) with [c]. cbn [app drop_blanks]. destruct (is_blank c); [done|].
  by rewrite reverse_cons, reverse_involutive.
Qed.

Lemma rtrim_prefix s : exists t, s = rtrim s ++ t.
Proof.
  induction s as [|c s [t IH]] using rev_ind; [by exists []; vm_compute|]. rewrite rtrim_snoc.
  destruct (is_blank c); [|exists []; by rewrite app_nil_r]. exists (t ++ [c]). by rewrite app_assoc, <- IH.
Qed.

Lemma trim_loop_spec pre s post : trim_loop (pre ++ s ++ post) (length pre) (length s) = Some (length (rtrim s)).
Proof.
  revert post. induction s as [|c s IH] using rev_ind; intros post; [done|].
  rewrite length_app, Nat.add_1_r. cbn [trim_loop]. rewrite <- app_assoc, (app_assoc pre s).
  replace (length pre + length s)%nat with (length (pre ++ s)) by apply length_app.
  cbn [app]. rewrite lookup_mid. cbn [mbind option_bind]. rewrite rtrim_snoc.
  destruct (is_blank c); [|by rewrite length_app, Nat.add_1_r]. rewrite <- app_assoc. apply IH.
Qed.

Lemma nonul_app a b : nonul (a ++ b) <-> nonul a /\ nonul b.
Proof. apply Forall_app. Qed.

Lemma trim_right_spec buf p s : holds_str buf p s ->
  exists buf', trim_right buf (Some p) = Some buf' /\ holds_str buf' p (rtrim s).
Proof.
  intros Hs. unfold trim_right. rewrite (strlen_spec _ _ _ Hs). cbn [mbind option_bind].
  destruct Hs as (Hn & pre & post & -> & ->). rewrite trim_loop_spec. cbn [mbind option_bind].
  destruct (rtrim_prefix s) as [t Ht]. revert Ht. generalize (rtrim s) as r. intros r ->. apply nonul_app in Hn as [Hn _].
  assert (exists c post', t ++ 0 :: post = c :: post') as (c & post' & Hc) by (destruct t; by eexists _, _).
  rewrite <- app_assoc, Hc, (app_assoc pre), <- (length_app pre r), store_mid. eexists. split; [done|].
  split; [done|]. exists pre, post'. by rewrite <- app_assoc.
Qed.

(** *** Words *)

Lemma word_split s : exists t, s = word s ++ t /\ (t = [] /\ after_word s = [] \/ exists c, is_blank c = true /\ t = c :: after_word s).
Proof.
  induction s as [|c s (t & IH & Ht)]; cbn [word after_word]; [exists []; auto|].
  destruct (is_blank c) eqn:Hb; [exists (c :: s); eauto|]. exists t. split; [by rewrite IH at 1|done].
Qed.

Lemma word_loop_spec fuel s : forall buf p, holds_str buf p s -> (length s < fuel)%nat ->
  word_loop fuel buf p = Some (p + length (word s))%nat.
Proof.
  revert s. induction fuel as [|fuel IH]; intros s buf p Hs Hf; [lia|]. cbn [word_loop].
  rewrite (holds_head _ _ _ Hs). cbn [mbind option_bind]. destruct s as [|c s].
  { cbn. by rewrite Nat.add_0_r. }
  cbn [head default from_option id word]. unfold id. rewrite (holds_char _ _ _ _ Hs). cbn [negb andb].
  destruct (is_blank c); cbn [negb length]; [by rewrite Nat.add_0_r|].
  rewrite (IH s); [by rewrite Nat.add_succ_r|by eapply holds_tail|cbn [length] in Hf; lia].
Qed.

Lemma holds_sub buf p s t : holds_str buf p (s ++ t) -> holds_str buf (p + length s) t.
Proof.
  intros (Hn & pre & post & -> & ->). apply nonul_app in Hn as [_ Hn]. split; [done|].
  exists (pre ++ s), post. by rewrite length_app, <- !app_assoc.
Qed.

(** Cutting a string at its character [c]. *)
Lemma holds_cut buf p s c t : holds_str buf p (s ++ c :: t) ->
  exists buf', store_char buf (p + length s) 0 = Some buf' /\ holds_str buf' p s /\ holds_str buf' (S (p + length s)) t.
Proof.
  intros (Hn & pre & post & -> & ->). rewrite <- app_assoc, (app_assoc pre), <- length_app. cbn [app].
  rewrite store_mid. eexists. split; [done|]. apply nonul_app in Hn as [Hs Ht]. apply Forall_cons_1 in Ht as [_ Ht].
  split; (split; [done|]).
  - exists pre, (t ++ 0 :: post). by rewrite <- app_assoc.
  - exists ((pre ++ s) ++ [0]), post. rewrite <- (app_assoc (pre ++ s)), (length_app (pre ++ s)). cbn [length].
    split; [done|lia].
Qed.

(** Writing behind the end of a string leaves it alone. *)
Lemma store_frame buf e v buf' a u : store_char buf e v = Some buf' -> holds_str buf a u ->
  (a + length u < e)%nat -> holds_str buf' a u.
Proof.
  unfold store_char. destruct (_ <? _)%nat; [|done]. intros [= <-] (Hn & pre & post & -> & ->) Hlt.
  split; [done|]. exists pre. exists (<[(e - length pre - length u - 1)%nat := v]> post). split; [|done].
  rewrite insert_app_r_alt by lia. rewrite insert_app_r_alt by lia.
  destruct (e - length pre - length u)%nat as [|n] eqn:Hn'; [lia|]. cbn [insert list_insert].
  by rewrite Nat.sub_1_r.
Qed.

Lemma holds_end buf a u : holds_str buf a u -> buf !! (a + length u)%nat = Some 0.
Proof.
  intros (_ & pre & post & -> & ->). rewrite app_assoc, <- length_app. apply lookup_mid.
Qed.

(** What [next_token] leaves of the strings in front of the cursor. *)
Definition keeps_strings (buf buf' : list Z) (p : nat) : Prop :=
  forall a u, holds_str buf a u -> (a + length u <= p)%nat -> holds_str buf' a u.

Lemma next_token_spec buf p s : holds_str buf p s ->
  match split_word s with
  | (None, _) => exists q, next_token buf (Some p) = Some (None, Some q, buf) /\ holds_str buf q []
  | (Some w, rest) => exists t q buf', next_token buf (Some p) = Some (Some t, Some q, buf') /\
      holds_str buf' t w /\ holds_str buf' q rest /\ (t + length w <= q)%nat /\ (p <= q)%nat /\
      keeps_strings buf buf' p
  end.
Proof.
  intros Hs. unfold split_word, next_token. destruct (skip_spaces_spec _ _ _ Hs) as (q & -> & Hq & Hle).
  cbn [mbind option_bind]. rewrite (holds_head _ _ _ Hq). cbn [mbind option_bind].
  destruct (drop_blanks s) as [|c s'] eqn:Hd; [by exists q|].
  cbn [head default from_option id]. unfold id. rewrite (holds_char _ _ _ _ Hq). pose proof (holds_fuel _ _ _ Hq).
  rewrite (word_loop_spec _ _ _ _ Hq) by lia. cbn [mbind option_bind].
  destruct (word_split (c :: s')) as (t & Ht & Hafter). set (w := word (c :: s')) in *.
  assert (holds_str buf q (w ++ t)) as Hwt by by rewrite <- Ht.
  rewrite (holds_head _ _ _ (holds_sub _ _ _ _ Hwt)). cbn [mbind option_bind].
  destruct Hafter as [[-> Ha]|(b & Hb & ->)].
  - cbn [head default from_option Z.eqb negb]. rewrite app_nil_r in Hwt. eexists _, _, _. split; [done|].
    split; [done|]. rewrite Ha. rewrite <- (app_nil_r w) in Hwt. split; [by apply holds_sub in Hwt|].
    split; [lia|]. split; [lia|]. by intros a u Hu _.
  - destruct (holds_cut _ _ _ _ _ Hwt) as (buf' & Hst & H1 & H2).
    apply holds_sub in Hwt. cbn [head default from_option id]. unfold id.
    rewrite (holds_char _ _ _ _ Hwt). cbn [negb]. rewrite Hst. cbn [mbind option_bind].
    eexists _, _, _. split; [done|]. split; [done|]. split; [done|]. split; [lia|]. split; [lia|].
    intros a u Hu Hlu. eapply store_frame; [done..|].
    destruct (decide (a + length u = q + length w)%nat) as [He|]; [|lia].
    pose proof (holds_end _ _ _ Hu) as Hz. rewrite He, (holds_head _ _ _ Hwt) in Hz.
    injection Hz as Hz. cbn in Hz. by rewrite Hz in Hb.
Qed.

(** *** Comparing *)

Lemma cstr_nonul s : nonul (cstr s) -> forall buf p t, holds_str buf p t ->
  strcmp_eq buf p s = Some (bool_decide (t = cstr s)) /\
  strncmp_eq buf p s = Some (bool_decide (take (length (cstr s)) t = cstr s)).
Proof.
  unfold strcmp_eq, strncmp_eq. induction (cstr s) as [|c l IH]; intros Hl buf p t Ht; cbn [match_at app].
  - rewrite (holds_head _ _ _ Ht). cbn [mbind option_bind take length]. rewrite (bool_decide_true _ eq_refl).
    split; [|done]. destruct t as [|d t]; [done|]. cbn [head default from_option id]. unfold id.
    rewrite (holds_char _ _ _ _ Ht). by rewrite bool_decide_false.
  - apply Forall_cons_1 in Hl as [Hc Hl]. rewrite (holds_head _ _ _ Ht). cbn [mbind option_bind].
    destruct t as [|d t]; cbn [head default from_option id take length]; unfold id.
    { rewrite (proj2 (Z.eqb_neq _ _)) by done. by rewrite !bool_decide_false. }
    destruct (Z.eqb_spec d c) as [->|Hne].
    + destruct (IH Hl buf (S p) t (holds_tail _ _ _ _ Ht)) as [-> ->].
      split; f_equal; apply bool_decide_ext; split; [congruence|by intros [= ->]|congruence|by intros [= ->]].
    + rewrite !bool_decide_false by congruence. done.
Qed.

(** *** Quotes *)

Lemma quoted_by_spec buf p s quote : holds_str buf p s -> (2 <= length s)%nat ->
  quoted_by quote buf p (length s) = Some (bool_decide (head s = Some quote /\ last s = Some quote)).
Proof.
  intros Hs Hl. unfold quoted_by. rewrite (holds_head _ _ _ Hs). cbn [mbind option_bind].
  destruct s as [|c s] using rev_ind; [cbn in Hl; lia|]. clear IHs. rewrite last_snoc.
  destruct Hs as (Hn & pre & post & -> & ->). rewrite length_app in *. cbn [length] in *.
  destruct s as [|d s]; [cbn in Hl; lia|]. cbn [length head app default from_option id]. unfold id.
  destruct (Z.eqb_spec d quote) as [->|Hne]; cbn [negb].
  2: { rewrite bool_decide_false; [done|]. intros [[=] _]; done. }
  replace (length pre + (S (length s) + 1) - 1)%nat with (length (pre ++ quote :: s)) by (rewrite length_app; cbn; lia).
  replace (pre ++ quote :: (s ++ [c]) ++ 0 :: post) with ((pre ++ quote :: s) ++ c :: 0 :: post)
    by (rewrite <- app_assoc; cbn; by rewrite <- app_assoc).
  rewrite lookup_mid. cbn [mbind option_bind]. f_equal.
  destruct (Z.eqb_spec c quote) as [->|Hne]; [by rewrite bool_decide_true|].
  rewrite bool_decide_false; [done|]. intros [_ [=]]; done.
Qed.

Lemma strip_quotes_spec buf p s : holds_str buf p s ->
  exists q buf', strip_matching_quotes buf (Some p) = Some (q, buf') /\ holds_str buf' q (unquote s).
Proof.
  intros Hs. unfold strip_matching_quotes, unquote.
  destruct (skip_spaces_spec _ _ _ Hs) as (q & -> & Hq & Hle). cbn [mbind option_bind].
  destruct (trim_right_spec _ _ _ Hq) as (buf1 & -> & H1). cbn [mbind option_bind].
  revert H1. generalize (rtrim (drop_blanks s)) as r. intros r H1. cbv zeta.
  rewrite (strlen_spec _ _ _ H1). cbn [mbind option_bind].
  destruct (Nat.leb_spec 2 (length r)) as [Hl|Hl]; cbn [andb]; [|by exists q, buf1].
  rewrite !(quoted_by_spec _ _ _ _ H1 Hl). cbn [mbind option_bind].
  set (d := bool_decide (_ /\ last r = Some 34)). set (e := bool_decide (_ /\ last r = Some 39)).
  assert ((if d then Some true else Some e) = Some (d || e)) as -> by by destruct d. cbn [mbind option_bind].
  destruct (d || e); [|by exists q, buf1].
  destruct r as [|a r]; [cbn in Hl; lia|]. destruct r as [|z r _] using rev_ind; [cbn in Hl; lia|].
  destruct (holds_cut buf1 q (a :: r) z [] H1) as (buf2 & Hst & H2 & _).
  replace (q + length (a :: r ++ [z]) - 1)%nat with (q + length (a :: r))%nat
    by (cbn [length]; rewrite length_app; cbn [length]; lia).
  rewrite Hst. cbn [mbind option_bind]. exists (S q), buf2. split; [done|].
  rewrite skipn_cons, drop_0. cbn [length]. rewrite length_app. cbn [length].
  replace (S (length r + 1) - 2)%nat with (length r) by lia. rewrite take_app_length. by eapply holds_tail.
Qed.
