(* ===== verification/Console.v ===== *)
(** The interactive test command: porter-test.c.

    The command keeps one session with at most one open service and executes
    the lines typed at its prompt.  The prompt, the argument parser, files and
    the tracer are libraries; what they return is an argument of the
    definitions.  The console records what it prints and which functions of
    porter it calls. *)

From stdpp Require Import base list numbers option strings.
From Stdlib Require Import ZArith Lia ZifyBool Ascii.
From S2P Require Import Prelude Types Packet Window SendQueue Context PathEvent Validate PeerTable.
From S2P Require Import Send Threads OpenPaths Open Close Config Text.
Local Open Scope Z_scope.
Local Open Scope porter_scope.

Definition POTR_MAX_MESSAGE_SIZE : Z := 65535.
Definition PROMPT_STATE_SIZE : nat := 32.
Definition EXIT_SUCCESS : Z := 0.
Definition EXIT_FAILURE : Z := 1.

(** ** Libraries *)

(** A file that [cplat_fopen] opened: does [cplat_fseek] succeed, what
    [cplat_ftell] returns at its end, and the bytes [fread] finds. *)
Record open_file := OpenFile { f_seek_ok : bool; f_end : Z; f_bytes : list Z }.

(** The trace levels are constants of the platform library; the levels
    that force the output have counterparts without force. *)
Class ConsoleLib := {
  cplat_fopen : list Z -> option open_file;
  CPLAT_TRACE_LEVEL_CRITICAL : Z;
  CPLAT_TRACE_LEVEL_ERROR : Z;
  CPLAT_TRACE_LEVEL_WARNING : Z;
  CPLAT_TRACE_LEVEL_INFO : Z;
  CPLAT_TRACE_LEVEL_VERBOSE : Z;
  CPLAT_TRACE_LEVEL_NONE : Z;
  CPLAT_TRACE_LEVEL_IS_FORCE : Z -> bool;
  CPLAT_TRACE_LEVEL_FROM_FORCE : Z -> Z
}.

(** ** State *)

Record porter_test_session := Session {
  s_handle : bool;          (* is the handle non-null? *)
  s_service_id : Z;
  s_role : potr_role;
  is_open : bool;
  is_bidir : bool;
  can_send : bool
}.

Inductive channel := Stdout | Stderr.

(** What is printed, with the arguments of the format. *)
Inductive console_msg :=
  | MsgHelp | MsgHint | MsgStartHint | MsgUsageOpen | MsgUsageLog
  | MsgBadRole (role : list Z) | MsgBadId (text : list Z) | MsgBadLevel (level : list Z)
  | MsgLevelSet (level : list Z)
  | MsgAlreadyOpen | MsgOpening (id : Z) (path : list Z) | MsgOpenFailed (id : Z)
  | MsgBidir | MsgReadyToSend | MsgReceiving | MsgCanSendToo
  | MsgNotOpen | MsgClosed
  | MsgSendNotOpen | MsgReceiveOnly | MsgNoContent
  | MsgSending (is_file : bool) (text : list Z) (len : nat) (compress : bool)
  | MsgSent (is_file : bool) (text : list Z) (len : nat)
  | MsgNotConnected | MsgSendFailed
  | MsgFileOpen (path : list Z) | MsgFileRead | MsgFileEmpty | MsgFileSize (size : Z) | MsgFileMemory
  | MsgUnknown (command : list Z)
  | MsgEcho (prompt line : list Z)
  | MsgShutdown | MsgBye
  | MsgUsage | MsgPositional | MsgPromptFailed | MsgRegisterFailed | MsgArguments.

Inductive console_action :=
  | Print (ch : channel) (m : console_msg)
  | StartTracer
  | CallOpen (id : Z) (role : potr_role) (callback : bool) (ok : bool)
  | CallSend (data : list Z) (flags : Z)
  | CallClose.

Record console := Console {
  con_session : porter_test_session;
  s_trace_level : Z;
  s_tracer_started : bool;
  con_log : list console_action
}.

(** What the surroundings contribute to a command: the code of the queue
    operations of a send, and what other threads do while a service closes. *)
Record console_env := ConsoleEnv {
  env_queue_rc : Z;
  env_drain : M unit;
  env_wakeups : list (M unit * cplat_result)
}.

(** ** The console monad: the state of the console over a service *)

Definition C (A : Type) : Type := console -> M (A * console).

#[export] Instance C_ret : MRet C := fun A a c => mret (a, c).
#[export] Instance C_bind : MBind C := fun A B k m c => '(a, c') ← m c; k a c'.

Definition call {A} (m : M A) : C A := fun c => a ← m; mret (a, c).
Definition fetch {A} (o : option A) : C A := call (lift o).
Definition get_console : C console := fun c => mret (c, c).
Definition put_console (c : console) : C unit := fun _ => mret (tt, c).

Definition record (a : console_action) : C unit :=
  c ← get_console;
  put_console (Console (con_session c) (s_trace_level c) (s_tracer_started c) (con_log c ++ [a])).

Definition print (ch : channel) (m : console_msg) : C unit := record (Print ch m).

Definition get_session : C porter_test_session := c ← get_console; mret (con_session c).

Definition put_session (s : porter_test_session) : C unit :=
  c ← get_console; put_console (Console s (s_trace_level c) (s_tracer_started c) (con_log c)).

(** ** Words of the command language *)

(** The copy into [upper[16]], and its conversion. *)
Definition to_upper (c : Z) : Z := if (97 <=? c) && (c <=? 122) then c - 32 else c.

Fixpoint upper_loop (n : nat) (buf : list Z) (p : nat) : option (list Z) :=
  match n with
  | O => Some []
  | S n => c ← buf !! p; if c =? 0 then Some [] else r ← upper_loop n buf (S p); Some (to_upper c :: r)
  end.

(** An option word is followed by a blank or ends the line. *)
Definition has_option (buf : list Z) (payload : nat) (opt : string) : option bool :=
  m ← strncmp_eq buf payload opt;
  if m : bool then c ← buf !! (payload + length (cstr opt))%nat; Some ((c =? 0) || is_blank c)
  else Some false.

Definition parse_role (buf : list Z) (str : option nat) : option (option potr_role) :=
  match str with
  | None => Some None
  | Some p =>
      a ← strcmp_eq buf p "sender";
      b ← (if a : bool then Some true else strcmp_eq buf p "SENDER");
      if b : bool then Some (Some POTR_ROLE_SENDER)
      else
        a ← strcmp_eq buf p "receiver";
        b ← (if a : bool then Some true else strcmp_eq buf p "RECEIVER");
        if b : bool then Some (Some POTR_ROLE_RECEIVER) else Some None
  end.

(** ** The receive callback *)

(** A byte that makes data binary. *)
Definition binary_byte (c : Z) : bool :=
  (c =? 0) || ((c <? 32) && negb (c =? 9) && negb (c =? 10) && negb (c =? 13)) ||
  (c =? 127) || (c =? 254) || (c =? 255).

Definition is_text_data (data : list Z) : bool := forallb (fun c => negb (binary_byte c)) data.

(** What [on_recv] shows. *)
Inductive shown :=
  | ShowConnected | ShowDisconnected
  | ShowPath (path : nat) (connected : bool) (states : list bool)
  | ShowText (len : nat) (text : list Z)
  | ShowSaved (len : nat) | ShowSaveFailed (len : nat).

(** [buf] has [POTR_MAX_PAYLOAD + 1] bytes; [saved] says whether the temporary
    file could be written. *)
Definition on_recv (saved : bool) (event : potr_event) (data : callback_data) : option shown :=
  match event, data with
  | POTR_EVENT_CONNECTED, _ => Some ShowConnected
  | POTR_EVENT_DISCONNECTED, _ => Some ShowDisconnected
  | POTR_EVENT_PATH_CONNECTED, CbPath states path_idx =>
      st ← mapM (fun k => states !! k) (seq 0 4); Some (ShowPath path_idx true st)
  | POTR_EVENT_PATH_DISCONNECTED, CbPath states path_idx =>
      st ← mapM (fun k => states !! k) (seq 0 4); Some (ShowPath path_idx false st)
  | POTR_EVENT_DATA, CbBytes bs =>
      if is_text_data bs then
        let copy_len := if Z.of_nat (length bs) <? POTR_MAX_PAYLOAD then Z.of_nat (length bs) else POTR_MAX_PAYLOAD in
        if POTR_MAX_PAYLOAD + 1 <? copy_len + 1 then None
        else Some (ShowText (length bs) (take (Z.to_nat copy_len) bs))
      else Some (if saved then ShowSaved (length bs) else ShowSaveFailed (length bs))
  | _, _ => None
  end.

(** ** Commands *)

Section Console.
Context `{CplatByteorder} `{Platform} `{Host} `{ConfigLib} `{ConsoleLib}.

Definition trace_levels : list (string * Z) :=
  [("VERBOSE", CPLAT_TRACE_LEVEL_VERBOSE); ("INFO", CPLAT_TRACE_LEVEL_INFO);
   ("WARNING", CPLAT_TRACE_LEVEL_WARNING); ("ERROR", CPLAT_TRACE_LEVEL_ERROR);
   ("CRITICAL", CPLAT_TRACE_LEVEL_CRITICAL)].

Fixpoint find_level (tbl : list (string * Z)) (upper : list Z) : option Z :=
  match tbl with
  | [] => None
  | (name, level) :: tbl => if bool_decide (upper = cstr name) then Some level else find_level tbl upper
  end.

Definition parse_trace_level (buf : list Z) (str : nat) : option (option Z) :=
  upper ← upper_loop 15 buf str; Some (find_level trace_levels upper).

(** The letter a trace line is printed with, if it is printed. *)
Definition lc_table : list Z := cstr "CEWIVD".

Definition trace_console_hook (threshold level : Z) : option (option Z) :=
  let display_level := if CPLAT_TRACE_LEVEL_IS_FORCE level then CPLAT_TRACE_LEVEL_FROM_FORCE level else level in
  if negb (threshold =? CPLAT_TRACE_LEVEL_NONE) && (level <=? threshold) then
    if (0 <=? display_level) && (display_level <? CPLAT_TRACE_LEVEL_NONE)
    then lc ← lc_table !! Z.to_nat display_level; Some (Some lc)
    else Some (Some 68)
  else Some None.

(** [read_file_data]: the bytes, or [None] after a message. *)
Definition read_file_data (path : list Z) : C (option (list Z)) :=
  match cplat_fopen path with
  | None => print Stderr (MsgFileOpen path);; mret None
  | Some f =>
      if negb (f_seek_ok f) then print Stderr MsgFileRead;; mret None
      else if f_end f <? 0 then print Stderr MsgFileRead;; mret None
      else if f_end f =? 0 then print Stderr MsgFileEmpty;; mret None
      else if POTR_MAX_MESSAGE_SIZE <? f_end f then print Stderr (MsgFileSize (f_end f));; mret None
      else
        ok ← call (tick alloc_ok);
        if negb ok then print Stderr MsgFileMemory;; mret None
        else
          let buf := take (Z.to_nat (f_end f)) (f_bytes f) in
          if negb (Z.of_nat (length buf) =? f_end f) then print Stderr MsgFileRead;; mret None
          else mret (Some buf)
  end.

(** The queue operations a send makes, which return [rc].  The queue of a UDP
    service exists if its send thread does; on TCP the connect threads create
    it before a connection counts as established. *)
Definition queue_ops (rc : Z) : M Z :=
  g ← get_cfg;
  (if is_tcp_type (service_type (x_service g)) then mret tt else need HSendQueue);; mret rc.

(** The call of [potr_service_send] and the messages about its result. *)
Definition send_message (env : console_env) (is_file : bool) (text send_data : list Z) (compress : bool) : C unit :=
  print Stdout (MsgSending is_file text (length send_data) compress);;
  let send_flags := if compress then POTR_SEND_COMPRESS else 0 in
  let flags := Z.lor send_flags POTR_SEND_BLOCKING in
  record (CallSend send_data flags);;
  r ← call (potr_service_send POTR_PEER_NA send_data flags);
  send_ret ← (match r with inl rc => mret rc | inr _ => call (queue_ops (env_queue_rc env)) end);
  if negb (send_ret =? POTR_OK) then
    print Stderr (if send_ret =? POTR_ERR_DISCONNECTED then MsgNotConnected else MsgSendFailed)
  else print Stdout (MsgSent is_file text (length send_data)).

Definition apply_send_command (env : console_env) (is_file : bool) (buf : list Z) (cursor : option nat) : C unit :=
  payload ← fetch (skip_spaces buf cursor ≫= id);
  c ← fetch (has_option buf payload "-c");
  long ← (if c : bool then mret false else fetch (has_option buf payload "--compress"));
  payload ← (if c : bool then fetch (skip_spaces buf (Some (payload + 2)%nat) ≫= id)
             else if long : bool then fetch (skip_spaces buf (Some (payload + 10)%nat) ≫= id)
             else mret payload);
  '(payload, buf) ← (if is_file then fetch (strip_matching_quotes buf (Some payload))
                     else buf ← fetch (trim_right buf (Some payload)); mret (payload, buf));
  first ← fetch (buf !! payload);
  if first =? 0 then print Stderr MsgNoContent
  else
    text ← fetch (string_at buf payload);
    if is_file then
      data ← read_file_data text;
      match data with
      | None => mret tt
      | Some data => send_message env is_file text data (c || long)
      end
    else send_message env is_file text text (c || long).

Definition ensure_tracer_started : C unit :=
  c ← get_console;
  if negb (s_tracer_started c) then
    record StartTracer;;
    c ← get_console;
    put_console (Console (con_session c) (s_trace_level c) true (con_log c))
  else mret tt.

Definition set_trace_level (level : Z) : C unit :=
  c ← get_console; put_console (Console (con_session c) level (s_tracer_started c) (con_log c)).

(** Which services the command treats as two-way. *)
Definition opens_bidir (role : potr_role) (svc_type : option potr_type) : bool :=
  match svc_type with
  | None => false
  | Some t =>
      if bool_decide (role = POTR_ROLE_SENDER)
      then type_eqb t POTR_TYPE_UNICAST_BIDIR || type_eqb t POTR_TYPE_TCP_BIDIR
      else type_eqb t POTR_TYPE_UNICAST_BIDIR
  end.

(** The second half of [do_open]. *)
Definition open_session (role : potr_role) (config_path : list Z) (service_id : Z) (bidir callback sends : bool) : C Z :=
  '(rc, handle) ← call (potr_service_open_from_config (Some config_path) service_id role callback true);
  record (CallOpen service_id role callback (rc =? POTR_OK));;
  if negb (rc =? POTR_OK) then print Stderr (MsgOpenFailed service_id);; mret (-1)
  else
    put_session (Session handle service_id role true bidir sends);;
    (if bidir then print Stdout MsgBidir else mret tt);;
    (if bool_decide (role = POTR_ROLE_SENDER) then print Stdout MsgReadyToSend;; print Stdout MsgHint
     else print Stdout MsgReceiving;; if sends then print Stdout MsgCanSendToo else mret tt);;
    mret 0.

Definition do_open (role : potr_role) (config_path : list Z) (service_id : Z) : C Z :=
  s ← get_session;
  if is_open s then print Stderr MsgAlreadyOpen;; mret (-1)
  else
    print Stdout (MsgOpening service_id config_path);;
    '(rc, svc_type) ← call (potr_service_get_type (Some config_path) service_id true);
    let bidir := if rc =? POTR_OK then opens_bidir role svc_type else false in
    let receiver := bool_decide (role = POTR_ROLE_RECEIVER) in
    open_session role config_path service_id bidir
      (if receiver then true else bidir) (if receiver then bidir else true).

Definition close_session (env : console_env) : C unit :=
  record CallClose;; _ ← call (potr_service_close (env_drain env) (env_wakeups env)); mret tt.

Definition do_close (env : console_env) : C unit :=
  s ← get_session;
  if negb (is_open s) then print Stderr MsgNotOpen
  else
    close_session env;;
    put_session (Session false (s_service_id s) (s_role s) false false false);;
    print Stdout MsgClosed.

Definition handle_open_command (buf : list Z) (cursor : option nat) : C unit :=
  '(role_token, cursor, buf) ← fetch (next_token buf cursor);
  '(config_token, cursor, buf) ← fetch (next_token buf cursor);
  '(id_token, cursor, buf) ← fetch (next_token buf cursor);
  match role_token, config_token, id_token with
  | Some role_token, Some config_token, Some id_token =>
      role ← fetch (parse_role buf (Some role_token));
      match role with
      | None => text ← fetch (string_at buf role_token); print Stderr (MsgBadRole text)
      | Some role =>
          text ← fetch (string_at buf id_token);
          match cplat_parse_int64 10 text with
          | None => print Stderr (MsgBadId text)
          | Some service_id =>
              path ← fetch (string_at buf config_token);
              _ ← do_open role path service_id; mret tt
          end
      end
  | _, _, _ => print Stderr MsgUsageOpen
  end.

Definition handle_log_command (buf : list Z) (cursor : option nat) : C unit :=
  '(level_token, cursor, buf) ← fetch (next_token buf cursor);
  match level_token with
  | None => print Stderr MsgUsageLog
  | Some level_token =>
      level ← fetch (parse_trace_level buf level_token);
      text ← fetch (string_at buf level_token);
      match level with
      | None => print Stderr (MsgBadLevel text)
      | Some level => set_trace_level level;; ensure_tracer_started;; print Stdout (MsgLevelSet text)
      end
  end.

(** [strcmp(command, s) == 0]. *)
Definition command_is (buf : list Z) (command : nat) (s : string) : C bool := fetch (strcmp_eq buf command s).

(** One line; [false] ends the command. *)
Definition process_line (env : console_env) (line : list Z) : C bool :=
  '(command, cursor, line) ← fetch (next_token line (Some O));
  match command with
  | None => mret true
  | Some command =>
      b ← command_is line command "help";
      if b : bool then print Stdout MsgHelp;; mret true else
      b ← command_is line command "exit";
      q ← (if b : bool then mret true else command_is line command "quit");
      if q : bool then mret false else
      b ← command_is line command "open";
      if b : bool then handle_open_command line cursor;; mret true else
      b ← command_is line command "close";
      if b : bool then do_close env;; mret true else
      b ← command_is line command "log";
      if b : bool then handle_log_command line cursor;; mret true else
      b ← command_is line command "send";
      f ← (if b : bool then mret true else command_is line command "file");
      if f : bool then
        s ← get_session;
        if negb (is_open s) then print Stderr MsgSendNotOpen;; mret true
        else if negb (can_send s) then print Stderr MsgReceiveOnly;; mret true
        else
          is_file ← command_is line command "file";
          apply_send_command env is_file line cursor;; mret true
      else
        text ← fetch (string_at line command);
        print Stderr (MsgUnknown text);; print Stderr MsgHint;; mret true
  end.

(** ** The prompt and the main function *)

(** [cplat_snprintf] into a buffer of [size] bytes. *)
Definition snprintf (size : nat) (text : list Z) : list Z := take (size - 1) text.

Definition prompt_text (s : porter_test_session) : list Z :=
  if negb (is_open s) then cstr "closed"
  else if bool_decide (s_role s = POTR_ROLE_SENDER) then cstr "sender:" ++ decimal (s_service_id s)
  else cstr "receiver:" ++ decimal (s_service_id s).

Definition build_prompt_state (s : porter_test_session) : list Z := snprintf PROMPT_STATE_SIZE (prompt_text s).

(** A turn of the loop: is the command still running, what the threads of the
    open service do while the prompt waits, the line that is read ([None] when
    reading fails), and the surroundings of its command. *)
Record console_turn := ConsoleTurn {
  ct_running : bool;
  ct_background : M unit;
  ct_line : option (list Z);
  ct_env : console_env
}.

(** The session [main] starts with. *)
Definition initial_console : console :=
  Console (Session false 0 POTR_ROLE_SENDER false false false) CPLAT_TRACE_LEVEL_NONE false [].

(** The loop; when the list ends, so does the input. *)
Fixpoint main_loop (turns : list console_turn) : C unit :=
  match turns with
  | [] => mret tt
  | t :: turns =>
      if negb (ct_running t) then mret tt
      else
        s ← get_session;
        (if is_open s then call (ct_background t) else mret tt);;
        match ct_line t with
        | None => mret tt
        | Some line =>
            text ← fetch (string_at line O);
            print Stdout (MsgEcho (build_prompt_state s) text);;
            go ← process_line (ct_env t) line;
            if go : bool then main_loop turns else mret tt
        end
  end.

(** What the argument parser and the libraries say at the start. *)
Record main_args := MainArgs {
  arg_register_ok : bool;
  need_help : bool;
  arg_parse_ok : bool;
  log_level : option (list Z);
  role_arg : option (list Z);
  config_path_arg : option (list Z);
  service_id_arg : option (list Z);
  prompt_ok : bool;
  shutdown_ok : bool
}.

Definition positional_count (a : main_args) : Z :=
  let one (o : option (list Z)) := match o with Some _ => 1 | None => 0 end in
  one (role_arg a) + one (config_path_arg a) + one (service_id_arg a).

(** The service named on the command line. *)
Definition open_from_args (a : main_args) : C unit :=
  match role_arg a, config_path_arg a, service_id_arg a with
  | Some role, Some path, Some id =>
      r ← fetch (parse_role (role ++ [0]) (Some O));
      match r with
      | None => print Stderr (MsgBadRole role)
      | Some r =>
          match cplat_parse_int64 10 id with
          | None => print Stderr (MsgBadId id)
          | Some id => _ ← do_open r path id; mret tt
          end
      end
  | _, _, _ => print Stdout MsgStartHint
  end.

(** The end of [main]; [shutdown] is [s_shutdown_requested]. *)
Definition main_exit (shutdown : bool) (env : console_env) : C Z :=
  (if shutdown then print Stdout MsgShutdown else mret tt);;
  s ← get_session;
  (if is_open s then
     close_session env;;
     put_session (Session (s_handle s) (s_service_id s) (s_role s) false (is_bidir s) (can_send s))
   else mret tt);;
  print Stdout MsgBye;;
  mret EXIT_SUCCESS.

Definition main_run (a : main_args) (turns : list console_turn) (shutdown : bool) (env : console_env) : C Z :=
  if negb (prompt_ok a) then print Stderr MsgPromptFailed;; mret EXIT_FAILURE
  else if negb (shutdown_ok a) then print Stderr MsgRegisterFailed;; mret EXIT_FAILURE
  else open_from_args a;; main_loop turns;; main_exit shutdown env.

Definition main (a : main_args) (turns : list console_turn) (shutdown : bool) (env : console_env) : C Z :=
  if negb (arg_register_ok a) then print Stderr MsgArguments;; mret EXIT_FAILURE
  else if need_help a then print Stdout MsgUsage;; mret EXIT_SUCCESS
  else if negb (arg_parse_ok a) then print Stderr MsgArguments;; print Stderr MsgUsage;; mret EXIT_FAILURE
  else
    level ← (match log_level a with
             | None => mret true
             | Some text =>
                 l ← fetch (parse_trace_level (text ++ [0]) O);
                 match l with
                 | None => print Stderr (MsgBadLevel text);; print Stderr MsgUsage;; mret false
                 | Some l =>
                     set_trace_level l;;
                     c ← get_console;
                     put_console (Console (con_session c) (s_trace_level c) false (con_log c));;
                     ensure_tracer_started;; mret true
                 end
             end);
    if negb level then mret EXIT_FAILURE
    else if negb (positional_count a =? 0) && negb (positional_count a =? 3)
    then print Stderr MsgPositional;; print Stderr MsgUsage;; mret EXIT_FAILURE
    else main_run a turns shutdown env.
End Console.
