(* ===== verification/ConsoleParse.v ===== *)
(** The command language of the console.  [process_line] works in place on the
    buffer of the line; [interpret] reads a string as a command, and
    [run_command] executes it.  The two are equivalent. *)

From stdpp Require Import base list numbers option strings.
From Stdlib Require Import ZArith Lia ZifyBool Ascii.
From S2P Require Import Prelude Types Packet Window SendQueue Context PathEvent Validate PeerTable.
From S2P Require Import Send Threads OpenPaths Open Close Config Text Console.
Local Open Scope Z_scope.
Local Open Scope porter_scope.

(** ** Equality of console programs *)

(** Two programs are the same when they do the same in every state. *)
#[export] Instance C_equiv A : Equiv (C A) := fun m1 m2 => forall c w, m1 c w = m2 c w.

#[export] Instance C_equivalence A : Equivalence (≡@{C A}).
Proof.
  split; [done|by intros m1 m2 Hm c w|]. intros m1 m2 m3 H1 H2 c w. by rewrite (H1 c w).
Qed.

Lemma C_bind_run {A B} (m : C A) (k : A -> C B) c w :
  (m ≫= k) c w = match m c w with
    | None => None
    | Some ((a, c'), w1, es1) =>
        match k a c' w1 with None => None | Some (b, w2, es2) => Some (b, w2, es1 ++ es2) end
    end.
Proof. unfold mbind, C_bind, mbind, M_bind. by destruct (m c w) as [[[[a c'] w1] es1]|]. Qed.

#[export] Instance C_bind_proper A B :
  Proper (pointwise_relation A (≡) ==> (≡) ==> (≡)) (@mbind C _ A B).
Proof.
  intros k1 k2 Hk m1 m2 Hm c w. rewrite !C_bind_run, (Hm c w).
  destruct (m2 c w) as [[[[a c'] w1] es1]|]; [|done]. by rewrite (Hk a c' w1).
Qed.

Lemma fetch_bind {A B} (o : option A) (k : A -> C B) a : o = Some a -> (fetch o ≫= k) ≡ k a.
Proof.
  intros -> c w. rewrite C_bind_run. change (fetch (Some a) c w) with (Some ((a, c), w, @nil effect)).
  cbv beta iota. by destruct (k a c w) as [[[? ?] ?]|].
Qed.

Lemma ret_bindC {A B} (a : A) (k : A -> C B) : (mret a ≫= k) ≡ k a.
Proof.
  intros c w. rewrite C_bind_run. change ((mret a : C A) c w) with (Some ((a, c), w, @nil effect)).
  cbv beta iota. by destruct (k a c w) as [[[? ?] ?]|].
Qed.

(** ** Commands *)

Inductive command :=
  | CmdNone | CmdHelp | CmdExit | CmdClose
  | CmdOpen (args : option (list Z * list Z * list Z))
  | CmdLog (level : option (list Z))
  | CmdSend (is_file compress : bool) (payload : list Z)
  | CmdUnknown (word : list Z).

Definition split_three (s : list Z) : option (list Z * list Z * list Z) :=
  match split_word s with
  | (Some a, s) =>
      match split_word s with
      | (Some b, s) => match split_word s with (Some c, _) => Some (a, b, c) | _ => None end
      | _ => None
      end
  | _ => None
  end.

(** Does [s] start with the option [opt]? *)
Definition option_word (opt : string) (s : list Z) : bool :=
  bool_decide (take (length (cstr opt)) s = cstr opt) &&
  match drop (length (cstr opt)) s with [] => true | c :: _ => is_blank c end.

Definition parse_send (is_file : bool) (s : list Z) : command :=
  let s := drop_blanks s in
  let '(compress, s) :=
    if option_word "-c" s then (true, drop_blanks (drop 2 s))
    else if option_word "--compress" s then (true, drop_blanks (drop 10 s))
    else (false, s) in
  CmdSend is_file compress (if is_file then unquote s else rtrim s).

Definition interpret (line : list Z) : command :=
  match split_word line with
  | (None, _) => CmdNone
  | (Some w, rest) =>
      if bool_decide (w = cstr "help") then CmdHelp
      else if bool_decide (w = cstr "exit") || bool_decide (w = cstr "quit") then CmdExit
      else if bool_decide (w = cstr "open") then CmdOpen (split_three rest)
      else if bool_decide (w = cstr "close") then CmdClose
      else if bool_decide (w = cstr "log") then CmdLog (fst (split_word rest))
      else if bool_decide (w = cstr "send") then parse_send false rest
      else if bool_decide (w = cstr "file") then parse_send true rest
      else CmdUnknown w
  end.

Definition role_of (text : list Z) : option potr_role :=
  if bool_decide (text = cstr "sender") || bool_decide (text = cstr "SENDER") then Some POTR_ROLE_SENDER
  else if bool_decide (text = cstr "receiver") || bool_decide (text = cstr "RECEIVER") then Some POTR_ROLE_RECEIVER
  else None.

Section Parse.
Context `{CplatByteorder} `{Platform} `{Host} `{ConfigLib} `{ConsoleLib}.

(** The level a word names; a word longer than any name names none. *)
Definition level_of (text : list Z) : option Z := find_level trace_levels (map to_upper (take 15 text)).

Definition run_open (role path id : list Z) : C unit :=
  match role_of role with
  | None => print Stderr (MsgBadRole role)
  | Some r =>
      match cplat_parse_int64 10 id with
      | None => print Stderr (MsgBadId id)
      | Some i => _ ← do_open r path i; mret tt
      end
  end.

Definition run_send (env : console_env) (is_file compress : bool) (payload : list Z) : C unit :=
  if bool_decide (payload = []) then print Stderr MsgNoContent
  else if is_file then
    data ← read_file_data payload;
    match data with None => mret tt | Some data => send_message env is_file payload data compress end
  else send_message env is_file payload payload compress.

Definition run_log (level : option (list Z)) : C unit :=
  match level with
  | None => print Stderr MsgUsageLog
  | Some text =>
      match level_of text with
      | None => print Stderr (MsgBadLevel text)
      | Some l => set_trace_level l;; ensure_tracer_started;; print Stdout (MsgLevelSet text)
      end
  end.

Definition run_command (env : console_env) (cmd : command) : C bool :=
  match cmd with
  | CmdNone => mret true
  | CmdHelp => print Stdout MsgHelp;; mret true
  | CmdExit => mret false
  | CmdClose => do_close env;; mret true
  | CmdOpen None => print Stderr MsgUsageOpen;; mret true
  | CmdOpen (Some (role, path, id)) => run_open role path id;; mret true
  | CmdLog level => run_log level;; mret true
  | CmdSend is_file compress payload =>
      s ← get_session;
      if negb (is_open s) then print Stderr MsgSendNotOpen;; mret true
      else if negb (can_send s) then print Stderr MsgReceiveOnly;; mret true
      else run_send env is_file compress payload;; mret true
  | CmdUnknown w => print Stderr (MsgUnknown w);; print Stderr MsgHint;; mret true
  end.

(** ** The routines on the buffer do what the functions on strings say *)

Lemma lit_nonul s : forallb (fun c => negb (c =? 0)) (cstr s) = true -> nonul (cstr s).
Proof.
  intros Hs. apply List.Forall_forall. intros c Hc. rewrite forallb_forall in Hs. specialize (Hs c Hc).
  by destruct (Z.eqb_spec c 0).
Qed.

Lemma strcmp_spec buf p t s : forallb (fun c => negb (c =? 0)) (cstr s) = true -> holds_str buf p t ->
  strcmp_eq buf p s = Some (bool_decide (t = cstr s)).
Proof. intros Hs Ht. apply cstr_nonul; [by apply lit_nonul|done]. Qed.

Lemma has_option_spec buf p t opt : forallb (fun c => negb (c =? 0)) (cstr opt) = true -> holds_str buf p t ->
  has_option buf p opt = Some (option_word opt t) /\
  (option_word opt t = true -> holds_str buf (p + length (cstr opt)) (drop (length (cstr opt)) t)).
Proof.
  intros Ho Ht. unfold has_option, option_word.
  destruct (cstr_nonul opt (lit_nonul _ Ho) buf p t Ht) as [_ ->]. cbn [mbind option_bind].
  case_bool_decide as Htk; [|done]. cbn [andb].
  assert (holds_str buf p (cstr opt ++ drop (length (cstr opt)) t)) as Hsub.
  { rewrite <- Htk at 1. by rewrite take_drop. }
  apply holds_sub in Hsub. split; [|done]. rewrite (holds_head _ _ _ Hsub). cbn [mbind option_bind].
  destruct (drop _ t) as [|c r]; [done|]. cbn [head default from_option id]. unfold id.
  by rewrite (holds_char _ _ _ _ Hsub).
Qed.

Lemma parse_role_spec buf p t : holds_str buf p t -> parse_role buf (Some p) = Some (role_of t).
Proof.
  intros Ht. unfold parse_role, role_of. rewrite !(strcmp_spec buf p t) by done. cbn [mbind option_bind].
  repeat (case_bool_decide; cbn [orb mbind option_bind]; try done).
Qed.

Lemma upper_loop_spec n t : forall buf p, holds_str buf p t ->
  upper_loop n buf p = Some (map to_upper (take n t)).
Proof.
  revert t. induction n as [|n IH]; intros t buf p Ht; [done|]. cbn [upper_loop].
  rewrite (holds_head _ _ _ Ht). cbn [mbind option_bind]. destruct t as [|c t]; [done|].
  cbn [head default from_option id take map]. unfold id. rewrite (holds_char _ _ _ _ Ht).
  by rewrite (IH t) by (by eapply holds_tail).
Qed.

Lemma parse_level_spec buf p t : holds_str buf p t -> parse_trace_level buf p = Some (level_of t).
Proof. intros Ht. unfold parse_trace_level. by rewrite (upper_loop_spec 15 t). Qed.

Lemma skip_fetch buf p t : holds_str buf p t ->
  exists q, skip_spaces buf (Some p) ≫= id = Some q /\ holds_str buf q (drop_blanks t).
Proof. intros Ht. destruct (skip_spaces_spec _ _ _ Ht) as (q & -> & Hq & _). by exists q. Qed.

(** The optional words before the payload. *)
Lemma option_spec buf p t : holds_str buf p t ->
  exists q c long, has_option buf p "-c" = Some c /\
    (if c : bool then long = false else has_option buf p "--compress" = Some long) /\
    (if c : bool then skip_spaces buf (Some (p + 2)%nat) ≫= id = Some q
     else if long : bool then skip_spaces buf (Some (p + 10)%nat) ≫= id = Some q else q = p) /\
    holds_str buf q (if c then drop_blanks (drop 2 t) else if long then drop_blanks (drop 10 t) else t) /\
    c = option_word "-c" t /\ (c = false -> long = option_word "--compress" t).
Proof.
  intros Ht. destruct (has_option_spec buf p t "-c" eq_refl Ht) as [Hc Hc'].
  destruct (has_option_spec buf p t "--compress" eq_refl Ht) as [Hl Hl'].
  rewrite Hc, Hl. destruct (option_word "-c" t).
  { destruct (skip_fetch _ _ _ (Hc' eq_refl)) as (q & Hq & Hs). by exists q, true, false. }
  destruct (option_word "--compress" t); [|by exists p, false, false].
  destruct (skip_fetch _ _ _ (Hl' eq_refl)) as (q & Hq & Hs). by exists q, false, true.
Qed.

Lemma payload_spec (is_file : bool) buf p t : holds_str buf p t ->
  exists q buf', (if is_file then fetch (strip_matching_quotes buf (Some p))
     else buf ← fetch (trim_right buf (Some p)); mret (p, buf)) ≡ fetch (Some (q, buf')) /\
    holds_str buf' q (if is_file then unquote t else rtrim t).
Proof.
  intros Ht. destruct is_file.
  - destruct (strip_quotes_spec _ _ _ Ht) as (q & buf' & -> & Hq). by exists q, buf'.
  - destruct (trim_right_spec _ _ _ Ht) as (buf' & Htr & Hq). exists p, buf'. split; [|done].
    by rewrite (fetch_bind _ _ _ Htr).
Qed.

Lemma apply_send_spec env is_file buf p t : holds_str buf p t ->
  apply_send_command env is_file buf (Some p) ≡
  match parse_send is_file t with CmdSend f c payload => run_send env f c payload | _ => mret tt end.
Proof.
  intros Ht. unfold apply_send_command, parse_send. cbv zeta.
  destruct (skip_fetch _ _ _ Ht) as (q & Hq & Hs). rewrite (fetch_bind _ _ _ Hq).
  destruct (option_spec _ _ _ Hs) as (r & c & long & Hc & Hlong & Hskip & Hr & Hcw & Hlw).
  rewrite (fetch_bind _ _ _ Hc). rewrite <- Hcw.
  set (cs := if c then _ else if option_word "--compress" _ then _ else _).
  assert (cs = (c || long, if c then drop_blanks (drop 2 (drop_blanks t)) else
    if long then drop_blanks (drop 10 (drop_blanks t)) else drop_blanks t)) as ->.
  { subst cs. destruct c; [done|]. rewrite <- (Hlw eq_refl). by destruct long. }
  revert Hr. set (u := if c then _ else if long then _ else _). intros Hr.
  assert (forall B (k : bool -> nat -> C B),
    (long ← (if c then mret false else fetch (has_option buf q "--compress"));
     payload ← (if c then fetch (skip_spaces buf (Some (q + 2)%nat) ≫= id)
       else if long : bool then fetch (skip_spaces buf (Some (q + 10)%nat) ≫= id) else mret q);
     k long payload) ≡ k long r) as Hpre.
  { intros B k. destruct c.
    - subst long. rewrite ret_bindC. by rewrite (fetch_bind _ _ _ Hskip).
    - rewrite (fetch_bind _ _ _ Hlong). destruct long; [by rewrite (fetch_bind _ _ _ Hskip)|].
      rewrite ret_bindC. by subst r. }
  rewrite Hpre. destruct (payload_spec is_file buf r u Hr) as (p' & buf' & Hpay & Hp').
  rewrite Hpay, (fetch_bind _ _ _ eq_refl). revert Hp'. generalize (if is_file then unquote u else rtrim u) as pl.
  intros pl Hp'. rewrite (fetch_bind _ _ _ (holds_head _ _ _ Hp')). unfold run_send.
  destruct pl as [|ch pl]; [done|]. rewrite bool_decide_false by done.
  cbn [head default from_option id]. unfold id. rewrite (holds_char _ _ _ _ Hp').
  by rewrite (fetch_bind _ _ _ (string_at_spec _ _ _ Hp')).
Qed.

(** Fetching the next word. *)
Lemma token_bind {B} buf p t (k : option nat * option nat * list Z -> C B) (m : C B) :
  holds_str buf p t ->
  (forall q, fst (split_word t) = None -> holds_str buf q [] -> k (None, Some q, buf) ≡ m) ->
  (forall w rest t' q buf', split_word t = (Some w, rest) -> holds_str buf' t' w -> holds_str buf' q rest ->
     (t' + length w <= q)%nat -> (p <= q)%nat -> keeps_strings buf buf' p -> k (Some t', Some q, buf') ≡ m) ->
  (fetch (next_token buf (Some p)) ≫= k) ≡ m.
Proof.
  intros Ht Hnone Hsome. pose proof (next_token_spec _ _ _ Ht) as Hn.
  destruct (split_word t) as [[w|] rest].
  - destruct Hn as (t' & q & buf' & Hn & Ha & Hb & Hc & Hd & He). rewrite (fetch_bind _ _ _ Hn).
    by eapply Hsome.
  - destruct Hn as (q & Hn & Hq). rewrite (fetch_bind _ _ _ Hn). by apply Hnone.
Qed.

Lemma handle_open_spec buf p t : holds_str buf p t ->
  handle_open_command buf (Some p) ≡
  match split_three t with None => print Stderr MsgUsageOpen | Some (r, c, i) => run_open r c i end.
Proof.
  intros Ht. unfold handle_open_command, split_three. apply (token_bind buf p t); [done| |].
  - intros q Hn Hq. destruct (split_word t) as [[]]; [done|].
    apply (token_bind buf q []); [done| |by intros ????? Hno; discriminate Hno].
    intros q' _ Hq'. apply (token_bind buf q' []); [done| |by intros ????? Hno; discriminate Hno]. done.
  - intros w1 rest1 t1 q1 buf1 -> Hw1 Hr1 Hl1 _ _.
    apply (token_bind buf1 q1 rest1); [done| |].
    + intros q Hn Hq. destruct (split_word rest1) as [[]]; [done|].
      apply (token_bind buf1 q []); [done| |by intros ????? Hno; discriminate Hno]. done.
    + intros w2 rest2 t2 q2 buf2 -> Hw2 Hr2 Hl2 Hp2 Hk2.
      apply (token_bind buf2 q2 rest2); [done| |].
      * intros q Hn Hq. by destruct (split_word rest2) as [[]].
      * intros w3 rest3 t3 q3 buf3 -> Hw3 _ _ _ Hk3.
        assert (holds_str buf3 t1 w1) as Hw1' by (apply Hk3; [by apply Hk2|lia]).
        assert (holds_str buf3 t2 w2) as Hw2' by (by apply Hk3).
        rewrite (fetch_bind _ _ _ (parse_role_spec _ _ _ Hw1')). unfold run_open.
        destruct (role_of w1) as [role|]; [|by rewrite (fetch_bind _ _ _ (string_at_spec _ _ _ Hw1'))].
        rewrite (fetch_bind _ _ _ (string_at_spec _ _ _ Hw3)).
        destruct (cplat_parse_int64 10 w3); [|done]. by rewrite (fetch_bind _ _ _ (string_at_spec _ _ _ Hw2')).
Qed.

Lemma handle_log_spec buf p t : holds_str buf p t ->
  handle_log_command buf (Some p) ≡ run_log (fst (split_word t)).
Proof.
  intros Ht. unfold handle_log_command. apply (token_bind buf p t); [done| |].
  - by intros q -> Hq.
  - intros w rest t' q buf' -> Hw _ _ _ _. cbn [fst run_log].
    rewrite (fetch_bind _ _ _ (parse_level_spec _ _ _ Hw)), (fetch_bind _ _ _ (string_at_spec _ _ _ Hw)). done.
Qed.
End Parse.

(** The whole line. *)
Lemma process_line_is `{CplatByteorder} `{Platform} `{Host} `{ConfigLib} `{ConsoleLib} env buf line :
  holds_str buf O line -> process_line env buf ≡ run_command env (interpret line).
Proof.
  intros Hl. unfold process_line, interpret, command_is. apply (token_bind buf O line); [done| |].
  { intros q Hn _. by destruct (split_word line) as [[]]. }
  intros w rest t q buf' -> Hw Hr _ _ _.
  assert (forall s (k : bool -> C bool), forallb (fun c => negb (c =? 0)) (cstr s) = true ->
    (fetch (strcmp_eq buf' t s) ≫= k) ≡ k (bool_decide (w = cstr s))) as Hcmp.
  { intros s k Hs. by rewrite (fetch_bind _ _ _ (strcmp_spec buf' t w s Hs Hw)). }
  rewrite Hcmp by done. case_bool_decide; [done|].
  rewrite Hcmp by done.
  assert (forall k : bool -> C bool, ((if bool_decide (w = cstr "exit") then mret true
    else fetch (strcmp_eq buf' t "quit")) ≫= k)
    ≡ k (bool_decide (w = cstr "exit") || bool_decide (w = cstr "quit"))) as ->.
  { intros k. case_bool_decide; [by rewrite ret_bindC|]. by rewrite Hcmp. }
  destruct (_ || _); [done|]. rewrite Hcmp by done.
  case_bool_decide. { rewrite (handle_open_spec _ _ _ Hr). by destruct (split_three rest) as [[[? ?] ?]|]. }
  rewrite Hcmp by done. case_bool_decide; [done|]. rewrite Hcmp by done.
  case_bool_decide. { by rewrite (handle_log_spec _ _ _ Hr). }
  rewrite Hcmp by done.
  assert (forall k : bool -> C bool, ((if bool_decide (w = cstr "send") then mret true
    else fetch (strcmp_eq buf' t "file")) ≫= k)
    ≡ k (bool_decide (w = cstr "send") || bool_decide (w = cstr "file"))) as ->.
  { intros k. case_bool_decide; [by rewrite ret_bindC|]. by rewrite Hcmp. }
  assert (forall is_file, bool_decide (w = cstr "file") = is_file -> (s ← get_session;
      if negb (is_open s) then print Stderr MsgSendNotOpen;; mret true
      else if negb (can_send s) then print Stderr MsgReceiveOnly;; mret true
      else is_file ← fetch (strcmp_eq buf' t "file"); apply_send_command env is_file buf' (Some q);; mret true)
    ≡ run_command env (parse_send is_file rest)) as Hsend.
  { intros is_file Hf. unfold parse_send. cbv zeta.
    pose proof (apply_send_spec env is_file buf' q rest Hr) as Hs. unfold parse_send in Hs. cbv zeta in Hs.
    destruct (if option_word "-c" _ then _ else _) as [c u]. cbn [run_command].
    f_equiv. intros s. destruct (negb (is_open s)); [done|]. destruct (negb (can_send s)); [done|].
    rewrite Hcmp, Hf by done. by rewrite Hs. }
  destruct (decide (w = cstr "send")) as [Hw1|Hw1].
  { rewrite !(bool_decide_true _ Hw1). apply Hsend. apply bool_decide_false. by rewrite Hw1. }
  rewrite !(bool_decide_false _ Hw1). cbn [orb].
  destruct (decide (w = cstr "file")) as [Hw2|Hw2].
  { rewrite !(bool_decide_true _ Hw2). by apply Hsend, bool_decide_true. }
  rewrite !(bool_decide_false _ Hw2).
  by rewrite (fetch_bind _ _ _ (string_at_spec _ _ _ Hw)).
Qed.

(** C28. The in-place parser of the console implements its command language.  For
    every buffer that holds a NUL-terminated line of arbitrary bytes,
    [process_line], which scans the buffer, cuts it into words by writing NULs
    into it, trims and unquotes it, never accesses the buffer out of range,
    and does exactly what [run_command] does with the command that
    [interpret] reads from the string. *)
Theorem process_line_interprets `{CplatByteorder} `{Platform} `{Host} `{ConfigLib} `{ConsoleLib}
    env buf line :
  holds_str buf O line -> process_line env buf ≡ run_command env (interpret line).
Proof. apply process_line_is. Qed.
