(* ===== verification/ConsoleSafe.v ===== *)
(** What the console guarantees: whatever is typed, every service it opens is
    used only while it is open and is closed again. *)

From stdpp Require Import base list numbers option strings.
From Stdlib Require Import ZArith Lia ZifyBool Ascii.
From S2P Require Import Prelude Types Packet Window SendQueue Context PathEvent Validate PeerTable.
From S2P Require Import RecvSlot Session Fin HealthThread RecvThread Send Threads Frame Connect OpenPaths Open Resources.
From S2P Require Import OpenThreads OpenState Opened Close Closed Lifecycle Config ConfigLoad ConfigRoundtrip Text Console ConsoleParse.
Local Open Scope Z_scope.
Local Open Scope porter_scope.

(** ** Reasoning about console programs *)

Section Triples.
Definition ctriple {A} (P : console -> world -> Prop) (m : C A) (Q : A -> console -> world -> Prop) : Prop :=
  forall c w, P c w -> exists a c' w' es, m c w = Some ((a, c'), w', es) /\ Q a c' w'.

#[export] Instance ctriple_proper A P :
  Proper ((≡) ==> pointwise_relation A (pointwise_relation console (pointwise_relation world iff)) ==> iff)
    (ctriple P).
Proof.
  intros m1 m2 Hm Q1 Q2 HQ. split; intros Ht c w Hw; destruct (Ht c w Hw) as (a & c' & w' & es & Hr & Hq);
    exists a, c', w', es; (split; [by rewrite <- Hr, (Hm c w)|by apply HQ]).
Qed.

Lemma ctriple_ret {A} (a : A) P (Q : A -> console -> world -> Prop) :
  (forall c w, P c w -> Q a c w) -> ctriple P (mret a) Q.
Proof. intros HQ c w Hw. exists a, c, w, []. auto. Qed.

Lemma ctriple_bind {A B} P Q (R : B -> console -> world -> Prop) (m : C A) (k : A -> C B) :
  ctriple P m Q -> (forall a, ctriple (Q a) (k a) R) -> ctriple P (m ≫= k) R.
Proof.
  intros Hm Hk c w Hw. destruct (Hm c w Hw) as (a & c1 & w1 & es1 & Hr1 & H1).
  destruct (Hk a c1 w1 H1) as (b & c2 & w2 & es2 & Hr2 & H2). exists b, c2, w2, (es1 ++ es2).
  split; [|done]. by rewrite C_bind_run, Hr1, Hr2.
Qed.

Lemma ctriple_then {A B} P Q (R : B -> console -> world -> Prop) (m : C A) (k : C B) :
  ctriple P m (fun _ => Q) -> ctriple Q k R -> ctriple P (m;; k) R.
Proof. intros Hm Hk. by eapply ctriple_bind. Qed.

Lemma ctriple_pure {A} P (X : Prop) (m : C A) Q :
  (X -> ctriple P m Q) -> ctriple (fun c w => P c w /\ X) m Q.
Proof. intros Hm c w [Hw Hx]. by apply Hm. Qed.

Lemma ctriple_call {A} (P : console -> world -> Prop) (Q : A -> console -> world -> Prop) (m : M A) :
  (forall c, triple (P c) m (fun a w _ => Q a c w)) -> ctriple P (call m) Q.
Proof.
  intros Hm c w Hw. destruct (Hm c w Hw) as (a & w' & es & Hr & Hq). exists a, c, w', es. split; [|done].
  unfold call. rewrite (bind_run _ _ _ _ _ _ Hr). cbn. by rewrite app_nil_r.
Qed.

Lemma ctriple_fetch {A} (P : console -> world -> Prop) (Q : A -> console -> world -> Prop) o a :
  o = Some a -> (forall c w, P c w -> Q a c w) -> ctriple P (fetch o) Q.
Proof. intros -> HQ. apply ctriple_call. intros c w Hw. exists a, w, []. auto. Qed.

Lemma ctriple_weaken {A} P P' (Q Q' : A -> console -> world -> Prop) m :
  ctriple P' m Q' -> (forall c w, P c w -> P' c w) -> (forall a c w, Q' a c w -> Q a c w) -> ctriple P m Q.
Proof.
  intros Hm HP HQ c w Hw. destruct (Hm c w (HP c w Hw)) as (a & c' & w' & es & Hr & Hq).
  exists a, c', w', es. auto.
Qed.

(** The state of the console at the start of a command. *)
Lemma ctriple_get_session {B} P (R : B -> console -> world -> Prop) (k : porter_test_session -> C B) :
  (forall s, ctriple (fun c w => P c w /\ con_session c = s) (k s) R) -> ctriple P (get_session ≫= k) R.
Proof.
  intros Hk c w Hw. destruct (Hk (con_session c) c w (conj Hw eq_refl)) as (b & c' & w' & es & Hr & Hq).
  exists b, c', w', es. split; [|done]. rewrite C_bind_run. change (get_session c w) with (Some ((con_session c, c), w, @nil effect)).
  cbv beta iota. by rewrite Hr.
Qed.
End Triples.

(** ** The calls a console makes *)

(** The calls are made in order: a service is opened only while none is open, and
    messages are sent and services closed only while one is. *)
Definition replay_action (open : bool) (a : console_action) : option bool :=
  match a with
  | Print _ _ | StartTracer => Some open
  | CallOpen _ _ _ ok => if open then None else Some ok
  | CallSend _ _ => if open then Some true else None
  | CallClose => if open then Some false else None
  end.

Fixpoint replay (open : bool) (log : list console_action) : option bool :=
  match log with [] => Some open | a :: log => open ← replay_action open a; replay open log end.

Lemma replay_log_app open l1 l2 : replay open (l1 ++ l2) = replay open l1 ≫= (fun o => replay o l2).
Proof.
  revert open. induction l1 as [|a l1 IH]; intros open; [done|]. cbn [app replay].
  destruct (replay_action open a) as [o|]; [|done]. cbn [mbind option_bind]. apply IH.
Qed.

Section Safe.
Context `{CplatByteorder} `{Platform} `{!PlatformLaws} `{!ErrorLaws} `{Host} `{ConfigLib} `{!ConfigLaws} `{ConsoleLib}.

(** A service in operation: closable, and on UDP with the send thread that its
    type and role call for. *)
Definition serves (g : service_config) (w : world) : Prop :=
  if is_tcp g then closable g w else Udp g (udp_sends g (x_role g)) w.

Lemma serves_closable g w : serves g w -> closable g w.
Proof. unfold serves, closable. destruct (is_tcp g); [done|]. eauto. Qed.

Lemma opened_serves c t role callback x tick :
  opened c t role callback x -> serves (x_cfg x) (World x tick).
Proof.
  intros Hx. pose proof (opened_closable _ _ _ _ x tick Hx) as Hc. unfold serves.
  destruct (is_tcp (x_cfg x)) eqn:Ht; [done|].
  pose proof (opened_owns _ _ _ _ _ Hx) as Ho. rewrite <- (od_type _ _ _ _ _ Hx), <- (od_role _ _ _ _ _ Hx) in Ho.
  fold (is_tcp (x_cfg x)) in Ho. rewrite Ht in Ho. eexists. split; [exact Ho|]. split; [|apply Hx].
  apply udp_handles_closable; [apply (od_paths _ _ _ _ _ Hx)|done].
Qed.

(** Reading the context keeps a service in operation. *)
Lemma serves_quiet {A} g (m : M A) :
  (forall x, ctx_ok x -> quiet x m) -> triple (serves g) m (fun _ w _ => serves g w).
Proof.
  intros Hm w Hw. pose proof (serves_closable g w Hw) as [s Hs].
  assert (ctx_ok (w_ctx w)) as Hx by (by destruct (is_tcp g); destruct Hs as (l & _ & _ & ?)).
  destruct w as [x t]. destruct (Hm x Hx t) as (a & t' & es & Hr). exists a, (World x t'), es. split; [done|].
  unfold serves, closable in *. by destruct (is_tcp g).
Qed.

Lemma service_send_quiet x peer data flags : ctx_ok x -> quiet x (potr_service_send peer data flags).
Proof.
  intros Hx. pose proof (xo_cfg _ Hx) as Hg. apply quiet_get_ctx_bind. cbv zeta.
  destruct (_ || _) eqn:Harg; [apply quiet_ret|]. apply orb_false_iff in Harg as [Hne%Nat.eqb_neq _].
  destruct (close_requested _); [apply quiet_ret|]. destruct (is_tcp_type _ && _); [apply quiet_ret|].
  destruct (type_eqb _ _ && _); [apply quiet_ret|]. set (fl := if is_raw_type _ then _ else _).
  destruct (if fl has POTR_SEND_COMPRESS then _ else _) as [[body base]|]; [|apply quiet_ret].
  assert (forall id, exists calls, send_to_peer (x_cfg x) id body fl base = Some calls) as Hsend.
  { intros id. unfold send_to_peer. destruct (fragment_loop_total _ base (max_chunk_pos _ Hg) (S (length body)) id body)
      as [calls ->]; [lia|]. by eexists. }
  assert (forall id, quiet x (calls ← lift (send_to_peer (x_cfg x) id body fl base); mret (@inr Z _ [calls]))) as Hone.
  { intros id. destruct (Hsend id) as [calls Hc]. apply (quiet_lift_bind _ _ _ calls Hc). apply quiet_ret. }
  destruct (x_is_multi_peer (x_cfg x)) eqn:Hmp; [|apply Hone].
  pose proof (xo_peers _ Hx) as Hps. destruct (x_peers x) as [ps|] eqn:Hpe; [|congruence].
  destruct (_ =? POTR_PEER_NA); [apply quiet_ret|]. destruct (_ =? POTR_PEER_ALL).
  - apply quiet_bind; [apply quiet_tick|]. intros ok. destruct (negb ok); [apply quiet_ret|].
    apply (quiet_lift_bind _ _ _ ps eq_refl). destruct (alive_ids ps) as [|i ids]; [apply quiet_ret|].
    assert (exists cs, mapM (fun id => send_to_peer (x_cfg x) id body fl base) (i :: ids) = Some cs) as [cs Hcs].
    { apply mapM_is_Some. apply Forall_forall. intros j _. exact (Hsend j). }
    apply (quiet_lift_bind _ _ _ cs Hcs). apply quiet_ret.
  - unfold potr_internal_peer_find_by_id. intros t. rewrite bind_assoc, get_ctx_bind, bind_assoc. cbn [w_ctx].
    rewrite (lift_bind _ _ _ _ Hpe), ret_bind. destruct (find_index _ ps) as [i|] eqn:Hf; [|apply quiet_ret].
    apply find_index_Some in Hf as (p & Hp & _).
    rewrite (bind_run_nil _ _ _ _ _ (get_peer_run i p (World x t) ps Hpe Hp)).
    destruct (negb _); [apply quiet_ret|]. apply Hone.
Qed.

(** The queue of a service that may send exists. *)
Lemma serves_queue_ops g rc :
  is_tcp g = true \/ udp_sends g (x_role g) = true -> triple (serves g) (queue_ops rc) (fun _ w _ => serves g w).
Proof.
  intros Hs w Hw. pose proof (serves_closable g w Hw) as Hc. pose proof (closable_cfg g w Hc) as Hg.
  exists rc, w, []. split; [|done]. unfold queue_ops. rewrite get_cfg_bind, Hg. fold (is_tcp g).
  unfold serves in Hw. destruct (is_tcp g); [done|]. destruct Hs as [?|Hs]; [done|]. rewrite Hs in Hw.
  destruct Hw as (l & Hown & [_ _ [_ Hq Hf] _ _] & _).
  assert (holds (w_ctx w) HSendQueue = true) as Hh.
  { apply bool_decide_true. apply (ow_holds _ _ _ _ Hown). by apply Hq, Hf. }
  unfold need. rewrite bind_assoc, get_ctx_bind, Hh. done.
Qed.

(** ** The invariant *)

(** Nothing is held: there never was a service, or the last one was released;
    or a thread of it could not be joined, and its context is still there. *)
Definition idle (w0 w : world) : Prop :=
  w_ctx w = w_ctx w0 \/ released (w_ctx w) \/ join_failed /\ api_context_has_threads (w_ctx w) = true.

Definition session_inv (w0 : world) (s : porter_test_session) (w : world) : Prop :=
  if is_open s then
    s_handle s = true /\ exists g, serves g w /\ s_role s = x_role g /\
      (can_send s = true -> is_tcp g = true \/ udp_sends g (x_role g) = true)
  else s_handle s = false /\ idle w0 w.

Definition console_inv (w0 : world) (c : console) (w : world) : Prop :=
  session_inv w0 (con_session c) w /\ replay false (con_log c) = Some (is_open (con_session c)).

(** Actions that are not calls. *)
Lemma record_inv w0 a : replay_action true a = Some true -> replay_action false a = Some false ->
  ctriple (console_inv w0) (record a) (fun _ => console_inv w0).
Proof.
  intros Ht Hf c w [Hs Hl]. eexists tt, _, w, _. split; [done|]. split; [done|]. cbn [con_log con_session].
  rewrite replay_log_app, Hl. cbn [mbind option_bind replay]. by destruct (is_open _); rewrite ?Ht, ?Hf.
Qed.

Lemma print_inv w0 ch m : ctriple (console_inv w0) (print ch m) (fun _ => console_inv w0).
Proof. by apply record_inv. Qed.

(** The invariant with the session known. *)
Definition session_at (w0 : world) (s : porter_test_session) (c : console) (w : world) : Prop :=
  console_inv w0 c w /\ con_session c = s.

Lemma record_at w0 s a : replay_action (is_open s) a = Some (is_open s) ->
  ctriple (session_at w0 s) (record a) (fun _ => session_at w0 s).
Proof.
  intros Ha c w [[Hs Hl] <-]. eexists tt, _, w, _. split; [done|]. split; [|done]. split; [done|].
  cbn [con_log con_session]. rewrite replay_log_app, Hl. cbn [mbind option_bind replay]. by rewrite Ha.
Qed.

Lemma print_at w0 s ch m : ctriple (session_at w0 s) (print ch m) (fun _ => session_at w0 s).
Proof. by apply record_at. Qed.

(** A call of the library in a session that is open. *)
Lemma call_at {A} w0 s (m : M A) :
  is_open s = true -> (forall g, (can_send s = true -> is_tcp g = true \/ udp_sends g (x_role g) = true) ->
    triple (serves g) m (fun _ w _ => serves g w)) ->
  ctriple (session_at w0 s) (call m) (fun _ => session_at w0 s).
Proof.
  intros Ho Hm. apply ctriple_call. intros c w [[Hs Hl] <-]. unfold session_inv in Hs. rewrite Ho in Hs.
  destruct Hs as (Hh & g & Hg & Hr & Hc). destruct (Hm g Hc w Hg) as (a & w' & es & Hrun & Hg').
  exists a, w', es. split; [done|]. split; [|done]. split; [|done]. unfold session_inv. rewrite Ho.
  split; [done|]. by exists g.
Qed.

Lemma at_inv w0 s c w : session_at w0 s c w -> console_inv w0 c w.
Proof. by intros []. Qed.

(** ** Commands *)

Lemma send_message_at w0 s env f text data compress :
  is_open s = true -> can_send s = true ->
  ctriple (session_at w0 s) (send_message env f text data compress) (fun _ => session_at w0 s).
Proof.
  intros Ho Hc. unfold send_message. eapply ctriple_then; [apply print_at|]. cbv zeta.
  eapply ctriple_then; [apply record_at; by rewrite Ho|].
  eapply ctriple_bind; [apply (call_at w0 s _ Ho)|].
  { intros g _. apply serves_quiet. intros x Hx. by apply service_send_quiet. }
  intros r. eapply (ctriple_bind _ (fun _ => session_at w0 s)).
  - destruct r as [rc|cs]; [by apply ctriple_ret|]. apply (call_at w0 s _ Ho).
    intros g Hg. apply serves_queue_ops. auto.
  - intros rc. destruct (negb _); [|apply print_at]. apply print_at.
Qed.

Lemma read_file_at w0 s path :
  is_open s = true -> ctriple (session_at w0 s) (read_file_data path) (fun _ => session_at w0 s).
Proof.
  intros Ho. unfold read_file_data.
  assert (forall m, ctriple (session_at w0 s) (print Stderr m;; mret None) (fun _ : option (list Z) => session_at w0 s)) as Hp.
  { intros m. eapply ctriple_then; [apply print_at|by apply ctriple_ret]. }
  destruct (cplat_fopen path) as [f|]; [|apply Hp]. destruct (negb _); [apply Hp|].
  destruct (_ <? 0); [apply Hp|]. destruct (_ =? 0); [apply Hp|]. destruct (_ <? _); [apply Hp|].
  eapply ctriple_bind; [apply (call_at w0 s _ Ho)|].
  { intros g _. apply serves_quiet. intros x Hx. apply quiet_tick. }
  intros ok. destruct (negb ok); [apply Hp|]. cbv zeta. destruct (negb _); [apply Hp|]. by apply ctriple_ret.
Qed.

Lemma run_send_at w0 s env f compress payload :
  is_open s = true -> can_send s = true ->
  ctriple (session_at w0 s) (run_send env f compress payload) (fun _ => session_at w0 s).
Proof.
  intros Ho Hc. unfold run_send. case_bool_decide; [apply print_at|]. destruct f; [|by apply send_message_at].
  eapply ctriple_bind; [by apply read_file_at|]. intros [data|]; [by apply send_message_at|by apply ctriple_ret].
Qed.

(** What runs while the console waits keeps the service in operation, and what
    runs while it closes keeps it closable. *)
Definition background_ok (m : M unit) : Prop := forall g, triple (serves g) m (fun _ w _ => serves g w).

Definition env_ok (env : console_env) : Prop :=
  forall g, bystander g (env_drain env) /\ Forall (fun wk => bystander g wk.1) (env_wakeups env).

(** Closing ends the service, whatever the result. *)
Lemma close_session_at w0 s env :
  env_ok env -> is_open s = true ->
  ctriple (session_at w0 s) (close_session env) (fun _ c w =>
    con_session c = s /\ idle w0 w /\ replay false (con_log c) = Some false).
Proof.
  intros He Ho c w [[Hs Hl] <-]. unfold close_session. unfold session_inv in Hs. rewrite Ho in Hs, Hl.
  destruct Hs as (_ & g & Hg & _). destruct (He g) as [Hd Hk].
  destruct (service_close_ok g (env_drain env) (env_wakeups env) Hd Hk w (serves_closable g w Hg))
    as ([rc live] & w' & es & Hr & Hout & _).
  set (c' := Console (con_session c) (s_trace_level c) (s_tracer_started c) (con_log c ++ [CallClose])).
  exists tt, c', w', es. split.
  - rewrite C_bind_run. change (record CallClose c w) with (Some ((tt, c'), w, @nil effect)). cbv beta iota.
    rewrite C_bind_run. unfold call. rewrite (bind_run _ _ _ _ _ _ Hr). cbn. by rewrite !app_nil_r.
  - split; [done|]. split.
    + unfold idle. destruct Hout as [[_ Hx]|(_ & _ & Hf & Hth)]; auto.
    + subst c'. cbn [con_log]. rewrite replay_log_app, Hl. done.
Qed.

Lemma put_session_closed w0 s s' : is_open s' = false -> s_handle s' = false ->
  ctriple (fun c w => con_session c = s /\ idle w0 w /\ replay false (con_log c) = Some false)
    (put_session s') (fun _ => console_inv w0).
Proof.
  intros Ho Hh c w (_ & Hi & Hl). eexists tt, _, w, _. split; [done|]. split; cbn [con_session con_log].
  - unfold session_inv. by rewrite Ho.
  - by rewrite Ho.
Qed.

Lemma do_close_inv w0 env : env_ok env -> ctriple (console_inv w0) (do_close env) (fun _ => console_inv w0).
Proof.
  intros He. apply ctriple_get_session. intros s. destruct (is_open s) eqn:Ho; cbn [negb].
  - eapply ctriple_then; [by apply close_session_at|].
    eapply ctriple_then; [by apply put_session_closed|]. apply print_inv.
  - eapply ctriple_weaken; [apply print_inv|by intros ?? [? _]|done].
Qed.

(** *** Opening *)

(** What the console knows when no service is open. *)
Definition closed_at (w0 : world) (s : porter_test_session) (open : bool) (c : console) : Prop :=
  con_session c = s /\ s_handle s = false /\ is_open s = false /\ replay false (con_log c) = Some open.

Lemma session_closed w0 s c w :
  is_open s = false -> session_at w0 s c w -> closed_at w0 s false c /\ idle w0 w.
Proof.
  intros Ho [[Hs Hl] <-]. unfold session_inv in Hs. rewrite Ho in Hs, Hl. by destruct Hs.
Qed.

Lemma closed_inv w0 s c w : closed_at w0 s false c -> idle w0 w -> console_inv w0 c w.
Proof. intros (<- & Hh & Ho & Hl) Hi. split; [unfold session_inv|]; by rewrite Ho. Qed.

Lemma get_type_closed w0 s path id :
  ctriple (fun c w => closed_at w0 s false c /\ idle w0 w)
    (call (potr_service_get_type (Some path) id true))
    (fun r c w => (closed_at w0 s false c /\ idle w0 w) /\
       (r.1 = POTR_OK -> r.2 = service_type <$> config_service path id)).
Proof.
  apply ctriple_call. intros c w [Hc Hi]. unfold potr_service_get_type.
  destruct (load_service_total path id zero_service w) as (rc & d & t' & Hr & Hd).
  assert (rc = POTR_OK -> d = config_service path id) as Hd0 by (intros ->; by eapply load_service_is).
  assert (idle w0 (World (w_ctx w) t')) as Hi' by exact Hi.
  destruct (Z.eqb_spec rc POTR_OK) as [->|Hne].
  - exists (POTR_OK, service_type <$> d), (World (w_ctx w) t'), [].
    rewrite (bind_run_nil _ _ _ _ _ Hr). split; [done|]. split; [done|]. intros _. cbn [snd]. by rewrite Hd0.
  - exists (rc, None), (World (w_ctx w) t'), []. rewrite (bind_run_nil _ _ _ _ _ Hr).
    rewrite (proj2 (Z.eqb_neq _ _) Hne). split; [done|]. split; [done|]. by intros ?.
Qed.

Lemma open_closed w0 s path id role callback :
  ctriple (fun c w => closed_at w0 s false c /\ idle w0 w)
    (call (potr_service_open_from_config (Some path) id role callback true))
    (fun r c w => closed_at w0 s false c /\
       (r.1 = POTR_OK -> r.2 = true /\ exists gc sv, config_service path id = Some sv /\
          opened gc (service_type sv) role callback (w_ctx w)) /\
       (r.1 <> POTR_OK -> idle w0 w)).
Proof.
  apply ctriple_call. intros c w [Hc Hi].
  destruct (open_from_config_outcome path id role callback w) as (rc & live & w' & es & Hr & Hok & Hne).
  exists (rc, live), w', es. split; [done|]. split; [done|]. cbn [fst snd]. split.
  - intros Hrc. destruct (Hok Hrc) as (-> & gc & sv & _ & _ & _ & Hsv & Ho). split; [done|]. by exists gc, sv.
  - intros Hrc. unfold idle in *. destruct (Hne Hrc) as [[_ [->|?]]|(_ & ? & ?)]; auto.
Qed.

(** The services the console sends on have a send thread. *)
Lemma opened_sends gc sv role callback x (rc : Z) ty :
  opened gc (service_type sv) role callback x -> (rc = POTR_OK -> ty = Some (service_type sv)) ->
  (if bool_decide (role = POTR_ROLE_RECEIVER) then if rc =? POTR_OK then opens_bidir role ty else false
   else true) = true ->
  is_tcp (x_cfg x) = true \/ udp_sends (x_cfg x) (x_role (x_cfg x)) = true.
Proof.
  intros Ho Hty Hs. right. revert Hs. unfold udp_sends, two_way. rewrite (od_role _ _ _ _ _ Ho), (od_type _ _ _ _ _ Ho).
  destruct (bool_decide (role = POTR_ROLE_RECEIVER)) eqn:Hr; [apply bool_decide_eq_true in Hr; subst role|by destruct role].
  destruct (Z.eqb_spec rc POTR_OK) as [Hok|]; [|done]. rewrite (Hty Hok). cbn [opens_bidir].
  rewrite bool_decide_false by done. by intros ->.
Qed.

Lemma record_open w0 s id role callback ok :
  ctriple (fun c w => closed_at w0 s false c) (record (CallOpen id role callback ok))
    (fun _ c w => closed_at w0 s ok c).
Proof.
  intros c w (Hs & Hh & Ho & Hl). eexists tt, _, w, _. split; [done|]. unfold closed_at. cbn [con_session con_log].
  by rewrite replay_log_app, Hl.
Qed.

(** A precondition about the world alone survives what only changes the log. *)
Lemma record_keeps w0 s id role callback ok (P : world -> Prop) :
  ctriple (fun c w => closed_at w0 s false c /\ P w) (record (CallOpen id role callback ok))
    (fun _ c w => closed_at w0 s ok c /\ P w).
Proof.
  intros c w [Hc Hw]. destruct (record_open w0 s id role callback ok c w Hc) as (a & c' & w' & es & Hr & Hc').
  exists a, c', w', es. split; [done|]. split; [done|]. by injection Hr as _ _ <- _.
Qed.

Lemma print_open_messages w0 role (bidir sends : bool) :
  ctriple (console_inv w0)
    ((if bidir then print Stdout MsgBidir else mret tt);;
     (if bool_decide (role = POTR_ROLE_SENDER) then print Stdout MsgReadyToSend;; print Stdout MsgHint
      else print Stdout MsgReceiving;; if sends then print Stdout MsgCanSendToo else mret tt);;
     mret 0) (fun _ => console_inv w0).
Proof.
  eapply (ctriple_then _ (console_inv w0)); [destruct bidir; [apply print_inv|by apply ctriple_ret]|].
  eapply (ctriple_then _ (console_inv w0)); [|by apply ctriple_ret].
  case_bool_decide; (eapply ctriple_then; [apply print_inv|]); [apply print_inv|].
  destruct sends; [apply print_inv|by apply ctriple_ret].
Qed.

Lemma open_session_inv w0 s role path id bidir callback (sends : bool) :
  (forall gc sv x, config_service path id = Some sv -> opened gc (service_type sv) role callback x ->
     sends = true -> is_tcp (x_cfg x) = true \/ udp_sends (x_cfg x) (x_role (x_cfg x)) = true) ->
  ctriple (fun c w => closed_at w0 s false c /\ idle w0 w)
    (open_session role path id bidir callback sends) (fun _ => console_inv w0).
Proof.
  intros Hsends. eapply ctriple_bind; [apply open_closed|]. intros [rc handle]. cbn [fst snd].
  eapply ctriple_then; [apply record_keeps|]. destruct (Z.eqb_spec rc POTR_OK) as [Hrc|Hrc]; cbn [negb].
  - eapply (ctriple_then _ (console_inv w0)); [|apply print_open_messages].
    intros c w ((_ & _ & _ & Hl) & Hok & _). destruct (Hok Hrc) as (-> & gc & sv & Hsv & Ho).
    eexists tt, _, w, _. split; [done|]. split; cbn [con_session con_log is_open]; [|done].
    unfold session_inv. cbn [is_open s_handle s_role can_send]. split; [done|]. exists (x_cfg (w_ctx w)).
    split; [destruct w; by eapply opened_serves|]. split; [symmetry; apply Ho|]. by eapply Hsends.
  - eapply (ctriple_then _ (console_inv w0)); [|by apply ctriple_ret].
    eapply ctriple_weaken; [apply (print_inv w0)| |done].
    intros c w (Hc & _ & Hi). eapply closed_inv; [done|]. by apply Hi.
Qed.

Lemma do_open_inv w0 role path id :
  ctriple (console_inv w0) (do_open role path id) (fun _ => console_inv w0).
Proof.
  apply ctriple_get_session. intros s. destruct (is_open s) eqn:Ho.
  { eapply (ctriple_then _ (console_inv w0)); [|by apply ctriple_ret].
    eapply ctriple_weaken; [apply print_inv|by intros ?? [? _]|done]. }
  eapply ctriple_then; [apply (print_at w0 s)|].
  eapply ctriple_bind; [eapply ctriple_weaken; [apply (get_type_closed w0 s path id)| |intros r c w Hr; exact Hr]|].
  { intros c w Hw. by apply session_closed. }
  intros [rc1 ty]. cbv zeta. cbn [fst snd]. apply ctriple_pure. intros Hty. apply open_session_inv.
  intros gc sv x Hsv Ho' Hs. eapply (opened_sends _ _ _ _ _ rc1 ty); [exact Ho'| |exact Hs].
  intros Hrc. by rewrite (Hty Hrc), Hsv.
Qed.

(** *** The tracer *)

Lemma tracer_inv w0 : ctriple (console_inv w0) ensure_tracer_started (fun _ => console_inv w0).
Proof.
  intros c w [Hs Hl]. unfold ensure_tracer_started.
  destruct (s_tracer_started c) eqn:Ht.
  - exists tt, c, w, []. split; [|done]. rewrite C_bind_run. cbn. by rewrite Ht.
  - eexists tt, _, w, []. split; [rewrite C_bind_run; cbn; rewrite Ht; reflexivity|].
    split; cbn [con_session con_log]; [done|]. by rewrite replay_log_app, Hl.
Qed.

(** *** Lines and turns *)

Lemma run_command_inv w0 env cmd : env_ok env ->
  ctriple (console_inv w0) (run_command env cmd) (fun _ => console_inv w0).
Proof.
  intros He. assert (forall m : C unit, ctriple (console_inv w0) m (fun _ => console_inv w0) ->
    ctriple (console_inv w0) (m;; mret true) (fun _ => console_inv w0)) as Hgo.
  { intros m Hm. eapply ctriple_then; [exact Hm|by apply ctriple_ret]. }
  destruct cmd as [| | | |[[[role path] id]|]|level|f compress payload|word]; cbn [run_command];
    try (by apply ctriple_ret); try (apply Hgo, print_inv).
  - apply Hgo. by apply do_close_inv.
  - apply Hgo. unfold run_open. destruct (role_of role); [|apply print_inv].
    destruct (cplat_parse_int64 _ _); [|apply print_inv].
    eapply ctriple_then; [apply do_open_inv|by apply ctriple_ret].
  - apply Hgo. unfold run_log. destruct level as [text|]; [|apply print_inv].
    destruct (level_of text); [|apply print_inv].
    eapply (ctriple_then _ (console_inv w0)); [intros c w Hw; by eexists tt, _, w, _|].
    eapply (ctriple_then _ (console_inv w0)); [apply tracer_inv|apply print_inv].
  - apply ctriple_get_session. intros s.
    destruct (is_open s) eqn:Ho; cbn [negb];
      [|eapply ctriple_weaken; [apply Hgo, print_inv|by intros ?? [? _]|done]].
    destruct (can_send s) eqn:Hc; cbn [negb];
      [|eapply ctriple_weaken; [apply Hgo, print_inv|by intros ?? [? _]|done]].
    eapply (ctriple_then _ (console_inv w0)); [|by apply ctriple_ret].
    eapply ctriple_weaken; [by apply run_send_at|done|]. by intros [] c w [? _].
  - eapply ctriple_then; [apply print_inv|]. apply Hgo, print_inv.
Qed.

(** A line that is read is a string in its buffer. *)
Definition line_ok (buf : list Z) : Prop := exists line, holds_str buf O line.

Definition turn_ok (t : console_turn) : Prop :=
  background_ok (ct_background t) /\ env_ok (ct_env t) /\ forall buf, ct_line t = Some buf -> line_ok buf.

Lemma main_loop_inv w0 turns : Forall turn_ok turns ->
  ctriple (console_inv w0) (main_loop turns) (fun _ => console_inv w0).
Proof.
  induction 1 as [|t turns (Hb & He & Hl) _ IH]; [by apply ctriple_ret|]. cbn [main_loop].
  destruct (negb _); [by apply ctriple_ret|]. apply ctriple_get_session. intros s.
  eapply (ctriple_then _ (console_inv w0)).
  { destruct (is_open s) eqn:Ho; [|by apply ctriple_ret; intros ?? [? _]].
    eapply ctriple_weaken; [apply (call_at w0 s _ Ho); intros g _; apply Hb|done|by intros ??? [? _]]. }
  destruct (ct_line t) as [buf|] eqn:Ht; [|by apply ctriple_ret]. destruct (Hl buf eq_refl) as [line Hline].
  eapply ctriple_bind; [by eapply (ctriple_fetch _ (fun _ => console_inv w0)); [apply (string_at_spec _ _ _ Hline)|]|].
  intros text. eapply ctriple_then; [apply print_inv|].
  eapply ctriple_bind; [rewrite (process_line_is (ct_env t) buf line Hline); by apply run_command_inv|].
  intros []; [exact IH|by apply ctriple_ret].
Qed.

(** *** The whole command *)

(** The end of the command. *)
Definition finished (w0 : world) (c : console) (w : world) : Prop :=
  is_open (con_session c) = false /\ idle w0 w /\ replay false (con_log c) = Some false.

Lemma closed_finished w0 c w : console_inv w0 c w -> is_open (con_session c) = false -> finished w0 c w.
Proof. intros [Hs Hl] Ho. unfold session_inv in Hs. rewrite Ho in Hs, Hl. by destruct Hs. Qed.

Lemma print_finished w0 ch m : ctriple (finished w0) (print ch m) (fun _ => finished w0).
Proof.
  intros c w (Ho & Hi & Hl). eexists tt, _, w, _. split; [done|]. split_and!; [done..|].
  cbn [con_log]. by rewrite replay_log_app, Hl.
Qed.

Lemma main_exit_ok w0 shutdown env : env_ok env ->
  ctriple (console_inv w0) (main_exit shutdown env) (fun _ => finished w0).
Proof.
  intros He. eapply (ctriple_then _ (console_inv w0)); [destruct shutdown; [apply print_inv|by apply ctriple_ret]|].
  apply ctriple_get_session. intros s. eapply (ctriple_then _ (finished w0)).
  - destruct (is_open s) eqn:Ho; [|apply ctriple_ret; intros c w [Hc <-]; by apply closed_finished].
    eapply ctriple_then; [by apply (close_session_at w0 s)|].
    intros c w (_ & Hi & Hl). by eexists tt, _, w, _.
  - eapply ctriple_then; [apply print_finished|by apply ctriple_ret].
Qed.

(** The arguments of a program are strings. *)
Definition args_ok (a : main_args) : Prop :=
  (forall r, role_arg a = Some r -> nonul r) /\ (forall l, log_level a = Some l -> nonul l).

Lemma arg_holds s : nonul s -> holds_str (s ++ [0]) O s.
Proof. intros Hs. split; [done|]. by exists [], []. Qed.

Lemma open_from_args_inv w0 a : args_ok a ->
  ctriple (console_inv w0) (open_from_args a) (fun _ => console_inv w0).
Proof.
  intros [Hr _]. unfold open_from_args.
  destruct (role_arg a) as [role|], (config_path_arg a) as [path|], (service_id_arg a) as [id|]; try apply print_inv.
  eapply ctriple_bind; [eapply (ctriple_fetch _ (fun _ => console_inv w0)); [|done]|].
  { apply parse_role_spec, arg_holds. by apply Hr. }
  intros [r|]; [|apply print_inv]. destruct (cplat_parse_int64 10 id); [|apply print_inv].
  eapply ctriple_then; [apply do_open_inv|by apply ctriple_ret].
Qed.

(** No service has been opened yet. *)
Definition at_rest (w0 : world) (c : console) (w : world) : Prop :=
  console_inv w0 c w /\ is_open (con_session c) = false.

Lemma rest_finished w0 c w : at_rest w0 c w -> finished w0 c w.
Proof. intros []. by apply closed_finished. Qed.

Lemma print_rest w0 {B} ch m (k : C B) Q :
  ctriple (at_rest w0) k Q -> ctriple (at_rest w0) (print ch m;; k) Q.
Proof.
  intros Hk. eapply ctriple_then; [|exact Hk]. intros c w [[Hs Hl] Ho]. eexists tt, _, w, _. split; [done|].
  split; [|done]. split; [done|]. cbn [con_log con_session]. rewrite replay_log_app, Hl. done.
Qed.

Lemma ret_rest w0 (rc : Z) : ctriple (at_rest w0) (mret rc) (fun _ => finished w0).
Proof. apply ctriple_ret. apply rest_finished. Qed.

Lemma main_run_ok w0 a turns shutdown env : args_ok a -> Forall turn_ok turns -> env_ok env ->
  ctriple (at_rest w0) (main_run a turns shutdown env) (fun _ => finished w0).
Proof.
  intros Ha Ht He. unfold main_run. do 2 (destruct (negb _); [apply print_rest, ret_rest|]).
  eapply (ctriple_then _ (console_inv w0)).
  { eapply ctriple_weaken; [by apply (open_from_args_inv w0)|by intros ?? [? _]|done]. }
  eapply ctriple_then; [by apply (main_loop_inv w0)|]. by apply main_exit_ok.
Qed.

(** Starting the tracer does not concern the session. *)
Lemma level_ok w0 (a : main_args) : args_ok a ->
  ctriple (at_rest w0)
    (match log_level a with
     | None => mret true
     | Some text =>
         l ← fetch (parse_trace_level (text ++ [0]) O);
         match l with
         | None => print Stderr (MsgBadLevel text);; print Stderr MsgUsage;; mret false
         | Some l =>
             set_trace_level l;;
             c ← get_console;
             put_console (Console (con_session c) (s_trace_level c) false (con_log c));;
             ensure_tracer_started;; mret true
         end
     end) (fun _ => at_rest w0).
Proof.
  intros [_ Hl]. destruct (log_level a) as [text|]; [|by apply ctriple_ret].
  intros c w [[Hs Hlog] Ho]. pose proof (parse_level_spec _ _ _ (arg_holds _ (Hl text eq_refl))) as Hp.
  destruct (level_of text) as [l|]; eexists _, _, w, _;
    (split; [rewrite (fetch_bind _ _ _ Hp c w); reflexivity|]); (split; [split; [exact Hs|]|exact Ho]);
    cbn [con_log con_session]; rewrite ?replay_log_app, Hlog; reflexivity.
Qed.

End Safe.

(** C27. The console closes what it opens.  For all arguments, any sequence of
    typed lines of arbitrary bytes and any answers of the configuration files
    and the system, the test command neither faults nor uses a service that is
    not open: it opens a service only while none is open, sends and closes only
    while one is, and sends only where the send queue exists; and when it ends,
    no service is open, and the last one has been released, unless one of its
    threads could not be joined and its context is still there.  The threads of
    the open service are assumed to keep it in operation while the console
    waits for a line ([background_ok]) and to be bystanders of C13 while it
    closes ([env_ok]). *)
Theorem console_closes_what_it_opens `{CplatByteorder} `{Platform} `{!PlatformLaws} `{!ErrorLaws} `{Host}
    `{ConfigLib} `{!ConfigLaws} `{ConsoleLib} a turns shutdown env w0 :
  args_ok a -> Forall turn_ok turns -> env_ok env ->
  exists rc c w es, main a turns shutdown env initial_console w0 = Some ((rc, c), w, es) /\ finished w0 c w.
Proof.
  intros Ha Ht He. assert (at_rest w0 initial_console w0) as Hrest.
  { split; [|done]. split; [|done]. split; [done|]. by left. }
  revert Hrest. apply (fun P => P : ctriple (at_rest w0) (main a turns shutdown env) (fun _ => finished w0)).
  unfold main. destruct (negb _); [apply print_rest, ret_rest|].
  destruct (need_help a); [apply print_rest, ret_rest|].
  destruct (negb _); [apply print_rest, print_rest, ret_rest|].
  eapply ctriple_bind; [by apply level_ok|]. intros [|]; cbn [negb]; [|apply ret_rest].
  destruct (_ && _); [apply print_rest, print_rest, ret_rest|]. by apply main_run_ok.
Qed.

(** ** Examples *)

Definition toy_console : ConsoleLib := {|
  cplat_fopen _ := None;
  CPLAT_TRACE_LEVEL_CRITICAL := 0;
  CPLAT_TRACE_LEVEL_ERROR := 1;
  CPLAT_TRACE_LEVEL_WARNING := 2;
  CPLAT_TRACE_LEVEL_INFO := 3;
  CPLAT_TRACE_LEVEL_VERBOSE := 4;
  CPLAT_TRACE_LEVEL_NONE := 6;
  CPLAT_TRACE_LEVEL_IS_FORCE l := l <? 0;
  CPLAT_TRACE_LEVEL_FROM_FORCE l := - l - 1
|}.

(** What the service's threads do while the console waits: on TCP, a connect
    thread undoes its start; on UDP, the receive thread takes a few turns. *)
Definition busy `{CplatByteorder} `{Platform} `{Host} : M unit :=
  g ← get_cfg;
  when (x_n_path g =? 1)%nat
    (if is_tcp g then undo_start 0 true true else recv_thread_run example_turns).

Lemma busy_bystander `{CplatByteorder} `{Platform} `{!PlatformLaws} `{Host} g : bystander g busy.
Proof.
  unfold bystander, busy. destruct (is_tcp g) eqn:Ht.
  - intros w Hw. assert (x_cfg (w_ctx w) = g /\ (x_n_path g <= POTR_MAX_PATH)%nat) as [Hg Hn].
    { destruct Hw as (s & l & [<-] & [[]] & _). done. }
    rewrite get_cfg_bind, Hg, Ht. destruct (Nat.eqb_spec (x_n_path g) 1) as [Hone|]; unfold when;
      [|by eexists _, _, _]. apply undo_start_ok; [lia|done|done].
  - intros l s w [Hw Hx]. rewrite get_cfg_bind, (ow_cfg _ _ _ _ Hw), Ht.
    pose proof (xo_cfg _ Hx) as Hg. rewrite (ow_cfg _ _ _ _ Hw) in Hg.
    destruct (Nat.eqb_spec (x_n_path g) 1) as [Hone|]; unfold when; [|by eexists _, _, _].
    apply recv_run_leaves_handles; [done|done| |done]. apply example_turns_ok; [done|]. apply Hg.
Qed.

Lemma bystander_background `{CplatByteorder} m : (forall g, bystander g m) -> background_ok m.
Proof.
  intros Hm g w Hw. specialize (Hm g). unfold serves, closable, bystander in *. destruct (is_tcp g).
  - by apply Hm.
  - destruct Hw as (l & Hw & Hl & Hx). destruct (Hm l _ w (conj Hw Hx)) as ([] & w' & es & Hr & Hw' & Hx').
    exists tt, w', es. split; [done|]. by exists l.
Qed.

Definition busy_env `{CplatByteorder} `{Platform} `{Host} : console_env := ConsoleEnv POTR_OK busy [].

Lemma busy_env_ok `{CplatByteorder} `{Platform} `{!PlatformLaws} `{Host} : env_ok busy_env.
Proof. intros g. split; [apply busy_bystander|constructor]. Qed.

(** A typed line, in a buffer with the rest of an older one. *)
Definition typed `{CplatByteorder} `{Platform} `{Host} (line : string) : console_turn :=
  ConsoleTurn true busy (Some (cstr line ++ [0; 88; 0])) busy_env.

Lemma typed_ok `{CplatByteorder} `{Platform} `{!PlatformLaws} `{Host} line :
  forallb (fun c => negb (c =? 0)) (cstr line) = true -> turn_ok (typed line).
Proof.
  intros Hl. split; [apply bystander_background, busy_bystander|]. split; [apply busy_env_ok|].
  intros buf [= <-]. exists (cstr line). split; [by apply lit_nonul|]. by exists [], [88; 0].
Qed.

Definition example_session `{CplatByteorder} `{Platform} `{Host} : list console_turn :=
  map typed ["send too early"; "open sender porter.jsonc 10"; "open receiver porter.jsonc 10";
             "  send  -c hello  world "; "close"; "bogus"; "open sender porter.jsonc 10"].

Definition no_args : main_args := MainArgs true false true None None None None true true.

#[local] Abbreviation example_main :=
  (@main little_host toy_platform toy_host toy_config toy_console no_args
     (@example_session little_host toy_platform toy_host) false (@busy_env little_host toy_platform toy_host)
     (@initial_console toy_console) (World (example_ctx POTR_TYPE_TCP false) 0)).

(** The calls the example makes. *)
Definition is_call (a : console_action) : bool :=
  match a with Print _ _ | StartTracer => false | _ => true end.

Example example_main_calls :
  option_map (fun r => filter (fun a => is_call a = true) (con_log r.1.1.2)) example_main
  = Some [CallOpen 10 POTR_ROLE_SENDER false true; CallSend (cstr "hello  world") 3; CallClose;
          CallOpen 10 POTR_ROLE_SENDER false true; CallClose].
Proof. vm_compute. reflexivity. Qed.

Lemma console_closes_what_it_opens_witness :
  exists rc c w es, example_main = Some ((rc, c), w, es) /\
    @finished toy_host (World (example_ctx POTR_TYPE_TCP false) 0) c w.
Proof.
  apply (@console_closes_what_it_opens little_host toy_platform toy_laws toy_errors toy_host toy_config
    toy_config_laws toy_console).
  - split; intros ? [=].
  - repeat (apply Forall_cons_2; [apply (@typed_ok little_host toy_platform toy_laws toy_host); reflexivity|]).
    apply Forall_nil_2.
  - apply (@busy_env_ok little_host toy_platform toy_laws toy_host).
Defined.

Lemma process_line_interprets_witness :
  @process_line little_host toy_platform toy_host toy_config toy_console (@busy_env little_host toy_platform toy_host)
    (cstr "  file --compress  'a b.txt' " ++ [0; 88])
    (@initial_console toy_console) (World (example_ctx POTR_TYPE_TCP false) 0)
  = @run_command little_host toy_platform toy_host toy_config toy_console (@busy_env little_host toy_platform toy_host)
    (CmdSend true true (cstr "a b.txt"))
    (@initial_console toy_console) (World (example_ctx POTR_TYPE_TCP false) 0).
Proof.
  apply (@process_line_interprets little_host toy_platform toy_host toy_config toy_console (@busy_env little_host toy_platform toy_host)
    (cstr "  file --compress  'a b.txt' " ++ [0; 88]) (cstr "  file --compress  'a b.txt' ")).
  split; [apply lit_nonul; reflexivity|]. exists [], [88]. split; reflexivity.
Defined.

(** The words for the roles are not case-insensitive: only the two spellings
    are known. *)
Theorem role_words_case : parse_role (cstr "Sender" ++ [0]) (Some O) = Some None /\
  parse_role (cstr "SENDER" ++ [0]) (Some O) = Some (Some POTR_ROLE_SENDER).
Proof. split; reflexivity. Qed.

(** A receiver of a two-way TCP service is not allowed to send. *)
Theorem tcp_bidir_receiver_mute :
  opens_bidir POTR_ROLE_RECEIVER (Some POTR_TYPE_TCP_BIDIR) = false /\
  opens_bidir POTR_ROLE_SENDER (Some POTR_TYPE_TCP_BIDIR) = true.
Proof. split; reflexivity. Qed.
