(* ===== verification/TcpServer.v ===== *)
(** The sample server: tcpServer.c, tcpServer.h and tcpServer_common.c.

    The sample answers every connection with the bytes it receives; it uses the
    platform library and the system, but not porter.  A process is a monadic
    program over the descriptors it holds.  The system is the class [Sys]: its
    answers are functions of the number of calls made so far, so that the
    theorems hold for every behaviour that [SysLaws] allows. *)

From stdpp Require Import base list numbers option strings.
From Stdlib Require Import ZArith Lia ZifyBool.
From S2P Require Import Prelude Config Text.
Local Open Scope Z_scope.
Local Open Scope porter_scope.

Definition DEFAULT_PORT : Z := 8080.
Definition DEFAULT_WORKERS : Z := 4.
Definition DEFAULT_CONNS_PER_WORKER : Z := 1.
Definition BUFFER_SIZE : nat := 1024.
Definition EXIT_SESS : Z := 0.
Definition EXIT_FAILURE : Z := 1.

Inductive ServerMode := MODE_PREFORK | MODE_FORK.

(** ** The system *)

Inductive accept_result := Accepted (fd : Z) | AcceptEintr | AcceptError.
Inductive wait_result := Ready (fds : list Z) | WaitEintr | WaitError.
Inductive fork_result := ForkFailed | ForkChild | ForkParent (pid : Z).

Class Sys := {
  sys_ok : nat -> bool;
  sys_descriptor : nat -> list Z -> option Z;
  sys_accept : nat -> list Z -> accept_result;
  sys_recv : nat -> nat -> list Z;
  (** how many of the bytes offered a write takes; [None] when it fails *)
  sys_send : nat -> nat -> option nat;
  sys_events : nat -> list Z -> wait_result;
  sys_fork : nat -> fork_result;
  sys_running : nat -> bool;
  sys_stack : nat -> nat -> list Z
}.

(** A new descriptor is not in use; at most the bytes asked for are read, and at
    most the bytes offered are written; the events are for different descriptors
    of the interest list; a local array has its size. *)
Class SysLaws `{Sys} := {
  descriptor_fresh t l fd : sys_descriptor t l = Some fd -> fd ∉ l;
  accept_fresh t l fd : sys_accept t l = Accepted fd -> fd ∉ l;
  recv_fits t len : (length (sys_recv t len) <= len)%nat;
  send_fits t len n : sys_send t len = Some n -> (n <= len)%nat;
  events_listed t l fds : sys_events t l = Ready fds -> NoDup fds /\ fds ⊆ l;
  stack_size t n : length (sys_stack t n) = n
}.

(** What a process holds: the number of calls made, the open descriptors, the
    interest list of its epoll descriptor, the blocks of its heap, and whether
    [g_session_fn] is set. *)
Record process := Process {
  k_tick : nat;
  k_open : list Z;
  k_epoll : list Z;
  k_blocks : nat;
  g_session_fn : bool
}.

Inductive srv_event :=
  | Printed (text : list Z)
  | Received (fd : Z) (bs : list Z)
  | Sent (fd : Z) (bs : list Z)
  | Closed (fd : Z)
  | Terminated (pid : Z)
  | Waited (pid : Z)
  | Spawned (command : list Z)
  | Notified
  | Assigned (worker : nat) (fd : Z).

(** A run returns, ends the process, or goes on beyond the turns it is given. *)
Inductive outcome (A : Type) := Return (a : A) | Exit (code : Z) | Running.
Arguments Return {A} a.
Arguments Exit {A} code.
Arguments Running {A}.

(** [None] is a fault: an access out of range, the use of a descriptor that
    is not open, or a call through a null pointer. *)
Definition Proc (A : Type) : Type := process -> option (outcome A * process * list srv_event).

#[export] Instance Proc_ret : MRet Proc := fun A a k => Some (Return a, k, []).
#[export] Instance Proc_bind : MBind Proc := fun A B f m k =>
  match m k with
  | Some (Return a, k1, e1) =>
      match f a k1 with Some (o, k2, e2) => Some (o, k2, e1 ++ e2) | None => None end
  | Some (Exit c, k1, e1) => Some (Exit c, k1, e1)
  | Some (Running, k1, e1) => Some (Running, k1, e1)
  | None => None
  end.

Definition exit_process {A} (code : Z) : Proc A := fun k => Some (Exit code, k, []).
Definition still_running {A} : Proc A := fun k => Some (Running, k, []).
Definition emit (e : srv_event) : Proc unit := fun k => Some (Return tt, k, [e]).
Definition need {A} (o : option A) : Proc A := fun k => match o with Some a => Some (Return a, k, []) | None => None end.

Definition next_tick (k : process) : process :=
  Process (S (k_tick k)) (k_open k) (k_epoll k) (k_blocks k) (g_session_fn k).
Definition call {A} (f : nat -> A) : Proc A := fun k => Some (Return (f (k_tick k)), next_tick k, []).

Definition call_open {A} (f : nat -> list Z -> A) : Proc A := fun k => call (fun t => f t (k_open k)) k.

Definition without (fd : Z) (l : list Z) : list Z := List.filter (fun x => negb (x =? fd)) l.

Definition open_descriptor (fd : Z) : Proc unit := fun k =>
  Some (Return tt, Process (k_tick k) (fd :: k_open k) (k_epoll k) (k_blocks k) (g_session_fn k), []).

(** [cplat_close], [closesocket]; a descriptor that is closed leaves the
    interest list. *)
Definition client_close (fd : Z) : Proc unit := fun k =>
  if bool_decide (fd ∈ k_open k)
  then Some (Return tt, Process (k_tick k) (without fd (k_open k)) (without fd (k_epoll k)) (k_blocks k) (g_session_fn k),
             [Closed fd])
  else None.

Definition use_descriptor (fd : Z) : Proc unit := fun k =>
  if bool_decide (fd ∈ k_open k) then Some (Return tt, k, []) else None.

Definition set_blocks (k : process) (n : nat) : process :=
  Process (k_tick k) (k_open k) (k_epoll k) n (g_session_fn k).
Definition add_block : Proc unit := fun k => Some (Return tt, set_blocks k (S (k_blocks k)), []).
Definition cplat_free : Proc unit := fun k =>
  match k_blocks k with O => None | S n => Some (Return tt, set_blocks k n, []) end.

Section Server.
Context `{Sys}.

Definition cplat_malloc : Proc bool :=
  ok ← call sys_ok;
  if ok : bool then add_block;; mret true else mret false.

Definition accept (server_fd : Z) : Proc accept_result :=
  use_descriptor server_fd;;
  r ← call_open sys_accept;
  match r with Accepted fd => open_descriptor fd;; mret r | _ => mret r end.

(** The number of bytes received and the buffer; 0 at the end of the
    connection and after an error. *)
Definition client_recv (fd : Z) (buf : list Z) (len : nat) : Proc (Z * list Z) :=
  use_descriptor fd;;
  bs ← call (fun t => sys_recv t len);
  buf' ← need (mem_write buf 0 bs);
  (if bool_decide (bs = []) then mret tt else emit (Received fd bs));;
  mret (Z.of_nat (length bs), buf').

(** The bytes that were written; the callers do not look at their number. *)
Definition client_send (fd : Z) (buf : list Z) (n : nat) : Proc unit :=
  use_descriptor fd;;
  bs ← need (mem_read buf 0 n);
  r ← call (fun t => sys_send t n);
  emit (Sent fd (take (default 0%nat r) bs)).

(** ** tcpServer.c *)

Fixpoint session_loop (turns : nat) (fd : Z) (buffer : list Z) : Proc unit :=
  match turns with
  | O => still_running
  | S turns =>
      '(n, buffer) ← client_recv fd buffer (BUFFER_SIZE - 1);
      if negb (0 <? n) then mret tt
      else
        buffer ← need (store_char buffer (Z.to_nat n) 0);
        text ← need (string_at buffer 0);
        emit (Printed text);;
        client_send fd buffer (Z.to_nat n);;
        session_loop turns fd buffer
  end.

Definition handle_client_session (turns : nat) (fd : Z) : Proc unit :=
  buffer ← call (fun t => sys_stack t BUFFER_SIZE);
  session_loop turns fd buffer;;
  client_close fd.

(** A call of [g_session_fn], which is a null pointer before [platform_init]. *)
Definition run_session (turns : nat) (fd : Z) : Proc unit := fun k =>
  if g_session_fn k then handle_client_session turns fd k else None.

Definition set_session_fn : Proc unit := fun k =>
  Some (Return tt, Process (k_tick k) (k_open k) (k_epoll k) (k_blocks k) true, []).
End Server.

(** What a platform implements for [main] (tcpServer.h). *)
Class ServerPlatform := {
  platform_init : Proc unit;
  platform_cleanup : Proc unit;
  dispatch_internal_args : list (list Z) -> Proc bool;
  run_fork_server : Z -> Proc unit;
  run_prefork_server : Z -> Z -> Z -> Proc unit
}.

(** What the argument parser of the platform library found. *)
Record server_args := ServerArgs {
  a_argv : list (list Z);
  a_register_errors : bool;
  a_parse_ok : bool;
  a_help : bool;
  a_mode : option (list Z);
  a_port : option Z;
  a_workers : option Z;
  a_conns_per_worker : option Z
}.

Definition select_mode (a : server_args) : option ServerMode :=
  match a_mode a with
  | None => Some MODE_PREFORK
  | Some s =>
      if bool_decide (s = cstr "fork") then Some MODE_FORK
      else if bool_decide (s = cstr "prefork") then Some MODE_PREFORK else None
  end.

Definition main `{ServerPlatform} (a : server_args) : Proc Z :=
  platform_init;;
  handled ← dispatch_internal_args (a_argv a);
  if handled : bool then platform_cleanup;; mret EXIT_SESS
  else if a_register_errors a then platform_cleanup;; mret EXIT_FAILURE
  else if a_help a then platform_cleanup;; mret EXIT_SESS
  else if negb (a_parse_ok a) then platform_cleanup;; mret EXIT_FAILURE
  else
    match select_mode a with
    | None => platform_cleanup;; mret EXIT_FAILURE
    | Some mode =>
        let port := default DEFAULT_PORT (a_port a) in
        match mode with
        | MODE_FORK => run_fork_server port
        | MODE_PREFORK =>
            run_prefork_server port (default DEFAULT_WORKERS (a_workers a))
              (default DEFAULT_CONNS_PER_WORKER (a_conns_per_worker a))
        end;;
        platform_cleanup;;
        mret EXIT_SESS
    end.

(** ** Reasoning about processes *)

Definition wp {A} (m : Proc A) (k : process) (Q : outcome A -> process -> list srv_event -> Prop) : Prop :=
  exists o k' es, m k = Some (o, k', es) /\ Q o k' es.

Lemma wp_mono {A} (m : Proc A) k (Q Q' : outcome A -> process -> list srv_event -> Prop) :
  wp m k Q -> (forall o k' es, Q o k' es -> Q' o k' es) -> wp m k Q'.
Proof. intros (o & k' & es & Hr & Hq) HQ. exists o, k', es. auto. Qed.

Lemma wp_ret {A} (a : A) k (Q : outcome A -> process -> list srv_event -> Prop) : Q (Return a) k [] -> wp (mret a) k Q.
Proof. intros Hq. by exists (Return a), k, []. Qed.

Lemma wp_bind {A B} (m : Proc A) (f : A -> Proc B) k (Q : outcome B -> process -> list srv_event -> Prop) :
  wp m k (fun o k1 e1 => match o with
    | Return a => wp (f a) k1 (fun o2 k2 e2 => Q o2 k2 (e1 ++ e2))
    | Exit c => Q (Exit c) k1 e1
    | Running => Q Running k1 e1
    end) -> wp (m ≫= f) k Q.
Proof.
  intros (o & k1 & e1 & Hr & Hq). unfold wp, mbind, Proc_bind. rewrite Hr. destruct o as [a|c|].
  - destruct Hq as (o2 & k2 & e2 & -> & Hq). eauto 10.
  - eauto 10.
  - eauto 10.
Qed.

Lemma bind_assoc_proc {A B C} (m : Proc A) (f : A -> Proc B) (g : B -> Proc C) k Q :
  wp (m ≫= fun a => f a ≫= g) k Q -> wp ((m ≫= f) ≫= g) k Q.
Proof.
  unfold wp, mbind, Proc_bind. intros (o & k' & es & Hr & HQ). exists o, k', es. split; [|done]. rewrite <- Hr.
  destruct (m k) as [[[[a|c|] k1] e1]|]; try done. destruct (f a k1) as [[[[b|c|] k2] e2]|]; try done.
  destruct (g b k2) as [[[o3 k3] e3]|]; [|done]. by rewrite app_assoc.
Qed.

(** A step that returns without events. *)
Lemma wp_step {A B} (m : Proc A) (f : A -> Proc B) k a k1 (Q : outcome B -> process -> list srv_event -> Prop) :
  m k = Some (Return a, k1, []) -> wp (f a) k1 Q -> wp (m ≫= f) k Q.
Proof. intros Hm Hf. apply wp_bind. exists (Return a), k1, []. auto. Qed.

Lemma wp_event {B} e (f : unit -> Proc B) k (Q : outcome B -> process -> list srv_event -> Prop) :
  wp (f tt) k (fun o k' es => Q o k' (e :: es)) -> wp (emit e ≫= f) k Q.
Proof. intros Hf. apply wp_bind. by exists (Return tt), k, [e]. Qed.

Lemma use_open fd k : fd ∈ k_open k -> use_descriptor fd k = Some (Return tt, k, []).
Proof. intros Hin. unfold use_descriptor. by rewrite bool_decide_true. Qed.

Lemma need_some {A} (o : option A) a k : o = Some a -> need o k = Some (Return a, k, []).
Proof. by intros ->. Qed.

Lemma elem_without fd x l : x ∈ without fd l <-> x ∈ l /\ x <> fd.
Proof.
  unfold without. rewrite !list_elem_of_In, List.filter_In, negb_true_iff, Z.eqb_neq. done.
Qed.

Lemma without_at fd x l : without fd (x :: l) = if x =? fd then without fd l else x :: without fd l.
Proof. unfold without. cbn. by destruct (x =? fd). Qed.

Lemma without_id fd l : fd ∉ l -> without fd l = l.
Proof.
  induction l as [|x l IH]; [done|]. intros Hn. apply not_elem_of_cons in Hn as [Hx Hl]. rewrite without_at.
  destruct (Z.eqb_spec x fd) as [->|]; [done|]. by rewrite IH.
Qed.

Lemma without_comm a b l : without a (without b l) = without b (without a l).
Proof.
  induction l as [|x l IH]; [done|]. rewrite !without_at.
  destruct (x =? a) eqn:Ha, (x =? b) eqn:Hb; rewrite ?without_at, ?Ha, ?Hb, ?IH; done.
Qed.

Lemma NoDup_without fd l : NoDup l -> NoDup (without fd l).
Proof.
  induction 1 as [|x l Hx Hl IH]; [apply NoDup_nil_2|]. rewrite without_at. destruct (x =? fd); [done|].
  apply NoDup_cons. split; [|done]. intros Hin. by apply elem_without in Hin as [? _].
Qed.

Lemma without_cons fd l : fd ∉ l -> without fd (fd :: l) = l.
Proof. intros Hn. rewrite without_at, Z.eqb_refl. by apply without_id. Qed.

Lemma length_without fd l : NoDup l -> fd ∈ l -> length l = S (length (without fd l)).
Proof.
  induction 1 as [|x l Hx Hl IH]; [by intros ?%not_elem_of_nil|]. rewrite without_at. intros [->|Hin]%elem_of_cons.
  - rewrite Z.eqb_refl. cbn. by rewrite without_id.
  - destruct (Z.eqb_spec x fd) as [->|]; [done|]. cbn. by rewrite IH.
Qed.

(** ** Echo *)

Definition received (es : list srv_event) : list (Z * list Z) :=
  omap (fun e => match e with Received fd bs => Some (fd, bs) | _ => None end) es.
Definition sent (es : list srv_event) : list (Z * list Z) :=
  omap (fun e => match e with Sent fd bs => Some (fd, bs) | _ => None end) es.

(** Every message received was offered in full to the connection it came from,
    in order: as many of its first bytes went out as the write took, which is
    the whole message when no write fails or is short. *)
Definition echoes `{Sys} (es : list srv_event) : Prop :=
  Forall2 (fun r s => s.1 = r.1 /\ s.2 `prefix_of` r.2) (received es) (sent es) /\
  ((forall t n, sys_send t n = Some n) -> sent es = received es).

Lemma echoes_app `{Sys} a b : echoes a -> echoes b -> echoes (a ++ b).
Proof.
  unfold echoes, sent, received. rewrite !omap_app. intros [Ha Ha'] [Hb Hb']. split; [by apply Forall2_app|].
  intros Hall. by rewrite Ha', Hb'.
Qed.

Lemma echoes_nil `{Sys} : echoes [].
Proof. split; [constructor|done]. Qed.

Lemma echoes_silent `{Sys} e : received [e] = [] -> sent [e] = [] -> echoes [e].
Proof. unfold echoes. intros -> ->. split; [constructor|done]. Qed.
#[export] Hint Resolve echoes_nil : core.
#[export] Hint Extern 1 (echoes [_]) => apply echoes_silent; reflexivity : core.

(** One message and its answer, written at the call [t]. *)
Lemma echoes_answer `{Sys} fd bs t mid :
  received mid = [] -> sent mid = [] ->
  echoes (Received fd bs :: mid ++ [Sent fd (take (default 0%nat (sys_send t (length bs))) bs)]).
Proof.
  intros Hr Hs. unfold echoes. change (?a :: ?l) with ([a] ++ l). unfold received, sent in *.
  rewrite !omap_app, Hr, Hs. cbn. split.
  - constructor; [|constructor]. split; [done|]. apply prefix_take.
  - intros ->. cbn. by rewrite firstn_all.
Qed.

(** The echo of a run from those of its parts. *)
Ltac echoing := cbn [app]; repeat apply echoes_app; done.

Section Session.
Context `{SysLaws}.

(** The process holds what it held before. *)
Definition holds (k k' : process) : Prop :=
  k_open k' = k_open k /\ k_epoll k' = k_epoll k /\ k_blocks k' = k_blocks k /\ g_session_fn k' = g_session_fn k.

Lemma holds_refl k : holds k k.
Proof. done. Qed.
Lemma holds_trans a b c : holds a b -> holds b c -> holds a c.
Proof. unfold holds. intuition congruence. Qed.
Lemma holds_tick k : holds k (next_tick k).
Proof. done. Qed.

(** What is received is at the start of the buffer. *)
Lemma wp_recv fd buf len k Q :
  fd ∈ k_open k -> (len <= length buf)%nat ->
  (forall bs, (length bs <= len)%nat ->
     Q (Return (Z.of_nat (length bs), bs ++ drop (length bs) buf)) (next_tick k)
       (if bool_decide (bs = []) then [] else [Received fd bs])) ->
  wp (client_recv fd buf len) k Q.
Proof.
  intros Hfd Hlen HQ. unfold client_recv. apply (wp_step _ _ _ _ _ _ (use_open _ _ Hfd)).
  set (bs := sys_recv (k_tick k) len). apply (wp_step _ _ _ bs (next_tick k)); [done|].
  pose proof (recv_fits (k_tick k) len) as Hl. fold bs in Hl. specialize (HQ bs Hl).
  apply (wp_step _ _ _ (bs ++ drop (length bs) buf) (next_tick k)).
  { apply need_some. rewrite mem_write_Some by lia. by rewrite take_0. }
  apply wp_bind. case_bool_decide.
  - by apply wp_ret, wp_ret.
  - exists (Return tt), (next_tick k), [Received fd bs]. split; [done|]. by apply wp_ret.
Qed.

Lemma wp_send fd bs rest k Q :
  fd ∈ k_open k ->
  Q (Return tt) (next_tick k) [Sent fd (take (default 0%nat (sys_send (k_tick k) (length bs))) bs)] ->
  wp (client_send fd (bs ++ rest) (length bs)) k Q.
Proof.
  intros Hfd HQ. unfold client_send. apply (wp_step _ _ _ _ _ _ (use_open _ _ Hfd)).
  apply (wp_step _ _ _ bs k).
  { apply need_some. rewrite mem_read_Some by (rewrite length_app; lia). by rewrite drop_0, take_app_length. }
  eapply wp_step; [done|]. eexists (Return tt), (next_tick k), _. done.
Qed.

(** What [printf] shows of [bs] when a NUL follows it. *)
Fixpoint until_nul (bs : list Z) : list Z :=
  match bs with c :: bs => if c =? 0 then [] else c :: until_nul bs | [] => [] end.

Lemma until_nul_holds bs post : holds_str (bs ++ 0 :: post) 0 (until_nul bs).
Proof.
  cut (nonul (until_nul bs) /\ exists post', bs ++ 0 :: post = until_nul bs ++ 0 :: post').
  { intros (Hn & post' & Hp). split; [done|]. by exists [], post'. }
  induction bs as [|c bs (Hn & post' & Hp)]; cbn [until_nul app]; [split; [apply Forall_nil_2|by exists post]|].
  destruct (Z.eqb_spec c 0) as [->|Hc].
  - split; [apply Forall_nil_2|]. by exists (bs ++ 0 :: post).
  - split; [by apply Forall_cons_2|]. exists post'. cbn [app]. by rewrite Hp.
Qed.

(** One message of the session, written at the call [t]. *)
Definition echo_turn (fd : Z) (m : nat * list Z) : list srv_event :=
  [Received fd m.2; Printed (until_nul m.2); Sent fd (take (default 0%nat (sys_send m.1 (length m.2))) m.2)].

Lemma echo_turns_echo fd msgs : echoes (concat (map (echo_turn fd) msgs)).
Proof.
  induction msgs as [|m msgs IH]; [done|]. cbn [map concat]. apply echoes_app; [|done].
  by apply (echoes_answer fd m.2 m.1 [Printed (until_nul m.2)]).
Qed.

Lemma session_loop_ok turns fd buffer k :
  fd ∈ k_open k -> length buffer = BUFFER_SIZE ->
  wp (session_loop turns fd buffer) k (fun o k' es => (o = Return tt \/ o = Running) /\ holds k k' /\
    exists msgs, es = concat (map (echo_turn fd) msgs) /\ Forall (fun m => m.2 <> []) msgs).
Proof.
  revert buffer k. induction turns as [|turns IH]; intros buffer k Hfd Hb; cbn [session_loop].
  { exists Running, k, []. split; [done|]. split; [by right|]. split; [done|]. by exists []. }
  apply wp_bind, wp_recv; [done|rewrite Hb; unfold BUFFER_SIZE; lia|]. intros bs Hl. cbn beta iota.
  destruct bs as [|c bs'] eqn:Hbs; cbn [bool_decide].
  { apply wp_ret. split; [by left|]. split; [done|]. by exists []. }
  rewrite <- Hbs in *. assert (bs <> []) as Hne by by rewrite Hbs. rewrite bool_decide_false by done.
  assert ((0 <? Z.of_nat (length bs)) = true) as -> by (rewrite Hbs; cbn [length]; lia). cbn [negb].
  assert (length bs < length buffer)%nat as Hlt by (rewrite Hb; unfold BUFFER_SIZE in *; lia).
  destruct (lookup_lt_is_Some_2 buffer (length bs) Hlt) as [y Hy]. rewrite (drop_S _ _ _ Hy), Nat2Z.id.
  apply (wp_step _ _ _ (bs ++ 0 :: drop (S (length bs)) buffer) (next_tick k)); [by apply need_some, store_mid|].
  apply (wp_step _ _ _ (until_nul bs) (next_tick k)); [by apply need_some, string_at_spec, until_nul_holds|].
  apply wp_event, wp_bind, wp_send; [done|].
  eapply wp_mono; [apply IH; [done|]|].
  { rewrite length_app. cbn [length]. rewrite length_drop. lia. }
  intros o k' es (Ho & Hk & msgs & -> & Hm). split; [done|]. split; [exact (holds_trans _ _ _ (holds_tick k) Hk)|].
  exists ((S (k_tick k), bs) :: msgs). split; [done|]. by apply Forall_cons_2.
Qed.

(** A session echoes, and closes its descriptor when it returns. *)
Lemma session_ok turns fd k :
  fd ∈ k_open k ->
  wp (handle_client_session turns fd) k (fun o k' es =>
    (o = Return tt /\ k_open k' = without fd (k_open k) /\ k_epoll k' = without fd (k_epoll k) \/
     o = Running /\ k_open k' = k_open k /\ k_epoll k' = k_epoll k) /\
    k_blocks k' = k_blocks k /\ g_session_fn k' = g_session_fn k /\ echoes es).
Proof.
  intros Hfd. unfold handle_client_session.
  apply (wp_step _ _ _ (sys_stack (k_tick k) BUFFER_SIZE) (next_tick k)); [done|].
  apply wp_bind. eapply wp_mono; [apply session_loop_ok; [done|apply stack_size]|].
  intros o k' es (Ho & (H1 & H2 & H3 & H4) & msgs & -> & _). pose proof (echo_turns_echo fd msgs) as He.
  destruct Ho as [->| ->]; [|split; [by right|done]].
  unfold client_close, wp. rewrite H1, bool_decide_true by done. eexists _, _, _. split; [done|].
  cbn [k_open k_epoll k_blocks g_session_fn]. split; [left; by rewrite H2|]. split; [done|]. split; [done|].
  by apply echoes_app.
Qed.

Lemma wp_accept server_fd k Q :
  server_fd ∈ k_open k ->
  (forall fd, fd ∉ k_open k -> Q (Return (Accepted fd))
     (Process (S (k_tick k)) (fd :: k_open k) (k_epoll k) (k_blocks k) (g_session_fn k)) []) ->
  Q (Return AcceptEintr) (next_tick k) [] -> Q (Return AcceptError) (next_tick k) [] ->
  wp (accept server_fd) k Q.
Proof.
  intros Ho Ha He Hr. unfold accept. apply (wp_step _ _ _ _ _ _ (use_open _ _ Ho)).
  apply (wp_step _ _ _ (sys_accept (k_tick k) (k_open k)) (next_tick k)); [done|].
  destruct (sys_accept _ _) as [fd| |] eqn:Hacc; [|by apply wp_ret..].
  apply accept_fresh in Hacc. eexists _, _, _. split; [done|]. by apply Ha.
Qed.

Lemma wp_close fd k Q :
  fd ∈ k_open k ->
  Q (Return tt) (Process (k_tick k) (without fd (k_open k)) (without fd (k_epoll k)) (k_blocks k) (g_session_fn k))
    [Closed fd] -> wp (client_close fd) k Q.
Proof. intros Ho HQ. unfold client_close, wp. rewrite bool_decide_true by done. eauto 10. Qed.
End Session.
