(* ===== verification/TcpServerLinux.v ===== *)
(** The sample server on Linux: tcpServer_linux.c.

    A process per connection ([run_fork_server]) or a pool of worker processes
    that share the listening socket ([run_prefork_server]); a worker serves one
    connection at a time, or several with epoll.  A run follows one process:
    what [fork] returns decides which. *)

From stdpp Require Import base list numbers option strings.
From Stdlib Require Import ZArith Lia ZifyBool.
From S2P Require Import Prelude Config Text TcpServer.
Local Open Scope Z_scope.
Local Open Scope porter_scope.

Section Linux.
Context `{Sys}.

Definition create_listen_socket (port : Z) : Proc Z :=
  o ← call_open sys_descriptor;
  match o with
  | None => exit_process 1
  | Some server_fd =>
      open_descriptor server_fd;;
      ok ← call sys_ok;
      if negb ok then exit_process 1
      else
        ok ← call sys_ok;
        if negb ok then exit_process 1 else mret server_fd
  end.

(** [epoll_ctl] fails for a descriptor that is in the list, or not open. *)
Definition set_epoll (l : list Z) : Proc unit := fun k =>
  Some (Return tt, Process (k_tick k) (k_open k) l (k_blocks k) (g_session_fn k), []).
Definition epoll_list : Proc (list Z * list Z) := fun k => Some (Return (k_open k, k_epoll k), k, []).

Definition epoll_add (fd : Z) : Proc bool :=
  ok ← call sys_ok;
  '(o, l) ← epoll_list;
  if ok && bool_decide (fd ∈ o) && negb (bool_decide (fd ∈ l)) then set_epoll (fd :: l);; mret true
  else mret false.
Definition epoll_del (fd : Z) : Proc unit := '(_, l) ← epoll_list; set_epoll (without fd l).

(** *** One connection at a time *)

Fixpoint sequential_loop (turns : nat) (server_fd : Z) : Proc unit :=
  match turns with
  | O => still_running
  | S turns =>
      running ← call sys_running;
      if negb running then mret tt
      else
        r ← accept server_fd;
        match r with
        | Accepted client_fd => run_session turns client_fd;; sequential_loop turns server_fd
        | _ => sequential_loop turns server_fd
        end
  end.

(** *** Several connections with epoll *)

(** [active_count], [accepting] and [buf]. *)
Record epoll_state := EpollState { active_count : Z; accepting : bool; ep_buf : list Z }.

Definition new_connection (server_fd conns_per_worker : Z) (st : epoll_state) : Proc epoll_state :=
  r ← accept server_fd;
  match r with
  | Accepted client_fd =>
      ok ← epoll_add client_fd;
      if negb ok then client_close client_fd;; mret st
      else
        let n := active_count st + 1 in
        if conns_per_worker <=? n then
          epoll_del server_fd;; mret (EpollState n false (ep_buf st))
        else mret (EpollState n (accepting st) (ep_buf st))
  | _ => mret st
  end.

Definition existing_connection (server_fd conns_per_worker : Z) (st : epoll_state) (fd : Z) : Proc epoll_state :=
  '(n, buf) ← client_recv fd (ep_buf st) BUFFER_SIZE;
  if n <=? 0 then
    epoll_del fd;;
    client_close fd;;
    let a := active_count st - 1 in
    if negb (accepting st) && (a <? conns_per_worker) then
      ok ← epoll_add server_fd;
      mret (EpollState a (if ok : bool then true else accepting st) buf)
    else mret (EpollState a (accepting st) buf)
  else
    client_send fd buf (Z.to_nat n);;
    mret (EpollState (active_count st) (accepting st) buf).

(** The loop over the events of one [epoll_wait]. *)
Fixpoint handle_events (server_fd conns_per_worker : Z) (st : epoll_state) (fds : list Z) : Proc epoll_state :=
  match fds with
  | [] => mret st
  | fd :: fds =>
      st ← (if fd =? server_fd then new_connection server_fd conns_per_worker st
            else existing_connection server_fd conns_per_worker st fd);
      handle_events server_fd conns_per_worker st fds
  end.

Definition epoll_wait : Proc wait_result := fun k => call (fun t => sys_events t (k_epoll k)) k.

Fixpoint epoll_loop (turns : nat) (server_fd conns_per_worker : Z) (st : epoll_state) : Proc unit :=
  match turns with
  | O => still_running
  | S turns =>
      running ← call sys_running;
      if negb running then mret tt
      else
        r ← epoll_wait;
        match r with
        | WaitEintr => epoll_loop turns server_fd conns_per_worker st
        | WaitError => mret tt
        | Ready fds =>
            st ← handle_events server_fd conns_per_worker st fds;
            epoll_loop turns server_fd conns_per_worker st
        end
  end.

Definition epoll_worker (turns : nat) (server_fd conns_per_worker : Z) : Proc unit :=
  buf ← call (fun t => sys_stack t BUFFER_SIZE);
  o ← call_open sys_descriptor;
  match o with
  | None => exit_process 1
  | Some epoll_fd =>
      open_descriptor epoll_fd;;
      ok ← epoll_add server_fd;
      if negb ok then exit_process 1
      else
        epoll_loop turns server_fd conns_per_worker (EpollState 0 true buf);;
        client_close epoll_fd
  end.

Definition worker_loop (turns : nat) (server_fd conns_per_worker : Z) : Proc unit :=
  (if conns_per_worker =? 1 then sequential_loop turns server_fd
   else epoll_worker turns server_fd conns_per_worker);;
  exit_process 0.

(** *** The servers *)

Fixpoint fork_loop (turns : nat) (server_fd : Z) : Proc unit :=
  match turns with
  | O => still_running
  | S turns =>
      r ← accept server_fd;
      match r with
      | Accepted client_fd =>
          pid ← call sys_fork;
          match pid with
          | ForkFailed => client_close client_fd;; fork_loop turns server_fd
          | ForkChild => client_close server_fd;; run_session turns client_fd;; exit_process 0
          | ForkParent _ => client_close client_fd;; fork_loop turns server_fd
          end
      | _ => fork_loop turns server_fd
      end
  end.

Definition linux_fork_server (turns : nat) (port : Z) : Proc unit :=
  server_fd ← create_listen_socket port;
  fork_loop turns server_fd.

(** The loop that starts the workers, from number [i]; the pids of the
    workers. *)
Fixpoint start_workers (turns n : nat) (server_fd conns_per_worker : Z) : Proc (list Z) :=
  match n with
  | O => mret []
  | S n =>
      r ← call sys_fork;
      match r with
      | ForkFailed => cplat_free;; exit_process 1
      | ForkChild => cplat_free;; worker_loop turns server_fd conns_per_worker;; mret []
      | ForkParent pid => pids ← start_workers turns n server_fd conns_per_worker; mret (pid :: pids)
      end
  end.

Fixpoint pause_loop (turns : nat) : Proc unit :=
  match turns with
  | O => still_running
  | S turns => running ← call sys_running; if negb running then mret tt else pause_loop turns
  end.

Fixpoint for_pids (pids : list Z) (f : Z -> Proc unit) : Proc unit :=
  match pids with
  | [] => mret tt
  | pid :: pids => (if 0 <? pid then f pid else mret tt);; for_pids pids f
  end.

Definition linux_prefork_server (turns : nat) (port num_workers conns_per_worker : Z) : Proc unit :=
  server_fd ← create_listen_socket port;
  ok ← cplat_malloc;
  if negb ok then exit_process 1
  else
    pids ← start_workers turns (Z.to_nat num_workers) server_fd conns_per_worker;
    pause_loop turns;;
    for_pids pids (fun pid => emit (Terminated pid));;
    for_pids pids (fun pid => emit (Waited pid));;
    cplat_free;;
    client_close server_fd.
End Linux.

(** The platform that [main] runs on; [turns] bounds the observation. *)
Definition linux_platform `{Sys} (turns : nat) : ServerPlatform := {|
  platform_init := set_session_fn;
  platform_cleanup := mret tt;
  dispatch_internal_args _ := mret false;
  run_fork_server := linux_fork_server turns;
  run_prefork_server := linux_prefork_server turns
|}.

(** ** A worker with epoll *)

Section Worker.
Context `{SysLaws}.
Context (server_fd epoll_fd conns_per_worker : Z).

(** The connections that a worker serves. *)
Definition clients (k : process) : list Z := without server_fd (k_epoll k).

(** The counter is exact and within the limit; the open descriptors are the
    listening socket, epoll's own and the connections, and epoll watches every
    connection; the worker listens while it has room, and is full otherwise,
    unless [epoll_ctl] failed. *)
Record serving (st : epoll_state) (k : process) : Prop := {
  sv_open fd : fd ∈ k_open k <-> fd = server_fd \/ fd = epoll_fd \/ fd ∈ clients k;
  sv_nodup_open : NoDup (k_open k);
  sv_nodup : NoDup (k_epoll k);
  sv_apart : server_fd <> epoll_fd /\ epoll_fd ∉ k_epoll k;
  sv_listed : server_fd ∈ k_epoll k <-> accepting st = true;
  sv_count : active_count st = Z.of_nat (length (clients k));
  sv_room : accepting st = true -> active_count st < conns_per_worker;
  sv_full : accepting st = false -> active_count st <= conns_per_worker /\
    (active_count st = conns_per_worker \/ exists t, sys_ok t = false);
  sv_buf : length (ep_buf st) = BUFFER_SIZE
}.

Lemma serving_server st k : serving st k -> server_fd ∈ k_open k.
Proof. intros Hs. apply (sv_open _ _ Hs). by left. Qed.

Lemma serving_tick st k : serving st k -> serving st (next_tick k).
Proof. intros []. by split. Qed.

(** [epoll_ctl] adds what is open and not watched. *)
Lemma wp_epoll_add fd k Q :
  fd ∈ k_open k -> fd ∉ k_epoll k ->
  (sys_ok (k_tick k) = false -> Q (Return false) (next_tick k) []) ->
  Q (Return true) (Process (S (k_tick k)) (k_open k) (fd :: k_epoll k) (k_blocks k) (g_session_fn k)) [] ->
  wp (epoll_add fd) k Q.
Proof.
  intros Ho Hl Hf Ht. unfold epoll_add, wp. unfold mbind, Proc_bind, call, epoll_list. cbn.
  rewrite (bool_decide_true _ Ho), (bool_decide_false _ Hl). destruct (sys_ok (k_tick k)); cbn; eauto 10.
Qed.

(** What one event leaves: the invariant, and the interest in every other
    descriptor. *)
Definition event_done (fd : Z) (k : process) (o : outcome epoll_state) (k' : process) (es : list srv_event) : Prop :=
  exists st', o = Return st' /\ serving st' k' /\ echoes es /\
    (forall x, x <> fd -> x ∈ k_epoll k -> x ∈ k_epoll k').

(** A connection more. *)
Lemma serving_more st k fd t n l :
  serving st k -> fd ∉ k_open k -> n = active_count st + 1 ->
  l = (if conns_per_worker <=? n then fd :: clients k else fd :: k_epoll k) -> accepting st = true ->
  serving (EpollState n (negb (conns_per_worker <=? n)) (ep_buf st))
    (Process t (fd :: k_open k) l (k_blocks k) (g_session_fn k)) /\ (forall x, x <> server_fd -> x ∈ k_epoll k -> x ∈ l).
Proof.
  intros [Hopen Hndo Hnd [Hne Hep] Hli Hc Hroom _ Hb] Hfd -> Hl Hacc. specialize (Hroom Hacc).
  assert (fd <> server_fd /\ fd <> epoll_fd /\ fd ∉ clients k) as (Hfs & Hfe & Hfc)
    by (split_and!; intros Hx; apply Hfd, Hopen; auto).
  assert (server_fd ∉ clients k) as Hsc by (intros Hx; by apply elem_without in Hx as [_ ?]).
  assert (without server_fd l = fd :: clients k) as Hcl.
  { rewrite Hl. destruct (_ <=? _); rewrite without_at, (proj2 (Z.eqb_neq _ _) Hfs); [|done]. by rewrite without_id. }
  assert (NoDup (clients k)) as Hndc by by apply NoDup_without.
  assert (fd ∉ k_epoll k) as Hfl by (intros Hx; apply Hfc, elem_without; done).
  assert (epoll_fd ∉ clients k) as Hec by (intros Hx; by apply elem_without in Hx as [? _]).
  split; [|intros x Hx Hin; rewrite Hl; destruct (_ <=? _); right; [by apply elem_without|done]].
  split; unfold clients; cbn [k_open k_epoll active_count accepting ep_buf]; rewrite ?Hcl.
  - intros x. rewrite !elem_of_cons, Hopen. fold (clients k). tauto.
  - by apply NoDup_cons.
  - rewrite Hl. destruct (_ <=? _); by apply NoDup_cons.
  - split; [done|]. rewrite Hl. destruct (_ <=? _); apply not_elem_of_cons; done.
  - rewrite Hl. destruct (_ <=? _); cbn [negb]; (split; [|done || (intros _; right; by apply Hli)]); [|done].
    by intros [?|?]%elem_of_cons.
  - cbn [length]. lia.
  - intros Hx. destruct (conns_per_worker <=? active_count st + 1) eqn:Hle; [done|]. lia.
  - intros Hx. destruct (conns_per_worker <=? active_count st + 1) eqn:Hle; [|done]. split; [lia|left; lia].
  - done.
Qed.

Lemma new_connection_ok st k :
  serving st k -> server_fd ∈ k_epoll k ->
  wp (new_connection server_fd conns_per_worker st) k (event_done server_fd k).
Proof.
  intros Hs Hin. pose proof (proj1 (sv_listed _ _ Hs) Hin) as Hacc. unfold new_connection. apply wp_bind, wp_accept.
  { by apply (serving_server st). }
  2, 3: apply wp_ret; exists st; split; [done|]; split; [by apply serving_tick|]; done.
  intros fd Hfd. assert (fd ∉ k_epoll k) as Hfl.
  { intros Hx. apply Hfd. apply (sv_open _ _ Hs). destruct (decide (fd = server_fd)) as [->|]; [by left|].
    right. right. by apply elem_without. }
  apply wp_bind, wp_epoll_add; [by left|done|intros _|]; cbn [k_open k_epoll k_tick k_blocks g_session_fn negb].
  - apply wp_bind, wp_close; [by left|]. apply wp_ret. cbn [k_open k_epoll k_tick k_blocks g_session_fn next_tick app].
    rewrite without_cons, without_id by done. exists st. split; [done|]. split; [|done].
    destruct Hs. by split.
  - destruct (conns_per_worker <=? active_count st + 1) eqn:Hle.
    + eexists _, _, _. split; [done|]. eexists. split; [done|]. cbn [k_tick k_open k_epoll k_blocks g_session_fn].
      rewrite without_at. destruct (Z.eqb_spec fd server_fd) as [->|Hne]; [done|].
      destruct (serving_more st k fd (S (S (k_tick k))) (active_count st + 1) (fd :: clients k) Hs Hfd) as [H1 H2];
        [done|by rewrite Hle|done|]. rewrite Hle in H1. done.
    + apply wp_ret. eexists. split; [done|]. rewrite Hacc.
      destruct (serving_more st k fd (S (S (k_tick k))) (active_count st + 1) (fd :: k_epoll k) Hs Hfd) as [H1 H2];
        [done|by rewrite Hle|done|]. rewrite Hle in H1. done.
Qed.

(** A connection less. *)
Lemma serving_less st k fd t buf :
  serving st k -> fd ∈ clients k -> length buf = BUFFER_SIZE ->
  let a := active_count st - 1 in
  let k' l := Process t (without fd (k_open k)) l (k_blocks k) (g_session_fn k) in
  (accepting st = true -> serving (EpollState a true buf) (k' (without fd (k_epoll k)))) /\
  (accepting st = false -> serving (EpollState a true buf) (k' (server_fd :: without fd (k_epoll k))) /\
    ((exists t', sys_ok t' = false) -> serving (EpollState a false buf) (k' (without fd (k_epoll k))))).
Proof.
  intros [Hopen Hndo Hnd [Hne Hep] Hli Hc Hroom Hfull Hb] Hfd Hlen a k'.
  apply elem_without in Hfd as Hx. destruct Hx as [Hfl Hfs].
  assert (without server_fd (without fd (k_epoll k)) = without fd (clients k)) as Hcl by apply without_comm.
  assert (NoDup (clients k)) as Hndc by by apply NoDup_without.
  pose proof (length_without fd (clients k) Hndc Hfd) as Hl.
  assert (fd <> epoll_fd) as Hfe by by intros ->.
  assert (forall x l, without server_fd l = without fd (clients k) ->
    (x ∈ without fd (k_open k) <-> x = server_fd \/ x = epoll_fd \/ x ∈ without server_fd l)) as Ho.
  { intros x l ->. rewrite !elem_without, Hopen. intuition congruence. }
  assert (forall st' l, without server_fd l = without fd (clients k) -> NoDup l -> epoll_fd ∉ l ->
    (server_fd ∈ l <-> accepting st' = true) -> active_count st' = a -> ep_buf st' = buf ->
    (accepting st' = false -> exists t', sys_ok t' = false) -> serving st' (k' l)) as Hall.
  { intros st' l Hlc Hln Hle Hls Ha Hbuf Hno. split; unfold clients; cbn [k' k_open k_epoll]; rewrite ?Ha, ?Hbuf; try done.
    - intros x. by apply Ho.
    - by apply NoDup_without.
    - rewrite Hlc. unfold a. lia.
    - intros _. unfold a. destruct (accepting st); [specialize (Hroom eq_refl); lia|]. destruct (Hfull eq_refl). lia.
    - intros Hf. split; [|by right; apply Hno]. unfold a.
      destruct (accepting st); [specialize (Hroom eq_refl); lia|]. destruct (Hfull eq_refl). lia. }
  assert (epoll_fd ∉ without fd (k_epoll k)) as Hew by (intros Hx; by apply elem_without in Hx as [? _]).
  assert (NoDup (without fd (k_epoll k))) as Hnw by by apply NoDup_without.
  split; intros Hacc.
  - apply Hall; try done. split; [done|]. intros _. apply elem_without. split; [by apply Hli|done].
  - assert (server_fd ∉ without fd (k_epoll k)) as Hsn.
    { intros Hx. apply elem_without in Hx as [Hx _]. apply Hli in Hx. congruence. }
    split; [|intros Hbad]; apply Hall; try done.
    + rewrite without_at, Z.eqb_refl. done.
    + by apply NoDup_cons.
    + apply not_elem_of_cons. done.
    + split; [done|]. intros _. by left.
Qed.

Lemma without_twice fd l : without fd (without fd l) = without fd l.
Proof. apply without_id. intros Hx. by apply elem_without in Hx as [_ ?]. Qed.

Lemma existing_connection_ok st k fd :
  serving st k -> fd ∈ k_epoll k -> fd <> server_fd ->
  wp (existing_connection server_fd conns_per_worker st fd) k (event_done fd k).
Proof.
  intros Hs Hin Hne. assert (fd ∈ clients k) as Hc by by apply elem_without.
  assert (fd ∈ k_open k) as Ho by (apply (sv_open _ _ Hs); auto).
  unfold existing_connection. apply wp_bind, wp_recv; [done|by rewrite (sv_buf _ _ Hs)|]. intros bs Hl. cbn beta iota.
  assert (length (bs ++ drop (length bs) (ep_buf st)) = BUFFER_SIZE) as Hlen.
  { rewrite length_app, length_drop, (sv_buf _ _ Hs). lia. }
  destruct (Z.leb_spec (Z.of_nat (length bs)) 0) as [Hz|Hz].
  - destruct bs; [|cbn in Hz; lia]. rewrite bool_decide_true by done. cbn [length app] in *.
    eapply wp_step; [done|]. apply wp_bind, wp_close; [done|].
    cbn [k_open k_epoll k_tick k_blocks g_session_fn next_tick app]. rewrite without_twice.
    destruct (serving_less st k fd (S (k_tick k)) (drop 0 (ep_buf st)) Hs Hc Hlen) as [Ht Hf]. cbv zeta in Ht, Hf.
    assert ((active_count st - 1 <? conns_per_worker) = true) as ->.
    { destruct (accepting st) eqn:Ha; [pose proof (sv_room _ _ Hs Ha)|pose proof (sv_full _ _ Hs Ha)]; lia. }
    assert (forall x, x <> fd -> x ∈ k_epoll k -> x ∈ without fd (k_epoll k)) as Hkeep
      by (intros x Hx Hk; by apply elem_without).
    destruct (accepting st) eqn:Ha; cbn [negb andb].
    + apply wp_ret. eexists. split; [done|]. split; [by apply Ht|done].
    + destruct (Hf eq_refl) as [Hf1 Hf2]. apply wp_bind, wp_epoll_add.
      { apply elem_without. split; [by apply (serving_server st)|done]. }
      { intros Hx. apply elem_without in Hx as [Hx _]. apply (sv_listed _ _ Hs) in Hx. congruence. }
      * intros Hno. apply wp_ret. eexists. split; [done|]. split; [|done].
        assert (exists t', sys_ok t' = false) as Hbad by by eexists. specialize (Hf2 Hbad). destruct Hf2. by split.
      * apply wp_ret. eexists. split; [done|]. split; [destruct Hf1; by split|]. split; [done|].
        intros x Hx Hk. right. auto.
  - destruct bs as [|c bs]; [cbn in Hz; lia|]. rewrite bool_decide_false, Nat2Z.id by done.
    apply wp_bind, wp_send; [done|]. apply wp_ret. eexists. split; [done|]. split; [destruct Hs; by split|].
    split; [by apply (echoes_answer fd (c :: bs) (k_tick (next_tick k)) [])|done].
Qed.

Lemma handle_events_ok fds st k :
  serving st k -> NoDup fds -> fds ⊆ k_epoll k ->
  wp (handle_events server_fd conns_per_worker st fds) k
    (fun o k' es => exists st', o = Return st' /\ serving st' k' /\ echoes es).
Proof.
  revert st k. induction fds as [|fd fds IH]; intros st k Hs Hnd Hsub; cbn [handle_events].
  { apply wp_ret. by exists st. }
  apply NoDup_cons in Hnd as [Hfd Hnd]. assert (fd ∈ k_epoll k) as Hin by (apply Hsub; by left).
  apply wp_bind. assert (wp (if fd =? server_fd then new_connection server_fd conns_per_worker st
    else existing_connection server_fd conns_per_worker st fd) k (event_done fd k)) as Hev.
  { destruct (Z.eqb_spec fd server_fd) as [->|Hne]; [by apply new_connection_ok|by apply existing_connection_ok]. }
  eapply wp_mono; [exact Hev|]. intros o k' es (st' & -> & Hs' & He & Hkeep). cbn beta iota.
  eapply wp_mono; [apply IH; [exact Hs'|done|]|].
  { intros x Hx. apply Hkeep; [by intros ->|]. apply Hsub. by right. }
  intros o k'' es' (st'' & -> & Hs'' & He'). exists st''. split; [done|]. split; [done|]. echoing.
Qed.

Lemma epoll_loop_ok turns st k :
  serving st k ->
  wp (epoll_loop turns server_fd conns_per_worker st) k
    (fun o k' es => (o = Return tt \/ o = Running) /\ echoes es /\ exists st', serving st' k').
Proof.
  revert st k. induction turns as [|turns IH]; intros st k Hs; cbn [epoll_loop].
  { eexists _, _, _. split; [done|]. split; [by right|]. split; [done|]. by exists st. }
  apply serving_tick in Hs as Hs1. eapply wp_step; [done|].
  destruct (negb _).
  { apply wp_ret. split; [by left|]. split; [done|]. by exists st. }
  apply serving_tick in Hs1 as Hs2. eapply wp_step; [done|].
  destruct (sys_events _ _) as [fds| |] eqn:Hw.
  - apply events_listed in Hw as [Hnd Hsub]. apply wp_bind.
    eapply wp_mono; [apply (handle_events_ok fds st); [exact Hs2|done|exact Hsub]|].
    intros o k' es (st' & -> & Hs' & He). cbn beta iota. eapply wp_mono; [apply IH; exact Hs'|].
    intros o k'' es' (Ho & He' & Hx). split; [done|]. split; [echoing|done].
  - by apply IH.
  - apply wp_ret. split; [by left|]. split; [done|]. by exists st.
Qed.
End Worker.

(** ** The servers *)

Section Servers.
Context `{SysLaws}.

Lemma epoll_worker_ok turns server_fd conns_per_worker k :
  1 <= conns_per_worker -> k_open k = [server_fd] -> k_epoll k = [] ->
  wp (epoll_worker turns server_fd conns_per_worker) k (fun o k' es => echoes es /\
    match o with
    | Return _ => True
    | Exit code => code = 1 /\ es = []
    | Running => exists epoll_fd st, serving server_fd epoll_fd conns_per_worker st k'
    end).
Proof.
  intros Hc Ho He. unfold epoll_worker. eapply wp_step; [done|]. eapply wp_step; [done|]. cbn [k_tick k_open next_tick].
  destruct (sys_descriptor _ _) as [epoll_fd|] eqn:Hd; [|by eexists _, _, _].
  apply descriptor_fresh in Hd. rewrite Ho in Hd. apply not_elem_of_cons in Hd as [Hne _].
  eapply wp_step; [done|]. apply wp_bind, wp_epoll_add; cbn [k_open k_epoll k_tick k_blocks g_session_fn next_tick].
  { rewrite Ho. right. by left. }
  { rewrite He. apply not_elem_of_nil. }
  { intros _. by eexists _, _, _. }
  cbn [negb]. apply wp_bind. eapply wp_mono; [apply (epoll_loop_ok server_fd epoll_fd conns_per_worker)|].
  - rewrite Ho, He. split; unfold clients; cbn [k_open k_epoll active_count accepting ep_buf]; rewrite ?without_cons;
      try (by apply not_elem_of_nil); try done.
    + intros fd. rewrite !elem_of_cons, elem_of_nil. tauto.
    + apply NoDup_cons. split; [by apply not_elem_of_cons; split; [|apply not_elem_of_nil]|].
      apply NoDup_cons. split; [apply not_elem_of_nil|apply NoDup_nil_2].
    + apply NoDup_cons. split; [apply not_elem_of_nil|apply NoDup_nil_2].
    + split; [done|]. apply not_elem_of_cons. split; [done|apply not_elem_of_nil].
    + split; [done|]. intros _. by left.
    + intros _. lia.
    + apply stack_size.
  - intros o k' es (Hor & Hec & st' & Hs'). destruct Hor as [->| ->]; [|split; [done|by exists epoll_fd, st']].
    apply wp_close; [apply (sv_open _ _ _ _ _ Hs'); auto|]. split; [echoing|done].
Qed.

(** The session of a worker or child that holds a connection and, perhaps, the
    listening socket. *)
Lemma wp_session turns fd rest k :
  k_open k = fd :: rest -> fd ∉ rest -> k_epoll k = [] -> g_session_fn k = true ->
  wp (run_session turns fd) k (fun o k' es => echoes es /\ k_epoll k' = [] /\ k_blocks k' = k_blocks k /\
    g_session_fn k' = true /\ (o = Return tt /\ k_open k' = rest \/ o = Running /\ k_open k' = fd :: rest)).
Proof.
  intros Ho Hn He Hf. unfold run_session, wp. rewrite Hf.
  eapply wp_mono; [apply session_ok; rewrite Ho; by left|].
  intros o k' es ([(-> & H1 & H2)|(-> & H1 & H2)] & H3 & H4 & H5); rewrite Ho, He in *.
  - rewrite without_cons in H1 by done. split_and!; try done; [congruence|by left].
  - split_and!; try done; [congruence|by right].
Qed.

(** The process holds exactly the listening socket between connections. *)
Definition at_rest (server_fd : Z) (k : process) : Prop :=
  k_open k = [server_fd] /\ k_epoll k = [] /\ g_session_fn k = true.

(** After an [accept] at rest there is at most one connection more. *)
Lemma wp_accept_rest server_fd k Q :
  at_rest server_fd k ->
  (forall fd, fd <> server_fd -> Q (Return (Accepted fd))
     (Process (S (k_tick k)) [fd; server_fd] [] (k_blocks k) true) []) ->
  (forall r, r = AcceptEintr \/ r = AcceptError -> Q (Return r) (next_tick k) []) ->
  wp (accept server_fd) k Q.
Proof.
  intros (Ho & He & Hf) HQ Hno. apply wp_accept; [rewrite Ho; by left| |auto..].
  intros fd Hfd. rewrite Ho, He, Hf in *. apply HQ. by apply not_elem_of_cons in Hfd as [? _].
Qed.

Lemma sequential_loop_ok turns server_fd k :
  at_rest server_fd k -> wp (sequential_loop turns server_fd) k (fun o _ es => echoes es /\ forall c, o <> Exit c).
Proof.
  revert k. induction turns as [|turns IH]; intros k Hk; cbn [sequential_loop].
  { by eexists _, _, _. }
  eapply wp_step; [done|]. destruct (negb _); [by apply wp_ret|].
  apply wp_bind, wp_accept_rest; [exact Hk| |].
  - intros fd Hne. apply wp_bind. eapply wp_mono.
    { apply (wp_session turns fd [server_fd]); try done. apply not_elem_of_cons. split; [done|apply not_elem_of_nil]. }
    intros o k' es (He & H2 & _ & H4 & [[-> H5]|[-> _]]); [|done].
    eapply wp_mono; [by apply IH|]. intros o k'' es' [He' Ho]. split; [echoing|done].
  - intros r [->| ->]; cbn beta iota; by apply IH.
Qed.

Lemma worker_loop_ok turns server_fd conns_per_worker k :
  1 <= conns_per_worker -> at_rest server_fd k ->
  wp (worker_loop turns server_fd conns_per_worker) k (fun o _ es => echoes es /\ forall u, o <> Return u).
Proof.
  intros Hc Hk. unfold worker_loop. apply wp_bind. destruct (_ =? 1).
  - eapply wp_mono; [by apply sequential_loop_ok|]. intros [u|c|] k' es [He Ho]; [|by destruct (Ho c)|done].
    eexists _, _, _. split; [done|]. split; [echoing|done].
  - destruct Hk as (Ho & Hl & _). eapply wp_mono; [by apply epoll_worker_ok|]. intros [u|c|] k' es [He _]; [|done..].
    eexists _, _, _. split; [done|]. split; [echoing|done].
Qed.

Lemma create_listen_ok port k :
  k_open k = [] -> k_epoll k = [] ->
  wp (create_listen_socket port) k (fun o k' es => es = [] /\ (o = Exit 1 \/ exists fd, o = Return fd /\
    k_open k' = [fd] /\ k_epoll k' = [] /\ k_blocks k' = k_blocks k /\ g_session_fn k' = g_session_fn k)).
Proof.
  intros Ho He. unfold create_listen_socket. eapply wp_step; [done|]. destruct (sys_descriptor _ _) as [fd|].
  2: { eexists _, _, _. split; [done|]. split; [done|by left]. }
  eapply wp_step; [done|]. eapply wp_step; [done|]. destruct (negb _).
  { eexists _, _, _. split; [done|]. split; [done|by left]. }
  eapply wp_step; [done|]. destruct (negb _).
  { eexists _, _, _. split; [done|]. split; [done|by left]. }
  apply wp_ret. split; [done|]. right. exists fd. cbn. by rewrite Ho.
Qed.

(** A child ends with nothing open; the parent holds the listening socket. *)
Lemma fork_loop_ok turns server_fd k :
  at_rest server_fd k ->
  wp (fork_loop turns server_fd) k (fun o k' es => echoes es /\
    match o with
    | Return _ => False
    | Exit code => code = 0 /\ k_open k' = []
    | Running => exists fd, k_open k' = [fd]
    end).
Proof.
  revert k. induction turns as [|turns IH]; intros k Hk; cbn [fork_loop].
  { eexists _, _, _. split; [done|]. split; [done|]. exists server_fd. apply Hk. }
  apply wp_bind, wp_accept_rest; [exact Hk| |].
  2: { intros r [->| ->]; cbn beta iota; by apply IH. }
  intros fd Hne. assert (fd ∉ [server_fd]) as Hfd by (apply not_elem_of_cons; split; [done|apply not_elem_of_nil]).
  assert (forall k1, k_open k1 = [fd; server_fd] -> k_epoll k1 = [] -> g_session_fn k1 = true ->
    wp (client_close fd;; fork_loop turns server_fd) k1 (fun o k' es => echoes es /\
    match o with
    | Return _ => False
    | Exit code => code = 0 /\ k_open k' = []
    | Running => exists fd, k_open k' = [fd]
    end)) as Hparent.
  { intros k1 H1 H2 H3. apply wp_bind, wp_close; [rewrite H1; by left|]. rewrite H1, H2, without_cons by done.
    eapply wp_mono; [by apply IH|]. intros o k' es [He Ho]. split; [echoing|done]. }
  eapply wp_step; [done|]. destruct (sys_fork _) as [| |pid]; [by apply Hparent| |by apply Hparent].
  apply wp_bind, wp_close; [right; by left|]. cbn [k_open k_epoll k_tick k_blocks g_session_fn next_tick].
  assert (without server_fd [fd; server_fd] = [fd]) as ->
    by (rewrite without_at, (proj2 (Z.eqb_neq _ _) Hne), without_cons; [done|apply not_elem_of_nil]).
  apply wp_bind. eapply wp_mono; [apply (wp_session turns fd []); try done; apply not_elem_of_nil|].
  intros o k' es (He & _ & _ & _ & [[-> H5]|[-> H5]]).
  - eexists _, _, _. split; [done|]. split; [echoing|done].
  - split; [echoing|by exists fd].
Qed.

(** Only the parent comes back from starting the workers. *)
Lemma start_workers_ok turns n server_fd conns_per_worker k b :
  1 <= conns_per_worker -> at_rest server_fd k -> k_blocks k = S b ->
  wp (start_workers turns n server_fd conns_per_worker) k (fun o k' es => echoes es /\
    forall pids, o = Return pids -> es = [] /\ at_rest server_fd k' /\ k_blocks k' = S b).
Proof.
  intros Hc. revert k. induction n as [|n IH]; intros k Hk Hb; cbn [start_workers].
  { apply wp_ret. split; [done|]. done. }
  assert (cplat_free (next_tick k) = Some (Return tt, set_blocks (next_tick k) b, [])) as Hfree
    by (unfold cplat_free; cbn [next_tick k_blocks]; by rewrite Hb).
  eapply wp_step; [done|]. destruct (sys_fork _) as [| |pid].
  - eapply wp_step; [exact Hfree|]. by eexists _, _, _.
  - eapply wp_step; [exact Hfree|]. apply wp_bind. eapply wp_mono; [by apply worker_loop_ok|].
    intros [u|c|] k' es [He Ho]; [by destruct (Ho u)|done..].
  - apply wp_bind. eapply wp_mono; [by apply (IH (next_tick k))|].
    intros [pids|c|] k' es [He Ho]; [|by split..]. destruct (Ho pids eq_refl) as (-> & Hr & Hb').
    apply wp_ret. split; [done|]. by intros pids' [= <-].
Qed.

Lemma pause_loop_ok turns k :
  wp (pause_loop turns) k (fun o k' es => es = [] /\ holds k k' /\ forall c, o <> Exit c).
Proof.
  revert k. induction turns as [|turns IH]; intros k; cbn [pause_loop]; [by eexists _, _, _|].
  eapply wp_step; [done|]. destruct (negb _); [by apply wp_ret|].
  eapply wp_mono; [apply IH|]. intros o k' es (-> & Hh & Ho). split; [done|]. split; [|done].
  exact (holds_trans _ _ _ (holds_tick k) Hh).
Qed.

Lemma for_pids_run pids (e : Z -> srv_event) k :
  for_pids pids (fun pid => emit (e pid)) k = Some (Return tt, k, map e (List.filter (fun pid => 0 <? pid) pids)).
Proof.
  induction pids as [|pid pids IH]; [done|]. cbn [for_pids List.filter]. unfold mbind, Proc_bind.
  destruct (0 <? pid); unfold emit, mret, Proc_ret in *; cbn [map]; by rewrite IH.
Qed.

(** The parent terminates its workers, waits for all of them and releases what it holds. *)
Lemma prefork_server_ok turns port num_workers conns_per_worker k :
  1 <= conns_per_worker -> k_open k = [] -> k_epoll k = [] -> g_session_fn k = true ->
  wp (linux_prefork_server turns port num_workers conns_per_worker) k (fun o k' es => echoes es /\
    (o = Return tt -> k_open k' = [] /\ k_blocks k' = k_blocks k /\
      exists pids fd, es = map Terminated pids ++ map Waited pids ++ [Closed fd])).
Proof.
  intros Hc Ho He Hf. unfold linux_prefork_server. apply wp_bind. eapply wp_mono; [by apply create_listen_ok|].
  intros o k1 es (-> & [->|(fd & -> & H1 & H2 & H3 & H4)]); [by split|]. cbn beta iota.
  unfold cplat_malloc. apply bind_assoc_proc. eapply wp_step; [done|].
  destruct (sys_ok _); [|by eexists _, _, _].
  apply bind_assoc_proc. eapply wp_step; [done|]. eapply wp_step; [done|]. cbn [negb].
  apply wp_bind. eapply wp_mono; [apply (start_workers_ok turns _ fd conns_per_worker _ (k_blocks k) Hc)|].
  { split_and!; cbn; congruence. }
  { cbn. congruence. }
  intros [pids|c|] k2 es [Hec Hr]; [|by split..]. destruct (Hr pids eq_refl) as (-> & (Ho2 & He2 & Hf2) & Hb2).
  apply wp_bind. eapply wp_mono; [apply pause_loop_ok|].
  intros [u|c|] k3 es (-> & (Hh1 & Hh2 & Hh3 & Hh4) & Hx); [|by destruct (Hx c)|done].
  apply wp_bind. eexists _, _, _. split; [apply for_pids_run|]. cbn beta iota.
  apply wp_bind. eexists _, _, _. split; [apply for_pids_run|]. cbn beta iota.
  eapply wp_step. { unfold cplat_free. by rewrite Hh3, Hb2. }
  apply wp_close; cbn [k_open k_epoll set_blocks]; rewrite Hh1, Ho2; [by left|].
  set (l := List.filter _ pids). split.
  - cbn [app]. assert (forall e : Z -> srv_event, (forall pid, echoes [e pid]) -> echoes (map e l)) as Hmap.
    { intros e Hx'. induction l as [|pid l' IH]; [done|]. exact (echoes_app [e pid] _ (Hx' pid) IH). }
    repeat apply echoes_app; [by apply Hmap..|done].
  - intros _. rewrite without_cons by apply not_elem_of_nil. split; [done|]. split; [done|]. by exists l, fd.
Qed.

(** C29. A worker of the sample server keeps its connections in order.  For every
    behaviour of the system and every limit of at least two connections, a
    worker with epoll never uses a descriptor that is not open, closes no
    descriptor twice and reads into its buffer only; it answers every message
    once, on the same connection and in order, with the first bytes of the
    message, as many as the one [write] takes, and with the whole message when
    no write is short or fails (the result of the write is not looked at); while
    it runs, its counter is the number of its connections, within the limit,
    epoll watches all of them, and it listens for more unless it is full or
    [epoll_ctl] failed. *)
Theorem epoll_worker_serves turns server_fd conns_per_worker k :
  2 <= conns_per_worker -> k_open k = [server_fd] -> k_epoll k = [] ->
  exists o k' es, worker_loop turns server_fd conns_per_worker k = Some (o, k', es) /\ echoes es /\
    (forall u, o <> Return u) /\
    (o = Running -> exists epoll_fd st, serving server_fd epoll_fd conns_per_worker st k').
Proof.
  intros Hc Ho He. unfold worker_loop. rewrite (proj2 (Z.eqb_neq conns_per_worker 1)) by lia.
  apply (wp_bind (epoll_worker turns server_fd conns_per_worker) (fun _ => exit_process 0)).
  eapply wp_mono; [apply epoll_worker_ok; [lia|done|done]|]. intros [u|c|] k' es [Hec Hst]; [|by split..].
  eexists _, _, _. split; [done|]. split; [echoing|done].
Qed.

(** The sample server echoes, from [main] on.  For all arguments with at
    least one connection per worker and every behaviour of the system, no
    process of the server, parent or child, faults or calls a session function
    that is not set; every process answers each message as [echoes] says; and
    when [main] returns it holds no descriptor and no memory. *)
Theorem linux_server_echoes turns a :
  1 <= default DEFAULT_CONNS_PER_WORKER (a_conns_per_worker a) ->
  exists o k' es, main (H:=linux_platform turns) a (Process 0 [] [] 0 false) = Some (o, k', es) /\ echoes es /\
    forall code, o = Return code -> k_open k' = [] /\ k_blocks k' = O.
Proof.
  intros Hc. set (k0 := Process 0 [] [] 0 false).
  change (wp (main (H:=linux_platform turns) a) k0 (fun o k' es => echoes es /\
    forall code, o = Return code -> k_open k' = [] /\ k_blocks k' = O)).
  unfold main. eapply wp_step; [done|]. eapply wp_step; [done|]. cbn [negb].
  assert (forall code, wp (A:=Z) (@platform_cleanup (linux_platform turns);; mret code)
    (Process 0 [] [] 0 true) (fun o k' es => echoes es /\
      forall code, o = Return code -> k_open k' = [] /\ k_blocks k' = O)) as Hend.
  { intros code. eapply wp_step; [done|]. apply wp_ret. done. }
  destruct (a_register_errors a); [apply Hend|]. destruct (a_help a); [apply Hend|].
  destruct (negb _); [apply Hend|]. destruct (select_mode a) as [[]|]; [..|apply Hend]; apply wp_bind.
  - eapply wp_mono; [by apply prefork_server_ok|]. intros [u|c|] k' es [He Hr]; [|by split..]. destruct u.
    destruct (Hr eq_refl) as (H1 & H2 & _). eapply wp_step; [done|]. apply wp_ret. split; [rewrite app_nil_r; done|].
    done.
  - unfold run_fork_server, linux_platform, linux_fork_server. apply wp_bind.
    eapply wp_mono; [by apply create_listen_ok|].
    intros o k1 es (-> & [->|(fd & -> & H1 & H2 & H3 & H4)]); [by split|].
    eapply wp_mono; [by apply (fork_loop_ok turns fd k1)|]. by intros [u|c|] k' es [He Hr].
Qed.
End Servers.

(** ** An example *)

(** Descriptors are numbered upwards, every watched descriptor is ready, and a
    connection delivers a byte or ends. *)
Definition fresh_descriptor (l : list Z) : Z := 1 + foldr Z.max 0 l.
#[export] Instance demo_sys : Sys := {
  sys_ok _ := true;
  sys_descriptor _ l := Some (fresh_descriptor l);
  sys_accept _ l := Accepted (fresh_descriptor l);
  sys_recv t len := if (t mod 7 =? 4)%nat then [] else take len [Z.of_nat t];
  sys_send t len := if (t mod 11 =? 5)%nat then None else Some len;
  sys_events _ l := Ready (remove_dups l);
  sys_fork t := if (t <? 6)%nat then ForkParent 7 else ForkChild;
  sys_running t := (t <? 100)%nat;
  sys_stack _ n := replicate n 0
}.

Lemma fresh_descriptor_new l : fresh_descriptor l ∉ l.
Proof.
  assert (forall x, x ∈ l -> x <= foldr Z.max 0 l) as Hmax.
  { induction l as [|y l IH]; intros x; [by intros ?%not_elem_of_nil|]. intros [->|Hx]%elem_of_cons; cbn; [lia|].
    specialize (IH x Hx). lia. }
  intros Hin%Hmax. unfold fresh_descriptor in Hin. lia.
Qed.

#[export] Instance demo_laws : SysLaws.
Proof.
  split.
  - intros t l fd [= <-]. apply fresh_descriptor_new.
  - intros t l fd [= <-]. apply fresh_descriptor_new.
  - intros t len. cbn. destruct (_ =? _)%nat; [cbn; lia|]. rewrite length_take. cbn. lia.
  - intros t len n. cbn. destruct (_ =? _)%nat; [done|]. intros [= <-]. lia.
  - intros t l fds [= <-]. split; [apply NoDup_remove_dups|]. intros x. by rewrite elem_of_remove_dups.
  - intros t n. apply length_replicate.
Qed.

Definition demo_process : process := Process 0 [3] [] 0 true.

Lemma epoll_worker_serves_witness :
  exists o k' es, worker_loop 5 3 2 demo_process = Some (o, k', es) /\ echoes es /\ (2 < length (sent es))%nat /\
    exists epoll_fd st, serving 3 epoll_fd 2 st k'.
Proof.
  destruct (epoll_worker_serves 5 3 2 demo_process) as (o & k' & es & Hr & He & _ & Hs); [lia|reflexivity|reflexivity|].
  exists o, k', es. split; [exact Hr|]. split; [exact He|].
  assert (option_map (fun r => (match r.1.1 with Running => true | _ => false end, (2 <? length (sent r.2))%nat))
    (worker_loop 5 3 2 demo_process) = Some (true, true)) as Hc by (vm_compute; reflexivity).
  rewrite Hr in Hc. cbn in Hc. injection Hc as H1 H2. split; [by apply Nat.ltb_lt|]. apply Hs.
  clear - H1. by destruct o.
Defined.

Lemma linux_server_echoes_witness :
  exists o k' es, main (H:=linux_platform 9) (ServerArgs [] false true false None None None (Some 4))
    (Process 0 [] [] 0 false) = Some (o, k', es) /\ echoes es.
Proof.
  destruct (linux_server_echoes 9 (ServerArgs [] false true false None None None (Some 4))) as (o & k' & es & Hr & He & _);
    [vm_compute; discriminate|]. exists o, k', es. split; [exact Hr|exact He].
Defined.
