(* ===== verification/TcpServerWindows.v ===== *)
(** The sample server on Windows: tcpServer_windows.c.

    Without [fork] the server starts itself again: a child per connection
    ([--child]), or a pool of workers ([--worker]) to which the parent hands
    accepted sockets through pipes.  A worker returns a byte for every
    connection that ends; a thread of the parent counts it.  The sockets that a
    worker reads from its pipe are taken to be usable there, as the code takes
    them to be. *)

From stdpp Require Import base list numbers option strings.
From Stdlib Require Import ZArith Lia ZifyBool.
From S2P Require Import Prelude Config Text TcpServer.
Local Open Scope Z_scope.
Local Open Scope porter_scope.

Definition INT_MAX : Z := 2147483647.

Inductive pipe_read := PipeSocket (fd : Z) | PipeShort | PipeFailed.

(** What the parts of the system answer that only this file uses: pipes,
    [select], the number parsers, and the worker that [find_available_worker]
    finds, which depends on the monitor threads ([pool_step] below). *)
Class WinSys := {
  sys_pipe_read : nat -> list Z -> pipe_read;
  sys_pipe_avail : nat -> option bool;
  sys_readable : nat -> Z -> bool;
  sys_available : nat -> nat;
  sys_exepath : list Z;
  win_strtoui64 : list Z -> Z;
  win_parse_int64 : list Z -> option Z
}.

Class WinSysLaws `{WinSys} := {
  pipe_socket_fresh t l fd : sys_pipe_read t l = PipeSocket fd -> fd ∉ l
}.

Section Windows.
Context `{Sys} `{WinSys}.

Definition platform_cleanup : Proc unit := mret tt.

Definition create_listen_socket (port : Z) : Proc Z :=
  ok ← call sys_ok;
  if negb ok then exit_process 1
  else
    o ← call_open sys_descriptor;
    match o with
    | None => exit_process 1
    | Some listen_socket =>
        open_descriptor listen_socket;;
        ok ← call sys_ok;
        if negb ok then exit_process 1
        else
          ok ← call sys_ok;
          if negb ok then exit_process 1 else mret listen_socket
    end.

Definition run_as_fork_child {A} (turns : nat) (client_socket : Z) : Proc A :=
  run_session turns client_socket;;
  platform_cleanup;;
  exit_process 0.

(** *** The worker *)

(** [ReadFile] of a socket handle. *)
Definition read_socket : Proc pipe_read :=
  r ← call_open sys_pipe_read;
  match r with PipeSocket fd => open_descriptor fd;; mret r | _ => mret r end.

Fixpoint sequential_worker (turns : nat) : Proc unit :=
  match turns with
  | O => still_running
  | S turns =>
      r ← read_socket;
      match r with
      | PipeSocket client_socket =>
          run_session turns client_socket;;
          emit Notified;;
          sequential_worker turns
      | _ => mret tt
      end
  end.

(** [active], [active_count] and [buf]. *)
Record pool_state := PoolState { active : list Z; active_count : nat; pw_buf : list Z }.

(** The loop over the sockets, from the last to the first; a socket that ends
    is replaced by the last one. *)
Fixpoint scan_sockets (n : nat) (readable : Z -> bool) (st : pool_state) : Proc pool_state :=
  match n with
  | O => mret st
  | S i =>
      fd ← need (active st !! i);
      if negb (readable fd) then scan_sockets i readable st
      else
        '(n, buf) ← client_recv fd (pw_buf st) BUFFER_SIZE;
        if n <=? 0 then
          client_close fd;;
          last ← need (active st !! Nat.pred (active_count st));
          emit Notified;;
          scan_sockets i readable (PoolState (<[i:=last]> (active st)) (Nat.pred (active_count st)) buf)
        else
          client_send fd buf (Z.to_nat n);;
          scan_sockets i readable (PoolState (active st) (active_count st) buf)
  end.

(** The new socket of a turn, if the pipe holds one: [active[active_count++]]. *)
Definition take_new_socket (avail : bool) (st : pool_state) : Proc pool_state :=
  if negb avail then mret st
  else
    r ← read_socket;
    match r with
    | PipeSocket new_sock =>
        l ← need (store_char (active st) (active_count st) new_sock);
        mret (PoolState l (S (active_count st)) (pw_buf st))
    | _ => mret st
    end.

Fixpoint select_loop (turns : nat) (st : pool_state) : Proc unit :=
  match turns with
  | O => still_running
  | S turns =>
      avail ← call sys_pipe_avail;
      match avail with
      | None => mret tt
      | Some avail =>
          st ← take_new_socket avail st;
          if (active_count st =? 0)%nat then select_loop turns st
          else
            readable ← call sys_readable;
            st ← scan_sockets (active_count st) readable st;
            select_loop turns st
      end
  end.

Definition worker_loop (turns : nat) (conns_per_worker : Z) : Proc unit :=
  ok ← call sys_ok;
  if negb ok then mret tt
  else if conns_per_worker =? 1 then sequential_worker turns
  else
    ok ← cplat_malloc;
    if negb ok then mret tt
    else
      garbage ← call (fun t => sys_stack t (Z.to_nat conns_per_worker));
      buf ← call (fun t => sys_stack t BUFFER_SIZE);
      select_loop turns (PoolState garbage 0 buf);;
      cplat_free.

(** *** Starting again *)

(** The value of [--conns-per-worker] in the arguments from number [j] on. *)
Fixpoint conns_option (args : list (list Z)) : Z :=
  match args with
  | a :: ((b :: _) as rest) =>
      if bool_decide (a = cstr "--conns-per-worker") then
        match win_parse_int64 b with
        | Some parsed => if (0 <? parsed) && (parsed <=? INT_MAX) then parsed else DEFAULT_CONNS_PER_WORKER
        | None => DEFAULT_CONNS_PER_WORKER
        end
      else conns_option rest
  | _ => DEFAULT_CONNS_PER_WORKER
  end.

(** The loop over the arguments from number 1 to the last but one. *)
Fixpoint internal_args (turns : nat) (args : list (list Z)) : Proc bool :=
  match args with
  | a :: ((b :: rest') as rest) =>
      if bool_decide (a = cstr "--child") then
        let sock := win_strtoui64 b in
        open_descriptor sock;;
        run_as_fork_child turns sock
      else if bool_decide (a = cstr "--worker") then
        worker_loop turns (conns_option rest');;
        mret true
      else internal_args turns rest
  | _ => mret false
  end.

Definition quoted (exe : list Z) : list Z := [34] ++ exe ++ [34].
Definition child_command (client_socket : Z) : list Z :=
  quoted sys_exepath ++ cstr " --child " ++ decimal client_socket.
Definition worker_command (i : nat) (conns_per_worker : Z) : list Z :=
  quoted sys_exepath ++ cstr " --worker \\.\pipe\tcpserver_worker_" ++ decimal (Z.of_nat i) ++
  cstr " --conns-per-worker " ++ decimal conns_per_worker.

Fixpoint fork_loop (turns : nat) (listen_socket : Z) : Proc unit :=
  match turns with
  | O => still_running
  | S turns =>
      r ← accept listen_socket;
      match r with
      | Accepted client_socket =>
          ok ← call sys_ok;
          (if ok : bool then emit (Spawned (child_command client_socket)) else mret tt);;
          client_close client_socket;;
          fork_loop turns listen_socket
      | _ => fork_loop turns listen_socket
      end
  end.

Definition windows_fork_server (turns : nat) (port : Z) : Proc unit :=
  listen_socket ← create_listen_socket port;
  fork_loop turns listen_socket.

(** The loop that starts the workers, from number [i]: pipe, process and
    monitor thread. *)
Fixpoint start_from (n i : nat) (conns_per_worker : Z) : Proc unit :=
  match n with
  | O => mret tt
  | S n =>
      ok ← call sys_ok;
      if negb ok then cplat_free;; exit_process 1
      else
        ok ← call sys_ok;
        if negb ok then cplat_free;; exit_process 1
        else
          emit (Spawned (worker_command i conns_per_worker));;
          ok ← call sys_ok;
          if negb ok then cplat_free;; exit_process 1
          else start_from n (S i) conns_per_worker
  end.

Definition start_prefork_workers (n : nat) (conns_per_worker : Z) : Proc unit :=
  ok ← cplat_malloc;
  if negb ok then exit_process 1 else start_from n 0 conns_per_worker.

Fixpoint prefork_loop (turns : nat) (listen_socket : Z) : Proc unit :=
  match turns with
  | O => still_running
  | S turns =>
      r ← accept listen_socket;
      match r with
      | Accepted client_socket =>
          worker_id ← call sys_available;
          emit (Assigned worker_id client_socket);;
          prefork_loop turns listen_socket
      | _ => prefork_loop turns listen_socket
      end
  end.

Definition windows_prefork_server (turns : nat) (port num_workers conns_per_worker : Z) : Proc unit :=
  a ← cplat_malloc;
  b ← cplat_malloc;
  if negb (a && b) then exit_process 1
  else
    listen_socket ← create_listen_socket port;
    start_prefork_workers (Z.to_nat num_workers) conns_per_worker;;
    prefork_loop turns listen_socket.

Definition platform_init : Proc unit :=
  ok ← call sys_ok;
  if negb ok then exit_process 1 else set_session_fn.

(** The platform that [main] runs on; [turns] bounds the observation. *)
Definition windows_platform (turns : nat) : ServerPlatform := {|
  TcpServer.platform_init := platform_init;
  TcpServer.platform_cleanup := platform_cleanup;
  dispatch_internal_args argv := internal_args turns (tail argv);
  run_fork_server := windows_fork_server turns;
  run_prefork_server := windows_prefork_server turns
|}.
End Windows.

(** ** A turn of a worker *)

Definition served (es : list srv_event) : list Z :=
  omap (fun e => match e with Received fd _ => Some fd | Closed fd => Some fd | _ => None end) es.
Definition notified (es : list srv_event) : nat :=
  length (List.filter (fun e => match e with Notified => true | _ => false end) es).

Lemma served_app a b : served (a ++ b) = served a ++ served b.
Proof. apply omap_app. Qed.
Lemma notified_app a b : notified (a ++ b) = (notified a + notified b)%nat.
Proof. unfold notified. by rewrite List.filter_app, length_app. Qed.

(** Removal by the last element. *)
Lemma swap_remove (l : list Z) c i fd last :
  (i < c)%nat -> (c <= length l)%nat -> l !! i = Some fd -> l !! Nat.pred c = Some last ->
  take c l ≡ₚ fd :: take (Nat.pred c) (<[i:=last]> l).
Proof.
  intros Hi Hc Hfd Hl. destruct c as [|c]; [lia|]. cbn [Nat.pred] in *. rewrite (take_S_r _ _ _ Hl).
  destruct (decide (i = c)) as [->|Hne].
  - rewrite take_insert_ge by lia. rewrite Hl in Hfd. injection Hfd as ->. by rewrite Permutation_app_comm.
  - rewrite take_insert_lt by lia. set (l' := take c l).
    assert (l' !! i = Some fd) as Hi' by (unfold l'; rewrite lookup_take_lt by lia; done).
    rewrite <- (take_drop_middle _ _ _ Hi') at 1. rewrite insert_take_drop by by eapply lookup_lt_Some.
    rewrite <- app_assoc. cbn [app]. rewrite <- !Permutation_middle. apply perm_skip.
    by rewrite app_assoc, Permutation_app_comm.
Qed.

(** The sockets of a worker are different and open. *)
Record working (st : pool_state) (k : process) : Prop := {
  wk_count : (active_count st <= length (active st))%nat;
  wk_nodup : NoDup (take (active_count st) (active st));
  wk_open fd : fd ∈ take (active_count st) (active st) -> fd ∈ k_open k;
  wk_buf : length (pw_buf st) = BUFFER_SIZE
}.

Section Worker.
Context `{SysLaws} `{WinSys}.

(** One socket has ended. *)
Lemma working_less st k t i fd last buf :
  working st k -> (i < active_count st)%nat -> active st !! i = Some fd ->
  active st !! Nat.pred (active_count st) = Some last -> length buf = BUFFER_SIZE ->
  working (PoolState (<[i:=last]> (active st)) (Nat.pred (active_count st)) buf)
    (Process t (without fd (k_open k)) (without fd (k_epoll k)) (k_blocks k) (g_session_fn k)).
Proof.
  intros [Hc Hnd Ho Hb] Hi Hfd Hl Hlen. pose proof (swap_remove _ _ _ _ _ Hi Hc Hfd Hl) as Hp.
  pose proof Hnd as Hnd'. rewrite Hp in Hnd'. apply NoDup_cons in Hnd' as [Hn Hnd'].
  split; cbn [active active_count pw_buf k_open]; [rewrite length_insert; lia|done| |done].
  intros x Hx. apply elem_without. split; [apply Ho; rewrite Hp; by right|]. by intros ->.
Qed.

(** Every socket that is ready is served exactly once, from the last to the
    first, although the array is compacted on the way; every one that ends is
    reported once. *)
Theorem scan_serves_once n readable st k :
  working st k -> (n <= active_count st)%nat ->
  wp (scan_sockets n readable st) k (fun o k' es => exists st', o = Return st' /\ working st' k' /\ echoes es /\
    length (active st') = length (active st) /\ served es = reverse (List.filter readable (take n (active st))) /\
    (active_count st' + notified es = active_count st)%nat).
Proof.
  revert st k. induction n as [|i IH]; intros st k Hw Hn; cbn [scan_sockets].
  { apply wp_ret. exists st. split; [done|]. split; [done|]. cbn. by rewrite Nat.add_0_r. }
  pose proof Hw as [Hc Hnd Ho Hb]. destruct (lookup_lt_is_Some_2 (active st) i) as [fd Hfd]; [lia|].
  assert (fd ∈ k_open k) as Hfo.
  { apply Ho. apply list_elem_of_lookup. exists i. by rewrite lookup_take_lt. }
  assert (List.filter readable (take (S i) (active st))
    = List.filter readable (take i (active st)) ++ (if readable fd then [fd] else [])) as Hflt.
  { rewrite (take_S_r _ _ _ Hfd), List.filter_app. cbn. by destruct (readable fd). }
  rewrite Hflt, reverse_app. apply (wp_step _ _ _ fd k); [by apply need_some|].
  destruct (readable fd) eqn:Hrd; cbn [negb].
  2: { rewrite (app_nil_l (reverse _) : reverse [] ++ _ = _). apply IH; [done|lia]. }
  apply wp_bind, wp_recv; [done|by rewrite Hb|]. intros bs Hl. cbn beta iota.
  assert (length (bs ++ drop (length bs) (pw_buf st)) = BUFFER_SIZE) as Hlen.
  { rewrite length_app, length_drop, Hb. lia. }
  destruct (Z.leb_spec (Z.of_nat (length bs)) 0) as [Hz|Hz].
  - destruct bs; [|cbn in Hz; lia]. rewrite bool_decide_true by done. cbn [length app] in *.
    destruct (lookup_lt_is_Some_2 (active st) (Nat.pred (active_count st))) as [last Hla]; [lia|].
    apply wp_bind, wp_close; [done|]. eapply wp_step; [by apply need_some|]. apply wp_event.
    eapply wp_mono; [apply IH; [by eapply (working_less st k)|cbn; lia]|].
    intros o k' es (st' & -> & Hw' & He & Hla' & Hs & Hno). exists st'. split; [done|]. split; [done|].
    cbn [active active_count] in *. split; [exact (echoes_app [Closed fd; Notified] es (echoes_app [Closed fd] [Notified] ltac:(done) ltac:(done)) He)|].
    rewrite length_insert in Hla'. split; [done|].
    rewrite take_insert_ge in Hs by lia. split.
    + change (fd :: served es = fd :: reverse (List.filter readable (take i (active st)))). by rewrite Hs.
    + change (active_count st' + S (notified es) = active_count st)%nat. lia.
  - destruct bs as [|c bs]; [cbn in Hz; lia|]. rewrite bool_decide_false, Nat2Z.id by done.
    apply wp_bind, wp_send; [done|]. eapply wp_mono; [apply IH; [by split|done || (cbn; lia)]|].
    intros o k' es (st' & -> & Hw' & He & Hla' & Hs & Hno). exists st'. split; [done|]. split; [done|].
    cbn [active active_count] in *. split.
    { exact (echoes_app _ es (echoes_answer fd (c :: bs) (k_tick (next_tick k)) [] eq_refl eq_refl) He). }
    split; [done|]. split; [|exact Hno].
    change (fd :: served es = fd :: reverse (List.filter readable (take i (active st)))). by rewrite Hs.
Qed.

(** A new socket finds its place while the array is not full. *)
Lemma take_new_socket_ok `{!WinSysLaws} avail st k :
  working st k -> (active_count st < length (active st))%nat ->
  wp (take_new_socket avail st) k (fun o k' es => exists st', o = Return st' /\ working st' k' /\ es = [] /\
    length (active st') = length (active st) /\ (active_count st <= active_count st' <= S (active_count st))%nat).
Proof.
  intros Hw Hlt. unfold take_new_socket. destruct avail; cbn [negb].
  2: { apply wp_ret. exists st. split_and!; try done; lia. }
  unfold read_socket. apply bind_assoc_proc. eapply wp_step; [done|]. cbn [k_tick k_open next_tick].
  destruct (sys_pipe_read _ _) as [fd| |] eqn:Hr.
  2, 3: eapply wp_step; [done|]; apply wp_ret; exists st; split; [done|]; (split; [destruct Hw; by split|]); split; [done|]; split; [done|lia].
  apply pipe_socket_fresh in Hr. apply bind_assoc_proc. eapply wp_step; [done|]. eapply wp_step; [done|].
  eapply wp_step; [apply need_some; unfold store_char; by rewrite (proj2 (Nat.ltb_lt _ _) Hlt)|].
  destruct Hw as [Hc Hnd Ho Hb]. apply wp_ret. eexists. split; [done|].
  cbn [active active_count]. rewrite length_insert. split; [|split; [done|]; split; [done|lia]].
  assert (take (S (active_count st)) (<[active_count st:=fd]> (active st)) = take (active_count st) (active st) ++ [fd]) as Ht.
  { rewrite (take_S_r _ _ fd) by by rewrite list_lookup_insert_eq. by rewrite take_insert_ge. }
  split; cbn [active active_count pw_buf k_open]; rewrite ?length_insert, ?Ht; try done.
  - apply NoDup_app. split; [done|]. split; [|apply NoDup_singleton]. intros x Hx Hin.
    apply list_elem_of_singleton in Hin as ->. by apply Hr, Ho.
  - intros x [Hx|Hx]%elem_of_app; [right; by apply Ho|]. apply list_elem_of_singleton in Hx as ->. by left.
Qed.
End Worker.

(** ** The parent *)

Definition assigned (es : list srv_event) : list Z :=
  omap (fun e => match e with Assigned _ fd => Some fd | _ => None end) es.

Section Parent.
Context `{SysLaws} `{WinSys}.

Lemma prefork_loop_ok turns listen_socket k :
  listen_socket ∈ k_open k ->
  wp (prefork_loop turns listen_socket) k
    (fun o k' es => o = Running /\ k_open k' = reverse (assigned es) ++ k_open k).
Proof.
  revert k. induction turns as [|turns IH]; intros k Hl; cbn [prefork_loop]; [by eexists _, _, _|].
  apply wp_bind, wp_accept; [done| |exact (IH (next_tick k) Hl)..].
  intros fd Hfd. eapply wp_step; [done|]. apply wp_event.
  eapply wp_mono; [apply IH; by right|]. intros o k' es [-> Ho]. split; [done|]. rewrite Ho.
  transitivity (reverse (fd :: assigned es) ++ k_open k); [by rewrite reverse_cons, <- app_assoc|done].
Qed.

(** The parent of the pool never closes a connection it has handed out: its
    open descriptors grow with every connection. *)
Theorem prefork_parent_keeps_sockets turns listen_socket k :
  listen_socket ∈ k_open k ->
  exists k' es, prefork_loop turns listen_socket k = Some (Running, k', es) /\
    k_open k' = reverse (assigned es) ++ k_open k.
Proof.
  intros Hl. destruct (prefork_loop_ok turns listen_socket k Hl) as (o & k' & es & Hr & -> & Ho). by exists k', es.
Qed.
End Parent.

(** ** The pool: parent, pipes, workers and monitor threads *)

(** What concerns one worker: [conn_count], the sockets in its pipe, the
    sockets it holds, the bytes on their way back, and the value that its
    monitor thread has read of [conn_count] and is about to store less one. *)
Record WorkerInfo := Worker {
  conn_count : Z;
  pipe_sockets : nat;
  worker_active : nat;
  pipe_done : nat;
  monitor : option Z
}.

(** The parent has read [conn_count] of a worker and is about to store it plus
    one. *)
Record pool := Pool { workers : list WorkerInfo; parent : option (nat * Z) }.

Section Pool.
Context (conns_per_worker : Z).

(** The scan of [find_available_worker]; when there is none it waits. *)
Definition find_available_worker (ws : list WorkerInfo) : option nat :=
  fst <$> list_find (fun w => conn_count w < conns_per_worker) ws.

Definition set_worker (p : pool) (i : nat) (w : WorkerInfo) : pool := Pool (<[i:=w]> (workers p)) (parent p).

(** [conn_count++] and [conn_count--] read and store: no lock holds other
    threads off in between. *)
Inductive pool_step : pool -> pool -> Prop :=
  | step_find p i w :
      parent p = None -> find_available_worker (workers p) = Some i -> workers p !! i = Some w ->
      pool_step p (Pool (workers p) (Some (i, conn_count w)))
  | step_assign p i w v :
      parent p = Some (i, v) -> workers p !! i = Some w ->
      pool_step p (Pool (<[i:=Worker (v + 1) (S (pipe_sockets w)) (worker_active w) (pipe_done w) (monitor w)]>
                           (workers p)) None)
  | step_take p i w n :
      workers p !! i = Some w -> pipe_sockets w = S n ->
      pool_step p (set_worker p i (Worker (conn_count w) n (S (worker_active w)) (pipe_done w) (monitor w)))
  | step_end p i w n :
      workers p !! i = Some w -> worker_active w = S n ->
      pool_step p (set_worker p i (Worker (conn_count w) (pipe_sockets w) n (S (pipe_done w)) (monitor w)))
  | step_monitor_read p i w n :
      workers p !! i = Some w -> pipe_done w = S n -> monitor w = None ->
      pool_step p (set_worker p i (Worker (conn_count w) (pipe_sockets w) (worker_active w) n (Some (conn_count w))))
  | step_monitor_store p i w v :
      workers p !! i = Some w -> monitor w = Some v ->
      pool_step p (set_worker p i (Worker (v - 1) (pipe_sockets w) (worker_active w) (pipe_done w) None)).

(** What [start_prefork_workers] leaves. *)
Definition fresh_pool (n : nat) : pool := Pool (replicate n (Worker 0 0 0 0 None)) None.

(** The two threads are never both at the same counter. *)
Definition exclusive (p : pool) : Prop :=
  forall i v w, parent p = Some (i, v) -> workers p !! i = Some w -> monitor w = None.

Inductive pool_run (P : pool -> Prop) (n : nat) : pool -> Prop :=
  | run_start : pool_run P n (fresh_pool n)
  | run_step p p' : pool_run P n p -> pool_step p p' -> P p' -> pool_run P n p'.

(** The counter is the number of connections handed out and not counted back. *)
Record worker_counted (w : WorkerInfo) : Prop := {
  wc_exact : conn_count w = Z.of_nat (pipe_sockets w + worker_active w + pipe_done w + match monitor w with Some _ => 1 | None => 0 end);
  wc_limit : conn_count w <= Z.max 0 conns_per_worker;
  wc_monitor v : monitor w = Some v -> v = conn_count w
}.
Definition pool_counted (p : pool) : Prop :=
  (forall i w, workers p !! i = Some w -> worker_counted w) /\
  (forall i v w, parent p = Some (i, v) -> workers p !! i = Some w -> v = conn_count w /\ v < conns_per_worker).

(** Changing one worker that the parent does not count. *)
Lemma counted_set p i w :
  pool_counted p -> worker_counted w ->
  (forall v, parent p = Some (i, v) -> v = conn_count w /\ v < conns_per_worker) -> pool_counted (set_worker p i w).
Proof.
  intros [Hw Hp] Hwc Hpar. split; cbn [workers parent set_worker].
  - intros j w' [[-> [<- _]]|[_ Hj]]%list_lookup_insert_Some; [done|by apply (Hw j)].
  - intros j v w' Hj [[-> [<- _]]|[_ Hl]]%list_lookup_insert_Some; [by apply Hpar|by apply (Hp j v)].
Qed.

Lemma counted_step p p' : pool_counted p -> exclusive p -> exclusive p' -> pool_step p p' -> pool_counted p'.
Proof.
  intros Hpc Hex Hex' Hstep. pose proof Hpc as [Hw Hp].
  destruct Hstep as [p i w Hpar Hf Hi|p i w v Hpar Hi|p i w n Hi Hn|p i w n Hi Hn|p i w n Hi Hn Hm|p i w v Hi Hm];
    pose proof (Hw i w Hi) as [H1 H2 H3].
  - split; [done|]. cbn [parent workers]. intros j v w' [= <- <-] Hj. rewrite Hi in Hj. injection Hj as <-.
    unfold find_available_worker in Hf. apply fmap_Some in Hf as ([j' w'] & Hlf & [= ->]).
    apply list_find_Some in Hlf as (Hj & Hlt & _). rewrite Hi in Hj. by injection Hj as <-.
  - destruct (Hp i v w Hpar Hi) as [-> Hlt]. pose proof (Hex i _ w Hpar Hi) as Hm. rewrite Hm in *.
    split; cbn [workers parent]; [|done].
    intros j w' [[-> [<- _]]|[_ Hj]]%list_lookup_insert_Some; [|by apply (Hw j)]. split; cbn; [lia|lia|done].
  - apply counted_set; [done|split; cbn; [destruct (monitor w); lia|done|done]|]. intros v Hpar. by apply (Hp i v w).
  - apply counted_set; [done|split; cbn; [destruct (monitor w); lia|done|done]|]. intros v Hpar. by apply (Hp i v w).
  - rewrite Hm in *. apply counted_set; [done|split; cbn; [lia|done|by intros v [= <-]]|]. intros v Hpar. by apply (Hp i v w).
  - pose proof (H3 v Hm) as Hv. rewrite Hm in *. subst v. apply counted_set; [done|split; cbn; [lia|lia|done]|].
    intros v Hpar. pose proof (Hex i v w Hpar Hi). congruence.
Qed.

(** While the threads keep off each other's counter, a worker never gets a
    socket more than its array holds. *)
Theorem pool_bounded n p i w :
  pool_run exclusive n p -> workers p !! i = Some w ->
  Z.of_nat (pipe_sockets w + worker_active w) <= Z.max 0 conns_per_worker.
Proof.
  intros Hrun. assert (pool_counted p /\ exclusive p) as [[Hw _] _].
  { induction Hrun as [|p p' _ [IH Hex] Hstep Hex'].
    - split; [|by intros i' v w']. split; [|done]. intros i' w' Hl. apply lookup_replicate in Hl as [-> _].
      split; cbn; [done|lia|done].
    - split; [by eapply counted_step|done]. }
  intros Hi. destruct (Hw i w Hi) as [H1 H2 _]. lia.
Qed.

(** *** Without a lock *)

Definition any_run : pool -> Prop := pool_run (fun _ => True) 1.
Definition lone (w : WorkerInfo) : pool := Pool [w] None.

Lemma any_step p p' : any_run p -> pool_step p p' -> any_run p'.
Proof. intros Hr Hs. by apply (run_step _ _ p). Qed.

Lemma find_lone w : conn_count w < conns_per_worker -> find_available_worker [w] = Some O.
Proof. intros Hlt. unfold find_available_worker. cbn. by rewrite decide_True. Qed.

(** The parent hands out sockets while the counter is below the limit. *)
Lemma assign_lone c s a d :
  c < conns_per_worker -> any_run (lone (Worker c s a d None)) -> any_run (lone (Worker (c + 1) (S s) a d None)).
Proof.
  intros Hc Hr. eapply any_step; [eapply any_step; [exact Hr|]|].
  - eapply (step_find _ O); [done|by apply find_lone|done].
  - by apply (step_assign (Pool [Worker c s a d None] (Some (O, c))) O (Worker c s a d None) c).
Qed.

Lemma fill_lone n c s a d :
  c + Z.of_nat n <= conns_per_worker -> any_run (lone (Worker c s a d None)) ->
  any_run (lone (Worker (c + Z.of_nat n) (s + n) a d None)).
Proof.
  revert c s. induction n as [|n IH]; intros c s Hn Hr; [by rewrite Z.add_0_r, Nat.add_0_r|].
  replace (c + Z.of_nat (S n)) with (c + 1 + Z.of_nat n) by lia. replace (s + S n)%nat with (S s + n)%nat by lia.
  apply IH; [lia|]. apply assign_lone; [lia|done].
Qed.

(** The worker takes what is in its pipe. *)
Lemma drain_lone s c a d :
  any_run (lone (Worker c s a d None)) -> any_run (lone (Worker c 0 (a + s) d None)).
Proof.
  revert a. induction s as [|s IH]; intros a Hr; [by rewrite Nat.add_0_r|].
  replace (a + S s)%nat with (S a + s)%nat by lia. apply IH. eapply any_step; [exact Hr|].
  by apply (step_take (lone (Worker c (S s) a d None)) O (Worker c (S s) a d None) s).
Qed.

(** The counters of the worker pool are not protected.  In a pool of one
    worker, for every limit of at least two connections, the parent and the
    monitor thread can interleave [conn_count++] and [conn_count--] so that the
    parent hands out one socket more than the limit; the worker, which relies on
    the parent, then stores it behind the end of its array.  ([pool_bounded]:
    this needs both threads at the same counter.) *)
Theorem pool_race_overflows :
  2 <= conns_per_worker ->
  exists p w, any_run p /\ workers p !! O = Some w /\ Z.of_nat (worker_active w) = conns_per_worker + 1.
Proof.
  intros Hc. assert (any_run (lone (Worker 0 0 0 0 None))) as H0 by apply run_start.
  apply (assign_lone 0 0 0 0) in H0; [|lia]. apply (drain_lone 1 1 0 0) in H0. cbn [Nat.add] in H0.
  assert (any_run (lone (Worker 1 0 0 1 None))) as H1.
  { eapply any_step; [exact H0|]. by apply (step_end (lone (Worker 1 0 1 0 None)) O (Worker 1 0 1 0 None) O). }
  assert (any_run (lone (Worker 1 0 0 0 (Some 1)))) as H2.
  { eapply any_step; [exact H1|]. by apply (step_monitor_read (lone (Worker 1 0 0 1 None)) O (Worker 1 0 0 1 None) O). }
  assert (any_run (Pool [Worker 1 0 0 0 (Some 1)] (Some (O, 1)))) as H3.
  { eapply any_step; [exact H2|]. apply (step_find (lone (Worker 1 0 0 0 (Some 1))) O (Worker 1 0 0 0 (Some 1)));
      [done|apply find_lone; cbn; lia|done]. }
  assert (any_run (lone (Worker 2 1 0 0 (Some 1)))) as H4.
  { eapply any_step; [exact H3|].
    by apply (step_assign (Pool [Worker 1 0 0 0 (Some 1)] (Some (O, 1))) O (Worker 1 0 0 0 (Some 1)) 1). }
  assert (any_run (lone (Worker 0 1 0 0 None))) as H5.
  { eapply any_step; [exact H4|].
    by apply (step_monitor_store (lone (Worker 2 1 0 0 (Some 1))) O (Worker 2 1 0 0 (Some 1)) 1). }
  apply (fill_lone (Z.to_nat conns_per_worker)) in H5; [|lia]. apply drain_lone in H5.
  eexists _, _. split; [exact H5|]. split; [reflexivity|]. cbn [worker_active]. lia.
Qed.
End Pool.

Lemma pool_race_overflows_witness :
  exists p w, any_run 4 p /\ workers p !! O = Some w /\ Z.of_nat (worker_active w) = 5.
Proof. destruct (pool_race_overflows 4) as (p & w & Hr & Hw & Ha); [lia|]. exists p, w. split; [exact Hr|split; [exact Hw|exact Ha]]. Defined.
